(* ===== verification/_CoqProject ===== *)
-Q . S2P
Prelude.v
Wire.v
Core.v
SocketAddr.v
Platform.v
Store.v
RedbStore.v
CertificateWire.v
Certificates.v
Symmetric.v
SecretFile.v
ToyCrypto.v
SecretFileFacts.v
CertificateChain.v
Snapshot.v
Presence.v
Validate.v
PresenceFacts.v
Lan.v
Directory.v
LanFacts.v
DirectoryFacts.v
Envelope.v
EnvelopeChain.v
ConfigState.v
ConfigStateFacts.v
JoinTicket.v
Authority.v
AuthorityFacts.v
AuthorityChain.v
AuthorityOps.v
Initialize.v
Identity.v
IdentityFacts.v
Invitation.v
InvitationFacts.v
InvitationChain.v
Transcripts.v
NetProtocol.v
NetAuthorizer.v
NetSync.v
NetProtocolFacts.v
NetAuthorizerFacts.v
NetSyncFacts.v
Membership.v
MembershipFacts.v
RelayServer.v
RelayServerFacts.v
Enrollment.v
NetworkHandle.v
NetworkHandleFacts.v
NodeCli.v
NodeCliFacts.v
