(* ===== verification/Prelude.v ===== *)
(** * Weaver: a verification development

    Weaver is a private overlay network.  An authority issues credentials, publishes an
    encrypted, signed and hash-linked chain of network configurations, and admits devices.
    Members keep the chain, check it, and act only on what it authorises: they announce
    themselves with encrypted presence records and on the local network, synchronise their
    configuration with peers and relays, and open streams to each other over QUIC.  This
    library models the Rust crates under [src/crates] as executable functions and proves
    that they do what their callers rely on.

    ** Conventions

    Bytes, arrays and strings are [list byte]; array lengths are part of the
    well-formedness predicates ([_wf], [_typed]).  Machine integers are [Z] with their
    range ([is_u8] .. [is_u64]) and the overflow behaviour the code chose ([checked_add],
    [saturating_add], [saturating_sub], truncating casts).  A fallible function returns
    [result E A] with the error enumeration of the source; [?] is monadic bind.  A method
    that mutates [self] takes the state and returns it with its result, on every path;
    where a whole file threads stores through its calls it has a state monad of its own
    ([SecretFile.fsm], [Membership.memb], [NodeCli.cli]), which keeps what has been written
    when a program ends in an error.  [HashMap] and [HashSet] are [gmap] and [gset].  A
    computation that draws randomness consumes a list of the answers of the random source
    ([Symmetric.rnd]); clocks, file systems and networks answer through arguments too.
    Tasks that share state behind locks are steps on that state, a step for each stretch
    under a guard, and a run is a list of them in any order.

    Code that is not part of the repository is an interface: Ed25519, BLAKE3
    ([Certificates]), AEAD and HPKE ([Symmetric]), redb ([RedbStore]) and its file lock
    ([RelayServer.RedbFile]), hexadecimal text ([SecretFile.Hex]), Base64 ([Invitation]),
    key generation ([Initialize.KeyGen]), iroh's identifiers and addresses
    ([Platform.Platform]) and connections ([NetProtocol.Transport]), QR codes
    ([RelayServer.QrCode]).  Each interface has a class of operations and, where it is
    relied upon, a class of laws that state documented behaviour; [ToyCrypto] and the
    witness modules give concrete instances, so no hypothesis is vacuous.  Inside the
    program [StateStore] and [SecretStore] ([Store]), [NetworkAuthorizer]
    ([NetAuthorizer]), [ConfigUpdateSource] and [OpaquePresenceStore] ([NetProtocol]) are the
    traits of the source: clients are proved against the laws of the classes, and the
    in-memory, redb and file stores are proved to keep them.

    ** Files

    - [Prelude]: results, bytes, integers, ASCII and UTF-8 text, byte order, lists.
    - [Wire]: the [Decoder] every crate carries, as a monad, with one logic for each
      direction of a codec ([steps], [Reads]) and one for errors ([fails]).
    - [Core]: weaver-core (identifiers, virtual addresses, [VirtualName]).
    - [SocketAddr], [Platform]: socket addresses of the standard library and their text;
      what is used of iroh.
    - [Store], [RedbStore], [SecretFile], [SecretFileFacts]: weaver-store (lib.rs,
      redb_store.rs, secret_file.rs).
    - [CertificateWire], [Certificates], [CertificateChain]: weaver-crypto.
    - [Symmetric], [ToyCrypto]: the encryption interfaces and their concrete instance.
    - [Snapshot], [Validate]: weaver-config/src/snapshot.rs.
    - [Envelope], [EnvelopeChain]: weaver-config/src/lib.rs.
    - [Presence], [PresenceFacts], [Lan], [LanFacts], [Directory], [DirectoryFacts]:
      weaver-discovery (presence records; protected discovery on the local network; the
      lookup, the cache and the directory with the task that feeds them).
    - [ConfigState], [ConfigStateFacts]: weaver-net/src/config_state.rs.
    - [JoinTicket], [Authority], [AuthorityFacts], [AuthorityChain], [AuthorityOps],
      [Initialize]: weaver-relay-core/src/lib.rs.
    - [Invitation], [InvitationFacts], [InvitationChain]: weaver-relay-core/src/invitation.rs,
      and the authority under all its requests.
    - [Transcripts]: the bytes under every signature of the system.
    - [Identity], [IdentityFacts]: weaver-net/src/identity.rs.
    - [NetProtocol], [NetAuthorizer], [NetSync] with their [Facts]: weaver-net/src/lib.rs
      (the wire protocols at both ends and the dialer; the authorizers and the accept loop;
      the loops that synchronise configuration and presence).
    - [Membership], [MembershipFacts]: weaver-net/src/membership.rs.
    - [NetworkHandle], [NetworkHandleFacts]: weaver-net/src/network_handle.rs with the
      endpoint of lib.rs.
    - [RelayServer], [RelayServerFacts]: weaver-relay/src/main.rs.
    - [Enrollment]: the device of [Membership] and the relay of [RelayServer] together.
    - [NodeCli], [NodeCliFacts]: weaver-cli/src/main.rs.
    A file named after a component holds its data and operations; [Facts], [Chain] and
    [Ops] files hold its invariants and theorems.  The comment above a definition names
    the lines it translates.

    ** What the theorems show

    - Codecs: what parses is exactly what is serialised, with the two exceptions recorded
      as theorems ([full_batch_refused], [bootstrap_messages_round_trip]).
    - Trust: accepted credentials and configurations are authentic link by link, honestly
      issued ones are accepted, validation decides a declarative notion of validity, and
      no signature can be taken for one of another message or kind of message.
    - Storage: the durable store refines the in-memory store under arbitrary backend
      failures; commits are atomic; versions are never reused.  Sealed secrets survive a
      loss of power once the seal is acknowledged.
    - Chain: the authority's history only grows and stays hash-linked over all requests and
      failures; members reach exactly the authority's configuration; updates are all or
      nothing and survive a restart while what was stored is valid; revoked members and
      outsiders are shut out; expired members lock the configuration.
    - Admission: tickets and invitations work end to end, and only once; an invited device
      that talks to the relay's bootstrap endpoint ends as a member, and what it has joined
      opens; leaving forgets that network and nothing else.
    - Identity: processes that create an identity at the same time agree on it, and each
      finishes in a fixed number of its own steps.
    - Discovery: only authenticated addresses are offered, presence records are those of
      members who may publish them and never roll back, and what is published is found.
    - Connections: a stream is accepted exactly when the configuration entitles its source;
      an open handle connects only to members entitled to the address, and its authorizer,
      persisted state and announcements follow one configuration.
    - Synchronisation: a sync reaches the peer's head, one good peer suffices whoever else
      writes to the state, and retries stay within their bounds.
    - Processes: the relay lets in exactly the members of its configuration, up to the
      enrolments under way, a serving relay excludes every other process, and neither the relay's commands nor those of a
      node lose what has been stored.

    ** Bounds and fuel

    Decoders recurse over counts they have read, and every count is bounded by the code's
    own limits.  [trim] uses the length of the string as fuel, and every step shortens it;
    decimal and hexadecimal printing use the number of digits of the type.  Loops that run
    for ever ([spawn] tasks, accept loops, reloads) are steps, one or more per turn, and
    theorems about them are over runs of any length.  No theorem assumes that fuel suffices.

    ** Not modelled

    The sockets and listeners of the application (VirtualTcpStream, VirtualUdpSocket),
    which forward reads, writes and polling to QUIC and to channels; iroh's relay server,
    TLS and logging in weaver-relay; the directories [init] creates and file permissions;
    the parsing of command lines and what is printed; the shutdown of runtimes and [Debug]
    output; the simulator weaver-net-sim, a benchmark that drives real endpoints and holds
    no logic of the system. *)

From Stdlib Require Export ZArith Lia.
From Stdlib Require Export Strings.Byte Strings.String.
From stdpp Require Export base tactics option gmap sets countable sorting list_numbers list.

#[global] Set Default Goal Selector "!".

(** The notations of the development live in a scope of their own. *)
Declare Scope weaver_scope.
Delimit Scope weaver_scope with weaver.
#[global] Open Scope weaver_scope.
#[global] Open Scope Z_scope.

(** ** Rust results

    [Result<A, E>] with [?] as stdpp's monadic bind. *)
Inductive result (E A : Type) : Type :=
| Ok (a : A)
| Err (e : E).
Arguments Ok {E A} a.
Arguments Err {E A} e.

#[global] Instance result_ret E : MRet (result E) := fun A a => Ok a.
#[global] Instance result_bind E : MBind (result E) := fun A B f m =>
  match m with Ok a => f a | Err e => Err e end.
#[global] Instance result_fmap E : FMap (result E) := fun A B f m =>
  match m with Ok a => Ok (f a) | Err e => Err e end.
#[global] Instance result_eq_dec `{EqDecision E, EqDecision A} : EqDecision (result E A).
Proof. solve_decision. Defined.

Definition is_ok {E A} (r : result E A) : bool :=
  match r with Ok _ => true | Err _ => false end.

(** The value of a computation that is known to succeed. *)
Definition get_ok {E A} (r : result E A) : match r with Ok _ => A | Err _ => unit end :=
  match r with Ok a => a | Err _ => tt end.

Definition ok_else {E A} (d : A) (r : result E A) : A := match r with Ok a => a | Err _ => d end.
Lemma is_ok_else {E A} (d : A) (r : result E A) : is_ok r = true -> r = Ok (ok_else d r).
Proof. by destruct r. Qed.

(** [map_err], [Option::ok_or], and the early return [if bad { return Err(e) }]. *)
Definition map_err {E F A} (f : E -> F) (r : result E A) : result F A :=
  match r with Ok a => Ok a | Err e => Err (f e) end.
Definition ok_or {E A} (o : option A) (e : E) : result E A :=
  match o with Some a => Ok a | None => Err e end.
Definition fail_if {E} (bad : bool) (e : E) : result E unit :=
  if bad then Err e else Ok tt.

Notation "o '??' e" := (ok_or o e) (at level 58, no associativity) : weaver_scope.

(** [for x in xs { f(x)?; }] and [xs.map(f).collect::<Result<Vec<_>, _>>()]. *)
Fixpoint for_each {E A} (f : A -> result E unit) (xs : list A) : result E unit :=
  match xs with
  | [] => Ok tt
  | x :: xs => f x;; for_each f xs
  end.
Fixpoint try_map {E A B} (f : A -> result E B) (xs : list A) : result E (list B) :=
  match xs with
  | [] => Ok []
  | x :: xs => y ← f x; ys ← try_map f xs; Ok (y :: ys)
  end.
Fixpoint try_fold {E A S} (f : S -> A -> result E S) (s : S) (xs : list A) : result E S :=
  match xs with
  | [] => Ok s
  | x :: xs => s' ← f s x; try_fold f s' xs
  end.

Section result_facts.
Context {E : Type}.

Lemma Ok_inj {A} (a b : A) : Ok (E := E) a = Ok b -> a = b.
Proof. congruence. Qed.

Lemma bind_Ok {A B} (m : result E A) (f : A -> result E B) b :
  (m ≫= f) = Ok b <-> exists a, m = Ok a /\ f a = Ok b.
Proof. destruct m; cbn; naive_solver. Qed.

Lemma bind_Err {A B} (m : result E A) (f : A -> result E B) e :
  (m ≫= f) = Err e <-> m = Err e \/ exists a, m = Ok a /\ f a = Err e.
Proof. destruct m; cbn; naive_solver. Qed.

Lemma fail_if_Ok (bad : bool) (e : E) u : fail_if bad e = Ok u <-> bad = false.
Proof. destruct bad, u; cbn; naive_solver. Qed.

Lemma fail_if_Err (bad : bool) (e e' : E) :
  fail_if bad e = Err e' <-> bad = true /\ e' = e.
Proof. destruct bad; cbn; naive_solver. Qed.

Lemma ok_or_Ok {A} (o : option A) (e : E) a : o ?? e = Ok a <-> o = Some a.
Proof. destruct o; cbn; naive_solver. Qed.

Lemma ok_or_Err {A} (o : option A) (e e' : E) : o ?? e = Err e' <-> o = None /\ e' = e.
Proof. destruct o; cbn; naive_solver. Qed.

Lemma map_err_Ok {F A} (f : F -> E) (r : result F A) a : map_err f r = Ok a <-> r = Ok a.
Proof. destruct r; cbn; naive_solver. Qed.

Lemma map_err_Err {F A} (f : F -> E) (r : result F A) e : map_err f r = Err e <-> exists x, r = Err x /\ e = f x.
Proof. destruct r; cbn; naive_solver. Qed.

Lemma for_each_Ok {A} (f : A -> result E unit) xs u :
  for_each f xs = Ok u <-> Forall (fun x => f x = Ok tt) xs.
Proof.
  destruct u; induction xs as [|x xs IH]; cbn; [naive_solver|].
  rewrite Forall_cons, <- IH; destruct (f x) as [[]|]; cbn; naive_solver.
Qed.

Lemma try_map_Ok {A B} (f : A -> result E B) xs ys :
  try_map f xs = Ok ys <-> Forall2 (fun x y => f x = Ok y) xs ys.
Proof.
  revert ys; induction xs as [|x xs IH]; intros ys; cbn.
  - split; [intros [= <-]; constructor | inversion 1; done].
  - rewrite bind_Ok; split.
    + intros (y & Hy & (ys' & Hys & [= <-])%bind_Ok); constructor; [done | by apply IH].
    + inversion 1; subst; eexists; split; [done|]; apply bind_Ok; naive_solver.
Qed.
End result_facts.

(** [res_inv] turns a successful run of a [?]-chain into one equation per
    step; it closes goals whose chain cannot have succeeded. *)
Ltac res_inv_step :=
  match goal with
  | H : Ok _ = Ok _ |- _ => apply Ok_inj in H; subst
  | H : (_, _) = (_, _) |- _ => apply pair_equal_spec in H as [? ?]; subst
  | H : Err _ = Ok _ |- _ => discriminate H
  | H : Ok _ = Err _ |- _ => discriminate H
  | H : (_ ≫= _) = Ok _ |- _ => apply bind_Ok in H as (? & ? & H)
  | H : fail_if _ _ = Ok _ |- _ => apply fail_if_Ok in H
  | H : ok_or _ _ = Ok _ |- _ => apply ok_or_Ok in H
  | H : map_err _ _ = Ok _ |- _ => apply map_err_Ok in H
  | H : for_each _ _ = Ok _ |- _ => apply for_each_Ok in H
  | H : mret _ = Ok _ |- _ => apply Ok_inj in H; subst
  | x : unit |- _ => destruct x
  | p : _ * _ |- _ => destruct p
  end.
Ltac res_inv := repeat (res_inv_step; cbn beta iota in * ).

(** Boolean guards to propositions. *)
Ltac bool_inv :=
  repeat match goal with
  | H : _ || _ = false |- _ => apply orb_false_iff in H as [? H]
  | H : _ && _ = true |- _ => apply andb_true_iff in H as [? H]
  | H : negb _ = true |- _ => apply negb_true_iff in H
  | H : negb _ = false |- _ => apply negb_false_iff in H
  | H : bool_decide _ = true |- _ => apply bool_decide_eq_true in H
  | H : bool_decide _ = false |- _ => apply bool_decide_eq_false in H
  | H : (_ <? _)%Z = true |- _ => apply Z.ltb_lt in H
  | H : (_ <? _)%Z = false |- _ => apply Z.ltb_ge in H
  | H : (_ <=? _)%Z = true |- _ => apply Z.leb_le in H
  | H : (_ <=? _)%Z = false |- _ => apply Z.leb_gt in H
  | H : (_ =? _)%Z = true |- _ => apply Z.eqb_eq in H
  | H : (_ =? _)%Z = false |- _ => apply Z.eqb_neq in H
  end.

(** ** Bytes

    [Vec<u8>], [&[u8]], [[u8; N]] and the UTF-8 contents of a [String] are
    lists of bytes; a fixed-size array is a list whose length is part of its
    owner's well-formedness predicate. *)
Abbreviation bytes := (list Byte.byte).

#[global] Instance byte_eq_dec : EqDecision Byte.byte := Byte.byte_eq_dec.
#[global] Program Instance byte_countable : Countable Byte.byte :=
  inj_countable Byte.to_N Byte.of_N _.
Next Obligation. intros b; apply Byte.of_to_N. Qed.

(** The bytes of an ASCII literal such as [b"WVRADM"]. *)
Definition bstr (s : string) : bytes := list_byte_of_string s.
#[global] Arguments bstr _ : simpl never.

Definition byte_val (b : Byte.byte) : Z := Z.of_N (Byte.to_N b).
(** [z as u8]: truncation to eight bits. *)
Definition byte_of_Z (z : Z) : Byte.byte :=
  match Byte.of_N (Z.to_N (z mod 256)) with Some b => b | None => Byte.x00 end.

(** The length of a byte sequence as the code sees it ([usize]). *)
Definition len {A} (xs : list A) : Z := Z.of_nat (length xs).

Definition in_range (bits : Z) (z : Z) : bool := (0 <=? z) && (z <? 2 ^ bits).
Abbreviation is_u8 := (in_range 8).
Abbreviation is_u16 := (in_range 16).
Abbreviation is_u32 := (in_range 32).
Abbreviation is_u64 := (in_range 64).
Definition U64_MAX : Z := 2 ^ 64 - 1.

(** [checked_add], [saturating_add] and [saturating_sub] on [u64]. *)
Definition checked_add (a b : Z) : option Z :=
  if a + b <=? U64_MAX then Some (a + b) else None.
Definition saturating_add (a b : Z) : Z := Z.min (a + b) U64_MAX.
Definition saturating_sub (a b : Z) : Z := Z.max (a - b) 0.

(** [to_be_bytes] at a width of [n] bytes, and [from_be_bytes]. *)
Fixpoint to_be (n : nat) (z : Z) : bytes :=
  match n with
  | O => []
  | S n => byte_of_Z (z / 2 ^ (8 * Z.of_nat n)) :: to_be n z
  end.
Definition from_be (bs : bytes) : Z :=
  fold_left (fun acc b => acc * 256 + byte_val b) bs 0.

Section byte_facts.
Lemma byte_val_range b : 0 <= byte_val b < 256.
Proof.
  unfold byte_val; pose proof (Byte.to_N_bounded b); lia.
Qed.

Lemma byte_of_val b : byte_of_Z (byte_val b) = b.
Proof.
  unfold byte_of_Z; rewrite Z.mod_small by apply byte_val_range.
  unfold byte_val; rewrite N2Z.id, Byte.of_to_N; done.
Qed.

Lemma byte_val_of_Z z : byte_val (byte_of_Z z) = z mod 256.
Proof.
  unfold byte_of_Z; pose proof (Z.mod_pos_bound z 256 ltac:(lia)) as Hz.
  destruct (Byte.of_N (Z.to_N (z mod 256))) as [b|] eqn:Hb.
  - apply Byte.to_of_N in Hb; unfold byte_val; rewrite Hb; lia.
  - apply Byte.of_N_None_iff in Hb; lia.
Qed.

Lemma byte_val_inj b c : byte_val b = byte_val c -> b = c.
Proof. intros H; rewrite <- (byte_of_val b), H; apply byte_of_val. Qed.

Lemma pow2_pos n : 0 <= n -> 0 < 2 ^ n.
Proof. intros; apply Z.pow_pos_nonneg; lia. Qed.

Lemma length_to_be n z : length (to_be n z) = n.
Proof. induction n; cbn; congruence. Qed.

Lemma from_be_acc bs acc :
  fold_left (fun acc b => acc * 256 + byte_val b) bs acc
  = acc * 2 ^ (8 * Z.of_nat (length bs)) + from_be bs.
Proof.
  unfold from_be; revert acc; induction bs as [|b bs IH]; intros acc; cbn -[Z.mul Z.add Z.pow].
  - rewrite Z.mul_0_r; lia.
  - rewrite (IH (acc * 256 + _)), (IH (0 * 256 + _)), Nat2Z.inj_succ, Z.mul_succ_r, Z.pow_add_r by lia.
    lia.
Qed.

Lemma from_be_cons b bs :
  from_be (b :: bs) = byte_val b * 2 ^ (8 * Z.of_nat (length bs)) + from_be bs.
Proof. unfold from_be at 1; cbn -[Z.mul Z.add]; apply from_be_acc. Qed.

Lemma from_be_range bs : 0 <= from_be bs < 2 ^ (8 * Z.of_nat (length bs)).
Proof.
  induction bs as [|b bs IH]; [done|].
  rewrite from_be_cons; cbn [length]; rewrite Nat2Z.inj_succ, Z.mul_succ_r, Z.pow_add_r by lia.
  pose proof (byte_val_range b); nia.
Qed.

Lemma from_to_be n z : from_be (to_be n z) = z mod 2 ^ (8 * Z.of_nat n).
Proof.
  induction n as [|n IH]; [cbn; by rewrite Z.mod_1_r|].
  cbn [to_be]; rewrite from_be_cons, length_to_be, IH, byte_val_of_Z.
  rewrite Nat2Z.inj_succ, Z.mul_succ_r, Z.pow_add_r by lia.
  pose proof (pow2_pos (8 * Z.of_nat n) ltac:(lia)); rewrite Z.rem_mul_r by lia; change (2 ^ 8) with 256; lia.
Qed.

Lemma to_be_mod n m z :
  (n <= m)%nat -> to_be n (z mod 2 ^ (8 * Z.of_nat m)) = to_be n z.
Proof.
  induction n as [|n IH]; intros Hn; cbn [to_be]; [done|].
  rewrite IH by lia; f_equal; apply byte_val_inj; rewrite !byte_val_of_Z.
  pose proof (pow2_pos (8 * Z.of_nat n) ltac:(lia)).
  pose proof (pow2_pos (8 * (Z.of_nat m - Z.of_nat n - 1)) ltac:(lia)).
  replace (8 * Z.of_nat m) with (8 * Z.of_nat n + (8 + 8 * (Z.of_nat m - Z.of_nat n - 1))) by lia.
  rewrite Z.pow_add_r by lia; rewrite Z.rem_mul_r, (Z.mul_comm (2 ^ _)), Z.div_add by lia.
  rewrite Z.div_small by (apply Z.mod_pos_bound; lia); rewrite Z.add_0_l.
  rewrite Z.pow_add_r by lia; rewrite Z.rem_mul_r by lia.
  change (2 ^ 8) with 256; rewrite (Z.mul_comm 256), Z.mod_add by lia; apply Z.mod_mod; lia.
Qed.

Lemma to_from_be bs : to_be (length bs) (from_be bs) = bs.
Proof.
  induction bs as [|b bs IH]; [done|]; cbn [length to_be].
  pose proof (from_be_range bs); rewrite from_be_cons; f_equal.
  - rewrite Z.div_add_l, Z.div_small, Z.add_0_r by lia; apply byte_of_val.
  - rewrite <- (to_be_mod _ (length bs)), Z.add_comm, Z.mod_add by lia.
    by rewrite to_be_mod.
Qed.
Lemma to_from_be_n n bs : length bs = n -> to_be n (from_be bs) = bs.
Proof. intros <-; apply to_from_be. Qed.
End byte_facts.
#[global] Arguments to_be _ _ : simpl never.
#[global] Arguments from_be _ : simpl never.

(** ** Strings

    [str::is_ascii], [str::split(char)] and [str::from_utf8] on the bytes of a
    string; the last is the table of well-formed UTF-8 sequences. *)
Definition between (lo hi : Z) (b : Byte.byte) : bool := (lo <=? byte_val b) && (byte_val b <=? hi).
Definition is_ascii (s : bytes) : bool := forallb (between 0 127) s.

Fixpoint split_on (sep : Byte.byte) (s : bytes) : list bytes :=
  match s with
  | [] => [[]]
  | b :: s =>
      if decide (b = sep) then [] :: split_on sep s
      else match split_on sep s with
           | [] => [[b]]
           | l :: ls => (b :: l) :: ls
           end
  end.
Fixpoint join_with (sep : Byte.byte) (ls : list bytes) : bytes :=
  match ls with
  | [] => []
  | [l] => l
  | l :: ls => l ++ sep :: join_with sep ls
  end.

Definition utf8_cont : Byte.byte -> bool := between 128 191.
Definition utf8_second3 (b0 b1 : Byte.byte) : bool :=
  if byte_val b0 =? 224 then between 160 191 b1
  else if byte_val b0 =? 237 then between 128 159 b1
  else utf8_cont b1.
Definition utf8_second4 (b0 b1 : Byte.byte) : bool :=
  if byte_val b0 =? 240 then between 144 191 b1
  else if byte_val b0 =? 244 then between 128 143 b1
  else utf8_cont b1.
Fixpoint is_utf8 (s : bytes) : bool :=
  match s with
  | [] => true
  | b0 :: s0 =>
    if between 0 127 b0 then is_utf8 s0
    else match s0 with
    | [] => false
    | b1 :: s1 =>
      if between 194 223 b0 then utf8_cont b1 && is_utf8 s1
      else match s1 with
      | [] => false
      | b2 :: s2 =>
        if between 224 239 b0 then utf8_second3 b0 b1 && utf8_cont b2 && is_utf8 s2
        else match s2 with
        | [] => false
        | b3 :: s3 =>
            between 240 244 b0 && utf8_second4 b0 b1 && utf8_cont b2 && utf8_cont b3 && is_utf8 s3
        end
      end
    end
  end.

Section string_facts.
Lemma is_ascii_utf8 s : is_ascii s = true -> is_utf8 s = true.
Proof.
  induction s as [|b s IH]; [done|]; cbn [is_ascii forallb is_utf8].
  intros [Hb Hs]%andb_true_iff; rewrite Hb; auto.
Qed.

Lemma split_on_nonempty sep s : split_on sep s <> [].
Proof. destruct s as [|b s]; cbn; [done|]; repeat case_match; done. Qed.

Lemma join_split sep s : join_with sep (split_on sep s) = s.
Proof.
  induction s as [|b s IH]; [done|]; cbn [split_on].
  pose proof (split_on_nonempty sep s) as Hne.
  destruct (split_on sep s) as [|l [|l' ls]]; [done| |].
  all: case_decide; cbn in IH |- *; congruence.
Qed.

Lemma split_no_sep sep l : sep ∉ l -> split_on sep l = [l].
Proof.
  induction l as [|b l IH]; [done|]; rewrite not_elem_of_cons; intros [Hb Hl]; cbn.
  by rewrite IH, decide_False by done.
Qed.

Lemma split_app_sep sep l s : sep ∉ l -> split_on sep (l ++ sep :: s) = l :: split_on sep s.
Proof.
  induction l as [|b l IH]; cbn; [by rewrite decide_True|].
  rewrite not_elem_of_cons; intros [Hb Hl]; by rewrite IH, decide_False by done.
Qed.

Lemma split_join sep ls :
  ls <> [] -> Forall (fun l => sep ∉ l) ls -> split_on sep (join_with sep ls) = ls.
Proof.
  intros Hne Hls; induction Hls as [|l [|l' ls] Hl Hls IH]; [done|by apply split_no_sep|].
  cbn [join_with]; rewrite split_app_sep by done; f_equal; by apply IH.
Qed.

Lemma split_on_pieces sep s : Forall (fun l => sep ∉ l) (split_on sep s).
Proof.
  induction s as [|b s IH]; cbn; [repeat constructor; set_solver|].
  case_decide; [constructor; [set_solver | done]|].
  destruct IH as [|l ls Hl Hls]; constructor; set_solver.
Qed.
End string_facts.

(** ** The order of byte strings

    [Ord] on [Bytes], [[u8; N]] and redb keys: lexicographic by byte value. *)
Fixpoint bytes_leb (x y : bytes) : bool :=
  match x, y with
  | [], _ => true
  | _ :: _, [] => false
  | a :: x, b :: y => (byte_val a <? byte_val b) || ((byte_val a =? byte_val b) && bytes_leb x y)
  end.
Definition bytes_le (x y : bytes) : Prop := bytes_leb x y = true.

Section byte_order.
#[global] Instance bytes_le_dec : RelDecision bytes_le.
Proof. intros x y; unfold bytes_le; apply _. Defined.

#[global] Instance bytes_le_total : Total bytes_le.
Proof.
  intros x; induction x as [|a x IH]; intros [|b y]; unfold bytes_le; cbn; [auto..|].
  destruct (Z.lt_trichotomy (byte_val a) (byte_val b)) as [H|[H|H]].
  - left; rewrite (proj2 (Z.ltb_lt _ _)) by lia; done.
  - rewrite H, Z.ltb_irrefl, Z.eqb_refl; apply IH.
  - right; rewrite (proj2 (Z.ltb_lt (byte_val b) _)) by lia; done.
Qed.

Lemma bytes_leb_cons a x b y :
  bytes_le (a :: x) (b :: y) <->
  byte_val a < byte_val b \/ byte_val a = byte_val b /\ bytes_le x y.
Proof. unfold bytes_le; cbn; rewrite orb_true_iff, andb_true_iff, Z.ltb_lt, Z.eqb_eq; done. Qed.

#[global] Instance bytes_le_trans : Transitive bytes_le.
Proof.
  intros x; induction x as [|a x IH]; intros [|b y] [|c z]; try done.
  rewrite !bytes_leb_cons; intros [H|[H Hx]] [H'|[H' Hy]]; [left; lia..|].
  right; split; [lia | eauto].
Qed.

#[global] Instance bytes_le_antisym : AntiSymm (=) bytes_le.
Proof.
  intros x; induction x as [|a x IH]; intros [|b y]; try done.
  rewrite !bytes_leb_cons; intros [H|[H Hx]] [H'|[H' Hy]]; [lia..|].
  f_equal; [by apply byte_val_inj | by apply IH].
Qed.

Lemma bytes_le_app x y z : bytes_le (x ++ y) (x ++ z) <-> bytes_le y z.
Proof.
  induction x as [|a x IH]; [done|]; cbn [app]; rewrite bytes_leb_cons, IH; split; [|auto].
  intros [?|[_ ?]]; [lia | done].
Qed.
End byte_order.

(** ** Lists *)
Section list_facts.
Lemma StronglySorted_omap {A B} (R : A -> A -> Prop) (R' : B -> B -> Prop) (f : A -> option B) l :
  (forall x y a b, R x y -> f x = Some a -> f y = Some b -> R' a b) ->
  StronglySorted R l -> StronglySorted R' (omap f l).
Proof.
  intros Hf; induction 1 as [|x l Hl IH Hx]; [constructor|]; cbn.
  destruct (f x) as [a|] eqn:Ha; [|done]; constructor; [done|].
  apply Forall_forall; intros b (y & Hy & Hb)%list_elem_of_omap.
  rewrite Forall_forall in Hx; eauto.
Qed.

Lemma omap_fmap_ext {A B C} (g : A -> B) (f : B -> option C) (h : A -> option C) (l : list A) :
  (forall x, x ∈ l -> f (g x) = h x) -> omap f (g <$> l) = omap h l.
Proof.
  induction l as [|x l IH]; intros Hx; [done|]; cbn; rewrite Hx by left.
  destruct (h x); [f_equal|]; apply IH; intros; apply Hx; by right.
Qed.

Lemma Forall2_image {A B} (f : A -> B) (P : A -> Prop) (xs : list A) (ys : list B) :
  Forall2 (fun x y => y = f x /\ P x) xs ys -> ys = f <$> xs /\ Forall P xs.
Proof. induction 1 as [|x y xs ys [-> Hx] _ [-> IH]]; cbn; auto. Qed.
End list_facts.

(** [[0; 32]]. *)
Definition zero32 : bytes := repeat Byte.x00 32.
#[global] Arguments zero32 : simpl never.

(** [passes] proves that a boolean guard passes; [steps_ok] runs a chain of
    guards whose conditions hold. *)
Ltac passes :=
  rewrite ?orb_false_iff, ?andb_true_iff, ?negb_false_iff, ?negb_true_iff, ?bool_decide_eq_true,
    ?bool_decide_eq_false, ?Z.leb_gt, ?Z.ltb_ge, ?Z.leb_le, ?Z.ltb_lt, ?Z.eqb_eq, ?Z.eqb_neq;
  repeat split; try done; try lia; auto.
Ltac units := repeat match goal with u : unit |- _ => destruct u end.
Ltac steps_ok :=
  repeat (apply bind_Ok; first [exists tt | eexists]; split; [first [done | apply fail_if_Ok; passes]|]; cbn beta).

(** ** Loops that collect into a map and refuse duplicates

    [for x in xs { let (k, v) = f(x)?; if m.insert(k, v).is_some() { return Err(dup) } }];
    a [HashSet] is a map to [unit]. *)
Fixpoint collect_unique {E X K V} `{Countable K} (f : X -> result E (K * V)) (dup : E)
    (m : gmap K V) (xs : list X) : result E (gmap K V) :=
  match xs with
  | [] => Ok m
  | x :: xs =>
      kv ← f x;
      fail_if (bool_decide (is_Some (m !! kv.1))) dup;;
      collect_unique f dup (<[kv.1 := kv.2]> m) xs
  end.

Section collect.
Context {E X K V : Type} `{Countable K} (f : X -> result E (K * V)) (dup : E).

Lemma collect_unique_acc (m : gmap K V) xs m' :
  collect_unique f dup m xs = Ok m' <->
  exists kvs, Forall2 (fun x kv => f x = Ok kv) xs kvs /\ NoDup kvs.*1 /\
    (forall k, k ∈ kvs.*1 -> m !! k = None) /\ m' = list_to_map kvs ∪ m.
Proof.
  revert m; induction xs as [|x xs IH]; intros m; cbn.
  - split.
    + intros [= <-]; exists []; cbn; split_and!; [done | constructor | set_solver | by rewrite map_empty_union].
    + intros (kvs & Hf & _ & _ & ->); inversion Hf; subst; cbn; by rewrite map_empty_union.
  - rewrite bind_Ok; setoid_rewrite bind_Ok; setoid_rewrite IH; split.
    + intros ([k v] & Hx & u & Hd%fail_if_Ok & kvs & Hf & Hnd & Hm & ->); bool_inv; cbn in *.
      rewrite <- eq_None_not_Some in Hd.
      assert (Hk : k ∉ kvs.*1) by (intros Hk; specialize (Hm k Hk); by rewrite lookup_insert_eq in Hm).
      exists ((k, v) :: kvs); cbn; split_and!; [by constructor | by constructor | |].
      * intros k' [->|Hk']%elem_of_cons; [done|].
        specialize (Hm k' Hk'); by apply lookup_insert_None in Hm as [? _].
      * rewrite <- insert_union_l, insert_union_r; [done | by apply not_elem_of_list_to_map_1].
    + intros (kvs & Hf & Hnd & Hm & ->); inversion Hf as [|? [k v] ? kvs' Hx Hf' Hx' Heq]; subst; cbn in *.
      apply NoDup_cons in Hnd as [Hk Hnd]; exists (k, v); split; [done|]; exists tt; cbn; split.
      * apply fail_if_Ok, bool_decide_eq_false; rewrite <- eq_None_not_Some; apply Hm; left.
      * exists kvs'; split_and!; [done..| |].
        -- intros k' Hk'; rewrite lookup_insert_ne by (intros ->; done); apply Hm; by right.
        -- rewrite <- insert_union_l, insert_union_r; [done | by apply not_elem_of_list_to_map_1].
Qed.

Lemma collect_unique_Ok xs (m' : gmap K V) :
  collect_unique f dup ∅ xs = Ok m' <->
  exists kvs, Forall2 (fun x kv => f x = Ok kv) xs kvs /\ NoDup kvs.*1 /\ m' = list_to_map kvs.
Proof.
  rewrite collect_unique_acc; split; intros (kvs & Hf & Hnd & Hm); exists kvs; split_and!; try done.
  - destruct Hm as [_ ->]; by rewrite map_union_empty.
  - subst; by rewrite map_union_empty.
Qed.
End collect.

(** The same loop when its body parses an element, checks it, and files it
    under a key: what it collects is the list of parsed elements. *)
Section collect_parsed.
Context {E X C K V : Type} `{Countable K} (f : X -> result E (K * V)) (dup : E).
Context (parsed : X -> C -> Prop) (ok : C -> Prop) (key : C -> K) (val : C -> V).
Context (Hf : forall x kv, f x = Ok kv <-> exists c, parsed x c /\ ok c /\ kv = (key c, val c)).

Definition filed (cs : list C) : gmap K V := list_to_map ((fun c => (key c, val c)) <$> cs).

Lemma collect_parsed_Ok xs (m : gmap K V) :
  collect_unique f dup ∅ xs = Ok m <->
  exists cs, Forall2 parsed xs cs /\ Forall ok cs /\ NoDup (key <$> cs) /\ m = filed cs.
Proof.
  rewrite collect_unique_Ok; split.
  - intros (kvs & H2 & Hnd & ->).
    assert (exists cs, Forall2 parsed xs cs /\ Forall ok cs /\ kvs = (fun c => (key c, val c)) <$> cs)
      as (cs & Hp & Hok & ->).
    { clear Hnd; induction H2 as [|x kv xs kvs Hx _ IH]; [by exists []|].
      destruct IH as (cs & ? & ? & ->); apply Hf in Hx as (c & ? & ? & ->).
      exists (c :: cs); split_and!; [by constructor | by constructor | done]. }
    exists cs; split_and!; try done; by rewrite <- list_fmap_compose in Hnd.
  - intros (cs & Hp & Hok & Hnd & ->); exists ((fun c => (key c, val c)) <$> cs).
    split_and!; [| by rewrite <- list_fmap_compose | done].
    clear Hnd; induction Hp; [done|]; apply Forall_cons in Hok as [? ?]; constructor; [|by auto].
    apply Hf; eauto.
Qed.

Lemma filed_Some cs k v :
  NoDup (key <$> cs) -> filed cs !! k = Some v <-> exists c, c ∈ cs /\ key c = k /\ val c = v.
Proof.
  intros Hnd; unfold filed; rewrite <- elem_of_list_to_map by (by rewrite <- list_fmap_compose).
  rewrite list_elem_of_fmap; split; [intros (c & [= -> ->] & ?); eauto | intros (c & ? & <- & <-); eauto].
Qed.
End collect_parsed.

Lemma collect_checked_Ok {E X K V} `{Countable K} (f : X -> result E (K * V)) dup ok (key : X -> K) (val : X -> V)
    xs (m : gmap K V) :
  (forall x kv, f x = Ok kv <-> ok x /\ kv = (key x, val x)) ->
  collect_unique f dup ∅ xs = Ok m <-> Forall ok xs /\ NoDup (key <$> xs) /\ m = filed key val xs.
Proof.
  intros Hf; rewrite (collect_parsed_Ok _ _ eq ok key val) by (intros; rewrite Hf; naive_solver); split.
  - intros (cs & ->%list_eq_Forall2 & ?); naive_solver.
  - intros ?; exists xs; split; [by apply list_eq_Forall2 | naive_solver].
Qed.

Lemma Forall_retain {A} (P : A -> Prop) (f : A -> bool) xs : Forall P xs -> Forall P (List.filter f xs).
Proof. induction 1; cbn; [done|]; case_match; by repeat constructor. Qed.

Lemma elem_of_retain {A} (f : A -> bool) xs x : x ∈ List.filter f xs <-> x ∈ xs /\ f x = true.
Proof. rewrite !list_elem_of_In; apply filter_In. Qed.

Lemma Forall2_functional {A B} (R : A -> B -> Prop) xs ys ys' :
  (forall x y y', R x y -> R x y' -> y = y') -> Forall2 R xs ys -> Forall2 R xs ys' -> ys = ys'.
Proof.
  intros HR Hx; revert ys'; induction Hx; intros ys' Hy; inversion Hy; subst; f_equal; eauto.
Qed.

Lemma NoDup_size_list_to_set {A} `{Countable A} (l : list A) :
  size (list_to_set l : gset A) = length l <-> NoDup l.
Proof.
  split; [|apply size_list_to_set].
  induction l as [|x l IH]; cbn; [constructor|]; intros Hs.
  assert (size (list_to_set l : gset A) <= length l)%nat as Hle.
  { clear; induction l as [|y l IH]; cbn; [by rewrite size_empty|].
    pose proof (size_union_alt {[y]} (list_to_set l : gset A)); rewrite size_singleton in *.
    pose proof (subseteq_size (list_to_set l ∖ {[y]} : gset A) (list_to_set l) ltac:(set_solver)); lia. }
  destruct (decide (x ∈ l)) as [Hx|Hx].
  - replace ({[x]} ∪ list_to_set l : gset A) with (list_to_set l : gset A) in Hs by set_solver; lia.
  - rewrite size_union, size_singleton in Hs by set_solver; constructor; [done | apply IH; lia].
Qed.

(** ** Lists of encoded records

    The code keeps credentials as byte strings and parses them where it looks at them. *)
Definition parsed {E A} (from_bytes : bytes -> result E A) (raw : bytes) : option A :=
  match from_bytes raw with Ok a => Some a | Err _ => None end.
(** [iter().filter_map(|raw| from_bytes(raw).ok()).find(p)] *)
Definition find_parsed {E A} (from_bytes : bytes -> result E A) (p : A -> bool) (raws : list bytes) : option A :=
  List.find p (omap (parsed from_bytes) raws).
(** [iter().any(|raw| from_bytes(raw).map(p).unwrap_or(false))] *)
Definition any_parsed {E A} (from_bytes : bytes -> result E A) (p : A -> bool) (raws : list bytes) : bool :=
  existsb (fun raw => match from_bytes raw with Ok a => p a | Err _ => false end) raws.
(** [retain(|raw| from_bytes(raw).map(p).unwrap_or(false))] *)
Definition retain_parsed {E A} (from_bytes : bytes -> result E A) (p : A -> bool) (raws : list bytes) : list bytes :=
  List.filter (fun raw => match from_bytes raw with Ok a => p a | Err _ => false end) raws.

Lemma find_parsed_Some {E A} (from_bytes : bytes -> result E A) p raws a :
  find_parsed from_bytes p raws = Some a -> exists raw, raw ∈ raws /\ from_bytes raw = Ok a /\ p a = true.
Proof.
  unfold find_parsed; intros [Hin Hp]%find_some; apply list_elem_of_In, list_elem_of_omap in Hin as (raw & Hraw & Ha).
  unfold parsed in Ha; destruct (from_bytes raw) eqn:Hr; [|done]; injection Ha as ->; eauto.
Qed.
Lemma find_parsed_None {E A} (from_bytes : bytes -> result E A) p raws :
  find_parsed from_bytes p raws = None <-> forall raw a, raw ∈ raws -> from_bytes raw = Ok a -> p a = false.
Proof.
  unfold find_parsed; split.
  - intros Hf raw a Hraw Ha; eapply find_none; [exact Hf|]; apply list_elem_of_In, list_elem_of_omap.
    exists raw; unfold parsed; by rewrite Ha.
  - intros Hall; destruct (List.find p _) as [a|] eqn:Hf; [|done]; apply find_some in Hf as [Hin Hp].
    apply list_elem_of_In, list_elem_of_omap in Hin as (raw & Hraw & Ha); unfold parsed in Ha.
    destruct (from_bytes raw) eqn:Hr; [|done]; injection Ha as ->; by rewrite (Hall raw a) in Hp.
Qed.
Lemma any_parsed_true {E A} (from_bytes : bytes -> result E A) p raws :
  any_parsed from_bytes p raws = true <-> exists raw a, raw ∈ raws /\ from_bytes raw = Ok a /\ p a = true.
Proof.
  unfold any_parsed; rewrite existsb_exists; setoid_rewrite <- list_elem_of_In; split.
  - intros (raw & Hraw & Ha); destruct (from_bytes raw) as [a|] eqn:Hr; [eauto | done].
  - intros (raw & a & Hraw & Ha & Hp); exists raw; by rewrite Ha.
Qed.

(** ** Sorted and deduplicated vectors *)
(** [Vec::dedup]: of every run of equal elements the first is kept. *)
Fixpoint dedup {A} `{EqDecision A} (xs : list A) : list A :=
  match xs with
  | [] => []
  | x :: rest => match rest with
                 | [] => [x]
                 | y :: _ => if decide (x = y) then dedup rest else x :: dedup rest
                 end
  end.

Section dedup.
Context {A : Type} `{EqDecision A}.

Lemma elem_of_dedup (x : A) xs : x ∈ dedup xs <-> x ∈ xs.
Proof.
  induction xs as [|y xs IH]; [done|]; cbn; destruct xs as [|z xs]; [done|].
  case_decide; [subst; rewrite IH | rewrite !elem_of_cons, IH]; set_solver.
Qed.
Lemma NoDup_dedup_sorted (R : relation A) `{!AntiSymm (=) R} xs : StronglySorted R xs -> NoDup (dedup xs).
Proof.
  induction 1 as [|y xs Hs IH Hy]; [constructor|]; cbn; destruct xs as [|z xs]; [repeat constructor; set_solver|].
  case_decide as Hyz; [done|]; constructor; [|done]; rewrite elem_of_dedup; intros Hin.
  apply Hyz; apply (anti_symm R); [by inversion Hy|].
  apply elem_of_cons in Hin as [->|Hin]; [by inversion Hy|].
  apply StronglySorted_inv in Hs as [_ Hz]; rewrite List.Forall_forall in Hz; by apply Hz, list_elem_of_In.
Qed.
Lemma StronglySorted_dedup (R : relation A) xs : StronglySorted R xs -> StronglySorted R (dedup xs).
Proof.
  induction 1 as [|y xs Hs IH Hy]; [constructor|]; cbn; destruct xs as [|z xs]; [repeat constructor|].
  case_decide; [done|]; constructor; [done|].
  rewrite List.Forall_forall in Hy |- *; intros w Hw%list_elem_of_In; apply Hy, list_elem_of_In; by apply (elem_of_dedup w (z :: xs)).
Qed.
(** A sorted vector deduplicates to one element exactly when all elements are equal to it. *)
Lemma dedup_singleton (R : relation A) `{!RelDecision R} xs x :
  dedup (merge_sort R xs) = [x] <-> xs <> [] /\ forall y, y ∈ xs -> y = x.
Proof.
  assert (Hin : forall y, y ∈ dedup (merge_sort R xs) <-> y ∈ xs).
  { intros y; rewrite elem_of_dedup; by rewrite (merge_sort_Permutation R xs). }
  split.
  - intros Hd; rewrite Hd in Hin; split; [|set_solver].
    intros ->; assert (x ∈ ([] : list A)) by (apply Hin; set_solver); set_solver.
  - intros [Hne Hall]; pose proof (merge_sort_Permutation R xs) as HP.
    assert (Hall' : forall y, y ∈ merge_sort R xs -> y = x) by (intros y Hy; apply Hall; by rewrite <- HP).
    assert (Hne' : merge_sort R xs <> []) by (intros He; rewrite He in HP; by apply Permutation_nil_l in HP).
    clear -Hne' Hall'; induction (merge_sort R xs) as [|y l IH]; [done|]; cbn.
    destruct l as [|z l]; [f_equal; apply Hall'; set_solver|].
    rewrite decide_True; [apply IH; clear IH; [set_solver | discriminate]|].
    rewrite (Hall' y), (Hall' z); set_solver.
Qed.
End dedup.

(** When every entry parses, looking through the raw entries is looking through the parsed ones. *)
Section parsed_lists.
Context {E A : Type} (from_bytes : bytes -> result E A) (raws : list bytes) (xs : list A).
Hypothesis Hparse : Forall2 (fun raw x => from_bytes raw = Ok x) raws xs.

Lemma find_parsed_list p : find_parsed from_bytes p raws = List.find p xs.
Proof.
  unfold find_parsed; f_equal; induction Hparse as [|raw x l l' Hx _ IH]; [done|].
  cbn; unfold parsed at 1; rewrite Hx, IH by (by inversion_clear Hparse); done.
Qed.
Lemma any_parsed_list p : any_parsed from_bytes p raws = existsb p xs.
Proof. unfold any_parsed; induction Hparse as [|raw x l l' Hx _ IH]; [done|]; cbn; rewrite Hx, IH by (by inversion_clear Hparse); done. Qed.
Lemma try_map_list : try_map from_bytes raws = Ok xs.
Proof. by apply try_map_Ok. Qed.
End parsed_lists.

(** The entry with a given key, where keys are unique. *)
Lemma find_unique {A K} `{EqDecision K} (key : A -> K) xs x :
  NoDup (key <$> xs) -> x ∈ xs -> List.find (fun y => bool_decide (key y = key x)) xs = Some x.
Proof.
  induction xs as [|y xs IH]; [set_solver|]; cbn; rewrite NoDup_cons; intros [Hy Hn] Hx.
  case_bool_decide as Hk; [|apply elem_of_cons in Hx as [->|Hx]; [done | auto]].
  apply elem_of_cons in Hx as [->|Hx]; [done|]; destruct Hy; rewrite Hk; by apply list_elem_of_fmap_2.
Qed.
Lemma Forall2_elem_r {A B} (R : A -> B -> Prop) xs ys y : Forall2 R xs ys -> y ∈ ys -> exists x, x ∈ xs /\ R x y.
Proof. induction 1 as [|x y' xs ys HR _ IH]; [set_solver|]; intros [->|Hy]%elem_of_cons; [exists x | destruct (IH Hy)]; set_solver. Qed.

(** [str::strip_prefix] *)
Definition strip_prefix (p s : bytes) : option bytes := if bool_decide (take (length p) s = p) then Some (drop (length p) s) else None.
Lemma strip_prefix_app p s : strip_prefix p (p ++ s) = Some s.
Proof. unfold strip_prefix; by rewrite take_app_length, drop_app_length, bool_decide_true. Qed.
Lemma strip_prefix_Some p s s' : strip_prefix p s = Some s' -> s = p ++ s'.
Proof.
  unfold strip_prefix; case_bool_decide as Hb; [|done]; intros [= <-]; rewrite <- Hb at 1; by rewrite take_drop.
Qed.
