(* ===== verification/Wire.v ===== *)
(** * The wire decoder

    Every crate of the workspace that parses bytes carries the same private
    [Decoder { bytes, offset }] (weaver-crypto, weaver-config, weaver-relay-core,
    weaver-discovery); the copies differ only in the error they report.  This
    file models that decoder once, with the error as an argument, as a state
    and error monad, and gives the two program logics the codec proofs use:
    - [steps p s a s']: on a decoder whose unread input is [s], [p] succeeds
      with [a] and leaves [s'] unread (the round-trip direction);
    - [Reads p R]: whenever [p] succeeds with [a], the bytes it consumed are
      related to [a] by [R] (the canonicity direction). *)

From S2P Require Import Prelude.

(* weaver-crypto/src/lib.rs:1615-1618 Decoder *)
Record Decoder : Type := mkDecoder { d_bytes : bytes; d_offset : nat }.

Definition dec (E A : Type) : Type := Decoder -> result E (A * Decoder).

#[global] Instance dec_ret E : MRet (dec E) := fun A a d => Ok (a, d).
#[global] Instance dec_bind E : MBind (dec E) := fun A B f p d =>
  match p d with Ok (a, d') => f a d' | Err e => Err e end.

(** Running a decoder on a fresh [Decoder::new(bytes)]. *)
(* weaver-crypto/src/lib.rs:1621-1623 Decoder::new *)
Definition Decoder_new (bs : bytes) : Decoder := mkDecoder bs 0.
Definition run_decoder {E A} (p : dec E A) (bs : bytes) : result E A :=
  match p (Decoder_new bs) with Ok (a, _) => Ok a | Err e => Err e end.
(** A computation of the surrounding function that does not touch the decoder. *)
Definition lift {E A} (r : result E A) : dec E A := fun d =>
  match r with Ok a => Ok (a, d) | Err e => Err e end.

Section operations.
Context {E : Type} (err : E).

(** [offset.checked_add(len)] and [bytes.get(offset..end)] report the same
    error, so an overflowing sum and one past the end are the same case. *)
(* weaver-crypto/src/lib.rs:1625-1636 Decoder::take *)
Definition d_take (n : Z) : dec E bytes := fun d =>
  if Z.of_nat (d_offset d) + n <=? len (d_bytes d) then
    Ok (take (Z.to_nat n) (drop (d_offset d) (d_bytes d)),
        mkDecoder (d_bytes d) (d_offset d + Z.to_nat n))
  else Err err.

(** [take(N)?.try_into()]: the slice has length [N], the conversion succeeds. *)
(* weaver-crypto/src/lib.rs:1638-1642 Decoder::array *)
Definition d_array (n : nat) : dec E bytes := d_take (Z.of_nat n).

(* weaver-crypto/src/lib.rs:1644-1650 Decoder::magic *)
Definition d_magic (expected : bytes) : dec E unit :=
  got ← d_take (len expected);
  if decide (got = expected) then mret tt else lift (Err err).

Definition d_uint (n : nat) : dec E Z := bs ← d_array n; mret (from_be bs).
(* weaver-crypto/src/lib.rs:1652-1654 Decoder::u8 *)
Definition d_u8 : dec E Z := d_uint 1.
(* weaver-crypto/src/lib.rs:1656-1658 Decoder::u16 *)
Definition d_u16 : dec E Z := d_uint 2.
(* weaver-crypto/src/lib.rs:1660-1662 Decoder::u32 *)
Definition d_u32 : dec E Z := d_uint 4.
(* weaver-crypto/src/lib.rs:1664-1666 Decoder::u64 *)
Definition d_u64 : dec E Z := d_uint 8.

(* weaver-crypto/src/lib.rs:1668-1674 Decoder::finish *)
Definition d_finish : dec E unit := fun d =>
  if Nat.eqb (d_offset d) (length (d_bytes d)) then Ok (tt, d) else Err err.

(** [for _ in 0..count { values.push(p()?) }]. *)
Fixpoint d_repeat {A} (p : dec E A) (count : nat) : dec E (list A) :=
  match count with
  | O => mret []
  | S count => a ← p; rest ← d_repeat p count; mret (a :: rest)
  end.
End operations.

(** ** Where a decoder stands *)

(** [at_suffix d s]: the bytes from the decoder's offset on are [s]. *)
Inductive at_suffix : Decoder -> bytes -> Prop :=
| at_suffix_intro pre s : at_suffix (mkDecoder (pre ++ s) (length pre)) s.

Definition steps {E A} (p : dec E A) (s : bytes) (a : A) (s' : bytes) : Prop :=
  forall d, at_suffix d s -> exists d', p d = Ok (a, d') /\ at_suffix d' s'.

Class Reads {E A} (p : dec E A) (R : A -> bytes -> Prop) : Prop :=
  reads : forall d s a d', at_suffix d s -> p d = Ok (a, d') ->
    exists x s', s = x ++ s' /\ at_suffix d' s' /\ R a x.

Create HintDb codec discriminated.

Section steps.
Context {E : Type}.
Implicit Types s : bytes.

Lemma run_steps {A} (p : dec E A) bs a s : steps p (bs ++ []) a s -> run_decoder p bs = Ok a.
Proof.
  intros H; destruct (H (Decoder_new bs)) as (d' & Hd & _).
  - rewrite app_nil_r; exact (at_suffix_intro [] bs).
  - unfold run_decoder; by rewrite Hd.
Qed.

Lemma steps_ret {A} (a : A) s : steps (E := E) (mret a) s a s.
Proof. intros d Hd; exists d; done. Qed.

Lemma steps_bind {A B} (p : dec E A) (f : A -> dec E B) s a s1 b s2 :
  steps p s a s1 -> steps (f a) s1 b s2 -> steps (p ≫= f) s b s2.
Proof.
  intros Hp Hf d Hd; destruct (Hp d Hd) as (d1 & H1 & Hd1).
  destruct (Hf d1 Hd1) as (d2 & H2 & Hd2); exists d2.
  cbv [mbind dec_bind]; rewrite H1; done.
Qed.

Lemma steps_lift {A} (r : result E A) a s : r = Ok a -> steps (lift r) s a s.
Proof. intros -> d Hd; exists d; done. Qed.

Lemma steps_take (e : E) x s n : n = len x -> steps (d_take e n) (x ++ s) x s.
Proof.
  intros -> d; inversion 1 as [pre s' Hd Hs]; subst; unfold d_take, len; cbn.
  rewrite !length_app, Nat2Z.id, (proj2 (Z.leb_le _ _)) by lia.
  rewrite drop_app_length, take_app_length; eexists; split; [done|].
  rewrite app_assoc, <- length_app; constructor.
Qed.

Lemma steps_array (e : E) x s n : length x = n -> steps (d_array e n) (x ++ s) x s.
Proof. intros <-; by apply steps_take. Qed.

Lemma steps_magic (e : E) x s : steps (d_magic e x) (x ++ s) tt s.
Proof.
  eapply steps_bind; [by apply steps_take|].
  rewrite decide_True by done; apply steps_ret.
Qed.

Lemma steps_uint (e : E) n z s :
  in_range (8 * Z.of_nat n) z = true -> steps (d_uint e n) (to_be n z ++ s) z s.
Proof.
  intros Hz; eapply steps_bind; [apply steps_array, length_to_be|].
  unfold in_range in Hz; bool_inv; rewrite from_to_be, Z.mod_small by lia; apply steps_ret.
Qed.

Lemma steps_finish (e : E) : steps (d_finish e) [] tt [].
Proof.
  intros d; inversion 1 as [pre s' Hd Hs]; subst; eexists.
  unfold d_finish; cbn; rewrite app_nil_r, Nat.eqb_refl; split; [done|].
  rewrite <- (app_nil_r pre) at 1; constructor.
Qed.

Lemma steps_repeat {A} (p : dec E A) (enc : A -> bytes) (P : A -> Prop) xs s :
  (forall a s, P a -> steps p (enc a ++ s) a s) -> Forall P xs ->
  steps (d_repeat p (length xs)) (concat (enc <$> xs) ++ s) xs s.
Proof.
  intros Hp; induction 1 as [|x xs Hx Hxs IH]; cbn; [apply steps_ret|].
  rewrite <- app_assoc; eapply steps_bind; [by apply Hp|].
  eapply steps_bind; [exact IH|]; apply steps_ret.
Qed.

(** [fails p s e]: on a decoder whose unread input is [s], [p] reports [e]. *)
Definition fails {A} (p : dec E A) s (e : E) : Prop := forall d, at_suffix d s -> p d = Err e.
Lemma run_fails {A} (p : dec E A) bs e : fails p bs e -> run_decoder p bs = Err e.
Proof. intros H; unfold run_decoder; by rewrite (H (Decoder_new bs) (at_suffix_intro [] bs)). Qed.
Lemma fails_after {A B} (p : dec E A) (f : A -> dec E B) s a s1 e :
  steps p s a s1 -> fails (f a) s1 e -> fails (p ≫= f) s e.
Proof.
  intros Hp Hf d Hd; destruct (Hp d Hd) as (d1 & H1 & Hd1); cbv [mbind dec_bind]; rewrite H1; by apply Hf.
Qed.
Lemma fails_first {A B} (p : dec E A) (f : A -> dec E B) s e : fails p s e -> fails (p ≫= f) s e.
Proof. intros Hp d Hd; cbv [mbind dec_bind]; by rewrite (Hp d Hd). Qed.
Lemma fails_lift {A} (r : result E A) s e : r = Err e -> fails (lift r) s e.
Proof. intros -> d _; done. Qed.
End steps.

#[export] Hint Resolve steps_ret steps_magic steps_finish : codec.
#[export] Hint Extern 1 (steps (d_take _ _) (_ ++ _) _ _) => apply steps_take : codec.
#[export] Hint Extern 1 (steps (d_array _ _) (_ ++ _) _ _) => apply steps_array : codec.
#[export] Hint Extern 1 (steps (d_uint _ _) (to_be _ _ ++ _) _ _) => apply steps_uint : codec.
#[export] Hint Extern 1 (steps (d_u8 _) (to_be _ _ ++ _) _ _) => apply (steps_uint _ 1) : codec.
#[export] Hint Extern 1 (steps (d_u16 _) (to_be _ _ ++ _) _ _) => apply (steps_uint _ 2) : codec.
#[export] Hint Extern 1 (steps (d_u32 _) (to_be _ _ ++ _) _ _) => apply (steps_uint _ 4) : codec.
#[export] Hint Extern 1 (steps (d_u64 _) (to_be _ _ ++ _) _ _) => apply (steps_uint _ 8) : codec.
#[export] Hint Extern 2 (steps (lift _) _ _ _) => apply steps_lift : codec.

(** [parse] runs a decoder symbolically along an encoding kept as a
    right-nested append; it stops where the side condition needs thought. *)
Ltac parse_step :=
  lazymatch goal with
  | |- steps (_ ≫= _) _ _ _ => eapply steps_bind; [solve [eauto 4 with codec] |]
  | |- steps (mret _) _ _ _ => apply steps_ret
  | |- steps _ _ _ _ => solve [eauto 4 with codec]
  end.
Ltac parse := rewrite <- ?app_assoc; repeat (parse_step; cbn beta).

Section reads.
Context {E : Type}.
Implicit Types (s : bytes) (e : E).

Lemma run_decoder_Ok {A} (p : dec E A) bs a :
  run_decoder p bs = Ok a ->
  exists d', at_suffix (Decoder_new bs) bs /\ p (Decoder_new bs) = Ok (a, d').
Proof.
  unfold run_decoder; destruct (p _) as [[a' d']|]; [|done]; intros [= <-].
  exists d'; split; [exact (at_suffix_intro [] bs) | done].
Qed.

Lemma dec_bind_Ok {A B} (p : dec E A) (f : A -> dec E B) d b d2 :
  (p ≫= f) d = Ok (b, d2) -> exists a d1, p d = Ok (a, d1) /\ f a d1 = Ok (b, d2).
Proof. cbv [mbind dec_bind]; destruct (p d) as [[a d1]|]; [eauto | done]. Qed.

Lemma lift_Ok {A} (r : result E A) d a d' : lift r d = Ok (a, d') -> r = Ok a /\ d' = d.
Proof. unfold lift; destruct r; [intros [= -> ->]; done | done]. Qed.

Lemma finish_Ok e d s u d' : at_suffix d s -> d_finish e d = Ok (u, d') -> s = [].
Proof.
  inversion 1 as [pre s' Hd Hs]; subst; unfold d_finish; cbn.
  destruct (Nat.eqb _ _) eqn:Hn; [intros _ | done].
  apply Nat.eqb_eq in Hn; rewrite length_app in Hn; apply length_zero_iff_nil; lia.
Qed.

#[global] Instance reads_take e n : Reads (d_take e n) (fun x y => y = x /\ (0 <= n -> len x = n)).
Proof.
  intros d s a d'; inversion 1 as [pre s' Hd Hs]; subst; unfold d_take, len; cbn.
  destruct (_ <=? _) eqn:Hn; [|done]; intros [= <- <-]; bool_inv.
  rewrite length_app in Hn; rewrite drop_app_length.
  exists (take (Z.to_nat n) s), (drop (Z.to_nat n) s); rewrite take_drop; split_and!; [done| |done|].
  - rewrite <- (take_drop (Z.to_nat n) s) at 1; rewrite app_assoc.
    replace (length pre + Z.to_nat n)%nat with (length (pre ++ take (Z.to_nat n) s)); [constructor|].
    rewrite length_app, length_take; lia.
  - rewrite length_take; lia.
Qed.

#[global] Instance reads_array e n : Reads (d_array e n) (fun x y => y = x /\ length x = n).
Proof.
  intros d s a d' Hs H; destruct (reads _ _ _ _ Hs H) as (x & s' & -> & Hs' & -> & Hl).
  eexists _, _; split_and!; [done..|]; unfold len in Hl; lia.
Qed.

#[global] Instance reads_magic e x : Reads (d_magic e x) (fun _ y => y = x).
Proof.
  intros d s a d' Hs (got & d1 & H & H1)%dec_bind_Ok.
  destruct (reads _ _ _ _ Hs H) as (y & s' & -> & Hs' & -> & _).
  case_decide; subst; [injection H1 as <- <-; eauto | done].
Qed.

#[global] Instance reads_uint e n :
  Reads (d_uint e n) (fun z y => y = to_be n z /\ in_range (8 * Z.of_nat n) z = true).
Proof.
  intros d s a d' Hs (x & d1 & H & H1)%dec_bind_Ok; injection H1 as <- <-.
  destruct (reads _ _ _ _ Hs H) as (y & s' & -> & Hs' & -> & <-).
  eexists _, _; split_and!; [done..| |]; [by rewrite to_from_be|].
  pose proof (from_be_range x); unfold in_range; rewrite andb_true_iff, Z.leb_le, Z.ltb_lt; lia.
Qed.
#[global] Instance reads_u8 e : Reads (d_u8 e) (fun z y => y = to_be 1 z /\ is_u8 z = true).
Proof. apply reads_uint. Qed.
#[global] Instance reads_u16 e : Reads (d_u16 e) (fun z y => y = to_be 2 z /\ is_u16 z = true).
Proof. apply reads_uint. Qed.
#[global] Instance reads_u32 e : Reads (d_u32 e) (fun z y => y = to_be 4 z /\ is_u32 z = true).
Proof. apply reads_uint. Qed.
#[global] Instance reads_u64 e : Reads (d_u64 e) (fun z y => y = to_be 8 z /\ is_u64 z = true).
Proof. apply reads_uint. Qed.

#[global] Instance reads_lift {A} (r : result E A) : Reads (lift r) (fun a y => y = [] /\ r = Ok a).
Proof. intros d s a d' Hs [-> ->]%lift_Ok; exists [], s; done. Qed.

#[global] Instance reads_repeat {A} (p : dec E A) R n :
  Reads p R ->
  Reads (d_repeat p n) (fun xs y => length xs = n /\ exists ys, Forall2 R xs ys /\ y = concat ys).
Proof.
  intros Hp; induction n as [|n IH]; intros d s xs d' Hs H; cbn in H.
  - injection H as <- <-; exists [], s; split_and!; [done..|]; exists []; done.
  - apply dec_bind_Ok in H as (a & d1 & Ha & H); apply dec_bind_Ok in H as (l & d2 & Hl & H).
    injection H as <- <-.
    destruct (reads _ _ _ _ Hs Ha) as (x & s1 & -> & Hs1 & HR).
    destruct (IH _ _ _ _ Hs1 Hl) as (y & s2 & -> & Hs2 & Hlen & ys & Hys & ->).
    exists (x ++ concat ys), s2; rewrite app_assoc; split_and!; [done..|cbn; lia|].
    exists (x :: ys); split; [by constructor | done].
Qed.
End reads.

(** [unparse] turns a successful decoder run into the list of its reads. *)
Ltac unparse_step :=
  match goal with
  | H : run_decoder _ _ = Ok _ |- _ =>
      let Hs := fresh "Hs" in apply run_decoder_Ok in H as (? & Hs & H)
  | H : (_ ≫= _) ?d = Ok _, Hs : at_suffix ?d _ |- _ =>
      let Hp := fresh "Hp" in apply dec_bind_Ok in H as (? & ? & Hp & H)
  | H : mret _ _ = Ok _ |- _ => injection H as ? ?; subst
  | H : d_finish _ ?d = Ok _, Hs : at_suffix ?d _ |- _ =>
      let Hn := fresh "Hend" in
      pose proof (finish_Ok _ _ _ _ _ Hs H) as Hn;
      unfold d_finish in H; case_match; [injection H as ? ?; subst | discriminate H]
  | H : lift _ ?d = Ok _ |- _ => apply lift_Ok in H as [? ?]; subst
  | H : ?p ?d = Ok (_, _), Hs : at_suffix ?d _ |- _ =>
      let HR := fresh "HR" in
      destruct (reads (p := p) _ _ _ _ Hs H) as (? & ? & ? & ? & HR); clear Hs H; cbn beta in HR
  | H : _ /\ _ |- _ => destruct H
  | x : unit |- _ => destruct x
  end.
Ltac unparse := repeat (unparse_step; cbn beta in * ); subst.
