(* ===== verification/Core.v ===== *)
(** * weaver-core: identifiers and virtual names

    Models [crates/weaver-core/src/lib.rs].  The identifier newtypes are
    one-field records around their bytes, with the decidable equality and
    countability the maps of the other components need.  [VirtualName::new]
    is modelled whole, [str::split] included.  Hexadecimal text is produced and
    read by the external [hex] crate, a parameter of the section that uses it. *)

From S2P Require Import Prelude Wire.

(* weaver-core/src/lib.rs:10-20 AppAddr *)
Record AppAddr : Type := AppAddr_from_bytes { AppAddr_as_bytes : bytes }.
(* weaver-core/src/lib.rs:24-24 NetworkId *)
Record NetworkId : Type := NetworkId_from_bytes { NetworkId_as_bytes : bytes }.
(* weaver-core/src/lib.rs:165-175 DeviceId *)
Record DeviceId : Type := DeviceId_from_bytes { DeviceId_as_bytes : bytes }.
(* weaver-core/src/lib.rs:179-189 MemberId *)
Record MemberId : Type := MemberId_from_bytes { MemberId_as_bytes : bytes }.
(* weaver-core/src/lib.rs:213-223 ServiceId *)
Record ServiceId : Type := ServiceId_from_bytes { ServiceId_as_bytes : bytes }.
(* weaver-core/src/lib.rs:31-43 VirtualName *)
Record VirtualName : Type := VirtualName_mk { VirtualName_as_str : bytes }.

#[global] Instance AppAddr_eq_dec : EqDecision AppAddr.
Proof. solve_decision. Defined.
#[global] Instance NetworkId_eq_dec : EqDecision NetworkId.
Proof. solve_decision. Defined.
#[global] Instance DeviceId_eq_dec : EqDecision DeviceId.
Proof. solve_decision. Defined.
#[global] Instance MemberId_eq_dec : EqDecision MemberId.
Proof. solve_decision. Defined.
#[global] Instance ServiceId_eq_dec : EqDecision ServiceId.
Proof. solve_decision. Defined.
#[global] Instance VirtualName_eq_dec : EqDecision VirtualName.
Proof. solve_decision. Defined.

#[global] Instance AppAddr_countable : Countable AppAddr.
Proof. by refine (inj_countable' AppAddr_as_bytes AppAddr_from_bytes _); intros []. Defined.
#[global] Instance NetworkId_countable : Countable NetworkId.
Proof. by refine (inj_countable' NetworkId_as_bytes NetworkId_from_bytes _); intros []. Defined.
#[global] Instance DeviceId_countable : Countable DeviceId.
Proof. by refine (inj_countable' DeviceId_as_bytes DeviceId_from_bytes _); intros []. Defined.
#[global] Instance MemberId_countable : Countable MemberId.
Proof. by refine (inj_countable' MemberId_as_bytes MemberId_from_bytes _); intros []. Defined.
#[global] Instance ServiceId_countable : Countable ServiceId.
Proof. by refine (inj_countable' ServiceId_as_bytes ServiceId_from_bytes _); intros []. Defined.
#[global] Instance VirtualName_countable : Countable VirtualName.
Proof. by refine (inj_countable' VirtualName_as_str VirtualName_mk _); intros []. Defined.

(** The types guarantee the array lengths; the model states them. *)
Definition AppAddr_wf (a : AppAddr) : Prop := length (AppAddr_as_bytes a) = 32%nat.
Definition NetworkId_wf (n : NetworkId) : Prop := length (NetworkId_as_bytes n) = 32%nat.
Definition DeviceId_wf (d : DeviceId) : Prop := length (DeviceId_as_bytes d) = 32%nat.
Definition MemberId_wf (m : MemberId) : Prop := length (MemberId_as_bytes m) = 32%nat.
Definition ServiceId_wf (s : ServiceId) : Prop := length (ServiceId_as_bytes s) = 16%nat.

(* weaver-core/src/lib.rs:252-255 ScopedVirtualAddr *)
Inductive ScopedVirtualAddr : Type :=
| Server (app : AppAddr)
| Client (app : AppAddr) (device : DeviceId).
(* weaver-core/src/lib.rs:258-269 ServerAddr *)
Record ServerAddr : Type := ServerAddr_new { ServerAddr_app : AppAddr }.
(* weaver-core/src/lib.rs:277-293 ClientAddr *)
Record ClientAddr : Type := ClientAddr_new { ClientAddr_app : AppAddr; ClientAddr_device : DeviceId }.
(* weaver-core/src/lib.rs:304-307 VirtualAddr *)
Record VirtualAddr : Type := mkVirtualAddr { va_network : NetworkId; va_addr : ScopedVirtualAddr }.

#[global] Instance ScopedVirtualAddr_eq_dec : EqDecision ScopedVirtualAddr.
Proof. solve_decision. Defined.
#[global] Instance VirtualAddr_eq_dec : EqDecision VirtualAddr.
Proof. solve_decision. Defined.
#[global] Instance ScopedVirtualAddr_countable : Countable ScopedVirtualAddr.
Proof.
  refine (inj_countable'
    (fun a => match a with Server app => inl app | Client app d => inr (app, d) end)
    (fun s => match s with inl app => Server app | inr (app, d) => Client app d end) _).
  by intros [].
Defined.
#[global] Instance VirtualAddr_countable : Countable VirtualAddr.
Proof.
  refine (inj_countable' (fun a => (va_network a, va_addr a)) (fun p => mkVirtualAddr p.1 p.2) _).
  by intros [].
Defined.

Definition ScopedVirtualAddr_wf (a : ScopedVirtualAddr) : Prop :=
  match a with
  | Server app => AppAddr_wf app
  | Client app device => AppAddr_wf app /\ DeviceId_wf device
  end.
Definition VirtualAddr_wf (a : VirtualAddr) : Prop :=
  NetworkId_wf (va_network a) /\ ScopedVirtualAddr_wf (va_addr a).

(* weaver-core/src/lib.rs:271-273 ServerAddr::scoped *)
Definition ServerAddr_scoped (a : ServerAddr) : ScopedVirtualAddr := Server (ServerAddr_app a).
(* weaver-core/src/lib.rs:295-300 ClientAddr::scoped *)
Definition ClientAddr_scoped (a : ClientAddr) : ScopedVirtualAddr :=
  Client (ClientAddr_app a) (ClientAddr_device a).
(* weaver-core/src/lib.rs:310-315 VirtualAddr::server *)
Definition VirtualAddr_server (network : NetworkId) (a : ServerAddr) : VirtualAddr :=
  mkVirtualAddr network (ServerAddr_scoped a).
(* weaver-core/src/lib.rs:317-322 VirtualAddr::client *)
Definition VirtualAddr_client (network : NetworkId) (a : ClientAddr) : VirtualAddr :=
  mkVirtualAddr network (ClientAddr_scoped a).

(** ** Virtual names *)
(* weaver-core/src/lib.rs:85-88 VirtualNameError *)
Inductive VirtualNameError : Type := VirtualNameError_Invalid.

Definition is_ascii_lowercase : Byte.byte -> bool := between 97 122.
Definition is_ascii_digit : Byte.byte -> bool := between 48 57.
(* weaver-core/src/lib.rs:99-105 validate_virtual_name *)
Definition label_bad (label : bytes) : bool :=
  bool_decide (label = []) || (63 <? len label)
  || bool_decide (head label = Some Byte.x2d) || bool_decide (last label = Some Byte.x2d)
  || negb (forallb (fun b => is_ascii_lowercase b || is_ascii_digit b || Byte.eqb b Byte.x2d) label).

(* weaver-core/src/lib.rs:90-111 validate_virtual_name *)
Definition validate_virtual_name (value : bytes) : result VirtualNameError unit :=
  fail_if (bool_decide (value = []) || (253 <? len value) || negb (is_ascii value))
    VirtualNameError_Invalid;;
  let labels := split_on Byte.x2e value in
  fail_if ((len labels <? 2) || negb (bool_decide (last labels = Some (bstr "virtual"))))
    VirtualNameError_Invalid;;
  for_each (fun label => fail_if (label_bad label) VirtualNameError_Invalid) labels.

(* weaver-core/src/lib.rs:34-38 VirtualName::new *)
Definition VirtualName_new (value : bytes) : result VirtualNameError VirtualName :=
  validate_virtual_name value;; Ok (VirtualName_mk value).

(** A name that [VirtualName::new] has accepted. *)
Definition VirtualName_wf (n : VirtualName) : Prop :=
  validate_virtual_name (VirtualName_as_str n) = Ok tt.

(** ** Identifiers as text *)
(* weaver-core/src/lib.rs:326-329 ParseIdError *)
Inductive ParseIdError : Type := InvalidEncoding (kind : bytes).

Section text.
Context (hex_encode : bytes -> bytes) (hex_decode : bytes -> option bytes).

(* weaver-core/src/lib.rs:331-336 parse_32_bytes *)
Definition parse_32_bytes (kind value : bytes) : result ParseIdError bytes :=
  bs ← hex_decode value ?? InvalidEncoding kind;
  fail_if (negb (len bs =? 32)) (InvalidEncoding kind);;
  Ok bs.

(* weaver-core/src/lib.rs:138-140 NetworkId::from_str *)
Definition NetworkId_from_str (value : bytes) : result ParseIdError NetworkId :=
  bs ← parse_32_bytes (bstr "NetworkId") value; Ok (NetworkId_from_bytes bs).
(* weaver-core/src/lib.rs:129-133 NetworkId::fmt *)
Definition NetworkId_fmt (n : NetworkId) : bytes := hex_encode (NetworkId_as_bytes n).
(* weaver-core/src/lib.rs:158-160 AppAddr::from_str *)
Definition AppAddr_from_str (value : bytes) : result ParseIdError AppAddr :=
  bs ← parse_32_bytes (bstr "AppAddr") value; Ok (AppAddr_from_bytes bs).
(* weaver-core/src/lib.rs:149-153 AppAddr::fmt *)
Definition AppAddr_fmt (a : AppAddr) : bytes := hex_encode (AppAddr_as_bytes a).
(* weaver-core/src/lib.rs:206-208 MemberId::from_str *)
Definition MemberId_from_str (value : bytes) : result ParseIdError MemberId :=
  bs ← parse_32_bytes (bstr "MemberId") value; Ok (MemberId_from_bytes bs).
(* weaver-core/src/lib.rs:197-201 MemberId::fmt *)
Definition MemberId_fmt (m : MemberId) : bytes := hex_encode (MemberId_as_bytes m).
(* weaver-core/src/lib.rs:246-248 DeviceId::from_str *)
Definition DeviceId_from_str (value : bytes) : result ParseIdError DeviceId :=
  bs ← parse_32_bytes (bstr "DeviceId") value; Ok (DeviceId_from_bytes bs).
(* weaver-core/src/lib.rs:237-241 DeviceId::fmt *)
Definition DeviceId_fmt (d : DeviceId) : bytes := hex_encode (DeviceId_as_bytes d).
End text.

(** ** Facts about names *)

(** What a label of an accepted name looks like. *)
Definition label_byte (b : Byte.byte) : Prop :=
  97 <= byte_val b <= 122 \/ 48 <= byte_val b <= 57 \/ b = Byte.x2d.
Record label_ok (l : bytes) : Prop := {
  label_ok_len : 1 <= len l <= 63;
  label_ok_head : head l <> Some Byte.x2d;
  label_ok_last : last l <> Some Byte.x2d;
  label_ok_bytes : Forall label_byte l;
}.

Lemma between_true lo hi b : between lo hi b = true <-> lo <= byte_val b <= hi.
Proof. unfold between; rewrite andb_true_iff, !Z.leb_le; lia. Qed.

Lemma label_bad_false l : label_bad l = false <-> label_ok l.
Proof.
  unfold label_bad; rewrite !orb_false_iff, negb_false_iff, !bool_decide_eq_false, forallb_forall.
  assert (Hb : (forall b, In b l -> is_ascii_lowercase b || is_ascii_digit b || Byte.eqb b Byte.x2d = true)
               <-> Forall label_byte l).
  { rewrite List.Forall_forall; apply forall_proper; intros b; unfold label_byte.
    rewrite !orb_true_iff; unfold is_ascii_lowercase, is_ascii_digit; rewrite !between_true.
    assert (Byte.eqb b Byte.x2d = true <-> b = Byte.x2d) as ->; [|tauto].
    split; [apply Byte.byte_dec_bl | intros ->; done]. }
  rewrite Hb, Z.ltb_ge; assert (l <> [] <-> 1 <= len l) as ->.
  { unfold len; destruct l; cbn; split; intros; try lia; congruence. }
  split; [intros [[[[? ?] ?] ?] ?]; constructor; done || lia | intros []; split_and!; done || lia].
Qed.

Lemma label_byte_ascii b : label_byte b -> between 0 127 b = true.
Proof. rewrite between_true; intros [?|[?| ->]]; [lia | lia | done]. Qed.

Lemma label_ok_no_dot l : label_ok l -> Byte.x2e ∉ l.
Proof.
  intros [_ _ _ Hl] Hin%list_elem_of_In; rewrite List.Forall_forall in Hl; apply Hl in Hin as [H|[H|H]]; [..|done].
  all: revert H; vm_compute; intuition congruence.
Qed.

Lemma join_ascii ls : Forall label_ok ls -> is_ascii (join_with Byte.x2e ls) = true.
Proof.
  assert (Hl : forall l, label_ok l -> is_ascii l = true).
  { intros l [_ _ _ Hl]; apply forallb_forall; intros b Hb.
    apply label_byte_ascii; rewrite List.Forall_forall in Hl; auto. }
  induction 1 as [|l [|l' ls] Hl' Hls IH]; [done | by apply Hl|].
  cbn [join_with]; unfold is_ascii; rewrite forallb_app; apply andb_true_iff; split; [by apply Hl|].
  exact IH.
Qed.

(** C40: [VirtualName::new] accepts exactly the dot-separated names of at least one
    label under [virtual], with labels of the DNS alphabet and bounds. *)
Theorem VirtualName_new_spec value n :
  VirtualName_new value = Ok n <->
  n = VirtualName_mk value /\ len value <= 253 /\
  exists labels, labels <> [] /\ Forall label_ok labels /\
    value = join_with Byte.x2e (labels ++ [bstr "virtual"]).
Proof.
  assert (Hv : label_ok (bstr "virtual")) by (by apply label_bad_false).
  unfold VirtualName_new, validate_virtual_name; split.
  - intros H; res_inv; bool_inv; pose proof (join_split Byte.x2e value) as Hj.
    destruct (split_on Byte.x2e value) as [|l0 ls _] using rev_ind; [done|].
    rewrite last_snoc in *; simplify_eq; split; [done|]; split; [lia|]; exists ls.
    split_and!; [intros -> | | done].
    + unfold len in *; cbn in *; lia.
    + match goal with HF : Forall _ (_ ++ _) |- _ => apply Forall_app in HF as [HF _] end.
      eapply Forall_impl; [eassumption|].
      intros l Hl; cbv beta in Hl; res_inv; by apply label_bad_false.
  - intros (-> & Hlen & labels & Hne & Hl & ->).
    assert (Hls : Forall label_ok (labels ++ [bstr "virtual"])) by (apply Forall_app; auto).
    rewrite split_join; [| by destruct labels | eapply Forall_impl; [exact Hls | apply label_ok_no_dot]].
    rewrite join_ascii, last_snoc, bool_decide_true by done.
    rewrite (proj2 (Z.ltb_ge 253 _)) by lia.
    rewrite (proj2 (Z.ltb_ge (len _) 2)) by (unfold len; rewrite length_app; destruct labels; cbn; [done|lia]).
    rewrite bool_decide_false.
    2: { destruct labels as [|l ls]; [done|]; destruct (label_ok_len _ (Forall_inv Hls)).
         unfold len in *; destruct l; cbn in *; [lia|]; destruct ls; done. }
    cbn; rewrite (proj2 (for_each_Ok _ _ tt)); [done|].
    eapply Forall_impl; [exact Hls|]; intros l Hlb; by rewrite (proj2 (label_bad_false l)).
Qed.
