(* ===== verification/SocketAddr.v ===== *)
(** * Socket addresses and their text form

    [std::net::SocketAddr] with its [Display] and [FromStr], which invitations use
    to carry bootstrap addresses.  The parser is the one of the standard library:
    every reader either succeeds and advances or leaves the input where it was.

    The theorem: the text of an address parses back to it, up to the IPv6 flow
    information, which the text does not carry. *)

From S2P Require Import Prelude.

(** An IPv6 address is its eight segments. *)
Inductive SocketAddr : Type :=
| SocketV4 (a b c d port : Z)
| SocketV6 (segments : list Z) (port flowinfo scope_id : Z).
#[global] Instance SocketAddr_eq_dec : EqDecision SocketAddr.
Proof. solve_decision. Defined.

Definition socket_wf (s : SocketAddr) : Prop :=
  match s with
  | SocketV4 a b c d port =>
      is_u8 a = true /\ is_u8 b = true /\ is_u8 c = true /\ is_u8 d = true /\ is_u16 port = true
  | SocketV6 segments port flowinfo scope_id =>
      length segments = 8%nat /\ Forall (fun s => is_u16 s = true) segments /\ is_u16 port = true /\
      is_u32 flowinfo = true /\ is_u32 scope_id = true
  end.

(** ** Numbers *)
Definition digit_char (d : Z) : Byte.byte := byte_of_Z (if d <? 10 then 48 + d else 87 + d).
(** [char::to_digit(radix)] *)
Definition to_digit (radix : Z) (b : Byte.byte) : option Z :=
  let d := if between 48 57 b then byte_val b - 48
           else if between 97 122 b then byte_val b - 87
           else if between 65 90 b then byte_val b - 55 else 36 in
  if d <? radix then Some d else None.
(** [{}] and [{:x}] of a number with at most [n] digits. *)
Fixpoint show (n : nat) (radix z : Z) : bytes :=
  match n with
  | O => []
  | S n => (if z <? radix then [] else show n radix (z / radix)) ++ [digit_char (z mod radix)]
  end.

(** The longest prefix of digits, and what follows it. *)
Fixpoint digits (radix : Z) (s : bytes) : list Z * bytes :=
  match s with
  | [] => ([], [])
  | b :: s' => match to_digit radix b with
               | Some d => let '(ds, rest) := digits radix s' in (d :: ds, rest)
               | None => ([], s)
               end
  end.
Definition digits_value (radix : Z) (ds : list Z) : Z := fold_left (fun v d => v * radix + d) ds 0.
(** [Parser::read_number]: the value only grows, so the checks on the way and the
    final conversion refuse the same inputs as a check of the value at the end. *)
Definition read_number (radix : Z) (max_digits : option nat) (allow_zero_prefix : bool) (bits : Z) (s : bytes)
    : option (Z * bytes) :=
  let '(ds, rest) := digits radix s in
  if match max_digits with Some n => Nat.ltb n (length ds) | None => false end then None
  else match ds with
  | [] => None
  | d :: ds' =>
      if negb allow_zero_prefix && (d =? 0) && negb (Nat.eqb (length ds') 0) then None
      else if in_range bits (digits_value radix ds) then Some (digits_value radix ds, rest) else None
  end.

Definition read_given_char (c : Byte.byte) (s : bytes) : option bytes :=
  match s with b :: s => if decide (b = c) then Some s else None | [] => None end.
(** [Parser::read_separator] *)
Definition read_separator {A} (sep : Byte.byte) (index : nat) (inner : bytes -> option (A * bytes)) (s : bytes)
    : option (A * bytes) :=
  match index with O => inner s | S _ => s ← read_given_char sep s; inner s end.

(** ** IPv4 *)
Definition show_ipv4 (a b c d : Z) : bytes :=
  show 3 10 a ++ bstr "." ++ show 3 10 b ++ bstr "." ++ show 3 10 c ++ bstr "." ++ show 3 10 d.
Definition read_octet (index : nat) : bytes -> option (Z * bytes) :=
  read_separator Byte.x2e index (read_number 10 (Some 3%nat) false 8).
Definition read_ipv4 (s : bytes) : option ((Z * Z * Z * Z) * bytes) :=
  '(a, s) ← read_octet 0 s; '(b, s) ← read_octet 1 s; '(c, s) ← read_octet 2 s; '(d, s) ← read_octet 3 s;
  Some ((a, b, c, d), s).

(** ** IPv6 *)
(** The first longest run of zero segments, as its start and length. *)
Fixpoint longest_zeroes (i : nat) (current longest : nat * nat) (segments : list Z) : nat * nat :=
  match segments with
  | [] => longest
  | s :: segments =>
      if s =? 0 then
        let current := if Nat.eqb current.2 0 then (i, 1%nat) else (current.1, S current.2) in
        longest_zeroes (S i) current (if Nat.ltb longest.2 current.2 then current else longest) segments
      else longest_zeroes (S i) (0%nat, 0%nat) longest segments
  end.
Fixpoint show_segments (segments : list Z) : bytes :=
  match segments with
  | [] => []
  | [s] => show 4 16 s
  | s :: segments => show 4 16 s ++ bstr ":" ++ show_segments segments
  end.
(** [to_ipv4_mapped], with the four octets still in two segments. *)
Definition ipv4_mapped (segments : list Z) : option (Z * Z) :=
  match segments with
  | [a; b; c; d; e; f; x; y] =>
      if (a =? 0) && (b =? 0) && (c =? 0) && (d =? 0) && (e =? 0) && (f =? 65535) then Some (x, y) else None
  | _ => None
  end.
Definition show_ipv6 (segments : list Z) : bytes :=
  match ipv4_mapped segments with
  | Some (x, y) => bstr "::ffff:" ++ show_ipv4 (x / 256) (x mod 256) (y / 256) (y mod 256)
  | None =>
      let '(start, n) := longest_zeroes 0 (0%nat, 0%nat) (0%nat, 0%nat) segments in
      if Nat.ltb 1 n then show_segments (take start segments) ++ bstr "::" ++ show_segments (drop (start + n) segments)
      else show_segments segments
  end.
(** [read_groups] with [n] slots left, at slot [i] of [limit]. *)
Fixpoint read_groups (n i limit : nat) (s : bytes) : list Z * bool * bytes :=
  match n with
  | O => ([], false, s)
  | S n =>
      match (if Nat.ltb i (limit - 1) then read_separator Byte.x3a i read_ipv4 s else None) with
      | Some ((a, b, c, d), s) => ([a * 256 + b; c * 256 + d], true, s)
      | None =>
          match read_separator Byte.x3a i (read_number 16 (Some 4%nat) true 16) s with
          | Some (g, s) => let '(gs, v4, s) := read_groups n (S i) limit s in (g :: gs, v4, s)
          | None => ([], false, s)
          end
      end
  end.
Definition read_ipv6 (s : bytes) : option (list Z * bytes) :=
  let '(head, head_ipv4, s) := read_groups 8 0 8 s in
  if Nat.eqb (length head) 8 then Some (head, s)
  else if head_ipv4 then None
  else
    s ← read_given_char Byte.x3a s; s ← read_given_char Byte.x3a s;
    let limit := (8 - (length head + 1))%nat in
    let '(tail, _, s) := read_groups limit 0 limit s in
    Some (head ++ repeat 0 (8 - length head - length tail) ++ tail, s).

(** ** Socket addresses *)
Definition SocketAddr_to_string (s : SocketAddr) : bytes :=
  match s with
  | SocketV4 a b c d port => show_ipv4 a b c d ++ bstr ":" ++ show 5 10 port
  | SocketV6 segments port _ scope_id =>
      bstr "[" ++ show_ipv6 segments ++ (if scope_id =? 0 then [] else bstr "%" ++ show 10 10 scope_id)
      ++ bstr "]:" ++ show 5 10 port
  end.
Definition read_port (s : bytes) : option (Z * bytes) := s ← read_given_char Byte.x3a s; read_number 10 None true 16 s.
Definition read_scope_id (s : bytes) : option (Z * bytes) := s ← read_given_char Byte.x25 s; read_number 10 None true 32 s.
Definition read_socket_v4 (s : bytes) : option (SocketAddr * bytes) :=
  '((a, b, c, d), s) ← read_ipv4 s; '(port, s) ← read_port s; Some (SocketV4 a b c d port, s).
Definition read_socket_v6 (s : bytes) : option (SocketAddr * bytes) :=
  s ← read_given_char Byte.x5b s; '(segments, s) ← read_ipv6 s;
  let '(scope_id, s) := match read_scope_id s with Some r => r | None => (0, s) end in
  s ← read_given_char Byte.x5d s; '(port, s) ← read_port s;
  Some (SocketV6 segments port 0 scope_id, s).
Definition SocketAddr_from_str (s : bytes) : option SocketAddr :=
  match (match read_socket_v4 s with Some r => Some r | None => read_socket_v6 s end) with
  | Some (a, []) => Some a
  | _ => None
  end.

(** ** Printed numbers read back *)
(** What may follow a number: nothing that would continue it. *)
Definition stops (radix : Z) (rest : bytes) : Prop :=
  match rest with [] => True | b :: _ => to_digit radix b = None end.

Lemma to_digit_char radix d : 0 <= d < radix -> radix <= 16 -> to_digit radix (digit_char d) = Some d.
Proof.
  intros Hd Hr; assert (d = 0 \/ d = 1 \/ d = 2 \/ d = 3 \/ d = 4 \/ d = 5 \/ d = 6 \/ d = 7 \/ d = 8 \/ d = 9 \/ d = 10 \/
    d = 11 \/ d = 12 \/ d = 13 \/ d = 14 \/ d = 15) as Hc by lia.
  repeat destruct Hc as [->|Hc]; try subst;
    match goal with |- context [digit_char ?k] => let c := eval vm_compute in (digit_char k) in change (digit_char k) with c end;
    cbv -[Z.ltb]; by rewrite (proj2 (Z.ltb_lt _ _)) by lia.
Qed.

Lemma digits_app radix x ds rest :
  Forall2 (fun b d => to_digit radix b = Some d) x ds -> stops radix rest -> digits radix (x ++ rest) = (ds, rest).
Proof.
  intros Hx Hs; induction Hx as [|b d x ds Hb _ IH]; cbn.
  - destruct rest as [|b rest]; [done|]; cbn in *; by rewrite Hs.
  - by rewrite Hb, IH.
Qed.

Lemma digits_value_snoc radix ds d : digits_value radix (ds ++ [d]) = digits_value radix ds * radix + d.
Proof. unfold digits_value; by rewrite fold_left_app. Qed.

(** A printed number: its digits, their value, and no leading zero. *)
Record printed (n : nat) (radix z : Z) (x : bytes) (ds : list Z) : Prop := {
  pr_digits : Forall2 (fun b d => to_digit radix b = Some d) x ds;
  pr_value : digits_value radix ds = z;
  pr_length : (0 < length ds <= n)%nat;
  pr_leading : (1 < length ds)%nat -> head ds <> Some 0;
}.

Lemma show_printed n radix z :
  2 <= radix <= 16 -> 0 <= z < radix ^ Z.of_nat (S n) -> exists ds, printed (S n) radix z (show (S n) radix z) ds.
Proof.
  intros Hr; revert z; induction n as [|n IH]; intros z Hz.
  all: cbn [show]; pose proof (Z.mod_pos_bound z radix ltac:(lia)) as Hm.
  all: pose proof (to_digit_char radix (z mod radix) Hm ltac:(lia)) as Hd; destruct (z <? radix) eqn:Hlt; bool_inv.
  1, 3: exists [z mod radix]; constructor; cbn; [by constructor | | lia | lia]; rewrite Z.mod_small by lia; unfold digits_value; cbn; lia.
  - change (Z.of_nat 1) with 1 in Hz; lia.
  - rewrite (Nat2Z.inj_succ (S n)), Z.pow_succ_r in Hz by lia.
    assert (0 < z / radix < radix ^ Z.of_nat (S n)) as Hq.
    { split; [apply Z.div_str_pos; lia | apply Z.div_lt_upper_bound; lia]. }
    destruct (IH (z / radix) ltac:(lia)) as [ds [Hx Hv Hl Hz0]]; exists (ds ++ [z mod radix]); constructor.
    + apply Forall2_app; [exact Hx | by constructor].
    + rewrite digits_value_snoc, Hv; pose proof (Z.div_mod z radix ltac:(lia)); lia.
    + rewrite length_app; cbn; lia.
    + intros _; destruct ds as [|d [|d' ds]]; cbn in *; [lia | | apply Hz0; lia].
      intros [= ->]; unfold digits_value in Hv; cbn in Hv; lia.
Qed.

Lemma read_show n radix bits z rest max zp :
  2 <= radix <= 16 -> 0 <= z < radix ^ Z.of_nat (S n) -> in_range bits z = true -> stops radix rest ->
  match max with Some m => (S n <= m)%nat | None => True end ->
  read_number radix max zp bits (show (S n) radix z ++ rest) = Some (z, rest).
Proof.
  intros Hr Hz Hb Hs Hm; destruct (show_printed n radix z Hr Hz) as [ds [Hx Hv Hl Hz0]]; unfold read_number.
  rewrite (digits_app _ _ _ _ Hx Hs).
  assert (match max with Some n => Nat.ltb n (length ds) | None => false end = false) as ->
    by (destruct max; [apply Nat.ltb_ge; lia | done]).
  destruct ds as [|d ds]; cbn in Hl; [lia|]; rewrite Hv, Hb.
  destruct (negb zp && (d =? 0) && negb (Nat.eqb (length ds) 0)) eqn:Hc; [|done]; bool_inv; apply Nat.eqb_neq in Hc.
  exfalso; apply Hz0; cbn; [lia | congruence].
Qed.

Lemma show_length n radix z :
  2 <= radix <= 16 -> 0 <= z < radix ^ Z.of_nat (S n) -> (0 < length (show (S n) radix z) <= S n)%nat.
Proof.
  intros Hr Hz; destruct (show_printed n radix z Hr Hz) as [ds [Hx _ Hl _]]; by rewrite (Forall2_length _ _ _ Hx).
Qed.

(** ** IPv4 addresses read back *)
Lemma u8_pow a : is_u8 a = true -> 0 <= a < 10 ^ Z.of_nat 3.
Proof. unfold in_range; intros; bool_inv; lia. Qed.
Lemma u16_pow a : is_u16 a = true -> 0 <= a < 10 ^ Z.of_nat 5 /\ 0 <= a < 16 ^ Z.of_nat 4.
Proof. unfold in_range; intros; bool_inv; lia. Qed.
Lemma u32_pow a : is_u32 a = true -> 0 <= a < 10 ^ Z.of_nat 10.
Proof. unfold in_range; intros; bool_inv; lia. Qed.

Lemma read_octet_first a rest : is_u8 a = true -> stops 10 rest -> read_octet 0 (show 3 10 a ++ rest) = Some (a, rest).
Proof. intros Ha Hs; apply read_show; [lia | by apply u8_pow | done..]. Qed.
Lemma read_octet_next i a rest :
  is_u8 a = true -> stops 10 rest -> read_octet (S i) (bstr "." ++ show 3 10 a ++ rest) = Some (a, rest).
Proof.
  intros Ha Hs; unfold read_octet, read_separator; change (bstr ".") with [Byte.x2e]; cbn [app read_given_char].
  rewrite decide_True by done; by apply read_octet_first.
Qed.

Lemma read_ipv4_show a b c d rest :
  is_u8 a = true -> is_u8 b = true -> is_u8 c = true -> is_u8 d = true -> stops 10 rest ->
  read_ipv4 (show_ipv4 a b c d ++ rest) = Some ((a, b, c, d), rest).
Proof.
  intros Ha Hb Hc Hd Hs; unfold show_ipv4, read_ipv4; rewrite <- !app_assoc.
  rewrite read_octet_first by done; cbn [mbind option_bind]; rewrite read_octet_next by done; cbn [mbind option_bind].
  rewrite read_octet_next by done; cbn [mbind option_bind]; by rewrite read_octet_next.
Qed.

(** ** Where groups of segments end *)
(** A character that neither continues a number nor separates octets. *)
Definition delim (rest : bytes) : Prop := match rest with [] => True | b :: _ => to_digit 16 b = None /\ b <> Byte.x2e end.

Lemma to_digit_16_10 b : to_digit 16 b = None -> to_digit 10 b = None.
Proof.
  unfold to_digit; cbv zeta; set (d := if between 48 57 b then _ else _).
  destruct (d <? 16) eqn:H1; [done|]; bool_inv; by rewrite (proj2 (Z.ltb_ge _ _)) by lia.
Qed.
Lemma delim_stops rest : delim rest -> stops 16 rest /\ stops 10 rest.
Proof. destruct rest as [|b rest]; [done|]; intros [Hb _]; split; [done | by apply to_digit_16_10]. Qed.

Lemma digits_no_dot x rest :
  Forall (fun b => to_digit 16 b <> None) x -> delim rest -> head (digits 10 (x ++ rest)).2 <> Some Byte.x2e.
Proof.
  intros Hx Hr; induction Hx as [|b x Hb _ IH]; cbn [app].
  - destruct rest as [|b rest]; cbn; [done|]; destruct Hr as [Hb Hd].
    rewrite (to_digit_16_10 _ Hb); cbn; congruence.
  - cbn [digits]; destruct (to_digit 10 b); [by destruct (digits 10 (x ++ rest))|]; cbn.
    intros [= ->]; by apply Hb.
Qed.

Lemma read_ipv4_none s : head (digits 10 s).2 <> Some Byte.x2e -> read_ipv4 s = None.
Proof.
  intros Hd; unfold read_ipv4; destruct (read_octet 0 s) as [[a s']|] eqn:Ha; [|done]; cbn [mbind option_bind].
  assert (s' = (digits 10 s).2) as ->.
  { unfold read_octet, read_separator, read_number in Ha; destruct (digits 10 s) as [ds rest]; cbn.
    destruct (Nat.ltb _ _); [done|]; destruct ds; [done|]; repeat case_match; congruence. }
  assert (read_octet 1 (digits 10 s).2 = None) as ->; [|done].
  unfold read_octet, read_separator, read_given_char; destruct (digits 10 s).2 as [|b r]; [done|].
  rewrite decide_False; [done | by intros ->].
Qed.

Lemma read_number_none rest zp max bits : delim rest -> read_number 16 max zp bits rest = None.
Proof.
  intros [Hs _]%delim_stops; unfold read_number; pose proof (digits_app 16 [] [] rest (Forall2_nil_2 _ _ _) Hs) as Hd.
  cbn [app] in Hd; rewrite Hd; by destruct max.
Qed.
Lemma read_ipv4_delim rest : delim rest -> read_ipv4 rest = None.
Proof. intros Hr; apply read_ipv4_none; by apply (digits_no_dot []). Qed.

(** Nothing that follows the groups looks like one more group. *)
Definition ends (i : nat) (rest : bytes) : Prop :=
  read_separator Byte.x3a i read_ipv4 rest = None /\
  read_separator Byte.x3a i (read_number 16 (Some 4%nat) true 16) rest = None.
Lemma ends_delim i rest :
  delim rest -> match rest with b :: rest => b = Byte.x3a -> delim rest | [] => True end -> ends i rest.
Proof.
  intros Hr Hc; unfold ends, read_separator; destruct i; [by split; [apply read_ipv4_delim | apply read_number_none]|].
  destruct rest as [|b rest]; [done|]; cbn [read_given_char]; case_decide; [|done]; subst; cbn [mbind option_bind].
  split; [apply read_ipv4_delim | apply read_number_none]; auto.
Qed.

(** ** IPv6 addresses read back *)
Fixpoint group_text (i : nat) (gs : list Z) : bytes :=
  match gs with
  | [] => []
  | g :: gs => match i with O => [] | S _ => bstr ":" end ++ show 4 16 g ++ group_text (S i) gs
  end.
Lemma show_segments_text gs : show_segments gs = group_text 0 gs.
Proof.
  assert (forall gs i, show_segments gs = match gs with [] => [] | g :: gs => show 4 16 g ++ group_text (S i) gs end) as Hs.
  { clear; induction gs as [|g [|g' gs] IH]; intros i; [done | cbn; by rewrite app_nil_r|].
    change (show_segments (g :: g' :: gs)) with (show 4 16 g ++ bstr ":" ++ show_segments (g' :: gs)).
    by rewrite (IH (S i)). }
  rewrite (Hs gs 0%nat); by destruct gs.
Qed.
Lemma delim_group_text i gs rest : delim rest -> delim (group_text (S i) gs ++ rest).
Proof. by destruct gs. Qed.
Lemma show_hex g : is_u16 g = true -> Forall (fun b => to_digit 16 b <> None) (show 4 16 g).
Proof.
  intros Hg; destruct (show_printed 3 16 g ltac:(lia) (proj2 (u16_pow g Hg))) as [ds [Hx _ _ _]].
  clear Hg; induction Hx; constructor; [congruence | done].
Qed.

Lemma read_groups_text gs n i limit rest :
  (length gs <= n)%nat -> Forall (fun g => is_u16 g = true) gs -> delim rest ->
  (length gs = n \/ ends (i + length gs) rest) -> read_groups n i limit (group_text i gs ++ rest) = (gs, false, rest).
Proof.
  intros Hn Hgs Hr; revert n i Hn; induction Hgs as [|g gs Hg Hgs IH]; intros n i Hn He.
  - destruct n as [|n]; [done|]; destruct He as [He|[H4 H6]]; [done|]; cbn [group_text app read_groups].
    rewrite Nat.add_0_r in H4, H6; rewrite H4, H6; by destruct (Nat.ltb _ _).
  - destruct n as [|n]; cbn in Hn; [lia|]; cbn [read_groups].
    set (rest' := group_text (S i) gs ++ rest).
    assert (delim rest') as Hr' by by apply delim_group_text.
    assert (exists s, read_separator (A := Z * Z * Z * Z) Byte.x3a i read_ipv4 (group_text i (g :: gs) ++ rest) = read_ipv4 s /\
      read_separator (A := Z) Byte.x3a i (read_number 16 (Some 4%nat) true 16) (group_text i (g :: gs) ++ rest)
        = read_number 16 (Some 4%nat) true 16 s /\ s = show 4 16 g ++ rest') as (s & -> & -> & ->).
    { eexists; split_and!; [| |reflexivity]; cbn [group_text]; rewrite <- !app_assoc; destruct i; cbn [app read_separator]; done. }
    rewrite read_ipv4_none by (apply digits_no_dot; [by apply show_hex | done]).
    rewrite read_show; [| lia | by apply u16_pow | done | by apply delim_stops | lia].
    rewrite IH; [by destruct (Nat.ltb _ _) | lia|]; destruct He as [He|He]; [left; cbn in He; lia | right].
    by replace (S i + length gs)%nat with (i + length (g :: gs))%nat by (cbn; lia).
Qed.

(** A run of zero segments found by the printer. *)
Definition zero_span (l : list Z) (sp : nat * nat) : Prop :=
  exists x y, l = x ++ repeat 0 sp.2 ++ y /\ length x = sp.1.
Lemma zero_span_snoc l sp z : zero_span l sp -> zero_span (l ++ [z]) sp.
Proof. intros (x & y & -> & Hx); exists x, (y ++ [z]); split; [by rewrite <- !app_assoc | done]. Qed.
Lemma longest_zeroes_span rest pre current longest :
  zero_span pre longest ->
  (current.2 <> 0%nat -> exists x, pre = x ++ repeat 0 current.2 /\ length x = current.1) ->
  zero_span (pre ++ rest) (longest_zeroes (length pre) current longest rest).
Proof.
  revert pre current longest; induction rest as [|s rest IH]; intros pre current longest Hl Hc; cbn [longest_zeroes].
  - by rewrite app_nil_r.
  - replace (pre ++ s :: rest) with ((pre ++ [s]) ++ rest) by by rewrite <- app_assoc.
    replace (S (length pre)) with (length (pre ++ [s])) by (rewrite length_app; cbn; lia).
    destruct (s =? 0) eqn:Hs; bool_inv; [|apply IH; [by apply zero_span_snoc | done]].
    subst s; set (cur := if Nat.eqb current.2 0 then _ else _).
    assert (exists x, pre ++ [0] = x ++ repeat 0 cur.2 /\ length x = cur.1) as Hcur.
    { unfold cur; destruct (Nat.eqb_spec current.2 0) as [Hz|Hz]; cbn; [by exists pre|].
      destruct (Hc Hz) as (x & -> & Hx); exists x; split; [|done].
      rewrite <- app_assoc; f_equal; by rewrite <- (repeat_cons (current.2)). }
    apply IH; [|done].
    destruct (Nat.ltb _ _); [|by apply zero_span_snoc].
    destruct Hcur as (x & -> & Hx); exists x, []; by rewrite app_nil_r.
Qed.

Lemma read_colon_colon s : read_given_char Byte.x3a (bstr "::" ++ s) = Some (bstr ":" ++ s).
Proof. reflexivity. Qed.
Lemma read_colon s : read_given_char Byte.x3a (bstr ":" ++ s) = Some s.
Proof. reflexivity. Qed.
Lemma read_bracket s : read_given_char Byte.x5b (bstr "[" ++ s) = Some s.
Proof. reflexivity. Qed.
Lemma read_closing s : read_given_char Byte.x5d (bstr "]:" ++ s) = Some (bstr ":" ++ s).
Proof. reflexivity. Qed.
Lemma read_percent s : read_given_char Byte.x25 (bstr "%" ++ s) = Some s.
Proof. reflexivity. Qed.
Lemma read_no_percent s : read_given_char Byte.x25 (bstr "]:" ++ s) = None.
Proof. reflexivity. Qed.

(** Groups up to the double colon, which stands for the segments left over. *)
Lemma read_compressed x y n v4 s rest :
  Forall (fun g => is_u16 g = true) x -> (length x + n + length y = 8)%nat -> (1 < n)%nat ->
  read_groups (7 - length x) 0 (7 - length x) s = (y, v4, rest) ->
  read_ipv6 (show_segments x ++ bstr "::" ++ s) = Some (x ++ repeat 0 n ++ y, rest).
Proof.
  intros Hx Hl Hn Hy; unfold read_ipv6; rewrite show_segments_text.
  rewrite read_groups_text; [|lia|done|done|right; by apply ends_delim].
  rewrite (proj2 (Nat.eqb_neq _ _)) by lia; rewrite read_colon_colon; cbn [mbind option_bind]; rewrite read_colon; cbn [mbind option_bind].
  replace (8 - (length x + 1))%nat with (7 - length x)%nat by lia; rewrite Hy; do 4 f_equal; f_equal; lia.
Qed.

Lemma read_groups_S n i limit s : read_groups (S n) i limit s =
  match (if Nat.ltb i (limit - 1) then read_separator Byte.x3a i read_ipv4 s else None) with
  | Some ((a, b, c, d), s) => ([a * 256 + b; c * 256 + d], true, s)
  | None =>
      match read_separator Byte.x3a i (read_number 16 (Some 4%nat) true 16) s with
      | Some (g, s) => let '(gs, v4, s) := read_groups n (S i) limit s in (g :: gs, v4, s)
      | None => ([], false, s)
      end
  end.
Proof. reflexivity. Qed.

Lemma u16_halves x : is_u16 x = true ->
  is_u8 (x / 256) = true /\ is_u8 (x mod 256) = true /\ x / 256 * 256 + x mod 256 = x.
Proof.
  unfold in_range; intros; bool_inv; pose proof (Z.mod_pos_bound x 256 ltac:(lia)); pose proof (Z.div_mod x 256 ltac:(lia)).
  pose proof (Z.div_pos x 256 ltac:(lia) ltac:(lia)); split_and!; [passes.. | lia].
Qed.

(** What follows the address inside the brackets. *)
Definition closes (rest : bytes) : Prop := delim rest /\ head rest <> Some Byte.x3a.
Lemma closes_ends i rest : closes rest -> ends i rest.
Proof. intros [Hr Hc]; apply ends_delim; [done|]; destruct rest; [done|]; intros ->; by destruct Hc. Qed.

Lemma read_show_mapped x y rest :
  is_u16 x = true -> is_u16 y = true -> closes rest ->
  read_ipv6 (bstr "::ffff:" ++ show_ipv4 (x / 256) (x mod 256) (y / 256) (y mod 256) ++ rest)
    = Some ([0; 0; 0; 0; 0; 65535; x; y], rest).
Proof.
  intros (Hx1 & Hx2 & Hx)%u16_halves (Hy1 & Hy2 & Hy)%u16_halves [Hr _].
  change (bstr "::ffff:" ++ show_ipv4 (x / 256) (x mod 256) (y / 256) (y mod 256) ++ rest)
    with (show_segments [] ++ bstr "::" ++ (bstr "ffff" ++ bstr ":" ++ show_ipv4 (x / 256) (x mod 256) (y / 256) (y mod 256) ++ rest)).
  eapply (read_compressed [] [65535; x; y] 5 true); cbn [length]; [done | done | lia|]; change (7 - 0)%nat with 7%nat; rewrite read_groups_S.
  change (Nat.ltb 0 (7 - 1)) with true; cbn [read_separator].
  set (v4 := show_ipv4 _ _ _ _); rewrite (read_ipv4_none (bstr "ffff" ++ bstr ":" ++ v4 ++ rest)).
  2: { apply digits_no_dot; [|done]; change (bstr "ffff") with (show 4 16 65535); by apply show_hex. }
  change (bstr "ffff") with (show 4 16 65535); rewrite read_show by done.
  rewrite read_groups_S; change (Nat.ltb 1 (7 - 1)) with true; cbn [read_separator].
  rewrite read_colon; cbn [mbind option_bind]; unfold v4; rewrite read_ipv4_show by (try done; by apply delim_stops).
  by rewrite Hx, Hy.
Qed.

Lemma read_show_ipv6 segments rest :
  length segments = 8%nat -> Forall (fun s => is_u16 s = true) segments -> closes rest ->
  read_ipv6 (show_ipv6 segments ++ rest) = Some (segments, rest).
Proof.
  intros Hl Hs Hr; unfold show_ipv6; destruct (ipv4_mapped segments) as [[x y]|] eqn:Hm.
  - unfold ipv4_mapped in Hm; destruct segments as [|a [|b [|c [|d [|e [|f [|x' [|y' [|? ?]]]]]]]]]; try done.
    destruct (_ && _) eqn:Hb; [|done]; injection Hm as -> ->; bool_inv; subst.
    rewrite <- app_assoc; apply read_show_mapped; [| |done]; by (repeat (apply Forall_cons in Hs as [? Hs])).
  - clear Hm; destruct (longest_zeroes 0 (0, 0)%nat (0, 0)%nat segments) as [st n] eqn:Hz.
    destruct (Nat.ltb_spec 1 n) as [Hn|Hn].
    + destruct (longest_zeroes_span segments [] (0, 0)%nat (0, 0)%nat) as (x & y & Heq & Hx); [by exists [], []|done|].
      cbn [length app] in Heq, Hx; rewrite Hz in Heq, Hx; cbn in Heq, Hx; subst segments st.
      rewrite take_app_length, (app_assoc x), drop_app_length' by (rewrite length_app, repeat_length; lia).
      rewrite !length_app, repeat_length in Hl; apply Forall_app in Hs as [Hsx [_ Hsy]%Forall_app].
      rewrite <- !app_assoc; apply (read_compressed _ _ _ false); [done|lia|done|].
      rewrite show_segments_text; apply read_groups_text; [lia | done | apply Hr | right; by apply closes_ends].
    + unfold read_ipv6; rewrite show_segments_text, read_groups_text; [|lia|done|apply Hr|by left].
      by rewrite Hl.
Qed.

(** ** Socket addresses read back *)
Lemma read_port_show port : is_u16 port = true -> read_port (bstr ":" ++ show 5 10 port) = Some (port, []).
Proof.
  intros Hp; unfold read_port; rewrite read_colon; cbn [mbind option_bind].
  rewrite <- (app_nil_r (show 5 10 port)); apply read_show; [lia | by apply u16_pow | done..].
Qed.

(** The text of an address, without the flow information, reads back. *)
Definition without_flowinfo (s : SocketAddr) : SocketAddr :=
  match s with SocketV6 segments port _ scope_id => SocketV6 segments port 0 scope_id | v4 => v4 end.
Lemma SocketAddr_round_trip s :
  socket_wf s -> SocketAddr_from_str (SocketAddr_to_string s) = Some (without_flowinfo s).
Proof.
  unfold SocketAddr_from_str; destruct s as [a b c d port|segments port flowinfo scope]; cbn [socket_wf SocketAddr_to_string].
  - intros (? & ? & ? & ? & ?); unfold read_socket_v4; rewrite read_ipv4_show by done; cbn [mbind option_bind].
    by rewrite read_port_show.
  - intros (Hl & Hs & Hp & _ & Hsc).
    set (tl := (if scope =? 0 then [] else _) ++ _).
    assert (closes tl) as Hc by (unfold tl; destruct (scope =? 0); done).
    assert (read_socket_v4 (bstr "[" ++ show_ipv6 segments ++ tl) = None) as ->
      by (unfold read_socket_v4; by rewrite read_ipv4_delim).
    unfold read_socket_v6; rewrite read_bracket; cbn [mbind option_bind].
    rewrite read_show_ipv6 by done; cbn [mbind option_bind]; unfold tl; destruct (scope =? 0) eqn:Hz; bool_inv.
    + subst; cbn [app]; unfold read_scope_id; rewrite read_no_percent; cbn [mbind option_bind]; rewrite read_closing; cbn [mbind option_bind].
      by rewrite read_port_show.
    + rewrite <- app_assoc; unfold read_scope_id; rewrite read_percent; cbn [mbind option_bind]; rewrite read_show; [| lia | by apply u32_pow | done..].
      rewrite read_closing; cbn [mbind option_bind].
      by rewrite read_port_show.
Qed.

(** ** The text is short and ASCII *)
Definition plain (n : nat) (x : bytes) : Prop := (length x <= n)%nat /\ is_ascii x = true.
Lemma plain_app n m x y : plain n x -> plain m y -> plain (n + m) (x ++ y).
Proof.
  intros [Hn Hx] [Hm Hy]; split; [rewrite length_app; lia|].
  unfold is_ascii in *; by rewrite forallb_app, Hx, Hy.
Qed.
Lemma plain_show n radix z : 2 <= radix <= 16 -> 0 <= z < radix ^ Z.of_nat (S n) -> plain (S n) (show (S n) radix z).
Proof.
  intros Hr Hz; split; [apply show_length; done|].
  destruct (show_printed n radix z Hr Hz) as [ds [Hx _ _ _]]; apply forallb_forall; intros b Hb%list_elem_of_In.
  apply list_elem_of_lookup_1 in Hb as [i Hi]; destruct (Forall2_lookup_l _ _ _ _ _ Hx Hi) as (d & _ & Hd).
  unfold to_digit in Hd; cbv zeta in Hd; unfold between in *.
  destruct (Z.ltb_spec 127 (byte_val b)) as [Hlt|Hge]; [|pose proof (byte_val_range b); passes].
  rewrite (proj2 (Z.leb_le 48 _)), (proj2 (Z.leb_le 97 _)), (proj2 (Z.leb_le 65 _)) in Hd by lia.
  rewrite !(proj2 (Z.leb_gt (byte_val b) _)) in Hd by lia; cbn [andb] in Hd.
  rewrite (proj2 (Z.ltb_ge 36 _)) in Hd by lia; done.
Qed.
Lemma plain_nil n : plain n [].
Proof. split; [cbn; lia | done]. Qed.
Ltac plain_done := split; [vm_compute; lia | reflexivity].
Lemma plain_weaken n m x : plain n x -> (n <= m)%nat -> plain m x.
Proof. intros [? ?] ?; split; [lia | done]. Qed.
Lemma plain_ipv4 a b c d :
  is_u8 a = true -> is_u8 b = true -> is_u8 c = true -> is_u8 d = true -> plain 15 (show_ipv4 a b c d).
Proof.
  intros Ha Hb Hc Hd; unfold show_ipv4.
  apply (plain_app 3 12); [apply plain_show; [lia | by apply u8_pow]|]; apply (plain_app 1 11); [plain_done|].
  apply (plain_app 3 8); [apply plain_show; [lia | by apply u8_pow]|]; apply (plain_app 1 7); [plain_done|].
  apply (plain_app 3 4); [apply plain_show; [lia | by apply u8_pow]|]; apply (plain_app 1 3); [plain_done|].
  apply plain_show; [lia | by apply u8_pow].
Qed.
Lemma plain_segments gs : Forall (fun g => is_u16 g = true) gs -> plain (5 * length gs) (show_segments gs).
Proof.
  intros Hg; rewrite show_segments_text; enough (forall i, plain (5 * length gs) (group_text i gs)) by done.
  induction Hg as [|g gs Hg _ IH]; intros i; [apply plain_nil|]; cbn [group_text length].
  replace (5 * S (length gs))%nat with (1 + (4 + 5 * length gs))%nat by lia; apply plain_app; [destruct i; [apply plain_nil | plain_done]|].
  apply plain_app; [apply plain_show; [lia | by apply u16_pow] | apply IH].
Qed.
Lemma plain_ipv6 segments :
  length segments = 8%nat -> Forall (fun s => is_u16 s = true) segments -> plain 82 (show_ipv6 segments).
Proof.
  intros Hl Hs; unfold show_ipv6; destruct (ipv4_mapped segments) as [[x y]|] eqn:Hm.
  - assert (is_u16 x = true /\ is_u16 y = true) as [(? & ? & _)%u16_halves (? & ? & _)%u16_halves].
    { unfold ipv4_mapped in Hm; destruct segments as [|a [|b [|c [|d [|e [|f [|x' [|y' [|? ?]]]]]]]]]; try done.
      destruct (_ && _); [|done]; injection Hm as -> ->; by (repeat (apply Forall_cons in Hs as [? Hs])). }
    apply (plain_app 7 75); [plain_done|]; eapply plain_weaken; [by apply plain_ipv4 | lia].
  - destruct (longest_zeroes _ _ _ _) as [st n]; destruct (Nat.ltb _ _).
    + apply (plain_app 40 42); [|apply (plain_app 2 40); [plain_done|]];
        (eapply plain_weaken; [apply plain_segments | rewrite ?length_take, ?length_drop; lia]); [by apply Forall_take | by apply Forall_drop].
    + eapply plain_weaken; [by apply plain_segments | lia].
Qed.
Lemma SocketAddr_text s : socket_wf s -> plain 128 (SocketAddr_to_string s) /\ SocketAddr_to_string s <> [].
Proof.
  destruct s as [a b c d port|segments port flowinfo scope]; cbn [socket_wf SocketAddr_to_string].
  - intros (Ha & ? & ? & ? & Hp%u16_pow); split.
    + apply (plain_app 15 113); [by apply plain_ipv4|]; apply (plain_app 1 112); [plain_done|].
      eapply plain_weaken; [apply plain_show; [lia | apply Hp] | lia].
    + unfold show_ipv4; pose proof (show_length 2 10 a ltac:(lia) (u8_pow _ Ha)); destruct (show 3 10 a); [cbn in *; lia | done].
  - intros (Hl & Hs & Hp%u16_pow & _ & Hsc%u32_pow); split; [|done].
    apply (plain_app 1 127); [plain_done|]; apply (plain_app 82 45); [by apply plain_ipv6|].
    apply (plain_app 11 34); [destruct (scope =? 0); [apply plain_nil|]; apply (plain_app 1 10); [plain_done|]; apply plain_show; [lia | done]|].
    apply (plain_app 2 32); [plain_done|]; eapply plain_weaken; [apply plain_show; [lia | apply Hp] | lia].
Qed.

(** ** Addresses as octets *)
(** [octets()] of the two address families; an IPv6 address is its segments. *)
Definition ipv6_octets (segments : list Z) : bytes := concat (to_be 2 <$> segments).
(** [Ipv4Addr::from([u8; 4])] and [Ipv6Addr::from([u8; 16])] *)
Definition ipv4_of (bs : bytes) (port : Z) : SocketAddr :=
  let octet i := byte_val (nth i bs Byte.x00) in SocketV4 (octet 0%nat) (octet 1%nat) (octet 2%nat) (octet 3%nat) port.
Fixpoint ipv6_segments (bs : bytes) : list Z :=
  match bs with
  | hi :: lo :: bs => from_be [hi; lo] :: ipv6_segments bs
  | _ => []
  end.
Lemma ipv6_round_trip segments :
  Forall (fun s => is_u16 s = true) segments -> ipv6_segments (ipv6_octets segments) = segments.
Proof.
  unfold ipv6_octets; induction 1 as [|s l Hs _ IH]; [done|]; cbn -[to_be from_be]; change (to_be 2 s) with
    [byte_of_Z (s / 2 ^ (8 * Z.of_nat 1)); byte_of_Z (s / 2 ^ (8 * Z.of_nat 0))]; cbn [app ipv6_segments]; rewrite IH.
  f_equal; change [_; _] with (to_be 2 s); rewrite from_to_be; unfold in_range in Hs; bool_inv; by apply Z.mod_small.
Qed.
Lemma ipv6_octets_of n bs :
  length bs = (2 * n)%nat ->
  ipv6_octets (ipv6_segments bs) = bs /\ length (ipv6_segments bs) = n /\ Forall (fun s => is_u16 s = true) (ipv6_segments bs).
Proof.
  revert bs; induction n as [|n IH]; intros [|hi [|lo bs]] Hl; cbn in Hl; try lia; [by split_and!; [..|constructor]|].
  destruct (IH bs) as (Ho & Hn & Hf); [lia|]; unfold ipv6_octets in *; cbn -[from_be to_be]; split_and!.
  - by rewrite Ho, (to_from_be_n 2 [hi; lo]).
  - by rewrite Hn.
  - constructor; [|done]; pose proof (from_be_range [hi; lo]) as Hr; unfold in_range; passes; exact (proj2 Hr).
Qed.
Lemma length_ipv6_octets segments : length (ipv6_octets segments) = (2 * length segments)%nat.
Proof. unfold ipv6_octets; induction segments as [|s l IH]; [done|]; cbn -[to_be]; rewrite length_app, length_to_be, IH; cbn; lia. Qed.
Lemma to_be_1 z : to_be 1 z = [byte_of_Z z].
Proof. unfold to_be; change (2 ^ (8 * Z.of_nat 0)) with 1; by rewrite Z.div_1_r. Qed.
Lemma ipv4_of_octets a b c d port :
  is_u8 a = true -> is_u8 b = true -> is_u8 c = true -> is_u8 d = true ->
  ipv4_of (to_be 1 a ++ to_be 1 b ++ to_be 1 c ++ to_be 1 d) port = SocketV4 a b c d port.
Proof.
  intros; rewrite !to_be_1; unfold ipv4_of; cbn [app nth]; rewrite !byte_val_of_Z.
  unfold in_range in *; bool_inv; change (2 ^ 8) with 256 in *; by rewrite !Z.mod_small.
Qed.
Lemma octets_of_ipv4 bs port : length bs = 4%nat ->
  exists a b c d, ipv4_of bs port = SocketV4 a b c d port /\ to_be 1 a ++ to_be 1 b ++ to_be 1 c ++ to_be 1 d = bs /\
    is_u8 a = true /\ is_u8 b = true /\ is_u8 c = true /\ is_u8 d = true.
Proof.
  destruct bs as [|a [|b [|c [|d [|]]]]]; try done; intros _; unfold ipv4_of; cbn [nth].
  assert (Hb : forall x, to_be 1 (byte_val x) = [x] /\ is_u8 (byte_val x) = true).
  { intros x; pose proof (byte_val_range x); split; [|unfold in_range; passes].
    by rewrite to_be_1, byte_of_val. }
  eexists _, _, _, _; split; [done|]; rewrite !(fun x => proj1 (Hb x)); split_and!; [done | apply Hb..].
Qed.

(** ** IP addresses *)
Inductive IpAddr : Type := IpV4 (a b c d : Z) | IpV6 (segments : list Z).
#[global] Instance IpAddr_eq_dec : EqDecision IpAddr.
Proof. solve_decision. Defined.
(** [SocketAddr::new], [ip()] and [port()] *)
Definition SocketAddr_new (ip : IpAddr) (port : Z) : SocketAddr :=
  match ip with IpV4 a b c d => SocketV4 a b c d port | IpV6 segments => SocketV6 segments port 0 0 end.
Definition socket_ip (s : SocketAddr) : IpAddr :=
  match s with SocketV4 a b c d _ => IpV4 a b c d | SocketV6 segments _ _ _ => IpV6 segments end.
Definition socket_port (s : SocketAddr) : Z :=
  match s with SocketV4 _ _ _ _ port => port | SocketV6 _ port _ _ => port end.
(** [is_unspecified()], [is_multicast()] and [is_loopback()] *)
Definition ip_is_unspecified (ip : IpAddr) : bool :=
  match ip with IpV4 a b c d => bool_decide ([a; b; c; d] = [0; 0; 0; 0]) | IpV6 segments => forallb (Z.eqb 0) segments end.
Definition ip_is_multicast (ip : IpAddr) : bool :=
  match ip with
  | IpV4 a _ _ _ => (224 <=? a) && (a <=? 239)
  | IpV6 segments => Z.land (nth 0 segments 0) 65280 =? 65280
  end.
(** The order of [IpAddr]: IPv4 before IPv6, each lexicographically. *)
Fixpoint lex_leb (x y : list Z) : bool :=
  match x, y with
  | [], _ => true
  | _ :: _, [] => false
  | a :: x, b :: y => (a <? b) || ((a =? b) && lex_leb x y)
  end.
Definition ip_key (ip : IpAddr) : list Z := match ip with IpV4 a b c d => [4; a; b; c; d] | IpV6 segments => 6 :: segments end.
Definition ip_le (x y : IpAddr) : Prop := lex_leb (ip_key x) (ip_key y) = true.
#[global] Instance ip_le_dec : RelDecision ip_le.
Proof. intros x y; unfold ip_le; apply _. Defined.
Lemma lex_leb_antisym x y : lex_leb x y = true -> lex_leb y x = true -> x = y.
Proof.
  revert y; induction x as [|a x IH]; intros [|b y]; cbn; try done.
  rewrite !orb_true_iff, !andb_true_iff, !Z.ltb_lt, !Z.eqb_eq; intros [?|[-> ?]] [?|[? ?]]; try lia; f_equal; auto.
Qed.
Lemma lex_leb_trans x y z : lex_leb x y = true -> lex_leb y z = true -> lex_leb x z = true.
Proof.
  revert y z; induction x as [|a x IH]; intros [|b y] [|c z]; cbn; try done.
  rewrite !orb_true_iff, !andb_true_iff, !Z.ltb_lt, !Z.eqb_eq; intros [?|[-> ?]] [?|[-> ?]]; eauto; lia.
Qed.
Lemma lex_leb_total x y : lex_leb x y = true \/ lex_leb y x = true.
Proof.
  revert y; induction x as [|a x IH]; intros [|b y]; cbn; auto.
  rewrite !orb_true_iff, !andb_true_iff, !Z.ltb_lt, !Z.eqb_eq.
  destruct (Z.lt_trichotomy a b) as [|[->|]]; auto; destruct (IH y); auto.
Qed.
#[global] Instance ip_le_antisym : AntiSymm (=) ip_le.
Proof. intros [] [] H1 H2; pose proof (lex_leb_antisym _ _ H1 H2) as Hk; cbn in Hk; congruence. Qed.
#[global] Instance ip_le_trans : Transitive ip_le.
Proof. intros x y z; apply lex_leb_trans. Qed.
#[global] Instance ip_le_total : Total ip_le.
Proof. intros x y; apply lex_leb_total. Qed.
