(* ===== verification/Platform.v ===== *)
(** * What the code takes from iroh

    Endpoint keys and ids, relay URLs and transport addresses belong to the iroh
    library.  An [EndpointId] is its 32 bytes, of which not all are valid keys; a
    [RelayUrl] is the text it serialises to; an [EndpointData] is the sequence of
    transport addresses it yields. *)

From S2P Require Import Prelude SocketAddr.

Inductive TransportAddr : Type := TransportIp (address : SocketAddr) | TransportRelay (url : bytes).
#[global] Instance TransportAddr_eq_dec : EqDecision TransportAddr.
Proof. solve_decision. Defined.

Class Platform : Type := {
  (** [SecretKey::from_bytes(secret).public()] *)
  endpoint_public : bytes -> bytes;
  (** [EndpointId::from_bytes(bytes).is_ok()] *)
  endpoint_id_valid : bytes -> bool;
  (** [text.parse::<RelayUrl>().ok()] *)
  relay_url_parse : bytes -> option bytes;
  (** [EndpointData::new(addresses)] *)
  endpoint_data : list TransportAddr -> list TransportAddr;
}.
(** An [EndpointData] holds the addresses it was built from. *)
Class PlatformLaws `{Platform} : Prop :=
  endpoint_data_elements ts t : t ∈ endpoint_data ts <-> t ∈ ts.
Definition relay_url_valid `{Platform} (url : bytes) : bool :=
  match relay_url_parse url with Some _ => true | None => false end.

Record EndpointId : Type := mkEndpointId { EndpointId_as_bytes : bytes }.
#[global] Instance EndpointId_eq_dec : EqDecision EndpointId.
Proof. solve_decision. Defined.
#[global] Instance EndpointId_countable : Countable EndpointId.
Proof. by refine (inj_countable' EndpointId_as_bytes mkEndpointId _); intros []. Defined.

(** [EndpointId::from_bytes(bytes).ok()] *)
Definition EndpointId_from_bytes `{Platform} (bs : bytes) : option EndpointId :=
  if endpoint_id_valid bs then Some (mkEndpointId bs) else None.
Definition EndpointId_wf `{Platform} (e : EndpointId) : Prop :=
  length (EndpointId_as_bytes e) = 32%nat /\ endpoint_id_valid (EndpointId_as_bytes e) = true.
Lemma EndpointId_from_bytes_Some `{Platform} bs e :
  EndpointId_from_bytes bs = Some e <-> bs = EndpointId_as_bytes e /\ endpoint_id_valid bs = true.
Proof.
  unfold EndpointId_from_bytes; destruct e as [b]; cbn; destruct (endpoint_id_valid bs) eqn:Hv; split; intros; naive_solver.
Qed.

(** [EndpointData::ip_addrs] *)
Definition ip_addrs (data : list TransportAddr) : list SocketAddr :=
  omap (fun t => match t with TransportIp a => Some a | TransportRelay _ => None end) data.
