(* ===== verification/Store.v ===== *)
(** * weaver-store: versioned state and secrets

    Models [crates/weaver-store/src/lib.rs]: scopes, keys, atomic batches, the
    in-memory reference store and the in-memory secret store.  The [StateStore]
    and [SecretStore] traits are type classes; [StateStoreLaws] is what a
    client of the trait may rely on, and the file proves that the in-memory
    store keeps it.  The durable store is in [RedbStore]. *)

From S2P Require Import Prelude Core.

(* weaver-store/src/lib.rs:27-27 CURRENT_SCHEMA_VERSION *)
Definition CURRENT_SCHEMA_VERSION : Z := 1.
(* weaver-store/src/lib.rs:28-28 MAX_KEY_LEN *)
Definition MAX_KEY_LEN : Z := 1024.
(* weaver-store/src/lib.rs:29-29 MAX_VALUE_LEN *)
Definition MAX_VALUE_LEN : Z := 16 * 1024 * 1024.

(* weaver-store/src/lib.rs:52-55 ScopeKind *)
Inductive ScopeKind : Type := Member | Authority.
(* weaver-store/src/lib.rs:46-49 StoreScope *)
Record StoreScope : Type := mkStoreScope { scope_kind : ScopeKind; scope_network : NetworkId }.
(* weaver-store/src/lib.rs:58-63 StoreScope::member *)
Definition StoreScope_member (n : NetworkId) : StoreScope := mkStoreScope Member n.
(* weaver-store/src/lib.rs:65-70 StoreScope::authority *)
Definition StoreScope_authority (n : NetworkId) : StoreScope := mkStoreScope Authority n.

(* weaver-store/src/lib.rs:78-78 StoreKey *)
Record StoreKey : Type := mkStoreKey { StoreKey_as_bytes : bytes }.
(* weaver-store/src/lib.rs:103-106 VersionedBytes *)
Record VersionedBytes : Type := mkVersionedBytes { vb_version : Z; vb_bytes : bytes }.
(* weaver-store/src/lib.rs:109-112 StoredEntry *)
Record StoredEntry : Type := mkStoredEntry { se_key : StoreKey; se_value : VersionedBytes }.
(* weaver-store/src/lib.rs:115-119 ExpectedVersion *)
Inductive ExpectedVersion : Type := Any | Missing | Exact (version : Z).
(* weaver-store/src/lib.rs:122-132 BatchOperation *)
Inductive BatchOperation : Type :=
| Put (key : StoreKey) (value : bytes) (expected : ExpectedVersion)
| Delete (key : StoreKey) (expected : ExpectedVersion).

(* weaver-store/src/lib.rs:196-213 StoreError *)
Inductive StoreError : Type :=
| InvalidKeyLength (actual : Z)
| ValueTooLarge (actual : Z)
| DuplicateBatchKey (key : StoreKey)
| VersionConflict (key : StoreKey) (expected : ExpectedVersion) (actual : option Z)
| SchemaTooNew (found supported : Z)
| Backend (message : bytes).

#[global] Instance ScopeKind_eq_dec : EqDecision ScopeKind.
Proof. solve_decision. Defined.
#[global] Instance StoreScope_eq_dec : EqDecision StoreScope.
Proof. solve_decision. Defined.
#[global] Instance StoreKey_eq_dec : EqDecision StoreKey.
Proof. solve_decision. Defined.
#[global] Instance VersionedBytes_eq_dec : EqDecision VersionedBytes.
Proof. solve_decision. Defined.
#[global] Instance StoreKey_countable : Countable StoreKey.
Proof. by refine (inj_countable' StoreKey_as_bytes mkStoreKey _); intros []. Defined.
#[global] Instance StoreScope_countable : Countable StoreScope.
Proof.
  refine (inj_countable'
    (fun s => match scope_kind s with Member => inl (scope_network s) | Authority => inr (scope_network s) end)
    (fun s => match s with inl n => mkStoreScope Member n | inr n => mkStoreScope Authority n end) _).
  by intros [[] ?].
Defined.

(** [records: BTreeMap<(StoreScope, StoreKey), VersionedBytes>]. *)
Abbreviation records := (gmap (StoreScope * StoreKey) VersionedBytes).

(* weaver-store/src/lib.rs:81-87 StoreKey::new *)
Definition StoreKey_new (bs : bytes) : result StoreError StoreKey :=
  fail_if (bool_decide (bs = []) || (MAX_KEY_LEN <? len bs)) (InvalidKeyLength (len bs));;
  Ok (mkStoreKey bs).

(** ** Atomic batches *)
(* weaver-store/src/lib.rs:135-139 AtomicBatch *)
Record AtomicBatch : Type := mkAtomicBatch {
  batch_scope : StoreScope;
  batch_operations : list BatchOperation;
  batch_keys : gset StoreKey;
}.
(* weaver-store/src/lib.rs:142-148 AtomicBatch::new *)
Definition AtomicBatch_new (scope : StoreScope) : AtomicBatch := mkAtomicBatch scope [] ∅.
(* weaver-store/src/lib.rs:184-189 AtomicBatch::insert_unique *)
Definition insert_unique (b : AtomicBatch) (key : StoreKey) : result StoreError AtomicBatch :=
  fail_if (bool_decide (key ∈ batch_keys b)) (DuplicateBatchKey key);;
  Ok (mkAtomicBatch (batch_scope b) (batch_operations b) ({[ key ]} ∪ batch_keys b)).
Definition push_operation (b : AtomicBatch) (op : BatchOperation) : AtomicBatch :=
  mkAtomicBatch (batch_scope b) (batch_operations b ++ [op]) (batch_keys b).
(* weaver-store/src/lib.rs:150-167 AtomicBatch::put *)
Definition AtomicBatch_put (b : AtomicBatch) (key : StoreKey) (value : bytes)
    (expected : ExpectedVersion) : result StoreError AtomicBatch :=
  fail_if (MAX_VALUE_LEN <? len value) (ValueTooLarge (len value));;
  b ← insert_unique b key;
  Ok (push_operation b (Put key value expected)).
(* weaver-store/src/lib.rs:169-178 AtomicBatch::delete *)
Definition AtomicBatch_delete (b : AtomicBatch) (key : StoreKey) (expected : ExpectedVersion)
    : result StoreError AtomicBatch :=
  b ← insert_unique b key;
  Ok (push_operation b (Delete key expected)).

(* weaver-store/src/lib.rs:357-360 commit *)
Definition op_key (op : BatchOperation) : StoreKey :=
  match op with Put key _ _ | Delete key _ => key end.
Definition op_expected (op : BatchOperation) : ExpectedVersion :=
  match op with Put _ _ expected | Delete _ expected => expected end.
Definition op_value (op : BatchOperation) : option bytes :=
  match op with Put _ value _ => Some value | Delete _ _ => None end.
(* weaver-store/src/lib.rs:365-369 commit *)
Definition version_valid (expected : ExpectedVersion) (actual : option Z) : bool :=
  match expected with
  | Any => true
  | Missing => bool_decide (actual = None)
  | Exact version => bool_decide (actual = Some version)
  end.

(** ** The traits *)
(* weaver-store/src/lib.rs:216-234 StateStore *)
Class StateStore (S : Type) := {
  schema_version : S -> result StoreError Z;
  read : S -> StoreScope -> StoreKey -> result StoreError (option VersionedBytes);
  scan_prefix : S -> StoreScope -> bytes -> result StoreError (list StoredEntry);
  commit : S -> AtomicBatch -> S * result StoreError Z;
}.
(* weaver-store/src/lib.rs:529-538 ensure_supported_schema *)
Definition ensure_supported_schema {S : Type} `{StateStore S} (store : S) : result StoreError unit :=
  found ← schema_version store;
  fail_if (CURRENT_SCHEMA_VERSION <? found) (SchemaTooNew found CURRENT_SCHEMA_VERSION).

(** What a scan returns: the entries of the scope whose key has the prefix, in key order. *)
Definition entry_le (x y : StoredEntry) : Prop :=
  bytes_le (StoreKey_as_bytes (se_key x)) (StoreKey_as_bytes (se_key y)).
#[global] Instance entry_le_dec : RelDecision entry_le.
Proof. intros x y; unfold entry_le; apply _. Defined.
Definition scan_entry (scope : StoreScope) (prefix : bytes)
    (entry : (StoreScope * StoreKey) * VersionedBytes) : option StoredEntry :=
  if bool_decide (entry.1.1 = scope) && bool_decide (prefix `prefix_of` StoreKey_as_bytes entry.1.2)
  then Some (mkStoredEntry entry.1.2 entry.2) else None.
Definition scan_records (m : records) (scope : StoreScope) (prefix : bytes) : list StoredEntry :=
  merge_sort entry_le (omap (scan_entry scope prefix) (map_to_list m)).

(** ** The in-memory store *)
(* weaver-store/src/lib.rs:268-273 MemoryState *)
Record MemoryState : Type := mkMemoryState {
  ms_schema_version : Z;
  ms_next_record_version : Z;
  ms_next_commit_version : Z;
  ms_records : records;
}.
(* weaver-store/src/lib.rs:291-300 MemoryStateStore::with_schema_version *)
Definition MemoryStateStore_with_schema_version (v : Z) : MemoryState := mkMemoryState v 1 1 ∅.
(* weaver-store/src/lib.rs:287-289 MemoryStateStore::new *)
Definition MemoryStateStore_new : MemoryState :=
  MemoryStateStore_with_schema_version CURRENT_SCHEMA_VERSION.

(** [x += 1] on a [u64] outside of a debug build. *)
Definition wrapping_incr (x : Z) : Z := (x + 1) mod 2 ^ 64.

Definition actual_version (m : records) (scope : StoreScope) (key : StoreKey) : option Z :=
  vb_version <$> m !! (scope, key).
(* weaver-store/src/lib.rs:356-377 commit *)
Definition check_preconditions (m : records) (b : AtomicBatch) : result StoreError unit :=
  for_each (fun op =>
    let actual := actual_version m (batch_scope b) (op_key op) in
    fail_if (negb (version_valid (op_expected op) actual))
      (VersionConflict (op_key op) (op_expected op) actual)) (batch_operations b).
(* weaver-store/src/lib.rs:379-396 commit *)
Definition apply_operation (scope : StoreScope) (st : Z * records) (op : BatchOperation) : Z * records :=
  match op with
  | Put key value _ =>
      (wrapping_incr st.1, <[(scope, key) := mkVersionedBytes st.1 value]> st.2)
  | Delete key _ => (st.1, delete (scope, key) st.2)
  end.
Definition apply_operations (scope : StoreScope) (ops : list BatchOperation) (st : Z * records)
    : Z * records := fold_left (apply_operation scope) ops st.
(* weaver-store/src/lib.rs:354-400 MemoryStateStore::commit *)
Definition Memory_commit (st : MemoryState) (b : AtomicBatch) : MemoryState * result StoreError Z :=
  match check_preconditions (ms_records st) b with
  | Err e => (st, Err e)
  | Ok _ =>
      let '(next, m) := apply_operations (batch_scope b) (batch_operations b)
                          (ms_next_record_version st, ms_records st) in
      (mkMemoryState (ms_schema_version st) next (wrapping_incr (ms_next_commit_version st)) m,
       Ok (ms_next_commit_version st))
  end.
(* weaver-store/src/lib.rs:316-328 MemoryStateStore::read *)
Definition Memory_read (st : MemoryState) (scope : StoreScope) (key : StoreKey)
    : result StoreError (option VersionedBytes) := Ok (ms_records st !! (scope, key)).
(* weaver-store/src/lib.rs:330-352 MemoryStateStore::scan_prefix *)
Definition Memory_scan_prefix (st : MemoryState) (scope : StoreScope) (prefix : bytes)
    : result StoreError (list StoredEntry) := Ok (scan_records (ms_records st) scope prefix).

(* weaver-store/src/lib.rs:304-314 MemoryStateStore *)
#[global] Instance Memory_StateStore : StateStore MemoryState := {|
  schema_version st := Ok (ms_schema_version st);
  read := Memory_read;
  scan_prefix := Memory_scan_prefix;
  commit := Memory_commit;
|}.

(** ** What a client of the trait relies on *)
Definition scope_wf (scope : StoreScope) : Prop := NetworkId_wf (scope_network scope).
Definition StoreKey_wf (key : StoreKey) : Prop := 1 <= len (StoreKey_as_bytes key) <= MAX_KEY_LEN.
Definition batch_wf (b : AtomicBatch) : Prop :=
  scope_wf (batch_scope b) /\ Forall (fun op => StoreKey_wf (op_key op)) (batch_operations b) /\
  NoDup (op_key <$> batch_operations b) /\
  batch_keys b = list_to_set (op_key <$> batch_operations b) /\
  Forall (fun op => forall v, op_value op = Some v -> len v <= MAX_VALUE_LEN) (batch_operations b).

Definition preconditions (m : records) (b : AtomicBatch) : Prop :=
  Forall (fun op => version_valid (op_expected op) (actual_version m (batch_scope b) (op_key op)) = true)
    (batch_operations b).

(** All of the batch and nothing else is visible after it. *)
Record batch_effect (m : records) (b : AtomicBatch) (m' : records) : Prop := {
  effect_inside : forall op, op ∈ batch_operations b ->
    vb_bytes <$> m' !! (batch_scope b, op_key op) = op_value op;
  effect_outside : forall scope key, scope <> batch_scope b \/ key ∉ op_key <$> batch_operations b ->
    m' !! (scope, key) = m !! (scope, key);
}.

Class StateStoreLaws (S : Type) `{StateStore S} := {
  (** [store_rep s m]: the store [s] holds the records [m]. *)
  store_rep : S -> records -> Prop;
  read_rep s m scope key o :
    store_rep s m -> scope_wf scope -> read s scope key = Ok o -> o = m !! (scope, key);
  scan_rep s m scope prefix es :
    store_rep s m -> scope_wf scope -> scan_prefix s scope prefix = Ok es ->
    es = scan_records m scope prefix;
  commit_success s m b s' v :
    store_rep s m -> batch_wf b -> commit s b = (s', Ok v) ->
    preconditions m b /\ exists m', store_rep s' m' /\ batch_effect m b m';
  (** A refused commit changes nothing; a failing backend may have committed or not. *)
  commit_failure s m b s' e :
    store_rep s m -> batch_wf b -> commit s b = (s', Err e) ->
    store_rep s' m \/
    (exists msg, e = Backend msg) /\ preconditions m b /\
      exists m', store_rep s' m' /\ batch_effect m b m';
}.

Section batches.
Implicit Types b : AtomicBatch.

Lemma StoreKey_new_wf bs key : StoreKey_new bs = Ok key <-> key = mkStoreKey bs /\ StoreKey_wf key.
Proof.
  unfold StoreKey_new, StoreKey_wf, len; rewrite bind_Ok; split.
  - intros (u & H & [= <-]); apply fail_if_Ok in H; bool_inv; destruct bs; cbn in *; [done|].
    unfold len in *; split; [done | lia].
  - intros [-> H]; cbn in H; exists tt; split; [|done].
    apply fail_if_Ok, orb_false_iff; rewrite bool_decide_eq_false, Z.ltb_ge; destruct bs; cbn in *.
    all: split; [congruence || lia | lia].
Qed.

Lemma AtomicBatch_new_wf scope : scope_wf scope -> batch_wf (AtomicBatch_new scope).
Proof. intros; split_and!; cbn; [done | constructor | constructor | done | constructor]. Qed.

Lemma push_operation_wf b op b' :
  batch_wf b -> insert_unique b (op_key op) = Ok b' -> StoreKey_wf (op_key op) ->
  (forall v, op_value op = Some v -> len v <= MAX_VALUE_LEN) ->
  batch_wf (push_operation b' op).
Proof.
  intros (Hs & Hkey & Hnd & Hk & Hl) H Hkw Hv; unfold insert_unique in H; res_inv; bool_inv.
  rewrite Hk in *; unfold batch_wf; cbn; rewrite fmap_app; cbn; split_and!.
  - done.
  - apply Forall_app; auto.
  - apply NoDup_app; split_and!; [done | set_solver | apply NoDup_singleton].
  - rewrite list_to_set_app_L; set_solver.
  - apply Forall_app; auto.
Qed.

Lemma AtomicBatch_put_wf b key value expected b' :
  batch_wf b -> StoreKey_wf key -> AtomicBatch_put b key value expected = Ok b' ->
  batch_wf b' /\ batch_scope b' = batch_scope b /\
  batch_operations b' = batch_operations b ++ [Put key value expected].
Proof.
  intros Hb Hk H; unfold AtomicBatch_put in H; res_inv; bool_inv.
  split; [eapply push_operation_wf; [done..|]; cbn; intros v [= <-]; lia|].
  match goal with Hi : insert_unique _ _ = _ |- _ => unfold insert_unique in Hi; res_inv end; done.
Qed.

Lemma AtomicBatch_put_value b key value expected b' :
  AtomicBatch_put b key value expected = Ok b' -> len value <= MAX_VALUE_LEN.
Proof. intros H; unfold AtomicBatch_put in H; res_inv; bool_inv; lia. Qed.

Lemma AtomicBatch_delete_wf b key expected b' :
  batch_wf b -> StoreKey_wf key -> AtomicBatch_delete b key expected = Ok b' ->
  batch_wf b' /\ batch_scope b' = batch_scope b /\
  batch_operations b' = batch_operations b ++ [Delete key expected].
Proof.
  intros Hb Hk H; unfold AtomicBatch_delete in H; res_inv.
  split; [eapply push_operation_wf; [done..|]; cbn; done|].
  match goal with Hi : insert_unique _ _ = _ |- _ => unfold insert_unique in Hi; res_inv end; done.
Qed.
End batches.

Section memory.
Implicit Types (scope : StoreScope) (m : records).

Lemma check_preconditions_Ok m b u : check_preconditions m b = Ok u <-> preconditions m b.
Proof.
  unfold check_preconditions, preconditions; rewrite for_each_Ok.
  apply Forall_proper; [|done]; intros op; rewrite fail_if_Ok, negb_false_iff; done.
Qed.

Lemma check_preconditions_Err m b e :
  check_preconditions m b = Err e ->
  exists op, op ∈ batch_operations b /\
    let actual := actual_version m (batch_scope b) (op_key op) in
    version_valid (op_expected op) actual = false /\
    e = VersionConflict (op_key op) (op_expected op) actual.
Proof.
  unfold check_preconditions; induction (batch_operations b) as [|op ops IH]; cbn; [done|].
  intros [H|(_ & _ & H)]%bind_Err.
  - apply fail_if_Err in H as [H ->]; bool_inv; exists op; split; [left | done].
  - destruct (IH H) as (op' & Hin & He); exists op'; split; [by right | done].
Qed.

Lemma apply_operations_cons scope op ops st :
  apply_operations scope (op :: ops) st = apply_operations scope ops (apply_operation scope st op).
Proof. done. Qed.

Lemma apply_operations_lookup scope ops st key :
  key ∉ op_key <$> ops -> (apply_operations scope ops st).2 !! (scope, key) = st.2 !! (scope, key).
Proof.
  revert st; induction ops as [|op ops IH]; intros st Hk; [done|].
  cbn in Hk; rewrite not_elem_of_cons in Hk; destruct Hk as [Hne Hk].
  rewrite apply_operations_cons, IH by done.
  destruct op; cbn in *; [apply lookup_insert_ne | apply lookup_delete_ne]; congruence.
Qed.

Lemma apply_operations_scope scope ops st scope' key :
  scope' <> scope -> (apply_operations scope ops st).2 !! (scope', key) = st.2 !! (scope', key).
Proof.
  intros Hne; revert st; induction ops as [|op ops IH]; intros st; [done|].
  rewrite apply_operations_cons, IH.
  destruct op; cbn in *; [apply lookup_insert_ne | apply lookup_delete_ne]; congruence.
Qed.

Lemma apply_operations_inside scope ops st op :
  NoDup (op_key <$> ops) -> op ∈ ops ->
  vb_bytes <$> (apply_operations scope ops st).2 !! (scope, op_key op) = op_value op.
Proof.
  revert st; induction ops as [|op' ops IH]; intros st Hnd Hin; [set_solver|].
  cbn in Hnd; apply NoDup_cons in Hnd as [Hni Hnd]; rewrite apply_operations_cons.
  apply elem_of_cons in Hin as [<-|Hin]; [|by apply IH].
  rewrite apply_operations_lookup by done.
  destruct op; cbn; [by rewrite lookup_insert_eq | by rewrite lookup_delete_eq].
Qed.

Lemma apply_operations_effect m b next :
  batch_wf b ->
  batch_effect m b (apply_operations (batch_scope b) (batch_operations b) (next, m)).2.
Proof.
  intros (_ & _ & Hnd & _); constructor; [intros op Hop; by apply apply_operations_inside|].
  intros scope key H; destruct (decide (scope = batch_scope b)) as [->|Hne].
  - rewrite apply_operations_lookup; [done | naive_solver].
  - by rewrite apply_operations_scope.
Qed.

Lemma Memory_commit_Ok st b st' v :
  Memory_commit st b = (st', Ok v) ->
  preconditions (ms_records st) b /\ v = ms_next_commit_version st /\
  (ms_next_record_version st', ms_records st') =
    apply_operations (batch_scope b) (batch_operations b) (ms_next_record_version st, ms_records st).
Proof.
  unfold Memory_commit; destruct (check_preconditions _ _) eqn:Hc; [|done].
  destruct (apply_operations _ _ _) as [next m] eqn:Ha; intros [= <- <-].
  apply check_preconditions_Ok in Hc; done.
Qed.

Lemma Memory_commit_Err st b st' e : Memory_commit st b = (st', Err e) -> st' = st.
Proof.
  unfold Memory_commit; destruct (check_preconditions _ _) eqn:Hc; [|by intros [= <-]].
  by destruct (apply_operations _ _ _).
Qed.

Lemma Memory_commit_effect st b st' v :
  batch_wf b -> Memory_commit st b = (st', Ok v) ->
  preconditions (ms_records st) b /\ batch_effect (ms_records st) b (ms_records st').
Proof.
  intros Hb (Hp & _ & Ha)%Memory_commit_Ok; split; [done|].
  rewrite (f_equal snd Ha : ms_records st' = _); by apply apply_operations_effect.
Qed.

#[global] Program Instance Memory_StateStoreLaws : StateStoreLaws MemoryState := {|
  store_rep st m := ms_records st = m;
|}.
Next Obligation. by intros s m scope key o <- _ [= <-]. Qed.
Next Obligation. by intros s m scope prefix es <- _ [= <-]. Qed.
Next Obligation.
  intros s m b s' v <- Hb Hc; apply Memory_commit_effect in Hc as [? ?]; eauto.
Qed.
Next Obligation. intros s m b s' e <- _ ->%Memory_commit_Err; by left. Qed.
End memory.

(** ** Record versions are never reused *)
Section versions.
Implicit Types (scope : StoreScope) (m : records).

Definition versions_below (next : Z) (m : records) : Prop :=
  forall sk v, m !! sk = Some v -> 1 <= vb_version v < next.
Definition puts (ops : list BatchOperation) : Z :=
  foldr (fun op n => (match op with Put _ _ _ => 1 | Delete _ _ => 0 end) + n) 0 ops.

(** [commits st bs]: the store after the commits [bs], accepted or refused. *)
Definition commits (st : MemoryState) (bs : list AtomicBatch) : MemoryState :=
  fold_left (fun st b => (Memory_commit st b).1) bs st.
Definition total_puts (bs : list AtomicBatch) : Z :=
  foldr (fun b n => puts (batch_operations b) + n) 0 bs.

Lemma puts_cons op ops :
  puts (op :: ops) = (match op with Put _ _ _ => 1 | Delete _ _ => 0 end) + puts ops.
Proof. done. Qed.

Lemma puts_nonneg ops : 0 <= puts ops.
Proof. induction ops as [|[] ops IH]; [done|..]; rewrite puts_cons; lia. Qed.

Lemma total_puts_cons b bs : total_puts (b :: bs) = puts (batch_operations b) + total_puts bs.
Proof. done. Qed.

Lemma total_puts_nonneg bs : 0 <= total_puts bs.
Proof.
  induction bs as [|b bs IH]; [done|]; rewrite total_puts_cons.
  pose proof (puts_nonneg (batch_operations b)); lia.
Qed.

Lemma wrapping_incr_small x : 0 <= x -> x + 1 < 2 ^ 64 -> wrapping_incr x = x + 1.
Proof. intros; unfold wrapping_incr; rewrite Z.mod_small; lia. Qed.

(** Each record after a batch is an old one or carries a version of this batch. *)
Lemma apply_operations_versions scope ops next m :
  1 <= next -> next + puts ops < 2 ^ 64 -> versions_below next m ->
  let '(next', m') := apply_operations scope ops (next, m) in
  next' = next + puts ops /\ versions_below next' m' /\
  forall sk v, m' !! sk = Some v -> m !! sk = Some v \/ next <= vb_version v.
Proof.
  revert next m; induction ops as [|op ops IH]; intros next m Hn Hb Hm.
  { cbn; split_and!; [unfold puts; cbn; lia | done | auto]. }
  rewrite apply_operations_cons; rewrite puts_cons in *; pose proof (puts_nonneg ops).
  assert (Hstep : forall next1 m1,
    next <= next1 -> next1 + puts ops = next + ((match op with Put _ _ _ => 1 | Delete _ _ => 0 end) + puts ops) ->
    versions_below next1 m1 ->
    (forall sk v, m1 !! sk = Some v -> m !! sk = Some v \/ next <= vb_version v) ->
    let '(next', m') := apply_operations scope ops (next1, m1) in
    next' = next + ((match op with Put _ _ _ => 1 | Delete _ _ => 0 end) + puts ops) /\
    versions_below next' m' /\
    forall sk v, m' !! sk = Some v -> m !! sk = Some v \/ next <= vb_version v).
  { intros next1 m1 H1 H2 H3 H4; specialize (IH next1 m1 ltac:(lia) ltac:(lia) H3).
    destruct (apply_operations scope ops (next1, m1)) as [next' m']; destruct IH as (-> & ? & Hold).
    split_and!; [lia | done|]; intros sk v Hv; destruct (Hold sk v Hv); [eauto | lia]. }
  destruct op as [key value ?|key ?]; cbn [apply_operation fst snd]; apply Hstep; clear Hstep IH.
  - rewrite wrapping_incr_small; lia.
  - rewrite wrapping_incr_small; lia.
  - rewrite wrapping_incr_small by lia; intros sk v; rewrite lookup_insert_Some.
    intros [[_ <-]|[_ Hv]]; cbn; [lia | specialize (Hm _ _ Hv); lia].
  - intros sk v; rewrite lookup_insert_Some; intros [[_ <-]|[_ Hv]]; cbn; [right; lia | auto].
  - lia.
  - lia.
  - intros sk v [_ Hv]%lookup_delete_Some; specialize (Hm _ _ Hv); lia.
  - intros sk v [_ Hv]%lookup_delete_Some; auto.
Qed.

Lemma Memory_commit_versions st b :
  1 <= ms_next_record_version st -> ms_next_record_version st + puts (batch_operations b) < 2 ^ 64 ->
  versions_below (ms_next_record_version st) (ms_records st) ->
  let st' := (Memory_commit st b).1 in
  ms_next_record_version st <= ms_next_record_version st' <= ms_next_record_version st + puts (batch_operations b) /\
  versions_below (ms_next_record_version st') (ms_records st') /\
  forall sk v, ms_records st' !! sk = Some v ->
    ms_records st !! sk = Some v \/ ms_next_record_version st <= vb_version v.
Proof.
  intros H1 H2 H3; pose proof (puts_nonneg (batch_operations b)).
  unfold Memory_commit; destruct (check_preconditions _ _); [|cbn; split_and!; eauto; lia].
  pose proof (apply_operations_versions (batch_scope b) _ _ _ H1 H2 H3) as Hv.
  destruct (apply_operations _ _ _) as [next m]; cbn; destruct Hv as (-> & ? & ?).
  split_and!; eauto; lia.
Qed.

Lemma commits_cons st b bs : commits st (b :: bs) = commits (Memory_commit st b).1 bs.
Proof. done. Qed.

Lemma version_gone_stays_gone st bs scope key version :
  1 <= ms_next_record_version st -> ms_next_record_version st + total_puts bs < 2 ^ 64 ->
  versions_below (ms_next_record_version st) (ms_records st) ->
  version < ms_next_record_version st ->
  actual_version (ms_records st) scope key <> Some version ->
  actual_version (ms_records (commits st bs)) scope key <> Some version.
Proof.
  revert st; induction bs as [|b bs IH]; intros st H1 H2 H3 Hv Ha; [done|].
  rewrite total_puts_cons in H2; pose proof (total_puts_nonneg bs).
  destruct (Memory_commit_versions st b) as (Hn & Hb & Hold); [done | lia | done|].
  rewrite commits_cons; apply IH; [lia | lia | done | lia|]; unfold actual_version in *.
  destruct (ms_records (Memory_commit st b).1 !! (scope, key)) as [r|] eqn:Hr; [|done].
  destruct (Hold _ _ Hr) as [Hm|Hm]; cbn; [by rewrite Hm in Ha | intros [= <-]; lia].
Qed.
End versions.

(** ** Secret storage *)
(* weaver-store/src/lib.rs:404-414 SecretId *)
Record SecretId : Type := SecretId_from_bytes { SecretId_as_bytes : bytes }.
#[global] Instance SecretId_eq_dec : EqDecision SecretId.
Proof. solve_decision. Defined.
#[global] Instance SecretId_countable : Countable SecretId.
Proof. by refine (inj_countable' SecretId_as_bytes SecretId_from_bytes _); intros []. Defined.

(* weaver-store/src/lib.rs:441-450 SecretStoreError *)
Inductive SecretStoreError : Type :=
| SecretNotFound
| AlreadyExistsDifferent
| AuthenticationFailed
| SecretBackend (message : bytes).

(* weaver-store/src/lib.rs:453-461 SecretStore *)
Class SecretStore (K : Type) := {
  seal : K -> SecretId -> bytes -> K * result SecretStoreError unit;
  open_secret : K -> SecretId -> result SecretStoreError bytes;
  delete_secret : K -> SecretId -> K * result SecretStoreError unit;
}.

(** The contract of the trait: a sealed secret can be opened, sealing never
    replaces other bytes, and no operation touches another secret. *)
Class SecretStoreLaws (K : Type) `{SecretStore K} := {
  secret_view : K -> gmap SecretId bytes;
  open_view k id v : open_secret k id = Ok v -> secret_view k !! id = Some v;
  open_missing k id : open_secret k id = Err SecretNotFound -> secret_view k !! id = None;
  seal_success k id v k' :
    seal k id v = (k', Ok tt) ->
    secret_view k' = <[id := v]> (secret_view k) /\
    (secret_view k !! id = None \/ secret_view k !! id = Some v);
  seal_failure k id v k' e :
    seal k id v = (k', Err e) ->
    secret_view k' = secret_view k \/
    e <> AlreadyExistsDifferent /\ secret_view k !! id = None /\ secret_view k' = <[id := v]> (secret_view k);
  delete_success k id k' :
    delete_secret k id = (k', Ok tt) -> secret_view k' = delete id (secret_view k);
  delete_failure k id k' e :
    delete_secret k id = (k', Err e) ->
    secret_view k' = secret_view k \/ secret_view k' = delete id (secret_view k);
  delete_missing k id k' :
    delete_secret k id = (k', Err SecretNotFound) -> secret_view k' !! id = None;
}.

(* weaver-store/src/lib.rs:501-512 MemorySecretStore::seal *)
Definition MemorySecret_seal (secrets : gmap SecretId bytes) (id : SecretId) (plaintext : bytes)
    : gmap SecretId bytes * result SecretStoreError unit :=
  match secrets !! id with
  | Some existing =>
      (secrets, if decide (existing = plaintext) then Ok tt else Err AlreadyExistsDifferent)
  | None => (<[id := plaintext]> secrets, Ok tt)
  end.
(* weaver-store/src/lib.rs:514-521 MemorySecretStore::open *)
Definition MemorySecret_open (secrets : gmap SecretId bytes) (id : SecretId)
    : result SecretStoreError bytes := secrets !! id ?? SecretNotFound.
(* weaver-store/src/lib.rs:523-526 MemorySecretStore::delete *)
Definition MemorySecret_delete (secrets : gmap SecretId bytes) (id : SecretId)
    : gmap SecretId bytes * result SecretStoreError unit := (delete id secrets, Ok tt).

#[global] Instance MemorySecretStore : SecretStore (gmap SecretId bytes) := {|
  seal := MemorySecret_seal;
  open_secret := MemorySecret_open;
  delete_secret := MemorySecret_delete;
|}.

#[global] Program Instance MemorySecretStoreLaws : SecretStoreLaws (gmap SecretId bytes) := {|
  secret_view k := k;
|}.
Next Obligation. intros k id v H; by apply ok_or_Ok in H. Qed.
Next Obligation. intros k id H; by apply ok_or_Err in H as [? _]. Qed.
Next Obligation.
  intros k id v k'; cbn; unfold MemorySecret_seal.
  destruct (k !! id) as [old|] eqn:Hk; [|intros [= <-]; auto].
  case_decide; intros [= <-]; subst; split; [by rewrite insert_id | auto].
Qed.
Next Obligation.
  intros k id v k' e; cbn; unfold MemorySecret_seal.
  destruct (k !! id) as [old|]; [|done]; case_decide; intros [= <-]; auto.
Qed.
Next Obligation. by intros k id k' [= <-]. Qed.
Next Obligation. by intros k id k' e [=]. Qed.
Next Obligation. by intros k id k' [=]. Qed.

(** ** What a backend claims for itself *)
(* weaver-store/src/lib.rs:31-35 StateStoreCapabilities *)
Record StateStoreCapabilities : Type := mkCapabilities { atomic_batches : bool; durable_commits : bool }.
(* weaver-store/src/lib.rs:37-42 SecretProtection *)
Inductive SecretProtection : Type := InMemoryTestOnly | ExternalKeyEncrypted | SystemProtected.
#[global] Instance SecretProtection_eq_dec : EqDecision SecretProtection.
Proof. solve_decision. Defined.
Class Capable (S : Type) : Type := capabilities : S -> StateStoreCapabilities.
Class Protected (K : Type) : Type := protection : K -> SecretProtection.
(* weaver-store/src/lib.rs:305-310 MemoryStateStore::capabilities *)
#[global] Instance Memory_capabilities : Capable MemoryState := fun _ => mkCapabilities true false.
(* weaver-store/src/lib.rs:497-499 MemorySecretStore::protection *)
#[global] Instance MemorySecret_protection : Protected (gmap SecretId bytes) := fun _ => InMemoryTestOnly.

(** ** Properties *)

(** Committing a batch to the in-memory store is all or nothing. It succeeds
    exactly when every precondition holds, and then every operation of the batch
    and nothing else has taken effect; otherwise it reports a conflict of one of
    its operations with the version found, and the store is unchanged. *)
Theorem Memory_commit_atomic (st : MemoryState) (b : AtomicBatch) :
  batch_wf b ->
  match Memory_commit st b with
  | (st', Ok v) =>
      preconditions (ms_records st) b /\ v = ms_next_commit_version st /\
      batch_effect (ms_records st) b (ms_records st')
  | (st', Err e) =>
      ~ preconditions (ms_records st) b /\ st' = st /\
      exists op, op ∈ batch_operations b /\
        e = VersionConflict (op_key op) (op_expected op)
              (actual_version (ms_records st) (batch_scope b) (op_key op))
  end.
Proof.
  intros Hb; destruct (Memory_commit st b) as [st' [v|e]] eqn:Hc.
  - destruct (Memory_commit_effect _ _ _ _ Hb Hc); apply Memory_commit_Ok in Hc as (_ & -> & _); done.
  - apply Memory_commit_Err in Hc as Hs; subst st'; unfold Memory_commit in Hc.
    destruct (check_preconditions _ _) eqn:Hp; [by destruct (apply_operations _ _ _)|]; simplify_eq.
    split_and!; [|done|].
    + intros Hpre; apply (check_preconditions_Ok _ _ tt) in Hpre; congruence.
    + apply check_preconditions_Err in Hp as (op & Hop & _ & ->); eauto.
Qed.

(** Record versions are never reused, so compare-and-swap is exclusive. Once
    a record that carried a version has been overwritten or deleted, a batch
    that expects that version of it is refused with a conflict and without
    effect, whatever was committed in between. *)
Theorem stale_version_refused (st : MemoryState) (b0 : AtomicBatch) (bs : list AtomicBatch)
    (b : AtomicBatch) (op : BatchOperation) (version : Z) :
  1 <= ms_next_record_version st ->
  ms_next_record_version st + total_puts (b0 :: bs) < 2 ^ 64 ->
  versions_below (ms_next_record_version st) (ms_records st) ->
  op ∈ batch_operations b -> op_expected op = Exact version ->
  actual_version (ms_records st) (batch_scope b) (op_key op) = Some version ->
  actual_version (ms_records (Memory_commit st b0).1) (batch_scope b) (op_key op) <> Some version ->
  exists key expected actual,
    Memory_commit (commits st (b0 :: bs)) b =
    (commits st (b0 :: bs), Err (VersionConflict key expected actual)).
Proof.
  intros H1 H2 H3 Hop Hex Hv Hgone; rewrite total_puts_cons in H2; pose proof (total_puts_nonneg bs).
  destruct (Memory_commit_versions st b0) as (Hn & Hb & _); [done | lia | done|].
  assert (version < ms_next_record_version st) as Hlt.
  { unfold actual_version in Hv; destruct (_ !! _) as [r|] eqn:Hr; [|done].
    injection Hv as <-; apply H3 in Hr; lia. }
  rewrite commits_cons; set (st' := commits _ bs).
  assert (Hne : actual_version (ms_records st') (batch_scope b) (op_key op) <> Some version).
  { apply version_gone_stays_gone; [lia | lia | done | lia | done]. }
  unfold Memory_commit; destruct (check_preconditions (ms_records st') b) as [u|e] eqn:Hc.
  - apply check_preconditions_Ok in Hc; unfold preconditions in Hc; rewrite Forall_forall in Hc.
    apply Hc in Hop; rewrite Hex in Hop; cbn in Hop; bool_inv; done.
  - apply check_preconditions_Err in Hc as (op' & _ & _ & ->); eauto.
Qed.

Module Witness.
Definition net : NetworkId := NetworkId_from_bytes (repeat Byte.x07 32).
Definition key : StoreKey := mkStoreKey (bstr "config/head").
Definition write (value : bytes) (expected : ExpectedVersion) : AtomicBatch :=
  mkAtomicBatch (StoreScope_member net) [Put key value expected] {[ key ]}.
Definition st1 : MemoryState := (Memory_commit MemoryStateStore_new (write (bstr "v1") Missing)).1.

Lemma write_wf : batch_wf (write (bstr "v1") Missing).
Proof.
  refine (conj _ (conj _ (conj _ (conj _ _)))).
  - reflexivity.
  - constructor; [split; vm_compute; congruence | constructor].
  - apply NoDup_singleton.
  - cbn; set_solver.
  - constructor; [intros v [= <-]; vm_compute; congruence | constructor].
Qed.

Lemma Memory_commit_atomic_witness :
  let st := MemoryStateStore_new in
  let b := write (bstr "v1") Missing in
  exists st', Memory_commit st b = (st', Ok 1) /\ batch_effect (ms_records st) b (ms_records st').
Proof.
  intros st b; pose proof (Memory_commit_atomic st b write_wf) as H.
  assert (Hr : (Memory_commit st b).2 = Ok 1) by (vm_compute; reflexivity).
  destruct (Memory_commit st b) as [st' r]; cbn in Hr; subst r; destruct H as (_ & _ & H); eauto.
Defined.

Lemma st1_versions : versions_below (ms_next_record_version st1) (ms_records st1).
Proof.
  refine (proj1 (proj2 (Memory_commit_versions MemoryStateStore_new (write (bstr "v1") Missing) _ _ _)));
    [vm_compute; congruence | vm_compute; reflexivity|].
  intros sk v Hv; change (ms_records MemoryStateStore_new) with (∅ : records) in Hv.
  by rewrite lookup_empty in Hv.
Qed.

Lemma stale_version_refused_witness :
  exists k e a,
    Memory_commit (commits st1 [write (bstr "v2") (Exact 1); write (bstr "v3") Any]) (write (bstr "x") (Exact 1)) =
    (commits st1 [write (bstr "v2") (Exact 1); write (bstr "v3") Any], Err (VersionConflict k e a)).
Proof.
  apply (stale_version_refused st1 _ [write (bstr "v3") Any] _ (Put key (bstr "x") (Exact 1)) 1).
  - vm_compute; congruence.
  - vm_compute; reflexivity.
  - exact st1_versions.
  - apply elem_of_cons; left; reflexivity.
  - reflexivity.
  - vm_compute; reflexivity.
  - vm_compute; congruence.
Defined.
End Witness.
