(* ===== verification/RedbStore.v ===== *)
(** * The durable state store

    Models [crates/weaver-store/src/redb_store.rs].  The redb database itself is
    external: [Redb] is the interface the source uses (transactions over one
    byte table and one metadata table, every call fallible) and [RedbLaws] the
    documented behaviour relied on.  The file proves that [commit_sync] refines
    the in-memory store of [Store], and that the store therefore keeps the
    [StateStore] contract. *)

From S2P Require Import Prelude Wire Core Store.

(** ** The database interface *)
Record tables : Type := mkTables { t_records : gmap bytes bytes; t_meta : gmap bytes Z }.

Definition row_le (x y : bytes * bytes) : Prop := bytes_le x.1 y.1.
#[global] Instance row_le_dec : RelDecision row_le.
Proof. intros x y; unfold row_le; apply _. Defined.

Class Redb (DB Txn : Type) := {
  begin_write : DB -> result bytes Txn;
  begin_read : DB -> result bytes Txn;
  open_records : Txn -> result bytes Txn;
  open_meta : Txn -> result bytes Txn;
  records_get : Txn -> bytes -> result bytes (option bytes);
  records_insert : Txn -> bytes -> bytes -> result bytes Txn;
  records_remove : Txn -> bytes -> result bytes Txn;
  records_iter : Txn -> result bytes (list (result bytes (bytes * bytes)));
  meta_get : Txn -> bytes -> result bytes (option Z);
  meta_insert : Txn -> bytes -> Z -> result bytes Txn;
  (** [write.commit()]: the handle sees the database it leaves behind. *)
  commit_txn : DB -> Txn -> DB * result bytes unit;
}.

Class RedbLaws (DB Txn : Type) `{Redb DB Txn} := {
  db_tables : DB -> tables;
  txn_tables : Txn -> tables;
  begin_write_tables d t : begin_write d = Ok t -> txn_tables t = db_tables d;
  begin_read_tables d t : begin_read d = Ok t -> txn_tables t = db_tables d;
  open_records_tables t t' : open_records t = Ok t' -> txn_tables t' = txn_tables t;
  open_meta_tables t t' : open_meta t = Ok t' -> txn_tables t' = txn_tables t;
  records_get_tables t k o : records_get t k = Ok o -> o = t_records (txn_tables t) !! k;
  records_insert_tables t k v t' :
    records_insert t k v = Ok t' ->
    txn_tables t' = mkTables (<[k := v]> (t_records (txn_tables t))) (t_meta (txn_tables t));
  records_remove_tables t k t' :
    records_remove t k = Ok t' ->
    txn_tables t' = mkTables (delete k (t_records (txn_tables t))) (t_meta (txn_tables t));
  (** Iteration yields every pair, in the byte order of the keys. *)
  records_iter_tables t es kvs :
    records_iter t = Ok es -> try_map id es = Ok kvs ->
    kvs ≡ₚ map_to_list (t_records (txn_tables t)) /\ StronglySorted row_le kvs;
  meta_get_tables t k o : meta_get t k = Ok o -> o = t_meta (txn_tables t) !! k;
  meta_insert_tables t k v t' :
    meta_insert t k v = Ok t' ->
    txn_tables t' = mkTables (t_records (txn_tables t)) (<[k := v]> (t_meta (txn_tables t)));
  (** Atomic and durable: a successful commit is the transaction; a failed one
      is all of it or none of it. *)
  commit_txn_ok d t d' : commit_txn d t = (d', Ok tt) -> db_tables d' = txn_tables t;
  commit_txn_err d t d' e :
    commit_txn d t = (d', Err e) -> db_tables d' = db_tables d \/ db_tables d' = txn_tables t;
}.

(* weaver-store/src/redb_store.rs:15-15 META_SCHEMA_VERSION *)
Definition META_SCHEMA_VERSION : bytes := bstr "schema_version".
(* weaver-store/src/redb_store.rs:16-16 META_NEXT_RECORD_VERSION *)
Definition META_NEXT_RECORD_VERSION : bytes := bstr "next_record_version".
(* weaver-store/src/redb_store.rs:17-17 META_NEXT_COMMIT_VERSION *)
Definition META_NEXT_COMMIT_VERSION : bytes := bstr "next_commit_version".
(* weaver-store/src/redb_store.rs:18-18 SCOPE_PREFIX_LEN *)
Definition SCOPE_PREFIX_LEN : nat := 33.

(** ** Keys and values *)
(* weaver-store/src/redb_store.rs:222-230 scope_prefix *)
Definition scope_prefix (scope : StoreScope) : bytes :=
  (match scope_kind scope with Member => Byte.x00 | Authority => Byte.x01 end)
    :: NetworkId_as_bytes (scope_network scope).
(* weaver-store/src/redb_store.rs:232-236 composite_key *)
Definition composite_key (scope : StoreScope) (key : StoreKey) : bytes :=
  scope_prefix scope ++ StoreKey_as_bytes key.
(* weaver-store/src/redb_store.rs:238-243 encode_value *)
Definition encode_value (version : Z) (value : bytes) : bytes := to_be 8 version ++ value.
(* weaver-store/src/redb_store.rs:245-254 decode_value *)
Definition decode_value (value : bytes) : result StoreError VersionedBytes :=
  fail_if (len value <? 8) (Backend (bstr "truncated redb record"));;
  Ok (mkVersionedBytes (from_be (take 8 value)) (drop 8 value)).
#[global] Arguments composite_key _ _ : simpl never.
#[global] Arguments encode_value _ _ : simpl never.
#[global] Arguments decode_value _ : simpl never.

Section operations.
Context {DB Txn : Type} `{Redb DB Txn}.

(* weaver-store/src/redb_store.rs:264-266 backend *)
Definition backend {A} (r : result bytes A) : result StoreError A := map_err Backend r.

(** [get(..)?.map(|value| decode_value(value.value())).transpose()]. *)
Definition get_decoded (t : Txn) (key : bytes) : result StoreError (option VersionedBytes) :=
  o ← backend (records_get t key);
  match o with
  | Some value => v ← decode_value value; Ok (Some v)
  | None => Ok None
  end.

(* weaver-store/src/redb_store.rs:212-220 metadata_value *)
Definition metadata_value (t : Txn) (key : bytes) : result StoreError Z :=
  o ← backend (meta_get t key);
  o ?? Backend (bstr "missing metadata key " ++ key).

(* weaver-store/src/redb_store.rs:39-65 initialize *)
Definition initialize (d : DB) : DB * result StoreError unit :=
  let body :=
    t ← backend (begin_write d);
    t ← backend (open_records t);
    t ← backend (open_meta t);
    found ← backend (meta_get t META_SCHEMA_VERSION);
    match found with
    | Some version =>
        fail_if (CURRENT_SCHEMA_VERSION <? version)
          (SchemaTooNew (version mod 2 ^ 32) CURRENT_SCHEMA_VERSION);;
        Ok t
    | None =>
        t ← backend (meta_insert t META_SCHEMA_VERSION CURRENT_SCHEMA_VERSION);
        t ← backend (meta_insert t META_NEXT_RECORD_VERSION 1);
        backend (meta_insert t META_NEXT_COMMIT_VERSION 1)
    end in
  match body with
  | Err e => (d, Err e)
  | Ok t => let '(d', r) := commit_txn d t in (d', backend r)
  end.

(* weaver-store/src/redb_store.rs:76-90 RedbStateStore::schema_version *)
Definition Redb_schema_version (d : DB) : result StoreError Z :=
  t ← backend (begin_read d);
  t ← backend (open_meta t);
  o ← backend (meta_get t META_SCHEMA_VERSION);
  version ← o ?? Backend (bstr "missing schema version");
  fail_if (negb (is_u32 version)) (Backend (bstr "schema version exceeds u32"));;
  Ok version.

(* weaver-store/src/redb_store.rs:92-109 RedbStateStore::read *)
Definition Redb_read (d : DB) (scope : StoreScope) (key : StoreKey)
    : result StoreError (option VersionedBytes) :=
  t ← backend (begin_read d);
  t ← backend (open_records t);
  get_decoded t (composite_key scope key).

(* weaver-store/src/redb_store.rs:123-132 RedbStateStore::scan_prefix *)
Fixpoint scan_entries (scope : StoreScope) (prefix : bytes) (es : list (result bytes (bytes * bytes)))
    : result StoreError (list StoredEntry) :=
  match es with
  | [] => Ok []
  | e :: es =>
      '(key, value) ← backend e;
      if bool_decide (scope_prefix scope `prefix_of` key)
         && bool_decide (prefix `prefix_of` drop SCOPE_PREFIX_LEN key)
      then
        k ← StoreKey_new (drop SCOPE_PREFIX_LEN key);
        v ← decode_value value;
        rest ← scan_entries scope prefix es;
        Ok (mkStoredEntry k v :: rest)
      else scan_entries scope prefix es
  end.
(* weaver-store/src/redb_store.rs:111-137 RedbStateStore::scan_prefix *)
Definition Redb_scan_prefix (d : DB) (scope : StoreScope) (prefix : bytes)
    : result StoreError (list StoredEntry) :=
  t ← backend (begin_read d);
  t ← backend (open_records t);
  es ← backend (records_iter t);
  scan_entries scope prefix es.

(* weaver-store/src/redb_store.rs:152-175 commit_sync *)
Definition redb_check (t : Txn) (scope : StoreScope) (op : BatchOperation) : result StoreError unit :=
  actual ← get_decoded t (composite_key scope (op_key op));
  let actual := vb_version <$> actual in
  fail_if (negb (version_valid (op_expected op) actual))
    (VersionConflict (op_key op) (op_expected op) actual).
(* weaver-store/src/redb_store.rs:179-196 commit_sync *)
Definition redb_apply (scope : StoreScope) (st : Txn * Z) (op : BatchOperation)
    : result StoreError (Txn * Z) :=
  let '(t, next_record) := st in
  match op with
  | Put key value _ =>
      t ← backend (records_insert t (composite_key scope key) (encode_value next_record value));
      next_record ← checked_add next_record 1 ?? Backend (bstr "record version overflow");
      Ok (t, next_record)
  | Delete key _ =>
      t ← backend (records_remove t (composite_key scope key));
      Ok (t, next_record)
  end.
(* weaver-store/src/redb_store.rs:145-206 commit_sync *)
Definition commit_body (t : Txn) (b : AtomicBatch) : result StoreError (Txn * Z) :=
  t ← backend (open_records t);
  t ← backend (open_meta t);
  for_each (redb_check t (batch_scope b)) (batch_operations b);;
  next_record ← metadata_value t META_NEXT_RECORD_VERSION;
  commit_version ← metadata_value t META_NEXT_COMMIT_VERSION;
  '(t, next_record) ← try_fold (redb_apply (batch_scope b)) (t, next_record) (batch_operations b);
  t ← backend (meta_insert t META_NEXT_RECORD_VERSION next_record);
  next_commit ← checked_add commit_version 1 ?? Backend (bstr "commit version overflow");
  t ← backend (meta_insert t META_NEXT_COMMIT_VERSION next_commit);
  Ok (t, commit_version).
(* weaver-store/src/redb_store.rs:145-210 commit_sync *)
Definition commit_sync (d : DB) (b : AtomicBatch) : DB * result StoreError Z :=
  match (t ← backend (begin_write d); commit_body t b) with
  | Err e => (d, Err e)
  | Ok (t, commit_version) =>
      let '(d', r) := commit_txn d t in
      (d', match r with Ok _ => Ok commit_version | Err e => Err (Backend e) end)
  end.

(* weaver-store/src/redb_store.rs:68-74 RedbStateStore *)
#[global] Instance Redb_StateStore : StateStore DB := {|
  schema_version := Redb_schema_version;
  read := Redb_read;
  scan_prefix := Redb_scan_prefix;
  commit := commit_sync;
|}.
(* weaver-store/src/redb_store.rs:69-74 RedbStateStore::capabilities *)
#[using="All"] Definition Redb_capabilities : Capable DB := fun _ => mkCapabilities true true.
#[global] Existing Instance Redb_capabilities.
End operations.

(** ** The refinement relation *)
Record rows_rel (rows : gmap bytes bytes) (m : records) : Prop := {
  rows_lookup : forall scope key, scope_wf scope ->
    rows !! composite_key scope key =
    (fun v => encode_value (vb_version v) (vb_bytes v)) <$> m !! (scope, key);
  rows_typed : forall scope key v, m !! (scope, key) = Some v ->
    scope_wf scope /\ StoreKey_wf key /\ is_u64 (vb_version v) = true;
  rows_keys : forall k v, rows !! k = Some v -> exists scope key,
    scope_wf scope /\ k = composite_key scope key;
}.

Record redb_rel (T : tables) (st : MemoryState) : Prop := {
  rel_rows : rows_rel (t_records T) (ms_records st);
  rel_schema : t_meta T !! META_SCHEMA_VERSION = Some (ms_schema_version st);
  rel_next_record : t_meta T !! META_NEXT_RECORD_VERSION = Some (ms_next_record_version st);
  rel_next_commit : t_meta T !! META_NEXT_COMMIT_VERSION = Some (ms_next_commit_version st);
  rel_record_u64 : is_u64 (ms_next_record_version st) = true;
  rel_commit_u64 : is_u64 (ms_next_commit_version st) = true;
}.

Section encoding.
Lemma decode_encode_value v bs :
  is_u64 v = true -> decode_value (encode_value v bs) = Ok (mkVersionedBytes v bs).
Proof.
  intros Hv; unfold decode_value, encode_value, len.
  rewrite length_app, length_to_be, (proj2 (Z.ltb_ge _ _)) by lia; cbn [fail_if mbind result_bind].
  rewrite take_app_length', drop_app_length' by (by rewrite length_to_be).
  unfold in_range in Hv; bool_inv; rewrite from_to_be, Z.mod_small by lia; done.
Qed.

Lemma scope_prefix_inj scope scope' : scope_prefix scope = scope_prefix scope' -> scope = scope'.
Proof. destruct scope as [[] [n]], scope' as [[] [n']]; cbn; by intros [= ->]. Qed.

Lemma length_scope_prefix scope : scope_wf scope -> length (scope_prefix scope) = SCOPE_PREFIX_LEN.
Proof. intros H; cbn; by rewrite H. Qed.

Lemma composite_key_inj scope key scope' key' :
  scope_wf scope -> scope_wf scope' -> composite_key scope key = composite_key scope' key' ->
  scope = scope' /\ key = key'.
Proof.
  intros H H' He; apply app_inj_1 in He as [Hp Hk]; [|by rewrite !length_scope_prefix].
  apply scope_prefix_inj in Hp; destruct key, key'; cbn in *; naive_solver.
Qed.

Lemma rows_insert rows m scope key version value :
  rows_rel rows m -> scope_wf scope -> StoreKey_wf key -> is_u64 version = true ->
  rows_rel (<[composite_key scope key := encode_value version value]> rows)
           (<[(scope, key) := mkVersionedBytes version value]> m).
Proof.
  intros [Hl Ht Hk] Hs Hkw Hv; constructor.
  - intros scope' key' Hs'; destruct (decide ((scope, key) = (scope', key'))) as [[= <- <-]|Hne].
    + by rewrite !lookup_insert_eq.
    + rewrite !lookup_insert_ne; [by apply Hl | done|].
      intros He; apply composite_key_inj in He as [-> ->]; done.
  - intros scope' key' v; rewrite lookup_insert_Some.
    intros [[[= <- <-] <-]|[_ H]]; [done | eauto].
  - intros k v; rewrite lookup_insert_Some; intros [[<- _]|[_ H]]; eauto.
Qed.

Lemma rows_delete rows m scope key :
  rows_rel rows m -> scope_wf scope ->
  rows_rel (delete (composite_key scope key) rows) (delete (scope, key) m).
Proof.
  intros [Hl Ht Hk] Hs; constructor.
  - intros scope' key' Hs'; destruct (decide ((scope, key) = (scope', key'))) as [[= <- <-]|Hne].
    + by rewrite !lookup_delete_eq.
    + rewrite !lookup_delete_ne; [by apply Hl | done|].
      intros He; apply composite_key_inj in He as [-> ->]; done.
  - intros scope' key' v [_ H]%lookup_delete_Some; eauto.
  - intros k v [_ H]%lookup_delete_Some; eauto.
Qed.
End encoding.

Section refinement.
Context {DB Txn : Type} `{RedbLaws DB Txn}.
Implicit Types (d : DB) (t : Txn) (m : records).

Lemma get_decoded_rel t m scope key r :
  rows_rel (t_records (txn_tables t)) m -> scope_wf scope ->
  get_decoded t (composite_key scope key) = r ->
  r = Ok (m !! (scope, key)) \/ exists msg, r = Err (Backend msg).
Proof.
  intros Hm Hs <-; unfold get_decoded, backend.
  destruct (records_get t _) as [o|e] eqn:Hg; cbn; [left | by eauto].
  apply records_get_tables in Hg; rewrite (rows_lookup _ _ Hm) in Hg by done; subst o.
  destruct (m !! (scope, key)) as [[v bs]|] eqn:Hv; cbn; [|done].
  rewrite decode_encode_value; [done | by apply (rows_typed _ _ Hm) in Hv as (_ & _ & ?)].
Qed.

(** The precondition loop finds the same conflict as the in-memory store. *)
Lemma redb_check_rel t m b ops r :
  rows_rel (t_records (txn_tables t)) m -> scope_wf (batch_scope b) ->
  for_each (redb_check t (batch_scope b)) ops = r ->
  r = check_preconditions m (mkAtomicBatch (batch_scope b) ops ∅) \/ exists msg, r = Err (Backend msg).
Proof.
  intros Hm Hs <-; unfold check_preconditions; cbn.
  induction ops as [|op ops IH]; cbn [for_each]; [by left|].
  assert (redb_check t (batch_scope b) op =
            fail_if (negb (version_valid (op_expected op) (actual_version m (batch_scope b) (op_key op))))
              (VersionConflict (op_key op) (op_expected op) (actual_version m (batch_scope b) (op_key op)))
          \/ exists msg, redb_check t (batch_scope b) op = Err (Backend msg)) as [->|[msg ->]]; [| |by eauto].
  - unfold redb_check; destruct (get_decoded_rel t m (batch_scope b) (op_key op) _ Hm Hs eq_refl)
      as [Hg|[msg Hg]]; rewrite Hg; eauto.
  - destruct (fail_if _ _); cbn; [exact IH | by left].
Qed.

Lemma redb_apply_rel scope ops t next t' next' m :
  rows_rel (t_records (txn_tables t)) m -> scope_wf scope -> is_u64 next = true ->
  Forall (fun op => StoreKey_wf (op_key op)) ops ->
  try_fold (redb_apply scope) (t, next) ops = Ok (t', next') ->
  is_u64 next' = true /\ t_meta (txn_tables t') = t_meta (txn_tables t) /\
  exists m', apply_operations scope ops (next, m) = (next', m') /\
    rows_rel (t_records (txn_tables t')) m'.
Proof.
  intros Hm Hs Hn Hk; revert t next m Hm Hn; induction Hk as [|op ops Hop Hk IH]; intros t next m Hm Hn Hf.
  { cbn in Hf; res_inv; eauto. }
  cbn in Hf; apply bind_Ok in Hf as ([t1 next1] & H1 & Hf); rewrite apply_operations_cons.
  destruct op as [key value ex|key ex]; unfold redb_apply, backend in H1; cbn in Hop; res_inv.
  - match goal with Hi : records_insert _ _ _ = _ |- _ => apply records_insert_tables in Hi as Ht end.
    match goal with Hc : checked_add _ _ = _ |- _ => unfold checked_add, U64_MAX in Hc; case_match; [|done] end.
    simplify_eq; unfold in_range in *; bool_inv.
    edestruct (IH t1 (next + 1) (<[(scope, key) := mkVersionedBytes next value]> m)) as (? & Hmeta & m' & Ha & Hr);
      [rewrite Ht; cbn; apply rows_insert; try done | unfold in_range | exact Hf |].
    + unfold in_range; apply andb_true_iff; rewrite Z.leb_le, Z.ltb_lt; lia.
    + apply andb_true_iff; rewrite Z.leb_le, Z.ltb_lt; lia.
    + rewrite Hmeta, Ht; split_and!; [done..|]; exists m'; cbn; rewrite wrapping_incr_small by lia; done.
  - match goal with Hi : records_remove _ _ = _ |- _ => apply records_remove_tables in Hi as Ht end.
    edestruct (IH t1 next1 (delete (scope, key) m)) as (? & Hmeta & m' & Ha & Hr); [|done|exact Hf|].
    + rewrite Ht; cbn; by apply rows_delete.
    + rewrite Hmeta, Ht; eauto.
Qed.

Lemma check_preconditions_keys m b :
  check_preconditions m b = check_preconditions m (mkAtomicBatch (batch_scope b) (batch_operations b) ∅).
Proof. done. Qed.

Lemma commit_body_Ok t st b t' v :
  redb_rel (txn_tables t) st -> batch_wf b -> commit_body t b = Ok (t', v) ->
  exists st', Memory_commit st b = (st', Ok v) /\ redb_rel (txn_tables t') st'.
Proof.
  intros [Hrows Hsch Hnr Hnc Hru Hcu] (Hs & Hk & _) Hb; unfold commit_body, metadata_value, backend in Hb.
  apply bind_Ok in Hb as (t1 & H1%map_err_Ok%open_records_tables & Hb).
  apply bind_Ok in Hb as (t2 & H2%map_err_Ok%open_meta_tables & Hb).
  apply bind_Ok in Hb as ([] & Hchk & Hb).
  apply bind_Ok in Hb as (next & Hnext & Hb).
  apply bind_Ok in Hb as (cv & Hcv & Hb).
  apply bind_Ok in Hb as ([t3 next'] & Hfold & Hb).
  apply bind_Ok in Hb as (t4 & H4%map_err_Ok%meta_insert_tables & Hb).
  apply bind_Ok in Hb as (cv' & Hadd%ok_or_Ok & Hb).
  apply bind_Ok in Hb as (t5 & H5%map_err_Ok%meta_insert_tables & [= <- <-]).
  rewrite H1 in H2; rewrite <- H2 in Hrows, Hsch, Hnr, Hnc; clear H1.
  apply bind_Ok in Hnext as (o & ->%map_err_Ok%meta_get_tables & Ho%ok_or_Ok).
  rewrite Hnr in Ho; injection Ho as <-.
  apply bind_Ok in Hcv as (o & ->%map_err_Ok%meta_get_tables & Ho%ok_or_Ok).
  rewrite Hnc in Ho; injection Ho as <-.
  eapply redb_apply_rel in Hfold as (Hu' & Hmeta & m' & Ha & Hr); [|done..].
  eapply redb_check_rel in Hchk as [Hc|[? [=]]]; [|done..].
  unfold Memory_commit; rewrite check_preconditions_keys, <- Hc, Ha.
  eexists; split; [done|]; unfold checked_add, U64_MAX in Hadd; case_match; [|done]; simplify_eq.
  unfold in_range in Hcu; bool_inv; rewrite wrapping_incr_small by lia.
  constructor; cbn; rewrite ?H5, ?H4, ?Hmeta; cbn; try done.
  - by rewrite !lookup_insert_ne by done.
  - by rewrite lookup_insert_ne, lookup_insert_eq by done.
  - by rewrite lookup_insert_eq.
  - unfold in_range; apply andb_true_iff; rewrite Z.leb_le, Z.ltb_lt; lia.
Qed.

(** Computations whose only errors are reports of the backend. *)
Definition backend_only {A} (r : result StoreError A) : Prop :=
  forall e, r = Err e -> exists msg, e = Backend msg.

Lemma backend_only_backend {A} (r : result bytes A) : backend_only (backend r).
Proof. intros e; destruct r; [done|]; intros [= <-]; eauto. Qed.
Lemma backend_only_ok_or {A} (o : option A) msg : backend_only (o ?? Backend msg).
Proof. intros e; destruct o; [done|]; intros [= <-]; eauto. Qed.
Lemma backend_only_ret {A} (a : A) : backend_only (Ok a).
Proof. done. Qed.
Lemma backend_only_bind {A B} (r : result StoreError A) (f : A -> result StoreError B) :
  backend_only r -> (forall a, backend_only (f a)) -> backend_only (r ≫= f).
Proof. intros Hr Hf e [He|(a & _ & He)]%bind_Err; [by apply Hr | by eapply Hf]. Qed.

Lemma redb_apply_errors scope ops st : backend_only (try_fold (redb_apply scope) st ops).
Proof.
  revert st; induction ops as [|op ops IH]; intros [t next]; [apply backend_only_ret|]; cbn [try_fold].
  apply backend_only_bind; [|intros; apply IH]; destruct op; cbn [redb_apply].
  all: repeat (apply backend_only_bind; [apply backend_only_backend || apply backend_only_ok_or | intros ?]).
  all: apply backend_only_ret.
Qed.

Lemma commit_body_Err t st b e :
  redb_rel (txn_tables t) st -> batch_wf b -> commit_body t b = Err e ->
  (exists msg, e = Backend msg) \/ Memory_commit st b = (st, Err e).
Proof.
  intros Hrel (Hs & _) Hb; unfold commit_body in Hb.
  apply bind_Err in Hb as [He|(t1 & H1%map_err_Ok%open_records_tables & Hb)];
    [left; by apply backend_only_backend in He|].
  apply bind_Err in Hb as [He|(t2 & H2%map_err_Ok%open_meta_tables & Hb)];
    [left; by apply backend_only_backend in He|].
  rewrite H1 in H2; rewrite <- H2 in Hrel.
  apply bind_Err in Hb as [He|([] & _ & Hb)].
  - eapply redb_check_rel in He as [He|[msg [= ->]]]; [right|by eauto|by apply rel_rows|done].
    unfold Memory_commit; by rewrite check_preconditions_keys, <- He.
  - left; revert e Hb; change (backend_only
      (next_record ← metadata_value t2 META_NEXT_RECORD_VERSION;
       commit_version ← metadata_value t2 META_NEXT_COMMIT_VERSION;
       '(t, next_record) ← try_fold (redb_apply (batch_scope b)) (t2, next_record) (batch_operations b);
       t ← backend (meta_insert t META_NEXT_RECORD_VERSION next_record);
       next_commit ← checked_add commit_version 1 ?? Backend (bstr "commit version overflow");
       t ← backend (meta_insert t META_NEXT_COMMIT_VERSION next_commit);
       Ok (t, commit_version))).
    unfold metadata_value; repeat (apply backend_only_bind; [|intros ?]);
      repeat match goal with x : _ * _ |- _ => destruct x end;
      repeat (apply backend_only_bind; [|intros ?]);
      auto using backend_only_backend, backend_only_ok_or, redb_apply_errors, backend_only_ret.
Qed.

(** The write transaction as a whole against the in-memory store. *)
Lemma commit_sync_cases d st b d' r :
  redb_rel (db_tables d) st -> batch_wf b -> commit_sync d b = (d', r) ->
  match r with
  | Ok v => exists st', Memory_commit st b = (st', Ok v) /\ redb_rel (db_tables d') st'
  | Err e =>
      db_tables d' = db_tables d /\ ((exists msg, e = Backend msg) \/ Memory_commit st b = (st, Err e))
      \/ (exists msg, e = Backend msg) /\
         exists v st', Memory_commit st b = (st', Ok v) /\ redb_rel (db_tables d') st'
  end.
Proof.
  intros Hrel Hb; unfold commit_sync.
  destruct (begin_write d) as [t|e] eqn:Ht; cbn; [|intros [= <- <-]; eauto].
  apply begin_write_tables in Ht; rewrite <- Ht in Hrel.
  destruct (commit_body t b) as [[t' v]|e] eqn:Hbody; [|intros [= <- <-]; left; split; [done|]].
  2: { by eapply commit_body_Err. }
  eapply commit_body_Ok in Hbody as (st' & Hc & Hr); [|done..].
  destruct (commit_txn d t') as [d1 [[]|e]] eqn:Hcommit; intros [= <- <-].
  - apply commit_txn_ok in Hcommit; rewrite <- Hcommit in Hr; eauto.
  - apply commit_txn_err in Hcommit as [H'|H']; [left; eauto | right; rewrite <- H' in Hr; eauto 6].
Qed.

Lemma Redb_read_rel d st scope key o :
  redb_rel (db_tables d) st -> scope_wf scope -> Redb_read d scope key = Ok o ->
  o = ms_records st !! (scope, key).
Proof.
  intros Hrel Hs Hread; unfold Redb_read, backend in Hread.
  apply bind_Ok in Hread as (t & Ht%map_err_Ok%begin_read_tables & Hread).
  apply bind_Ok in Hread as (t' & Ht'%map_err_Ok%open_records_tables & Hread).
  rewrite Ht in Ht'; rewrite <- Ht' in Hrel.
  eapply get_decoded_rel in Hread as [[= ->]|[? [=]]]; [done | by apply rel_rows | done].
Qed.

Definition row_of (e : (StoreScope * StoreKey) * VersionedBytes) : bytes * bytes :=
  (composite_key e.1.1 e.1.2, encode_value (vb_version e.2) (vb_bytes e.2)).
Definition scan_row (scope : StoreScope) (prefix : bytes) (kv : bytes * bytes) : option StoredEntry :=
  if bool_decide (scope_prefix scope `prefix_of` kv.1)
     && bool_decide (prefix `prefix_of` drop SCOPE_PREFIX_LEN kv.1)
  then match decode_value kv.2 with
       | Ok v => Some (mkStoredEntry (mkStoreKey (drop SCOPE_PREFIX_LEN kv.1)) v)
       | Err _ => None
       end
  else None.

Lemma rows_permutation rows m : rows_rel rows m -> map_to_list rows ≡ₚ row_of <$> map_to_list m.
Proof.
  intros [Hl Ht Hk]; apply NoDup_Permutation; [apply NoDup_map_to_list|..].
  - apply NoDup_fmap_2_strong; [|apply NoDup_map_to_list].
    intros [[sc k] v] [[sc' k'] v'] Hx%elem_of_map_to_list Hy%elem_of_map_to_list He%(f_equal fst); cbn in *.
    apply composite_key_inj in He as [-> ->]; [congruence | by destruct (Ht _ _ _ Hx) | by destruct (Ht _ _ _ Hy)].
  - intros [k v]; rewrite elem_of_map_to_list, list_elem_of_fmap; split.
    + intros Hkv; destruct (Hk _ _ Hkv) as (sc & key & Hsc & ->); rewrite Hl in Hkv by done.
      apply fmap_Some in Hkv as (vb & Hvb & ->); exists ((sc, key), vb); by rewrite elem_of_map_to_list.
    + intros ([[sc key] vb] & [= -> ->] & Hin%elem_of_map_to_list); cbn.
      rewrite Hl, Hin; [done | by destruct (Ht _ _ _ Hin)].
Qed.

Lemma scan_entries_Ok scope prefix es out :
  scan_entries scope prefix es = Ok out ->
  exists kvs, try_map id es = Ok kvs /\ out = omap (scan_row scope prefix) kvs.
Proof.
  revert out; induction es as [|e es IH]; intros out Hout; cbn [scan_entries try_map] in *.
  { res_inv; by exists []. }
  unfold backend in Hout; apply bind_Ok in Hout as ([k v] & ->%map_err_Ok & Hout).
  assert (exists kvs, try_map id es = Ok kvs /\ out = omap (scan_row scope prefix) ((k, v) :: kvs))
    as (kvs & Hkvs & ->).
  { pose proof (eq_refl (scan_row scope prefix (k, v))) as Hr; unfold scan_row at 2 in Hr.
    cbn -[scan_row] in Hr |- *; destruct (_ && _); [|rewrite Hr; by apply IH].
    apply bind_Ok in Hout as (key & [-> _]%StoreKey_new_wf & Hout).
    apply bind_Ok in Hout as (vb & Hvb & Hout); apply bind_Ok in Hout as (rest & Hrest & [= <-]).
    rewrite Hvb in Hr; rewrite Hr; destruct (IH _ Hrest) as (kvs & ? & ->); eauto. }
  exists ((k, v) :: kvs); split; [|done]; cbn; by rewrite Hkvs.
Qed.

Lemma scan_row_of rows m scope prefix e :
  rows_rel rows m -> scope_wf scope -> e ∈ map_to_list m ->
  scan_row scope prefix (row_of e) = scan_entry scope prefix e.
Proof.
  destruct e as [[sc key] v]; intros Hm Hs (Hsc & Hk & Hv)%elem_of_map_to_list%(rows_typed _ _ Hm).
  unfold scan_row, scan_entry, row_of; cbn; rewrite decode_encode_value by done.
  unfold composite_key; rewrite drop_app_length' by (by rewrite length_scope_prefix).
  assert (scope_prefix scope `prefix_of` scope_prefix sc ++ StoreKey_as_bytes key <-> sc = scope) as Hp.
  { split; [|intros ->; by eexists]; intros [k He]; apply app_inj_1 in He as [He _].
    - symmetry; by apply scope_prefix_inj.
    - by rewrite !length_scope_prefix. }
  rewrite (bool_decide_ext _ _ Hp); by destruct key, v.
Qed.

Lemma scan_row_key scope prefix kv e :
  scope_wf scope -> scan_row scope prefix kv = Some e -> kv.1 = composite_key scope (se_key e).
Proof.
  intros Hs; unfold scan_row; destruct (_ && _) eqn:Hc; [|done]; bool_inv.
  match goal with Hp : scope_prefix _ `prefix_of` _ |- _ => destruct Hp as [k Hk] end.
  destruct (decode_value _); [|done]; intros [= <-]; unfold composite_key; cbn.
  rewrite Hk, drop_app_length'; [done | by rewrite length_scope_prefix].
Qed.

#[global] Instance entry_le_total : Total entry_le.
Proof. intros x y; apply bytes_le_total. Qed.
#[global] Instance entry_le_trans : Transitive entry_le.
Proof. intros x y z; apply bytes_le_trans. Qed.

Lemma scan_records_elem m scope prefix e :
  e ∈ scan_records m scope prefix -> m !! (scope, se_key e) = Some (se_value e).
Proof.
  unfold scan_records; rewrite merge_sort_Permutation, list_elem_of_omap.
  intros ([[sc key] v] & Hin%elem_of_map_to_list & He); unfold scan_entry in He; cbn in He.
  destruct (_ && _) eqn:Hc; [|done]; bool_inv; simplify_eq; done.
Qed.

Lemma Redb_scan_rel d st scope prefix es :
  redb_rel (db_tables d) st -> scope_wf scope -> Redb_scan_prefix d scope prefix = Ok es ->
  es = scan_records (ms_records st) scope prefix.
Proof.
  intros Hrel Hs Hscan; unfold Redb_scan_prefix, backend in Hscan.
  apply bind_Ok in Hscan as (t & Ht%map_err_Ok%begin_read_tables & Hscan).
  apply bind_Ok in Hscan as (t' & Ht'%map_err_Ok%open_records_tables & Hscan).
  apply bind_Ok in Hscan as (items & Hit%map_err_Ok & Hscan).
  rewrite Ht in Ht'; rewrite <- Ht' in Hrel; apply rel_rows in Hrel as Hm.
  apply scan_entries_Ok in Hscan as (kvs & Hkvs & ->).
  destruct (records_iter_tables _ _ _ Hit Hkvs) as [Hperm Hsorted].
  assert (Hp : omap (scan_row scope prefix) kvs ≡ₚ scan_records (ms_records st) scope prefix).
  { unfold scan_records; rewrite merge_sort_Permutation, Hperm, rows_permutation by done.
    erewrite omap_fmap_ext; [done|]; intros; by eapply scan_row_of. }
  eapply (StronglySorted_unique_strong entry_le); [|..|exact Hp].
  - intros x y Hx Hy Hxy Hyx; rewrite Hp in Hx; apply scan_records_elem in Hx, Hy.
    assert (se_key x = se_key y) as Hk.
    { pose proof (anti_symm bytes_le _ _ Hxy Hyx); destruct (se_key x), (se_key y); cbn in *; congruence. }
    destruct x, y; cbn in *; congruence.
  - eapply StronglySorted_omap; [|exact Hsorted]; intros x y a b Hxy Ha Hb.
    unfold row_le in Hxy; rewrite (scan_row_key _ _ _ _ Hs Ha), (scan_row_key _ _ _ _ Hs Hb) in Hxy.
    by apply bytes_le_app in Hxy.
  - apply StronglySorted_merge_sort; apply _.
Qed.
End refinement.

Section contract.
Context {DB Txn : Type} `{RedbLaws DB Txn}.

#[global] Program Instance Redb_StateStoreLaws : StateStoreLaws DB := {|
  store_rep d m := exists st, redb_rel (db_tables d) st /\ ms_records st = m;
|}.
Next Obligation. intros d m scope key o (st & Hr & <-) Hs Hread; by eapply Redb_read_rel. Qed.
Next Obligation. intros d m scope prefix es (st & Hr & <-) Hs Hscan; by eapply Redb_scan_rel. Qed.
Next Obligation.
  intros d m b d' v (st & Hr & <-) Hb Hc; apply (commit_sync_cases d st) in Hc as (st' & Hm & Hr'); [|done..].
  apply Memory_commit_effect in Hm as [? ?]; eauto 6.
Qed.
Next Obligation.
  intros d m b d' e (st & Hr & <-) Hb Hc; apply (commit_sync_cases d st) in Hc as [[Hd _]|(Hm & v & st' & Hc & Hr')]; [..|done|done].
  - left; exists st; by rewrite Hd.
  - apply Memory_commit_effect in Hc as [? ?]; [right; eauto 8 | done].
Qed.
End contract.

(** ** Histories of commits *)

(** The durable store over a sequence of commits, with what each one returned. *)
Fixpoint redb_run {DB Txn} `{Redb DB Txn} (d : DB) (bs : list AtomicBatch)
    : DB * list (result StoreError Z) :=
  match bs with
  | [] => (d, [])
  | b :: bs =>
      let '(d, r) := commit_sync d b in
      let '(d, rs) := redb_run d bs in (d, r :: rs)
  end.

(** [explains st log st']: the in-memory store goes from [st] to [st'] by a
    subsequence of the logged batches that contains every acknowledged one; the
    acknowledged ones return the logged commit versions, and a batch refused for
    another reason than the backend is refused by the in-memory store as well. *)
Inductive explains : MemoryState -> list (AtomicBatch * result StoreError Z) -> MemoryState -> Prop :=
| explains_nil st : explains st [] st
| explains_acknowledged st b v st1 log st2 :
    Memory_commit st b = (st1, Ok v) -> explains st1 log st2 -> explains st ((b, Ok v) :: log) st2
| explains_unacknowledged st b msg v st1 log st2 :
    Memory_commit st b = (st1, Ok v) -> explains st1 log st2 ->
    explains st ((b, Err (Backend msg)) :: log) st2
| explains_backend st b msg log st2 :
    explains st log st2 -> explains st ((b, Err (Backend msg)) :: log) st2
| explains_refused st b e log st2 :
    Memory_commit st b = (st, Err e) -> explains st log st2 -> explains st ((b, Err e) :: log) st2.

(** ** A concrete database: both tables in memory, no failing call *)
Module TableDb.
#[global] Instance Tables_Redb : Redb tables tables := {|
  begin_write d := Ok d;
  begin_read d := Ok d;
  open_records t := Ok t;
  open_meta t := Ok t;
  records_get t k := Ok (t_records t !! k);
  records_insert t k v := Ok (mkTables (<[k := v]> (t_records t)) (t_meta t));
  records_remove t k := Ok (mkTables (delete k (t_records t)) (t_meta t));
  records_iter t := Ok (Ok <$> merge_sort row_le (map_to_list (t_records t)));
  meta_get t k := Ok (t_meta t !! k);
  meta_insert t k v := Ok (mkTables (t_records t) (<[k := v]> (t_meta t)));
  commit_txn _ t := (t, Ok tt);
|}.

Lemma try_map_Ok_id {A} (l kvs : list A) :
  try_map (E := bytes) id (Ok <$> l) = Ok kvs -> kvs = l.
Proof.
  revert kvs; induction l as [|x l IH]; intros kvs Hk; cbn in Hk; [by injection Hk|].
  apply bind_Ok in Hk as (ys & Hys & [= <-]); f_equal; by apply IH.
Qed.

#[global] Program Instance Tables_RedbLaws : RedbLaws tables tables := {|
  db_tables d := d;
  txn_tables t := t;
|}.
Solve Obligations with (intros; simplify_eq/=; try by (done || (left; congruence))).
Next Obligation.
  intros t es kvs [= <-] ->%try_map_Ok_id; split; [apply merge_sort_Permutation|].
  apply StronglySorted_merge_sort; [intros x y z; apply bytes_le_trans | intros x y; apply bytes_le_total].
Qed.
End TableDb.

(** ** Properties *)
Definition initial_tables : tables :=
  mkTables ∅ (<[META_NEXT_COMMIT_VERSION := 1]> (<[META_NEXT_RECORD_VERSION := 1]>
    (<[META_SCHEMA_VERSION := CURRENT_SCHEMA_VERSION]> ∅))).

Lemma initial_tables_rel : redb_rel initial_tables MemoryStateStore_new.
Proof. constructor; [constructor|..]; done. Qed.

(** C2: over any sequence of commits, with the backend failing anywhere, the
    durable store holds what the in-memory store holds after a subsequence of
    the batches that includes every acknowledged one; acknowledged commits
    return the same version and conflicts are the same conflicts. *)
Theorem redb_run_refines_memory {DB Txn} `{RedbLaws DB Txn} (d : DB) (st : MemoryState) (bs : list AtomicBatch) :
  redb_rel (db_tables d) st -> Forall batch_wf bs ->
  exists st', explains st (zip bs (redb_run d bs).2) st' /\ redb_rel (db_tables (redb_run d bs).1) st'.
Proof.
  intros Hrel Hbs; revert d st Hrel; induction Hbs as [|b bs Hb _ IH]; intros d st Hrel.
  { exists st; split; [constructor | done]. }
  cbn; destruct (commit_sync d b) as [d1 r] eqn:Hc.
  pose proof (commit_sync_cases d st b d1 r Hrel Hb Hc) as Hcases.
  destruct (redb_run d1 bs) as [d2 rs] eqn:Hrun; cbn.
  assert (Hnext : forall st1, redb_rel (db_tables d1) st1 ->
    exists st', explains st1 (zip bs rs) st' /\ redb_rel (db_tables d2) st').
  { intros st1 H1; destruct (IH d1 st1 H1) as (st' & He & Hr); rewrite Hrun in He, Hr; eauto. }
  destruct r as [v|e].
  - destruct Hcases as (st1 & Hm & Hr); destruct (Hnext st1 Hr) as (st' & ? & ?); eauto using explains.
  - destruct Hcases as [[Hd He]|([msg ->] & v & st1 & Hm & Hr)].
    + destruct (Hnext st) as (st' & ? & ?); [by rewrite Hd|].
      destruct He as [[msg ->]|Hm]; eauto using explains.
    + destruct (Hnext st1 Hr) as (st' & ? & ?); eauto using explains.
Qed.

(** A prefix scan of the durable store returns the entries of the in-memory
    store it represents: the same keys, versions and values, in the same order. *)
Theorem redb_scan_matches_memory {DB Txn} `{RedbLaws DB Txn} (d : DB) (st : MemoryState)
    (scope : StoreScope) (prefix : bytes) (es : list StoredEntry) :
  redb_rel (db_tables d) st -> scope_wf scope ->
  Redb_scan_prefix d scope prefix = Ok es -> Memory_scan_prefix st scope prefix = Ok es.
Proof. intros Hrel Hs Hscan; unfold Memory_scan_prefix; f_equal; symmetry; by eapply Redb_scan_rel. Qed.

(** Opening a database creates the empty store at the current schema when
    there is no schema yet, keeps an existing store of a supported schema as it
    is, and refuses a newer schema without touching the database. *)
Theorem initialize_cases {DB Txn} `{RedbLaws DB Txn} (d d' : DB) (r : result StoreError unit) :
  initialize d = (d', r) ->
  match r with
  | Ok _ =>
      match t_meta (db_tables d) !! META_SCHEMA_VERSION with
      | Some v => v <= CURRENT_SCHEMA_VERSION /\ db_tables d' = db_tables d
      | None => db_tables d = mkTables ∅ ∅ -> redb_rel (db_tables d') MemoryStateStore_new
      end
  | Err (SchemaTooNew _ _) => db_tables d' = db_tables d /\
      exists v, t_meta (db_tables d) !! META_SCHEMA_VERSION = Some v /\ CURRENT_SCHEMA_VERSION < v
  | Err e => exists msg, e = Backend msg
  end.
Proof.
  unfold initialize, backend; destruct (begin_write d) as [t|] eqn:Ht; cbn; [|intros [= <- <-]; eauto].
  destruct (open_records t) as [t1|] eqn:H1; cbn; [|intros [= <- <-]; eauto].
  destruct (open_meta t1) as [t2|] eqn:H2; cbn; [|intros [= <- <-]; eauto].
  destruct (meta_get t2 _) as [o|] eqn:Hg; cbn; [|intros [= <- <-]; eauto].
  apply begin_write_tables in Ht; apply open_records_tables in H1; apply open_meta_tables in H2.
  apply meta_get_tables in Hg; rewrite H2, H1, Ht in Hg; rewrite H1, Ht in H2; rewrite <- Hg.
  destruct o as [v|]; cbn.
  - destruct (CURRENT_SCHEMA_VERSION <? v) eqn:Hv; bool_inv; cbn; [intros [= <- <-]; eauto|].
    destruct (commit_txn d t2) as [d1 [[]|e]] eqn:Hc; intros [= <- <-]; [|cbn; eauto].
    apply commit_txn_ok in Hc; rewrite Hc, H2; done.
  - destruct (meta_insert t2 _ _) as [t3|] eqn:H3; cbn; [|intros [= <- <-]; eauto].
    destruct (meta_insert t3 _ _) as [t4|] eqn:H4; cbn; [|intros [= <- <-]; eauto].
    destruct (meta_insert t4 _ _) as [t5|] eqn:H5; cbn; [|intros [= <- <-]; eauto].
    destruct (commit_txn d t5) as [d1 [[]|e]] eqn:Hc; intros [= <- <-]; [|cbn; eauto].
    intros Hd; apply commit_txn_ok in Hc; apply meta_insert_tables in H3, H4, H5.
    rewrite Hc, H5, H4, H3, H2, Hd; apply initial_tables_rel.
Qed.

Module Witness.
Import TableDb.
Definition net : NetworkId := NetworkId_from_bytes (repeat Byte.x07 32).
Definition batch : AtomicBatch :=
  mkAtomicBatch (StoreScope_member net) [Put (mkStoreKey (bstr "config/head")) (bstr "v1") Missing]
    {[ mkStoreKey (bstr "config/head") ]}.

Lemma batch_ok : batch_wf batch.
Proof.
  refine (conj _ (conj _ (conj _ (conj _ _)))).
  - reflexivity.
  - constructor; [split; vm_compute; congruence | constructor].
  - apply NoDup_singleton.
  - cbn; set_solver.
  - constructor; [intros v [= <-]; vm_compute; congruence | constructor].
Qed.

Lemma redb_run_refines_memory_witness :
  (redb_run initial_tables [batch; batch]).2 =
    [Ok 1; Err (VersionConflict (mkStoreKey (bstr "config/head")) Missing (Some 1))] /\
  exists st', explains MemoryStateStore_new (zip [batch; batch] (redb_run initial_tables [batch; batch]).2) st'
    /\ redb_rel (db_tables (redb_run initial_tables [batch; batch]).1) st'.
Proof.
  split; [vm_compute; reflexivity|].
  apply (@redb_run_refines_memory tables tables Tables_Redb Tables_RedbLaws initial_tables MemoryStateStore_new [batch; batch] initial_tables_rel).
  apply Forall_cons; split; [exact batch_ok|]; apply Forall_singleton; exact batch_ok.
Defined.

Lemma redb_scan_matches_memory_witness :
  Memory_scan_prefix MemoryStateStore_new (StoreScope_member net) (bstr "config/") = Ok [].
Proof.
  apply (@redb_scan_matches_memory tables tables Tables_Redb Tables_RedbLaws initial_tables _ _ _ _ initial_tables_rel); [done|].
  vm_compute; reflexivity.
Defined.

Lemma initialize_cases_witness :
  redb_rel (db_tables (initialize (mkTables ∅ ∅)).1) MemoryStateStore_new.
Proof.
  refine (@initialize_cases tables tables Tables_Redb Tables_RedbLaws (mkTables ∅ ∅) (initialize (mkTables ∅ ∅)).1 (Ok tt) _ eq_refl).
  vm_compute; reflexivity.
Defined.
End Witness.
