(* ===== verification/CertificateWire.v ===== *)
(** * weaver-crypto: certificate payloads and their wire format

    Models the payload types of [crates/weaver-crypto/src/lib.rs] and the
    [encode_*]/[decode_*] pairs that give each of them its canonical bytes.
    [Codec] states what such a pair promises: the decoder accepts exactly the
    encodings of well-formed payloads, so a payload has one encoding and the
    bytes a signature covers determine the payload that is acted upon. *)

From S2P Require Import Prelude Wire Core.

(* weaver-crypto/src/lib.rs:13-13 MEMBER_MAGIC *)
Definition MEMBER_MAGIC : bytes := bstr "WVRMEM" ++ [Byte.x00; Byte.x01].
(* weaver-crypto/src/lib.rs:14-14 ADMIN_MAGIC *)
Definition ADMIN_MAGIC : bytes := bstr "WVRADM" ++ [Byte.x00; Byte.x01].
(* weaver-crypto/src/lib.rs:15-15 ENDPOINT_MAGIC *)
Definition ENDPOINT_MAGIC : bytes := bstr "WVREND" ++ [Byte.x00; Byte.x01].
(* weaver-crypto/src/lib.rs:16-16 APP_REG_MAGIC *)
Definition APP_REG_MAGIC : bytes := bstr "WVRAPP" ++ [Byte.x00; Byte.x01].
(* weaver-crypto/src/lib.rs:17-17 APP_REG_REQUEST_MAGIC *)
Definition APP_REG_REQUEST_MAGIC : bytes := bstr "WVRAPR" ++ [Byte.x00; Byte.x01].
(* weaver-crypto/src/lib.rs:18-18 APP_BIND_MAGIC *)
Definition APP_BIND_MAGIC : bytes := bstr "WVRBND" ++ [Byte.x00; Byte.x01].
(* weaver-crypto/src/lib.rs:19-19 JOIN_REQUEST_MAGIC *)
Definition JOIN_REQUEST_MAGIC : bytes := bstr "WVRJNR" ++ [Byte.x00; Byte.x01].
(* weaver-crypto/src/lib.rs:20-20 PREPARED_JOIN_MAGIC *)
Definition PREPARED_JOIN_MAGIC : bytes := bstr "WVRPJR" ++ [Byte.x00; Byte.x01].
(* weaver-crypto/src/lib.rs:21-21 SIGNATURE_LEN *)
Definition SIGNATURE_LEN : nat := 64.
(* weaver-crypto/src/lib.rs:22-22 MEMBER_PAYLOAD_LEN *)
Definition MEMBER_PAYLOAD_LEN : nat := 8 + 32 + 32 + 32 + 32 + 4 + 8 + 8 + 8 + 16.
(* weaver-crypto/src/lib.rs:23-23 ADMIN_PAYLOAD_LEN *)
Definition ADMIN_PAYLOAD_LEN : nat := 8 + 32 + 16 + 32 + 4 + 8 + 8 + 8 + 16.
(* weaver-crypto/src/lib.rs:24-24 ENDPOINT_PAYLOAD_LEN *)
Definition ENDPOINT_PAYLOAD_LEN : nat := 8 + 32 + 32 + 32 + 8 + 8.
(* weaver-crypto/src/lib.rs:25-25 APP_REG_REQUEST_PAYLOAD_LEN *)
Definition APP_REG_REQUEST_PAYLOAD_LEN : nat := 8 + 32 + 32 + 32 + 4.
(* weaver-crypto/src/lib.rs:26-26 APP_REG_PAYLOAD_LEN *)
Definition APP_REG_PAYLOAD_LEN : nat := APP_REG_REQUEST_PAYLOAD_LEN + 16.
(* weaver-crypto/src/lib.rs:27-27 APP_BIND_FIXED_LEN *)
Definition APP_BIND_FIXED_LEN : nat := 8 + 32 + 32 + 32 + 1 + 1 + 32 + 8 + 2.
(* weaver-crypto/src/lib.rs:28-28 JOIN_REQUEST_PAYLOAD_LEN *)
Definition JOIN_REQUEST_PAYLOAD_LEN : nat := 8 + 32 + 32 + 32 + 32 + 32 + 32 + 4 + 8.
(* weaver-crypto/src/lib.rs:29-29 MAX_SERVICES_PER_BINDING *)
Definition MAX_SERVICES_PER_BINDING : Z := 64.

(* weaver-crypto/src/lib.rs:1276-1309 CertificateError *)
Inductive CertificateError : Type :=
| RandomnessUnavailable
| MalformedKey
| MalformedWire
| InvalidSignature
| WrongNetwork
| WrongIssuer
| NotYetValid
| Expired
| Revoked
| DerivedIdentityMismatch
| KeyMismatch
| BindingMismatch
| InvalidValidityWindow
| InvalidAppRole
| TooManyServices
| PermissionDenied.
#[global] Instance CertificateError_eq_dec : EqDecision CertificateError.
Proof. solve_decision. Defined.

(** ** Payloads *)
(* weaver-crypto/src/lib.rs:193-202 AdminCertificatePayload *)
Record AdminCertificatePayload : Type := {
  adm_network_id : NetworkId;
  adm_key_id : bytes;
  adm_public_key : bytes;
  adm_permissions : Z;
  adm_serial : Z;
  adm_not_before_ms : Z;
  adm_expires_at_ms : Z;
  adm_issuer_key_id : bytes;
}.

(* weaver-crypto/src/lib.rs:311-320 JoinRequestPayload *)
Record JoinRequestPayload : Type := {
  jr_network_id : NetworkId;
  jr_member_id : MemberId;
  jr_signing_public_key : bytes;
  jr_encryption_public_key : bytes;
  jr_endpoint_id : bytes;
  jr_nonce : bytes;
  jr_requested_roles : Z;
  jr_expires_at_ms : Z;
}.

(* weaver-crypto/src/lib.rs:580-590 MemberCertificatePayload *)
Record MemberCertificatePayload : Type := {
  mc_network_id : NetworkId;
  mc_member_id : MemberId;
  mc_signing_public_key : bytes;
  mc_encryption_public_key : bytes;
  mc_roles : Z;
  mc_serial : Z;
  mc_not_before_ms : Z;
  mc_expires_at_ms : Z;
  mc_issuer_key_id : bytes;
}.

(* weaver-crypto/src/lib.rs:807-813 EndpointBindingPayload *)
Record EndpointBindingPayload : Type := {
  eb_network_id : NetworkId;
  eb_member_id : MemberId;
  eb_endpoint_id : bytes;
  eb_sequence : Z;
  eb_expires_at_ms : Z;
}.

(* weaver-crypto/src/lib.rs:950-956 AppRegistrationPayload *)
Record AppRegistrationPayload : Type := {
  ar_network_id : NetworkId;
  ar_app_addr : AppAddr;
  ar_app_root_public_key : bytes;
  ar_policy : Z;
  ar_issuer_key_id : bytes;
}.

(* weaver-crypto/src/lib.rs:959-964 AppRegistrationRequestPayload *)
Record AppRegistrationRequestPayload : Type := {
  rq_network_id : NetworkId;
  rq_app_addr : AppAddr;
  rq_app_root_public_key : bytes;
  rq_policy : Z;
}.

(* weaver-crypto/src/lib.rs:1169-1172 AppRole *)
Inductive AppRole : Type := RoleServer | RoleClient.
#[global] Instance AppRole_eq_dec : EqDecision AppRole.
Proof. solve_decision. Defined.
#[global] Program Instance AppRole_countable : Countable AppRole :=
  inj_countable' (fun r => match r with RoleServer => true | RoleClient => false end)
    (fun b => if b : bool then RoleServer else RoleClient) _.
Next Obligation. by intros []. Qed.

(* weaver-crypto/src/lib.rs:1175-1183 AppBindingPayload *)
Record AppBindingPayload : Type := {
  ab_network_id : NetworkId;
  ab_app_addr : AppAddr;
  ab_subject : MemberId;
  ab_role : AppRole;
  ab_device_id : option DeviceId;
  ab_expires_at_ms : Z;
  ab_services : list ServiceId;
}.

(** ** What a payload codec promises *)
Class Codec (A E : Type) := {
  encode : A -> bytes;
  decode : bytes -> result E A;
  (** The ranges the field types guarantee. *)
  wire_wf : A -> Prop;
  decode_encode a : wire_wf a -> decode (encode a) = Ok a;
  decode_canonical bs a : decode bs = Ok a -> bs = encode a /\ wire_wf a;
}.

Lemma codec_exact `{Codec A E} (bs : bytes) (a : A) :
  decode (E := E) bs = Ok a <-> bs = encode a /\ wire_wf a.
Proof. split; [apply decode_canonical | intros [-> Ha]; by apply decode_encode]. Qed.

Lemma encode_inj `{Codec A E} (a b : A) : wire_wf a -> wire_wf b -> encode a = encode b -> a = b.
Proof.
  intros Ha Hb He; pose proof (decode_encode a Ha) as H1; rewrite He, (decode_encode b Hb) in H1; congruence.
Qed.

#[local] Abbreviation array := (d_array MalformedWire).
#[local] Abbreviation u8 := (d_u8 MalformedWire).
#[local] Abbreviation u16 := (d_u16 MalformedWire).
#[local] Abbreviation u32 := (d_u32 MalformedWire).
#[local] Abbreviation u64 := (d_u64 MalformedWire).
#[local] Abbreviation magic := (d_magic MalformedWire).
#[local] Abbreviation finish := (d_finish MalformedWire).

(** [decode_encode] and [decode_canonical] for a payload with encoder [enc],
    decoder [dec] and well-formedness [wf]. *)
Ltac destruct_ids :=
  repeat match goal with
  | n : NetworkId |- _ => destruct n
  | n : MemberId |- _ => destruct n
  | n : AppAddr |- _ => destruct n
  | n : DeviceId |- _ => destruct n
  end.
Ltac codec_forward enc dec wf :=
  let p := fresh in intros p Hp; destruct p; unfold wf in Hp; cbn in Hp; destruct_ids;
  destruct_and?; unfold dec; eapply run_steps; unfold enc; cbn -[to_be]; parse.
Ltac codec_backward enc dec wf :=
  intros bs a H; unfold dec in H; unparse; unfold enc, wf; cbn -[to_be in_range];
  split; [by rewrite ?app_nil_r | split_and!; done].

(** *** Administrator certificates *)
(* weaver-crypto/src/lib.rs:1377-1389 encode_admin_payload *)
Definition encode_admin_payload (p : AdminCertificatePayload) : bytes :=
  ADMIN_MAGIC ++ NetworkId_as_bytes (adm_network_id p) ++ adm_key_id p ++ adm_public_key p
  ++ to_be 4 (adm_permissions p) ++ to_be 8 (adm_serial p) ++ to_be 8 (adm_not_before_ms p)
  ++ to_be 8 (adm_expires_at_ms p) ++ adm_issuer_key_id p.
(* weaver-crypto/src/lib.rs:1391-1406 decode_admin_payload *)
Definition decode_admin_payload : bytes -> result CertificateError AdminCertificatePayload :=
  run_decoder (
    magic ADMIN_MAGIC;;
    network_id ← array 32; key_id ← array 16; public_key ← array 32;
    permissions ← u32; serial ← u64; not_before_ms ← u64; expires_at_ms ← u64;
    issuer_key_id ← array 16;
    finish;;
    mret {| adm_network_id := NetworkId_from_bytes network_id; adm_key_id := key_id;
            adm_public_key := public_key; adm_permissions := permissions; adm_serial := serial;
            adm_not_before_ms := not_before_ms; adm_expires_at_ms := expires_at_ms;
            adm_issuer_key_id := issuer_key_id |}).
Definition admin_payload_wf (p : AdminCertificatePayload) : Prop :=
  NetworkId_wf (adm_network_id p) /\ length (adm_key_id p) = 16%nat /\
  length (adm_public_key p) = 32%nat /\ is_u32 (adm_permissions p) = true /\
  is_u64 (adm_serial p) = true /\ is_u64 (adm_not_before_ms p) = true /\
  is_u64 (adm_expires_at_ms p) = true /\ length (adm_issuer_key_id p) = 16%nat.

#[global] Program Instance admin_codec : Codec AdminCertificatePayload CertificateError := {|
  encode := encode_admin_payload; decode := decode_admin_payload; wire_wf := admin_payload_wf;
|}.
Next Obligation. codec_forward encode_admin_payload decode_admin_payload admin_payload_wf. Qed.
Next Obligation. codec_backward encode_admin_payload decode_admin_payload admin_payload_wf. Qed.

(** *** Join requests *)
(* weaver-crypto/src/lib.rs:1408-1420 encode_join_request_payload *)
Definition encode_join_request_payload (p : JoinRequestPayload) : bytes :=
  JOIN_REQUEST_MAGIC ++ NetworkId_as_bytes (jr_network_id p) ++ MemberId_as_bytes (jr_member_id p)
  ++ jr_signing_public_key p ++ jr_encryption_public_key p ++ jr_endpoint_id p ++ jr_nonce p
  ++ to_be 4 (jr_requested_roles p) ++ to_be 8 (jr_expires_at_ms p).
(* weaver-crypto/src/lib.rs:1422-1437 decode_join_request_payload *)
Definition decode_join_request_payload : bytes -> result CertificateError JoinRequestPayload :=
  run_decoder (
    magic JOIN_REQUEST_MAGIC;;
    network_id ← array 32; member_id ← array 32; signing_public_key ← array 32;
    encryption_public_key ← array 32; endpoint_id ← array 32; nonce ← array 32;
    requested_roles ← u32; expires_at_ms ← u64;
    finish;;
    mret {| jr_network_id := NetworkId_from_bytes network_id;
            jr_member_id := MemberId_from_bytes member_id;
            jr_signing_public_key := signing_public_key;
            jr_encryption_public_key := encryption_public_key;
            jr_endpoint_id := endpoint_id; jr_nonce := nonce;
            jr_requested_roles := requested_roles; jr_expires_at_ms := expires_at_ms |}).
Definition join_request_payload_wf (p : JoinRequestPayload) : Prop :=
  NetworkId_wf (jr_network_id p) /\ MemberId_wf (jr_member_id p) /\
  length (jr_signing_public_key p) = 32%nat /\ length (jr_encryption_public_key p) = 32%nat /\
  length (jr_endpoint_id p) = 32%nat /\ length (jr_nonce p) = 32%nat /\
  is_u32 (jr_requested_roles p) = true /\ is_u64 (jr_expires_at_ms p) = true.

#[global] Program Instance join_request_codec : Codec JoinRequestPayload CertificateError := {|
  encode := encode_join_request_payload; decode := decode_join_request_payload;
  wire_wf := join_request_payload_wf;
|}.
Next Obligation.
  codec_forward encode_join_request_payload decode_join_request_payload join_request_payload_wf.
Qed.
Next Obligation.
  codec_backward encode_join_request_payload decode_join_request_payload join_request_payload_wf.
Qed.

(** *** Member certificates *)
(* weaver-crypto/src/lib.rs:1439-1452 encode_member_payload *)
Definition encode_member_payload (p : MemberCertificatePayload) : bytes :=
  MEMBER_MAGIC ++ NetworkId_as_bytes (mc_network_id p) ++ MemberId_as_bytes (mc_member_id p)
  ++ mc_signing_public_key p ++ mc_encryption_public_key p ++ to_be 4 (mc_roles p)
  ++ to_be 8 (mc_serial p) ++ to_be 8 (mc_not_before_ms p) ++ to_be 8 (mc_expires_at_ms p)
  ++ mc_issuer_key_id p.
(* weaver-crypto/src/lib.rs:1454-1470 decode_member_payload *)
Definition decode_member_payload : bytes -> result CertificateError MemberCertificatePayload :=
  run_decoder (
    magic MEMBER_MAGIC;;
    network_id ← array 32; member_id ← array 32; signing_public_key ← array 32;
    encryption_public_key ← array 32; roles ← u32; serial ← u64; not_before_ms ← u64;
    expires_at_ms ← u64; issuer_key_id ← array 16;
    finish;;
    mret {| mc_network_id := NetworkId_from_bytes network_id;
            mc_member_id := MemberId_from_bytes member_id;
            mc_signing_public_key := signing_public_key;
            mc_encryption_public_key := encryption_public_key; mc_roles := roles;
            mc_serial := serial; mc_not_before_ms := not_before_ms;
            mc_expires_at_ms := expires_at_ms; mc_issuer_key_id := issuer_key_id |}).
Definition member_payload_wf (p : MemberCertificatePayload) : Prop :=
  NetworkId_wf (mc_network_id p) /\ MemberId_wf (mc_member_id p) /\
  length (mc_signing_public_key p) = 32%nat /\ length (mc_encryption_public_key p) = 32%nat /\
  is_u32 (mc_roles p) = true /\ is_u64 (mc_serial p) = true /\
  is_u64 (mc_not_before_ms p) = true /\ is_u64 (mc_expires_at_ms p) = true /\
  length (mc_issuer_key_id p) = 16%nat.

#[global] Program Instance member_codec : Codec MemberCertificatePayload CertificateError := {|
  encode := encode_member_payload; decode := decode_member_payload; wire_wf := member_payload_wf;
|}.
Next Obligation. codec_forward encode_member_payload decode_member_payload member_payload_wf. Qed.
Next Obligation. codec_backward encode_member_payload decode_member_payload member_payload_wf. Qed.

(** *** Endpoint bindings *)
(* weaver-crypto/src/lib.rs:1472-1481 encode_endpoint_payload *)
Definition encode_endpoint_payload (p : EndpointBindingPayload) : bytes :=
  ENDPOINT_MAGIC ++ NetworkId_as_bytes (eb_network_id p) ++ MemberId_as_bytes (eb_member_id p)
  ++ eb_endpoint_id p ++ to_be 8 (eb_sequence p) ++ to_be 8 (eb_expires_at_ms p).
(* weaver-crypto/src/lib.rs:1483-1495 decode_endpoint_payload *)
Definition decode_endpoint_payload : bytes -> result CertificateError EndpointBindingPayload :=
  run_decoder (
    magic ENDPOINT_MAGIC;;
    network_id ← array 32; member_id ← array 32; endpoint_id ← array 32;
    sequence ← u64; expires_at_ms ← u64;
    finish;;
    mret {| eb_network_id := NetworkId_from_bytes network_id;
            eb_member_id := MemberId_from_bytes member_id; eb_endpoint_id := endpoint_id;
            eb_sequence := sequence; eb_expires_at_ms := expires_at_ms |}).
Definition endpoint_payload_wf (p : EndpointBindingPayload) : Prop :=
  NetworkId_wf (eb_network_id p) /\ MemberId_wf (eb_member_id p) /\
  length (eb_endpoint_id p) = 32%nat /\ is_u64 (eb_sequence p) = true /\
  is_u64 (eb_expires_at_ms p) = true.

#[global] Program Instance endpoint_codec : Codec EndpointBindingPayload CertificateError := {|
  encode := encode_endpoint_payload; decode := decode_endpoint_payload; wire_wf := endpoint_payload_wf;
|}.
Next Obligation. codec_forward encode_endpoint_payload decode_endpoint_payload endpoint_payload_wf. Qed.
Next Obligation. codec_backward encode_endpoint_payload decode_endpoint_payload endpoint_payload_wf. Qed.

(** *** Application registrations *)
(* weaver-crypto/src/lib.rs:1497-1506 encode_app_registration_payload *)
Definition encode_app_registration_payload (p : AppRegistrationPayload) : bytes :=
  APP_REG_MAGIC ++ NetworkId_as_bytes (ar_network_id p) ++ AppAddr_as_bytes (ar_app_addr p)
  ++ ar_app_root_public_key p ++ to_be 4 (ar_policy p) ++ ar_issuer_key_id p.
(* weaver-crypto/src/lib.rs:1508-1522 decode_app_registration_payload *)
Definition decode_app_registration_payload : bytes -> result CertificateError AppRegistrationPayload :=
  run_decoder (
    magic APP_REG_MAGIC;;
    network_id ← array 32; app_addr ← array 32; app_root_public_key ← array 32;
    policy ← u32; issuer_key_id ← array 16;
    finish;;
    mret {| ar_network_id := NetworkId_from_bytes network_id;
            ar_app_addr := AppAddr_from_bytes app_addr;
            ar_app_root_public_key := app_root_public_key; ar_policy := policy;
            ar_issuer_key_id := issuer_key_id |}).
Definition app_registration_payload_wf (p : AppRegistrationPayload) : Prop :=
  NetworkId_wf (ar_network_id p) /\ AppAddr_wf (ar_app_addr p) /\
  length (ar_app_root_public_key p) = 32%nat /\ is_u32 (ar_policy p) = true /\
  length (ar_issuer_key_id p) = 16%nat.

#[global] Program Instance app_registration_codec : Codec AppRegistrationPayload CertificateError := {|
  encode := encode_app_registration_payload; decode := decode_app_registration_payload;
  wire_wf := app_registration_payload_wf;
|}.
Next Obligation.
  codec_forward encode_app_registration_payload decode_app_registration_payload app_registration_payload_wf.
Qed.
Next Obligation.
  codec_backward encode_app_registration_payload decode_app_registration_payload app_registration_payload_wf.
Qed.

(* weaver-crypto/src/lib.rs:1524-1532 encode_app_registration_request_payload *)
Definition encode_app_registration_request_payload (p : AppRegistrationRequestPayload) : bytes :=
  APP_REG_REQUEST_MAGIC ++ NetworkId_as_bytes (rq_network_id p) ++ AppAddr_as_bytes (rq_app_addr p)
  ++ rq_app_root_public_key p ++ to_be 4 (rq_policy p).
(* weaver-crypto/src/lib.rs:1534-1547 decode_app_registration_request_payload *)
Definition decode_app_registration_request_payload
    : bytes -> result CertificateError AppRegistrationRequestPayload :=
  run_decoder (
    magic APP_REG_REQUEST_MAGIC;;
    network_id ← array 32; app_addr ← array 32; app_root_public_key ← array 32; policy ← u32;
    finish;;
    mret {| rq_network_id := NetworkId_from_bytes network_id;
            rq_app_addr := AppAddr_from_bytes app_addr;
            rq_app_root_public_key := app_root_public_key; rq_policy := policy |}).
Definition app_request_payload_wf (p : AppRegistrationRequestPayload) : Prop :=
  NetworkId_wf (rq_network_id p) /\ AppAddr_wf (rq_app_addr p) /\
  length (rq_app_root_public_key p) = 32%nat /\ is_u32 (rq_policy p) = true.

#[global] Program Instance app_request_codec : Codec AppRegistrationRequestPayload CertificateError := {|
  encode := encode_app_registration_request_payload;
  decode := decode_app_registration_request_payload;
  wire_wf := app_request_payload_wf;
|}.
Next Obligation.
  codec_forward encode_app_registration_request_payload decode_app_registration_request_payload
    app_request_payload_wf.
Qed.
Next Obligation.
  codec_backward encode_app_registration_request_payload decode_app_registration_request_payload
    app_request_payload_wf.
Qed.

(** *** Application bindings *)
(* weaver-crypto/src/lib.rs:1354-1359 validate_app_role *)
Definition validate_app_role (role : AppRole) (device : option DeviceId) : result CertificateError unit :=
  match role, device with
  | RoleServer, None | RoleClient, Some _ => Ok tt
  | _, _ => Err InvalidAppRole
  end.
(* weaver-crypto/src/lib.rs:1555-1558 encode_app_binding_payload *)
Definition role_byte (role : AppRole) : Z := match role with RoleServer => 0 | RoleClient => 1 end.
(* weaver-crypto/src/lib.rs:1581-1585 decode_app_binding_payload *)
Definition decode_role (b : Z) : result CertificateError AppRole :=
  match b with 0 => Ok RoleServer | 1 => Ok RoleClient | _ => Err MalformedWire end.
(* weaver-crypto/src/lib.rs:1559-1566 encode_app_binding_payload *)
Definition device_flag (device : option DeviceId) : Z :=
  match device with Some _ => 1 | None => 0 end.
Definition device_bytes (device : option DeviceId) : bytes :=
  match device with Some d => DeviceId_as_bytes d | None => zero32 end.
(* weaver-crypto/src/lib.rs:1588-1592 decode_app_binding_payload *)
Definition decode_device (present : Z) (bs : bytes) : result CertificateError (option DeviceId) :=
  match present with
  | 0 => if decide (bs = zero32) then Ok None else Err MalformedWire
  | 1 => Ok (Some (DeviceId_from_bytes bs))
  | _ => Err MalformedWire
  end.
(* weaver-crypto/src/lib.rs:1549-1573 encode_app_binding_payload *)
Definition encode_app_binding_payload (p : AppBindingPayload) : bytes :=
  APP_BIND_MAGIC ++ NetworkId_as_bytes (ab_network_id p) ++ AppAddr_as_bytes (ab_app_addr p)
  ++ MemberId_as_bytes (ab_subject p)
  ++ to_be 1 (role_byte (ab_role p)) ++ to_be 1 (device_flag (ab_device_id p))
  ++ device_bytes (ab_device_id p)
  ++ to_be 8 (ab_expires_at_ms p) ++ to_be 2 (len (ab_services p))
  ++ concat (ServiceId_as_bytes <$> ab_services p).
(* weaver-crypto/src/lib.rs:1575-1613 decode_app_binding_payload *)
Definition decode_app_binding_payload : bytes -> result CertificateError AppBindingPayload :=
  run_decoder (
    magic APP_BIND_MAGIC;;
    network_id ← array 32; app_addr ← array 32; subject ← array 32;
    role ← u8; role ← lift (decode_role role);
    device_present ← u8; device_bytes ← array 32;
    device_id ← lift (decode_device device_present device_bytes);
    expires_at_ms ← u64;
    service_count ← u16;
    lift (fail_if (MAX_SERVICES_PER_BINDING <? service_count) TooManyServices);;
    services ← d_repeat (bs ← array 16; mret (ServiceId_from_bytes bs)) (Z.to_nat service_count);
    finish;;
    lift (validate_app_role role device_id);;
    mret {| ab_network_id := NetworkId_from_bytes network_id;
            ab_app_addr := AppAddr_from_bytes app_addr;
            ab_subject := MemberId_from_bytes subject;
            ab_role := role; ab_device_id := device_id; ab_expires_at_ms := expires_at_ms;
            ab_services := services |}).
Definition app_binding_payload_wf (p : AppBindingPayload) : Prop :=
  NetworkId_wf (ab_network_id p) /\ AppAddr_wf (ab_app_addr p) /\ MemberId_wf (ab_subject p) /\
  (match ab_device_id p with Some d => DeviceId_wf d | None => True end) /\
  validate_app_role (ab_role p) (ab_device_id p) = Ok tt /\
  is_u64 (ab_expires_at_ms p) = true /\ len (ab_services p) <= MAX_SERVICES_PER_BINDING /\
  Forall ServiceId_wf (ab_services p).

Lemma decode_role_Ok b role : decode_role b = Ok role <-> b = role_byte role.
Proof. destruct role, b as [|[]|]; cbn; split; congruence. Qed.

Lemma decode_device_Ok present bs device :
  decode_device present bs = Ok device <-> present = device_flag device /\ bs = device_bytes device.
Proof.
  unfold decode_device; split.
  - destruct present as [|[]|]; try case_decide; intros [= <-]; subst; done.
  - destruct device as [[d]|]; intros [-> ->]; cbn; [done | by rewrite decide_True].
Qed.

Lemma steps_service (s : ServiceId) (rest : bytes) :
  ServiceId_wf s ->
  steps (bs ← array 16; mret (ServiceId_from_bytes bs)) (ServiceId_as_bytes s ++ rest) s rest.
Proof. destruct s as [bs]; intros Hs; parse. Qed.

#[global] Instance reads_service :
  Reads (bs ← array 16; mret (ServiceId_from_bytes bs)) (fun s y => y = ServiceId_as_bytes s /\ ServiceId_wf s).
Proof. intros d s a d' Hs H; unparse; eauto 6. Qed.

#[global] Program Instance app_binding_codec : Codec AppBindingPayload CertificateError := {|
  encode := encode_app_binding_payload; decode := decode_app_binding_payload;
  wire_wf := app_binding_payload_wf;
|}.
Next Obligation.
  intros [[n] [a] [m] role dev ex ss] (Hn & Ha & Hm & Hd & Hr & He & Hl & Hs); cbn in *.
  assert (Hf : fail_if (MAX_SERVICES_PER_BINDING <? len ss) TooManyServices = Ok tt).
  { apply fail_if_Ok, Z.ltb_ge; done. }
  assert (Hc : is_u16 (len ss) = true).
  { unfold in_range, MAX_SERVICES_PER_BINDING, len in *; apply andb_true_iff; rewrite Z.leb_le, Z.ltb_lt; lia. }
  assert (Hrb : is_u8 (role_byte role) = true /\ decode_role (role_byte role) = Ok role).
  { split; [by destruct role | by apply decode_role_Ok]. }
  assert (Hdb : is_u8 (device_flag dev) = true /\ length (device_bytes dev) = 32%nat /\
                decode_device (device_flag dev) (device_bytes dev) = Ok dev).
  { split_and!; [by destruct dev | by destruct dev | by apply decode_device_Ok]. }
  destruct Hrb, Hdb as (? & ? & ?).
  assert (Hrep : forall s, steps (d_repeat (bs ← array 16; mret (ServiceId_from_bytes bs)) (Z.to_nat (len ss)))
                          (concat (ServiceId_as_bytes <$> ss) ++ s) ss s).
  { intros s; unfold len; rewrite Nat2Z.id; eapply steps_repeat; [exact steps_service | done]. }
  unfold decode_app_binding_payload; eapply run_steps; unfold encode_app_binding_payload; cbn -[to_be].
  parse.
Qed.
Next Obligation.
  intros bs p H; unfold decode_app_binding_payload in H; unparse.
  repeat match goal with
  | Hys : exists ys, _ |- _ => destruct Hys as (? & [-> ?]%Forall2_image & ->)
  | Hr : decode_role _ = Ok _ |- _ => apply decode_role_Ok in Hr as ->
  | Hr : decode_device _ _ = Ok _ |- _ => apply decode_device_Ok in Hr as [-> ->]
  | Hr : fail_if _ _ = Ok _ |- _ => apply fail_if_Ok, Z.ltb_ge in Hr
  | Hl : length ?l = Z.to_nat ?z, Hz : is_u16 ?z = true |- _ =>
      assert (z = len l) as -> by (unfold in_range, len in *; bool_inv; lia); clear Hl
  end.
  unfold encode_app_binding_payload, app_binding_payload_wf; cbn -[to_be in_range].
  split; [by rewrite app_nil_r | split_and!; try done]; by case_match.
Qed.
