(* ===== verification/Certificates.v ===== *)
(** * weaver-crypto: the certificate chain

    Models the rest of [crates/weaver-crypto/src/lib.rs]: keys, the derived
    identities, and issuing, parsing and verifying each credential of the chain
    (network root, administrator, member, endpoint; application registration
    and binding; join request).  Ed25519 (ed25519-dalek) and BLAKE3 are external:
    their operations are type classes and the laws state what the signature
    scheme and the hash document.  A [VerifyingKey] is represented by its
    compressed bytes, a signing key by its seed. *)

From S2P Require Import Prelude Wire Core CertificateWire.

(** ** The primitives *)
Class Ed25519 : Type := {
  (** [VerifyingKey::from_bytes(bytes).is_ok()] *)
  vk_valid : bytes -> bool;
  (** [SigningKey::from_bytes(seed).verifying_key().to_bytes()] *)
  ed_public : bytes -> bytes;
  (** [SigningKey::from_bytes(seed).sign(message).to_bytes()] *)
  ed_sign : bytes -> bytes -> bytes;
  (** [key.verify(message, &Signature::from_bytes(signature)).is_ok()] *)
  ed_verify : bytes -> bytes -> bytes -> bool;
}.
Class Ed25519Laws `{Ed25519} : Prop := {
  ed_public_valid seed : length seed = 32%nat -> vk_valid (ed_public seed) = true;
  ed_public_len seed : length seed = 32%nat -> length (ed_public seed) = 32%nat;
  ed_sign_len seed m : length seed = 32%nat -> length (ed_sign seed m) = 64%nat;
  ed_verify_sign seed m : length seed = 32%nat -> ed_verify (ed_public seed) m (ed_sign seed m) = true;
}.
Class Blake3 : Type := {
  (** [blake3::derive_key(context, material)], also as a derive-key hasher fed in pieces *)
  derive_key : bytes -> bytes -> bytes;
  (** [blake3::hash(bytes)] *)
  blake3_hash : bytes -> bytes;
  (** [blake3::Hasher::new_keyed(key)] fed with a message in pieces *)
  keyed_hash : bytes -> bytes -> bytes;
}.
Class Blake3Laws `{Blake3} : Prop := {
  derive_key_len context material : length (derive_key context material) = 32%nat;
  blake3_hash_len bs : length (blake3_hash bs) = 32%nat;
  keyed_hash_len key bs : length (keyed_hash key bs) = 32%nat;
}.

(* weaver-crypto/src/lib.rs:30-30 ADMIN_PERMISSION_CONFIG_WRITE *)
Definition ADMIN_PERMISSION_CONFIG_WRITE : Z := Z.shiftl 1 0.
(* weaver-crypto/src/lib.rs:31-31 ADMIN_PERMISSION_ISSUE_MEMBER *)
Definition ADMIN_PERMISSION_ISSUE_MEMBER : Z := Z.shiftl 1 1.
(* weaver-crypto/src/lib.rs:32-32 ADMIN_PERMISSION_REVOKE *)
Definition ADMIN_PERMISSION_REVOKE : Z := Z.shiftl 1 2.
(* weaver-crypto/src/lib.rs:33-33 ADMIN_PERMISSION_REGISTER_APP *)
Definition ADMIN_PERMISSION_REGISTER_APP : Z := Z.shiftl 1 3.
(* weaver-crypto/src/lib.rs:34-37 ADMIN_PERMISSION_ALL *)
Definition ADMIN_PERMISSION_ALL : Z :=
  Z.lor (Z.lor (Z.lor ADMIN_PERMISSION_CONFIG_WRITE ADMIN_PERMISSION_ISSUE_MEMBER)
    ADMIN_PERMISSION_REVOKE) ADMIN_PERMISSION_REGISTER_APP.

(** [MemberRoles] is its bits. *)
Module MemberRoles.
(* weaver-crypto/src/lib.rs:556-556 MemberRoles::MEMBER *)
Definition MEMBER : Z := Z.shiftl 1 0.
(* weaver-crypto/src/lib.rs:557-557 MemberRoles::SERVICE *)
Definition SERVICE : Z := Z.shiftl 1 1.
(* weaver-crypto/src/lib.rs:558-558 MemberRoles::RELAY *)
Definition RELAY : Z := Z.shiftl 1 2.
(* weaver-crypto/src/lib.rs:559-559 MemberRoles::BOOTSTRAP *)
Definition BOOTSTRAP : Z := Z.shiftl 1 3.
(* weaver-crypto/src/lib.rs:560-560 MemberRoles::AUTHORITY *)
Definition AUTHORITY : Z := Z.shiftl 1 4.
(* weaver-crypto/src/lib.rs:570-572 MemberRoles::union *)
Definition union (a b : Z) : Z := Z.lor a b.
(* weaver-crypto/src/lib.rs:574-576 MemberRoles::contains *)
Definition contains (a b : Z) : bool := Z.land a b =? b.
End MemberRoles.

(** ** Signed structures: a payload, the exact bytes signed, and the signature *)
Record Signed (P : Type) : Type := mkSigned {
  payload : P;
  signed_payload : bytes;
  signature : bytes;
}.
Arguments mkSigned {P} _ _ _.
Arguments payload {P} _.
Arguments signed_payload {P} _.
Arguments signature {P} _.

(* weaver-crypto/src/lib.rs:1370-1375 append_signature *)
Definition append_signature (payload signature : bytes) : bytes := payload ++ signature.
(* weaver-crypto/src/lib.rs:260-262 to_bytes *)
Definition to_bytes {P} (c : Signed P) : bytes := append_signature (signed_payload c) (signature c).

(** The shape shared by every fixed-length [from_bytes]. *)
Definition signed_from_bytes {P} (payload_len : nat) (decode_payload : bytes -> result CertificateError P)
    (bs : bytes) : result CertificateError (Signed P) :=
  fail_if (negb (Nat.eqb (length bs) (payload_len + SIGNATURE_LEN))) MalformedWire;;
  let signed_payload := take payload_len bs in
  payload ← decode_payload signed_payload;
  Ok (mkSigned payload signed_payload (drop payload_len bs)).

Abbreviation AdminCertificate := (Signed AdminCertificatePayload).
Abbreviation JoinRequest := (Signed JoinRequestPayload).
Abbreviation MemberCertificate := (Signed MemberCertificatePayload).
Abbreviation EndpointBinding := (Signed EndpointBindingPayload).
Abbreviation AppRegistration := (Signed AppRegistrationPayload).
Abbreviation AppRegistrationRequest := (Signed AppRegistrationRequestPayload).
Abbreviation AppBinding := (Signed AppBindingPayload).

(* weaver-crypto/src/lib.rs:244-258 AdminCertificate::from_bytes *)
Definition AdminCertificate_from_bytes : bytes -> result CertificateError AdminCertificate :=
  signed_from_bytes ADMIN_PAYLOAD_LEN decode_admin_payload.
(* weaver-crypto/src/lib.rs:362-376 JoinRequest::from_bytes *)
Definition JoinRequest_from_bytes : bytes -> result CertificateError JoinRequest :=
  signed_from_bytes JOIN_REQUEST_PAYLOAD_LEN decode_join_request_payload.
(* weaver-crypto/src/lib.rs:634-648 MemberCertificate::from_bytes *)
Definition MemberCertificate_from_bytes : bytes -> result CertificateError MemberCertificate :=
  signed_from_bytes MEMBER_PAYLOAD_LEN decode_member_payload.
(* weaver-crypto/src/lib.rs:875-889 EndpointBinding::from_bytes *)
Definition EndpointBinding_from_bytes : bytes -> result CertificateError EndpointBinding :=
  signed_from_bytes ENDPOINT_PAYLOAD_LEN decode_endpoint_payload.
(* weaver-crypto/src/lib.rs:990-1004 AppRegistrationRequest::from_bytes *)
Definition AppRegistrationRequest_from_bytes : bytes -> result CertificateError AppRegistrationRequest :=
  signed_from_bytes APP_REG_REQUEST_PAYLOAD_LEN decode_app_registration_request_payload.
(* weaver-crypto/src/lib.rs:1093-1107 AppRegistration::from_bytes *)
Definition AppRegistration_from_bytes : bytes -> result CertificateError AppRegistration :=
  signed_from_bytes APP_REG_PAYLOAD_LEN decode_app_registration_payload.
(* weaver-crypto/src/lib.rs:1224-1239 AppBinding::from_bytes *)
Definition AppBinding_from_bytes (bs : bytes) : result CertificateError AppBinding :=
  fail_if (Nat.ltb (length bs) (APP_BIND_FIXED_LEN + SIGNATURE_LEN)) MalformedWire;;
  let payload_len := (length bs - SIGNATURE_LEN)%nat in
  let signed_payload := take payload_len bs in
  payload ← decode_app_binding_payload signed_payload;
  Ok (mkSigned payload signed_payload (drop payload_len bs)).

(* weaver-crypto/src/lib.rs:1344-1352 validate_time *)
Definition validate_time (not_before expires now : Z) : result CertificateError unit :=
  if now <? not_before then Err NotYetValid
  else if expires <=? now then Err Expired
  else Ok tt.

(* weaver-crypto/src/lib.rs:790-795 presence_signature_transcript *)
Definition presence_signature_transcript (payload : bytes) : bytes :=
  bstr "weaver.member-presence-signature.v1" ++ [Byte.x00] ++ payload.

(* weaver-crypto/src/lib.rs:305-308 VerifiedAdmin *)
Record VerifiedAdmin : Type := mkVerifiedAdmin {
  va_payload : AdminCertificatePayload;
  va_verifying_key : bytes;
}.
(* weaver-crypto/src/lib.rs:416-422 VerifiedJoinRequest *)
Record VerifiedJoinRequest : Type := mkVerifiedJoinRequest { vjr_payload : JoinRequestPayload }.
(* weaver-crypto/src/lib.rs:798-804 VerifiedMember *)
Record VerifiedMember : Type := mkVerifiedMember { vm_payload : MemberCertificatePayload }.
(* weaver-crypto/src/lib.rs:1028-1034 VerifiedAppRegistrationRequest *)
Record VerifiedAppRegistrationRequest : Type := mkVerifiedAppRequest {
  vrq_payload : AppRegistrationRequestPayload }.
(* weaver-crypto/src/lib.rs:1160-1166 VerifiedApp *)
Record VerifiedApp : Type := mkVerifiedApp { vapp_payload : AppRegistrationPayload }.
(* weaver-crypto/src/lib.rs:80-84 NetworkRootPublic *)
Record NetworkRootPublic : Type := mkNetworkRootPublic {
  root_verifying_key : bytes;
  root_network_id : NetworkId;
  root_key_id : bytes;
}.
(* weaver-crypto/src/lib.rs:425-428 PreparedJoinRequest *)
Record PreparedJoinRequest : Type := mkPreparedJoinRequest {
  pj_request : JoinRequest;
  pj_endpoint_binding : EndpointBinding;
}.

(* weaver-crypto/src/lib.rs:461-471 PreparedJoinRequest::to_bytes *)
Definition PreparedJoinRequest_to_bytes (p : PreparedJoinRequest) : bytes :=
  let request := to_bytes (pj_request p) in
  let endpoint := to_bytes (pj_endpoint_binding p) in
  PREPARED_JOIN_MAGIC ++ to_be 4 (len request) ++ request ++ to_be 4 (len endpoint) ++ endpoint.
(* weaver-crypto/src/lib.rs:473-491 PreparedJoinRequest::from_bytes *)
Definition PreparedJoinRequest_from_bytes : bytes -> result CertificateError PreparedJoinRequest :=
  run_decoder (
    d_magic MalformedWire PREPARED_JOIN_MAGIC;;
    request_len ← d_u32 MalformedWire;
    lift (fail_if (negb (request_len =? Z.of_nat (JOIN_REQUEST_PAYLOAD_LEN + SIGNATURE_LEN))) MalformedWire);;
    request ← d_take MalformedWire request_len;
    request ← lift (JoinRequest_from_bytes request);
    endpoint_len ← d_u32 MalformedWire;
    lift (fail_if (negb (endpoint_len =? Z.of_nat (ENDPOINT_PAYLOAD_LEN + SIGNATURE_LEN))) MalformedWire);;
    endpoint ← d_take MalformedWire endpoint_len;
    endpoint_binding ← lift (EndpointBinding_from_bytes endpoint);
    d_finish MalformedWire;;
    mret (mkPreparedJoinRequest request endpoint_binding)).

(* weaver-crypto/src/lib.rs:39-54 SigningKeypair *)
Record SigningKeypair : Type := SigningKeypair_from_bytes { sk_seed : bytes }.
(* weaver-crypto/src/lib.rs:118-131 NetworkRootKey *)
Record NetworkRootKey : Type := NetworkRootKey_from_bytes { root_seed : bytes }.
(* weaver-crypto/src/lib.rs:155-168 OnlineAdminKey *)
Record OnlineAdminKey : Type := OnlineAdminKey_from_bytes { admin_seed : bytes }.
(* weaver-crypto/src/lib.rs:519-532 AppRootKey *)
Record AppRootKey : Type := AppRootKey_from_bytes { app_seed : bytes }.

Section chain.
Context `{Ed25519} `{Blake3}.

(** ** Derived identities *)
(* weaver-crypto/src/lib.rs:1311-1313 derive_network_id *)
Definition derive_network_id (root_public_key : bytes) : NetworkId :=
  NetworkId_from_bytes (derive_key (bstr "weaver.network.v1") root_public_key).
(* weaver-crypto/src/lib.rs:1315-1320 derive_member_id *)
Definition derive_member_id (network_id : NetworkId) (signing_public_key : bytes) : MemberId :=
  MemberId_from_bytes (derive_key (bstr "weaver.member.v1")
    (NetworkId_as_bytes network_id ++ signing_public_key)).
(* weaver-crypto/src/lib.rs:1322-1324 derive_app_addr *)
Definition derive_app_addr (app_root_public_key : bytes) : AppAddr :=
  AppAddr_from_bytes (derive_key (bstr "weaver.app.v1") app_root_public_key).
(* weaver-crypto/src/lib.rs:1326-1336 derive_device_id *)
Definition derive_device_id (network_id : NetworkId) (app_addr : AppAddr) (member_signing_public_key : bytes)
    : DeviceId :=
  DeviceId_from_bytes (derive_key (bstr "weaver.device.v1")
    (NetworkId_as_bytes network_id ++ AppAddr_as_bytes app_addr ++ member_signing_public_key)).
(* weaver-crypto/src/lib.rs:1338-1342 derive_key_id *)
Definition derive_key_id (context key : bytes) : bytes := take 16 (derive_key context key).
Definition ROOT_KEY_ID : bytes := bstr "weaver.network-root-key-id.v1".
Definition ADMIN_KEY_ID : bytes := bstr "weaver.online-admin-key-id.v1".

(* weaver-crypto/src/lib.rs:1361-1368 verify_signature *)
Definition verify_signature (key payload signature : bytes) : result CertificateError unit :=
  fail_if (negb (ed_verify key payload signature)) InvalidSignature.
(** [VerifyingKey::from_bytes(..).map_err(|_| MalformedKey)] *)
Definition verifying_key (bs : bytes) : result CertificateError bytes :=
  fail_if (negb (vk_valid bs)) MalformedKey;; Ok bs.

(* weaver-crypto/src/lib.rs:56-58 SigningKeypair::public_bytes *)
Definition SigningKeypair_public_bytes (k : SigningKeypair) : bytes := ed_public (sk_seed k).
(* weaver-crypto/src/lib.rs:60-62 SigningKeypair::sign *)
Definition SigningKeypair_sign (k : SigningKeypair) (payload : bytes) : bytes := ed_sign (sk_seed k) payload.
(* weaver-crypto/src/lib.rs:65-67 SigningKeypair::sign_presence *)
Definition sign_presence (k : SigningKeypair) (exact_payload : bytes) : bytes :=
  SigningKeypair_sign k (presence_signature_transcript exact_payload).
(* weaver-crypto/src/lib.rs:87-95 NetworkRootPublic::from_bytes *)
Definition NetworkRootPublic_from_bytes (bs : bytes) : result CertificateError NetworkRootPublic :=
  key ← verifying_key bs;
  Ok (mkNetworkRootPublic key (derive_network_id bs) (derive_key_id ROOT_KEY_ID bs)).
(* weaver-crypto/src/lib.rs:109-115 NetworkRootPublic::verify_bytes *)
Definition NetworkRootPublic_verify_bytes (root : NetworkRootPublic) (payload signature : bytes)
    : result CertificateError unit := verify_signature (root_verifying_key root) payload signature.
(** [NetworkRootPublic::from_bytes(..).expect(..)]: the key of a seed is valid. *)
(* weaver-crypto/src/lib.rs:133-135 NetworkRootKey::public *)
Definition NetworkRootKey_public (k : NetworkRootKey) : NetworkRootPublic :=
  let bs := ed_public (root_seed k) in
  mkNetworkRootPublic bs (derive_network_id bs) (derive_key_id ROOT_KEY_ID bs).
(* weaver-crypto/src/lib.rs:137-139 NetworkRootKey::sign_bytes *)
Definition NetworkRootKey_sign_bytes (k : NetworkRootKey) (payload : bytes) : bytes := ed_sign (root_seed k) payload.
(* weaver-crypto/src/lib.rs:170-172 OnlineAdminKey::public_bytes *)
Definition OnlineAdminKey_public_bytes (k : OnlineAdminKey) : bytes := ed_public (admin_seed k).
(* weaver-crypto/src/lib.rs:174-176 OnlineAdminKey::key_id *)
Definition OnlineAdminKey_key_id (k : OnlineAdminKey) : bytes :=
  derive_key_id ADMIN_KEY_ID (OnlineAdminKey_public_bytes k).
(* weaver-crypto/src/lib.rs:178-180 OnlineAdminKey::sign_bytes *)
Definition OnlineAdminKey_sign_bytes (k : OnlineAdminKey) (payload : bytes) : bytes := ed_sign (admin_seed k) payload.
(* weaver-crypto/src/lib.rs:534-536 AppRootKey::public_bytes *)
Definition AppRootKey_public_bytes (k : AppRootKey) : bytes := ed_public (app_seed k).
(* weaver-crypto/src/lib.rs:538-540 AppRootKey::app_addr *)
Definition AppRootKey_app_addr (k : AppRootKey) : AppAddr := derive_app_addr (AppRootKey_public_bytes k).
(* weaver-crypto/src/lib.rs:510-516 VerifiedAdmin::verify_bytes *)
Definition VerifiedAdmin_verify_bytes (a : VerifiedAdmin) (payload signature : bytes)
    : result CertificateError unit := verify_signature (va_verifying_key a) payload signature.

(** ** Administrator certificates *)
(* weaver-crypto/src/lib.rs:212-242 AdminCertificate::issue *)
Definition AdminCertificate_issue (root : NetworkRootKey) (admin_public_key : bytes)
    (permissions serial not_before_ms expires_at_ms : Z) : result CertificateError AdminCertificate :=
  fail_if (expires_at_ms <=? not_before_ms) InvalidValidityWindow;;
  verifying_key admin_public_key;;
  let root_public := NetworkRootKey_public root in
  let payload := {|
    adm_network_id := root_network_id root_public;
    adm_key_id := derive_key_id ADMIN_KEY_ID admin_public_key;
    adm_public_key := admin_public_key;
    adm_permissions := permissions; adm_serial := serial;
    adm_not_before_ms := not_before_ms; adm_expires_at_ms := expires_at_ms;
    adm_issuer_key_id := root_key_id root_public |} in
  let signed_payload := encode_admin_payload payload in
  Ok (mkSigned payload signed_payload (ed_sign (root_seed root) signed_payload)).

(* weaver-crypto/src/lib.rs:268-301 AdminCertificate::verify *)
Definition AdminCertificate_verify (c : AdminCertificate) (root : NetworkRootPublic)
    (expected_network : NetworkId) (now_ms : Z) (revoked_serials : gset Z)
    : result CertificateError VerifiedAdmin :=
  let p := payload c in
  fail_if (negb (bool_decide (root_network_id root = expected_network))
           || negb (bool_decide (adm_network_id p = expected_network))) WrongNetwork;;
  fail_if (negb (bool_decide (adm_issuer_key_id p = root_key_id root))) WrongIssuer;;
  fail_if (negb (bool_decide (derive_key_id ADMIN_KEY_ID (adm_public_key p) = adm_key_id p)))
    DerivedIdentityMismatch;;
  validate_time (adm_not_before_ms p) (adm_expires_at_ms p) now_ms;;
  fail_if (bool_decide (adm_serial p ∈ revoked_serials)) Revoked;;
  verify_signature (root_verifying_key root) (signed_payload c) (signature c);;
  key ← verifying_key (adm_public_key p);
  Ok (mkVerifiedAdmin p key).

(** ** Join requests *)
(* weaver-crypto/src/lib.rs:330-360 JoinRequest::create *)
Definition JoinRequest_create (network_id : NetworkId) (member_signing : SigningKeypair)
    (encryption_public_key endpoint_id nonce : bytes) (requested_roles expires_at_ms : Z)
    : result CertificateError JoinRequest :=
  fail_if (bool_decide (encryption_public_key = zero32) || bool_decide (endpoint_id = zero32)
           || bool_decide (nonce = zero32)) MalformedKey;;
  let signing_public_key := SigningKeypair_public_bytes member_signing in
  let payload := {|
    jr_network_id := network_id;
    jr_member_id := derive_member_id network_id signing_public_key;
    jr_signing_public_key := signing_public_key;
    jr_encryption_public_key := encryption_public_key;
    jr_endpoint_id := endpoint_id; jr_nonce := nonce;
    jr_requested_roles := requested_roles; jr_expires_at_ms := expires_at_ms |} in
  let signed_payload := encode_join_request_payload payload in
  Ok (mkSigned payload signed_payload (SigningKeypair_sign member_signing signed_payload)).

(* weaver-crypto/src/lib.rs:386-412 JoinRequest::verify *)
Definition JoinRequest_verify (r : JoinRequest) (expected_network : NetworkId) (now_ms : Z)
    : result CertificateError VerifiedJoinRequest :=
  let p := payload r in
  fail_if (negb (bool_decide (jr_network_id p = expected_network))) WrongNetwork;;
  fail_if (jr_expires_at_ms p <=? now_ms) Expired;;
  fail_if (bool_decide (jr_encryption_public_key p = zero32) || bool_decide (jr_endpoint_id p = zero32)
           || bool_decide (jr_nonce p = zero32)) MalformedKey;;
  fail_if (negb (bool_decide (derive_member_id expected_network (jr_signing_public_key p) = jr_member_id p)))
    DerivedIdentityMismatch;;
  key ← verifying_key (jr_signing_public_key p);
  verify_signature key (signed_payload r) (signature r);;
  Ok (mkVerifiedJoinRequest p).

(** ** Member certificates *)
(* weaver-crypto/src/lib.rs:601-632 MemberCertificate::issue *)
Definition MemberCertificate_issue (root : NetworkRootKey) (member_signing_public encryption_public_key : bytes)
    (roles serial not_before_ms expires_at_ms : Z) : result CertificateError MemberCertificate :=
  fail_if (expires_at_ms <=? not_before_ms) InvalidValidityWindow;;
  let root_public := NetworkRootKey_public root in
  let payload := {|
    mc_network_id := root_network_id root_public;
    mc_member_id := derive_member_id (root_network_id root_public) member_signing_public;
    mc_signing_public_key := member_signing_public;
    mc_encryption_public_key := encryption_public_key;
    mc_roles := roles; mc_serial := serial;
    mc_not_before_ms := not_before_ms; mc_expires_at_ms := expires_at_ms;
    mc_issuer_key_id := root_key_id root_public |} in
  let signed_payload := encode_member_payload payload in
  Ok (mkSigned payload signed_payload (ed_sign (root_seed root) signed_payload)).

(* weaver-crypto/src/lib.rs:651-693 MemberCertificate::issue_by_admin *)
Definition MemberCertificate_issue_by_admin (admin : OnlineAdminKey) (admin_certificate : AdminCertificatePayload)
    (member_signing_public encryption_public_key : bytes) (roles serial not_before_ms expires_at_ms : Z)
    : result CertificateError MemberCertificate :=
  fail_if (negb (bool_decide (OnlineAdminKey_public_bytes admin = adm_public_key admin_certificate))
           || negb (bool_decide (OnlineAdminKey_key_id admin = adm_key_id admin_certificate))) KeyMismatch;;
  fail_if (Z.land (adm_permissions admin_certificate) ADMIN_PERMISSION_ISSUE_MEMBER =? 0) PermissionDenied;;
  fail_if ((expires_at_ms <=? not_before_ms) || (not_before_ms <? adm_not_before_ms admin_certificate)
           || (adm_expires_at_ms admin_certificate <? expires_at_ms)) InvalidValidityWindow;;
  let payload := {|
    mc_network_id := adm_network_id admin_certificate;
    mc_member_id := derive_member_id (adm_network_id admin_certificate) member_signing_public;
    mc_signing_public_key := member_signing_public;
    mc_encryption_public_key := encryption_public_key;
    mc_roles := roles; mc_serial := serial;
    mc_not_before_ms := not_before_ms; mc_expires_at_ms := expires_at_ms;
    mc_issuer_key_id := adm_key_id admin_certificate |} in
  let signed_payload := encode_member_payload payload in
  Ok (mkSigned payload signed_payload (OnlineAdminKey_sign_bytes admin signed_payload)).

(* weaver-crypto/src/lib.rs:705-717 MemberCertificate::verify_presence *)
Definition MemberCertificate_verify_presence (c : MemberCertificate) (exact_payload signature : bytes)
    : result CertificateError unit :=
  key ← verifying_key (mc_signing_public_key (payload c));
  verify_signature key (presence_signature_transcript exact_payload) signature.

(* weaver-crypto/src/lib.rs:719-747 MemberCertificate::verify *)
Definition MemberCertificate_verify (c : MemberCertificate) (root : NetworkRootPublic)
    (expected_network : NetworkId) (now_ms : Z) (revoked_serials : gset Z)
    : result CertificateError VerifiedMember :=
  let p := payload c in
  fail_if (negb (bool_decide (root_network_id root = expected_network))
           || negb (bool_decide (mc_network_id p = expected_network))) WrongNetwork;;
  fail_if (negb (bool_decide (mc_issuer_key_id p = root_key_id root))) WrongIssuer;;
  fail_if (negb (bool_decide (derive_member_id expected_network (mc_signing_public_key p) = mc_member_id p)))
    DerivedIdentityMismatch;;
  validate_time (mc_not_before_ms p) (mc_expires_at_ms p) now_ms;;
  fail_if (bool_decide (mc_serial p ∈ revoked_serials)) Revoked;;
  verify_signature (root_verifying_key root) (signed_payload c) (signature c);;
  Ok (mkVerifiedMember p).

(* weaver-crypto/src/lib.rs:749-787 MemberCertificate::verify_with_admin *)
Definition MemberCertificate_verify_with_admin (c : MemberCertificate) (admin : VerifiedAdmin)
    (expected_network : NetworkId) (now_ms : Z) (revoked_serials : gset Z)
    : result CertificateError VerifiedMember :=
  let p := payload c in
  let a := va_payload admin in
  fail_if (negb (bool_decide (adm_network_id a = expected_network))
           || negb (bool_decide (mc_network_id p = expected_network))) WrongNetwork;;
  fail_if (Z.land (adm_permissions a) ADMIN_PERMISSION_ISSUE_MEMBER =? 0) PermissionDenied;;
  fail_if (negb (bool_decide (mc_issuer_key_id p = adm_key_id a))) WrongIssuer;;
  fail_if ((mc_not_before_ms p <? adm_not_before_ms a) || (adm_expires_at_ms a <? mc_expires_at_ms p))
    InvalidValidityWindow;;
  fail_if (negb (bool_decide (derive_member_id expected_network (mc_signing_public_key p) = mc_member_id p)))
    DerivedIdentityMismatch;;
  validate_time (mc_not_before_ms p) (mc_expires_at_ms p) now_ms;;
  fail_if (bool_decide (mc_serial p ∈ revoked_serials)) Revoked;;
  VerifiedAdmin_verify_bytes admin (signed_payload c) (signature c);;
  Ok (mkVerifiedMember p).

(** ** Endpoint bindings *)
(* weaver-crypto/src/lib.rs:823-847 EndpointBinding::issue *)
Definition EndpointBinding_issue (member_key : SigningKeypair) (member : MemberCertificatePayload)
    (endpoint_id : bytes) (sequence expires_at_ms : Z) : result CertificateError EndpointBinding :=
  fail_if (negb (bool_decide (SigningKeypair_public_bytes member_key = mc_signing_public_key member))) KeyMismatch;;
  let payload := {|
    eb_network_id := mc_network_id member; eb_member_id := mc_member_id member;
    eb_endpoint_id := endpoint_id; eb_sequence := sequence; eb_expires_at_ms := expires_at_ms |} in
  let signed_payload := encode_endpoint_payload payload in
  Ok (mkSigned payload signed_payload (SigningKeypair_sign member_key signed_payload)).

(* weaver-crypto/src/lib.rs:849-873 EndpointBinding::issue_for_join *)
Definition EndpointBinding_issue_for_join (member_key : SigningKeypair) (network_id : NetworkId)
    (endpoint_id : bytes) (sequence expires_at_ms : Z) : result CertificateError EndpointBinding :=
  fail_if (bool_decide (endpoint_id = zero32)) MalformedKey;;
  let payload := {|
    eb_network_id := network_id;
    eb_member_id := derive_member_id network_id (SigningKeypair_public_bytes member_key);
    eb_endpoint_id := endpoint_id; eb_sequence := sequence; eb_expires_at_ms := expires_at_ms |} in
  let signed_payload := encode_endpoint_payload payload in
  Ok (mkSigned payload signed_payload (SigningKeypair_sign member_key signed_payload)).

(* weaver-crypto/src/lib.rs:899-920 EndpointBinding::verify *)
Definition EndpointBinding_verify (b : EndpointBinding) (member : VerifiedMember)
    (expected_network : NetworkId) (expected_endpoint : bytes) (now_ms : Z) : result CertificateError unit :=
  let p := payload b in
  let m := vm_payload member in
  fail_if (negb (bool_decide (eb_network_id p = expected_network))
           || negb (bool_decide (mc_network_id m = expected_network))) WrongNetwork;;
  fail_if (negb (bool_decide (eb_member_id p = mc_member_id m))
           || negb (bool_decide (eb_endpoint_id p = expected_endpoint))) BindingMismatch;;
  fail_if (eb_expires_at_ms p <=? now_ms) Expired;;
  key ← verifying_key (mc_signing_public_key m);
  verify_signature key (signed_payload b) (signature b).

(* weaver-crypto/src/lib.rs:922-946 EndpointBinding::verify_for_join *)
Definition EndpointBinding_verify_for_join (b : EndpointBinding) (request : VerifiedJoinRequest)
    (expected_network : NetworkId) (now_ms : Z) : result CertificateError unit :=
  let p := payload b in
  let r := vjr_payload request in
  fail_if (negb (bool_decide (eb_network_id p = expected_network))
           || negb (bool_decide (jr_network_id r = expected_network))) WrongNetwork;;
  fail_if (negb (bool_decide (eb_member_id p = jr_member_id r))
           || negb (bool_decide (eb_endpoint_id p = jr_endpoint_id r))
           || negb (eb_sequence p =? 0)
           || negb (eb_expires_at_ms p =? jr_expires_at_ms r)) BindingMismatch;;
  fail_if (eb_expires_at_ms p <=? now_ms) Expired;;
  key ← verifying_key (jr_signing_public_key r);
  verify_signature key (signed_payload b) (signature b).

(** ** Prepared join requests *)
(* weaver-crypto/src/lib.rs:432-459 PreparedJoinRequest::create *)
Definition PreparedJoinRequest_create (network_id : NetworkId) (member_signing : SigningKeypair)
    (encryption_public_key endpoint_id nonce : bytes) (requested_roles expires_at_ms : Z)
    : result CertificateError PreparedJoinRequest :=
  request ← JoinRequest_create network_id member_signing encryption_public_key endpoint_id nonce
              requested_roles expires_at_ms;
  endpoint_binding ← EndpointBinding_issue_for_join member_signing network_id endpoint_id 0 expires_at_ms;
  Ok (mkPreparedJoinRequest request endpoint_binding).

(* weaver-crypto/src/lib.rs:493-502 PreparedJoinRequest::verify *)
Definition PreparedJoinRequest_verify (p : PreparedJoinRequest) (expected_network : NetworkId) (now_ms : Z)
    : result CertificateError VerifiedJoinRequest :=
  request ← JoinRequest_verify (pj_request p) expected_network now_ms;
  EndpointBinding_verify_for_join (pj_endpoint_binding p) request expected_network now_ms;;
  Ok request.

(** ** Applications *)
(* weaver-crypto/src/lib.rs:974-988 AppRegistrationRequest::create *)
Definition AppRegistrationRequest_create (app_root : AppRootKey) (network_id : NetworkId) (policy : Z)
    : AppRegistrationRequest :=
  let payload := {|
    rq_network_id := network_id; rq_app_addr := AppRootKey_app_addr app_root;
    rq_app_root_public_key := AppRootKey_public_bytes app_root; rq_policy := policy |} in
  let signed_payload := encode_app_registration_request_payload payload in
  mkSigned payload signed_payload (ed_sign (app_seed app_root) signed_payload).

(* weaver-crypto/src/lib.rs:1010-1024 AppRegistrationRequest::verify *)
Definition AppRegistrationRequest_verify (r : AppRegistrationRequest) (expected_network : NetworkId)
    : result CertificateError VerifiedAppRegistrationRequest :=
  let p := payload r in
  fail_if (negb (bool_decide (rq_network_id p = expected_network))) WrongNetwork;;
  fail_if (negb (bool_decide (derive_app_addr (rq_app_root_public_key p) = rq_app_addr p)))
    DerivedIdentityMismatch;;
  key ← verifying_key (rq_app_root_public_key p);
  verify_signature key (signed_payload r) (signature r);;
  Ok (mkVerifiedAppRequest p).

(* weaver-crypto/src/lib.rs:1044-1059 AppRegistration::issue *)
Definition AppRegistration_issue (root : NetworkRootKey) (app_root : AppRootKey) (policy : Z) : AppRegistration :=
  let payload := {|
    ar_network_id := root_network_id (NetworkRootKey_public root);
    ar_app_addr := AppRootKey_app_addr app_root;
    ar_app_root_public_key := AppRootKey_public_bytes app_root; ar_policy := policy;
    ar_issuer_key_id := root_key_id (NetworkRootKey_public root) |} in
  let signed_payload := encode_app_registration_payload payload in
  mkSigned payload signed_payload (ed_sign (root_seed root) signed_payload).

(* weaver-crypto/src/lib.rs:1061-1091 AppRegistration::issue_by_admin *)
Definition AppRegistration_issue_by_admin (admin : OnlineAdminKey) (admin_certificate : AdminCertificatePayload)
    (request : VerifiedAppRegistrationRequest) : result CertificateError AppRegistration :=
  let r := vrq_payload request in
  fail_if (negb (bool_decide (OnlineAdminKey_public_bytes admin = adm_public_key admin_certificate))
           || negb (bool_decide (OnlineAdminKey_key_id admin = adm_key_id admin_certificate))) KeyMismatch;;
  fail_if (Z.land (adm_permissions admin_certificate) ADMIN_PERMISSION_REGISTER_APP =? 0) PermissionDenied;;
  fail_if (negb (bool_decide (rq_network_id r = adm_network_id admin_certificate))) WrongNetwork;;
  let payload := {|
    ar_network_id := rq_network_id r; ar_app_addr := rq_app_addr r;
    ar_app_root_public_key := rq_app_root_public_key r; ar_policy := rq_policy r;
    ar_issuer_key_id := adm_key_id admin_certificate |} in
  let signed_payload := encode_app_registration_payload payload in
  Ok (mkSigned payload signed_payload (OnlineAdminKey_sign_bytes admin signed_payload)).

(* weaver-crypto/src/lib.rs:1117-1133 AppRegistration::verify *)
Definition AppRegistration_verify (c : AppRegistration) (root : NetworkRootPublic) (expected_network : NetworkId)
    : result CertificateError VerifiedApp :=
  let p := payload c in
  fail_if (negb (bool_decide (root_network_id root = expected_network))
           || negb (bool_decide (ar_network_id p = expected_network))) WrongNetwork;;
  fail_if (negb (bool_decide (ar_issuer_key_id p = root_key_id root))) WrongIssuer;;
  fail_if (negb (bool_decide (derive_app_addr (ar_app_root_public_key p) = ar_app_addr p)))
    DerivedIdentityMismatch;;
  verify_signature (root_verifying_key root) (signed_payload c) (signature c);;
  Ok (mkVerifiedApp p).

(* weaver-crypto/src/lib.rs:1135-1156 AppRegistration::verify_with_admin *)
Definition AppRegistration_verify_with_admin (c : AppRegistration) (admin : VerifiedAdmin)
    (expected_network : NetworkId) : result CertificateError VerifiedApp :=
  let p := payload c in
  let a := va_payload admin in
  fail_if (negb (bool_decide (adm_network_id a = expected_network))
           || negb (bool_decide (ar_network_id p = expected_network))) WrongNetwork;;
  fail_if (Z.land (adm_permissions a) ADMIN_PERMISSION_REGISTER_APP =? 0) PermissionDenied;;
  fail_if (negb (bool_decide (ar_issuer_key_id p = adm_key_id a))) WrongIssuer;;
  fail_if (negb (bool_decide (derive_app_addr (ar_app_root_public_key p) = ar_app_addr p)))
    DerivedIdentityMismatch;;
  VerifiedAdmin_verify_bytes admin (signed_payload c) (signature c);;
  Ok (mkVerifiedApp p).

(* weaver-crypto/src/lib.rs:1193-1222 AppBinding::issue *)
Definition AppBinding_issue (app_root : AppRootKey) (network_id : NetworkId) (subject : MemberId) (role : AppRole)
    (device_id : option DeviceId) (expires_at_ms : Z) (services : list ServiceId)
    : result CertificateError AppBinding :=
  validate_app_role role device_id;;
  fail_if (MAX_SERVICES_PER_BINDING <? len services) TooManyServices;;
  let payload := {|
    ab_network_id := network_id; ab_app_addr := AppRootKey_app_addr app_root; ab_subject := subject;
    ab_role := role; ab_device_id := device_id; ab_expires_at_ms := expires_at_ms;
    ab_services := services |} in
  let signed_payload := encode_app_binding_payload payload in
  Ok (mkSigned payload signed_payload (ed_sign (app_seed app_root) signed_payload)).

(* weaver-crypto/src/lib.rs:1249-1272 AppBinding::verify *)
Definition AppBinding_verify (b : AppBinding) (app : VerifiedApp) (member : VerifiedMember)
    (expected_network : NetworkId) (now_ms : Z) : result CertificateError unit :=
  let p := payload b in
  fail_if (negb (bool_decide (ab_network_id p = expected_network))
           || negb (bool_decide (ar_network_id (vapp_payload app) = expected_network))
           || negb (bool_decide (mc_network_id (vm_payload member) = expected_network))) WrongNetwork;;
  fail_if (negb (bool_decide (ab_app_addr p = ar_app_addr (vapp_payload app)))
           || negb (bool_decide (ab_subject p = mc_member_id (vm_payload member)))) BindingMismatch;;
  validate_app_role (ab_role p) (ab_device_id p);;
  fail_if (ab_expires_at_ms p <=? now_ms) Expired;;
  key ← verifying_key (ar_app_root_public_key (vapp_payload app));
  verify_signature key (signed_payload b) (signature b).
End chain.

Lemma derive_key_id_len `{Blake3Laws} context key : length (derive_key_id context key) = 16%nat.
Proof. unfold derive_key_id; rewrite length_take, derive_key_len; lia. Qed.

(** ** Parsed credentials carry the bytes of their payload *)
Definition cert_wf {P} `{Codec P CertificateError} (c : Signed P) : Prop :=
  wire_wf (payload c) /\ signed_payload c = encode (payload c) /\ length (signature c) = SIGNATURE_LEN.

Section parsing.
Context {P : Type} `{Codec P CertificateError}.

Lemma cert_wf_intro p sig : wire_wf p -> length sig = SIGNATURE_LEN -> cert_wf (mkSigned p (encode p) sig).
Proof. done. Qed.

Lemma signed_from_bytes_exact n bs (c : Signed P) :
  (forall p, wire_wf p -> length (encode p) = n) ->
  signed_from_bytes n decode bs = Ok c <-> cert_wf c /\ bs = to_bytes c.
Proof.
  intros Hlen; unfold signed_from_bytes, cert_wf, to_bytes, append_signature; split.
  - intros Hb; res_inv; bool_inv.
    match goal with Hl : Nat.eqb _ _ = true |- _ => apply Nat.eqb_eq in Hl as Hbs end.
    match goal with Hd : decode _ = Ok _ |- _ => apply codec_exact in Hd as [He Hw] end; cbn.
    rewrite take_drop, length_drop; split_and!; [done..| lia | done].
  - intros [(Hw & Hs & Hg) ->]; destruct c as [p sp sg]; cbn in *; subst sp.
    rewrite length_app, Hlen, Hg, Nat.eqb_refl by done; cbn [negb fail_if mbind result_bind].
    rewrite take_app_length', drop_app_length' by (by rewrite Hlen).
    by rewrite decode_encode.
Qed.
End parsing.

(** Lengths of the fixed-layout encodings. *)
Ltac payload_len enc wf :=
  intros p Hp; unfold wf in Hp; unfold enc, NetworkId_wf, MemberId_wf, AppAddr_wf in *; destruct_and?;
  rewrite !length_app, ?length_to_be;
  repeat match goal with Hl : length ?x = _ |- _ => rewrite Hl; clear Hl end; reflexivity.

Lemma admin_payload_length : forall p, admin_payload_wf p -> length (encode_admin_payload p) = ADMIN_PAYLOAD_LEN.
Proof. payload_len encode_admin_payload admin_payload_wf. Qed.
Lemma join_request_payload_length : forall p,
  join_request_payload_wf p -> length (encode_join_request_payload p) = JOIN_REQUEST_PAYLOAD_LEN.
Proof. payload_len encode_join_request_payload join_request_payload_wf. Qed.
Lemma member_payload_length : forall p, member_payload_wf p -> length (encode_member_payload p) = MEMBER_PAYLOAD_LEN.
Proof. payload_len encode_member_payload member_payload_wf. Qed.
Lemma endpoint_payload_length : forall p,
  endpoint_payload_wf p -> length (encode_endpoint_payload p) = ENDPOINT_PAYLOAD_LEN.
Proof. payload_len encode_endpoint_payload endpoint_payload_wf. Qed.
Lemma app_registration_payload_length : forall p,
  app_registration_payload_wf p -> length (encode_app_registration_payload p) = APP_REG_PAYLOAD_LEN.
Proof. payload_len encode_app_registration_payload app_registration_payload_wf. Qed.
Lemma app_request_payload_length : forall p,
  app_request_payload_wf p -> length (encode_app_registration_request_payload p) = APP_REG_REQUEST_PAYLOAD_LEN.
Proof. payload_len encode_app_registration_request_payload app_request_payload_wf. Qed.

Lemma app_binding_payload_length p :
  app_binding_payload_wf p ->
  length (encode_app_binding_payload p) = (APP_BIND_FIXED_LEN + 16 * length (ab_services p))%nat.
Proof.
  intros (Hn & Ha & Hm & Hd & _ & _ & _ & Hs); unfold encode_app_binding_payload.
  rewrite !length_app, !length_to_be; unfold NetworkId_wf, AppAddr_wf, MemberId_wf in *; rewrite Hn, Ha, Hm.
  assert (length (device_bytes (ab_device_id p)) = 32%nat) as -> by (by destruct (ab_device_id p)).
  assert (length (concat (ServiceId_as_bytes <$> ab_services p)) = 16 * length (ab_services p))%nat as ->.
  { induction Hs as [|s ss Hs _ IH]; [done|]; cbn; rewrite length_app, IH, Hs; lia. }
  assert (length APP_BIND_MAGIC = 8%nat) as -> by reflexivity; unfold APP_BIND_FIXED_LEN; lia.
Qed.

Lemma AppBinding_from_bytes_exact bs (c : AppBinding) :
  AppBinding_from_bytes bs = Ok c <-> cert_wf c /\ bs = to_bytes c.
Proof.
  unfold AppBinding_from_bytes, cert_wf, to_bytes, append_signature; split.
  - intros Hb; res_inv.
    match goal with Hl : Nat.ltb _ _ = false |- _ => apply Nat.ltb_ge in Hl as Hbs end.
    match goal with Hd : decode_app_binding_payload _ = Ok _ |- _ =>
      apply (@codec_exact _ _ app_binding_codec) in Hd as [He Hw] end; cbn.
    rewrite take_drop, length_drop; split_and!; [done..| | done]; unfold SIGNATURE_LEN in *; lia.
  - intros [(Hw & Hs & Hg) ->]; destruct c as [p sp sg]; cbn [payload signed_payload signature] in *; subst sp.
    change (encode p) with (encode_app_binding_payload p).
    pose proof (app_binding_payload_length p Hw) as Hl.
    rewrite length_app, Hg, Hl, (proj2 (Nat.ltb_ge _ _)) by lia; cbn [fail_if mbind result_bind].
    replace (_ + _ - SIGNATURE_LEN)%nat with (length (encode_app_binding_payload p)) by lia.
    rewrite take_app_length, drop_app_length; cbv zeta.
    by rewrite (@decode_encode _ _ app_binding_codec p Hw :
      decode_app_binding_payload (encode_app_binding_payload p) = _).
Qed.

Lemma AdminCertificate_from_bytes_exact bs (c : AdminCertificate) :
  AdminCertificate_from_bytes bs = Ok c <-> cert_wf c /\ bs = to_bytes c.
Proof. apply (signed_from_bytes_exact (H := admin_codec)), admin_payload_length. Qed.
Lemma MemberCertificate_from_bytes_exact bs (c : MemberCertificate) :
  MemberCertificate_from_bytes bs = Ok c <-> cert_wf c /\ bs = to_bytes c.
Proof. apply (signed_from_bytes_exact (H := member_codec)), member_payload_length. Qed.
Lemma EndpointBinding_from_bytes_exact bs (c : EndpointBinding) :
  EndpointBinding_from_bytes bs = Ok c <-> cert_wf c /\ bs = to_bytes c.
Proof. apply (signed_from_bytes_exact (H := endpoint_codec)), endpoint_payload_length. Qed.
Lemma JoinRequest_from_bytes_exact bs (c : JoinRequest) :
  JoinRequest_from_bytes bs = Ok c <-> cert_wf c /\ bs = to_bytes c.
Proof. apply (signed_from_bytes_exact (H := join_request_codec)), join_request_payload_length. Qed.
Lemma AppRegistrationRequest_from_bytes_exact bs (c : AppRegistrationRequest) :
  AppRegistrationRequest_from_bytes bs = Ok c <-> cert_wf c /\ bs = to_bytes c.
Proof. apply (signed_from_bytes_exact (H := app_request_codec)), app_request_payload_length. Qed.
Lemma AppRegistration_from_bytes_exact bs (c : AppRegistration) :
  AppRegistration_from_bytes bs = Ok c <-> cert_wf c /\ bs = to_bytes c.
Proof. apply (signed_from_bytes_exact (H := app_registration_codec)), app_registration_payload_length. Qed.

(** ** What verification establishes *)
Section trust.
Context `{Ed25519} `{Blake3}.

Lemma validate_time_Ok not_before expires now u :
  validate_time not_before expires now = Ok u <-> not_before <= now < expires.
Proof.
  unfold validate_time; destruct u, (now <? not_before) eqn:H1, (expires <=? now) eqn:H2; bool_inv.
  all: split; intros; try done; try lia.
Qed.

Lemma verifying_key_Ok bs key : verifying_key bs = Ok key <-> vk_valid bs = true /\ key = bs.
Proof.
  unfold verifying_key; rewrite bind_Ok; split.
  - intros (u & Hu%fail_if_Ok & [= <-]); bool_inv; done.
  - intros [Hv ->]; exists tt; split; [apply fail_if_Ok; by rewrite Hv | done].
Qed.

Lemma verify_signature_Ok key m s u : verify_signature key m s = Ok u <-> ed_verify key m s = true.
Proof. unfold verify_signature; rewrite fail_if_Ok, negb_false_iff; done. Qed.

End trust.

Ltac cert_inv :=
  res_inv; bool_inv;
  repeat match goal with
  | Hx : validate_time _ _ _ = Ok _ |- _ => apply validate_time_Ok in Hx
  | Hx : verify_signature _ _ _ = Ok _ |- _ => apply verify_signature_Ok in Hx
  | Hx : verifying_key _ = Ok _ |- _ => apply verifying_key_Ok in Hx as [? ->]
  end.
Ltac cert_ok :=
  repeat (apply bind_Ok; first [exists tt | eexists]; split;
    [first [done | apply fail_if_Ok; passes | by apply validate_time_Ok
           | by apply verify_signature_Ok | by apply verifying_key_Ok]|]; cbn beta);
  try done; try by apply verify_signature_Ok.

Section verification.
Context `{Ed25519} `{Blake3}.

Record admin_trusted (c : AdminCertificate) (root : NetworkRootPublic) (net : NetworkId) (now : Z)
    (revoked : gset Z) : Prop := {
  at_root : root_network_id root = net;
  at_network : adm_network_id (payload c) = net;
  at_issuer : adm_issuer_key_id (payload c) = root_key_id root;
  at_key_id : adm_key_id (payload c) = derive_key_id ADMIN_KEY_ID (adm_public_key (payload c));
  at_key : vk_valid (adm_public_key (payload c)) = true;
  at_time : adm_not_before_ms (payload c) <= now < adm_expires_at_ms (payload c);
  at_serial : adm_serial (payload c) ∉ revoked;
  at_signature : ed_verify (root_verifying_key root) (signed_payload c) (signature c) = true;
}.

Lemma AdminCertificate_verify_Ok c root net now revoked va :
  AdminCertificate_verify c root net now revoked = Ok va <->
  va = mkVerifiedAdmin (payload c) (adm_public_key (payload c)) /\ admin_trusted c root net now revoked.
Proof.
  unfold AdminCertificate_verify; split.
  - intros Hv; cert_inv; split; [done | by constructor].
  - intros [-> []]; cbv zeta; cert_ok.
Qed.

Record member_trusted (c : MemberCertificate) (admin : VerifiedAdmin) (net : NetworkId) (now : Z)
    (revoked : gset Z) : Prop := {
  mt_admin_network : adm_network_id (va_payload admin) = net;
  mt_network : mc_network_id (payload c) = net;
  mt_permission : Z.land (adm_permissions (va_payload admin)) ADMIN_PERMISSION_ISSUE_MEMBER <> 0;
  mt_issuer : mc_issuer_key_id (payload c) = adm_key_id (va_payload admin);
  mt_window : adm_not_before_ms (va_payload admin) <= mc_not_before_ms (payload c) /\
              mc_expires_at_ms (payload c) <= adm_expires_at_ms (va_payload admin);
  mt_identity : mc_member_id (payload c) = derive_member_id net (mc_signing_public_key (payload c));
  mt_time : mc_not_before_ms (payload c) <= now < mc_expires_at_ms (payload c);
  mt_serial : mc_serial (payload c) ∉ revoked;
  mt_signature : ed_verify (va_verifying_key admin) (signed_payload c) (signature c) = true;
}.

Lemma MemberCertificate_verify_with_admin_Ok c admin net now revoked vm :
  MemberCertificate_verify_with_admin c admin net now revoked = Ok vm <->
  vm = mkVerifiedMember (payload c) /\ member_trusted c admin net now revoked.
Proof.
  unfold MemberCertificate_verify_with_admin, VerifiedAdmin_verify_bytes; split.
  - intros Hv; cert_inv; split; [done | by constructor].
  - intros [-> []]; cbv zeta; cert_ok.
Qed.

(** A member certificate the network root issued itself. *)
Record root_member_trusted (c : MemberCertificate) (root : NetworkRootPublic) (net : NetworkId) (now : Z)
    (revoked : gset Z) : Prop := {
  rmt_root : root_network_id root = net;
  rmt_network : mc_network_id (payload c) = net;
  rmt_issuer : mc_issuer_key_id (payload c) = root_key_id root;
  rmt_identity : mc_member_id (payload c) = derive_member_id net (mc_signing_public_key (payload c));
  rmt_time : mc_not_before_ms (payload c) <= now < mc_expires_at_ms (payload c);
  rmt_serial : mc_serial (payload c) ∉ revoked;
  rmt_signature : ed_verify (root_verifying_key root) (signed_payload c) (signature c) = true;
}.

Lemma MemberCertificate_verify_Ok c root net now revoked vm :
  MemberCertificate_verify c root net now revoked = Ok vm <->
  vm = mkVerifiedMember (payload c) /\ root_member_trusted c root net now revoked.
Proof.
  unfold MemberCertificate_verify; split.
  - intros Hv; cert_inv; split; [done | by constructor].
  - intros [-> []]; cbv zeta; cert_ok.
Qed.

Record endpoint_trusted (b : EndpointBinding) (member : VerifiedMember) (net : NetworkId) (endpoint : bytes)
    (now : Z) : Prop := {
  et_network : eb_network_id (payload b) = net;
  et_member_network : mc_network_id (vm_payload member) = net;
  et_member : eb_member_id (payload b) = mc_member_id (vm_payload member);
  et_endpoint : eb_endpoint_id (payload b) = endpoint;
  et_time : now < eb_expires_at_ms (payload b);
  et_key : vk_valid (mc_signing_public_key (vm_payload member)) = true;
  et_signature : ed_verify (mc_signing_public_key (vm_payload member)) (signed_payload b) (signature b) = true;
}.

Lemma EndpointBinding_verify_Ok b member net endpoint now :
  EndpointBinding_verify b member net endpoint now = Ok tt <-> endpoint_trusted b member net endpoint now.
Proof.
  unfold EndpointBinding_verify; split.
  - intros Hv; cert_inv; by constructor.
  - intros []; cbv zeta; cert_ok.
Qed.

Record app_trusted (c : AppRegistration) (admin : VerifiedAdmin) (net : NetworkId) : Prop := {
  apt_admin_network : adm_network_id (va_payload admin) = net;
  apt_network : ar_network_id (payload c) = net;
  apt_permission : Z.land (adm_permissions (va_payload admin)) ADMIN_PERMISSION_REGISTER_APP <> 0;
  apt_issuer : ar_issuer_key_id (payload c) = adm_key_id (va_payload admin);
  apt_identity : ar_app_addr (payload c) = derive_app_addr (ar_app_root_public_key (payload c));
  apt_signature : ed_verify (va_verifying_key admin) (signed_payload c) (signature c) = true;
}.

Lemma AppRegistration_verify_with_admin_Ok c admin net va :
  AppRegistration_verify_with_admin c admin net = Ok va <->
  va = mkVerifiedApp (payload c) /\ app_trusted c admin net.
Proof.
  unfold AppRegistration_verify_with_admin, VerifiedAdmin_verify_bytes; split.
  - intros Hv; cert_inv; split; [done | by constructor].
  - intros [-> []]; cbv zeta; cert_ok.
Qed.

Record root_app_trusted (c : AppRegistration) (root : NetworkRootPublic) (net : NetworkId) : Prop := {
  rapt_root : root_network_id root = net;
  rapt_network : ar_network_id (payload c) = net;
  rapt_issuer : ar_issuer_key_id (payload c) = root_key_id root;
  rapt_identity : ar_app_addr (payload c) = derive_app_addr (ar_app_root_public_key (payload c));
  rapt_signature : ed_verify (root_verifying_key root) (signed_payload c) (signature c) = true;
}.

Lemma AppRegistration_verify_Ok c root net va :
  AppRegistration_verify c root net = Ok va <->
  va = mkVerifiedApp (payload c) /\ root_app_trusted c root net.
Proof.
  unfold AppRegistration_verify; split.
  - intros Hv; cert_inv; split; [done | by constructor].
  - intros [-> []]; cbv zeta; cert_ok.
Qed.

Record binding_trusted (b : AppBinding) (app : VerifiedApp) (member : VerifiedMember) (net : NetworkId)
    (now : Z) : Prop := {
  bt_network : ab_network_id (payload b) = net;
  bt_app_network : ar_network_id (vapp_payload app) = net;
  bt_member_network : mc_network_id (vm_payload member) = net;
  bt_app : ab_app_addr (payload b) = ar_app_addr (vapp_payload app);
  bt_subject : ab_subject (payload b) = mc_member_id (vm_payload member);
  bt_role : validate_app_role (ab_role (payload b)) (ab_device_id (payload b)) = Ok tt;
  bt_time : now < ab_expires_at_ms (payload b);
  bt_key : vk_valid (ar_app_root_public_key (vapp_payload app)) = true;
  bt_signature : ed_verify (ar_app_root_public_key (vapp_payload app)) (signed_payload b) (signature b) = true;
}.

Lemma AppBinding_verify_Ok b app member net now :
  AppBinding_verify b app member net now = Ok tt <-> binding_trusted b app member net now.
Proof.
  unfold AppBinding_verify; split.
  - intros Hv; cert_inv; by constructor.
  - intros []; cbv zeta; cert_ok.
Qed.
End verification.
