(* ===== verification/Symmetric.v ===== *)
(** * Randomness, authenticated encryption and HPKE

    Interfaces of the libraries the configuration and presence envelopes are
    built on: the operating system's random source ([getrandom]), an AEAD
    ([chacha20poly1305]) and RFC 9180 HPKE in base mode ([hpke]).  None of their
    code belongs to the repository, so they are parameters of the model; the
    laws are the correctness statements their documentation gives. *)

From S2P Require Import Prelude.

(** ** Entropy

    What successive calls of [getrandom::fill] answer: [None] when the source is
    unavailable, [Some] of the bytes written otherwise.  A computation that
    draws randomness passes the answers that are left along. *)
Definition entropy : Type := list (option bytes).
Definition rnd (E A : Type) : Type := entropy -> result E (A * entropy).

#[global] Instance rnd_ret E : MRet (rnd E) := fun A a e => Ok (a, e).
#[global] Instance rnd_bind E : MBind (rnd E) := fun A B f p e =>
  match p e with Ok (a, e') => f a e' | Err x => Err x end.
Definition rlift {E A} (r : result E A) : rnd E A := fun e =>
  match r with Ok a => Ok (a, e) | Err x => Err x end.
Definition rmap_err {E F A} (f : E -> F) (p : rnd E A) : rnd F A := fun e => map_err f (p e).
Definition draw {E} : rnd E (option bytes) := fun e =>
  match e with [] => Ok (None, []) | a :: e => Ok (a, e) end.
(** [getrandom::fill(&mut buffer)] of an [n]-byte buffer. *)
Definition fill {E} (err : E) (n : nat) : rnd E bytes :=
  a ← draw;
  match a with
  | Some bs => if Nat.eqb (length bs) n then mret bs else rlift (Err err)
  | None => rlift (Err err)
  end.
(** A loop that collects one value per element. *)
Fixpoint rnd_map {E A B} (f : A -> rnd E B) (xs : list A) : rnd E (list B) :=
  match xs with
  | [] => mret []
  | x :: xs => y ← f x; ys ← rnd_map f xs; mret (y :: ys)
  end.

Section rnd.
Context {E : Type}.

Lemma rnd_bind_Ok {A B} (p : rnd E A) (f : A -> rnd E B) e b e2 :
  (p ≫= f) e = Ok (b, e2) <-> exists a e1, p e = Ok (a, e1) /\ f a e1 = Ok (b, e2).
Proof.
  cbv [mbind rnd_bind]; destruct (p e) as [[a e1]|]; split; [eauto | intros (? & ? & [= <- <-] & ?); done | done |].
  intros (? & ? & ? & ?); done.
Qed.
Lemma rlift_Ok {A} (r : result E A) e a e' : rlift r e = Ok (a, e') <-> r = Ok a /\ e' = e.
Proof. unfold rlift; destruct r; split; naive_solver. Qed.
Lemma rmap_err_Ok {F A} (f : E -> F) (p : rnd E A) e a e' : rmap_err f p e = Ok (a, e') <-> p e = Ok (a, e').
Proof. unfold rmap_err; apply map_err_Ok. Qed.
Lemma fill_Ok (err : E) n e bs e' : fill err n e = Ok (bs, e') -> length bs = n.
Proof.
  unfold fill; intros (a & e1 & Ha & Hb)%rnd_bind_Ok; destruct a as [x|]; [|done].
  destruct (Nat.eqb _ _) eqn:Hn; [|done]; injection Hb as <- <-; by apply Nat.eqb_eq.
Qed.
Lemma rnd_map_Forall2 {A B} (f : A -> rnd E B) xs e ys e' :
  rnd_map f xs e = Ok (ys, e') -> Forall2 (fun x y => exists e1 e2, f x e1 = Ok (y, e2)) xs ys.
Proof.
  revert e ys; induction xs as [|x xs IH]; cbn; intros e ys Hm; [injection Hm as <- <-; constructor|].
  apply rnd_bind_Ok in Hm as (y & e1 & Hy & Hm); apply rnd_bind_Ok in Hm as (ys' & e2 & Hys & Hm).
  injection Hm as <- <-; constructor; eauto.
Qed.
End rnd.
Ltac rnd_inv H :=
  let a := fresh "a" in let e := fresh "ent" in let Ha := fresh "Ha" in
  apply rnd_bind_Ok in H as (a & e & Ha & H); try (apply rlift_Ok in Ha as [Ha ->]).

(** ** Authenticated encryption *)
Class Aead : Type := {
  aead_encrypt : bytes -> bytes -> bytes -> bytes -> option bytes;  (* key, nonce, associated data, message *)
  aead_decrypt : bytes -> bytes -> bytes -> bytes -> option bytes;
}.
Class AeadLaws `{Aead} : Prop := {
  aead_round_trip : forall key nonce aad msg ct,
    aead_encrypt key nonce aad msg = Some ct -> aead_decrypt key nonce aad ct = Some msg;
  aead_overhead : forall key nonce aad msg ct,
    aead_encrypt key nonce aad msg = Some ct -> length ct = (length msg + 16)%nat;
}.

(** ** HPKE, base mode.  [hpke_seal] is [setup_sender] followed by one [seal];
    its first argument is the randomness the sender draws. *)
Class Hpke : Type := {
  kem_sk_valid : bytes -> bool;
  kem_pk_valid : bytes -> bool;
  kem_sk_to_pk : bytes -> bytes;
  hpke_seal : option bytes -> bytes -> bytes -> bytes -> bytes -> option (bytes * bytes); (* pk, info, aad, message *)
  hpke_open : bytes -> bytes -> bytes -> bytes -> bytes -> option bytes; (* sk, encapsulated key, info, aad, ciphertext *)
}.
Class HpkeLaws `{Hpke} : Prop := {
  kem_pk_len : forall sk, length sk = 32%nat -> length (kem_sk_to_pk sk) = 32%nat;
  hpke_round_trip : forall seed sk info aad msg enc ct,
    kem_sk_valid sk = true -> hpke_seal seed (kem_sk_to_pk sk) info aad msg = Some (enc, ct) ->
    hpke_open sk enc info aad ct = Some msg;
  hpke_sizes : forall seed pk info aad msg enc ct,
    hpke_seal seed pk info aad msg = Some (enc, ct) -> length enc = 32%nat /\ length ct = (length msg + 16)%nat;
}.
(** Authentication, idealised: a message sealed to one key does not open under another. *)
Class HpkeExclusive `{Hpke} : Prop :=
  hpke_other_key : forall seed sk pk info aad msg enc ct,
    hpke_seal seed pk info aad msg = Some (enc, ct) -> kem_sk_to_pk sk <> pk ->
    hpke_open sk enc info aad ct = None.
