(* ===== verification/SecretFile.v ===== *)
(** * weaver-store: secrets in encrypted files

    Models [crates/weaver-store/src/secret_file.rs]: the store that keeps each secret in a
    file of its own, encrypted under a master key.  The directory is modelled with what a
    loss of power leaves of it: the contents of a file are safe once the file has been
    synced, its name once the directory has been.  Every call to the operating system may
    work, fail, or be the last one the worker makes. *)

From S2P Require Import Prelude Store Symmetric.

(** ** Hexadecimal text, by the [hex] crate *)
Class Hex : Type := { hex_encode : bytes -> bytes; hex_decode : bytes -> option bytes }.
Class HexLaws `{Hex} : Prop := {
  hex_round_trip bs : hex_decode (hex_encode bs) = Some bs;
  hex_digits bs : Forall (fun b => b ∈ bstr "0123456789abcdef") (hex_encode bs);
}.

(** ** A directory
    [File::sync_all] makes the contents of a file durable and [File::sync_all] of the
    directory its entries.  A hard link shares the contents; the code never writes to a
    file it has linked. *)
Record SecretFileEntry : Type := mkFile { f_bytes : bytes; f_synced : bool }.
Record FileDir : Type := mkFileDir { fd_files : gmap bytes SecretFileEntry; fd_durable : gmap bytes SecretFileEntry }.
(** What a name may refer to after a loss of power. *)
Inductive keeps : option SecretFileEntry -> option bytes -> Prop :=
| keeps_none : keeps None None
| keeps_some f bs : (f_synced f = true -> bs = f_bytes f) -> keeps (Some f) (Some bs).
Definition survives (d : FileDir) (after : gmap bytes bytes) : Prop :=
  forall name, keeps (fd_durable d !! name) (after !! name) \/ keeps (fd_files d !! name) (after !! name).

(** What the next calls do.  A write may have written some bytes when it fails. *)
Inductive Outcome : Type := Works | Fails (written : nat) (message : bytes) | Dies (written : nat).
Record Disk : Type := mkDisk { dk_dir : FileDir; dk_outcomes : list Outcome; dk_entropy : entropy }.
Inductive IoError : Type := IoNotFound | IoAlreadyExists | IoOther (message : bytes).
(** The [Display] of an [io::Error]. *)
Definition io_text (e : IoError) : bytes :=
  match e with
  | IoNotFound => bstr "No such file or directory (os error 2)"
  | IoAlreadyExists => bstr "File exists (os error 17)"
  | IoOther message => message
  end.

(** ** Programs on a disk
    [None] is a worker that stopped in the middle. *)
Definition fsm (E A : Type) : Type := Disk -> Disk * option (result E A).
#[global] Instance fsm_ret E : MRet (fsm E) := fun A a d => (d, Some (Ok a)).
#[global] Instance fsm_bind E : MBind (fsm E) := fun A B f m d =>
  match m d with
  | (d', Some (Ok a)) => f a d'
  | (d', Some (Err e)) => (d', Some (Err e))
  | (d', None) => (d', None)
  end.
Definition flift {E A} (r : result E A) : fsm E A := fun d => (d, Some r).
Definition fmap_err {E F A} (f : E -> F) (m : fsm E A) : fsm F A := fun d => let '(d', r) := m d in (d', map_err f <$> r).
(** The value of a fallible block, which the caller goes on with. *)
Definition attempt {E F A} (m : fsm E A) : fsm F (result E A) := fun d => let '(d', r) := m d in (d', Ok <$> r).
Definition with_dir (d : Disk) (dir : FileDir) (rest : list Outcome) : Disk := mkDisk dir rest (dk_entropy d).
(** One call: what it does when it works and what it leaves behind when it stops half-way. *)
Definition syscall {A} (act : FileDir -> FileDir * result IoError A) (half : nat -> FileDir -> FileDir) : fsm IoError A := fun d =>
  match dk_outcomes d with
  | Fails n message :: rest => (with_dir d (half n (dk_dir d)) rest, Some (Err (IoOther message)))
  | Dies n :: rest => (with_dir d (half n (dk_dir d)) rest, None)
  | Works :: rest => let '(dir, r) := act (dk_dir d) in (with_dir d dir rest, Some r)
  | [] => let '(dir, r) := act (dk_dir d) in (with_dir d dir [], Some r)
  end.
Definition nothing (_ : nat) (d : FileDir) : FileDir := d.
Definition set_file (name : bytes) (f : SecretFileEntry) (d : FileDir) : FileDir := mkFileDir (<[name := f]> (fd_files d)) (fd_durable d).
Definition append (name bs : bytes) (d : FileDir) : FileDir :=
  match fd_files d !! name with Some f => set_file name (mkFile (f_bytes f ++ bs) false) d | None => d end.

(** [Path::exists] is false when the metadata cannot be read. *)
Definition path_exists {E} (name : bytes) : fsm E bool :=
  found ← attempt (syscall (fun d => (d, Ok (bool_decide (is_Some (fd_files d !! name))))) nothing);
  mret (match found with Ok b => b | Err _ => false end).
Definition fs_read (name : bytes) : fsm IoError bytes :=
  syscall (fun d => (d, f_bytes <$> fd_files d !! name ?? IoNotFound)) nothing.
Definition fs_create_new (name : bytes) : fsm IoError unit :=
  syscall (fun d => match fd_files d !! name with
                    | Some _ => (d, Err IoAlreadyExists) | None => (set_file name (mkFile [] false) d, Ok tt) end) nothing.
Definition fs_write_all (name bs : bytes) : fsm IoError unit :=
  syscall (fun d => (append name bs d, Ok tt)) (fun n => append name (take n bs)).
Definition fs_sync_file (name : bytes) : fsm IoError unit :=
  syscall (fun d => (match fd_files d !! name with Some f => set_file name (mkFile (f_bytes f) true) d | None => d end, Ok tt)) nothing.
Definition fs_hard_link (original link : bytes) : fsm IoError unit :=
  syscall (fun d => match fd_files d !! original, fd_files d !! link with
                    | None, _ => (d, Err IoNotFound)
                    | Some _, Some _ => (d, Err IoAlreadyExists)
                    | Some f, None => (set_file link f d, Ok tt)
                    end) nothing.
Definition fs_remove_file (name : bytes) : fsm IoError unit :=
  syscall (fun d => match fd_files d !! name with
                    | None => (d, Err IoNotFound)
                    | Some _ => (mkFileDir (delete name (fd_files d)) (fd_durable d), Ok tt)
                    end) nothing.

(** ** The store *)
Definition FILE_MAGIC : bytes := bstr "WVRSEC" ++ [Byte.x00; Byte.x01].
Abbreviation FILE_NONCE_LEN := (12%nat).
(* weaver-store/src/secret_file.rs:219-221 backend *)
Definition secret_backend (e : IoError) : SecretStoreError := SecretBackend (io_text e).
(* weaver-store/src/secret_file.rs:213-217 sync_directory *)
Definition sync_directory : fsm SecretStoreError unit :=
  fmap_err secret_backend (syscall (fun d => (mkFileDir (fd_files d) (fd_files d), Ok tt)) nothing).
(* weaver-store/src/secret_file.rs:193-202 create_private_file *)
Definition create_private_file (name : bytes) : fsm SecretStoreError unit := fmap_err secret_backend (fs_create_new name).
(** [getrandom::fill] *)
Definition random_bytes (n : nat) : fsm SecretStoreError bytes := fun d =>
  match fill (SecretBackend (bstr "getrandom")) n (dk_entropy d) with
  | Ok (bs, e) => (mkDisk (dk_dir d) (dk_outcomes d) e, Some (Ok bs))
  | Err e => (mkDisk (dk_dir d) (dk_outcomes d) (tail (dk_entropy d)), Some (Err e))
  end.

Section store.
(** The AEAD is AES-256-GCM with the master key. *)
Context `{Hex} `{Aead}.
Variable (master_key : bytes).

(* weaver-store/src/secret_file.rs:45-48 EncryptedFileSecretStore::path_for *)
Definition path_for (id : SecretId) : bytes := hex_encode (SecretId_as_bytes id) ++ bstr ".wvs".
(* weaver-store/src/secret_file.rs:114-116 EncryptedFileSecretStore::seal_sync *)
Definition temp_path (suffix : bytes) : bytes := bstr ".secret-" ++ hex_encode suffix ++ bstr ".tmp".
(* weaver-store/src/secret_file.rs:186-191 associated_data *)
Definition associated_data (id : SecretId) : bytes := FILE_MAGIC ++ SecretId_as_bytes id.
(** The part of [open_sync] after the file has been read. *)
(* weaver-store/src/secret_file.rs:155-174 EncryptedFileSecretStore::open_sync *)
Definition unseal (id : SecretId) (bs : bytes) : result SecretStoreError bytes :=
  fail_if (Nat.ltb (length bs) (length FILE_MAGIC + FILE_NONCE_LEN + 16) || negb (bool_decide (take (length FILE_MAGIC) bs = FILE_MAGIC)))
    AuthenticationFailed;;
  let rest := drop (length FILE_MAGIC) bs in
  aead_decrypt master_key (take FILE_NONCE_LEN rest) (associated_data id) (drop FILE_NONCE_LEN rest) ?? AuthenticationFailed.
(* weaver-store/src/secret_file.rs:147-175 EncryptedFileSecretStore::open_sync *)
Definition open_sync (id : SecretId) : fsm SecretStoreError bytes :=
  bs ← fmap_err (fun e => match e with IoNotFound => SecretNotFound | _ => secret_backend e end) (fs_read (path_for id));
  flift (unseal id bs).
(* weaver-store/src/secret_file.rs:138-145 EncryptedFileSecretStore::compare_existing *)
Definition compare_existing (id : SecretId) (plaintext : bytes) : fsm SecretStoreError unit :=
  existing ← open_sync id;
  flift (if decide (existing = plaintext) then Ok tt else Err AlreadyExistsDifferent).
(* weaver-store/src/secret_file.rs:117-133 EncryptedFileSecretStore::seal_sync *)
Definition write_secret (temp : bytes) (id : SecretId) (plaintext nonce ciphertext : bytes) : fsm SecretStoreError unit :=
  create_private_file temp;;
  fmap_err secret_backend (fs_write_all temp FILE_MAGIC);;
  fmap_err secret_backend (fs_write_all temp nonce);;
  fmap_err secret_backend (fs_write_all temp ciphertext);;
  fmap_err secret_backend (fs_sync_file temp);;
  linked ← attempt (fs_hard_link temp (path_for id));
  match linked with
  | Ok _ => sync_directory
  | Err IoAlreadyExists => compare_existing id plaintext
  | Err e => flift (Err (secret_backend e))
  end.
(* weaver-store/src/secret_file.rs:91-136 EncryptedFileSecretStore::seal_sync *)
Definition seal_sync (id : SecretId) (plaintext : bytes) : fsm SecretStoreError unit :=
  found ← path_exists (path_for id);
  if (found : bool) then compare_existing id plaintext
  else
    nonce ← random_bytes FILE_NONCE_LEN;
    ciphertext ← flift (aead_encrypt master_key nonce (associated_data id) plaintext ?? AuthenticationFailed);
    suffix ← random_bytes 16;
    write_result ← attempt (write_secret (temp_path suffix) id plaintext nonce ciphertext);
    _ ← attempt (E := IoError) (fs_remove_file (temp_path suffix));
    flift write_result.
(* weaver-store/src/secret_file.rs:177-183 EncryptedFileSecretStore::delete_sync *)
Definition delete_sync (id : SecretId) : fsm SecretStoreError unit :=
  removed ← attempt (fs_remove_file (path_for id));
  match removed with
  | Ok _ => sync_directory
  | Err IoNotFound => mret tt
  | Err e => flift (Err (secret_backend e))
  end.

(** ** The asynchronous interface
    The work is done by a worker; one that stops is reported as an error. *)
(* weaver-store/src/secret_file.rs:223-225 join_error *)
Definition join_error : SecretStoreError := SecretBackend (bstr "secret store worker failed: ").
Definition spawn_blocking {A} (m : fsm SecretStoreError A) (d : Disk) : Disk * result SecretStoreError A :=
  let '(d', r) := m d in (d', match r with Some r => r | None => Err join_error end).
End store.

(** [EncryptedFileSecretStore]: the directory and the master key. *)
(* weaver-store/src/secret_file.rs:27-31 EncryptedFileSecretStore *)
Record EncryptedFileSecretStore : Type := mkFileStore { fs_disk : Disk; fs_master_key : bytes }.
(* weaver-store/src/secret_file.rs:61-87 EncryptedFileSecretStore *)
#[global] Instance FileSecretStore `{Hex} `{Aead} : SecretStore EncryptedFileSecretStore := {|
  seal st id plaintext :=
    let '(d, r) := spawn_blocking (seal_sync (fs_master_key st) id plaintext) (fs_disk st) in (mkFileStore d (fs_master_key st), r);
  open_secret st id := (spawn_blocking (open_sync (fs_master_key st) id) (fs_disk st)).2;
  delete_secret st id :=
    let '(d, r) := spawn_blocking (delete_sync id) (fs_disk st) in (mkFileStore d (fs_master_key st), r) |}.
(* weaver-store/src/secret_file.rs:62-64 EncryptedFileSecretStore::protection *)
#[global] Instance FileSecret_protection : Protected EncryptedFileSecretStore := fun _ => ExternalKeyEncrypted.
