(* ===== verification/ToyCrypto.v ===== *)
(** * A concrete instance of the cryptographic interfaces

    Executable functions that satisfy the laws assumed of Ed25519, BLAKE3
    and of the encryption primitives.  They have no security whatsoever; they show that the laws are consistent and
    let the theorems be applied to concrete inputs. *)

From S2P Require Import Prelude Wire Core Platform CertificateWire Certificates Symmetric.

(** A digest of [n] bytes: the last [n] bytes, padded in front. *)
Definition toy_fit (n : nat) (bs : bytes) : bytes :=
  repeat Byte.x00 (n - length bs) ++ drop (length bs - n) bs.
Definition toy_digest : bytes -> bytes := toy_fit 32.

Lemma toy_fit_len n bs : length (toy_fit n bs) = n.
Proof. unfold toy_fit; rewrite length_app, repeat_length, length_drop; lia. Qed.
Lemma toy_digest_len bs : length (toy_digest bs) = 32%nat.
Proof. apply toy_fit_len. Qed.

#[global] Instance toy_ed25519 : Ed25519 := {|
  vk_valid key := Nat.eqb (length key) 32;
  ed_public seed := seed;
  ed_sign seed m := seed ++ toy_digest m;
  ed_verify key m s := bool_decide (s = key ++ toy_digest m);
|}.
#[global] Instance toy_ed25519_laws : Ed25519Laws.
Proof.
  constructor; cbn -[toy_digest]; intros.
  - by apply Nat.eqb_eq.
  - done.
  - rewrite length_app, toy_digest_len; lia.
  - by apply bool_decide_eq_true.
Qed.

#[global] Instance toy_blake3 : Blake3 := {|
  derive_key context material := to_be 32 (from_be context + from_be material);
  blake3_hash := toy_digest;
  keyed_hash key message := to_be 32 (from_be key + from_be message);
|}.
#[global] Instance toy_blake3_laws : Blake3Laws.
Proof. constructor; intros; [apply length_to_be | apply toy_digest_len | apply length_to_be]. Qed.

(** Encryption appends a tag and decryption checks it. *)
Definition toy_tag (key nonce aad : bytes) : bytes := toy_fit 16 (key ++ nonce ++ aad).
#[global] Instance toy_aead : Aead := {|
  aead_encrypt key nonce aad msg := Some (msg ++ toy_tag key nonce aad);
  aead_decrypt key nonce aad ct :=
    let n := (length ct - 16)%nat in
    if bool_decide (drop n ct = toy_tag key nonce aad) then Some (take n ct) else None;
|}.
#[global] Instance toy_aead_laws : AeadLaws.
Proof.
  constructor; cbn -[toy_tag]; intros key nonce aad msg ct [= <-];
    assert (length (toy_tag key nonce aad) = 16%nat) as Ht by apply toy_fit_len; [|rewrite length_app; lia].
  replace (length (msg ++ _) - 16)%nat with (length msg) by (rewrite length_app; lia).
  rewrite take_app_length, drop_app_length; by rewrite bool_decide_true.
Qed.
#[global] Instance toy_hpke : Hpke := {|
  kem_sk_valid sk := Nat.eqb (length sk) 32;
  kem_pk_valid pk := Nat.eqb (length pk) 32;
  kem_sk_to_pk sk := sk;
  hpke_seal _ pk info aad msg := if Nat.eqb (length pk) 32 then Some (pk, msg ++ toy_tag pk info aad) else None;
  hpke_open sk enc info aad ct :=
    if bool_decide (sk = enc) then aead_decrypt enc info aad ct else None;
|}.
#[global] Instance toy_hpke_laws : HpkeLaws.
Proof.
  constructor; cbn [kem_sk_valid kem_sk_to_pk hpke_seal hpke_open toy_hpke]; [done | |].
  - intros seed sk info aad msg enc ct Hsk; rewrite Hsk; intros [= <- <-].
    rewrite bool_decide_true by done; by apply aead_round_trip.
  - intros seed pk info aad msg enc ct; destruct (Nat.eqb _ _) eqn:Hl; [|done]; intros [= <- <-].
    apply Nat.eqb_eq in Hl; split; [done|]; rewrite length_app; unfold toy_tag; by rewrite toy_fit_len.
Qed.
#[global] Instance toy_hpke_exclusive : HpkeExclusive.
Proof.
  intros seed sk pk info aad msg enc ct; cbn [kem_sk_to_pk hpke_seal hpke_open toy_hpke].
  destruct (Nat.eqb _ _); [|done]; intros [= <- _] Hne; by rewrite bool_decide_false.
Qed.

#[global] Instance toy_platform : Platform := {|
  endpoint_public secret := secret;
  endpoint_id_valid bs := Nat.eqb (length bs) 32;
  relay_url_parse url := Some url;
  endpoint_data ts := ts;
|}.
#[global] Instance toy_platform_laws : PlatformLaws.
Proof. done. Qed.

(** Keys and times the witnesses use. *)
Definition toy_root : NetworkRootKey := NetworkRootKey_from_bytes (repeat Byte.x11 32).
Definition toy_admin : OnlineAdminKey := OnlineAdminKey_from_bytes (repeat Byte.x22 32).
Definition toy_member : SigningKeypair := SigningKeypair_from_bytes (repeat Byte.x33 32).
Definition toy_app : AppRootKey := AppRootKey_from_bytes (repeat Byte.x44 32).
Definition toy_network : NetworkId := Eval vm_compute in root_network_id (NetworkRootKey_public toy_root).
Definition toy_endpoint : bytes := repeat Byte.x55 32.
Definition toy_encryption : bytes := repeat Byte.x66 32.

(** A chain of credentials valid between 200 and 600. *)
Module Samples.
Definition ac : AdminCertificate := Eval vm_compute in
  get_ok (AdminCertificate_issue toy_root (OnlineAdminKey_public_bytes toy_admin) ADMIN_PERMISSION_ALL 1 100 900).
Definition member_roles : Z :=
  MemberRoles.union (MemberRoles.union (MemberRoles.union (MemberRoles.union MemberRoles.MEMBER MemberRoles.SERVICE)
    MemberRoles.RELAY) MemberRoles.BOOTSTRAP) MemberRoles.AUTHORITY.
Definition mc : MemberCertificate := Eval vm_compute in
  get_ok (MemberCertificate_issue_by_admin toy_admin (payload ac) (SigningKeypair_public_bytes toy_member)
            toy_encryption member_roles 2 200 800).
Definition eb : EndpointBinding := Eval vm_compute in get_ok (EndpointBinding_issue toy_member (payload mc) toy_endpoint 0 700).
Definition request : AppRegistrationRequest := Eval vm_compute in AppRegistrationRequest_create toy_app toy_network 0.
Definition registration : AppRegistration := Eval vm_compute in
  get_ok (AppRegistration_issue_by_admin toy_admin (payload ac) (mkVerifiedAppRequest (payload request))).
Definition binding : AppBinding := Eval vm_compute in
  get_ok (AppBinding_issue toy_app toy_network (mc_member_id (payload mc)) RoleServer None 600 []).
End Samples.
