(* ===== verification/SecretFileFacts.v ===== *)
(** * Properties of the encrypted file store

    The store keeps the contract of [SecretStore], whichever calls to the operating system
    fail, and what it has acknowledged survives a loss of power, unless an earlier attempt
    for the same secret had failed. *)

From S2P Require Import Prelude Store Symmetric ToyCrypto SecretFile.

(** ** Programs on a disk *)
Section programs.
Context {E : Type}.
Lemma fsm_bind_inv {A B} (m : fsm E A) (f : A -> fsm E B) d d2 r :
  (m ≫= f) d = (d2, r) ->
  (exists a d1, m d = (d1, Some (Ok a)) /\ f a d1 = (d2, r)) \/
  (exists e, m d = (d2, Some (Err e)) /\ r = Some (Err e)) \/ m d = (d2, None) /\ r = None.
Proof. cbv [mbind fsm_bind]; destruct (m d) as [d1 [[a|e]|]]; intros Hf; [eauto | injection Hf as <- <-; eauto..]. Qed.
Lemma fmap_err_inv {F A} (f : E -> F) (m : fsm E A) d d' r :
  fmap_err f m d = (d', r) -> exists r0, m d = (d', r0) /\ r = map_err f <$> r0.
Proof. unfold fmap_err; destruct (m d) as [d1 r0]; intros [= <- <-]; eauto. Qed.
Lemma attempt_inv {F A} (m : fsm E A) d d' (r : option (result F (result E A))) :
  attempt m d = (d', r) -> exists r0, m d = (d', r0) /\ r = Ok <$> r0.
Proof. unfold attempt; destruct (m d) as [d1 r0]; intros [= <- <-]; eauto. Qed.
End programs.
(** What a call did: all of it, or what it leaves when it stops. *)
Lemma syscall_inv {A} (act : FileDir -> FileDir * result IoError A) half d d' r :
  syscall act half d = (d', r) ->
  (exists x, act (dk_dir d) = (dk_dir d', x) /\ r = Some x) \/
  (exists n, dk_dir d' = half n (dk_dir d)) /\ (r = None \/ exists message, r = Some (Err (IoOther message))).
Proof.
  unfold syscall; destruct (dk_outcomes d) as [|[|n msg|n] rest].
  1,2: destruct (act (dk_dir d)) as [dir x]; intros [= <- <-]; left; eauto.
  all: intros [= <- <-]; right; cbn; eauto.
Qed.

Section names.
Context `{Lhex : HexLaws}.
Lemma path_for_inj id id' : path_for id = path_for id' -> id = id'.
Proof.
  unfold path_for; intros Hp%(inj (fun x => x ++ bstr ".wvs")).
  apply (f_equal hex_decode) in Hp; rewrite !hex_round_trip in Hp; injection Hp; destruct id, id'; cbn; congruence.
Qed.
Lemma temp_path_other suffix id : temp_path suffix <> path_for id.
Proof.
  unfold temp_path, path_for; pose proof (hex_digits (SecretId_as_bytes id)) as Hd.
  destruct (hex_encode (SecretId_as_bytes id)) as [|b bs]; [done|]; intros [= <- _].
  apply Forall_inv in Hd; revert Hd; vm_compute; set_solver.
Qed.
End names.

(** ** What each part of a program does to the secrets *)
Section effects.
Context `{Lhex : HexLaws} `{Laead : AeadLaws}.
Variable (key : bytes).
Implicit Types (d : Disk) (dir : FileDir) (id : SecretId).

Definition same_secrets dir dir' : Prop := forall id,
  fd_files dir' !! path_for id = fd_files dir !! path_for id /\ fd_durable dir' !! path_for id = fd_durable dir !! path_for id.
#[global] Instance same_secrets_refl : Reflexive same_secrets.
Proof. by intros dir id. Qed.
#[global] Instance same_secrets_trans : Transitive same_secrets.
Proof. intros d1 d2 d3 H12 H23 id; destruct (H12 id) as [<- <-]; apply H23. Qed.

(** A program that leaves the secrets alone. *)
Definition quiet {E A} (m : fsm E A) : Prop := forall d d' r, m d = (d', r) -> same_secrets (dk_dir d) (dk_dir d').
Lemma quiet_bind {E A B} (m : fsm E A) (f : A -> fsm E B) : quiet m -> (forall a, quiet (f a)) -> quiet (m ≫= f).
Proof.
  intros Hm Hf d d' r [(a & d1 & Ha & Hb)|[(e & Ha & _)|[Ha _]]]%fsm_bind_inv; [|by eapply Hm..].
  etransitivity; [by eapply Hm | by eapply Hf].
Qed.
Lemma quiet_lift {E A} (x : result E A) : quiet (flift x).
Proof. by intros d d' r [= <- <-]. Qed.
Lemma quiet_map_err {E F A} (f : E -> F) (m : fsm E A) : quiet m -> quiet (fmap_err f m).
Proof. intros Hm d d' r (r0 & Hr & _)%fmap_err_inv; by eapply Hm. Qed.
Lemma quiet_attempt {E F A} (m : fsm E A) : quiet m -> quiet (attempt (F := F) m).
Proof. intros Hm d d' r (r0 & Hr & _)%attempt_inv; by eapply Hm. Qed.
Lemma quiet_syscall {A} (act : FileDir -> FileDir * result IoError A) half :
  (forall dir dir' x, act dir = (dir', x) -> same_secrets dir dir') -> (forall n dir, same_secrets dir (half n dir)) -> quiet (syscall act half).
Proof. intros Ha Hh d d' r [(x & Hx & _)|[[n ->] _]]%syscall_inv; [by eapply Ha | apply Hh]. Qed.
Lemma quiet_random n : quiet (random_bytes n).
Proof. intros d d' r; unfold random_bytes; destruct (fill _ _ _) as [[bs e]|e]; by intros [= <- <-]. Qed.
Lemma same_set_file name f dir : (forall id, name <> path_for id) -> same_secrets dir (set_file name f dir).
Proof. intros Hn id; split; cbn; [by rewrite lookup_insert_ne|done]. Qed.
Lemma same_append name bs dir : (forall id, name <> path_for id) -> same_secrets dir (append name bs dir).
Proof. intros Hn; unfold append; destruct (_ !! _); [by apply same_set_file | done]. Qed.

Section temporary.
Variable (name : bytes).
Hypothesis (Hname : forall id, name <> path_for id).
Lemma quiet_create : quiet (fs_create_new name).
Proof. apply quiet_syscall; [|done]; intros dir dir' x; destruct (_ !! _); intros [= <- <-]; [done | by apply same_set_file]. Qed.
Lemma quiet_write bs : quiet (fs_write_all name bs).
Proof. apply quiet_syscall; [intros dir dir' x [= <- <-]|intros n dir]; by apply same_append. Qed.
Lemma quiet_sync_file : quiet (fs_sync_file name).
Proof. apply quiet_syscall; [|done]; intros dir dir' x [= <- <-]; destruct (_ !! _); [by apply same_set_file | done]. Qed.
Lemma quiet_remove : quiet (fs_remove_file name).
Proof.
  apply quiet_syscall; [|done]; intros dir dir' x; destruct (_ !! _); intros [= <- <-]; [|done].
  intros id; split; cbn; [by rewrite lookup_delete_ne | done].
Qed.
End temporary.

Lemma quiet_open id : quiet (open_sync key id).
Proof. apply quiet_bind; [apply quiet_map_err, quiet_syscall; [by intros dir dir' x [= <- <-] | done]|]; intros a; apply quiet_lift. Qed.
Lemma quiet_compare id v : quiet (compare_existing key id v).
Proof. apply quiet_bind; [apply quiet_open|]; intros a; apply quiet_lift. Qed.

(** The secret a directory holds under an identifier. *)
Definition holds dir id (v : bytes) : Prop := exists f, fd_files dir !! path_for id = Some f /\ unseal key id (f_bytes f) = Ok v.
Lemma open_Ok id d d' v : open_sync key id d = (d', Some (Ok v)) -> holds (dk_dir d) id v.
Proof.
  intros [(bs & d1 & Hb & Hu)|[(e & _ & ?)|[_ ?]]]%fsm_bind_inv; [|done..].
  apply fmap_err_inv in Hb as (r0 & Hb & Hr); apply syscall_inv in Hb as [(x & Hx & ->)|[_ [->|[msg ->]]]]; [|done..].
  injection Hx as _ <-; destruct (fd_files (dk_dir d) !! path_for id) as [f|] eqn:Hf; [|done].
  injection Hr as ->; injection Hu as _ Hu; by exists f.
Qed.
Lemma holds_same dir dir' id v : same_secrets dir dir' -> holds dir id v -> holds dir' id v.
Proof. intros Hs (f & Hf & Hu); exists f; destruct (Hs id) as [-> _]; done. Qed.

(** ** Sealing *)
Lemma unseal_sealed id nonce v ct :
  length nonce = FILE_NONCE_LEN -> aead_encrypt key nonce (associated_data id) v = Some ct ->
  unseal key id (FILE_MAGIC ++ nonce ++ ct) = Ok v.
Proof.
  intros Hn He; pose proof (aead_overhead _ _ _ _ _ He) as Hl; unfold unseal.
  rewrite drop_app_length, take_app_length, bool_decide_true by done; rewrite take_app_length', drop_app_length' by done.
  rewrite (aead_round_trip _ _ _ _ _ He), !length_app, Hn.
  destruct (Nat.ltb _ _) eqn:Hlt; [apply Nat.ltb_lt in Hlt; lia | done].
Qed.
Section writing.
Variable (name : bytes).
Lemma create_Ok d d' : fs_create_new name d = (d', Some (Ok tt)) -> fd_files (dk_dir d') !! name = Some (mkFile [] false).
Proof.
  intros [(x & Hx & [= <-])|[_ [?|[msg ?]]]]%syscall_inv; [|done..]; destruct (_ !! _); [done|].
  injection Hx as <-; apply lookup_insert_eq.
Qed.
Lemma write_Ok f bs d d' : fd_files (dk_dir d) !! name = Some f -> fs_write_all name bs d = (d', Some (Ok tt)) ->
  fd_files (dk_dir d') !! name = Some (mkFile (f_bytes f ++ bs) false).
Proof.
  intros Hf [(x & Hx & [= <-])|[_ [?|[msg ?]]]]%syscall_inv; [|done..].
  injection Hx as <-; unfold append; rewrite Hf; apply lookup_insert_eq.
Qed.
Lemma sync_Ok f d d' : fd_files (dk_dir d) !! name = Some f -> fs_sync_file name d = (d', Some (Ok tt)) ->
  fd_files (dk_dir d') !! name = Some (mkFile (f_bytes f) true).
Proof.
  intros Hf [(x & Hx & [= <-])|[_ [?|[msg ?]]]]%syscall_inv; [|done..].
  injection Hx as <-; rewrite Hf; apply lookup_insert_eq.
Qed.
End writing.
Lemma link_inv name id d d' r :
  fs_hard_link name (path_for id) d = (d', r) ->
  r = Some (Ok tt) /\ (exists f, fd_files (dk_dir d) !! name = Some f /\ fd_files (dk_dir d) !! path_for id = None /\
    dk_dir d' = set_file (path_for id) f (dk_dir d)) \/
  r <> Some (Ok tt) /\ dk_dir d' = dk_dir d.
Proof.
  intros [(x & Hx & ->)|[[n ->] Hr]]%syscall_inv; [|right; split; [destruct Hr as [->|[msg ->]]; done | done]].
  destruct (_ !! name) as [f|] eqn:Hf; [destruct (_ !! path_for id) eqn:Hl|]; injection Hx as Hd <-; [by right| |by right].
  left; split; [done|]; exists f; done.
Qed.
Lemma sync_directory_inv d d' r :
  sync_directory d = (d', r) ->
  fd_files (dk_dir d') = fd_files (dk_dir d) /\ r <> Some (Err AlreadyExistsDifferent) /\
  (fd_durable (dk_dir d') = fd_durable (dk_dir d) /\ r <> Some (Ok tt) \/ fd_durable (dk_dir d') = fd_files (dk_dir d) /\ r = Some (Ok tt)).
Proof.
  intros (r0 & Hs & ->)%fmap_err_inv; apply syscall_inv in Hs as [(x & Hx & ->)|[[n Hn] Hr]].
  - injection Hx as <- <-; cbn; auto.
  - rewrite Hn; destruct Hr as [->|[msg ->]]; cbn; auto.
Qed.

Definition durable_same dir dir' : Prop := forall id, fd_durable dir' !! path_for id = fd_durable dir !! path_for id.
Definition durable_all dir' : Prop := forall id, fd_durable dir' !! path_for id = fd_files dir' !! path_for id.
(** The file of the secret has appeared, complete. *)
Definition linked dir dir' id v : Prop :=
  fd_files dir !! path_for id = None /\
  (exists f, fd_files dir' !! path_for id = Some f /\ f_synced f = true /\ unseal key id (f_bytes f) = Ok v) /\
  (forall id', id' <> id -> fd_files dir' !! path_for id' = fd_files dir !! path_for id').
Definition seal_effect dir dir' id v (r : option (result SecretStoreError unit)) : Prop :=
  same_secrets dir dir' /\ (r = Some (Ok tt) -> holds dir' id v) /\
    (r = Some (Err AlreadyExistsDifferent) -> exists w, w <> v /\ holds dir' id w) \/
  linked dir dir' id v /\ r <> Some (Err AlreadyExistsDifferent) /\
    (durable_same dir dir' /\ r <> Some (Ok tt) \/ durable_all dir').
Lemma seal_effect_before dir dir1 dir' id v r : same_secrets dir dir1 -> seal_effect dir1 dir' id v r -> seal_effect dir dir' id v r.
Proof.
  intros Hs [[Hs' Hr]|((Hn & Hf & Ho) & Hr & Hd)].
  - left; split; [by etransitivity | exact Hr].
  - right; unfold linked; split_and!; [destruct (Hs id) as [<- _]; done|done| |done|].
    + intros id' Hne; rewrite Ho by done; apply Hs.
    + destruct Hd as [[Hd ?]|?]; [left; split; [|done]; intros id'; rewrite Hd; apply Hs | by right].
Qed.
Lemma seal_effect_after dir dir1 dir' id v r : seal_effect dir dir1 id v r -> same_secrets dir1 dir' -> seal_effect dir dir' id v r.
Proof.
  intros [(Hs' & Hr & Hw)|((Hn & (f & Hf & Hy) & Ho) & Hr & Hd)] Hs.
  - left; split_and!; [by etransitivity | intros Hk; eapply holds_same; eauto |].
    intros Hk; destruct (Hw Hk) as (w & ? & ?); exists w; split; [done | by eapply holds_same].
  - right; unfold linked; split_and!; [done| | |done|].
    + exists f; destruct (Hs id) as [-> _]; done.
    + intros id' Hne; destruct (Hs id') as [-> _]; by apply Ho.
    + destruct Hd as [[Hd ?]|Hd]; [left; split; [|done]|right]; intros id'; destruct (Hs id') as [Hf' ->]; rewrite ?Hf'; apply Hd.
Qed.
Lemma seal_effect_died dir dir' id v r : seal_effect dir dir' id v r -> seal_effect dir dir' id v None.
Proof. intros [(? & _)|(Hl & _ & Hd)]; [by left|right]; split; [done|]; split; [done|]; destruct Hd as [[? _]|?]; auto. Qed.
Lemma compare_effect id v d d' r : compare_existing key id v d = (d', r) -> seal_effect (dk_dir d) (dk_dir d') id v r.
Proof.
  intros Hc; pose proof (quiet_compare _ _ _ _ _ Hc) as Hs; left; split; [done|]; unfold compare_existing in Hc.
  apply fsm_bind_inv in Hc as [(w & d1 & Ho%open_Ok & Hu)|[(e & Ho & ->)|[_ ->]]]; [|split; [done|intros [= ->]]|done].
  - injection Hu as <- Hu; apply (holds_same _ _ _ _ Hs) in Ho; case_decide; subst r; split; [by subst|done|done|by exists w].
  - exfalso; apply fsm_bind_inv in Ho as [(bs & d1 & _ & Hu)|[(e & Hr & Hx)|[_ ?]]]; [| |done].
    + unfold flift, unseal in Hu; injection Hu as _ Hu; destruct (fail_if _ _) eqn:Hf; cbn in Hu; [by destruct (aead_decrypt _ _ _ _)|].
      apply fail_if_Err in Hf as [_ ->]; congruence.
    + injection Hx as <-; apply fmap_err_inv in Hr as (r0 & Hr & Hx); by destruct r0 as [[|[]]|].
Qed.
(** Programs that moreover do not report that the secret exists. *)
Definition tame {A} (m : fsm SecretStoreError A) : Prop := quiet m /\ forall d d', m d <> (d', Some (Err AlreadyExistsDifferent)).
Lemma tame_backend {A} (m : fsm IoError A) : quiet m -> tame (fmap_err secret_backend m).
Proof. intros Hm; split; [by apply quiet_map_err|]; intros d d' (r0 & _ & Hr)%fmap_err_inv; by destruct r0 as [[]|]. Qed.
Lemma tame_random n : tame (random_bytes n).
Proof.
  split; [apply quiet_random|]; intros d d'; unfold random_bytes; destruct (fill _ _ _) as [[bs e]|e] eqn:Hf; [done|].
  intros [= _ ->]; revert Hf; unfold fill; cbv [mbind rnd_bind]; destruct (draw _) as [[[bs|] e]|e] eqn:Hd; [destruct (Nat.eqb _ _)| |]; try done.
  unfold draw in Hd; by destruct (dk_entropy d).
Qed.
Lemma effect_bind {A} (m : fsm SecretStoreError A) f id v d d' r :
  tame m -> (m ≫= f) d = (d', r) ->
  (forall a d1, m d = (d1, Some (Ok a)) -> f a d1 = (d', r) -> seal_effect (dk_dir d1) (dk_dir d') id v r) ->
  seal_effect (dk_dir d) (dk_dir d') id v r.
Proof.
  intros [Hm Hne] [(a & d1 & Ha & Hf)|[(e & Ha & ->)|[Ha ->]]]%fsm_bind_inv Hk; [| |by left; split_and!; [eapply Hm|..]].
  - eapply seal_effect_before; [by eapply Hm | by eapply Hk].
  - left; split_and!; [by eapply Hm | done |]; intros [= ->]; by apply Hne in Ha.
Qed.
Lemma fmap_err_Ok {E F A} (f : E -> F) (m : fsm E A) d d' a : fmap_err f m d = (d', Some (Ok a)) -> m d = (d', Some (Ok a)).
Proof. intros (r0 & -> & Hr)%fmap_err_inv; destruct r0 as [[b|e]|]; [by injection Hr as -> | done..]. Qed.
Lemma write_secret_effect suffix id v nonce ct d d' r :
  length nonce = FILE_NONCE_LEN -> aead_encrypt key nonce (associated_data id) v = Some ct ->
  write_secret key (temp_path suffix) id v nonce ct d = (d', r) -> seal_effect (dk_dir d) (dk_dir d') id v r.
Proof.
  intros Hn He Hw; pose proof (temp_path_other suffix) as Hname; set (name := temp_path suffix) in *.
  unfold write_secret in Hw; eapply effect_bind; [|exact Hw|]; [apply tame_backend, quiet_create, Hname|]; clear Hw; intros [] d1 H1%fmap_err_Ok%create_Ok Hw.
  do 3 (eapply effect_bind; [|exact Hw|]; [apply tame_backend, quiet_write, Hname|]; clear Hw;
    intros [] ? ?%fmap_err_Ok Hw; eapply write_Ok in H1; [|eassumption]; cbn [f_bytes] in H1).
  eapply effect_bind; [|exact Hw|]; [apply tame_backend, quiet_sync_file, Hname|]; clear Hw;
    intros [] d5 H5%fmap_err_Ok Hw; eapply sync_Ok in H5; [|eassumption].
  apply fsm_bind_inv in Hw as [(x & d6 & H6 & Hw)|[(e & H6 & _)|[H6 ->]]];
    [|apply attempt_inv in H6 as ([?|] & _ & ?); done|]; apply attempt_inv in H6 as (x0 & H6 & Hx).
  - apply link_inv in H6 as [(-> & f & Hf & Hnone & Hdir)|[Hx0 Hdir]].
    + injection Hx as ->; rewrite H5 in Hf; injection Hf as <-; apply sync_directory_inv in Hw as (Hf & Hne & Hd).
      right; unfold linked, durable_same, durable_all; split_and!; [done| | |done|].
      * eexists; rewrite Hf, Hdir; split; [apply lookup_insert_eq|]; cbn [f_bytes f_synced]; split; [done|]; exact (unseal_sealed id nonce v ct Hn He).
      * intros id' Hid; rewrite Hf, Hdir; cbn; apply lookup_insert_ne; intros Hp%path_for_inj; done.
      * destruct Hd as [[Hd ?]|[Hd _]]; [left; split; [|done]; intros id'; by rewrite Hd, Hdir | right; intros id'; by rewrite Hd, Hf].
    + rewrite <- Hdir; destruct x0 as [x0|]; [|done]; injection Hx as ->.
      destruct x0 as [[]|[| |msg]]; [done| | |].
      2: by eapply compare_effect.
      all: injection Hw as <- <-; by left.
  - destruct x0; [done|]; apply link_inv in H6 as [[? _]|[_ ->]]; [done | by left].
Qed.
Lemma seal_sync_effect id v d d' r : seal_sync key id v d = (d', r) -> seal_effect (dk_dir d) (dk_dir d') id v r.
Proof.
  intros Hs; unfold seal_sync in Hs; eapply effect_bind; [|exact Hs|]; clear Hs.
  - split; [apply quiet_bind; [apply quiet_attempt, quiet_syscall; [by intros dir dir' x [= <- <-] | done]|]; intros a; apply quiet_lift|].
    intros d1 d2 [(? & ? & _ & ?)|[(e & Ha & _)|[_ ?]]]%fsm_bind_inv; [done| |done]; apply attempt_inv in Ha as ([] & _ & ?); done.
  - intros [] d1 _ Hs.
    { by eapply compare_effect. }
    eapply effect_bind; [apply tame_random | exact Hs |]; clear Hs; intros nonce d2 Hn Hs.
    eapply effect_bind; [|exact Hs|]; [split; [apply quiet_lift|]; intros ? ? [= _ [_ ?]%ok_or_Err]; done|]; clear Hs; intros ct d3 Hc Hs.
    eapply effect_bind; [apply tame_random | exact Hs |]; clear Hs; intros suffix d4 _ Hs.
    injection Hc as <- He%ok_or_Ok.
    assert (length nonce = FILE_NONCE_LEN) as Hlen.
    { unfold random_bytes in Hn; destruct (fill _ _ _) as [[bs e]|] eqn:Hf; [|done]; injection Hn as _ <-; by eapply fill_Ok. }
    apply fsm_bind_inv in Hs as [(w & d5 & Hw & Hs)|[(e & Hw & _)|[Hw ->]]]; apply attempt_inv in Hw as (w0 & Hw & Hx).
    + apply write_secret_effect in Hw; [|done..]; destruct w0 as [w0|]; [|done]; injection Hx as ->.
      apply fsm_bind_inv in Hs as [(u & d6 & Hu & Hs)|[(e & Hu & _)|[Hu ->]]]; apply attempt_inv in Hu as (u0 & Hu & Hx).
      * injection Hs as <- <-; eapply seal_effect_after; [done|]; eapply quiet_remove; [|done]; apply temp_path_other.
      * by destruct u0.
      * eapply seal_effect_died, seal_effect_after; [done|]; eapply quiet_remove; [|done]; apply temp_path_other.
    + by destruct w0.
    + apply write_secret_effect in Hw; [|done..]; by destruct w0.
Qed.

(** ** Deleting *)
Definition delete_effect dir dir' id (r : option (result SecretStoreError unit)) : Prop :=
  same_secrets dir dir' /\ (r = Some (Ok tt) -> fd_files dir' !! path_for id = None) \/
  (fd_files dir' !! path_for id = None /\ forall id', id' <> id -> fd_files dir' !! path_for id' = fd_files dir !! path_for id') /\
    (durable_same dir dir' /\ r <> Some (Ok tt) \/ durable_all dir').
Lemma delete_sync_effect id d d' r : delete_sync id d = (d', r) -> delete_effect (dk_dir d) (dk_dir d') id r.
Proof.
  unfold delete_sync; intros [(x & d1 & H1 & Hw)|[(e & H1 & _)|[H1 ->]]]%fsm_bind_inv; apply attempt_inv in H1 as (x0 & H1 & Hx);
    [|by destruct x0|].
  - destruct x0 as [x0|]; [|done]; injection Hx as ->; apply syscall_inv in H1 as [(y & Hy & [= ->])|[[n Hn] [?|[msg [= ->]]]]]; [|done|].
    + destruct (fd_files (dk_dir d) !! path_for id) as [f|] eqn:Hf; injection Hy as Hd <-.
      * apply sync_directory_inv in Hw as (Hfs & _ & Hdur); rewrite <- Hd in Hfs, Hdur; cbn in Hfs, Hdur; right.
        unfold durable_same, durable_all; rewrite Hfs; split_and!; [apply lookup_delete_eq| |].
        -- intros id' Hid; apply lookup_delete_ne; intros Hp%path_for_inj; done.
        -- destruct Hdur as [[-> ?]|[-> _]]; auto.
      * injection Hw as <- <-; rewrite <- Hd; left; done.
    + injection Hw as <- <-; rewrite Hn; by left.
  - destruct x0; [done|]; apply syscall_inv in H1 as [(y & Hy & ?)|[[n Hn] _]]; [done|]; rewrite Hn; by left.
Qed.

(** ** The contract of the trait *)
Definition id_of_name (name : bytes) : option SecretId :=
  bs ← hex_decode (take (length name - 4) name);
  if decide (path_for (SecretId_from_bytes bs) = name) then Some (SecretId_from_bytes bs) else None.
Definition ok_of {E A} (r : result E A) : option A := match r with Ok a => Some a | Err _ => None end.
Definition file_view (files : gmap bytes SecretFileEntry) : gmap SecretId bytes :=
  map_fold (fun name f acc =>
    match id_of_name name with
    | Some id => match unseal key id (f_bytes f) with Ok v => <[id := v]> acc | Err _ => acc end
    | None => acc
    end) ∅ files.
Lemma id_of_path id : id_of_name (path_for id) = Some id.
Proof.
  assert (take (length (path_for id) - 4) (path_for id) = hex_encode (SecretId_as_bytes id)) as Ht
    by (unfold path_for; rewrite length_app, Nat.add_sub; apply take_app_length).
  unfold id_of_name; rewrite Ht, hex_round_trip.
  destruct id as [bs]; cbn [SecretId_as_bytes mbind option_bind]; by rewrite decide_True.
Qed.
Lemma id_of_name_Some name id : id_of_name name = Some id -> name = path_for id.
Proof. unfold id_of_name; destruct (hex_decode _); cbn; [case_decide|]; naive_solver. Qed.
Lemma file_view_lookup files id :
  file_view files !! id = files !! path_for id ≫= fun f => ok_of (unseal key id (f_bytes f)).
Proof.
  unfold file_view; revert id; apply (map_fold_weak_ind (fun acc m => forall id,
    acc !! id = m !! path_for id ≫= fun f => ok_of (unseal key id (f_bytes f)))); [done|].
  intros name f m acc Hm IH id; destruct (id_of_name name) as [id0|] eqn:Hid.
  - apply id_of_name_Some in Hid as ->; destruct (decide (id = id0)) as [->|Hne].
    + rewrite lookup_insert_eq; cbn; destruct (unseal key id0 (f_bytes f)) eqn:Hu; cbn; [apply lookup_insert_eq|].
      rewrite IH, Hm; done.
    + rewrite lookup_insert_ne by (intros Hp%path_for_inj; congruence); rewrite <- IH.
      destruct (unseal _ _ _); [by rewrite lookup_insert_ne | done].
  - rewrite lookup_insert_ne; [apply IH|]; intros ->; by rewrite id_of_path in Hid.
Qed.
Lemma view_same dir dir' : same_secrets dir dir' -> file_view (fd_files dir') = file_view (fd_files dir).
Proof. intros Hs; apply map_eq; intros id; rewrite !file_view_lookup; destruct (Hs id) as [-> _]; done. Qed.
Lemma view_linked dir dir' id v :
  linked dir dir' id v -> file_view (fd_files dir') = <[id := v]> (file_view (fd_files dir)) /\ file_view (fd_files dir) !! id = None.
Proof.
  intros (Hn & (f & Hf & _ & Hu) & Ho); split; [|by rewrite file_view_lookup, Hn].
  apply map_eq; intros id'; destruct (decide (id' = id)) as [->|Hne].
  - rewrite lookup_insert_eq, file_view_lookup, Hf; cbn; by rewrite Hu.
  - rewrite lookup_insert_ne by done; rewrite !file_view_lookup, Ho; done.
Qed.
Lemma view_deleted dir dir' id :
  fd_files dir' !! path_for id = None -> (forall id', id' <> id -> fd_files dir' !! path_for id' = fd_files dir !! path_for id') ->
  file_view (fd_files dir') = delete id (file_view (fd_files dir)).
Proof.
  intros Hn Ho; apply map_eq; intros id'; destruct (decide (id' = id)) as [->|Hne]; [by rewrite lookup_delete_eq, file_view_lookup, Hn|].
  rewrite lookup_delete_ne by done; rewrite !file_view_lookup, Ho; done.
Qed.
Lemma delete_never_missing id d d' : delete_sync id d <> (d', Some (Err SecretNotFound)).
Proof.
  unfold delete_sync; intros [(x & d1 & _ & Hw)|[(e & Ha & _)|[_ ?]]]%fsm_bind_inv; [| |done].
  - destruct x as [[]|[]]; [|done..]; unfold sync_directory in Hw; apply fmap_err_inv in Hw as (r0 & _ & Hr); by destruct r0 as [[|]|].
  - apply attempt_inv in Ha as (x0 & _ & Hx); by destruct x0.
Qed.
Lemma view_holds dir id v : holds dir id v -> file_view (fd_files dir) !! id = Some v.
Proof. intros (f & Hf & Hu); rewrite file_view_lookup, Hf; cbn; by rewrite Hu. Qed.
End effects.

#[global] Program Instance FileSecretLaws `{HexLaws} `{AeadLaws} : SecretStoreLaws EncryptedFileSecretStore := {|
  secret_view st := file_view (fs_master_key st) (fd_files (dk_dir (fs_disk st))) |}.
Next Obligation.
  intros ? ? ? ? st id v; cbn; unfold spawn_blocking; destruct (open_sync _ _ _) as [d [r|]] eqn:Ho; [cbn; intros ->|done].
  by eapply view_holds, open_Ok.
Qed.
Next Obligation.
  intros ? ? ? ? st id; cbn; unfold spawn_blocking; destruct (open_sync _ _ _) as [d [r|]] eqn:Ho; [cbn; intros ->|done].
  unfold open_sync in Ho; apply fsm_bind_inv in Ho as [(bs & d1 & _ & Hu)|[(e & Hr & Hx)|[_ ?]]]; [exfalso| |done].
  - unfold flift, unseal in Hu; injection Hu as _ Hu; destruct (fail_if _ _) eqn:Hf; cbn in Hu; [by destruct (aead_decrypt _ _ _ _)|].
    apply fail_if_Err in Hf as [_ ->]; congruence.
  - injection Hx as <-; apply fmap_err_inv in Hr as (r0 & Hr & Hx); apply syscall_inv in Hr as [(x & Hx' & ->)|[_ [->|[msg ->]]]]; [|done..].
    injection Hx' as _ <-; rewrite file_view_lookup; destruct (_ !! _) as [f|]; [done | done].
Qed.
Next Obligation.
  intros ? ? ? ? st id v st'; cbn; unfold spawn_blocking; destruct (seal_sync _ _ _ _) as [d [r|]] eqn:Hs; intros [= <- ->].
  apply seal_sync_effect in Hs as [(Hs & Hh & _)|(Hl & _ & _)]; cbn.
  - rewrite (view_same _ _ _ Hs); specialize (Hh eq_refl); apply view_holds in Hh; rewrite (view_same _ _ _ Hs) in Hh.
    by rewrite insert_id; auto.
  - apply view_linked in Hl as [-> ?]; auto.
Qed.
Next Obligation.
  intros ? ? ? ? st id v st' e; cbn; unfold spawn_blocking; destruct (seal_sync _ _ _ _) as [d r] eqn:Hs; intros [= <- Hr].
  apply seal_sync_effect in Hs as [[Hs _]|(Hl & Hne & _)]; cbn; [left; by apply view_same|right].
  apply view_linked in Hl as [-> ?]; split_and!; [|done|done]; intros ->; destruct r; [subst; done | done].
Qed.
Next Obligation.
  intros ? ? ? ? st id st'; cbn; unfold spawn_blocking; destruct (delete_sync _ _) as [d [r|]] eqn:Hs; intros [= <- ->].
  apply delete_sync_effect in Hs as [[Hs Hn]|([Hn Ho] & _)]; [|by apply view_deleted].
  apply view_deleted; [by apply Hn | intros id' _; apply Hs].
Qed.
Next Obligation.
  intros ? ? ? ? st id st' e; cbn; unfold spawn_blocking; destruct (delete_sync _ _) as [d r] eqn:Hs; intros [= <- _].
  apply delete_sync_effect in Hs as [[Hs _]|([Hn Ho] & _)]; [left; by apply view_same | right; by apply view_deleted].
Qed.
Next Obligation.
  intros ? ? ? ? st id st'; cbn; unfold spawn_blocking; destruct (delete_sync _ _) as [d r] eqn:Hs; intros [= <- Hr].
  destruct r as [[[]|]|]; [done|injection Hr as ->|done]; by destruct (delete_never_missing _ _ _ Hs).
Qed.

(** ** Sequences of operations *)
Inductive SecretOp : Type := OpSeal (id : SecretId) (v : bytes) | OpOpen (id : SecretId) | OpDelete (id : SecretId).
Definition changes (id : SecretId) (op : SecretOp) : Prop :=
  match op with OpSeal id' _ | OpDelete id' => id' = id | OpOpen _ => False end.
Definition memory_op (m : gmap SecretId bytes) (op : SecretOp) : gmap SecretId bytes :=
  match op with
  | OpSeal id v => (MemorySecret_seal m id v).1
  | OpOpen _ => m
  | OpDelete id => (MemorySecret_delete m id).1
  end.

Section runs.
Context `{Lhex : HexLaws} `{Laead : AeadLaws}.
Variable (key : bytes).
Definition file_op (op : SecretOp) : fsm SecretStoreError unit :=
  match op with
  | OpSeal id v => seal_sync key id v
  | OpOpen id => _ ← open_sync key id; mret tt
  | OpDelete id => delete_sync id
  end.
(** The disk after the operations and how each of them ended. *)
Fixpoint file_run (d : Disk) (ops : list SecretOp) : Disk * list (SecretOp * option (result SecretStoreError unit)) :=
  match ops with
  | [] => (d, [])
  | op :: ops =>
      let '(d1, r) := file_op op d in
      let '(d2, log) := file_run d1 ops in (d2, (op, r) :: log)
  end.
(** The operation took effect or was refused because the secret exists. *)
Definition definite (op : SecretOp) (r : option (result SecretStoreError unit)) : Prop :=
  r = Some (Ok tt) \/ (match op with OpSeal _ _ => True | _ => False end) /\ r = Some (Err AlreadyExistsDifferent).

(** Every file of a secret is complete, in the directory and on the disk. *)
Definition intact (ops : list SecretOp) (dir : FileDir) : Prop := forall id f,
  fd_files dir !! path_for id = Some f \/ fd_durable dir !! path_for id = Some f ->
  f_synced f = true /\ exists v, unseal key id (f_bytes f) = Ok v /\ OpSeal id v ∈ ops.
(** The secret is on the disk as in the directory and as in memory. *)
Definition tracks (id : SecretId) (m : gmap SecretId bytes) (dir : FileDir) : Prop :=
  fd_durable dir !! path_for id = fd_files dir !! path_for id /\ file_view key (fd_files dir) !! id = m !! id.

Lemma intact_same ops dir dir' : same_secrets dir dir' -> intact ops dir -> intact ops dir'.
Proof. intros Hs Hi id f; destruct (Hs id) as [-> ->]; apply Hi. Qed.
Lemma tracks_same id m dir dir' : same_secrets dir dir' -> tracks id m dir -> tracks id m dir'.
Proof. intros Hs [Hd Hm]; split; [destruct (Hs id) as [-> ->]; done | by rewrite (view_same _ _ _ Hs)]. Qed.
(** Where the file of another secret changed. *)
Lemma tracks_other id m dir dir' : fd_files dir' !! path_for id = fd_files dir !! path_for id ->
  durable_same dir dir' \/ durable_all dir' -> tracks id m dir -> tracks id m dir'.
Proof. intros Hf Hd [Hc Hm]; split; [destruct Hd as [Hd|Hd]; rewrite Hd; congruence|]; rewrite <- Hm, !file_view_lookup; by rewrite Hf. Qed.

Lemma file_op_intact ops op d d' r : op ∈ ops -> file_op op d = (d', r) -> intact ops (dk_dir d) -> intact ops (dk_dir d').
Proof.
  intros Hop Ho Hi; destruct op as [id v|id|id].
  - apply seal_sync_effect in Ho as [[Hs _]|((_ & (f & Hf & Hy & Hu) & Hot) & _ & Hd)]; [by eapply intact_same|].
    assert (Hfiles : forall id' f', fd_files (dk_dir d') !! path_for id' = Some f' ->
      f_synced f' = true /\ exists v, unseal key id' (f_bytes f') = Ok v /\ OpSeal id' v ∈ ops).
    { intros id' f'; destruct (decide (id' = id)) as [->|Hne]; [rewrite Hf; intros [= <-]; eauto|].
      rewrite Hot by done; intros Hf'; apply (Hi id'); auto. }
    intros id' f' [?|Hf']; [by apply Hfiles|]; destruct Hd as [[Hd _]|Hd]; rewrite Hd in Hf'; [apply (Hi id'); auto | by apply Hfiles].
  - eapply intact_same; [|done]; eapply (quiet_bind _ (fun _ => mret tt)); [apply quiet_open | intros a; apply (quiet_lift (Ok tt)) | exact Ho].
  - apply delete_sync_effect in Ho as [[Hs _]|([Hn Hot] & Hd)]; [by eapply intact_same|].
    assert (Hfiles : forall id' f', fd_files (dk_dir d') !! path_for id' = Some f' ->
      f_synced f' = true /\ exists v, unseal key id' (f_bytes f') = Ok v /\ OpSeal id' v ∈ ops).
    { intros id' f'; destruct (decide (id' = id)) as [->|Hne]; [by rewrite Hn|].
      rewrite Hot by done; intros Hf'; apply (Hi id'); auto. }
    intros id' f' [?|Hf']; [by apply Hfiles|]; destruct Hd as [[Hd _]|Hd]; rewrite Hd in Hf'; [apply (Hi id'); auto | by apply Hfiles].
Qed.
Lemma file_op_tracks id op m d d' r :
  file_op op d = (d', r) -> (changes id op -> definite op r) -> tracks id m (dk_dir d) -> tracks id (memory_op m op) (dk_dir d').
Proof.
  intros Ho Hdef Ht; destruct op as [id' v|id'|id']; cbn [memory_op].
  - destruct (decide (id' = id)) as [->|Hne].
    + specialize (Hdef eq_refl); pose proof Ht as [_ Hm]; unfold MemorySecret_seal; rewrite <- Hm.
      apply seal_sync_effect in Ho as [(Hs & Hh & Hw)|(Hl & Hr & Hd)].
      * rewrite <- (view_same _ _ _ Hs); destruct Hdef as [->|[_ ->]].
        -- rewrite (view_holds _ _ _ _ (Hh eq_refl)); by eapply tracks_same.
        -- destruct (Hw eq_refl) as (w & _ & Hv); rewrite (view_holds _ _ _ _ Hv); by eapply tracks_same.
      * destruct Hdef as [->|[_ ->]]; [|done]; destruct Hd as [[_ ?]|Hd]; [done|].
        destruct (view_linked _ _ _ _ _ Hl) as [Hv ->]; cbn; split; [apply Hd|]; by rewrite Hv, !lookup_insert_eq.
    + assert ((MemorySecret_seal m id' v).1 !! id = m !! id) as Hm'.
      { unfold MemorySecret_seal; destruct (m !! id'); cbn; [done | by rewrite lookup_insert_ne]. }
      enough (tracks id m (dk_dir d')) as [? ?] by (split; [done | by rewrite Hm']).
      apply seal_sync_effect in Ho as [[Hs _]|((_ & _ & Hot) & _ & Hd)]; [by eapply tracks_same|].
      eapply tracks_other; [by apply Hot | destruct Hd as [[? _]|?]; auto | done].
  - eapply tracks_same; [|done]; eapply (quiet_bind _ (fun _ => mret tt)); [apply quiet_open | intros a; apply (quiet_lift (Ok tt)) | exact Ho].
  - cbn; destruct (decide (id' = id)) as [->|Hne].
    + destruct (Hdef eq_refl) as [->|[[] _]]; apply delete_sync_effect in Ho as [[Hs Hn]|([Hn _] & Hd)].
      * split; [destruct (Hs id) as [-> ->]; apply Ht|]; by rewrite lookup_delete_eq, file_view_lookup, Hn.
      * destruct Hd as [[_ ?]|Hd]; [done|]; split; [apply Hd|]; by rewrite lookup_delete_eq, file_view_lookup, Hn.
    + enough (tracks id m (dk_dir d')) as [? ?] by (split; [done | by rewrite lookup_delete_ne]).
      apply delete_sync_effect in Ho as [[Hs _]|([_ Hot] & Hd)]; [by eapply tracks_same|].
      eapply tracks_other; [by apply Hot | destruct Hd as [[? _]|?]; auto | done].
Qed.
Lemma file_run_intact all d ops d' log :
  (forall op, op ∈ ops -> op ∈ all) -> file_run d ops = (d', log) -> intact all (dk_dir d) -> intact all (dk_dir d').
Proof.
  revert d log; induction ops as [|op ops IH]; intros d log Hin Hr Hi; cbn in Hr; [by injection Hr as <- <-|].
  destruct (file_op op d) as [d1 r] eqn:Ho; destruct (file_run d1 ops) as [d2 log'] eqn:Hr'; injection Hr as <- <-.
  eapply IH; [intros; apply Hin; by apply list_elem_of_further | exact Hr' |].
  eapply file_op_intact; [apply Hin, list_elem_of_here | exact Ho | done].
Qed.
Lemma file_run_tracks id m d ops d' log :
  file_run d ops = (d', log) -> (forall op r, (op, r) ∈ log -> changes id op -> definite op r) ->
  tracks id m (dk_dir d) -> tracks id (foldl memory_op m ops) (dk_dir d').
Proof.
  revert m d log; induction ops as [|op ops IH]; intros m d log Hr Hdef Ht; cbn in Hr; [by injection Hr as <- <-|].
  destruct (file_op op d) as [d1 r] eqn:Ho; destruct (file_run d1 ops) as [d2 log'] eqn:Hr'; injection Hr as <- <-.
  eapply IH; [exact Hr' | intros; eapply Hdef; [by apply list_elem_of_further | done] |].
  eapply file_op_tracks; [exact Ho | apply Hdef, list_elem_of_here | done].
Qed.
Lemma keeps_synced o x : keeps o x -> (forall f, o = Some f -> f_synced f = true) -> x = f_bytes <$> o.
Proof. intros [|f bs Hb] Hs; [done|]; cbn; by rewrite (Hb (Hs f eq_refl)). Qed.

(** C15: secrets survive a loss of power.  Start in an empty directory, run any operations
    with any failures of the operating system and any workers stopping half-way, and cut
    the power.  Whatever is then left of the directory, every secret file is a complete
    encryption of bytes that were sealed under its identifier; and a secret for which no
    operation has failed is exactly what the in-memory store holds after the same
    operations: sealed secrets are there, deleted ones are gone. *)
Theorem secrets_survive_power_loss (ops : list SecretOp) (outcomes : list Outcome) (random : entropy) (after : gmap bytes bytes) :
  let '(d, log) := file_run (mkDisk (mkFileDir ∅ ∅) outcomes random) ops in
  survives (dk_dir d) after ->
  (forall id bs, after !! path_for id = Some bs -> exists v, unseal key id bs = Ok v /\ OpSeal id v ∈ ops) /\
  (forall id, (forall op r, (op, r) ∈ log -> changes id op -> definite op r) ->
     (after !! path_for id ≫= fun bs => ok_of (unseal key id bs)) = foldl memory_op ∅ ops !! id).
Proof.
  destruct (file_run _ ops) as [d log] eqn:Hr; intros Hs.
  assert (Hi : intact ops (dk_dir d)) by (eapply file_run_intact; [done | exact Hr | intros id f [?|?]; done]).
  split.
  - intros id bs Hb; destruct (Hs (path_for id)) as [Hk|Hk];
      rewrite Hb in Hk; inversion Hk as [|f ? Hf Ho Hx]; subst; symmetry in Ho; destruct (Hi id f (ltac:(auto))) as [Hy Hv];
      rewrite (Hf Hy); done.
  - intros id Hdef; destruct (file_run_tracks id ∅ _ _ _ _ Hr Hdef) as [Hc <-]; [by split|].
    rewrite file_view_lookup; assert (after !! path_for id = f_bytes <$> fd_files (dk_dir d) !! path_for id) as ->.
    { destruct (Hs (path_for id)) as [Hk|Hk]; rewrite ?Hc in Hk; (eapply keeps_synced; [exact Hk|]); intros f Hf; eapply Hi; eauto. }
    by destruct (fd_files (dk_dir d) !! path_for id).
Qed.

Lemma run_bind {E A B} (m : fsm E A) (f : A -> fsm E B) d d1 a : m d = (d1, Some (Ok a)) -> (m ≫= f) d = f a d1.
Proof. intros Hm; cbv [mbind fsm_bind]; by rewrite Hm. Qed.
Lemma run_attempt {E F A} (m : fsm E A) d d1 r : m d = (d1, Some r) -> attempt (F := F) m d = (d1, Some (Ok r)).
Proof. intros Hm; unfold attempt; by rewrite Hm. Qed.
Lemma run_map_err {E F A} (f : E -> F) (m : fsm E A) d d1 a : m d = (d1, Some (Ok a)) -> fmap_err f m d = (d1, Some (Ok a)).
Proof. intros Hm; unfold fmap_err; by rewrite Hm. Qed.
Lemma run_write name c b fs du bs os ent :
  fs_write_all name bs (mkDisk (mkFileDir (<[name := mkFile c b]> fs) du) (Works :: os) ent) =
  (mkDisk (mkFileDir (<[name := mkFile (c ++ bs) false]> fs) du) os ent, Some (Ok tt)).
Proof. unfold fs_write_all, syscall, append, set_file, with_dir; cbn; by rewrite lookup_insert_eq, insert_insert_eq. Qed.
Lemma run_random n bs dir os ent : length bs = n -> random_bytes n (mkDisk dir os (Some bs :: ent)) = (mkDisk dir os ent, Some (Ok bs)).
Proof. intros <-; unfold random_bytes, fill; cbv [mbind rnd_bind draw dk_entropy]; by rewrite Nat.eqb_refl. Qed.
(** Writing the file when all goes well until the directory is synced. *)
Lemma run_write_secret name id v nonce ct message ent :
  name <> path_for id ->
  write_secret key name id v nonce ct (mkDisk (mkFileDir ∅ ∅) (repeat Works 6 ++ [Fails 0 message]) ent) =
  (mkDisk (mkFileDir (<[path_for id := mkFile (FILE_MAGIC ++ nonce ++ ct) true]> (<[name := mkFile (FILE_MAGIC ++ nonce ++ ct) true]> ∅)) ∅) [] ent,
   Some (Err (SecretBackend message))).
Proof.
  intros Hne; unfold write_secret.
  erewrite run_bind by (apply run_map_err; unfold fs_create_new, syscall; cbn; rewrite lookup_empty; reflexivity).
  do 3 (erewrite run_bind by (apply run_map_err, run_write)).
  erewrite run_bind
    by (apply run_map_err; unfold fs_sync_file, syscall, with_dir, set_file; cbn; rewrite lookup_insert_eq, insert_insert_eq; reflexivity).
  erewrite run_bind
    by (apply run_attempt; unfold fs_hard_link, syscall, with_dir, set_file; cbn; rewrite lookup_insert_eq, lookup_insert_ne, lookup_empty by done; reflexivity).
  reflexivity.
Qed.
(** The condition on failed operations is needed.  When the directory could not be synced
    after the file appeared, sealing fails; sealing the same bytes again then succeeds
    without syncing, and the secret it acknowledged is lost with the power. *)
Theorem retried_seal_not_durable (id : SecretId) (v nonce suffix ct message : bytes) :
  length nonce = 12%nat -> length suffix = 16%nat -> aead_encrypt key nonce (associated_data id) v = Some ct ->
  exists outcomes d e, file_run (mkDisk (mkFileDir ∅ ∅) outcomes [Some nonce; Some suffix]) [OpSeal id v; OpSeal id v] =
    (d, [(OpSeal id v, Some (Err e)); (OpSeal id v, Some (Ok tt))]) /\ survives (dk_dir d) ∅.
Proof.
  intros Hn Hs He; assert (Hne : temp_path suffix <> path_for id) by apply temp_path_other.
  set (f := mkFile (FILE_MAGIC ++ nonce ++ ct) true); set (dir := mkFileDir (<[path_for id := f]> ∅) ∅).
  exists (Works :: repeat Works 6 ++ [Fails 0 message]), (mkDisk dir [] []), (SecretBackend message).
  split; [|by left; constructor]; unfold file_run, file_op.
  assert (seal_sync key id v (mkDisk (mkFileDir ∅ ∅) (Works :: repeat Works 6 ++ [Fails 0 message]) [Some nonce; Some suffix]) =
    (mkDisk dir [] [], Some (Err (SecretBackend message)))) as ->.
  { unfold seal_sync; erewrite run_bind by (unfold path_exists; erewrite run_bind by (apply run_attempt; reflexivity); reflexivity).
    cbn [dk_dir fd_files]; rewrite bool_decide_false by (rewrite lookup_empty; by intros [? ?]).
    erewrite run_bind by (by apply run_random).
    erewrite run_bind by (unfold flift; rewrite He; reflexivity).
    erewrite run_bind by (by apply run_random).
    erewrite run_bind by (apply run_attempt, run_write_secret, Hne).
    erewrite run_bind by (apply run_attempt; unfold fs_remove_file, syscall; cbn; rewrite lookup_insert_ne, lookup_insert_eq by done; reflexivity).
    unfold flift; cbn; do 3 f_equal; rewrite delete_insert_ne, delete_insert_eq, delete_empty by done; done. }
  assert (seal_sync key id v (mkDisk dir [] []) = (mkDisk dir [] [], Some (Ok tt))) as ->; [|done].
  unfold seal_sync; erewrite run_bind by (unfold path_exists; erewrite run_bind by (apply run_attempt; reflexivity); reflexivity).
  unfold dir; cbn [dk_dir fd_files]; rewrite bool_decide_true by (rewrite lookup_insert_eq; eauto).
  unfold compare_existing, open_sync; erewrite run_bind; [cbv [flift]; by rewrite decide_True|].
  erewrite run_bind by (apply run_map_err; unfold fs_read, syscall; cbn; rewrite lookup_insert_eq; reflexivity).
  unfold flift; do 2 f_equal; by apply unseal_sealed.
Qed.
End runs.

(** ** Witnesses *)
Module SecretFileWitness.
Definition digits : bytes := bstr "0123456789abcdef".
Definition digit_at (n : nat) : Byte.byte := nth n digits Byte.x30.
Definition digit_of (b : Byte.byte) : nat := match list_find (eq b) digits with Some (n, _) => n | None => 0 end.
Fixpoint decode (bs : bytes) : option bytes :=
  match bs with
  | [] => Some []
  | hi :: lo :: rest => r ← decode rest; b ← Byte.of_nat (digit_of hi * 16 + digit_of lo); Some (b :: r)
  | [_] => None
  end.
#[local] Instance toy_hex : Hex := {|
  hex_encode bs := concat ((fun b => [digit_at (Nat.div (Byte.to_nat b) 16); digit_at (Nat.modulo (Byte.to_nat b) 16)]) <$> bs);
  hex_decode := decode |}.
#[local] Instance toy_hex_laws : HexLaws.
Proof.
  constructor; intros bs; induction bs as [|b bs IH]; [done| |constructor|].
  - cbn -[digit_at digit_of decode] in *; cbn [decode]; rewrite IH; cbn [mbind option_bind].
    by destruct b; vm_compute.
  - cbn -[digit_at]; constructor; [|constructor; [|exact IH]]; (apply (bool_decide_unpack _); by destruct b; vm_compute).
Qed.
Definition key : bytes := repeat Byte.x07 32.
Definition id : SecretId := SecretId_from_bytes (repeat Byte.x5a 32).
Definition ops : list SecretOp := [OpSeal id (bstr "secret"); OpOpen id; OpSeal id (bstr "other")].
Definition start : Disk := mkDisk (mkFileDir ∅ ∅) [] [Some (repeat Byte.x01 12); Some (repeat Byte.x02 16)].
Lemma directory_survives dir : survives dir (f_bytes <$> fd_files dir).
Proof. intros name; right; rewrite lookup_fmap; destruct (_ !! _); by constructor. Qed.
Definition log : list (SecretOp * option (result SecretStoreError unit)) :=
  [(OpSeal id (bstr "secret"), Some (Ok tt)); (OpOpen id, Some (Ok tt)); (OpSeal id (bstr "other"), Some (Err AlreadyExistsDifferent))].
Lemma log_ok : (file_run key start ops).2 = log.
Proof. vm_compute; reflexivity. Qed.
Lemma secrets_survive_power_loss_witness :
  ((f_bytes <$> fd_files (dk_dir (file_run key start ops).1)) !! path_for id ≫= fun bs => ok_of (unseal key id bs)) = Some (bstr "secret").
Proof.
  pose proof (secrets_survive_power_loss key ops [] (dk_entropy start) (f_bytes <$> fd_files (dk_dir (file_run key start ops).1))) as Ht.
  pose proof log_ok as Hl; unfold start in *; cbn [dk_entropy] in Ht; destruct (file_run key _ ops) as [d l]; cbn [fst snd] in *; subst l.
  destruct (Ht (directory_survives _)) as [_ Hd]; rewrite Hd.
  - cbn [foldl ops memory_op]; unfold MemorySecret_seal; rewrite lookup_empty; cbn [fst]; by rewrite !lookup_insert_eq.
  - intros op r Hin _; unfold definite; repeat (apply elem_of_cons in Hin as [[= -> ->]|Hin]; [auto|]); by apply elem_of_nil in Hin.
Defined.
End SecretFileWitness.
