(* ===== verification/CertificateChain.v ===== *)
(** * Properties of the certificate chain

    What issuing, transporting and verifying the credentials of [Certificates]
    achieve together: credentials survive the wire, an honestly issued chain
    verifies, and an accepted chain is signed link by link over the canonical bytes
    of the payloads acted upon. *)

From S2P Require Import Prelude Wire Core CertificateWire Certificates ToyCrypto.

Section issuing.
Context `{Ed25519Laws} `{Blake3Laws}.

Lemma derive_network_id_wf key : NetworkId_wf (derive_network_id key).
Proof. apply derive_key_len. Qed.
Lemma derive_member_id_wf net key : MemberId_wf (derive_member_id net key).
Proof. apply derive_key_len. Qed.
Lemma derive_app_addr_wf key : AppAddr_wf (derive_app_addr key).
Proof. apply derive_key_len. Qed.

Lemma NetworkRootPublic_of_key root :
  length (root_seed root) = 32%nat ->
  NetworkRootPublic_from_bytes (ed_public (root_seed root)) = Ok (NetworkRootKey_public root).
Proof.
  intros Hs; unfold NetworkRootPublic_from_bytes.
  rewrite (proj2 (verifying_key_Ok _ _) (conj (ed_public_valid _ Hs) eq_refl)); done.
Qed.

Lemma AdminCertificate_issue_wf root key permissions serial nb ex c :
  length (root_seed root) = 32%nat -> length key = 32%nat -> is_u32 permissions = true ->
  is_u64 serial = true -> is_u64 nb = true -> is_u64 ex = true ->
  AdminCertificate_issue root key permissions serial nb ex = Ok c ->
  cert_wf c /\ adm_public_key (payload c) = key /\ adm_permissions (payload c) = permissions /\
  adm_serial (payload c) = serial /\ adm_not_before_ms (payload c) = nb /\ adm_expires_at_ms (payload c) = ex /\
  forall now revoked, nb <= now < ex -> serial ∉ revoked ->
    AdminCertificate_verify c (NetworkRootKey_public root) (root_network_id (NetworkRootKey_public root)) now revoked
    = Ok (mkVerifiedAdmin (payload c) key).
Proof.
  intros Hr Hk Hp Hs Hn He Hi; unfold AdminCertificate_issue in Hi.
  apply bind_Ok in Hi as (u & Hw%fail_if_Ok & Hi); apply bind_Ok in Hi as (k & [Hv _]%verifying_key_Ok & [= <-]).
  cbn; split_and!; try done.
  - apply (cert_wf_intro (H := admin_codec)); [|by apply ed_sign_len].
    split_and!; cbn; auto using derive_network_id_wf, derive_key_id_len.
  - intros now revoked Hnow Hser; apply AdminCertificate_verify_Ok; split; [done|].
    constructor; cbn; try done; by apply ed_verify_sign.
Qed.

Lemma MemberCertificate_issue_by_admin_wf admin acert skey ekey roles serial nb ex c :
  length (admin_seed admin) = 32%nat -> NetworkId_wf (adm_network_id acert) ->
  length skey = 32%nat -> length ekey = 32%nat -> is_u32 roles = true ->
  is_u64 serial = true -> is_u64 nb = true -> is_u64 ex = true ->
  MemberCertificate_issue_by_admin admin acert skey ekey roles serial nb ex = Ok c ->
  cert_wf c /\ mc_network_id (payload c) = adm_network_id acert /\
  mc_member_id (payload c) = derive_member_id (adm_network_id acert) skey /\
  mc_signing_public_key (payload c) = skey /\ mc_encryption_public_key (payload c) = ekey /\
  mc_roles (payload c) = roles /\ mc_serial (payload c) = serial /\
  mc_not_before_ms (payload c) = nb /\ mc_expires_at_ms (payload c) = ex /\
  forall now revoked, nb <= now < ex -> serial ∉ revoked ->
    MemberCertificate_verify_with_admin c (mkVerifiedAdmin acert (adm_public_key acert))
      (adm_network_id acert) now revoked = Ok (mkVerifiedMember (payload c)).
Proof.
  intros Ha Hnet Hk Hek Hp Hs Hn He Hi; unfold MemberCertificate_issue_by_admin in Hi; res_inv; bool_inv.
  match goal with Hkey : OnlineAdminKey_public_bytes admin = _, Hid : OnlineAdminKey_key_id admin = _ |- _ =>
    rename Hkey into Hpub; rename Hid into Hkid end.
  cbn; split_and!; try done.
  - apply (cert_wf_intro (H := member_codec)); [|by apply ed_sign_len].
    unfold OnlineAdminKey_key_id in Hkid.
    split_and!; cbn; rewrite <- ?Hkid; auto using derive_member_id_wf, derive_key_id_len.
  - intros now revoked Hnow Hser; apply MemberCertificate_verify_with_admin_Ok; split; [done|].
    constructor; cbn; try done; try lia; rewrite <- Hpub; by apply ed_verify_sign.
Qed.

Lemma EndpointBinding_issue_wf key m endpoint sequence ex b :
  length (sk_seed key) = 32%nat -> NetworkId_wf (mc_network_id m) -> MemberId_wf (mc_member_id m) ->
  length endpoint = 32%nat -> is_u64 sequence = true -> is_u64 ex = true ->
  EndpointBinding_issue key m endpoint sequence ex = Ok b ->
  cert_wf b /\ forall now, now < ex ->
    EndpointBinding_verify b (mkVerifiedMember m) (mc_network_id m) endpoint now = Ok tt.
Proof.
  intros Hk Hn Hm He Hs Hx Hi; unfold EndpointBinding_issue in Hi; res_inv; bool_inv; split.
  - apply (cert_wf_intro (H := endpoint_codec)); [done | by apply ed_sign_len].
  - intros now Hnow; apply EndpointBinding_verify_Ok; constructor; cbn; try done.
    all: match goal with Hpub : SigningKeypair_public_bytes _ = _ |- _ => rewrite <- Hpub end.
    + by apply ed_public_valid.
    + by apply ed_verify_sign.
Qed.

Lemma AppRegistrationRequest_create_wf app net policy :
  length (app_seed app) = 32%nat -> NetworkId_wf net -> is_u32 policy = true ->
  let r := AppRegistrationRequest_create app net policy in
  cert_wf r /\ AppRegistrationRequest_verify r net = Ok (mkVerifiedAppRequest (payload r)).
Proof.
  intros Hs Hn Hp r; split.
  - apply (cert_wf_intro (H := app_request_codec)); [|by apply ed_sign_len].
    split_and!; try done; [apply derive_app_addr_wf | by apply ed_public_len].
  - assert (vk_valid (rq_app_root_public_key (payload r)) = true) by (by apply ed_public_valid).
    assert (ed_verify (rq_app_root_public_key (payload r)) (signed_payload r) (signature r) = true)
      by (by apply ed_verify_sign).
    unfold AppRegistrationRequest_verify; cbv zeta; cert_ok.
Qed.

Lemma AppRegistration_issue_by_admin_wf admin acert request c :
  length (admin_seed admin) = 32%nat -> app_request_payload_wf (vrq_payload request) ->
  rq_app_addr (vrq_payload request) = derive_app_addr (rq_app_root_public_key (vrq_payload request)) ->
  AppRegistration_issue_by_admin admin acert request = Ok c ->
  cert_wf c /\ ar_network_id (payload c) = adm_network_id acert /\
  ar_app_addr (payload c) = rq_app_addr (vrq_payload request) /\
  ar_app_root_public_key (payload c) = rq_app_root_public_key (vrq_payload request) /\
  AppRegistration_verify_with_admin c (mkVerifiedAdmin acert (adm_public_key acert)) (adm_network_id acert)
  = Ok (mkVerifiedApp (payload c)).
Proof.
  intros Ha (Hn & Haddr & Hpk & Hpol) Hid Hi; unfold AppRegistration_issue_by_admin in Hi; res_inv; bool_inv.
  match goal with Hkey : OnlineAdminKey_public_bytes admin = _, Hid : OnlineAdminKey_key_id admin = _ |- _ =>
    rename Hkey into Hpub; rename Hid into Hkid end.
  split_and!; try done.
  - apply (cert_wf_intro (H := app_registration_codec)); [|by apply ed_sign_len].
    unfold OnlineAdminKey_key_id in Hkid; split_and!; cbn; rewrite <- ?Hkid; auto using derive_key_id_len.
  - apply AppRegistration_verify_with_admin_Ok; split; [done|].
    constructor; cbn; try done; rewrite <- Hpub; by apply ed_verify_sign.
Qed.

Lemma AppBinding_issue_wf app net subject role device ex services b :
  length (app_seed app) = 32%nat -> NetworkId_wf net -> MemberId_wf subject ->
  (forall d, device = Some d -> DeviceId_wf d) -> is_u64 ex = true -> Forall ServiceId_wf services ->
  AppBinding_issue app net subject role device ex services = Ok b ->
  cert_wf b /\ forall va vm now, now < ex -> ar_network_id (vapp_payload va) = net ->
    mc_network_id (vm_payload vm) = net -> ar_app_addr (vapp_payload va) = AppRootKey_app_addr app ->
    ar_app_root_public_key (vapp_payload va) = AppRootKey_public_bytes app ->
    mc_member_id (vm_payload vm) = subject -> AppBinding_verify b va vm net now = Ok tt.
Proof.
  intros Hs Hn Hm Hd He Hss Hi; unfold AppBinding_issue in Hi; res_inv; bool_inv; split.
  - apply (cert_wf_intro (H := app_binding_codec)); [|by apply ed_sign_len].
    split_and!; try done; [apply derive_app_addr_wf|]; cbn; destruct device; [by apply Hd | done].
  - intros va vm now Hnow Hna Hnm Haddr Hpk Hsub; apply AppBinding_verify_Ok; constructor; cbn; try done.
    + rewrite Hpk; by apply ed_public_valid.
    + rewrite Hpk; by apply ed_verify_sign.
Qed.

Lemma JoinRequest_create_wf net key ekey endpoint nonce roles ex r :
  NetworkId_wf net -> length (sk_seed key) = 32%nat -> length ekey = 32%nat -> length endpoint = 32%nat ->
  length nonce = 32%nat -> is_u32 roles = true -> is_u64 ex = true ->
  JoinRequest_create net key ekey endpoint nonce roles ex = Ok r ->
  cert_wf r /\ jr_network_id (payload r) = net /\
  jr_member_id (payload r) = derive_member_id net (SigningKeypair_public_bytes key) /\
  jr_signing_public_key (payload r) = SigningKeypair_public_bytes key /\
  jr_endpoint_id (payload r) = endpoint /\ jr_expires_at_ms (payload r) = ex /\
  forall now, now < ex -> JoinRequest_verify r net now = Ok (mkVerifiedJoinRequest (payload r)).
Proof.
  intros Hn Hk Hek Hep Hno Hro Hex Hc; unfold JoinRequest_create in Hc; res_inv; bool_inv.
  split_and!; try done.
  - apply (cert_wf_intro (H := join_request_codec)); [|by apply ed_sign_len].
    split_and!; try done; [apply derive_member_id_wf | by apply ed_public_len].
  - intros now Hnow; pose proof (ed_public_valid _ Hk).
    unfold JoinRequest_verify; cbn -[bool_decide]; cert_ok.
    by apply ed_verify_sign.
Qed.

Lemma EndpointBinding_issue_for_join_wf key net endpoint sequence ex b :
  length (sk_seed key) = 32%nat -> NetworkId_wf net -> length endpoint = 32%nat ->
  is_u64 sequence = true -> is_u64 ex = true ->
  EndpointBinding_issue_for_join key net endpoint sequence ex = Ok b ->
  cert_wf b /\ eb_member_id (payload b) = derive_member_id net (SigningKeypair_public_bytes key) /\
  forall request now, sequence = 0 -> now < ex -> jr_network_id (vjr_payload request) = net ->
    jr_member_id (vjr_payload request) = derive_member_id net (SigningKeypair_public_bytes key) ->
    jr_signing_public_key (vjr_payload request) = SigningKeypair_public_bytes key ->
    jr_endpoint_id (vjr_payload request) = endpoint -> jr_expires_at_ms (vjr_payload request) = ex ->
    EndpointBinding_verify_for_join b request net now = Ok tt.
Proof.
  intros Hk Hn He Hs Hx Hi; unfold EndpointBinding_issue_for_join in Hi; res_inv; bool_inv; split_and!; [|done|].
  - apply (cert_wf_intro (H := endpoint_codec)); [|by apply ed_sign_len].
    split_and!; try done; apply derive_member_id_wf.
  - intros request now -> Hnow Hrn Hrm Hrk Hre Hrx; pose proof (ed_public_valid _ Hk).
    unfold EndpointBinding_verify_for_join; cbn -[bool_decide]; rewrite Hrk; cert_ok.
    apply verify_signature_Ok; rewrite Hrk; by apply ed_verify_sign.
Qed.

Lemma JoinRequest_wire (r : JoinRequest) :
  cert_wf r -> length (to_bytes r) = (JOIN_REQUEST_PAYLOAD_LEN + SIGNATURE_LEN)%nat /\
  JoinRequest_from_bytes (to_bytes r) = Ok r.
Proof.
  intros Hr; split.
  - destruct Hr as (Hw & Hs & Hg); unfold to_bytes, append_signature; rewrite length_app, Hs, Hg.
    f_equal; by apply join_request_payload_length.
  - by apply (signed_from_bytes_exact (H := join_request_codec) _ _ _ join_request_payload_length).
Qed.

Lemma EndpointBinding_wire (b : EndpointBinding) :
  cert_wf b -> length (to_bytes b) = (ENDPOINT_PAYLOAD_LEN + SIGNATURE_LEN)%nat /\
  EndpointBinding_from_bytes (to_bytes b) = Ok b.
Proof.
  intros Hr; split.
  - destruct Hr as (Hw & Hs & Hg); unfold to_bytes, append_signature; rewrite length_app, Hs, Hg.
    f_equal; by apply endpoint_payload_length.
  - by apply (signed_from_bytes_exact (H := endpoint_codec) _ _ _ endpoint_payload_length).
Qed.
End issuing.

(** ** Properties *)

(** Every credential has exactly one encoding. Each [from_bytes] accepts
    exactly the serialisations of well-formed credentials: parsing what
    [to_bytes] wrote gives the credential back, and whatever parses re-serialises
    to the same bytes, with the signed bytes being the encoding of the payload. *)
Theorem credential_wire_exact :
  (forall bs c, AdminCertificate_from_bytes bs = Ok c <-> cert_wf c /\ bs = to_bytes c) /\
  (forall bs c, MemberCertificate_from_bytes bs = Ok c <-> cert_wf c /\ bs = to_bytes c) /\
  (forall bs c, EndpointBinding_from_bytes bs = Ok c <-> cert_wf c /\ bs = to_bytes c) /\
  (forall bs c, JoinRequest_from_bytes bs = Ok c <-> cert_wf c /\ bs = to_bytes c) /\
  (forall bs c, AppRegistrationRequest_from_bytes bs = Ok c <-> cert_wf c /\ bs = to_bytes c) /\
  (forall bs c, AppRegistration_from_bytes bs = Ok c <-> cert_wf c /\ bs = to_bytes c) /\
  (forall bs c, AppBinding_from_bytes bs = Ok c <-> cert_wf c /\ bs = to_bytes c).
Proof.
  split_and!; intros bs c.
  - apply AdminCertificate_from_bytes_exact.
  - apply MemberCertificate_from_bytes_exact.
  - apply EndpointBinding_from_bytes_exact.
  - apply JoinRequest_from_bytes_exact.
  - apply AppRegistrationRequest_from_bytes_exact.
  - apply AppRegistration_from_bytes_exact.
  - apply AppBinding_from_bytes_exact.
Qed.

(** Honest issuance is accepted. An administrator certificate issued by the
    root, a member certificate issued under it by the administrator and an
    endpoint binding issued by the member, each sent over the wire, verify link
    by link at any time inside the member's validity as long as neither serial
    is revoked. *)
Theorem issued_chain_verifies `{Ed25519Laws} `{Blake3Laws}
    (root : NetworkRootKey) (admin : OnlineAdminKey) (key : SigningKeypair)
    (permissions aserial anb aex : Z) (ekey : bytes) (roles mserial mnb mex : Z)
    (endpoint : bytes) (sequence eex : Z) ac mc eb (now : Z) (revoked : gset Z) :
  length (root_seed root) = 32%nat -> length (admin_seed admin) = 32%nat -> length (sk_seed key) = 32%nat ->
  length ekey = 32%nat -> length endpoint = 32%nat ->
  is_u32 permissions = true -> is_u32 roles = true ->
  forallb is_u64 [aserial; anb; aex; mserial; mnb; mex; sequence; eex] = true ->
  AdminCertificate_issue root (OnlineAdminKey_public_bytes admin) permissions aserial anb aex = Ok ac ->
  MemberCertificate_issue_by_admin admin (payload ac) (SigningKeypair_public_bytes key) ekey roles mserial mnb mex
    = Ok mc ->
  EndpointBinding_issue key (payload mc) endpoint sequence eex = Ok eb ->
  mnb <= now < mex -> now < eex -> aserial ∉ revoked -> mserial ∉ revoked ->
  let root_public := NetworkRootKey_public root in
  let net := root_network_id root_public in
  exists va vm,
    (ac ← AdminCertificate_from_bytes (to_bytes ac);
     AdminCertificate_verify ac root_public net now revoked) = Ok va /\
    (mc ← MemberCertificate_from_bytes (to_bytes mc);
     MemberCertificate_verify_with_admin mc va net now revoked) = Ok vm /\
    (eb ← EndpointBinding_from_bytes (to_bytes eb);
     EndpointBinding_verify eb vm net endpoint now) = Ok tt.
Proof.
  intros Hr Ha Hk Hek Hep Hp Hro Hints Hac Hmc Heb Hnow Hex Hs1 Hs2 root_public net.
  cbn in Hints; repeat (apply andb_true_iff in Hints as [? Hints]).
  assert (Hwin : anb <= mnb /\ mex <= aex).
  { unfold AdminCertificate_issue in Hac; unfold MemberCertificate_issue_by_admin in Hmc.
    res_inv; bool_inv; cbn in *; lia. }
  apply AdminCertificate_issue_wf in Hac as (Hwac & Hpk & _ & _ & _ & _ & Hvac); try done;
    [|by apply ed_public_len].
  assert (Hnet : adm_network_id (payload ac) = net).
  { specialize (Hvac now revoked ltac:(lia) Hs1); apply AdminCertificate_verify_Ok in Hvac as [_ []]; done. }
  apply MemberCertificate_issue_by_admin_wf in Hmc as (Hwmc & Hmn & Hmi & _ & _ & _ & _ & _ & _ & Hvmc); try done;
    [|apply Hwac|by apply ed_public_len].
  apply EndpointBinding_issue_wf in Heb as [Hweb Hveb]; try done; [|apply Hwmc..].
  exists (mkVerifiedAdmin (payload ac) (OnlineAdminKey_public_bytes admin)), (mkVerifiedMember (payload mc)).
  split_and!.
  - rewrite (proj2 (signed_from_bytes_exact (H := admin_codec) _ _ _ admin_payload_length) (conj Hwac eq_refl)
      : AdminCertificate_from_bytes _ = _); apply Hvac; [lia | done].
  - rewrite (proj2 (signed_from_bytes_exact (H := member_codec) _ _ _ member_payload_length) (conj Hwmc eq_refl)
      : MemberCertificate_from_bytes _ = _); rewrite <- Hpk, <- Hnet; by apply Hvmc.
  - rewrite (proj2 (signed_from_bytes_exact (H := endpoint_codec) _ _ _ endpoint_payload_length) (conj Hweb eq_refl)
      : EndpointBinding_from_bytes _ = _); rewrite <- Hnet, <- Hmn; by apply Hveb.
Qed.

Lemma land_bit x n : 0 <= n -> Z.land x (Z.shiftl 1 n) <> 0 <-> Z.testbit x n = true.
Proof.
  intros Hn; rewrite Z.shiftl_1_l; split.
  - intros Hx; destruct (Z.testbit x n) eqn:Hb; [done|]; destruct Hx; apply Z.bits_inj_0; intros k.
    rewrite Z.land_spec; destruct (decide (k = n)) as [->|Hk]; [by rewrite Hb|].
    rewrite Z.pow2_bits_false, andb_false_r; done.
  - intros Hb Hx; apply (f_equal (fun y => Z.testbit y n)) in Hx.
    rewrite Z.land_spec, Hb, Z.pow2_bits_true, Z.bits_0 in Hx; done.
Qed.

(** C7: an accepted member chain is authentic link by link. If parsed bytes of
    an administrator certificate, a member certificate and an endpoint binding
    verify in turn, then the root signed the canonical bytes of the administrator
    payload, that administrator (holding the issuing permission) signed the
    canonical bytes of the member payload, and that member signed the endpoint;
    all belong to the network, identities are derived from the keys, the
    validity periods nest and contain the current time, and no serial is revoked. *)
Theorem accepted_chain_sound `{Ed25519} `{Blake3} (root : NetworkRootPublic) (net : NetworkId) (now : Z)
    (revoked : gset Z) (abs mbs ebs endpoint : bytes) ac mc eb va vm :
  AdminCertificate_from_bytes abs = Ok ac -> MemberCertificate_from_bytes mbs = Ok mc ->
  EndpointBinding_from_bytes ebs = Ok eb ->
  AdminCertificate_verify ac root net now revoked = Ok va ->
  MemberCertificate_verify_with_admin mc va net now revoked = Ok vm ->
  EndpointBinding_verify eb vm net endpoint now = Ok tt ->
  let a := payload ac in let m := payload mc in let e := payload eb in
  (ed_verify (root_verifying_key root) (encode_admin_payload a) (signature ac) = true /\
   ed_verify (adm_public_key a) (encode_member_payload m) (signature mc) = true /\
   ed_verify (mc_signing_public_key m) (encode_endpoint_payload e) (signature eb) = true) /\
  (root_network_id root = net /\ adm_network_id a = net /\ mc_network_id m = net /\ eb_network_id e = net) /\
  (adm_key_id a = derive_key_id ADMIN_KEY_ID (adm_public_key a) /\
   mc_member_id m = derive_member_id net (mc_signing_public_key m) /\
   eb_member_id e = mc_member_id m /\ eb_endpoint_id e = endpoint) /\
  Z.testbit (adm_permissions a) 1 = true /\
  adm_not_before_ms a <= mc_not_before_ms m <= now /\
  now < mc_expires_at_ms m <= adm_expires_at_ms a /\ now < eb_expires_at_ms e /\
  (adm_serial a ∉ revoked) /\ (mc_serial m ∉ revoked).
Proof.
  intros Hpa Hpm Hpe Hva Hvm Hve a m e.
  apply (signed_from_bytes_exact (H := admin_codec) _ _ _ admin_payload_length) in Hpa as [(_ & Hsa & _) _].
  apply (signed_from_bytes_exact (H := member_codec) _ _ _ member_payload_length) in Hpm as [(_ & Hsm & _) _].
  apply (signed_from_bytes_exact (H := endpoint_codec) _ _ _ endpoint_payload_length) in Hpe as [(_ & Hse & _) _].
  apply AdminCertificate_verify_Ok in Hva as [-> [? ? ? ? ? ? ? Ha]].
  apply MemberCertificate_verify_with_admin_Ok in Hvm as [-> [? ? Hperm ? [? ?] ? ? ? Hm]].
  apply EndpointBinding_verify_Ok in Hve as [? ? ? ? ? ? He].
  rewrite Hsa in Ha; rewrite Hsm in Hm; rewrite Hse in He; cbn in *.
  subst a m e; split_and!; try done; try lia; by apply (land_bit _ 1).
Qed.

(** Honest application registration is accepted. A registration request
    created by the application root verifies; the registration the administrator
    issues for it verifies; and a binding issued by the application root to a
    member of the network, sent over the wire, verifies before it expires. *)
Theorem issued_application_verifies `{Ed25519Laws} `{Blake3Laws}
    (admin : OnlineAdminKey) (acert : AdminCertificatePayload) (app : AppRootKey) (policy : Z)
    (vm : VerifiedMember) (role : AppRole) (device : option DeviceId) (ex : Z) (services : list ServiceId)
    reg b (now : Z) :
  let net := adm_network_id acert in
  let request := AppRegistrationRequest_create app net policy in
  length (admin_seed admin) = 32%nat -> length (app_seed app) = 32%nat -> NetworkId_wf net ->
  is_u32 policy = true -> is_u64 ex = true -> Forall ServiceId_wf services ->
  (forall d, device = Some d -> DeviceId_wf d) ->
  mc_network_id (vm_payload vm) = net -> MemberId_wf (mc_member_id (vm_payload vm)) ->
  AppRegistration_issue_by_admin admin acert (mkVerifiedAppRequest (payload request)) = Ok reg ->
  AppBinding_issue app net (mc_member_id (vm_payload vm)) role device ex services = Ok b ->
  now < ex ->
  (r ← AppRegistrationRequest_from_bytes (to_bytes request); AppRegistrationRequest_verify r net)
    = Ok (mkVerifiedAppRequest (payload request)) /\
  exists va,
    (c ← AppRegistration_from_bytes (to_bytes reg);
     AppRegistration_verify_with_admin c (mkVerifiedAdmin acert (adm_public_key acert)) net) = Ok va /\
    (c ← AppBinding_from_bytes (to_bytes b); AppBinding_verify c va vm net now) = Ok tt.
Proof.
  intros net request Ha Hs Hn Hpol Hex Hss Hd Hvm Hmid Hreg Hb Hnow.
  destruct (AppRegistrationRequest_create_wf app net policy Hs Hn Hpol) as [Hrw Hrv].
  apply AppRegistration_issue_by_admin_wf in Hreg as (Hgw & Hgn & Hga & Hgk & Hgv); try done; [|apply Hrw].
  apply AppBinding_issue_wf in Hb as [Hbw Hbv]; try done; subst request.
  split; [|exists (mkVerifiedApp (payload reg)); split].
  - rewrite (proj2 (signed_from_bytes_exact (H := app_request_codec) _ _ _ app_request_payload_length)
      (conj Hrw eq_refl) : AppRegistrationRequest_from_bytes _ = _); done.
  - rewrite (proj2 (signed_from_bytes_exact (H := app_registration_codec) _ _ _ app_registration_payload_length)
      (conj Hgw eq_refl) : AppRegistration_from_bytes _ = _); done.
  - rewrite (proj2 (AppBinding_from_bytes_exact _ _) (conj Hbw eq_refl)); by apply Hbv.
Qed.

Lemma PreparedJoinRequest_wire (p : PreparedJoinRequest) :
  cert_wf (pj_request p) -> cert_wf (pj_endpoint_binding p) -> PreparedJoinRequest_from_bytes (PreparedJoinRequest_to_bytes p) = Ok p.
Proof.
  destruct p as [r b]; cbn [pj_request pj_endpoint_binding]; intros Hrw Hbw.
  unfold PreparedJoinRequest_from_bytes; eapply run_steps; unfold PreparedJoinRequest_to_bytes; cbn [pj_request pj_endpoint_binding].
  pose proof (JoinRequest_wire r Hrw) as [Hrl Hrp]; pose proof (EndpointBinding_wire b Hbw) as [Hbl Hbp].
  assert (Hlen : forall (x : bytes) n, length x = n -> Z.of_nat n < 2 ^ 32 ->
    is_u32 (len x) = true /\ fail_if (negb (len x =? Z.of_nat n)) MalformedWire = Ok tt).
  { intros x n <- Hx; unfold len, in_range; rewrite Z.eqb_refl; split; [|done].
    apply andb_true_iff; rewrite Z.leb_le, Z.ltb_lt; lia. }
  destruct (Hlen _ _ Hrl ltac:(done)), (Hlen _ _ Hbl ltac:(done)); parse.
Qed.

(** A join request prepared by a member round-trips over the wire and is
    accepted by the authority until it expires; acceptance binds the endpoint
    key to the same member identity, network and expiry as the request. *)
Theorem prepared_join_accepted `{Ed25519Laws} `{Blake3Laws}
    (net : NetworkId) (key : SigningKeypair) (ekey endpoint nonce : bytes) (roles ex now : Z) p :
  NetworkId_wf net -> length (sk_seed key) = 32%nat -> length ekey = 32%nat -> length endpoint = 32%nat ->
  length nonce = 32%nat -> is_u32 roles = true -> is_u64 ex = true ->
  PreparedJoinRequest_create net key ekey endpoint nonce roles ex = Ok p -> now < ex ->
  PreparedJoinRequest_from_bytes (PreparedJoinRequest_to_bytes p) = Ok p /\
  PreparedJoinRequest_verify p net now = Ok (mkVerifiedJoinRequest (payload (pj_request p))) /\
  eb_member_id (payload (pj_endpoint_binding p)) = jr_member_id (payload (pj_request p)).
Proof.
  intros Hn Hk Hek Hep Hno Hro Hex Hc Hnow; unfold PreparedJoinRequest_create in Hc.
  apply bind_Ok in Hc as (r & Hr & Hc); apply bind_Ok in Hc as (b & Hb & [= <-]).
  apply JoinRequest_create_wf in Hr as (Hrw & Hrn & Hrm & Hrk & Hre & Hrx & Hrv); try done.
  apply EndpointBinding_issue_for_join_wf in Hb as (Hbw & Hbm & Hbv); try done.
  split_and!; cbn [pj_request pj_endpoint_binding].
  - by apply (PreparedJoinRequest_wire (mkPreparedJoinRequest r b)).
  - unfold PreparedJoinRequest_verify; rewrite Hrv by done; cbn.
    rewrite Hbv; done.
  - by rewrite Hbm, Hrm.
Qed.

Module Witness.
Import Samples.
Definition revoked : gset Z := {[ 3 ]}.

Lemma issued_chain_verifies_witness :
  let root_public := NetworkRootKey_public toy_root in
  let net := root_network_id root_public in
  exists va vm,
    (ac ← AdminCertificate_from_bytes (to_bytes ac);
     AdminCertificate_verify ac root_public net 300 revoked) = Ok va /\
    (mc ← MemberCertificate_from_bytes (to_bytes mc);
     MemberCertificate_verify_with_admin mc va net 300 revoked) = Ok vm /\
    (eb ← EndpointBinding_from_bytes (to_bytes eb);
     EndpointBinding_verify eb vm net toy_endpoint 300) = Ok tt.
Proof.
  apply (issued_chain_verifies toy_root toy_admin toy_member ADMIN_PERMISSION_ALL 1 100 900 toy_encryption
           member_roles 2 200 800 toy_endpoint 0 700);
    try reflexivity; try lia; unfold revoked; set_solver.
Defined.

Lemma accepted_chain_sound_witness :
  ed_verify (mc_signing_public_key (payload mc)) (encode_endpoint_payload (payload eb)) (signature eb) = true.
Proof.
  refine (proj2 (proj2 (proj1 (accepted_chain_sound (NetworkRootKey_public toy_root) toy_network 300 ∅
    (to_bytes ac) (to_bytes mc) (to_bytes eb) toy_endpoint ac mc eb
    (mkVerifiedAdmin (payload ac) (adm_public_key (payload ac))) (mkVerifiedMember (payload mc)) _ _ _ _ _ _))));
    vm_compute; reflexivity.
Defined.


Lemma issued_application_verifies_witness :
  exists va,
    (c ← AppRegistration_from_bytes (to_bytes registration);
     AppRegistration_verify_with_admin c (mkVerifiedAdmin (payload ac) (adm_public_key (payload ac))) toy_network)
      = Ok va /\
    (c ← AppBinding_from_bytes (to_bytes binding);
     AppBinding_verify c va (mkVerifiedMember (payload mc)) toy_network 300) = Ok tt.
Proof.
  refine (proj2 (issued_application_verifies toy_admin (payload ac) toy_app 0 (mkVerifiedMember (payload mc))
    RoleServer None 600 [] registration binding 300 _ _ _ _ _ _ _ _ _ _ _ _)); try (vm_compute; reflexivity).
  - constructor.
  - discriminate.
Defined.

Definition prepared : PreparedJoinRequest :=
  get_ok (PreparedJoinRequest_create toy_network toy_member toy_encryption toy_endpoint (repeat Byte.x77 32) 1 600).

Lemma prepared_join_accepted_witness :
  PreparedJoinRequest_from_bytes (PreparedJoinRequest_to_bytes prepared) = Ok prepared.
Proof.
  refine (proj1 (prepared_join_accepted toy_network toy_member toy_encryption toy_endpoint (repeat Byte.x77 32)
    1 600 300 prepared _ _ _ _ _ _ _ _ _)); vm_compute; reflexivity.
Defined.
End Witness.
