(* ===== verification/Snapshot.v ===== *)
(** * weaver-config: configuration snapshots

    Models [crates/weaver-config/src/snapshot.rs]: the [NetworkConfigV1]
    snapshot, its wire format ([to_bytes]/[from_bytes], both snapshot versions)
    and [validate], which checks every credential a snapshot carries against the
    network root.  Collections the code builds while validating ([HashMap],
    [HashSet]) are finite maps. *)

From S2P Require Import Prelude Wire Core CertificateWire Certificates.

(* weaver-config/src/snapshot.rs:13-13 SNAPSHOT_MAGIC_V1 *)
Definition SNAPSHOT_MAGIC_V1 : bytes := bstr "WVRSNP" ++ [Byte.x00; Byte.x01].
(* weaver-config/src/snapshot.rs:14-14 SNAPSHOT_MAGIC_V2 *)
Definition SNAPSHOT_MAGIC_V2 : bytes := bstr "WVRSNP" ++ [Byte.x00; Byte.x02].
(* weaver-config/src/snapshot.rs:15-15 MAX_MEMBERS *)
Definition MAX_MEMBERS : Z := 256.
(* weaver-config/src/snapshot.rs:16-16 MAX_APPS *)
Definition MAX_APPS : Z := 256.
(* weaver-config/src/snapshot.rs:17-17 MAX_BINDINGS *)
Definition MAX_BINDINGS : Z := 1024.
(* weaver-config/src/snapshot.rs:18-18 MAX_VIRTUAL_DNS_RECORDS *)
Definition MAX_VIRTUAL_DNS_RECORDS : Z := 1024.
(* weaver-config/src/snapshot.rs:19-19 MAX_RELAYS *)
Definition MAX_RELAYS : Z := 64.
(* weaver-config/src/snapshot.rs:20-20 MAX_PRESENCE_SERVICES *)
Definition MAX_PRESENCE_SERVICES : Z := 64.
(* weaver-config/src/snapshot.rs:21-21 MAX_ADMIN_KEYS *)
Definition MAX_ADMIN_KEYS : Z := 16.
(* weaver-config/src/snapshot.rs:22-22 MAX_REVOKED_SERIALS *)
Definition MAX_REVOKED_SERIALS : Z := 4096.
(* weaver-config/src/snapshot.rs:23-23 MAX_CREDENTIAL_BYTES *)
Definition MAX_CREDENTIAL_BYTES : Z := 16 * 1024.
(* weaver-config/src/snapshot.rs:24-24 MAX_URL_BYTES *)
Definition MAX_URL_BYTES : Z := 2048.

(** [RelayRoles] is its bits. *)
Module RelayRoles.
(* weaver-config/src/snapshot.rs:35-35 RelayRoles::DATA_RELAY *)
Definition DATA_RELAY : Z := Z.shiftl 1 0.
(* weaver-config/src/snapshot.rs:36-36 RelayRoles::BOOTSTRAP *)
Definition BOOTSTRAP : Z := Z.shiftl 1 1.
(* weaver-config/src/snapshot.rs:37-37 RelayRoles::PRESENCE *)
Definition PRESENCE : Z := Z.shiftl 1 2.
(* weaver-config/src/snapshot.rs:47-49 RelayRoles::union *)
Definition union (a b : Z) : Z := Z.lor a b.
(* weaver-config/src/snapshot.rs:51-53 RelayRoles::contains *)
Definition contains (a b : Z) : bool := Z.land a b =? b.
End RelayRoles.

(* weaver-config/src/snapshot.rs:502-531 SnapshotError *)
Inductive SnapshotError : Type :=
| SnapRandomnessUnavailable
| SnapMalformedWire
| SnapInvalidLength
| SnapInvalidValidityWindow
| SnapWrongNetwork
| SnapNotYetValid
| SnapExpired
| DuplicateEntry (what : bytes)
| UnknownMember
| UnknownApplication
| InvalidVirtualName
| UnknownAdmin
| PolicyLimitExceeded
| Credential (e : CertificateError).

(** ** Data *)
(* weaver-config/src/snapshot.rs:27-29 AdminKey *)
Record AdminKey : Type := mkAdminKey { ak_certificate : bytes }.
(* weaver-config/src/snapshot.rs:57-62 RelayDescriptor *)
Record RelayDescriptor : Type := mkRelayDescriptor {
  rd_endpoint_id : bytes; rd_url : bytes; rd_roles : Z; rd_expires_at_ms : Z }.
(* weaver-config/src/snapshot.rs:65-69 PresenceServiceDescriptor *)
Record PresenceServiceDescriptor : Type := mkPresenceServiceDescriptor {
  ps_endpoint_id : bytes; ps_url : bytes; ps_expires_at_ms : Z }.
(* weaver-config/src/snapshot.rs:72-76 VirtualDnsRecord *)
Record VirtualDnsRecord : Type := mkVirtualDnsRecord {
  dns_name : VirtualName; dns_app_addr : AppAddr; dns_expires_at_ms : Z }.
(* weaver-config/src/snapshot.rs:79-84 EpochSecrets *)
Record EpochSecrets : Type := EpochSecrets_from_bytes {
  presence_index_seed : bytes; presence_encryption_seed : bytes;
  lan_discovery_seed : bytes; relay_access_seed : bytes }.
(* weaver-config/src/snapshot.rs:103-110 EpochSecrets::expose_bytes *)
Definition expose_bytes (s : EpochSecrets) : list bytes :=
  [presence_index_seed s; presence_encryption_seed s; lan_discovery_seed s; relay_access_seed s].
(* weaver-config/src/snapshot.rs:120-124 NetworkPolicy *)
Record NetworkPolicy : Type := mkNetworkPolicy {
  pol_flags : Z; pol_max_members : Z; pol_max_services_per_binding : Z }.
(* weaver-config/src/snapshot.rs:126-134 NetworkPolicy::default *)
Definition NetworkPolicy_default : NetworkPolicy := mkNetworkPolicy 0 MAX_MEMBERS 64.
(* weaver-config/src/snapshot.rs:137-155 NetworkConfigV1 *)
Record NetworkConfigV1 : Type := mkNetworkConfigV1 {
  cfg_network_id : NetworkId;
  cfg_epoch : Z;
  cfg_revision : Z;
  cfg_previous_hash : bytes;
  cfg_issued_at_ms : Z;
  cfg_expires_at_ms : Z;
  cfg_admin_keys : list AdminKey;
  cfg_members : list bytes;
  cfg_endpoint_bindings : list bytes;
  cfg_revoked_serials : list Z;
  cfg_apps : list bytes;
  cfg_app_bindings : list bytes;
  cfg_virtual_dns : list VirtualDnsRecord;
  cfg_relays : list RelayDescriptor;
  cfg_presence_services : list PresenceServiceDescriptor;
  cfg_epoch_secrets : EpochSecrets;
  cfg_policies : NetworkPolicy;
}.
(* weaver-config/src/snapshot.rs:461-472 ValidatedNetworkConfig *)
Record ValidatedNetworkConfig : Type := mkValidated { vc_inner : NetworkConfigV1 }.

(** ** Shape *)
(* weaver-config/src/snapshot.rs:569-575 check_len *)
Definition check_len (actual maximum : Z) : result SnapshotError unit :=
  if actual <=? maximum then Ok tt else Err SnapInvalidLength.
(* weaver-config/src/snapshot.rs:561-567 validate_url *)
Definition validate_url (url : bytes) : result SnapshotError unit :=
  fail_if (bool_decide (url = []) || (MAX_URL_BYTES <? len url) || negb (is_ascii url)) SnapInvalidLength.
Definition blob_bad (raw : bytes) : bool := bool_decide (raw = []) || (MAX_CREDENTIAL_BYTES <? len raw).
Definition cfg_credentials (c : NetworkConfigV1) : list bytes :=
  (ak_certificate <$> cfg_admin_keys c) ++ cfg_members c ++ cfg_endpoint_bindings c
  ++ cfg_apps c ++ cfg_app_bindings c.
(* weaver-config/src/snapshot.rs:423-457 NetworkConfigV1::validate_shape *)
Definition validate_shape (c : NetworkConfigV1) : result SnapshotError unit :=
  fail_if (cfg_expires_at_ms c <=? cfg_issued_at_ms c) SnapInvalidValidityWindow;;
  check_len (len (cfg_admin_keys c)) MAX_ADMIN_KEYS;;
  check_len (len (cfg_members c)) MAX_MEMBERS;;
  check_len (len (cfg_endpoint_bindings c)) MAX_MEMBERS;;
  check_len (len (cfg_revoked_serials c)) MAX_REVOKED_SERIALS;;
  check_len (len (cfg_apps c)) MAX_APPS;;
  check_len (len (cfg_app_bindings c)) MAX_BINDINGS;;
  check_len (len (cfg_virtual_dns c)) MAX_VIRTUAL_DNS_RECORDS;;
  check_len (len (cfg_relays c)) MAX_RELAYS;;
  check_len (len (cfg_presence_services c)) MAX_PRESENCE_SERVICES;;
  for_each (fun raw => fail_if (blob_bad raw) SnapInvalidLength) (cfg_credentials c);;
  fail_if ((pol_max_members (cfg_policies c) =? 0) || (MAX_MEMBERS <? pol_max_members (cfg_policies c))
           || (pol_max_services_per_binding (cfg_policies c) =? 0)
           || (64 <? pol_max_services_per_binding (cfg_policies c))) PolicyLimitExceeded.

(** ** Encoding: each [push_*] gives the bytes it appends *)
(* weaver-config/src/snapshot.rs:577-581 push_count *)
Definition push_count (count : Z) : result SnapshotError bytes :=
  fail_if (negb (is_u16 count)) SnapInvalidLength;; Ok (to_be 2 count).
(* weaver-config/src/snapshot.rs:591-599 push_blob *)
Definition push_blob (value : bytes) : result SnapshotError bytes :=
  fail_if (blob_bad value) SnapInvalidLength;;
  n ← push_count (len value);
  Ok (n ++ value).
(** [push_count(..)?] followed by one push per element. *)
Definition push_list {A} (push : A -> result SnapshotError bytes) (values : list A) : result SnapshotError bytes :=
  n ← push_count (len values);
  items ← try_map push values;
  Ok (n ++ concat items).
(* weaver-config/src/snapshot.rs:601-607 push_blobs *)
Definition push_blobs : list bytes -> result SnapshotError bytes := push_list push_blob.
(* weaver-config/src/snapshot.rs:609-615 push_string *)
Definition push_string (value : bytes) : result SnapshotError bytes :=
  validate_url value;;
  n ← push_count (len value);
  Ok (n ++ value).
(* weaver-config/src/snapshot.rs:182-186 to_bytes *)
Definition push_dns (r : VirtualDnsRecord) : result SnapshotError bytes :=
  name ← push_string (VirtualName_as_str (dns_name r));
  Ok (name ++ AppAddr_as_bytes (dns_app_addr r) ++ to_be 8 (dns_expires_at_ms r)).
(* weaver-config/src/snapshot.rs:188-193 to_bytes *)
Definition push_relay (r : RelayDescriptor) : result SnapshotError bytes :=
  url ← push_string (rd_url r);
  Ok (rd_endpoint_id r ++ url ++ to_be 4 (rd_roles r) ++ to_be 8 (rd_expires_at_ms r)).
(* weaver-config/src/snapshot.rs:195-199 to_bytes *)
Definition push_service (s : PresenceServiceDescriptor) : result SnapshotError bytes :=
  url ← push_string (ps_url s);
  Ok (ps_endpoint_id s ++ url ++ to_be 8 (ps_expires_at_ms s)).
(* weaver-config/src/snapshot.rs:158-207 NetworkConfigV1::to_bytes *)
Definition NetworkConfigV1_to_bytes (c : NetworkConfigV1) : result SnapshotError bytes :=
  validate_shape c;;
  admin_keys ← push_list (fun k => push_blob (ak_certificate k)) (cfg_admin_keys c);
  members ← push_blobs (cfg_members c);
  endpoint_bindings ← push_blobs (cfg_endpoint_bindings c);
  revoked ← push_list (fun s => Ok (to_be 8 s)) (cfg_revoked_serials c);
  apps ← push_blobs (cfg_apps c);
  app_bindings ← push_blobs (cfg_app_bindings c);
  virtual_dns ← push_list push_dns (cfg_virtual_dns c);
  relays ← push_list push_relay (cfg_relays c);
  presence ← push_list push_service (cfg_presence_services c);
  Ok (SNAPSHOT_MAGIC_V2 ++ NetworkId_as_bytes (cfg_network_id c) ++ to_be 8 (cfg_epoch c)
      ++ to_be 8 (cfg_revision c) ++ cfg_previous_hash c ++ to_be 8 (cfg_issued_at_ms c)
      ++ to_be 8 (cfg_expires_at_ms c) ++ admin_keys ++ members ++ endpoint_bindings ++ revoked
      ++ apps ++ app_bindings ++ virtual_dns ++ relays ++ presence
      ++ concat (expose_bytes (cfg_epoch_secrets c)) ++ to_be 4 (pol_flags (cfg_policies c))
      ++ to_be 2 (pol_max_members (cfg_policies c))
      ++ to_be 2 (pol_max_services_per_binding (cfg_policies c))).

(** ** Decoding *)
#[local] Abbreviation array := (d_array SnapMalformedWire).
#[local] Abbreviation u16 := (d_u16 SnapMalformedWire).
#[local] Abbreviation u32 := (d_u32 SnapMalformedWire).
#[local] Abbreviation u64 := (d_u64 SnapMalformedWire).
#[local] Abbreviation magic := (d_magic SnapMalformedWire).
#[local] Abbreviation finish := (d_finish SnapMalformedWire).

(* weaver-config/src/snapshot.rs:666-670 Decoder::count *)
Definition d_count (maximum : Z) : dec SnapshotError Z :=
  count ← u16; lift (check_len count maximum);; mret count.
(* weaver-config/src/snapshot.rs:681-687 Decoder::blob *)
Definition d_blob : dec SnapshotError bytes :=
  n ← u16;
  lift (fail_if ((n =? 0) || (MAX_CREDENTIAL_BYTES <? n)) SnapInvalidLength);;
  d_take SnapMalformedWire n.
(** [count(maximum)?] followed by one read per element. *)
Definition d_list {A} (maximum : Z) (p : dec SnapshotError A) : dec SnapshotError (list A) :=
  count ← d_count maximum; d_repeat p (Z.to_nat count).
(* weaver-config/src/snapshot.rs:672-679 Decoder::blobs *)
Definition d_blobs (maximum : Z) : dec SnapshotError (list bytes) := d_list maximum d_blob.
(* weaver-config/src/snapshot.rs:689-698 Decoder::string *)
Definition d_string : dec SnapshotError bytes :=
  n ← u16;
  lift (fail_if ((n =? 0) || (MAX_URL_BYTES <? n)) SnapInvalidLength);;
  value ← d_take SnapMalformedWire n;
  lift (fail_if (negb (is_utf8 value)) SnapMalformedWire);;
  lift (validate_url value);;
  mret value.
(* weaver-config/src/snapshot.rs:246-251 from_bytes *)
Definition d_dns : dec SnapshotError VirtualDnsRecord :=
  name ← d_string;
  name ← lift (map_err (fun _ => InvalidVirtualName) (VirtualName_new name));
  app_addr ← array 32; expires_at_ms ← u64;
  mret (mkVirtualDnsRecord name (AppAddr_from_bytes app_addr) expires_at_ms).
(* weaver-config/src/snapshot.rs:260-265 from_bytes *)
Definition d_relay : dec SnapshotError RelayDescriptor :=
  endpoint_id ← array 32; url ← d_string; roles ← u32; expires_at_ms ← u64;
  mret (mkRelayDescriptor endpoint_id url roles expires_at_ms).
(* weaver-config/src/snapshot.rs:270-274 from_bytes *)
Definition d_service : dec SnapshotError PresenceServiceDescriptor :=
  endpoint_id ← array 32; url ← d_string; expires_at_ms ← u64;
  mret (mkPresenceServiceDescriptor endpoint_id url expires_at_ms).
(* weaver-config/src/snapshot.rs:211-219 from_bytes *)
Definition d_version (bs : bytes) : dec SnapshotError bool :=
  if decide (SNAPSHOT_MAGIC_V2 `prefix_of` bs) then magic SNAPSHOT_MAGIC_V2;; mret true
  else if decide (SNAPSHOT_MAGIC_V1 `prefix_of` bs) then magic SNAPSHOT_MAGIC_V1;; mret false
  else lift (Err SnapMalformedWire).
(* weaver-config/src/snapshot.rs:220-309 NetworkConfigV1::from_bytes *)
Definition d_config (has_virtual_dns : bool) : dec SnapshotError NetworkConfigV1 :=
  network_id ← array 32; epoch ← u64; revision ← u64; previous_hash ← array 32;
  issued_at_ms ← u64; expires_at_ms ← u64;
  admin_keys ← d_list MAX_ADMIN_KEYS (c ← d_blob; mret (mkAdminKey c));
  members ← d_blobs MAX_MEMBERS;
  endpoint_bindings ← d_blobs MAX_MEMBERS;
  revoked_serials ← d_list MAX_REVOKED_SERIALS u64;
  apps ← d_blobs MAX_APPS;
  app_bindings ← d_blobs MAX_BINDINGS;
  virtual_dns ← (if has_virtual_dns then d_list MAX_VIRTUAL_DNS_RECORDS d_dns else mret []);
  relays ← d_list MAX_RELAYS d_relay;
  presence_services ← d_list MAX_PRESENCE_SERVICES d_service;
  s0 ← array 32; s1 ← array 32; s2 ← array 32; s3 ← array 32;
  flags ← u32; max_members ← u16; max_services_per_binding ← u16;
  finish;;
  let config := {|
    cfg_network_id := NetworkId_from_bytes network_id; cfg_epoch := epoch; cfg_revision := revision;
    cfg_previous_hash := previous_hash; cfg_issued_at_ms := issued_at_ms;
    cfg_expires_at_ms := expires_at_ms; cfg_admin_keys := admin_keys; cfg_members := members;
    cfg_endpoint_bindings := endpoint_bindings; cfg_revoked_serials := revoked_serials;
    cfg_apps := apps; cfg_app_bindings := app_bindings; cfg_virtual_dns := virtual_dns;
    cfg_relays := relays; cfg_presence_services := presence_services;
    cfg_epoch_secrets := EpochSecrets_from_bytes s0 s1 s2 s3;
    cfg_policies := mkNetworkPolicy flags max_members max_services_per_binding |} in
  lift (validate_shape config);;
  mret config.
(* weaver-config/src/snapshot.rs:209-309 NetworkConfigV1::from_bytes *)
Definition NetworkConfigV1_from_bytes (bs : bytes) : result SnapshotError NetworkConfigV1 :=
  run_decoder (has_virtual_dns ← d_version bs; d_config has_virtual_dns) bs.

(** ** Round trips *)

(** The ranges the Rust types guarantee. *)
Definition dns_typed (r : VirtualDnsRecord) : Prop :=
  VirtualName_wf (dns_name r) /\ AppAddr_wf (dns_app_addr r) /\ is_u64 (dns_expires_at_ms r) = true.
Definition relay_typed (r : RelayDescriptor) : Prop :=
  length (rd_endpoint_id r) = 32%nat /\ is_u32 (rd_roles r) = true /\ is_u64 (rd_expires_at_ms r) = true.
Definition service_typed (s : PresenceServiceDescriptor) : Prop :=
  length (ps_endpoint_id s) = 32%nat /\ is_u64 (ps_expires_at_ms s) = true.
Definition secrets_typed (s : EpochSecrets) : Prop := Forall (fun x => length x = 32%nat) (expose_bytes s).
Definition policy_typed (p : NetworkPolicy) : Prop :=
  is_u32 (pol_flags p) = true /\ is_u16 (pol_max_members p) = true /\
  is_u16 (pol_max_services_per_binding p) = true.
Record config_typed (c : NetworkConfigV1) : Prop := {
  ct_network : NetworkId_wf (cfg_network_id c);
  ct_epoch : is_u64 (cfg_epoch c) = true;
  ct_revision : is_u64 (cfg_revision c) = true;
  ct_previous : length (cfg_previous_hash c) = 32%nat;
  ct_issued : is_u64 (cfg_issued_at_ms c) = true;
  ct_expires : is_u64 (cfg_expires_at_ms c) = true;
  ct_revoked : Forall (fun s => is_u64 s = true) (cfg_revoked_serials c);
  ct_dns : Forall dns_typed (cfg_virtual_dns c);
  ct_relays : Forall relay_typed (cfg_relays c);
  ct_services : Forall service_typed (cfg_presence_services c);
  ct_secrets : secrets_typed (cfg_epoch_secrets c);
  ct_policies : policy_typed (cfg_policies c);
}.

(** An encoder and a decoder of list elements that fit each other. *)
Definition fits {A} (push : A -> result SnapshotError bytes) (p : dec SnapshotError A) (P : A -> Prop) : Prop :=
  (forall a x s, P a -> push a = Ok x -> steps p (x ++ s) a s) /\
  Reads p (fun a x => push a = Ok x /\ P a).

Section elements.
Lemma check_len_Ok n m u : check_len n m = Ok u <-> n <= m.
Proof. unfold check_len; destruct u, (n <=? m) eqn:H; bool_inv; split; intros; done || lia. Qed.

Lemma push_count_Ok n x : push_count n = Ok x <-> is_u16 n = true /\ x = to_be 2 n.
Proof.
  unfold push_count; rewrite bind_Ok; split.
  - intros (u & Hu%fail_if_Ok & Hx%Ok_inj); by bool_inv.
  - intros [Hn ->]; exists tt; split; [apply fail_if_Ok; by rewrite Hn | done].
Qed.

Lemma blob_fits : fits push_blob d_blob (fun _ => True).
Proof.
  split.
  - intros a x s _ Hx; unfold push_blob in Hx.
    apply bind_Ok in Hx as (u & Hb & Hx); apply bind_Ok in Hx as (n & [Hn ->]%push_count_Ok & Hx); apply Ok_inj in Hx as <-.
    assert (fail_if ((len a =? 0) || (MAX_CREDENTIAL_BYTES <? len a)) SnapInvalidLength = Ok tt) as Hf.
    { apply fail_if_Ok in Hb; unfold blob_bad in Hb; bool_inv; apply fail_if_Ok; passes.
      unfold len; destruct a; [done | cbn; lia]. }
    unfold d_blob; parse.
  - intros d s a d' Hs Ha; unfold d_blob in Ha; unparse; res_inv; bool_inv.
    match goal with Hl : 0 <= ?n -> len a = ?n, Hr : is_u16 ?n = true |- _ =>
      assert (len a = n) as <- by (apply Hl; unfold in_range in Hr; bool_inv; lia); rename Hr into Hn end.
    rewrite ?app_assoc; eexists _, _; split_and!; [reflexivity | done | | done].
    unfold push_blob; apply bind_Ok; exists tt; split.
    + apply fail_if_Ok; unfold blob_bad; passes; intros ->; done.
    + rewrite (proj2 (push_count_Ok _ _) (conj Hn eq_refl)); done.
Qed.

Lemma list_fits {A} push p (P : A -> Prop) maximum xs x s :
  fits push p P -> Forall P xs -> len xs <= maximum -> push_list push xs = Ok x ->
  steps (d_list maximum p) (x ++ s) xs s.
Proof.
  intros [Hp _] HP Hlen Hx; unfold push_list in Hx.
  apply bind_Ok in Hx as (n & [Hn ->]%push_count_Ok & Hx).
  apply bind_Ok in Hx as (items & Hitems%try_map_Ok & Hx); apply Ok_inj in Hx as <-.
  unfold d_list, d_count; rewrite <- app_assoc; eapply steps_bind.
  - eapply steps_bind; [apply (steps_uint _ 2); exact Hn|].
    eapply steps_bind; [by apply (steps_lift _ tt), check_len_Ok | apply steps_ret].
  - unfold len; rewrite Nat2Z.id; clear Hlen Hn; induction Hitems as [|a y xs ys Ha Hys IH]; cbn; [apply steps_ret|].
    rewrite <- app_assoc; apply Forall_cons in HP as [HP HPs].
    eapply steps_bind; [by apply Hp|]; eapply steps_bind; [by apply IH | apply steps_ret].
Qed.

#[global] Instance reads_list {A} push (p : dec SnapshotError A) (P : A -> Prop) maximum :
  Reads p (fun a x => push a = Ok x /\ P a) ->
  Reads (d_list maximum p) (fun xs x => push_list push xs = Ok x /\ Forall P xs /\ len xs <= maximum).
Proof.
  intros Hp d s xs d' Hs H; unfold d_list, d_count in H; unparse.
  match goal with Hc : check_len ?n maximum = Ok _ |- _ => apply check_len_Ok in Hc; rename n into count end.
  match goal with Hl : length xs = Z.to_nat count |- _ =>
    assert (count = len xs) as -> by (unfold in_range, len in *; bool_inv; lia) end.
  match goal with Hys : exists ys, _ |- _ => destruct Hys as (ys & HF & ->) end.
  rewrite ?app_assoc; eexists _, _; split_and!; [reflexivity | done | | | done].
  - unfold push_list; rewrite (proj2 (push_count_Ok (len xs) _)) by done; cbn.
    rewrite (proj2 (try_map_Ok push xs ys)); [done|]; eapply Forall2_impl; [exact HF | by intros ? ? []].
  - clear -HF; induction HF as [|? ? ? ? [_ ?]]; constructor; done.
Qed.

Lemma validate_url_Ok url u :
  validate_url url = Ok u <-> 1 <= len url <= MAX_URL_BYTES /\ is_ascii url = true.
Proof.
  unfold validate_url; rewrite fail_if_Ok, !orb_false_iff, negb_false_iff, bool_decide_eq_false, Z.ltb_ge.
  assert (url <> [] <-> 1 <= len url) as ->; [|intuition lia].
  unfold len; destruct url; cbn; split; intros; lia || congruence.
Qed.

Lemma push_string_Ok v x :
  push_string v = Ok x <-> validate_url v = Ok tt /\ x = to_be 2 (len v) ++ v.
Proof.
  unfold push_string; rewrite bind_Ok; setoid_rewrite bind_Ok; setoid_rewrite push_count_Ok; split.
  - intros ([] & Hu & n & [Hn ->] & Hx%Ok_inj); done.
  - intros [Hu ->]; exists tt; split; [done|]; eexists; split; [split; [|done]|done].
    apply validate_url_Ok in Hu as [Hl _]; unfold MAX_URL_BYTES in Hl; unfold in_range; passes.
Qed.

Lemma string_fits : fits push_string d_string (fun _ => True).
Proof.
  split.
  - intros v x s _ [Hu ->]%push_string_Ok; pose proof Hu as [Hl Ha]%validate_url_Ok.
    assert (is_u16 (len v) = true) by (unfold MAX_URL_BYTES in Hl; unfold in_range; passes).
    assert (fail_if ((len v =? 0) || (MAX_URL_BYTES <? len v)) SnapInvalidLength = Ok tt)
      by (apply fail_if_Ok; passes).
    assert (fail_if (negb (is_utf8 v)) SnapMalformedWire = Ok tt)
      by (apply fail_if_Ok; by rewrite is_ascii_utf8).
    unfold d_string; parse.
  - intros d s v d' Hs H; unfold d_string in H; unparse; res_inv; bool_inv.
    match goal with Hl : 0 <= ?n -> len v = ?n, Hr : is_u16 ?n = true |- _ =>
      assert (len v = n) as <- by (apply Hl; unfold in_range in Hr; bool_inv; lia) end.
    rewrite ?app_assoc; eexists _, _; split_and!; [reflexivity | done | by apply push_string_Ok | done].
Qed.
#[global] Instance reads_string : Reads d_string (fun v x => push_string v = Ok x /\ True).
Proof. apply string_fits. Qed.

Lemma VirtualName_new_wf name n : VirtualName_new name = Ok n <-> n = VirtualName_mk name /\ VirtualName_wf n.
Proof.
  unfold VirtualName_new, VirtualName_wf; rewrite bind_Ok; split.
  - intros ([] & Hv & <-%Ok_inj); done.
  - intros [-> Hv]; eauto.
Qed.

Lemma dns_fits : fits push_dns d_dns dns_typed.
Proof.
  split.
  - intros [n [a] e] x s (Hn & Ha & He) Hx; unfold push_dns in Hx; cbn in *.
    apply bind_Ok in Hx as (y & Hy & <-%Ok_inj).
    assert (map_err (fun _ => InvalidVirtualName) (VirtualName_new (VirtualName_as_str n)) = Ok n).
    { apply map_err_Ok, VirtualName_new_wf; by destruct n. }
    unfold d_dns; rewrite <- app_assoc; eapply steps_bind; [by apply string_fits|]; parse.
  - intros d s r d' Hs H; unfold d_dns in H; unparse; res_inv.
    match goal with Hv : VirtualName_new _ = Ok _ |- _ => apply VirtualName_new_wf in Hv as [-> ?] end.
    rewrite ?app_assoc; eexists _, _; split_and!; [reflexivity | done | | done].
    unfold push_dns; cbn; apply bind_Ok; eexists; split; [done | by rewrite app_assoc].
Qed.

Lemma relay_fits : fits push_relay d_relay relay_typed.
Proof.
  split.
  - intros [e u r x'] x s (He & Hr & Hx') Hx; unfold push_relay in Hx; cbn in *.
    apply bind_Ok in Hx as (y & Hy & <-%Ok_inj).
    pose proof (fun s => proj1 string_fits u y s I Hy); unfold d_relay; parse.
  - intros d s r d' Hs H; unfold d_relay in H; unparse.
    rewrite ?app_assoc; eexists _, _; split_and!; [reflexivity | done | | done].
    unfold push_relay; cbn; apply bind_Ok; eexists; split; [done | by rewrite !app_assoc].
Qed.

Lemma service_fits : fits push_service d_service service_typed.
Proof.
  split.
  - intros [e u x'] x s (He & Hx') Hx; unfold push_service in Hx; cbn in *.
    apply bind_Ok in Hx as (y & Hy & <-%Ok_inj).
    pose proof (fun s => proj1 string_fits u y s I Hy); unfold d_service; parse.
  - intros d s r d' Hs H; unfold d_service in H; unparse.
    rewrite ?app_assoc; eexists _, _; split_and!; [reflexivity | done | | done].
    unfold push_service; cbn; apply bind_Ok; eexists; split; [done | by rewrite !app_assoc].
Qed.

Lemma admin_key_fits :
  fits (fun k => push_blob (ak_certificate k)) (c ← d_blob; mret (mkAdminKey c)) (fun _ => True).
Proof.
  split.
  - intros [c] x s _ Hx; cbn in Hx; pose proof (fun s => proj1 blob_fits c x s I Hx); parse.
  - intros d s k d' Hs (c & d1 & Hc & Hk)%dec_bind_Ok; unparse.
    destruct (proj2 blob_fits _ _ _ _ Hs Hc) as (x & s' & -> & Hs' & Hx & _); eauto 6.
Qed.

Lemma serial_fits : fits (fun s => Ok (to_be 8 s)) u64 (fun s => is_u64 s = true).
Proof.
  split; [intros a x s Ha <-%Ok_inj; by apply (steps_uint _ 8)|].
  intros d s a d' Hs H; unparse; eauto 6.
Qed.
End elements.

Record shape_ok (c : NetworkConfigV1) : Prop := {
  so_window : cfg_issued_at_ms c < cfg_expires_at_ms c;
  so_admins : len (cfg_admin_keys c) <= MAX_ADMIN_KEYS;
  so_members : len (cfg_members c) <= MAX_MEMBERS;
  so_endpoints : len (cfg_endpoint_bindings c) <= MAX_MEMBERS;
  so_revoked : len (cfg_revoked_serials c) <= MAX_REVOKED_SERIALS;
  so_apps : len (cfg_apps c) <= MAX_APPS;
  so_bindings : len (cfg_app_bindings c) <= MAX_BINDINGS;
  so_dns : len (cfg_virtual_dns c) <= MAX_VIRTUAL_DNS_RECORDS;
  so_relays : len (cfg_relays c) <= MAX_RELAYS;
  so_services : len (cfg_presence_services c) <= MAX_PRESENCE_SERVICES;
  so_credentials : Forall (fun raw => blob_bad raw = false) (cfg_credentials c);
  so_max_members : pol_max_members (cfg_policies c) <> 0 /\ pol_max_members (cfg_policies c) <= MAX_MEMBERS;
  so_max_services : pol_max_services_per_binding (cfg_policies c) <> 0 /\
                    pol_max_services_per_binding (cfg_policies c) <= 64;
}.

Lemma validate_shape_Ok c : validate_shape c = Ok tt <-> shape_ok c.
Proof.
  unfold validate_shape; split.
  - intros H; res_inv; bool_inv.
    repeat match goal with Hx : check_len _ _ = Ok _ |- _ => apply check_len_Ok in Hx end.
    constructor; try done; try lia.
    eapply Forall_impl; [eassumption|]; intros raw Hr; cbv beta in Hr; by apply fail_if_Ok in Hr.
  - intros []; repeat (apply bind_Ok; exists tt; split;
      [first [by apply check_len_Ok | apply fail_if_Ok; passes | apply for_each_Ok]|]).
    + eapply Forall_impl; [eassumption|]; intros raw Hr; by apply fail_if_Ok.
    + apply fail_if_Ok; passes.
Qed.

Section codec.
Ltac list_steps F :=
  eapply list_fits; [exact F | | | eassumption]; [done || (by apply Forall_true) | eassumption].
#[local] Hint Extern 1 (steps (d_list _ _) _ _ _) =>
  first [list_steps admin_key_fits | list_steps blob_fits | list_steps serial_fits
        | list_steps dns_fits | list_steps relay_fits | list_steps service_fits] : codec.

Lemma config_round_trip_forward c bs :
  config_typed c -> NetworkConfigV1_to_bytes c = Ok bs -> NetworkConfigV1_from_bytes bs = Ok c.
Proof.
  intros Ht Hb; unfold NetworkConfigV1_to_bytes in Hb.
  apply bind_Ok in Hb as ([] & Hshape & Hb); pose proof Hshape as [_ ? ? ? ? ? ? ? ? ? _ _ _]%validate_shape_Ok.
  apply bind_Ok in Hb as (admins & Hadm & Hb); apply bind_Ok in Hb as (members & Hmem & Hb).
  apply bind_Ok in Hb as (ends & Hend & Hb); apply bind_Ok in Hb as (revoked & Hrev & Hb).
  apply bind_Ok in Hb as (apps & Happ & Hb); apply bind_Ok in Hb as (binds & Hbind & Hb).
  apply bind_Ok in Hb as (dns & Hdns & Hb); apply bind_Ok in Hb as (relays & Hrel & Hb).
  apply bind_Ok in Hb as (presence & Hpre & <-%Ok_inj).
  destruct Ht as [? ? ? ? ? ? ? ? ? ? Hsec (? & ? & ?)].
  destruct c as [[net] ep rev prev iss exp ak mem eb rs ap ab vd rl psv [s0 s1 s2 s3] [fl mm ms]].
  unfold NetworkId_wf in *; cbn in *; repeat (apply Forall_cons in Hsec as [? Hsec]).
  unfold NetworkConfigV1_from_bytes; eapply run_steps.
  unfold d_version; rewrite decide_True by (by eexists); unfold d_config, d_blobs.
  rewrite ?app_nil_r; rewrite <- ?app_assoc.
  eapply steps_bind; [eapply steps_bind; [apply steps_magic | apply steps_ret]|]; cbn iota beta.
  rewrite <- (app_nil_r (to_be 2 ms)); parse.
Qed.
#[local] Instance reads_blob : Reads d_blob _ := proj2 blob_fits.
#[local] Instance reads_admin_key : Reads (c ← d_blob; mret (mkAdminKey c)) _ := proj2 admin_key_fits.
#[local] Instance reads_dns : Reads d_dns _ := proj2 dns_fits.
#[local] Instance reads_relay : Reads d_relay _ := proj2 relay_fits.
#[local] Instance reads_service : Reads d_service _ := proj2 service_fits.

#[local] Instance reads_serials m : Reads (d_list m u64) _ := reads_list _ _ _ m (proj2 serial_fits).

Lemma config_round_trip_backward bs c :
  NetworkConfigV1_from_bytes bs = Ok c -> SNAPSHOT_MAGIC_V2 `prefix_of` bs ->
  config_typed c /\ NetworkConfigV1_to_bytes c = Ok bs.
Proof.
  unfold NetworkConfigV1_from_bytes, d_version, d_config, d_blobs; intros H Hv.
  rewrite decide_True in H by done; unparse.
  split; [constructor; cbn; try done; repeat constructor; done|].
  unfold NetworkConfigV1_to_bytes; cbn.
  repeat (apply bind_Ok; eexists; split; [eassumption|]).
  by rewrite ?app_nil_r, <- ?app_assoc.
Qed.

Lemma config_from_bytes_typed bs c : NetworkConfigV1_from_bytes bs = Ok c -> config_typed c.
Proof.
  destruct (decide (SNAPSHOT_MAGIC_V2 `prefix_of` bs)) as [Hv|Hv]; [intros H; by eapply config_round_trip_backward|].
  unfold NetworkConfigV1_from_bytes, d_version, d_config, d_blobs; rewrite decide_False by done; intros H.
  case_decide; unparse; constructor; cbn; try done; repeat constructor; done.
Qed.

Lemma config_v1_without_dns bs c :
  NetworkConfigV1_from_bytes bs = Ok c -> SNAPSHOT_MAGIC_V1 `prefix_of` bs -> cfg_virtual_dns c = [].
Proof.
  unfold NetworkConfigV1_from_bytes, d_version, d_config, d_blobs; intros H [s ->].
  rewrite decide_False in H by (intros [s' Hs]; discriminate Hs).
  rewrite decide_True in H by (by eexists); unparse; done.
Qed.
End codec.

(** The snapshot encoding is exact.  The bytes that open as version 2 and
    give a configuration are the bytes this configuration encodes to, and every
    configuration whose fields have their Rust ranges and that encodes at all is
    read back unchanged; bytes of version 1 open with an empty name table. *)
Theorem snapshot_wire_exact :
  (forall bs c, NetworkConfigV1_from_bytes bs = Ok c /\ SNAPSHOT_MAGIC_V2 `prefix_of` bs <->
                config_typed c /\ NetworkConfigV1_to_bytes c = Ok bs) /\
  (forall bs c, NetworkConfigV1_from_bytes bs = Ok c -> SNAPSHOT_MAGIC_V1 `prefix_of` bs ->
                cfg_virtual_dns c = []).
Proof.
  split; [|exact config_v1_without_dns]; intros bs c; split.
  - intros [H Hv]; by apply config_round_trip_backward.
  - intros [Ht Hb]; split; [by apply config_round_trip_forward|].
    unfold NetworkConfigV1_to_bytes in Hb; res_inv; by eexists.
Qed.
