(* ===== verification/Presence.v ===== *)
(** * weaver-discovery: encrypted presence records

    Models the presence part of [crates/weaver-discovery/src/lib.rs]: the record an
    endpoint publishes about itself, its signed payload, the sealed form the directory
    service stores, and the checks a reader makes before it believes a record. *)

From S2P Require Import Prelude Wire Core SocketAddr Platform CertificateWire Certificates Symmetric Snapshot.

(* weaver-discovery/src/lib.rs:35-35 MAX_PRESENCE_TTL_MS *)
Definition MAX_PRESENCE_TTL_MS : Z := 5 * 60 * 1000.
(* weaver-discovery/src/lib.rs:36-36 PRESENCE_MAGIC *)
Definition PRESENCE_MAGIC : bytes := bstr "WVRPRS" ++ [Byte.x00; Byte.x02].
(* weaver-discovery/src/lib.rs:37-37 PRESENCE_PAYLOAD_MAGIC *)
Definition PRESENCE_PAYLOAD_MAGIC : bytes := bstr "WVRPRP" ++ [Byte.x00; Byte.x02].
(* weaver-discovery/src/lib.rs:39-39 OPAQUE_KEY_LEN *)
Definition OPAQUE_KEY_LEN : nat := 24.
(* weaver-discovery/src/lib.rs:40-40 NONCE_LEN *)
Definition PRESENCE_NONCE_LEN : nat := 24.
(* weaver-discovery/src/lib.rs:41-41 SIGNATURE_LEN *)
Definition PRESENCE_SIGNATURE_LEN : nat := 64.
(* weaver-discovery/src/lib.rs:42-42 MAX_CANDIDATES *)
Definition MAX_CANDIDATES : Z := 16.
(* weaver-discovery/src/lib.rs:43-43 MAX_VIRTUAL_ADDRS *)
Definition MAX_VIRTUAL_ADDRS : Z := 256.
(* weaver-discovery/src/lib.rs:44-44 MAX_RELAY_URL_LEN *)
Definition MAX_RELAY_URL_LEN : Z := 2048.
(* weaver-discovery/src/lib.rs:45-45 MAX_PRESENCE_WIRE *)
Definition MAX_PRESENCE_WIRE : Z := 16 * 1024.

(* weaver-discovery/src/lib.rs:1175-1205 DiscoveryError *)
Inductive DiscoveryError : Type :=
| DiscRandomnessUnavailable
| MalformedTag
| MalformedEndpoint
| DiscMalformedWire
| PresenceTooLarge
| InvalidPresence
| WrongEpoch
| DiscWrongNetwork
| EncryptionFailed
| DecryptionFailed
| Rollback
| NotAuthorized
| DiscBackend (message : bytes)
| DiscCrypto (e : CertificateError).

(** ** Data *)
(* weaver-discovery/src/lib.rs:743-747 DiscoveryCandidate *)
Inductive DiscoveryCandidate : Type := CandidateIp (address : SocketAddr) | CandidateRelay (url : bytes).
#[global] Instance DiscoveryCandidate_eq_dec : EqDecision DiscoveryCandidate.
Proof. solve_decision. Defined.
(* weaver-discovery/src/lib.rs:749-761 PresenceRecord *)
Record PresenceRecord : Type := mkPresenceRecord {
  pr_network_id : NetworkId;
  pr_epoch : Z;
  pr_virtual_addrs : list ScopedVirtualAddr;
  pr_member_id : MemberId;
  pr_endpoint_id : EndpointId;
  pr_candidates : list DiscoveryCandidate;
  pr_capabilities : Z;
  pr_sequence : Z;
  pr_issued_at_ms : Z;
  pr_expires_at_ms : Z;
}.
#[global] Instance PresenceRecord_eq_dec : EqDecision PresenceRecord.
Proof. solve_decision. Defined.
(* weaver-discovery/src/lib.rs:763-769 EncryptedPresenceRecord *)
Record EncryptedPresenceRecord : Type := mkEncryptedPresence {
  ep_epoch : Z;
  ep_opaque_key : bytes;
  ep_nonce : bytes;
  ep_ciphertext : bytes;
}.

(** ** The signed payload *)
(* weaver-discovery/src/lib.rs:1298-1305 validate_candidates *)
Definition validate_candidates (candidates : list DiscoveryCandidate) : result DiscoveryError unit :=
  fail_if ((MAX_CANDIDATES <? len candidates)
           || existsb (fun c => match c with
                                | CandidateRelay url => bool_decide (url = []) || (MAX_RELAY_URL_LEN <? len url)
                                | CandidateIp _ => false
                                end) candidates) InvalidPresence.
(* weaver-discovery/src/lib.rs:1413-1424 encode_virtual_addr *)
Definition encode_virtual_addr (address : ScopedVirtualAddr) : bytes :=
  match address with
  | Server app => to_be 1 1 ++ AppAddr_as_bytes app
  | Client app device => to_be 1 2 ++ AppAddr_as_bytes app ++ DeviceId_as_bytes device
  end.
(** [u16::try_from(count).map_err(..)?.to_be_bytes()] *)
Definition push_u16 (count : Z) : result DiscoveryError bytes :=
  fail_if (negb (is_u16 count)) PresenceTooLarge;; Ok (to_be 2 count).
(* weaver-discovery/src/lib.rs:1328-1346 encode_presence_payload *)
Definition encode_candidate (candidate : DiscoveryCandidate) : result DiscoveryError bytes :=
  match candidate with
  | CandidateIp (SocketV4 a b c d port) => Ok (to_be 1 1 ++ (to_be 1 a ++ to_be 1 b ++ to_be 1 c ++ to_be 1 d) ++ to_be 2 port)
  | CandidateIp (SocketV6 segments port _ _) => Ok (to_be 1 2 ++ ipv6_octets segments ++ to_be 2 port)
  | CandidateRelay url => n ← push_u16 (len url); Ok (to_be 1 3 ++ n ++ url)
  end.
(* weaver-discovery/src/lib.rs:1307-1351 encode_presence_payload *)
Definition encode_presence_payload (r : PresenceRecord) : result DiscoveryError bytes :=
  address_count ← push_u16 (len (pr_virtual_addrs r));
  count ← push_u16 (len (pr_candidates r));
  candidates ← try_map encode_candidate (pr_candidates r);
  let out :=
    PRESENCE_PAYLOAD_MAGIC ++ NetworkId_as_bytes (pr_network_id r) ++ to_be 8 (pr_epoch r)
    ++ address_count ++ concat (encode_virtual_addr <$> pr_virtual_addrs r)
    ++ MemberId_as_bytes (pr_member_id r) ++ EndpointId_as_bytes (pr_endpoint_id r)
    ++ to_be 4 (pr_capabilities r) ++ to_be 8 (pr_sequence r) ++ to_be 8 (pr_issued_at_ms r) ++ to_be 8 (pr_expires_at_ms r)
    ++ count ++ concat candidates in
  fail_if (MAX_PRESENCE_WIRE - Z.of_nat PRESENCE_SIGNATURE_LEN <? len out) PresenceTooLarge;;
  Ok out.

#[local] Abbreviation array := (d_array DiscMalformedWire).
#[local] Abbreviation u8 := (d_u8 DiscMalformedWire).
#[local] Abbreviation u16 := (d_u16 DiscMalformedWire).
#[local] Abbreviation u32 := (d_u32 DiscMalformedWire).
#[local] Abbreviation u64 := (d_u64 DiscMalformedWire).
(* weaver-discovery/src/lib.rs:1426-1438 decode_virtual_addr *)
Definition decode_virtual_addr : dec DiscoveryError ScopedVirtualAddr :=
  kind ← u8;
  app ← array 32;
  match kind with
  | 1 => mret (Server (AppAddr_from_bytes app))
  | 2 => device ← array 32; mret (Client (AppAddr_from_bytes app) (DeviceId_from_bytes device))
  | _ => lift (Err DiscMalformedWire)
  end.
(* weaver-discovery/src/lib.rs:1376-1396 decode_presence_payload *)
Definition decode_candidate : dec DiscoveryError DiscoveryCandidate :=
  kind ← u8;
  match kind with
  | 1 => ip ← array 4; port ← u16; mret (CandidateIp (ipv4_of ip port))
  | 2 => ip ← array 16; port ← u16; mret (CandidateIp (SocketV6 (ipv6_segments ip) port 0 0))
  | 3 => n ← u16; url ← d_take DiscMalformedWire n;
         lift (fail_if (negb (is_utf8 url)) DiscMalformedWire);; mret (CandidateRelay url)
  | _ => lift (Err DiscMalformedWire)
  end.
(* weaver-discovery/src/lib.rs:1353-1411 decode_presence_payload *)
Definition decode_presence_payload `{Platform} : bytes -> result DiscoveryError PresenceRecord :=
  run_decoder (
    d_magic DiscMalformedWire PRESENCE_PAYLOAD_MAGIC;;
    network_id ← array 32; epoch ← u64;
    address_count ← u16;
    lift (fail_if ((address_count =? 0) || (MAX_VIRTUAL_ADDRS <? address_count)) InvalidPresence);;
    virtual_addrs ← d_repeat decode_virtual_addr (Z.to_nat address_count);
    member_id ← array 32;
    endpoint_id ← array 32; endpoint_id ← lift (EndpointId_from_bytes endpoint_id ?? MalformedEndpoint);
    capabilities ← u32; sequence ← u64; issued_at_ms ← u64; expires_at_ms ← u64;
    count ← u16;
    lift (fail_if (MAX_CANDIDATES <? count) InvalidPresence);;
    candidates ← d_repeat decode_candidate (Z.to_nat count);
    d_finish DiscMalformedWire;;
    mret (mkPresenceRecord (NetworkId_from_bytes network_id) epoch virtual_addrs (MemberId_from_bytes member_id)
            endpoint_id candidates capabilities sequence issued_at_ms expires_at_ms)).

(** ** The sealed form *)
(* weaver-discovery/src/lib.rs:871-884 EncryptedPresenceRecord::to_bytes *)
Definition Presence_to_bytes (p : EncryptedPresenceRecord) : result DiscoveryError bytes :=
  fail_if (MAX_PRESENCE_WIRE <? len (ep_ciphertext p)) PresenceTooLarge;;
  Ok (PRESENCE_MAGIC ++ to_be 8 (ep_epoch p) ++ ep_opaque_key p ++ ep_nonce p
      ++ to_be 4 (len (ep_ciphertext p)) ++ ep_ciphertext p).
(* weaver-discovery/src/lib.rs:886-904 EncryptedPresenceRecord::from_bytes *)
Definition Presence_from_bytes (bs : bytes) : result DiscoveryError EncryptedPresenceRecord :=
  fail_if (MAX_PRESENCE_WIRE <? len bs) PresenceTooLarge;;
  run_decoder (
    d_magic DiscMalformedWire PRESENCE_MAGIC;;
    epoch ← u64; opaque_key ← array OPAQUE_KEY_LEN; nonce ← array PRESENCE_NONCE_LEN;
    n ← u32; ciphertext ← d_take DiscMalformedWire n;
    d_finish DiscMalformedWire;;
    mret (mkEncryptedPresence epoch opaque_key nonce ciphertext)) bs.

Section presence.
Context `{Ed25519} `{Blake3} `{Aead} `{Platform}.
Implicit Types (config : ValidatedNetworkConfig) (now : Z).

(* weaver-discovery/src/lib.rs:1207-1218 member_for_signer *)
Definition member_for_signer config (public_key : bytes) : result DiscoveryError MemberCertificate :=
  find_parsed MemberCertificate_from_bytes (fun m => bool_decide (mc_signing_public_key (payload m) = public_key))
    (cfg_members (vc_inner config)) ?? NotAuthorized.
(* weaver-discovery/src/lib.rs:1220-1231 member_by_id *)
Definition member_by_id config (member_id : MemberId) : result DiscoveryError MemberCertificate :=
  find_parsed MemberCertificate_from_bytes (fun m => bool_decide (mc_member_id (payload m) = member_id))
    (cfg_members (vc_inner config)) ?? NotAuthorized.
(** The [match] on role and address that [authorize_endpoint_and_addr] and
    [configured_endpoint] share. *)
(* weaver-discovery/src/lib.rs:1256-1262 authorize_endpoint_and_addr *)
Definition binding_matches (p : AppBindingPayload) (address : ScopedVirtualAddr) : bool :=
  match ab_role p, address with
  | RoleServer, Server app => bool_decide (ab_app_addr p = app)
  | RoleClient, Client app device => bool_decide (ab_app_addr p = app) && bool_decide (ab_device_id p = Some device)
  | _, _ => false
  end.
(* weaver-discovery/src/lib.rs:1233-1270 authorize_endpoint_and_addr *)
Definition authorize_endpoint_and_addr config (member_id : MemberId) (endpoint_id : EndpointId)
    (virtual_addr : ScopedVirtualAddr) now : result DiscoveryError unit :=
  let endpoint_allowed := any_parsed EndpointBinding_from_bytes (fun b =>
    bool_decide (eb_member_id (payload b) = member_id)
    && bool_decide (eb_endpoint_id (payload b) = EndpointId_as_bytes endpoint_id)
    && (now <? eb_expires_at_ms (payload b))) (cfg_endpoint_bindings (vc_inner config)) in
  fail_if (negb endpoint_allowed) NotAuthorized;;
  let address_allowed := any_parsed AppBinding_from_bytes (fun b =>
    let p := payload b in
    if negb (bool_decide (ab_subject p = member_id)) || (ab_expires_at_ms p <=? now) then false
    else binding_matches p virtual_addr) (cfg_app_bindings (vc_inner config)) in
  fail_if (negb address_allowed) NotAuthorized.

(* weaver-discovery/src/lib.rs:1272-1279 derive_opaque_key *)
Definition derive_opaque_key (seed : bytes) (endpoint : EndpointId) : bytes :=
  take OPAQUE_KEY_LEN (keyed_hash seed (bstr "weaver.presence-index.v1" ++ [Byte.x00] ++ EndpointId_as_bytes endpoint)).
(* weaver-discovery/src/lib.rs:1281-1287 derive_presence_key *)
Definition derive_presence_key (seed : bytes) (epoch : Z) (opaque : bytes) : bytes :=
  keyed_hash seed (bstr "weaver.presence-encryption.v1" ++ [Byte.x00] ++ to_be 8 epoch ++ opaque).
(* weaver-discovery/src/lib.rs:1289-1296 presence_aad *)
Definition presence_aad (epoch : Z) (opaque nonce : bytes) : bytes :=
  PRESENCE_MAGIC ++ to_be 8 epoch ++ opaque ++ nonce.

(* weaver-discovery/src/lib.rs:774-781 EncryptedPresenceRecord::lookup_key *)
Definition lookup_key config (endpoint_id : EndpointId) : Z * bytes :=
  let snapshot := vc_inner config in
  (cfg_epoch snapshot, derive_opaque_key (presence_index_seed (cfg_epoch_secrets snapshot)) endpoint_id).

(** [collect::<HashSet<_>>().len() != len()] *)
Definition repeats_address (addrs : list ScopedVirtualAddr) : bool :=
  negb (Nat.eqb (size (list_to_set addrs : gset ScopedVirtualAddr)) (length addrs)).
(** Everything [seal] does before it encrypts. *)
(* weaver-discovery/src/lib.rs:804-845 EncryptedPresenceRecord::seal *)
Definition presence_record config (signing : SigningKeypair) (endpoint_id : EndpointId)
    (virtual_addrs : list ScopedVirtualAddr) (candidates : list DiscoveryCandidate)
    (capabilities sequence issued_at_ms expires_at_ms : Z) : result DiscoveryError PresenceRecord :=
  let snapshot := vc_inner config in
  fail_if ((expires_at_ms <=? issued_at_ms) || (MAX_PRESENCE_TTL_MS <? expires_at_ms - issued_at_ms)
           || (cfg_expires_at_ms snapshot <? expires_at_ms) || (MAX_CANDIDATES <? len candidates)
           || bool_decide (virtual_addrs = []) || (MAX_VIRTUAL_ADDRS <? len virtual_addrs)) InvalidPresence;;
  validate_candidates candidates;;
  member ← member_for_signer config (SigningKeypair_public_bytes signing);
  fail_if (repeats_address virtual_addrs) InvalidPresence;;
  for_each (fun virtual_addr =>
    authorize_endpoint_and_addr config (mc_member_id (payload member)) endpoint_id virtual_addr issued_at_ms) virtual_addrs;;
  Ok (mkPresenceRecord (cfg_network_id snapshot) (cfg_epoch snapshot) virtual_addrs (mc_member_id (payload member))
        endpoint_id candidates capabilities sequence issued_at_ms expires_at_ms).
(* weaver-discovery/src/lib.rs:792-869 EncryptedPresenceRecord::seal *)
Definition Presence_seal config (signing : SigningKeypair) (endpoint_id : EndpointId)
    (virtual_addrs : list ScopedVirtualAddr) (candidates : list DiscoveryCandidate)
    (capabilities sequence issued_at_ms expires_at_ms : Z) : rnd DiscoveryError EncryptedPresenceRecord :=
  let snapshot := vc_inner config in
  record ← rlift (presence_record config signing endpoint_id virtual_addrs candidates capabilities sequence
                    issued_at_ms expires_at_ms);
  payload ← rlift (encode_presence_payload record);
  let plaintext := payload ++ sign_presence signing payload in
  let seeds := cfg_epoch_secrets snapshot in
  let opaque_key := derive_opaque_key (presence_index_seed seeds) endpoint_id in
  let key := derive_presence_key (presence_encryption_seed seeds) (cfg_epoch snapshot) opaque_key in
  nonce ← fill DiscRandomnessUnavailable PRESENCE_NONCE_LEN;
  ciphertext ← rlift (aead_encrypt key nonce (presence_aad (cfg_epoch snapshot) opaque_key nonce) plaintext
                        ?? EncryptionFailed);
  mret (mkEncryptedPresence (cfg_epoch snapshot) opaque_key nonce ciphertext).

(** What [open] checks of a decrypted record. *)
(* weaver-discovery/src/lib.rs:936-974 EncryptedPresenceRecord::open *)
Definition check_presence config (opaque_key : bytes) (record : PresenceRecord) (payload_bytes signature : bytes) now
    : result DiscoveryError unit :=
  let snapshot := vc_inner config in
  fail_if (negb (bool_decide (pr_network_id record = cfg_network_id snapshot)) || negb (pr_epoch record =? cfg_epoch snapshot)
           || (now <? pr_issued_at_ms record) || (pr_expires_at_ms record <=? now)
           || (MAX_PRESENCE_TTL_MS <? pr_expires_at_ms record - pr_issued_at_ms record)
           || negb (bool_decide (derive_opaque_key (presence_index_seed (cfg_epoch_secrets snapshot)) (pr_endpoint_id record)
                                 = opaque_key))) InvalidPresence;;
  member ← member_by_id config (pr_member_id record);
  fail_if ((now <? mc_not_before_ms (payload member)) || (mc_expires_at_ms (payload member) <=? now)
           || bool_decide (mc_serial (payload member) ∈ cfg_revoked_serials snapshot)) InvalidPresence;;
  map_err DiscCrypto (MemberCertificate_verify_presence member payload_bytes signature);;
  fail_if (bool_decide (pr_virtual_addrs record = []) || (MAX_VIRTUAL_ADDRS <? len (pr_virtual_addrs record))) InvalidPresence;;
  fail_if (repeats_address (pr_virtual_addrs record)) InvalidPresence;;
  for_each (fun virtual_addr =>
    authorize_endpoint_and_addr config (pr_member_id record) (pr_endpoint_id record) virtual_addr now) (pr_virtual_addrs record);;
  validate_candidates (pr_candidates record).
(* weaver-discovery/src/lib.rs:906-976 EncryptedPresenceRecord::open *)
Definition Presence_open (p : EncryptedPresenceRecord) config now : result DiscoveryError PresenceRecord :=
  let snapshot := vc_inner config in
  fail_if (negb (ep_epoch p =? cfg_epoch snapshot)) WrongEpoch;;
  let key := derive_presence_key (presence_encryption_seed (cfg_epoch_secrets snapshot)) (ep_epoch p) (ep_opaque_key p) in
  plaintext ← aead_decrypt key (ep_nonce p) (presence_aad (ep_epoch p) (ep_opaque_key p) (ep_nonce p)) (ep_ciphertext p)
                ?? DecryptionFailed;
  fail_if (Nat.ltb (length plaintext) PRESENCE_SIGNATURE_LEN) DiscMalformedWire;;
  let payload_len := (length plaintext - PRESENCE_SIGNATURE_LEN)%nat in
  let signature := drop payload_len plaintext in
  let payload_bytes := take payload_len plaintext in
  record ← decode_presence_payload payload_bytes;
  check_presence config (ep_opaque_key p) record payload_bytes signature now;;
  Ok record.

(** ** The configured endpoint of an address *)
Definition member_le (x y : MemberId) : Prop := bytes_le (MemberId_as_bytes x) (MemberId_as_bytes y).
#[global] Instance member_le_dec : RelDecision member_le.
Proof. intros x y; unfold member_le; apply _. Defined.
Definition endpoint_le (x y : EndpointId) : Prop := bytes_le (EndpointId_as_bytes x) (EndpointId_as_bytes y).
#[global] Instance endpoint_le_dec : RelDecision endpoint_le.
Proof. intros x y; unfold endpoint_le; apply _. Defined.
(* weaver-discovery/src/lib.rs:1135-1149 configured_endpoint *)
Definition bound_members config (address : ScopedVirtualAddr) now : result DiscoveryError (list MemberId) :=
  bindings ← map_err DiscCrypto (try_map AppBinding_from_bytes (cfg_app_bindings (vc_inner config)));
  Ok (omap (M := list) (fun b => if binding_matches (payload b) address && (now <? ab_expires_at_ms (payload b))
                     then Some (ab_subject (payload b)) else None) bindings).
(* weaver-discovery/src/lib.rs:1156-1166 configured_endpoint *)
Fixpoint bound_endpoints (member_id : MemberId) now (raws : list bytes) : result DiscoveryError (list EndpointId) :=
  match raws with
  | [] => Ok []
  | raw :: raws =>
      binding ← map_err DiscCrypto (EndpointBinding_from_bytes raw);
      if bool_decide (eb_member_id (payload binding) = member_id) && (now <? eb_expires_at_ms (payload binding)) then
        endpoint ← EndpointId_from_bytes (eb_endpoint_id (payload binding)) ?? MalformedEndpoint;
        endpoints ← bound_endpoints member_id now raws; Ok (endpoint :: endpoints)
      else bound_endpoints member_id now raws
  end.
(* weaver-discovery/src/lib.rs:1129-1173 configured_endpoint *)
Definition configured_endpoint config (address : ScopedVirtualAddr) now : result DiscoveryError EndpointId :=
  member_ids ← bound_members config address now;
  match dedup (merge_sort member_le member_ids) with
  | [member_id] =>
      endpoints ← bound_endpoints member_id now (cfg_endpoint_bindings (vc_inner config));
      match dedup (merge_sort endpoint_le endpoints) with
      | [endpoint] => Ok endpoint
      | _ => Err NotAuthorized
      end
  | _ => Err NotAuthorized
  end.
End presence.
