(* ===== verification/Validate.v ===== *)
(** * weaver-config: validation of a snapshot

    Models [NetworkConfigV1::validate] of [crates/weaver-config/src/snapshot.rs]
    and the queries of a [ValidatedNetworkConfig].  [config_valid] states what a
    valid snapshot is, without the order of the checks and without the maps the
    loops build; [validate_Ok] shows the code decides exactly this. *)

From S2P Require Import Prelude Wire Core CertificateWire Certificates ToyCrypto Snapshot.

Section validate.
Context `{Ed25519} `{Blake3}.
Implicit Types (root : NetworkRootPublic) (net : NetworkId) (now : Z) (revoked : gset Z).

#[local] Abbreviation credential := (map_err Credential).

(** ** The loop bodies *)
(* weaver-config/src/snapshot.rs:333-337 NetworkConfigV1::validate *)
Definition validate_admin root net now revoked (k : AdminKey)
    : result SnapshotError (bytes * VerifiedAdmin) :=
  certificate ← credential (AdminCertificate_from_bytes (ak_certificate k));
  admin ← credential (AdminCertificate_verify certificate root net now revoked);
  Ok (adm_key_id (va_payload admin), admin).
(* weaver-config/src/snapshot.rs:342-353 NetworkConfigV1::validate *)
Definition validate_member root net now revoked (admins : gmap bytes VerifiedAdmin) (raw : bytes)
    : result SnapshotError (MemberId * VerifiedMember) :=
  certificate ← credential (MemberCertificate_from_bytes raw);
  member ← (if bool_decide (mc_issuer_key_id (payload certificate) = root_key_id root) then
              credential (MemberCertificate_verify certificate root net now revoked)
            else
              admin ← admins !! mc_issuer_key_id (payload certificate) ?? UnknownAdmin;
              credential (MemberCertificate_verify_with_admin certificate admin net now revoked));
  Ok (mc_member_id (vm_payload member), member).
(* weaver-config/src/snapshot.rs:362-369 NetworkConfigV1::validate *)
Definition validate_endpoint net now (members : gmap MemberId VerifiedMember) (raw : bytes)
    : result SnapshotError (bytes * unit) :=
  binding ← credential (EndpointBinding_from_bytes raw);
  member ← members !! eb_member_id (payload binding) ?? UnknownMember;
  credential (EndpointBinding_verify binding member net (eb_endpoint_id (payload binding)) now);;
  Ok (eb_endpoint_id (payload binding), tt).
(* weaver-config/src/snapshot.rs:376-386 NetworkConfigV1::validate *)
Definition validate_app root net (admins : gmap bytes VerifiedAdmin) (raw : bytes)
    : result SnapshotError (AppAddr * VerifiedApp) :=
  registration ← credential (AppRegistration_from_bytes raw);
  app ← (if bool_decide (ar_issuer_key_id (payload registration) = root_key_id root) then
           credential (AppRegistration_verify registration root net)
         else
           admin ← admins !! ar_issuer_key_id (payload registration) ?? UnknownAdmin;
           credential (AppRegistration_verify_with_admin registration admin net));
  Ok (ar_app_addr (vapp_payload app), app).
(* weaver-config/src/snapshot.rs:392-404 NetworkConfigV1::validate *)
Definition validate_app_binding net now (max_services : Z) (members : gmap MemberId VerifiedMember)
    (apps : gmap AppAddr VerifiedApp) (raw : bytes)
    : result SnapshotError (AppAddr * MemberId * AppRole * unit) :=
  binding ← credential (AppBinding_from_bytes raw);
  let p := payload binding in
  app ← apps !! ab_app_addr p ?? UnknownApplication;
  member ← members !! ab_subject p ?? UnknownMember;
  fail_if (max_services <? len (ab_services p)) PolicyLimitExceeded;;
  credential (AppBinding_verify binding app member net now);;
  Ok (ab_app_addr p, ab_subject p, ab_role p, tt).
(* weaver-config/src/snapshot.rs:410-417 NetworkConfigV1::validate *)
Definition validate_dns (c : NetworkConfigV1) (apps : gmap AppAddr VerifiedApp) (record : VirtualDnsRecord)
    : result SnapshotError (VirtualName * unit) :=
  fail_if (bool_decide (apps !! dns_app_addr record = None)) UnknownApplication;;
  fail_if ((dns_expires_at_ms record <=? cfg_issued_at_ms c)
           || (cfg_expires_at_ms c <? dns_expires_at_ms record)) SnapInvalidValidityWindow;;
  Ok (dns_name record, tt).
(* weaver-config/src/snapshot.rs:540-544 validate_descriptors *)
Definition validate_relay now (relay : RelayDescriptor) : result SnapshotError (bytes * unit) :=
  validate_url (rd_url relay);;
  fail_if (rd_expires_at_ms relay <=? now) SnapExpired;;
  Ok (rd_endpoint_id relay, tt).
(* weaver-config/src/snapshot.rs:550-554 validate_descriptors *)
Definition validate_service now (service : PresenceServiceDescriptor) : result SnapshotError (bytes * unit) :=
  validate_url (ps_url service);;
  fail_if (ps_expires_at_ms service <=? now) SnapExpired;;
  Ok (ps_endpoint_id service, tt).
(* weaver-config/src/snapshot.rs:533-559 validate_descriptors *)
Definition validate_descriptors (relays : list RelayDescriptor) (presence : list PresenceServiceDescriptor) now
    : result SnapshotError unit :=
  collect_unique (validate_relay now) (DuplicateEntry (bstr "relay endpoint")) ∅ relays;;
  collect_unique (validate_service now) (DuplicateEntry (bstr "presence endpoint")) ∅ presence;;
  Ok tt.

Definition revoked_set (c : NetworkConfigV1) : gset Z := list_to_set (cfg_revoked_serials c).

(** The loops over the collections that refer to each other. *)
(* weaver-config/src/snapshot.rs:331-419 NetworkConfigV1::validate *)
Definition validate_credentials (c : NetworkConfigV1) root net now : result SnapshotError unit :=
  let revoked := revoked_set c in
  admins ← collect_unique (validate_admin root net now revoked) (DuplicateEntry (bstr "admin key")) ∅
             (cfg_admin_keys c);
  members ← collect_unique (validate_member root net now revoked admins) (DuplicateEntry (bstr "member")) ∅
              (cfg_members c);
  fail_if (pol_max_members (cfg_policies c) <? Z.of_nat (size members)) PolicyLimitExceeded;;
  collect_unique (validate_endpoint net now members) (DuplicateEntry (bstr "endpoint")) ∅
    (cfg_endpoint_bindings c);;
  apps ← collect_unique (validate_app root net admins) (DuplicateEntry (bstr "application")) ∅ (cfg_apps c);
  collect_unique (validate_app_binding net now (pol_max_services_per_binding (cfg_policies c)) members apps)
    (DuplicateEntry (bstr "application binding")) ∅ (cfg_app_bindings c);;
  collect_unique (validate_dns c apps) (DuplicateEntry (bstr "virtual DNS name")) ∅ (cfg_virtual_dns c);;
  Ok tt.

(* weaver-config/src/snapshot.rs:311-421 NetworkConfigV1::validate *)
Definition validate (c : NetworkConfigV1) root net now : result SnapshotError ValidatedNetworkConfig :=
  validate_shape c;;
  fail_if (negb (bool_decide (cfg_network_id c = net)) || negb (bool_decide (root_network_id root = net)))
    SnapWrongNetwork;;
  fail_if (now <? cfg_issued_at_ms c) SnapNotYetValid;;
  fail_if (cfg_expires_at_ms c <=? now) SnapExpired;;
  fail_if (negb (Nat.eqb (size (revoked_set c)) (length (cfg_revoked_serials c))))
    (DuplicateEntry (bstr "revoked serial"));;
  validate_credentials c root net now;;
  validate_descriptors (cfg_relays c) (cfg_presence_services c) now;;
  Ok (mkValidated c).

(** ** Queries of a validated snapshot *)
(* weaver-config/src/snapshot.rs:474-480 ValidatedNetworkConfig::resolve_virtual_name *)
Definition resolve_virtual_name (v : ValidatedNetworkConfig) (name : VirtualName) now : option AppAddr :=
  dns_app_addr <$> List.find (fun r => bool_decide (dns_name r = name) && (now <? dns_expires_at_ms r))
                     (cfg_virtual_dns (vc_inner v)).
(* weaver-config/src/snapshot.rs:482-498 ValidatedNetworkConfig::verified_admin *)
Fixpoint find_admin root net now revoked (key_id : bytes) (keys : list AdminKey)
    : result SnapshotError VerifiedAdmin :=
  match keys with
  | [] => Err UnknownAdmin
  | k :: keys =>
      certificate ← credential (AdminCertificate_from_bytes (ak_certificate k));
      if bool_decide (adm_key_id (payload certificate) = key_id) then
        credential (AdminCertificate_verify certificate root net now revoked)
      else find_admin root net now revoked key_id keys
  end.
Definition verified_admin (v : ValidatedNetworkConfig) root (key_id : bytes) now
    : result SnapshotError VerifiedAdmin :=
  let c := vc_inner v in
  find_admin root (cfg_network_id c) now (revoked_set c) key_id (cfg_admin_keys c).

(** ** What a valid snapshot is *)

(** The credentials of a snapshot, parsed. *)
Record Credentials : Type := mkCredentials {
  cr_admins : list AdminCertificate;
  cr_members : list MemberCertificate;
  cr_endpoints : list EndpointBinding;
  cr_apps : list AppRegistration;
  cr_bindings : list AppBinding;
}.
Record snapshot_parses (c : NetworkConfigV1) (cr : Credentials) : Prop := {
  sp_admins : Forall2 (fun k x => AdminCertificate_from_bytes (ak_certificate k) = Ok x)
                (cfg_admin_keys c) (cr_admins cr);
  sp_members : Forall2 (fun raw x => MemberCertificate_from_bytes raw = Ok x) (cfg_members c) (cr_members cr);
  sp_endpoints : Forall2 (fun raw x => EndpointBinding_from_bytes raw = Ok x)
                   (cfg_endpoint_bindings c) (cr_endpoints cr);
  sp_apps : Forall2 (fun raw x => AppRegistration_from_bytes raw = Ok x) (cfg_apps c) (cr_apps cr);
  sp_bindings : Forall2 (fun raw x => AppBinding_from_bytes raw = Ok x) (cfg_app_bindings c) (cr_bindings cr);
}.

Definition as_admin (x : AdminCertificate) : VerifiedAdmin :=
  mkVerifiedAdmin (payload x) (adm_public_key (payload x)).
Definition as_member (x : MemberCertificate) : VerifiedMember := mkVerifiedMember (payload x).
Definition as_app (x : AppRegistration) : VerifiedApp := mkVerifiedApp (payload x).

(** A member: signed by the root, or by an administrator the root signed. *)
Definition member_vouched root net now revoked (admins : list AdminCertificate) (m : MemberCertificate) : Prop :=
  root_member_trusted m root net now revoked \/
  mc_issuer_key_id (payload m) <> root_key_id root /\
  exists a, a ∈ admins /\ member_trusted m (as_admin a) net now revoked.
Definition app_vouched root net (admins : list AdminCertificate) (x : AppRegistration) : Prop :=
  root_app_trusted x root net \/
  ar_issuer_key_id (payload x) <> root_key_id root /\
  exists a, a ∈ admins /\ app_trusted x (as_admin a) net.
Definition endpoint_vouched net now (members : list MemberCertificate) (b : EndpointBinding) : Prop :=
  exists m, m ∈ members /\ endpoint_trusted b (as_member m) net (eb_endpoint_id (payload b)) now.
Definition binding_vouched net now (max_services : Z) (members : list MemberCertificate)
    (apps : list AppRegistration) (b : AppBinding) : Prop :=
  len (ab_services (payload b)) <= max_services /\
  exists x m, x ∈ apps /\ m ∈ members /\ binding_trusted b (as_app x) (as_member m) net now.
Definition dns_vouched (c : NetworkConfigV1) (apps : list AppRegistration) (r : VirtualDnsRecord) : Prop :=
  cfg_issued_at_ms c < dns_expires_at_ms r <= cfg_expires_at_ms c /\
  exists x, x ∈ apps /\ ar_app_addr (payload x) = dns_app_addr r.

Record credentials_valid (c : NetworkConfigV1) root net now (cr : Credentials) : Prop := {
  cv_admins : Forall (fun a => admin_trusted a root net now (revoked_set c)) (cr_admins cr);
  cv_members : Forall (member_vouched root net now (revoked_set c) (cr_admins cr)) (cr_members cr);
  cv_endpoints : Forall (endpoint_vouched net now (cr_members cr)) (cr_endpoints cr);
  cv_apps : Forall (app_vouched root net (cr_admins cr)) (cr_apps cr);
  cv_bindings : Forall (binding_vouched net now (pol_max_services_per_binding (cfg_policies c))
                          (cr_members cr) (cr_apps cr)) (cr_bindings cr);
  cv_dns : Forall (dns_vouched c (cr_apps cr)) (cfg_virtual_dns c);
  cv_count : len (cfg_members c) <= pol_max_members (cfg_policies c);
  cv_unique_admins : NoDup ((fun a => adm_key_id (payload a)) <$> cr_admins cr);
  cv_unique_members : NoDup ((fun m => mc_member_id (payload m)) <$> cr_members cr);
  cv_unique_endpoints : NoDup ((fun b => eb_endpoint_id (payload b)) <$> cr_endpoints cr);
  cv_unique_apps : NoDup ((fun x => ar_app_addr (payload x)) <$> cr_apps cr);
  cv_unique_bindings : NoDup ((fun b => (ab_app_addr (payload b), ab_subject (payload b), ab_role (payload b)))
                                <$> cr_bindings cr);
  cv_unique_names : NoDup (dns_name <$> cfg_virtual_dns c);
}.

Record config_valid (c : NetworkConfigV1) root net now : Prop := {
  va_shape : shape_ok c;
  va_network : cfg_network_id c = net /\ root_network_id root = net;
  va_time : cfg_issued_at_ms c <= now < cfg_expires_at_ms c;
  va_revoked : NoDup (cfg_revoked_serials c);
  va_credentials : exists cr, snapshot_parses c cr /\ credentials_valid c root net now cr;
  va_relays : Forall (fun r => validate_url (rd_url r) = Ok tt /\ now < rd_expires_at_ms r) (cfg_relays c) /\
              NoDup (rd_endpoint_id <$> cfg_relays c);
  va_services : Forall (fun s => validate_url (ps_url s) = Ok tt /\ now < ps_expires_at_ms s)
                  (cfg_presence_services c) /\ NoDup (ps_endpoint_id <$> cfg_presence_services c);
}.

(** ** Each loop body decides its part *)
Lemma validate_admin_Ok root net now revoked k kv :
  validate_admin root net now revoked k = Ok kv <->
  exists a, AdminCertificate_from_bytes (ak_certificate k) = Ok a /\
    admin_trusted a root net now revoked /\ kv = (adm_key_id (payload a), as_admin a).
Proof.
  unfold validate_admin; rewrite bind_Ok; split.
  - intros (a & Ha%map_err_Ok & Hv); apply bind_Ok in Hv as (v & [-> Ht]%map_err_Ok%AdminCertificate_verify_Ok & <-%Ok_inj).
    exists a; split_and!; done.
  - intros (a & Ha & Ht & ->); exists a; split; [by apply map_err_Ok|]; apply bind_Ok; exists (as_admin a); split; [|done].
    by apply map_err_Ok, AdminCertificate_verify_Ok.
Qed.

Lemma validate_member_Ok root net now revoked admins raw kv :
  NoDup ((fun a => adm_key_id (payload a)) <$> admins) ->
  validate_member root net now revoked (filed (fun a => adm_key_id (payload a)) as_admin admins) raw = Ok kv <->
  exists m, MemberCertificate_from_bytes raw = Ok m /\ member_vouched root net now revoked admins m /\
    kv = (mc_member_id (payload m), as_member m).
Proof.
  intros Hnd; unfold validate_member, member_vouched; rewrite bind_Ok; split.
  - intros (m & Hm%map_err_Ok & H'); apply bind_Ok in H' as (v & Hv & <-%Ok_inj).
    exists m; split; [done|]; case_bool_decide as Hi.
    + apply map_err_Ok, MemberCertificate_verify_Ok in Hv as [-> ?]; split; [by left | done].
    + apply bind_Ok in Hv as (a & Ha%ok_or_Ok & [-> Ht]%map_err_Ok%MemberCertificate_verify_with_admin_Ok).
      apply filed_Some in Ha as (x & ? & ? & <-); [|done]; split; [right | done]; eauto.
  - intros (m & Hm & Hv & ->); exists m; split; [by apply map_err_Ok|]; apply bind_Ok; exists (as_member m).
    split; [|done]; destruct Hv as [Ht | (Hi & a & Ha & Ht)].
    + rewrite bool_decide_true by apply Ht; by apply map_err_Ok, MemberCertificate_verify_Ok.
    + rewrite bool_decide_false by done; apply bind_Ok; exists (as_admin a); split.
      * apply ok_or_Ok, filed_Some; [done|]; exists a; split_and!; [done | by rewrite (mt_issuer _ _ _ _ _ Ht) | done].
      * by apply map_err_Ok, MemberCertificate_verify_with_admin_Ok.
Qed.

Lemma validate_endpoint_Ok net now members raw kv :
  NoDup ((fun m => mc_member_id (payload m)) <$> members) ->
  validate_endpoint net now (filed (fun m => mc_member_id (payload m)) as_member members) raw = Ok kv <->
  exists b, EndpointBinding_from_bytes raw = Ok b /\ endpoint_vouched net now members b /\
    kv = (eb_endpoint_id (payload b), tt).
Proof.
  intros Hnd; unfold validate_endpoint, endpoint_vouched; rewrite bind_Ok; split.
  - intros (b & Hb%map_err_Ok & Hv); apply bind_Ok in Hv as (v & Hm%ok_or_Ok & Hv).
    apply bind_Ok in Hv as ([] & Ht%map_err_Ok%EndpointBinding_verify_Ok & <-%Ok_inj).
    apply filed_Some in Hm as (m & ? & ? & <-); [|done]; exists b; eauto.
  - intros (b & Hb & (m & Hm & Ht) & ->); exists b; split; [by apply map_err_Ok|].
    apply bind_Ok; exists (as_member m); split.
    + apply ok_or_Ok, filed_Some; [done|]; exists m; split_and!; [done | by rewrite (et_member _ _ _ _ _ Ht) | done].
    + apply bind_Ok; exists tt; split; [by apply map_err_Ok, EndpointBinding_verify_Ok | done].
Qed.

Lemma validate_app_Ok root net admins raw kv :
  NoDup ((fun a => adm_key_id (payload a)) <$> admins) ->
  validate_app root net (filed (fun a => adm_key_id (payload a)) as_admin admins) raw = Ok kv <->
  exists x, AppRegistration_from_bytes raw = Ok x /\ app_vouched root net admins x /\
    kv = (ar_app_addr (payload x), as_app x).
Proof.
  intros Hnd; unfold validate_app, app_vouched; rewrite bind_Ok; split.
  - intros (m & Hm%map_err_Ok & H'); apply bind_Ok in H' as (v & Hv & <-%Ok_inj).
    exists m; split; [done|]; case_bool_decide as Hi.
    + apply map_err_Ok, AppRegistration_verify_Ok in Hv as [-> ?]; split; [by left | done].
    + apply bind_Ok in Hv as (a & Ha%ok_or_Ok & [-> Ht]%map_err_Ok%AppRegistration_verify_with_admin_Ok).
      apply filed_Some in Ha as (x & ? & ? & <-); [|done]; split; [right | done]; eauto.
  - intros (m & Hm & Hv & ->); exists m; split; [by apply map_err_Ok|]; apply bind_Ok; exists (as_app m).
    split; [|done]; destruct Hv as [Ht | (Hi & a & Ha & Ht)].
    + rewrite bool_decide_true by apply Ht; by apply map_err_Ok, AppRegistration_verify_Ok.
    + rewrite bool_decide_false by done; apply bind_Ok; exists (as_admin a); split.
      * apply ok_or_Ok, filed_Some; [done|]; exists a; split_and!; [done | by rewrite (apt_issuer _ _ _ Ht) | done].
      * by apply map_err_Ok, AppRegistration_verify_with_admin_Ok.
Qed.

Lemma validate_app_binding_Ok net now max members apps raw kv :
  NoDup ((fun m => mc_member_id (payload m)) <$> members) ->
  NoDup ((fun x => ar_app_addr (payload x)) <$> apps) ->
  validate_app_binding net now max (filed (fun m => mc_member_id (payload m)) as_member members)
    (filed (fun x => ar_app_addr (payload x)) as_app apps) raw = Ok kv <->
  exists b, AppBinding_from_bytes raw = Ok b /\ binding_vouched net now max members apps b /\
    kv = (ab_app_addr (payload b), ab_subject (payload b), ab_role (payload b), tt).
Proof.
  intros Hm Ha; unfold validate_app_binding, binding_vouched; rewrite bind_Ok; split.
  - intros (b & Hb%map_err_Ok & Hv); apply bind_Ok in Hv as (x & Hx%ok_or_Ok & Hv).
    apply bind_Ok in Hv as (m & Hmm%ok_or_Ok & Hv); apply bind_Ok in Hv as (? & Hl%fail_if_Ok & Hv); bool_inv.
    apply bind_Ok in Hv as ([] & Ht%map_err_Ok%AppBinding_verify_Ok & <-%Ok_inj).
    apply filed_Some in Hx as (x' & ? & ? & <-); [|done]; apply filed_Some in Hmm as (m' & ? & ? & <-); [|done].
    exists b; split_and!; [done | lia | eauto 6 | done].
  - intros (b & Hb & (Hl & x & m & Hx & Hmm & Ht) & ->); exists b; split; [by apply map_err_Ok|].
    apply bind_Ok; exists (as_app x); split.
    { apply ok_or_Ok, filed_Some; [done|]; exists x; split_and!; [done | by rewrite (bt_app _ _ _ _ _ Ht) | done]. }
    apply bind_Ok; exists (as_member m); split.
    { apply ok_or_Ok, filed_Some; [done|]; exists m; split_and!; [done | by rewrite (bt_subject _ _ _ _ _ Ht) | done]. }
    apply bind_Ok; exists tt; split; [apply fail_if_Ok; passes|].
    apply bind_Ok; exists tt; split; [by apply map_err_Ok, AppBinding_verify_Ok | done].
Qed.

Lemma validate_dns_Ok c apps r kv :
  NoDup ((fun x => ar_app_addr (payload x)) <$> apps) ->
  validate_dns c (filed (fun x => ar_app_addr (payload x)) as_app apps) r = Ok kv <->
  dns_vouched c apps r /\ kv = (dns_name r, tt).
Proof.
  intros Hnd; unfold validate_dns, dns_vouched; split.
  - intros Hv; res_inv; bool_inv; split; [|done]; split; [lia|].
    match goal with Hn : filed _ _ _ !! _ <> None |- _ =>
      apply not_eq_None_Some in Hn as [v (x & ? & ? & _)%filed_Some]; [eauto | done] end.
  - intros [(Ht & x & Hx & Hxa) ->].
    assert (filed (fun x => ar_app_addr (payload x)) as_app apps !! dns_app_addr r = Some (as_app x)) as Hf
      by (apply filed_Some; eauto).
    rewrite Hf; apply bind_Ok; exists tt; split; [done|]; apply bind_Ok; exists tt; split; [|done].
    apply fail_if_Ok; passes.
Qed.

Lemma validate_relay_Ok now r kv :
  validate_relay now r = Ok kv <->
  (validate_url (rd_url r) = Ok tt /\ now < rd_expires_at_ms r) /\ kv = (rd_endpoint_id r, tt).
Proof.
  unfold validate_relay; split; [intros Hv; res_inv; bool_inv; by units|].
  intros [[Hu Ht] ->]; apply bind_Ok; exists tt; split; [done|]; apply bind_Ok; exists tt; split; [|done].
  apply fail_if_Ok; passes.
Qed.
Lemma validate_service_Ok now s kv :
  validate_service now s = Ok kv <->
  (validate_url (ps_url s) = Ok tt /\ now < ps_expires_at_ms s) /\ kv = (ps_endpoint_id s, tt).
Proof.
  unfold validate_service; split; [intros Hv; res_inv; bool_inv; by units|].
  intros [[Hu Ht] ->]; apply bind_Ok; exists tt; split; [done|]; apply bind_Ok; exists tt; split; [|done].
  apply fail_if_Ok; passes.
Qed.

Lemma size_filed {C K V} `{Countable K} (key : C -> K) (val : C -> V) cs :
  NoDup (key <$> cs) -> size (filed key val cs) = length cs.
Proof.
  intros Hnd; unfold filed; rewrite map_size_list_to_map by (by rewrite <- list_fmap_compose).
  by rewrite length_fmap.
Qed.

Lemma validate_descriptors_Ok relays presence now :
  validate_descriptors relays presence now = Ok tt <->
  (Forall (fun r => validate_url (rd_url r) = Ok tt /\ now < rd_expires_at_ms r) relays /\
   NoDup (rd_endpoint_id <$> relays)) /\
  (Forall (fun s => validate_url (ps_url s) = Ok tt /\ now < ps_expires_at_ms s) presence /\
   NoDup (ps_endpoint_id <$> presence)).
Proof.
  unfold validate_descriptors; rewrite bind_Ok; setoid_rewrite bind_Ok; split.
  - intros (m & Hm & m' & Hm' & _).
    apply (collect_checked_Ok _ _ _ _ _ _ _ (validate_relay_Ok now)) in Hm as (? & ? & _).
    apply (collect_checked_Ok _ _ _ _ _ _ _ (validate_service_Ok now)) in Hm' as (? & ? & _); done.
  - intros ([? ?] & [? ?]); eexists; split.
    + by apply (collect_checked_Ok _ _ _ _ _ _ _ (validate_relay_Ok now)).
    + eexists; split; [|done].
      by apply (collect_checked_Ok _ _ _ _ _ _ _ (validate_service_Ok now)).
Qed.

(** The guards that come before the credentials. *)
Definition validate_frame (c : NetworkConfigV1) root net now : Prop :=
  shape_ok c /\ (cfg_network_id c = net /\ root_network_id root = net) /\
  cfg_issued_at_ms c <= now < cfg_expires_at_ms c /\ NoDup (cfg_revoked_serials c).

Lemma validate_split c root net now v :
  validate c root net now = Ok v <->
  v = mkValidated c /\ validate_frame c root net now /\ validate_credentials c root net now = Ok tt /\
  validate_descriptors (cfg_relays c) (cfg_presence_services c) now = Ok tt.
Proof.
  unfold validate, validate_frame; split.
  - intros Hv; apply bind_Ok in Hv as ([] & Hs%validate_shape_Ok & Hv); res_inv; bool_inv.
    units.
    split_and!; try done; by apply NoDup_size_list_to_set, Nat.eqb_eq.
  - intros (-> & (Hs%validate_shape_Ok & [Hn Hr] & Ht & Hnd%NoDup_size_list_to_set) & Hc & Hd).
    apply Nat.eqb_eq in Hnd; by steps_ok.
Qed.

Lemma validate_credentials_Ok c root net now :
  validate_credentials c root net now = Ok tt <->
  exists cr, snapshot_parses c cr /\ credentials_valid c root net now cr.
Proof.
  unfold validate_credentials; cbv zeta; split.
  - intros Hv; res_inv.
    match goal with
    | Ha : collect_unique (validate_admin _ _ _ _) _ _ _ = Ok _, Hm : collect_unique (validate_member _ _ _ _ _) _ _ _ = Ok _,
      He : collect_unique (validate_endpoint _ _ _) _ _ _ = Ok _, Hx : collect_unique (validate_app _ _ _) _ _ _ = Ok _,
      Hb : collect_unique (validate_app_binding _ _ _ _ _) _ _ _ = Ok _, Hd : collect_unique (validate_dns _ _) _ _ _ = Ok _ |- _ =>
      apply (collect_parsed_Ok _ _ _ _ _ _ (validate_admin_Ok root net now _)) in Ha as (acs & ? & ? & Hua & ->);
      apply (collect_parsed_Ok _ _ _ _ _ _ (fun raw kv => validate_member_Ok _ _ _ _ _ raw kv Hua)) in Hm as (mcs & Hpm & ? & Hum & ->);
      apply (collect_parsed_Ok _ _ _ _ _ _ (fun raw kv => validate_endpoint_Ok _ _ _ raw kv Hum)) in He as (ebs & ? & ? & ? & ->);
      apply (collect_parsed_Ok _ _ _ _ _ _ (fun raw kv => validate_app_Ok _ _ _ raw kv Hua)) in Hx as (ars & ? & ? & Hux & ->);
      apply (collect_parsed_Ok _ _ _ _ _ _ (fun raw kv => validate_app_binding_Ok _ _ _ _ _ raw kv Hum Hux)) in Hb as (abs & ? & ? & ? & ->);
      apply (collect_checked_Ok _ _ _ _ _ _ _ (fun r kv => validate_dns_Ok c _ r kv Hux)) in Hd as (? & ? & ->)
    end.
    bool_inv; rewrite size_filed in * by done.
    exists (mkCredentials acs mcs ebs ars abs); split; constructor; try done.
    cbn; unfold len; rewrite (Forall2_length _ _ _ Hpm); lia.
  - intros ([acs mcs ebs ars abs] & [] & []); cbn in *.
    apply bind_Ok; eexists; split; [apply (collect_parsed_Ok _ _ _ _ _ _ (validate_admin_Ok root net now _)); eauto|].
    apply bind_Ok; eexists; split;
      [apply (collect_parsed_Ok _ _ _ _ _ _ (fun raw kv => validate_member_Ok _ _ _ _ _ raw kv cv_unique_admins0)); eauto|].
    rewrite size_filed by done; apply bind_Ok; exists tt; split.
    { apply fail_if_Ok; passes; unfold len in *; by rewrite <- (Forall2_length _ _ _ sp_members0). }
    apply bind_Ok; eexists; split;
      [apply (collect_parsed_Ok _ _ _ _ _ _ (fun raw kv => validate_endpoint_Ok _ _ _ raw kv cv_unique_members0)); eauto|].
    apply bind_Ok; eexists; split;
      [apply (collect_parsed_Ok _ _ _ _ _ _ (fun raw kv => validate_app_Ok _ _ _ raw kv cv_unique_admins0)); eauto|].
    apply bind_Ok; eexists; split;
      [apply (collect_parsed_Ok _ _ _ _ _ _ (fun raw kv => validate_app_binding_Ok _ _ _ _ _ raw kv cv_unique_members0 cv_unique_apps0)); eauto|].
    apply bind_Ok; eexists; split;
      [apply (collect_checked_Ok _ _ _ _ _ _ _ (fun r kv => validate_dns_Ok c _ r kv cv_unique_apps0)); eauto | done].
Qed.

Lemma validate_Ok c root net now v :
  validate c root net now = Ok v <-> v = mkValidated c /\ config_valid c root net now.
Proof.
  rewrite validate_split, validate_credentials_Ok, validate_descriptors_Ok; unfold validate_frame.
  split; [intros (-> & (? & ? & ? & ?) & ? & ? & ?) | intros (-> & [])]; done.
Qed.

(** ** Queries *)
Lemma find_dns_Some records name now a :
  NoDup (dns_name <$> records) ->
  dns_app_addr <$> List.find (fun r => bool_decide (dns_name r = name) && (now <? dns_expires_at_ms r)) records = Some a
  <-> exists r, r ∈ records /\ dns_name r = name /\ now < dns_expires_at_ms r /\ dns_app_addr r = a.
Proof.
  intros Hnd; split.
  - intros Hf; apply fmap_Some in Hf as (r & Hr & ->).
    apply List.find_some in Hr as [Hin Hb]; bool_inv; exists r; split_and!; try done; try lia.
    by apply list_elem_of_In.
  - induction records as [|x records IH]; intros (r & Hr & Hn & Ht & Ha); [by apply elem_of_nil in Hr|].
    cbn in *; apply NoDup_cons in Hnd as [Hx Hnd].
    apply elem_of_cons in Hr as [->|Hr].
    + rewrite bool_decide_true by done; rewrite (proj2 (Z.ltb_lt _ _) Ht); cbn; by rewrite Ha.
    + rewrite bool_decide_false; [cbn; apply IH; eauto|].
      intros <-; apply Hx; rewrite <- Hn; by apply list_elem_of_fmap_2.
Qed.

Lemma snapshot_parses_inj c cr cr' : snapshot_parses c cr -> snapshot_parses c cr' -> cr = cr'.
Proof.
  destruct cr, cr'; intros [] []; cbn in *; f_equal; (eapply Forall2_functional; [|eassumption..]); cbn; intros; congruence.
Qed.

(** A valid snapshot stays valid until the first of its parts expires. *)
Record unexpired (c : NetworkConfigV1) (cr : Credentials) now : Prop := {
  ux_config : now < cfg_expires_at_ms c;
  ux_admins : Forall (fun a => now < adm_expires_at_ms (payload a)) (cr_admins cr);
  ux_members : Forall (fun m => now < mc_expires_at_ms (payload m)) (cr_members cr);
  ux_endpoints : Forall (fun b => now < eb_expires_at_ms (payload b)) (cr_endpoints cr);
  ux_bindings : Forall (fun b => now < ab_expires_at_ms (payload b)) (cr_bindings cr);
  ux_relays : Forall (fun r => now < rd_expires_at_ms r) (cfg_relays c);
  ux_services : Forall (fun s => now < ps_expires_at_ms s) (cfg_presence_services c);
}.
Lemma Forall_both {A} (P Q R : A -> Prop) xs :
  (forall x, P x -> Q x -> R x) -> Forall P xs -> Forall Q xs -> Forall R xs.
Proof. intros HR HP HQ; rewrite Forall_forall in *; naive_solver. Qed.

Lemma config_valid_later c root net now now' cr :
  config_valid c root net now -> snapshot_parses c cr -> now <= now' -> unexpired c cr now' -> config_valid c root net now'.
Proof.
  intros [? ? ? ? (cr0 & Hp0 & []) [Hr ?] [Hs ?]] Hp Hle []; rewrite <- (snapshot_parses_inj _ _ _ Hp Hp0) in *.
  constructor; try done; [lia | | split; [|done]; eapply Forall_both; [|exact Hr | done]; cbn; naive_solver
    | split; [|done]; eapply Forall_both; [|exact Hs | done]; cbn; naive_solver].
  exists cr; split; [done|]; constructor; try done.
  - eapply Forall_both; [|exact cv_admins0 | done]; cbn; intros a [] ?; constructor; try done; lia.
  - eapply Forall_both; [|exact cv_members0 | done]; cbn.
    intros m [[] | (? & a & ? & [])] ?; [left | right; split; [done|]; exists a; split; [done|]]; constructor; try done; lia.
  - eapply Forall_both; [|exact cv_endpoints0 | done]; cbn; intros b (m & ? & []) ?; exists m; split; [done|]; by constructor.
  - eapply Forall_both; [|exact cv_bindings0 | done]; cbn; intros b (? & x & m & ? & ? & []) ?; split; [done|].
    exists x, m; split_and!; try done; by constructor.
Qed.

Lemma find_admin_Ok root net now revoked key_id keys va :
  find_admin root net now revoked key_id keys = Ok va ->
  exists a, va = as_admin a /\ adm_key_id (payload a) = key_id /\ admin_trusted a root net now revoked.
Proof.
  induction keys as [|k keys IH]; cbn; [done|]; intros Hf; apply bind_Ok in Hf as (a & _ & Hf).
  case_bool_decide; [|by apply IH]; apply map_err_Ok, AdminCertificate_verify_Ok in Hf as [-> ?]; eauto.
Qed.

(** The same certificate is found whenever it is found. *)
Lemma find_admin_agree root net now now' revoked key_id keys va va' :
  find_admin root net now revoked key_id keys = Ok va -> find_admin root net now' revoked key_id keys = Ok va' ->
  va = va'.
Proof.
  induction keys as [|k keys IH]; cbn; [done|].
  destruct (AdminCertificate_from_bytes _) as [a|]; cbn; [|done].
  case_bool_decide; [|done]; rewrite !map_err_Ok, !AdminCertificate_verify_Ok; intros [-> _] [-> _]; done.
Qed.

Lemma find_admin_spec root net now revoked key_id keys acs :
  Forall2 (fun k a => AdminCertificate_from_bytes (ak_certificate k) = Ok a) keys acs ->
  NoDup ((fun a => adm_key_id (payload a)) <$> acs) ->
  (forall va, find_admin root net now revoked key_id keys = Ok va <->
     exists a, a ∈ acs /\ adm_key_id (payload a) = key_id /\ admin_trusted a root net now revoked /\ va = as_admin a) /\
  (find_admin root net now revoked key_id keys = Err UnknownAdmin <->
     forall a, a ∈ acs -> adm_key_id (payload a) <> key_id).
Proof.
  induction 1 as [|k a keys acs Hk Hks IH]; cbn; intros Hnd.
  - split; [intros va; split; [done | intros (a & Ha & _); by apply elem_of_nil in Ha]|].
    split; [intros _ a Ha; by apply elem_of_nil in Ha | done].
  - apply NoDup_cons in Hnd as [Ha Hnd]; destruct (IH Hnd) as [IHo IHe]; clear IH.
    rewrite Hk; cbn; case_bool_decide as Hid.
    + split.
      * intros va; rewrite map_err_Ok, AdminCertificate_verify_Ok; split.
        -- intros [-> ?]; exists a; split_and!; try done; apply elem_of_cons; by left.
        -- intros (a' & [->|Ha']%elem_of_cons & Hid' & ? & ->); [done|].
           destruct Ha; rewrite Hid, <- Hid'; by apply (list_elem_of_fmap_2 (fun a => adm_key_id (payload a))).
      * split; [by destruct (AdminCertificate_verify _ _ _ _ _) | intros Hn; destruct (Hn a); [by apply elem_of_cons; left | done]].
    + split.
      * intros va; rewrite IHo; split; [intros (a' & ? & ?); exists a'; split; [by apply elem_of_cons; right | done]|].
        intros (a' & [->|Ha']%elem_of_cons & Hk' & ?); [done | eauto].
      * rewrite IHe; split; [intros Hn a' [->|?]%elem_of_cons; [done | by apply Hn]|].
        intros Hn a' Ha'; apply Hn, elem_of_cons; by right.
Qed.
End validate.

Section claims.
Context `{Ed25519} `{Blake3}.

(** C27: [validate] accepts exactly the valid snapshots.  It returns a snapshot,
    unchanged, if and only if the shape, network and time bounds hold, every
    credential in it parses and verifies against the root directly or through an
    administrator of the same snapshot, every reference (issuer, member,
    application) resolves inside the snapshot, no serial of the revocation list
    is in use, all keys are unique, and each relay and presence service descriptor
    has an acceptable URL, is unexpired and has an endpoint id of its own. *)
Theorem validate_decides_validity (c : NetworkConfigV1) (root : NetworkRootPublic) (net : NetworkId) (now : Z)
    (v : ValidatedNetworkConfig) :
  validate c root net now = Ok v <-> v = mkValidated c /\ config_valid c root net now.
Proof. apply validate_Ok. Qed.

(** What a name of a validated snapshot resolves to.  The answer is the
    address of the one record of that name that has not expired, and it is the
    address of an application whose registration in the snapshot is signed for
    this network by the root or by one of its administrators. *)
Theorem resolved_names_are_registered (c : NetworkConfigV1) (root : NetworkRootPublic) (net : NetworkId)
    (now : Z) (v : ValidatedNetworkConfig) (cr : Credentials) (name : VirtualName) (t : Z) (a : AppAddr) :
  validate c root net now = Ok v -> snapshot_parses c cr ->
  (resolve_virtual_name v name t = Some a <->
   exists r, r ∈ cfg_virtual_dns c /\ dns_name r = name /\ t < dns_expires_at_ms r /\ dns_app_addr r = a) /\
  (resolve_virtual_name v name t = Some a ->
   exists x, x ∈ cr_apps cr /\ ar_app_addr (payload x) = a /\ app_vouched root net (cr_admins cr) x).
Proof.
  intros [-> Hv]%validate_Ok Hp; destruct (va_credentials _ _ _ _ Hv) as (cr' & Hp' & Hc).
  rewrite (snapshot_parses_inj _ _ _ Hp Hp').
  pose proof (find_dns_Some (cfg_virtual_dns c) name t a (cv_unique_names _ _ _ _ _ Hc)) as Hf.
  split; [exact Hf|]; intros (r & Hr & _ & _ & <-)%Hf.
  pose proof (cv_dns _ _ _ _ _ Hc) as Hd; rewrite Forall_forall in Hd; destruct (Hd r Hr) as (_ & x & Hx & Hxa).
  exists x; split_and!; try done; pose proof (cv_apps _ _ _ _ _ Hc) as Ha; rewrite Forall_forall in Ha; by apply Ha.
Qed.

(** [verified_admin] on a validated snapshot, at any later time: it finds
    the certificate of the snapshot with this key id, and succeeds exactly when
    this certificate is trusted at that time; it reports an unknown
    administrator exactly when no certificate of the snapshot has the key id. *)
Theorem verified_admin_exact (c : NetworkConfigV1) (root : NetworkRootPublic) (net : NetworkId)
    (now : Z) (v : ValidatedNetworkConfig) (cr : Credentials) (key_id : bytes) (t : Z) :
  validate c root net now = Ok v -> snapshot_parses c cr ->
  (forall va, verified_admin v root key_id t = Ok va <->
     exists a, a ∈ cr_admins cr /\ adm_key_id (payload a) = key_id /\
       admin_trusted a root net t (revoked_set c) /\ va = as_admin a) /\
  (verified_admin v root key_id t = Err UnknownAdmin <->
     forall a, a ∈ cr_admins cr -> adm_key_id (payload a) <> key_id).
Proof.
  intros [-> Hv]%validate_Ok Hp; destruct (va_credentials _ _ _ _ Hv) as (cr' & Hp' & Hc).
  rewrite (snapshot_parses_inj _ _ _ Hp Hp'); unfold verified_admin; cbn.
  rewrite (proj1 (va_network _ _ _ _ Hv)).
  apply find_admin_spec; [apply Hp' | apply Hc].
Qed.
End claims.

(** ** A concrete snapshot *)
Module ValidateWitness.
Import Samples.

Definition name : VirtualName := VirtualName_mk (bstr "app.virtual").
Definition snapshot : NetworkConfigV1 := Eval vm_compute in {|
  cfg_network_id := toy_network; cfg_epoch := 1; cfg_revision := 1; cfg_previous_hash := zero32;
  cfg_issued_at_ms := 250; cfg_expires_at_ms := 550;
  cfg_admin_keys := [mkAdminKey (to_bytes ac)]; cfg_members := [to_bytes mc];
  cfg_endpoint_bindings := [to_bytes eb]; cfg_revoked_serials := [3];
  cfg_apps := [to_bytes registration]; cfg_app_bindings := [to_bytes binding];
  cfg_virtual_dns := [mkVirtualDnsRecord name (ar_app_addr (payload registration)) 500];
  cfg_relays := [mkRelayDescriptor toy_endpoint (bstr "https://relay") 3 500];
  cfg_presence_services := [mkPresenceServiceDescriptor toy_endpoint (bstr "https://relay") 500];
  cfg_epoch_secrets := EpochSecrets_from_bytes zero32 zero32 zero32 zero32;
  cfg_policies := NetworkPolicy_default |}.
Definition credentials : Credentials := mkCredentials [ac] [mc] [eb] [registration] [binding].

Lemma snapshot_validates :
  validate snapshot (NetworkRootKey_public toy_root) toy_network 300 = Ok (mkValidated snapshot).
Proof. vm_compute; reflexivity. Qed.
Lemma snapshot_credentials : snapshot_parses snapshot credentials.
Proof. constructor; (constructor; [vm_compute; reflexivity | constructor]). Qed.

Lemma resolved_names_are_registered_witness :
  exists x, x ∈ [registration] /\ ar_app_addr (payload x) = ar_app_addr (payload registration) /\
    app_vouched (NetworkRootKey_public toy_root) toy_network [ac] x.
Proof.
  refine (proj2 (resolved_names_are_registered _ _ _ _ _ credentials name 400 _
    snapshot_validates snapshot_credentials) _); vm_compute; reflexivity.
Defined.

Lemma verified_admin_exact_witness :
  exists a, a ∈ [ac] /\ adm_key_id (payload a) = adm_key_id (payload ac) /\
    admin_trusted a (NetworkRootKey_public toy_root) toy_network 850 (revoked_set snapshot) /\
    as_admin ac = as_admin a.
Proof.
  refine (proj1 (proj1 (verified_admin_exact _ _ _ _ _ credentials (adm_key_id (payload ac)) 850
    snapshot_validates snapshot_credentials) (as_admin ac)) _); vm_compute; reflexivity.
Defined.
End ValidateWitness.
