(* ===== verification/PresenceFacts.v ===== *)
(** * Properties of presence records

    The signed payload of a presence record has exactly one encoding; what the sealed
    form accepts was authentic and authorised by the reader's configuration; an honest
    record survives the wire and opens for every member; and the directory agrees with
    the endpoint the configuration names. *)

From S2P Require Import Prelude Wire Core SocketAddr Platform CertificateWire Certificates Symmetric ToyCrypto CertificateChain.
From S2P Require Import Snapshot Validate Presence.

(** ** The payload codec *)
(** What the Rust types guarantee of a record, and what its wire form keeps. *)
Definition candidate_typed (c : DiscoveryCandidate) : Prop :=
  match c with CandidateIp s => socket_wf s | CandidateRelay url => is_utf8 url = true end.
Definition wire_candidate (c : DiscoveryCandidate) : DiscoveryCandidate :=
  match c with CandidateIp (SocketV6 segments port _ _) => CandidateIp (SocketV6 segments port 0 0) | _ => c end.
Record presence_typed `{Platform} (r : PresenceRecord) : Prop := {
  pt_network : NetworkId_wf (pr_network_id r);
  pt_epoch : is_u64 (pr_epoch r) = true;
  pt_addrs : Forall ScopedVirtualAddr_wf (pr_virtual_addrs r);
  pt_member : MemberId_wf (pr_member_id r);
  pt_endpoint : EndpointId_wf (pr_endpoint_id r);
  pt_candidates : Forall candidate_typed (pr_candidates r);
  pt_capabilities : is_u32 (pr_capabilities r) = true;
  pt_sequence : is_u64 (pr_sequence r) = true;
  pt_issued : is_u64 (pr_issued_at_ms r) = true;
  pt_expires : is_u64 (pr_expires_at_ms r) = true;
}.
Definition wire_record (r : PresenceRecord) : PresenceRecord :=
  mkPresenceRecord (pr_network_id r) (pr_epoch r) (pr_virtual_addrs r) (pr_member_id r) (pr_endpoint_id r)
    (wire_candidate <$> pr_candidates r) (pr_capabilities r) (pr_sequence r) (pr_issued_at_ms r) (pr_expires_at_ms r).

Lemma push_u16_Ok n x : push_u16 n = Ok x <-> is_u16 n = true /\ x = to_be 2 n.
Proof.
  unfold push_u16; rewrite bind_Ok; split.
  - intros (u & Hu%fail_if_Ok & Hx%Ok_inj); by bool_inv.
  - intros [Hn ->]; exists tt; split; [apply fail_if_Ok; by rewrite Hn | done].
Qed.

Lemma steps_virtual_addr a s :
  ScopedVirtualAddr_wf a -> steps decode_virtual_addr (encode_virtual_addr a ++ s) a s.
Proof.
  destruct a as [[app]|[app] [device]]; cbn -[to_be]; unfold AppAddr_wf, DeviceId_wf; cbn; intros; rewrite <- ?app_assoc.
  - eapply steps_bind; [by apply (steps_uint _ 1)|]; cbn beta iota; parse.
  - destruct_and?; eapply steps_bind; [by apply (steps_uint _ 1)|]; cbn beta; eapply steps_bind; [by apply steps_array|]; parse.
Qed.
#[global] Instance reads_virtual_addr :
  Reads decode_virtual_addr (fun a x => x = encode_virtual_addr a /\ ScopedVirtualAddr_wf a).
Proof.
  intros d s a d' Hs Ha; unfold decode_virtual_addr in Ha; unparse.
  match goal with Hm : match ?k with _ => _ end _ = Ok _ |- _ => destruct k as [|[]|]; try discriminate Hm; unparse end.
  - match goal with Hm : match ?k with _ => _ end _ = Ok _ |- _ => destruct k as [| |]; try discriminate Hm; unparse end.
    rewrite ?app_assoc; eexists _, _; split_and!; [reflexivity | done | by rewrite <- app_assoc | done..].
  - rewrite ?app_assoc; eexists _, _; split_and!; [reflexivity | done..].
Qed.

Lemma steps_candidate c x s :
  candidate_typed c -> encode_candidate c = Ok x -> steps decode_candidate (x ++ s) (wire_candidate c) s.
Proof.
  destruct c as [[a b c d port|segments port flow scope]|url]; cbn [candidate_typed socket_wf encode_candidate wire_candidate].
  - intros (Ha & Hb & Hc & Hd & Hp) <-%Ok_inj; rewrite <- app_assoc.
    eapply steps_bind; [by apply (steps_uint _ 1)|]; cbn beta iota; rewrite <- app_assoc.
    eapply steps_bind; [apply steps_array; by rewrite !length_app, !length_to_be|]; parse.
    rewrite ipv4_of_octets by done; apply steps_ret.
  - intros (Hl & Hs & Hp & _ & _) <-%Ok_inj; rewrite <- app_assoc.
    eapply steps_bind; [by apply (steps_uint _ 1)|]; cbn beta iota; rewrite <- app_assoc.
    eapply steps_bind; [apply steps_array; by rewrite length_ipv6_octets, Hl|]; parse.
    rewrite ipv6_round_trip by done; apply steps_ret.
  - intros Hu (n & [Hn ->]%push_u16_Ok & <-%Ok_inj)%bind_Ok; rewrite <- app_assoc.
    assert (fail_if (negb (is_utf8 url)) DiscMalformedWire = Ok tt) by (by rewrite Hu).
    eapply steps_bind; [by apply (steps_uint _ 1)|]; cbn beta iota; parse.
Qed.
#[global] Instance reads_candidate :
  Reads decode_candidate (fun c x => encode_candidate c = Ok x /\ candidate_typed c /\ wire_candidate c = c).
Proof.
  intros d s a d' Hs Ha; unfold decode_candidate in Ha; unparse.
  match goal with Hm : match ?k with _ => _ end _ = Ok _ |- _ => destruct k as [|[[]|[]|]|]; try discriminate Hm; unparse end;
    res_inv; bool_inv; rewrite ?app_assoc; eexists _, _; (split_and!; [reflexivity | done | ..]).
  - cbn [encode_candidate]; match goal with Hl : 0 <= ?n -> len ?u = ?n, Hr : is_u16 ?n = true |- _ =>
      assert (len u = n) as <- by (apply Hl; unfold in_range in Hr; bool_inv; lia) end.
    rewrite (proj2 (push_u16_Ok _ _)) by (split; [eassumption | reflexivity]); cbn; by rewrite <- app_assoc.
  - done.
  - done.
  - cbn [encode_candidate]; destruct (ipv6_octets_of 8 x) as (-> & _); [done | by rewrite <- app_assoc].
  - destruct (ipv6_octets_of 8 x) as (_ & ? & ?); done.
  - done.
  - destruct (octets_of_ipv4 x x5) as (a & b & c & e & -> & Ho & _); [done|]; cbn [encode_candidate].
    by rewrite Ho, <- app_assoc.
  - destruct (octets_of_ipv4 x x5) as (a & b & c & e & -> & _ & ?); [done|]; destruct_and?; done.
  - done.
Qed.

(** Repeated reads of encodings that may fail. *)
Lemma steps_repeat_push {E A B} (p : dec E B) (f : A -> B) xs ys s :
  Forall2 (fun a x => forall s, steps p (x ++ s) (f a) s) xs ys ->
  steps (d_repeat p (length xs)) (concat ys ++ s) (f <$> xs) s.
Proof.
  induction 1 as [|a x xs ys Ha _ IH]; cbn; [apply steps_ret|]; rewrite <- app_assoc.
  eapply steps_bind; [apply Ha|]; eapply steps_bind; [exact IH | apply steps_ret].
Qed.

Lemma candidates_read cs xs :
  Forall2 (fun c x => encode_candidate c = Ok x /\ candidate_typed c /\ wire_candidate c = c) cs xs ->
  try_map encode_candidate cs = Ok xs /\ Forall candidate_typed cs /\ wire_candidate <$> cs = cs.
Proof.
  intros Hcs; split; [apply try_map_Ok; eapply Forall2_impl; [exact Hcs | naive_solver]|].
  induction Hcs as [|c x cs xs (? & ? & Hw) _ [? IH]]; [done|]; split; [by constructor | by cbn; rewrite Hw, IH].
Qed.

Section payload.
Context `{Platform}.

(** The shape limits the decoder enforces. *)
Definition presence_bounded (r : PresenceRecord) : Prop :=
  0 < len (pr_virtual_addrs r) <= MAX_VIRTUAL_ADDRS /\ len (pr_candidates r) <= MAX_CANDIDATES.

Lemma presence_payload_decodes r bs :
  presence_typed r -> presence_bounded r -> encode_presence_payload r = Ok bs ->
  decode_presence_payload bs = Ok (wire_record r).
Proof.
  intros Ht [Ha Hc] He; destruct r as [[net] epoch addrs [member] [ep] cands caps seq issued expires].
  destruct Ht as [Hn Hep Had Hm [Hel Hev] Hca Hcap Hseq His Hex]; cbn in *; unfold NetworkId_wf, MemberId_wf in *; cbn in *.
  unfold encode_presence_payload in He; cbn in He.
  apply bind_Ok in He as (ac & [Hac ->]%push_u16_Ok & He); apply bind_Ok in He as (cc & [Hcc ->]%push_u16_Ok & He).
  apply bind_Ok in He as (cs & Hcs & He); apply bind_Ok in He as (u & _ & <-%Ok_inj).
  assert (Hcsteps : forall s, steps (d_repeat decode_candidate (Z.to_nat (len cands))) (concat cs ++ s) (wire_candidate <$> cands) s).
  { intros s; unfold len; rewrite Nat2Z.id; apply steps_repeat_push; apply try_map_Ok in Hcs.
    clear -Hca Hcs; induction Hcs; inversion Hca; subst; constructor; auto; intros; by apply steps_candidate. }
  assert (Hasteps : forall s, steps (d_repeat decode_virtual_addr (Z.to_nat (len addrs))) (concat (encode_virtual_addr <$> addrs) ++ s) addrs s).
  { intros s; unfold len; rewrite Nat2Z.id; eapply steps_repeat; [exact steps_virtual_addr | done]. }
  assert (fail_if ((len addrs =? 0) || (MAX_VIRTUAL_ADDRS <? len addrs)) InvalidPresence = Ok tt) by (apply fail_if_Ok; passes).
  assert (fail_if (MAX_CANDIDATES <? len cands) InvalidPresence = Ok tt) by (apply fail_if_Ok; passes).
  assert (EndpointId_from_bytes ep ?? MalformedEndpoint = Ok (mkEndpointId ep)).
  { apply ok_or_Ok, EndpointId_from_bytes_Some; done. }
  unfold decode_presence_payload; eapply run_steps; parse.
Qed.

(** What decodes is a typed record within the limits and the bytes are its encoding. *)
Lemma presence_payload_canonical bs r :
  decode_presence_payload bs = Ok r -> len bs <= MAX_PRESENCE_WIRE - Z.of_nat PRESENCE_SIGNATURE_LEN ->
  presence_typed r /\ presence_bounded r /\ wire_record r = r /\ encode_presence_payload r = Ok bs.
Proof.
  intros Hd Hl; unfold decode_presence_payload in Hd; unparse; res_inv; bool_inv.
  repeat match goal with
  | Hys : exists ys, Forall2 _ _ _ /\ _ |- _ => destruct Hys as (? & ? & ->)
  | Hr : EndpointId_from_bytes _ = Some _ |- _ => apply EndpointId_from_bytes_Some in Hr as [-> ?]
  | Hl : length ?l = Z.to_nat ?z, Hz : is_u16 ?z = true |- _ =>
      assert (z = len l) as -> by (unfold in_range, len in *; bool_inv; lia); clear Hl
  end.
  rewrite app_nil_r in *; match goal with Hx : Forall2 _ _ _ |- _ =>
    apply candidates_read in Hx as (Hcs & Htyped & Hwire) end.
  match goal with Has : Forall2 _ _ _ |- _ => apply Forall2_image in Has as [-> Has] end.
  unfold wire_record, presence_bounded; cbn; rewrite Hwire; split_and!; try done;
    [unfold len in *; lia|].
  unfold encode_presence_payload; cbn; rewrite !(proj2 (push_u16_Ok _ _)) by (split; [eassumption | reflexivity]); cbn.
  by rewrite Hcs; cbn; rewrite (proj2 (fail_if_Ok _ _ tt)) by (by apply Z.ltb_ge).
Qed.
End payload.

(** ** The sealed form on the wire *)
Definition sealed_typed (p : EncryptedPresenceRecord) : Prop :=
  is_u64 (ep_epoch p) = true /\ length (ep_opaque_key p) = OPAQUE_KEY_LEN /\ length (ep_nonce p) = PRESENCE_NONCE_LEN.
(** The bytes around the ciphertext. *)
Definition PRESENCE_OVERHEAD : Z := 8 + 8 + 24 + 24 + 4.

Lemma Presence_to_bytes_Ok p bs :
  sealed_typed p -> Presence_to_bytes p = Ok bs <->
  len (ep_ciphertext p) <= MAX_PRESENCE_WIRE /\
  bs = PRESENCE_MAGIC ++ to_be 8 (ep_epoch p) ++ ep_opaque_key p ++ ep_nonce p ++ to_be 4 (len (ep_ciphertext p)) ++ ep_ciphertext p.
Proof.
  intros _; unfold Presence_to_bytes; rewrite bind_Ok; split.
  - intros (u & Hu%fail_if_Ok & <-%Ok_inj); bool_inv; done.
  - intros [Hl ->]; exists tt; split; [by apply fail_if_Ok, Z.ltb_ge | done].
Qed.
Lemma sealed_length p bs : sealed_typed p -> Presence_to_bytes p = Ok bs -> len bs = len (ep_ciphertext p) + PRESENCE_OVERHEAD.
Proof.
  intros Ht [_ ->]%Presence_to_bytes_Ok; [|done]; destruct Ht as (_ & Hk & Hn); unfold len.
  rewrite !length_app, !length_to_be, Hk, Hn; change (length PRESENCE_MAGIC) with 8%nat; unfold PRESENCE_OVERHEAD, OPAQUE_KEY_LEN, PRESENCE_NONCE_LEN; lia.
Qed.
Lemma sealed_parses p bs :
  sealed_typed p -> Presence_to_bytes p = Ok bs -> len bs <= MAX_PRESENCE_WIRE -> Presence_from_bytes bs = Ok p.
Proof.
  intros Ht Hb Hl; pose proof (sealed_length _ _ Ht Hb) as Hlen; unfold Presence_from_bytes.
  rewrite (proj2 (fail_if_Ok _ _ tt)) by (by apply Z.ltb_ge); cbn [mbind result_bind].
  apply Presence_to_bytes_Ok in Hb as [_ ->]; [|done]; destruct Ht as (He & Hk & Hn), p as [epoch key nonce ct]; cbn in *.
  assert (is_u32 (len ct) = true) by (unfold in_range, PRESENCE_OVERHEAD, MAX_PRESENCE_WIRE, len in *; passes).
  eapply run_steps; parse.
Qed.
Lemma sealed_canonical bs p : Presence_from_bytes bs = Ok p -> sealed_typed p /\ Presence_to_bytes p = Ok bs.
Proof.
  unfold Presence_from_bytes; intros (u & Hl%fail_if_Ok & Hp)%bind_Ok; bool_inv; unparse.
  match goal with Hn : 0 <= ?n -> len ?ct = ?n, Hr : is_u32 ?n = true |- _ =>
    assert (n = len ct) as -> by (symmetry; apply Hn; unfold in_range in Hr; bool_inv; lia) end.
  match goal with |- sealed_typed ?q /\ _ => assert (Ht : sealed_typed q) by done end; split; [done|].
  apply Presence_to_bytes_Ok; [done|]; rewrite app_nil_r in *; split; [|done].
  cbn; unfold len in *; rewrite !length_app in Hl; lia.
Qed.

(** ** Opening *)
Section opening.
Context `{Ed25519} `{Blake3} `{Aead} `{Platform}.
Implicit Types (config : ValidatedNetworkConfig) (cr : Credentials) (now : Z).

(** The bindings that entitle a member to an endpoint and to an address. *)
Definition endpoint_bound cr (m : MemberId) (e : EndpointId) now : Prop :=
  exists b, b ∈ cr_endpoints cr /\ eb_member_id (payload b) = m /\ eb_endpoint_id (payload b) = EndpointId_as_bytes e /\
    now < eb_expires_at_ms (payload b).
Definition address_bound cr (m : MemberId) (a : ScopedVirtualAddr) now : Prop :=
  exists b, b ∈ cr_bindings cr /\ ab_subject (payload b) = m /\ binding_matches (payload b) a = true /\
    now < ab_expires_at_ms (payload b).

Lemma authorize_Ok config cr m e a now u :
  snapshot_parses (vc_inner config) cr ->
  authorize_endpoint_and_addr config m e a now = Ok u <-> endpoint_bound cr m e now /\ address_bound cr m a now.
Proof.
  intros Hp; unfold authorize_endpoint_and_addr; cbv zeta.
  rewrite bind_Ok, (any_parsed_list _ _ _ (sp_endpoints _ _ Hp)), (any_parsed_list _ _ _ (sp_bindings _ _ Hp)).
  setoid_rewrite fail_if_Ok; setoid_rewrite negb_false_iff; setoid_rewrite existsb_exists.
  unfold endpoint_bound, address_bound; split.
  - intros (_ & (b & Hb%list_elem_of_In & He) & (b' & Hb'%list_elem_of_In & Ha)); bool_inv; split; [by exists b|].
    destruct (_ || _) eqn:Hg in Ha; [done|]; bool_inv; by exists b'.
  - intros [(b & Hb%list_elem_of_In & Hm & Hep & He) (b' & Hb'%list_elem_of_In & Hs & Ha & Hx)]; exists tt; split.
    + exists b; split; [done|]; rewrite !bool_decide_true by done; by apply Z.ltb_lt.
    + exists b'; split; [done|]; rewrite bool_decide_true, (proj2 (Z.leb_gt _ _)) by done; done.
Qed.
Lemma authorize_all config cr m e addrs now u :
  snapshot_parses (vc_inner config) cr -> addrs <> [] ->
  for_each (fun a => authorize_endpoint_and_addr config m e a now) addrs = Ok u <->
  endpoint_bound cr m e now /\ Forall (fun a => address_bound cr m a now) addrs.
Proof.
  intros Hp Hne; rewrite for_each_Ok, !Forall_forall; setoid_rewrite (authorize_Ok _ cr) with (u := tt); [|done].
  split; [|naive_solver]; intros Hall; split; [|naive_solver].
  destruct addrs as [|a ?]; [done|]; by destruct (Hall a ltac:(set_solver)).
Qed.
Lemma repeats_address_false addrs : repeats_address addrs = false <-> NoDup addrs.
Proof. unfold repeats_address; by rewrite negb_false_iff, Nat.eqb_eq, NoDup_size_list_to_set. Qed.

(** What a reader may rely on once [open] has accepted a record. *)
Record presence_authentic config cr (p : EncryptedPresenceRecord) (r : PresenceRecord) now (m : MemberCertificate)
    (signed signature : bytes) : Prop := {
  pa_member : m ∈ cr_members cr /\ mc_member_id (payload m) = pr_member_id r;
  pa_window : mc_not_before_ms (payload m) <= now < mc_expires_at_ms (payload m);
  pa_revoked : mc_serial (payload m) ∉ cfg_revoked_serials (vc_inner config);
  pa_signed : decode_presence_payload signed = Ok r;
  pa_signature : ed_verify (mc_signing_public_key (payload m)) (presence_signature_transcript signed) signature = true;
  pa_network : pr_network_id r = cfg_network_id (vc_inner config) /\ pr_epoch r = cfg_epoch (vc_inner config);
  pa_fresh : pr_issued_at_ms r <= now < pr_expires_at_ms r /\ pr_expires_at_ms r - pr_issued_at_ms r <= MAX_PRESENCE_TTL_MS;
  pa_key : (ep_epoch p, ep_opaque_key p) = lookup_key config (pr_endpoint_id r);
  pa_endpoint : endpoint_bound cr (pr_member_id r) (pr_endpoint_id r) now;
  pa_addresses : Forall (fun a => address_bound cr (pr_member_id r) a now) (pr_virtual_addrs r);
  pa_count : pr_virtual_addrs r <> [] /\ len (pr_virtual_addrs r) <= MAX_VIRTUAL_ADDRS /\ NoDup (pr_virtual_addrs r);
  pa_candidates : validate_candidates (pr_candidates r) = Ok tt;
}.

Lemma check_presence_Ok config cr p r signed signature now u :
  snapshot_parses (vc_inner config) cr -> ep_epoch p = cfg_epoch (vc_inner config) -> decode_presence_payload signed = Ok r ->
  check_presence config (ep_opaque_key p) r signed signature now = Ok u ->
  exists m, presence_authentic config cr p r now m signed signature.
Proof.
  intros Hp He Hd Hc; unfold check_presence, member_by_id, MemberCertificate_verify_presence in Hc; res_inv; bool_inv.
  match goal with Hf : find_parsed _ _ _ = Some ?m |- _ =>
    exists m; rewrite (find_parsed_list _ _ _ (sp_members _ _ Hp)) in Hf; apply find_some in Hf as [Hin Hid] end.
  bool_inv; apply list_elem_of_In in Hin.
  repeat match goal with
  | Hk : verifying_key _ = Ok _ |- _ => apply verifying_key_Ok in Hk as [? ->]
  | Hk : verify_signature _ _ _ = Ok _ |- _ => apply verify_signature_Ok in Hk
  | Hk : repeats_address _ = false |- _ => apply repeats_address_false in Hk
  | Hk : Forall _ (pr_virtual_addrs r) |- _ => apply (for_each_Ok _ _ tt), (authorize_all _ cr) in Hk as [? ?]; [|done..]
  end.
  constructor; try done; unfold lookup_key; by f_equal.
Qed.
Lemma Presence_open_Ok p config cr now r :
  snapshot_parses (vc_inner config) cr -> Presence_open p config now = Ok r ->
  exists m signed signature, presence_authentic config cr p r now m signed signature.
Proof.
  intros Hp Ho; unfold Presence_open in Ho; cbv zeta in Ho; res_inv; bool_inv.
  match goal with Hc : check_presence _ _ _ _ _ _ = Ok _ |- _ => eapply check_presence_Ok in Hc as [m Hm]; [eauto | done..] end.
Qed.
End opening.

(** ** Sealing *)
Section sealing.
Context `{Ed25519Laws} `{Blake3Laws} `{AeadLaws} `{Platform}.

(** What the record to be sealed looks like. *)
Lemma presence_record_Ok config cr signing e addrs cands caps seq issued expires r :
  snapshot_parses (vc_inner config) cr ->
  presence_record config signing e addrs cands caps seq issued expires = Ok r ->
  exists m, m ∈ cr_members cr /\ mc_signing_public_key (payload m) = SigningKeypair_public_bytes signing /\
    r = mkPresenceRecord (cfg_network_id (vc_inner config)) (cfg_epoch (vc_inner config)) addrs (mc_member_id (payload m)) e
          cands caps seq issued expires /\
    expires - issued <= MAX_PRESENCE_TTL_MS /\ addrs <> [] /\ len addrs <= MAX_VIRTUAL_ADDRS /\ NoDup addrs /\
    validate_candidates cands = Ok tt /\ endpoint_bound cr (mc_member_id (payload m)) e issued /\
    Forall (fun a => address_bound cr (mc_member_id (payload m)) a issued) addrs.
Proof.
  intros Hp Hr; unfold presence_record, member_for_signer in Hr; cbv zeta in Hr.
  apply bind_Ok in Hr as (u & Hg%fail_if_Ok & Hr); apply bind_Ok in Hr as ([] & Hv & Hr); apply bind_Ok in Hr as (m & Hm & Hr).
  apply bind_Ok in Hr as (u1 & Hn%fail_if_Ok%repeats_address_false & Hr); apply bind_Ok in Hr as (u2 & Ha & <-%Ok_inj); bool_inv.
  apply ok_or_Ok in Hm; rewrite (find_parsed_list _ _ _ (sp_members _ _ Hp)) in Hm; apply find_some in Hm as [Hin Hk]; bool_inv.
  apply (authorize_all _ cr) in Ha as [? ?]; [|done..]; exists m; apply list_elem_of_In in Hin; done.
Qed.

Lemma validate_candidates_len cands : validate_candidates cands = Ok tt -> len cands <= MAX_CANDIDATES.
Proof. unfold validate_candidates; intros Hv%fail_if_Ok; bool_inv; done. Qed.
Lemma validate_candidates_wire cands :
  validate_candidates cands = Ok tt -> validate_candidates (wire_candidate <$> cands) = Ok tt.
Proof.
  unfold validate_candidates; rewrite !fail_if_Ok, !orb_false_iff; unfold len; rewrite length_fmap; intros [? Hc]; split; [done|].
  clear -Hc; induction cands as [|c cands IH]; [done|]; cbn in *; apply orb_false_iff in Hc as [Hc ?].
  rewrite IH by done; rewrite orb_false_r; by destruct c as [[]|].
Qed.

(** Bindings of a valid configuration have not expired. *)
Lemma bound_now c root net now cr m e a t :
  snapshot_parses c cr -> credentials_valid c root net now cr ->
  (endpoint_bound cr m e t -> endpoint_bound cr m e now) /\ (address_bound cr m a t -> address_bound cr m a now).
Proof.
  intros Hp Hv; split.
  - intros (b & Hb & ? & ? & _); exists b; split_and!; try done.
    pose proof (cv_endpoints _ _ _ _ _ Hv) as Hall; rewrite Forall_forall in Hall; destruct (Hall b Hb) as (x & _ & []); lia.
  - intros (b & Hb & ? & ? & _); exists b; split_and!; try done.
    pose proof (cv_bindings _ _ _ _ _ Hv) as Hall; rewrite Forall_forall in Hall.
    destruct (Hall b Hb) as (_ & x & y & _ & _ & []); lia.
Qed.

(** A member of a valid configuration is current, unrevoked and found by its id. *)
Lemma valid_member c root net now cr m :
  credentials_valid c root net now cr -> m ∈ cr_members cr ->
  mc_not_before_ms (payload m) <= now < mc_expires_at_ms (payload m) /\ (mc_serial (payload m) ∉ cfg_revoked_serials c) /\
  List.find (fun x => bool_decide (mc_member_id (payload x) = mc_member_id (payload m))) (cr_members cr) = Some m.
Proof.
  intros Hv Hm; pose proof (cv_members _ _ _ _ _ Hv) as Hall; rewrite Forall_forall in Hall.
  assert (mc_serial (payload m) ∉ revoked_set c <-> mc_serial (payload m) ∉ cfg_revoked_serials c) as Hset
    by (unfold revoked_set; by rewrite elem_of_list_to_set).
  split_and!; [destruct (Hall m Hm) as [[]|(_ & a & _ & [])]; lia.. | |].
  - apply Hset; by destruct (Hall m Hm) as [[]|(_ & a & _ & [])].
  - apply (find_unique (fun x => mc_member_id (payload x))), Hm; apply Hv.
Qed.

Lemma check_presence_accepts c root net cr m signing r opaque signed signature now :
  snapshot_parses c cr -> credentials_valid c root net now cr -> length (sk_seed signing) = 32%nat ->
  m ∈ cr_members cr -> mc_signing_public_key (payload m) = SigningKeypair_public_bytes signing ->
  pr_network_id r = cfg_network_id c -> pr_epoch r = cfg_epoch c -> pr_member_id r = mc_member_id (payload m) ->
  pr_issued_at_ms r <= now < pr_expires_at_ms r -> pr_expires_at_ms r - pr_issued_at_ms r <= MAX_PRESENCE_TTL_MS ->
  opaque = derive_opaque_key (presence_index_seed (cfg_epoch_secrets c)) (pr_endpoint_id r) ->
  pr_virtual_addrs r <> [] -> len (pr_virtual_addrs r) <= MAX_VIRTUAL_ADDRS -> NoDup (pr_virtual_addrs r) ->
  validate_candidates (pr_candidates r) = Ok tt -> endpoint_bound cr (pr_member_id r) (pr_endpoint_id r) now ->
  Forall (fun a => address_bound cr (pr_member_id r) a now) (pr_virtual_addrs r) ->
  signature = sign_presence signing signed ->
  check_presence (mkValidated c) opaque r signed signature now = Ok tt.
Proof.
  intros Hp Hv Hs Hm Hk Hnet Hep Hid Ht Httl -> Hne Hlen Hnd Hc He Ha ->.
  destruct (valid_member _ _ _ _ _ _ Hv Hm) as (Hw & Hser & Hf).
  unfold check_presence, member_by_id; cbn [vc_inner].
  apply bind_Ok; exists tt; split; [apply fail_if_Ok; passes|].
  apply bind_Ok; exists m; split; [apply ok_or_Ok; by rewrite (find_parsed_list _ _ _ (sp_members _ _ Hp)), Hid|].
  apply bind_Ok; exists tt; split; [apply fail_if_Ok; passes|].
  apply bind_Ok; exists tt; split.
  { apply map_err_Ok; unfold MemberCertificate_verify_presence, verifying_key; rewrite Hk; unfold SigningKeypair_public_bytes.
    rewrite ed_public_valid by done; cbn; by apply verify_signature_Ok, ed_verify_sign. }
  apply bind_Ok; exists tt; split; [apply fail_if_Ok; passes|].
  apply bind_Ok; exists tt; split; [by apply fail_if_Ok, repeats_address_false|].
  apply bind_Ok; exists tt; split; [by apply (authorize_all _ cr)|]; done.
Qed.

(** The parts of a sealed record. *)
Lemma Presence_seal_Ok c signing endpoint addrs cands caps seq issued expires ent ent' p :
  Presence_seal (mkValidated c) signing endpoint addrs cands caps seq issued expires ent = Ok (p, ent') ->
  exists r signed, presence_record (mkValidated c) signing endpoint addrs cands caps seq issued expires = Ok r /\
    encode_presence_payload r = Ok signed /\ ep_epoch p = cfg_epoch c /\
    ep_opaque_key p = derive_opaque_key (presence_index_seed (cfg_epoch_secrets c)) endpoint /\
    length (ep_nonce p) = PRESENCE_NONCE_LEN /\
    aead_encrypt (derive_presence_key (presence_encryption_seed (cfg_epoch_secrets c)) (ep_epoch p) (ep_opaque_key p))
      (ep_nonce p) (presence_aad (ep_epoch p) (ep_opaque_key p) (ep_nonce p)) (signed ++ sign_presence signing signed)
    = Some (ep_ciphertext p).
Proof.
  unfold Presence_seal; intros Hs; cbv zeta in Hs; cbn [vc_inner] in Hs.
  rnd_inv Hs; rnd_inv Hs; rnd_inv Hs; rnd_inv Hs; apply Ok_inj, pair_equal_spec in Hs as [<- _].
  exists a, a0; cbn; split_and!; try done; [by eapply fill_Ok | by eapply ok_or_Ok].
Qed.
Lemma Presence_open_plaintext p c now signed signature r u :
  ep_epoch p = cfg_epoch c -> length signature = PRESENCE_SIGNATURE_LEN ->
  aead_decrypt (derive_presence_key (presence_encryption_seed (cfg_epoch_secrets c)) (ep_epoch p) (ep_opaque_key p))
    (ep_nonce p) (presence_aad (ep_epoch p) (ep_opaque_key p) (ep_nonce p)) (ep_ciphertext p) = Some (signed ++ signature) ->
  decode_presence_payload signed = Ok r ->
  check_presence (mkValidated c) (ep_opaque_key p) r signed signature now = Ok u ->
  Presence_open p (mkValidated c) now = Ok r.
Proof.
  intros He Hs Hd Hr Hc; unfold Presence_open; cbn [vc_inner]; rewrite Hd, He, Z.eqb_refl; cbn [negb fail_if mbind result_bind ok_or].
  rewrite (proj2 (Nat.ltb_ge _ _)) by (rewrite length_app; lia); cbn [fail_if mbind result_bind]; cbv zeta.
  replace (length (signed ++ signature) - PRESENCE_SIGNATURE_LEN)%nat with (length signed) by (rewrite length_app; lia).
  rewrite take_app_length, drop_app_length, Hr; cbn [mbind result_bind]; by rewrite Hc.
Qed.
End sealing.

(** ** Theorems *)

(** C23: A presence record that [open] accepts under a validated configuration is authentic:
    its payload was signed with the key of a member certificate that the configuration
    lists, that the network root or one of its administrators vouched for, and that is
    current and not revoked; the member holds unexpired bindings for the endpoint and for
    every address of the record; the record belongs to the network and epoch, is filed under
    the endpoint's own directory key, and lives at most five minutes. *)
Theorem accepted_presence_authentic `{Ed25519} `{Blake3} `{Aead} `{Platform}
    (c : NetworkConfigV1) (root : NetworkRootPublic) (net : NetworkId) (validated now : Z) (config : ValidatedNetworkConfig)
    (p : EncryptedPresenceRecord) (r : PresenceRecord) :
  validate c root net validated = Ok config -> Presence_open p config now = Ok r ->
  exists cr m signed signature, snapshot_parses c cr /\
    member_vouched root net validated (revoked_set c) (cr_admins cr) m /\
    presence_authentic config cr p r now m signed signature.
Proof.
  intros [-> Hv]%validate_Ok Ho; destruct (va_credentials _ _ _ _ Hv) as (cr & Hp & Hc).
  destruct (Presence_open_Ok p (mkValidated c) cr now r Hp Ho) as (m & signed & signature & Hm).
  exists cr, m, signed, signature; split_and!; try done.
  pose proof (cv_members _ _ _ _ _ Hc) as Hall; rewrite Forall_forall in Hall; apply Hall, Hm.
Qed.

(** A presence record sealed by a member opens, for every holder of the same
    configuration and at any time within its lifetime while the configuration is valid,
    to exactly the sealed contents, up to the flow information and scope of IPv6
    candidates, which the payload does not carry. *)
Theorem sealed_presence_opens `{Ed25519Laws} `{Blake3Laws} `{AeadLaws} `{Platform}
    (c : NetworkConfigV1) (root : NetworkRootPublic) (net : NetworkId) (signing : SigningKeypair) (endpoint : EndpointId)
    (addrs : list ScopedVirtualAddr) (cands : list DiscoveryCandidate) (caps seq issued expires now : Z)
    (ent ent' : entropy) (p : EncryptedPresenceRecord) :
  config_typed c -> validate c root net now = Ok (mkValidated c) -> length (sk_seed signing) = 32%nat ->
  EndpointId_wf endpoint -> Forall ScopedVirtualAddr_wf addrs -> Forall candidate_typed cands ->
  is_u32 caps = true -> is_u64 seq = true -> is_u64 issued = true -> is_u64 expires = true ->
  Presence_seal (mkValidated c) signing endpoint addrs cands caps seq issued expires ent = Ok (p, ent') ->
  issued <= now < expires ->
  exists m : MemberCertificate, mc_signing_public_key (payload m) = SigningKeypair_public_bytes signing /\
    to_bytes m ∈ cfg_members c /\
    Presence_open p (mkValidated c) now =
    Ok (mkPresenceRecord (cfg_network_id c) (cfg_epoch c) addrs (mc_member_id (payload m)) endpoint
          (wire_candidate <$> cands) caps seq issued expires).
Proof.
  intros Ht [_ Hv]%validate_Ok Hs He Ha Hc Hcaps Hseq Hiss Hexp Hseal Hnow.
  destruct (va_credentials _ _ _ _ Hv) as (cr & Hp & Hcv); apply Presence_seal_Ok in Hseal as (r & signed & Hr & Hen & Hep & Hok & _ & Hct).
  destruct (presence_record_Ok (mkValidated c) cr _ _ _ _ _ _ _ _ _ Hp Hr) as (m & Hm & Hk & -> & Httl & Hne & Hal & Hnd & Hvc & Heb & Hab).
  destruct (Forall2_elem_r _ _ _ _ (sp_members _ _ Hp) Hm) as (raw & Hraw & [Hmw Hbs]%MemberCertificate_from_bytes_exact).
  exists m; split_and!; [done | by rewrite <- Hbs|]; cbn [vc_inner] in *.
  destruct (bound_now _ _ _ _ _ (mc_member_id (payload m)) endpoint (Server (AppAddr_from_bytes [])) issued Hp Hcv) as [Heb' _].
  eapply Presence_open_plaintext; [done | by apply ed_sign_len | by apply aead_round_trip | |].
  - eapply (presence_payload_decodes (mkPresenceRecord _ _ _ _ _ _ _ _ _ _)); [|split; [|]|exact Hen]; cbn.
    + destruct Ht, Hmw as ((_ & ? & _) & _); by constructor.
    + unfold len in *; destruct addrs; [done | cbn in *; lia].
    + by apply validate_candidates_len.
  - eapply (check_presence_accepts c root net cr m signing); cbn; try done; [by apply validate_candidates_wire | auto|].
    eapply Forall_impl; [exact Hab|]; intros a; apply (bound_now _ _ _ _ _ _ endpoint _ _ Hp Hcv).
Qed.

(** ** The endpoint a configuration names *)
Section configured.
Context `{Ed25519} `{Blake3} `{Aead} `{Platform}.
Implicit Types (cr : Credentials) (now : Z).

Lemma bound_members_Ok config cr a now :
  snapshot_parses (vc_inner config) cr ->
  exists ms, bound_members config a now = Ok ms /\ forall m, m ∈ ms <-> address_bound cr m a now.
Proof.
  intros Hp; unfold bound_members; rewrite (try_map_list _ _ _ (sp_bindings _ _ Hp)); cbn [map_err mbind result_bind].
  eexists; split; [done|]; intros m; rewrite list_elem_of_omap; unfold address_bound; split.
  - intros (b & Hb & Hm); destruct (_ && _) eqn:Hg in Hm; [|done]; bool_inv; injection Hm as <-; by exists b.
  - intros (b & Hb & <- & Hm & Hx); exists b; rewrite Hm, (proj2 (Z.ltb_lt _ _)) by done; done.
Qed.
Lemma bound_endpoints_Ok m now raws bs es :
  Forall2 (fun raw b => EndpointBinding_from_bytes raw = Ok b) raws bs ->
  bound_endpoints m now raws = Ok es <->
  EndpointId_as_bytes <$> es =
    omap (fun b => if bool_decide (eb_member_id (payload b) = m) && (now <? eb_expires_at_ms (payload b))
                   then Some (eb_endpoint_id (payload b)) else None) bs /\
  Forall (fun e => endpoint_id_valid (EndpointId_as_bytes e) = true) es.
Proof.
  intros Hp; revert es; induction Hp as [|raw b raws bs Hb _ IH]; intros es; cbn.
  - split; [intros <-%Ok_inj; done | intros [Hes _]; by destruct es].
  - rewrite Hb; cbn [map_err mbind result_bind]; destruct (bool_decide _ && _) eqn:Hg; [|by rewrite IH].
    rewrite bind_Ok; split.
    + intros (e & [He Hv]%ok_or_Ok%EndpointId_from_bytes_Some & (l & [Hl Hf]%IH & <-%Ok_inj)%bind_Ok).
      cbn; rewrite Hl, He; split; [done | constructor; [by rewrite <- He | done]].
    + intros [Hes Hf]; destruct es as [|e es]; [done|]; injection Hes as He Hes; inversion Hf as [|? ? Hv Hf']; subst.
      exists e; split; [by apply ok_or_Ok, EndpointId_from_bytes_Some; rewrite <- He|].
      apply bind_Ok; exists es; split; [by apply IH | done].
Qed.

(** The bindings name one member for the address and one endpoint for the member. *)
Record configured cr (a : ScopedVirtualAddr) now (m : MemberId) (e : EndpointId) : Prop := {
  cf_address : address_bound cr m a now;
  cf_one_member : forall m', address_bound cr m' a now -> m' = m;
  cf_endpoint : endpoint_bound cr m e now;
  cf_valid : endpoint_id_valid (EndpointId_as_bytes e) = true;
  cf_one_endpoint : forall e', endpoint_bound cr m e' now -> e' = e;
}.
Lemma one_endpoint config cr m e now :
  snapshot_parses (vc_inner config) cr ->
  (es ← bound_endpoints m now (cfg_endpoint_bindings (vc_inner config));
   match dedup (merge_sort endpoint_le es) with [endpoint] => Ok endpoint | _ => Err NotAuthorized end) = Ok e <->
  endpoint_bound cr m e now /\ endpoint_id_valid (EndpointId_as_bytes e) = true /\
  forall e', endpoint_bound cr m e' now -> e' = e.
Proof.
  intros Hp; set (ids := omap (fun b => if bool_decide (eb_member_id (payload b) = m) && (now <? eb_expires_at_ms (payload b))
                   then Some (eb_endpoint_id (payload b)) else None) (cr_endpoints cr)).
  assert (Hids : forall e', EndpointId_as_bytes e' ∈ ids <-> endpoint_bound cr m e' now).
  { intros e'; unfold ids; rewrite list_elem_of_omap; unfold endpoint_bound; split.
    - intros (b & Hb & Hm); destruct (_ && _) eqn:Hg in Hm; [|done]; bool_inv; injection Hm as Hm; by exists b.
    - intros (b & Hb & <- & <- & Hx); exists b; by rewrite bool_decide_true, (proj2 (Z.ltb_lt _ _)). }
  rewrite bind_Ok; setoid_rewrite (bound_endpoints_Ok _ _ _ _ _ (sp_endpoints _ _ Hp)); fold ids; split.
  - intros (es & [Hes Hv] & Hd); destruct (dedup _) as [|x [|]] eqn:Hd' in Hd; [done| |done]; apply Ok_inj in Hd as ->.
    apply dedup_singleton in Hd' as [Hne Hall]; rewrite Forall_forall in Hv.
    assert (Hin : forall e', e' ∈ es <-> endpoint_bound cr m e' now).
    { intros e'; rewrite <- Hids, <- Hes; split; [apply list_elem_of_fmap_2|].
      intros ([x] & Hx & Hin)%list_elem_of_fmap; destruct e'; cbn in Hx; by subst. }
    assert (He : e ∈ es) by (destruct es as [|x es]; [done|]; rewrite <- (Hall x); set_solver).
    split_and!; [by apply Hin | auto | intros e' He'%Hin; auto].
  - intros (He & Hv & Hu); exists (mkEndpointId <$> ids).
    assert (Hall : forall x, x ∈ mkEndpointId <$> ids -> x = e).
    { intros x (y & -> & Hy)%list_elem_of_fmap; apply Hu, Hids, Hy. }
    split; [split|].
    + rewrite <- list_fmap_compose; apply list_fmap_id.
    + apply Forall_forall; intros x Hx; by rewrite (Hall x Hx).
    + rewrite (proj2 (dedup_singleton endpoint_le _ e)); [done|]; split; [|done].
      intros Hn; apply fmap_nil_inv in Hn; apply Hids in He; rewrite Hn in He; set_solver.
Qed.
Lemma configured_endpoint_Ok config cr a now e :
  snapshot_parses (vc_inner config) cr ->
  configured_endpoint config a now = Ok e <-> exists m, configured cr a now m e.
Proof.
  intros Hp; unfold configured_endpoint; destruct (bound_members_Ok config cr a now Hp) as (ms & -> & Hms); cbn [mbind result_bind].
  assert (Hone : forall m, dedup (merge_sort member_le ms) = [m] <-> address_bound cr m a now /\ forall m', address_bound cr m' a now -> m' = m).
  { intros m; rewrite dedup_singleton; setoid_rewrite Hms; split; [|intros [Hm Hu]; split; [intros ->; by apply Hms, not_elem_of_nil in Hm | done]].
    intros [Hne Hu]; destruct ms as [|x ms]; [done|]; split; [|done]; apply Hms; rewrite (Hu x); [set_solver | apply Hms; set_solver]. }
  split.
  - destruct (dedup _) as [|m [|]] eqn:Hd; [done| |done]; intros (? & ? & ?)%(one_endpoint _ cr); [|done].
    destruct (proj1 (Hone m) eq_refl); by exists m.
  - intros (m & []); rewrite (proj2 (Hone m)) by done; by apply (one_endpoint _ cr).
Qed.
End configured.

(** [configured_endpoint] succeeds exactly when the unexpired bindings of the validated
    configuration name one member for the address and one endpoint for that member; and any
    presence record accepted at that time for the address names the same endpoint, so live
    discovery cannot redirect an address. *)
Theorem configured_endpoint_agrees `{Ed25519} `{Blake3} `{Aead} `{Platform}
    (c : NetworkConfigV1) (root : NetworkRootPublic) (net : NetworkId) (validated now : Z) (config : ValidatedNetworkConfig)
    (cr : Credentials) (a : ScopedVirtualAddr) (e : EndpointId) :
  validate c root net validated = Ok config -> snapshot_parses c cr ->
  (configured_endpoint config a now = Ok e <-> exists m, configured cr a now m e) /\
  (configured_endpoint config a now = Ok e -> forall p r,
   Presence_open p config now = Ok r -> a ∈ pr_virtual_addrs r -> pr_endpoint_id r = e).
Proof.
  intros [-> _]%validate_Ok Hp; pose proof (configured_endpoint_Ok (mkValidated c) cr a now e Hp) as Hcf; split; [done|].
  intros (m & [])%Hcf p r (x & signed & sig & [])%(Presence_open_Ok _ (mkValidated c) cr); [|done]; intros Ha.
  rewrite Forall_forall in pa_addresses0; specialize (pa_addresses0 a Ha); apply cf_one_member0 in pa_addresses0 as Hm.
  apply cf_one_endpoint0; by rewrite <- Hm.
Qed.

(** A sealed presence record that serialises is parsed back exactly when its ciphertext
    leaves room for the 68 bytes around it; a larger one is refused by the reader although
    the writer accepted it. *)
Theorem presence_wire_bound (p : EncryptedPresenceRecord) (bs : bytes) :
  sealed_typed p -> Presence_to_bytes p = Ok bs ->
  Presence_from_bytes bs =
    if len (ep_ciphertext p) + PRESENCE_OVERHEAD <=? MAX_PRESENCE_WIRE then Ok p else Err PresenceTooLarge.
Proof.
  intros Ht Hb; pose proof (sealed_length _ _ Ht Hb) as Hl; destruct (_ <=? _) eqn:Hc; bool_inv.
  - apply sealed_parses; [done..|lia].
  - unfold Presence_from_bytes; by rewrite (proj2 (Z.ltb_lt _ _)) by lia.
Qed.

(** ** Concrete records *)
Module PresenceWitness.
Import Samples ValidateWitness.
#[local] Abbreviation config := (mkValidated snapshot).

Definition endpoint : EndpointId := mkEndpointId toy_endpoint.
Definition address : ScopedVirtualAddr := Server (ar_app_addr (payload registration)).
Definition candidates : list DiscoveryCandidate :=
  [CandidateIp (SocketV4 10 0 0 1 4433); CandidateIp (SocketV6 [65152; 0; 0; 0; 0; 0; 0; 1] 4433 0 3); CandidateRelay (bstr "https://relay")].
Definition sealed : EncryptedPresenceRecord := Eval vm_compute in
  match Presence_seal config toy_member endpoint [address] candidates 1 7 300 450 [Some (repeat Byte.x77 24)] with
  | Ok (p, _) => p | Err _ => mkEncryptedPresence 0 [] [] [] end.
Definition record : PresenceRecord := Eval vm_compute in
  mkPresenceRecord (cfg_network_id snapshot) 1 [address] (mc_member_id (payload mc)) endpoint (wire_candidate <$> candidates) 1 7 300 450.

Lemma sealed_ok :
  Presence_seal config toy_member endpoint [address] candidates 1 7 300 450 [Some (repeat Byte.x77 24)] = Ok (sealed, []).
Proof. vm_compute; reflexivity. Qed.
Lemma sealed_record_opens : Presence_open sealed config 320 = Ok record.
Proof. vm_compute; reflexivity. Qed.
Lemma snapshot_typed : config_typed snapshot.
Proof. constructor; cbn; repeat constructor; vm_compute; reflexivity. Qed.

Lemma accepted_presence_authentic_witness :
  exists cr m signed signature, snapshot_parses snapshot cr /\
    member_vouched (NetworkRootKey_public toy_root) toy_network 300 (revoked_set snapshot) (cr_admins cr) m /\
    presence_authentic config cr sealed record 320 m signed signature.
Proof. exact (accepted_presence_authentic _ _ _ _ _ _ _ _ snapshot_validates sealed_record_opens). Defined.

Lemma snapshot_validates_320 :
  validate snapshot (NetworkRootKey_public toy_root) toy_network 320 = Ok config.
Proof. vm_compute; reflexivity. Qed.
Lemma sealed_presence_opens_witness :
  exists m : MemberCertificate, mc_signing_public_key (payload m) = SigningKeypair_public_bytes toy_member /\
    to_bytes m ∈ cfg_members snapshot /\
    Presence_open sealed config 320 =
    Ok (mkPresenceRecord (cfg_network_id snapshot) 1 [address] (mc_member_id (payload m)) endpoint
          (wire_candidate <$> candidates) 1 7 300 450).
Proof.
  refine (sealed_presence_opens snapshot (NetworkRootKey_public toy_root) toy_network toy_member endpoint [address] candidates
    1 7 300 450 320 [Some (repeat Byte.x77 24)] [] sealed snapshot_typed snapshot_validates_320 eq_refl _ _ _
    eq_refl eq_refl eq_refl eq_refl sealed_ok _); [done | by repeat constructor | by repeat constructor | lia].
Defined.

Lemma configured_endpoint_agrees_witness : pr_endpoint_id record = endpoint.
Proof.
  refine (proj2 (configured_endpoint_agrees _ _ _ _ 320 _ credentials address endpoint snapshot_validates snapshot_credentials)
    _ sealed record sealed_record_opens _); [vm_compute; reflexivity | apply list_elem_of_here].
Defined.

Definition full : bytes := repeat Byte.x00 (Z.to_nat 16384).
Lemma full_len : len full = 16384.
Proof. unfold full, len; by rewrite repeat_length, Z2Nat.id. Qed.
#[local] Opaque full.
Definition oversized : EncryptedPresenceRecord := mkEncryptedPresence 1 (repeat Byte.x00 24) (repeat Byte.x00 24) full.
Lemma presence_wire_bound_witness :
  Presence_from_bytes (PRESENCE_MAGIC ++ to_be 8 1 ++ repeat Byte.x00 24 ++ repeat Byte.x00 24 ++ to_be 4 (len full) ++ full)
  = Err PresenceTooLarge.
Proof.
  rewrite (presence_wire_bound oversized); [unfold oversized; cbn [ep_ciphertext]; by rewrite full_len | done |].
  apply Presence_to_bytes_Ok; [done|]; unfold oversized; cbn [ep_ciphertext]; split; [by rewrite full_len | reflexivity].
Defined.
End PresenceWitness.
