(* ===== verification/Lan.v ===== *)
(** * weaver-discovery: protected discovery on the local network

    Models the mDNS part of [crates/weaver-discovery/src/lib.rs]: the rotating tags an
    endpoint announces itself with, the publisher and browser that keeps them current,
    and the observations it turns into addresses.  The mDNS library is external: every
    operation that starts a publisher takes what the library answered, and a running
    publisher is the announcement it was started with. *)

From S2P Require Import Prelude Wire Core SocketAddr Platform CertificateWire Certificates Symmetric Snapshot Presence.

(* weaver-discovery/src/lib.rs:33-33 LAN_SLOT_MS *)
Definition LAN_SLOT_MS : Z := 5 * 60 * 1000.
(* weaver-discovery/src/lib.rs:38-38 TAG_LEN *)
Definition TAG_LEN : nat := 16.

(** ** Tags *)
(* weaver-discovery/src/lib.rs:47-57 LanTag *)
Record LanTag : Type := LanTag_from_bytes { LanTag_as_bytes : bytes }.
#[global] Instance LanTag_eq_dec : EqDecision LanTag.
Proof. solve_decision. Defined.

(** [{byte:02x}] *)
Definition hex_byte (b : Byte.byte) : bytes := [digit_char (byte_val b / 16); digit_char (byte_val b mod 16)].
(** [u8::from_str_radix(text, 16)]: a leading plus sign is allowed before at least one digit. *)
Definition u8_from_hex (text : bytes) : option Z :=
  let ds := match text with
            | b :: (_ :: _) as rest => if decide (b = Byte.x2b) then rest else text
            | _ => text
            end in
  match ds with
  | [] => None
  | _ :: _ => match digits 16 ds with
              | (values, []) => if is_u8 (digits_value 16 values) then Some (digits_value 16 values) else None
              | _ => None
              end
  end.
(** [chunks_exact(2)] *)
Fixpoint pairs (bs : bytes) : list bytes :=
  match bs with a :: b :: rest => [a; b] :: pairs rest | _ => [] end.

(* weaver-discovery/src/lib.rs:59-67 LanTag::txt_value *)
Definition LanTag_txt_value (tag : LanTag) : bytes := bstr "t=" ++ concat (hex_byte <$> LanTag_as_bytes tag).
(* weaver-discovery/src/lib.rs:69-83 LanTag::from_txt *)
Definition LanTag_from_txt (value : bytes) : result DiscoveryError LanTag :=
  hex ← strip_prefix (bstr "t=") value ?? MalformedTag;
  fail_if (negb (Nat.eqb (length hex) (TAG_LEN * 2))) MalformedTag;;
  tag ← try_map (fun pair =>
    fail_if (negb (is_utf8 pair)) MalformedTag;;
    byte ← u8_from_hex pair ?? MalformedTag;
    Ok (byte_of_Z byte)) (pairs hex);
  Ok (LanTag_from_bytes tag).
(* weaver-discovery/src/lib.rs:542-544 tag_hex *)
Definition tag_hex (tag : LanTag) : bytes := drop 2 (LanTag_txt_value tag).

(** ** Who may be behind a tag *)
(* weaver-discovery/src/lib.rs:86-92 ProtectedLanDiscovery *)
Record ProtectedLanDiscovery : Type := mkProtected {
  pl_network_id : NetworkId;
  pl_epoch : Z;
  pl_seed : bytes;
  pl_known_endpoints : list EndpointId;
}.

Section tags.
Context `{Blake3} `{Platform}.

(* weaver-discovery/src/lib.rs:95-112 ProtectedLanDiscovery::from_config *)
Definition Protected_from_config (config : ValidatedNetworkConfig) : result DiscoveryError ProtectedLanDiscovery :=
  let snapshot := vc_inner config in
  known_endpoints ← try_map (fun raw =>
    binding ← map_err DiscCrypto (EndpointBinding_from_bytes raw);
    EndpointId_from_bytes (eb_endpoint_id (payload binding)) ?? MalformedEndpoint) (cfg_endpoint_bindings snapshot);
  Ok (mkProtected (cfg_network_id snapshot) (cfg_epoch snapshot) (lan_discovery_seed (cfg_epoch_secrets snapshot)) known_endpoints).
(* weaver-discovery/src/lib.rs:136-146 ProtectedLanDiscovery::tag_for_slot *)
Definition tag_for_slot (p : ProtectedLanDiscovery) (endpoint : EndpointId) (slot : Z) : LanTag :=
  LanTag_from_bytes (take TAG_LEN (keyed_hash (pl_seed p)
    (bstr "weaver.lan-tag.v1" ++ [Byte.x00] ++ NetworkId_as_bytes (pl_network_id p) ++ to_be 8 (pl_epoch p)
     ++ to_be 8 slot ++ EndpointId_as_bytes endpoint))).
(* weaver-discovery/src/lib.rs:114-116 ProtectedLanDiscovery::tag_for *)
Definition tag_for (p : ProtectedLanDiscovery) (endpoint : EndpointId) (now_ms : Z) : LanTag :=
  tag_for_slot p endpoint (now_ms / LAN_SLOT_MS).
(* weaver-discovery/src/lib.rs:118-120 ProtectedLanDiscovery::txt_records *)
Definition txt_records (p : ProtectedLanDiscovery) (endpoint : EndpointId) (now_ms : Z) : bytes * bytes :=
  (bstr "v=1", LanTag_txt_value (tag_for p endpoint now_ms)).
(* weaver-discovery/src/lib.rs:122-134 ProtectedLanDiscovery::match_tag *)
Definition match_tag (p : ProtectedLanDiscovery) (tag : LanTag) (now_ms : Z) : option EndpointId :=
  let current := now_ms / LAN_SLOT_MS in
  let slots := [saturating_sub current 1; current; saturating_add current 1] in
  List.find (fun endpoint => existsb (fun slot => bool_decide (tag_for_slot p endpoint slot = tag)) slots)
    (pl_known_endpoints p).
End tags.

(** ** Observations *)
(* weaver-discovery/src/lib.rs:149-154 LanObservation *)
Record LanObservation : Type := mkLanObservation {
  lo_endpoint_id : EndpointId;
  lo_addresses : list SocketAddr;
  lo_expired : bool;
}.
(** What the mDNS library reports about a peer. *)
Record Peer : Type := mkPeer {
  peer_txt_attribute : bytes -> option (option bytes);
  peer_addrs : list (IpAddr * Z);
  peer_is_expiry : bool;
}.
(** What a publisher announces, and whom its browser recognises. *)
(* weaver-discovery/src/lib.rs:495-502 spawn_mdns_guard *)
Record Announcement : Type := mkAnnouncement {
  an_peer_id : bytes;
  an_port : Z;
  an_addresses : list IpAddr;
  an_multicast_v4 : list IpAddr;
  an_txt : list (bytes * bytes);
  an_protected : ProtectedLanDiscovery;
}.

Section observations.
Context `{Blake3} `{Platform}.

(* weaver-discovery/src/lib.rs:519-540 protected_observation *)
Definition protected_observation (p : ProtectedLanDiscovery) (peer_id : bytes) (peer : Peer) (now_ms : Z)
    : option LanObservation :=
  if negb (bool_decide (peer_txt_attribute peer (bstr "v") = Some (Some (bstr "1")))) then None
  else
    t ← mjoin (peer_txt_attribute peer (bstr "t"));
    if negb (bool_decide (t = peer_id)) then None
    else
      match LanTag_from_txt (bstr "t=" ++ peer_id) with
      | Err _ => None
      | Ok tag =>
          endpoint_id ← match_tag p tag now_ms;
          Some (mkLanObservation endpoint_id ((fun '(ip, port) => SocketAddr_new ip port) <$> peer_addrs peer) (peer_is_expiry peer))
      end.
(** The callback of a running browser. *)
(* weaver-discovery/src/lib.rs:504-509 spawn_mdns_guard *)
Definition guard_callback (g : Announcement) (peer_id : bytes) (peer : Peer) (now_ms : Z) : option LanObservation :=
  if decide (peer_id = an_peer_id g) then None else protected_observation (an_protected g) peer_id peer now_ms.

(** [answer] is what the mDNS library replied to the TXT attributes and to the start. *)
(* weaver-discovery/src/lib.rs:475-517 spawn_mdns_guard *)
Definition spawn_mdns_guard (p : ProtectedLanDiscovery) (local_endpoint : EndpointId) (port : Z) (addresses : list IpAddr)
    (now_ms : Z) (answer : result bytes unit) : result DiscoveryError Announcement :=
  let tag := tag_for p local_endpoint now_ms in
  let peer_id := tag_hex tag in
  let multicast := List.filter (fun ip => match ip with IpV4 _ _ _ _ => true | IpV6 _ => false end) addresses in
  map_err DiscBackend answer;;
  Ok (mkAnnouncement peer_id port addresses multicast
        [(bstr "v", bstr "1"); (bstr "t", drop 2 (LanTag_txt_value tag))] p).
End observations.

(** ** The publisher *)
(** The channel between the callback and [recv] holds at most 128 observations. *)
(* weaver-discovery/src/lib.rs:156-168 MdnsLanDiscovery *)
Record MdnsLanDiscovery : Type := mkMdns {
  md_protected : ProtectedLanDiscovery;
  md_local_endpoint : EndpointId;
  md_port : Z;
  md_addresses : list IpAddr;
  md_slot : Z;
  md_queue : list LanObservation;
  md_guard : Announcement;
}.

Section publisher.
Context `{Blake3} `{Platform}.
Implicit Types (m : MdnsLanDiscovery) (now_ms : Z) (answer : result bytes unit).

(* weaver-discovery/src/lib.rs:183-212 MdnsLanDiscovery::spawn *)
Definition Mdns_spawn (p : ProtectedLanDiscovery) (local_endpoint : EndpointId) (port : Z) (addresses : list IpAddr)
    now_ms answer : result DiscoveryError MdnsLanDiscovery :=
  guard ← spawn_mdns_guard p local_endpoint port addresses now_ms answer;
  Ok (mkMdns p local_endpoint port addresses (now_ms / LAN_SLOT_MS) [] guard).
(** [sender.try_send(observation)] and [receiver.recv()] *)
(* weaver-discovery/src/lib.rs:508-513 spawn_mdns_guard *)
Definition Mdns_callback m (peer_id : bytes) (peer : Peer) now_ms : MdnsLanDiscovery :=
  match guard_callback (md_guard m) peer_id peer now_ms with
  | Some observation =>
      if Nat.ltb (length (md_queue m)) 128 then
        mkMdns (md_protected m) (md_local_endpoint m) (md_port m) (md_addresses m) (md_slot m)
          (md_queue m ++ [observation]) (md_guard m)
      else m
  | None => m
  end.
(* weaver-discovery/src/lib.rs:214-216 MdnsLanDiscovery::recv *)
Definition Mdns_recv m : MdnsLanDiscovery * option LanObservation :=
  match md_queue m with
  | [] => (m, None)
  | observation :: rest =>
      (mkMdns (md_protected m) (md_local_endpoint m) (md_port m) (md_addresses m) (md_slot m) rest (md_guard m), Some observation)
  end.
(* weaver-discovery/src/lib.rs:219-240 MdnsLanDiscovery::refresh_tag *)
Definition refresh_tag m now_ms answer : MdnsLanDiscovery * result DiscoveryError bool :=
  let slot := now_ms / LAN_SLOT_MS in
  if slot =? md_slot m then (m, Ok false)
  else match spawn_mdns_guard (md_protected m) (md_local_endpoint m) (md_port m) (md_addresses m) now_ms answer with
  | Err e => (m, Err e)
  | Ok next => (mkMdns (md_protected m) (md_local_endpoint m) (md_port m) (md_addresses m) slot (md_queue m) next, Ok true)
  end.
(** [guard.remove_all(); guard.add(port, addresses)] changes what the running publisher announces. *)
(* weaver-discovery/src/lib.rs:243-248 MdnsLanDiscovery::replace_addresses *)
Definition replace_addresses m (port : Z) (addresses : list IpAddr) : MdnsLanDiscovery :=
  let g := md_guard m in
  mkMdns (md_protected m) (md_local_endpoint m) port addresses (md_slot m) (md_queue m)
    (mkAnnouncement (an_peer_id g) port addresses (an_multicast_v4 g) (an_txt g) (an_protected g)).
(* weaver-discovery/src/lib.rs:253-274 MdnsLanDiscovery::rebind_addresses *)
Definition rebind_addresses m (port : Z) (addresses : list IpAddr) now_ms answer : MdnsLanDiscovery * result DiscoveryError unit :=
  match spawn_mdns_guard (md_protected m) (md_local_endpoint m) port addresses now_ms answer with
  | Err e => (m, Err e)
  | Ok next => (mkMdns (md_protected m) (md_local_endpoint m) port addresses (now_ms / LAN_SLOT_MS) (md_queue m) next, Ok tt)
  end.
(* weaver-discovery/src/lib.rs:277-299 MdnsLanDiscovery::replace_protection *)
Definition replace_protection m (p : ProtectedLanDiscovery) now_ms answer : MdnsLanDiscovery * result DiscoveryError unit :=
  if negb (bool_decide (pl_network_id p = pl_network_id (md_protected m))) then (m, Err DiscWrongNetwork)
  else match spawn_mdns_guard p (md_local_endpoint m) (md_port m) (md_addresses m) now_ms answer with
  | Err e => (m, Err e)
  | Ok next => (mkMdns p (md_local_endpoint m) (md_port m) (md_addresses m) (now_ms / LAN_SLOT_MS) (md_queue m) next, Ok tt)
  end.

(** ** Local addresses *)
(** A network interface as the operating system reports it. *)
Record Interface : Type := mkInterface { if_up : bool; if_loopback : bool; if_addrs : list IpAddr }.
(* weaver-discovery/src/lib.rs:443-453 current_interface_addresses *)
Definition current_interface_addresses (interfaces : list Interface) : list IpAddr :=
  dedup (merge_sort ip_le
    (List.filter (fun ip => negb (ip_is_unspecified ip) && negb (ip_is_multicast ip))
      (interface ← List.filter (fun i => if_up i && negb (if_loopback i)) interfaces; if_addrs interface))).
(* weaver-discovery/src/lib.rs:455-473 update_mdns_addresses *)
Definition update_mdns_addresses m (data : list TransportAddr) now_ms answer : MdnsLanDiscovery * result DiscoveryError unit :=
  match ip_addrs data with
  | [] => (m, Ok tt)
  | first :: rest =>
      let port := socket_port first in
      let ips := socket_ip first :: (socket_ip <$> List.filter (fun a => socket_port a =? port) rest) in
      rebind_addresses m port (dedup (merge_sort ip_le ips)) now_ms answer
  end.
End publisher.
