(* ===== verification/Directory.v ===== *)
(** * weaver-discovery: the address lookup and the presence directory

    Models the stateful part of [crates/weaver-discovery/src/lib.rs]: the live lookup
    that merges addresses seen on the local network with addresses from presence records,
    the cache of accepted records, the directory that feeds one from the other, and the
    background task that keeps local discovery running.  A [watch] channel is its current
    value; the [broadcast] channel of updates is the sequence of updates sent. *)

From S2P Require Import Prelude Wire Core SocketAddr Platform CertificateWire Certificates Symmetric Snapshot Presence Lan.

(** ** The address lookup *)
(* weaver-discovery/src/lib.rs:562-567 LookupEntry *)
Record LookupEntry : Type := mkLookupEntry {
  le_lan : option (list SocketAddr);
  le_presence : option (list TransportAddr);
  le_sender : option (list TransportAddr);
}.
(* weaver-discovery/src/lib.rs:606-610 AddressLookupSource *)
Inductive AddressLookupSource : Type := ProtectedLan | EncryptedPresence.
(* weaver-discovery/src/lib.rs:612-618 AddressLookupUpdate *)
Record AddressLookupUpdate : Type := mkUpdate {
  up_endpoint_id : EndpointId; up_source : AddressLookupSource; up_expired : bool; up_candidate_count : Z }.
(* weaver-discovery/src/lib.rs:598-604 WeaverAddressLookup *)
Record WeaverAddressLookup : Type := mkLookup {
  lk_network_id : NetworkId;
  lk_entries : gmap EndpointId LookupEntry;
  lk_publications : option (list TransportAddr);
  lk_updates : list AddressLookupUpdate;
}.

Section lookup.
Context `{Platform}.
Implicit Types (l : WeaverAddressLookup).

(* weaver-discovery/src/lib.rs:570-577 LookupEntry::new *)
Definition LookupEntry_new : LookupEntry := mkLookupEntry None None None.
(* weaver-discovery/src/lib.rs:579-590 LookupEntry::publish_merged *)
Definition publish_merged (entry : LookupEntry) : LookupEntry :=
  let transports := (TransportIp <$> default [] (le_lan entry)) ++ default [] (le_presence entry) in
  mkLookupEntry (le_lan entry) (le_presence entry)
    (if bool_decide (transports = []) then None else Some (endpoint_data transports)).
(* weaver-discovery/src/lib.rs:621-630 WeaverAddressLookup::new *)
Definition Lookup_new (network_id : NetworkId) : WeaverAddressLookup := mkLookup network_id ∅ None [].

(** [entries.entry(id).or_insert_with(LookupEntry::new)] *)
Definition entry_of l (endpoint_id : EndpointId) : LookupEntry := default LookupEntry_new (lk_entries l !! endpoint_id).
(** Storing the entry back and sending the update. *)
Definition with_entry l (endpoint_id : EndpointId) (entry : LookupEntry) (update : AddressLookupUpdate) : WeaverAddressLookup :=
  mkLookup (lk_network_id l) (<[endpoint_id := entry]> (lk_entries l)) (lk_publications l) (lk_updates l ++ [update]).
(* weaver-discovery/src/lib.rs:647-665 WeaverAddressLookup::apply_lan_observation *)
Definition apply_lan_observation l (o : LanObservation) : WeaverAddressLookup :=
  let update := mkUpdate (lo_endpoint_id o) ProtectedLan (lo_expired o) (len (lo_addresses o)) in
  let entry := entry_of l (lo_endpoint_id o) in
  let lan := if lo_expired o || bool_decide (lo_addresses o = []) then None else Some (lo_addresses o) in
  with_entry l (lo_endpoint_id o) (publish_merged (mkLookupEntry lan (le_presence entry) (le_sender entry))) update.
(* weaver-discovery/src/lib.rs:672-682 WeaverAddressLookup::apply_presence *)
Definition candidate_transport (c : DiscoveryCandidate) : result DiscoveryError TransportAddr :=
  match c with
  | CandidateIp address => Ok (TransportIp address)
  | CandidateRelay url => url ← relay_url_parse url ?? InvalidPresence; Ok (TransportRelay url)
  end.
(* weaver-discovery/src/lib.rs:668-696 WeaverAddressLookup::apply_presence *)
Definition apply_presence l (r : PresenceRecord) : WeaverAddressLookup * result DiscoveryError unit :=
  if negb (bool_decide (pr_network_id r = lk_network_id l)) then (l, Err DiscWrongNetwork)
  else match try_map candidate_transport (pr_candidates r) with
  | Err e => (l, Err e)
  | Ok transports =>
      let entry := entry_of l (pr_endpoint_id r) in
      let presence := if bool_decide (transports = []) then None else Some transports in
      (with_entry l (pr_endpoint_id r) (publish_merged (mkLookupEntry (le_lan entry) presence (le_sender entry)))
         (mkUpdate (pr_endpoint_id r) EncryptedPresence false (len (pr_candidates r))), Ok tt)
  end.
(* weaver-discovery/src/lib.rs:698-710 WeaverAddressLookup::clear_presence *)
Definition clear_presence l (endpoint_id : EndpointId) : WeaverAddressLookup :=
  match lk_entries l !! endpoint_id with
  | Some entry =>
      with_entry l endpoint_id (publish_merged (mkLookupEntry (le_lan entry) None (le_sender entry)))
        (mkUpdate endpoint_id EncryptedPresence true 0)
  | None => l
  end.
(* weaver-discovery/src/lib.rs:714-716 WeaverAddressLookup::publish *)
Definition Lookup_publish l (data : list TransportAddr) : WeaverAddressLookup :=
  mkLookup (lk_network_id l) (lk_entries l) (Some data) (lk_updates l).
(** The stream starts with the current value and follows the entry from then on. *)
(* weaver-discovery/src/lib.rs:718-740 WeaverAddressLookup::resolve *)
Definition Lookup_resolve l (endpoint_id : EndpointId) : WeaverAddressLookup * option (EndpointId * list TransportAddr) :=
  let entry := entry_of l endpoint_id in
  (mkLookup (lk_network_id l) (<[endpoint_id := entry]> (lk_entries l)) (lk_publications l) (lk_updates l),
   (fun data => (endpoint_id, data)) <$> le_sender entry).
End lookup.

(** ** The cache of accepted records *)
(* weaver-discovery/src/lib.rs:979-983 PresenceCache *)
Record PresenceCache : Type := mkCache {
  pc_records : gmap (NetworkId * ScopedVirtualAddr) PresenceRecord;
  pc_endpoint_records : gmap (NetworkId * EndpointId) PresenceRecord;
}.
Definition Cache_empty : PresenceCache := mkCache ∅ ∅.

(** [insert] and [remove] of one key per address *)
Definition insert_all (r : PresenceRecord) (m : gmap (NetworkId * ScopedVirtualAddr) PresenceRecord) :=
  foldl (fun m a => <[(pr_network_id r, a) := r]> m) m (pr_virtual_addrs r).
Definition remove_all (r : PresenceRecord) (m : gmap (NetworkId * ScopedVirtualAddr) PresenceRecord) :=
  foldl (fun m a => delete (pr_network_id r, a) m) m (pr_virtual_addrs r).
(* weaver-discovery/src/lib.rs:986-1015 PresenceCache::apply *)
Definition Cache_apply (c : PresenceCache) (r : PresenceRecord) : PresenceCache * result DiscoveryError bool :=
  let endpoint_key := (pr_network_id r, pr_endpoint_id r) in
  let current := pc_endpoint_records c !! endpoint_key in
  if match current with
     | Some cur => (pr_sequence r <? pr_sequence cur) || ((pr_sequence r =? pr_sequence cur) && negb (bool_decide (r = cur)))
     | None => false
     end then (c, Err Rollback)
  else if bool_decide (current = Some r) then (c, Ok false)
  else if existsb (fun a => match pc_records c !! (pr_network_id r, a) with
                            | Some cur => negb (bool_decide (pr_endpoint_id cur = pr_endpoint_id r))
                            | None => false
                            end) (pr_virtual_addrs r) then (c, Err InvalidPresence)
  else
    let records := match current with Some previous => remove_all previous (pc_records c) | None => pc_records c end in
    (mkCache (insert_all r records) (<[endpoint_key := r]> (pc_endpoint_records c)), Ok true).
(* weaver-discovery/src/lib.rs:1017-1026 PresenceCache::get *)
Definition Cache_get (c : PresenceCache) (network_id : NetworkId) (a : ScopedVirtualAddr) (now_ms : Z) : option PresenceRecord :=
  r ← pc_records c !! (network_id, a);
  if now_ms <? pr_expires_at_ms r then Some r else None.
(** [HashMap] iterates in no fixed order; the model lists the removed endpoints in the order of the map. *)
(* weaver-discovery/src/lib.rs:1028-1040 PresenceCache::purge_expired *)
Definition Cache_purge_expired (c : PresenceCache) (now_ms : Z) : PresenceCache * list EndpointId :=
  (mkCache (filter (fun kr => now_ms < pr_expires_at_ms kr.2) (pc_records c))
     (filter (fun kr => now_ms < pr_expires_at_ms kr.2) (pc_endpoint_records c)),
   (fun kr => kr.1.2) <$> List.filter (fun kr => pr_expires_at_ms kr.2 <=? now_ms) (map_to_list (pc_endpoint_records c))).
(* weaver-discovery/src/lib.rs:1042-1046 PresenceCache::contains_endpoint *)
Definition contains_endpoint (c : PresenceCache) (endpoint_id : EndpointId) : bool :=
  existsb (fun kr => bool_decide (kr.1.2 = endpoint_id)) (map_to_list (pc_endpoint_records c)).

(** ** The directory *)
(* weaver-discovery/src/lib.rs:1049-1055 PresenceDirectory *)
Record PresenceDirectory : Type := mkDirectory {
  dir_network_id : NetworkId;
  dir_cache : PresenceCache;
  dir_lookup : WeaverAddressLookup;
}.

Section directory.
Context `{Ed25519} `{Blake3} `{Aead} `{Platform}.
Implicit Types (d : PresenceDirectory) (config : ValidatedNetworkConfig) (now_ms : Z).

(** [None] is the panic of the assertion. *)
(* weaver-discovery/src/lib.rs:1058-1069 PresenceDirectory::new *)
Definition Directory_new (network_id : NetworkId) (lookup : WeaverAddressLookup) : option PresenceDirectory :=
  if decide (lk_network_id lookup = network_id) then Some (mkDirectory network_id Cache_empty lookup) else None.
(* weaver-discovery/src/lib.rs:1077-1093 PresenceDirectory::apply_encrypted *)
Definition apply_encrypted d config (encrypted : EncryptedPresenceRecord) now_ms : PresenceDirectory * result DiscoveryError bool :=
  if negb (bool_decide (cfg_network_id (vc_inner config) = dir_network_id d)) then (d, Err DiscWrongNetwork)
  else match Presence_open encrypted config now_ms with
  | Err e => (d, Err e)
  | Ok record =>
      match Cache_apply (dir_cache d) record with
      | (cache, Err e) => (mkDirectory (dir_network_id d) cache (dir_lookup d), Err e)
      | (cache, Ok false) => (mkDirectory (dir_network_id d) cache (dir_lookup d), Ok false)
      | (cache, Ok true) =>
          let '(lookup, r) := apply_presence (dir_lookup d) record in
          (mkDirectory (dir_network_id d) cache lookup, match r with Ok _ => Ok true | Err e => Err e end)
      end
  end.
(* weaver-discovery/src/lib.rs:1095-1101 PresenceDirectory::resolve *)
Definition Directory_resolve d (address : ScopedVirtualAddr) now_ms : option EndpointId :=
  pr_endpoint_id <$> Cache_get (dir_cache d) (dir_network_id d) address now_ms.
(* weaver-discovery/src/lib.rs:1106-1116 PresenceDirectory::configured_endpoint *)
Definition Directory_configured_endpoint d config (address : ScopedVirtualAddr) now_ms : result DiscoveryError EndpointId :=
  fail_if (negb (bool_decide (cfg_network_id (vc_inner config) = dir_network_id d))) DiscWrongNetwork;;
  configured_endpoint config address now_ms.
(* weaver-discovery/src/lib.rs:1118-1126 PresenceDirectory::purge_expired *)
Definition Directory_purge_expired d now_ms : PresenceDirectory :=
  let '(cache, removed) := Cache_purge_expired (dir_cache d) now_ms in
  mkDirectory (dir_network_id d) cache
    (foldl (fun lookup e => if contains_endpoint cache e then lookup else clear_presence lookup e) (dir_lookup d) removed).
End directory.

(** ** The background task *)
(* weaver-discovery/src/lib.rs:343-347 LanDiscoveryCommand *)
Inductive LanDiscoveryCommand : Type := NetworkChange | UpdateProtection (protected : ProtectedLanDiscovery).
(** What wakes the task up, with the clock, the interfaces and the answer of the mDNS
    library it meets on the way. *)
Inductive LanEvent : Type :=
| PeerSeen (peer_id : bytes) (peer : Peer) (now_ms : Z)
| ObservationReady
| Published (data : list TransportAddr) (now_ms : Z) (answer : result bytes unit)
| Command (command : LanDiscoveryCommand) (interfaces : list Interface) (now_ms : Z) (answer : result bytes unit)
| RotationTick (now_ms : Z) (answer : result bytes unit)
| Stop.
Record LanRuntime : Type := mkLanRuntime { lr_mdns : MdnsLanDiscovery; lr_lookup : WeaverAddressLookup; lr_running : bool }.

Section runtime.
Context `{Blake3} `{Platform}.
(** One turn of the [select!] loop; the errors of the publisher are dropped. *)
(* weaver-discovery/src/lib.rs:387-434 spawn_lan_discovery_runtime *)
Definition lan_step (rt : LanRuntime) (ev : LanEvent) : LanRuntime :=
  if negb (lr_running rt) then rt
  else match ev with
  | PeerSeen peer_id peer now_ms => mkLanRuntime (Mdns_callback (lr_mdns rt) peer_id peer now_ms) (lr_lookup rt) true
  | ObservationReady =>
      match Mdns_recv (lr_mdns rt) with
      | (mdns, Some observation) => mkLanRuntime mdns (apply_lan_observation (lr_lookup rt) observation) true
      | (mdns, None) => mkLanRuntime mdns (lr_lookup rt) true
      end
  | Published data now_ms answer => mkLanRuntime (update_mdns_addresses (lr_mdns rt) data now_ms answer).1 (lr_lookup rt) true
  | Command NetworkChange interfaces now_ms answer =>
      let addresses := current_interface_addresses interfaces in
      if bool_decide (addresses = []) then rt
      else mkLanRuntime (rebind_addresses (lr_mdns rt) (md_port (lr_mdns rt)) addresses now_ms answer).1 (lr_lookup rt) true
  | Command (UpdateProtection protected) _ now_ms answer =>
      mkLanRuntime (replace_protection (lr_mdns rt) protected now_ms answer).1 (lr_lookup rt) true
  | RotationTick now_ms answer => mkLanRuntime (refresh_tag (lr_mdns rt) now_ms answer).1 (lr_lookup rt) true
  | Stop => mkLanRuntime (lr_mdns rt) (lr_lookup rt) false
  end.
(* weaver-discovery/src/lib.rs:381-384 spawn_lan_discovery_runtime *)
Definition lan_start (mdns : MdnsLanDiscovery) (lookup : WeaverAddressLookup) (now_ms : Z) (answer : result bytes unit) : LanRuntime :=
  match lk_publications lookup with
  | Some data => mkLanRuntime (update_mdns_addresses mdns data now_ms answer).1 lookup true
  | None => mkLanRuntime mdns lookup true
  end.
Definition lan_run : LanRuntime -> list LanEvent -> LanRuntime := foldl lan_step.
End runtime.
