(* ===== verification/LanFacts.v ===== *)
(** * Properties of local discovery

    A tag survives its text form; an endpoint that announces itself is recognised by
    every member whose clock is at most one slot away; and the background task keeps
    the announcement in step with its own state whatever happens. *)

From S2P Require Import Prelude Wire Core SocketAddr Platform CertificateWire Certificates Symmetric ToyCrypto Snapshot Presence Lan Directory.

(** ** Tags as text *)
Lemma u8_from_hex_byte b : u8_from_hex (hex_byte b) = Some (byte_val b).
Proof. destruct b; vm_compute; reflexivity. Qed.
Lemma hex_byte_ascii b : is_utf8 (hex_byte b) = true.
Proof. destruct b; vm_compute; reflexivity. Qed.
Lemma pairs_hex bs : pairs (concat (hex_byte <$> bs)) = hex_byte <$> bs.
Proof. induction bs as [|b bs IH]; [done|]; cbn [fmap list_fmap concat]; unfold hex_byte at 1; cbn [app pairs]; by rewrite IH. Qed.
Lemma length_hex bs : length (concat (hex_byte <$> bs)) = (2 * length bs)%nat.
Proof. induction bs as [|b bs IH]; [done|]; cbn [fmap list_fmap concat]; rewrite length_app, IH; cbn; lia. Qed.

Lemma tag_text_round_trip tag : length (LanTag_as_bytes tag) = TAG_LEN -> LanTag_from_txt (LanTag_txt_value tag) = Ok tag.
Proof.
  destruct tag as [bs]; cbn [LanTag_as_bytes]; intros Hl; unfold LanTag_from_txt, LanTag_txt_value; cbn [LanTag_as_bytes].
  rewrite strip_prefix_app; cbn [ok_or mbind result_bind]; rewrite length_hex, Hl; cbn [negb Nat.eqb Nat.mul fail_if mbind result_bind].
  rewrite pairs_hex, (proj2 (try_map_Ok _ _ bs)); [done|].
  clear; induction bs as [|b bs IH]; constructor; [|done].
  rewrite hex_byte_ascii; cbn [negb fail_if mbind result_bind]; rewrite u8_from_hex_byte; cbn; by rewrite byte_of_val.
Qed.
Lemma txt_value_hex tag : LanTag_txt_value tag = bstr "t=" ++ tag_hex tag.
Proof. reflexivity. Qed.

Section recognition.
Context `{Blake3Laws} `{Platform}.

Lemma tag_length p e slot : length (LanTag_as_bytes (tag_for_slot p e slot)) = TAG_LEN.
Proof. cbn; rewrite length_take, keyed_hash_len; done. Qed.

(** The slots a reader accepts at [now]. *)
Definition slot_near (slot now : Z) : Prop := now / LAN_SLOT_MS - 1 <= slot <= now / LAN_SLOT_MS + 1.

Lemma slot_bounds now : is_u64 now = true -> 0 <= now / LAN_SLOT_MS /\ now / LAN_SLOT_MS + 1 <= U64_MAX.
Proof.
  unfold in_range, U64_MAX; intros Hn; bool_inv; split; [apply Z.div_pos; unfold LAN_SLOT_MS; lia|].
  assert (now / LAN_SLOT_MS < 2 ^ 63) by (apply Z.div_lt_upper_bound; unfold LAN_SLOT_MS; lia); lia.
Qed.
Lemma near_slots slot now :
  is_u64 now = true -> 0 <= slot -> slot_near slot now ->
  slot ∈ [saturating_sub (now / LAN_SLOT_MS) 1; now / LAN_SLOT_MS; saturating_add (now / LAN_SLOT_MS) 1].
Proof.
  unfold slot_near; intros Hn%slot_bounds Hz Hs.
  unfold saturating_sub, saturating_add; rewrite !elem_of_cons.
  destruct (decide (slot = now / LAN_SLOT_MS)); [auto|]; destruct (decide (slot < now / LAN_SLOT_MS)); [left | right; right; left]; lia.
Qed.
Lemma match_tag_Some p tag now e :
  is_u64 now = true -> match_tag p tag now = Some e ->
  e ∈ pl_known_endpoints p /\ exists slot, 0 <= slot /\ slot_near slot now /\ tag_for_slot p e slot = tag.
Proof.
  unfold match_tag; intros Hn [Hin Hp]%find_some; apply list_elem_of_In in Hin; split; [done|].
  apply existsb_exists in Hp as (slot & Hs & Ht); bool_inv; exists slot; split_and!; [| |done];
    apply slot_bounds in Hn; unfold slot_near, saturating_sub, saturating_add in *; destruct Hs as [<-|[<-|[<-|[]]]]; lia.
Qed.
Lemma match_tag_known p e slot now :
  is_u64 now = true -> 0 <= slot -> slot_near slot now -> e ∈ pl_known_endpoints p ->
  exists e', match_tag p (tag_for_slot p e slot) now = Some e'.
Proof.
  intros Hn Hz Hs He; unfold match_tag; destruct (List.find _ _) as [e'|] eqn:Hf; [eauto|].
  eapply find_none in Hf; [|by apply list_elem_of_In]; cbv beta in Hf; rewrite <- not_true_iff_false, existsb_exists in Hf; destruct Hf.
  exists slot; split; [by apply list_elem_of_In, near_slots | by apply bool_decide_eq_true].
Qed.
End recognition.

(** ** The publisher *)
Section publisher.
Context `{Blake3} `{Platform}.

(** The running publisher announces the state of the component. *)
Record mdns_inv (net : NetworkId) (local : EndpointId) (m : MdnsLanDiscovery) : Prop := {
  mi_local : md_local_endpoint m = local;
  mi_network : pl_network_id (md_protected m) = net;
  mi_peer_id : an_peer_id (md_guard m) = tag_hex (tag_for_slot (md_protected m) local (md_slot m));
  mi_txt : an_txt (md_guard m) = [(bstr "v", bstr "1"); (bstr "t", an_peer_id (md_guard m))];
  mi_addresses : an_port (md_guard m) = md_port m /\ an_addresses (md_guard m) = md_addresses m;
  mi_protected : an_protected (md_guard m) = md_protected m;
  mi_queue : (length (md_queue m) <= 128)%nat;
}.

Lemma spawn_mdns_guard_Ok p e port addresses now answer g :
  spawn_mdns_guard p e port addresses now answer = Ok g ->
  an_peer_id g = tag_hex (tag_for_slot p e (now / LAN_SLOT_MS)) /\
  an_txt g = [(bstr "v", bstr "1"); (bstr "t", an_peer_id g)] /\ an_port g = port /\ an_addresses g = addresses /\
  an_protected g = p.
Proof. unfold spawn_mdns_guard; cbv zeta; intros (u & _ & <-%Ok_inj)%bind_Ok; done. Qed.

Lemma Mdns_spawn_inv p e port addresses now answer m :
  Mdns_spawn p e port addresses now answer = Ok m -> mdns_inv (pl_network_id p) e m.
Proof.
  unfold Mdns_spawn; intros (g & (? & ? & ? & ? & ?)%spawn_mdns_guard_Ok & <-%Ok_inj)%bind_Ok; constructor; cbn; try done; lia.
Qed.
Lemma rebind_inv net e m port addresses now answer :
  mdns_inv net e m -> mdns_inv net e (rebind_addresses m port addresses now answer).1.
Proof.
  intros Hm; unfold rebind_addresses; destruct (spawn_mdns_guard _ _ _ _ _ _) as [g|] eqn:Hg; [|done].
  apply spawn_mdns_guard_Ok in Hg as (? & ? & ? & ? & ?); destruct Hm as [<- ? ? ? ? ? ?]; by constructor.
Qed.
Lemma lan_step_inv net e rt ev : mdns_inv net e (lr_mdns rt) -> mdns_inv net e (lr_mdns (lan_step rt ev)).
Proof.
  intros Hm; unfold lan_step; destruct (negb _); [done|]; destruct ev as [id peer now| |data now answer|[|p] ifs now answer|now answer|]; cbn.
  - unfold Mdns_callback; destruct (guard_callback _ _ _ _); [|done]; destruct (Nat.ltb _ _) eqn:Hq; [|done].
    destruct Hm; constructor; cbn; try done; apply Nat.ltb_lt in Hq; rewrite length_app; cbn; lia.
  - unfold Mdns_recv; destruct (md_queue (lr_mdns rt)) as [|o q] eqn:Hq; [done|].
    destruct Hm; constructor; cbn; try done; rewrite Hq in *; cbn in *; lia.
  - unfold update_mdns_addresses; destruct (ip_addrs data); [done | by apply rebind_inv].
  - destruct (bool_decide _); [done | by apply rebind_inv].
  - unfold replace_protection; destruct (negb _) eqn:Hn; [done|]; bool_inv.
    destruct (spawn_mdns_guard _ _ _ _ _ _) as [g|] eqn:Hg; [|done].
    apply spawn_mdns_guard_Ok in Hg as (? & ? & ? & ? & ?); destruct Hm as [<- ? ? ? ? ? ?]; constructor; cbn; congruence || done.
  - unfold refresh_tag; destruct (_ =? _); [done|]; destruct (spawn_mdns_guard _ _ _ _ _ _) as [g|] eqn:Hg; [|done].
    apply spawn_mdns_guard_Ok in Hg as (? & ? & ? & ? & ?); destruct Hm as [<- ? ? ? ? ? ?]; by constructor.
  - done.
Qed.
Lemma lan_run_inv net e rt evs : mdns_inv net e (lr_mdns rt) -> mdns_inv net e (lr_mdns (lan_run rt evs)).
Proof. revert rt; induction evs as [|ev evs IH]; intros rt Hm; [done|]; by apply IH, lan_step_inv. Qed.
Lemma lan_start_inv net e m l now answer : mdns_inv net e m -> mdns_inv net e (lr_mdns (lan_start m l now answer)).
Proof.
  intros Hm; unfold lan_start; destruct (lk_publications l) as [data|]; [|done]; cbn.
  unfold update_mdns_addresses; destruct (ip_addrs data); [done | by apply rebind_inv].
Qed.
Lemma refresh_tag_current m now : md_slot (refresh_tag m now (Ok tt)).1 = now / LAN_SLOT_MS /\
  md_protected (refresh_tag m now (Ok tt)).1 = md_protected m /\ md_addresses (refresh_tag m now (Ok tt)).1 = md_addresses m /\
  md_port (refresh_tag m now (Ok tt)).1 = md_port m.
Proof. unfold refresh_tag; destruct (_ =? _) eqn:He; [bool_inv; by rewrite He | done]. Qed.
End publisher.

(** ** Theorems *)
(** The peer reports what the publisher [g] announces. *)
Definition announces (g : Announcement) (peer : Peer) : Prop :=
  (forall k v, (k, v) ∈ an_txt g -> peer_txt_attribute peer k = Some (Some v)) /\
  peer_addrs peer = (fun ip => (ip, an_port g)) <$> an_addresses g.
(** Two known endpoints with the same tag in slots a reader accepts at [now]. *)
Definition tag_collision `{Blake3} (p : ProtectedLanDiscovery) (e e' : EndpointId) (slot now : Z) : Prop :=
  e' <> e /\ e' ∈ pl_known_endpoints p /\
  exists slot', slot_near slot' now /\ tag_for_slot p e' slot' = tag_for_slot p e slot.

Lemma observation_of_announcement `{Blake3Laws} `{Platform} net local m g peer now :
  mdns_inv net local m -> an_protected g = md_protected m -> an_peer_id g <> an_peer_id (md_guard m) ->
  announces (md_guard m) peer -> is_u64 now = true -> 0 <= md_slot m -> slot_near (md_slot m) now ->
  local ∈ pl_known_endpoints (md_protected m) ->
  exists e', guard_callback g (an_peer_id (md_guard m)) peer now =
      Some (mkLanObservation e' ((fun ip => SocketAddr_new ip (md_port m)) <$> md_addresses m) (peer_is_expiry peer)) /\
    (e' = local \/ tag_collision (md_protected m) local e' (md_slot m) now).
Proof.
  intros Hm Hg Hne [Ht Ha] Hn Hz Hs Hin; destruct Hm as [_ _ Hid Htxt [Hp Hadr] _ _].
  destruct (match_tag_known (md_protected m) local (md_slot m) now Hn Hz Hs Hin) as [e' He]; exists e'; split.
  - unfold guard_callback; rewrite decide_False by done; unfold protected_observation.
    assert (peer_txt_attribute peer (bstr "v") = Some (Some (bstr "1"))) as -> by (apply Ht; rewrite Htxt; set_solver).
    assert (peer_txt_attribute peer (bstr "t") = Some (Some (an_peer_id (md_guard m)))) as -> by (apply Ht; rewrite Htxt; set_solver).
    rewrite bool_decide_true by done; cbn [negb mjoin option_join mbind option_bind]; rewrite bool_decide_true by done; cbn [negb].
    rewrite Hid, <- txt_value_hex, tag_text_round_trip by apply tag_length; rewrite Hg, He; cbn [mbind option_bind].
    rewrite Ha, Hp, Hadr, <- list_fmap_compose; done.
  - destruct (decide (e' = local)); [auto | right]; apply match_tag_Some in He as (Hk & slot' & _ & Hs' & Htag); [|done].
    split_and!; [done..|]; eauto.
Qed.

(** The background task keeps an endpoint discoverable.  Start a publisher and let any
    events happen: observations, republished addresses, interface changes, new epochs,
    rotations, failures of the mDNS library.  If the task has not been stopped, the next
    rotation tick the mDNS library accepts makes the endpoint announce a tag that every
    member with the same epoch whose clock is at most one slot away recognises as a known
    endpoint with the announced addresses: this endpoint, unless two tags collide. *)
Theorem announced_endpoint_recognised `{Blake3Laws} `{Platform}
    (p : ProtectedLanDiscovery) (local : EndpointId) (port : Z) (addresses : list IpAddr) (t0 t1 : Z) (a0 a1 : result bytes unit)
    (m : MdnsLanDiscovery) (l : WeaverAddressLookup) (evs : list LanEvent) (now now' : Z) (g : Announcement) (peer : Peer) :
  let rt := lan_run (lan_start m l t1 a1) evs in
  let m' := lr_mdns (lan_step rt (RotationTick now (Ok tt))) in
  Mdns_spawn p local port addresses t0 a0 = Ok m -> lr_running rt = true ->
  local ∈ pl_known_endpoints (md_protected m') -> an_protected g = md_protected m' ->
  an_peer_id g <> an_peer_id (md_guard m') -> announces (md_guard m') peer ->
  is_u64 now = true -> is_u64 now' = true -> slot_near (now / LAN_SLOT_MS) now' ->
  exists e', guard_callback g (an_peer_id (md_guard m')) peer now' =
      Some (mkLanObservation e' ((fun ip => SocketAddr_new ip (md_port m')) <$> md_addresses m') (peer_is_expiry peer)) /\
    (e' = local \/ tag_collision (md_protected m') local e' (now / LAN_SLOT_MS) now').
Proof.
  intros rt m' Hsp Hrun Hin Hg Hne Hann Hn Hn' Hs; apply Mdns_spawn_inv in Hsp.
  assert (Hinv : mdns_inv (pl_network_id p) local m') by (apply lan_step_inv, lan_run_inv, lan_start_inv, Hsp).
  assert (Hslot : md_slot m' = now / LAN_SLOT_MS).
  { unfold m', lan_step; rewrite Hrun; cbn [negb lr_mdns]; apply refresh_tag_current. }
  rewrite <- Hslot in Hs |- *; eapply observation_of_announcement; try done.
  rewrite Hslot; by apply slot_bounds.
Qed.

Module LanWitness.
Import Samples.
Definition here : EndpointId := mkEndpointId toy_endpoint.
Definition there : EndpointId := mkEndpointId (repeat Byte.x56 32).
Definition protected : ProtectedLanDiscovery := mkProtected toy_network 1 zero32 [here; there].
Definition publisher : MdnsLanDiscovery := Eval vm_compute in
  match Mdns_spawn protected here 4433 [IpV4 10 0 0 1] 0 (Ok tt) with
  | Ok m => m | Err _ => mkMdns protected here 0 [] 0 [] (mkAnnouncement [] 0 [] [] [] protected) end.
(** An interface change the mDNS library refuses, then a rotation. *)
Definition events : list LanEvent :=
  [Command NetworkChange [mkInterface true false [IpV4 10 0 0 2]] 200000 (Err (bstr "no socket")); RotationTick 310000 (Ok tt)].
Definition before : LanRuntime := lan_run (lan_start publisher (Lookup_new toy_network) 0 (Ok tt)) events.
Definition after : MdnsLanDiscovery := Eval vm_compute in lr_mdns (lan_step before (RotationTick 650000 (Ok tt))).
Lemma before_running : lr_running before = true.
Proof. vm_compute; reflexivity. Qed.
Lemma after_tick : lr_mdns (lan_step before (RotationTick 650000 (Ok tt))) = after.
Proof. vm_compute; reflexivity. Qed.
Lemma spawned : Mdns_spawn protected here 4433 [IpV4 10 0 0 1] 0 (Ok tt) = Ok publisher.
Proof. vm_compute; reflexivity. Qed.
Definition announced : Announcement := md_guard after.
Definition browser : Announcement := mkAnnouncement [] 4433 [] [] [] protected.
Definition seen : Peer := mkPeer (fun k => if decide (k = bstr "v") then Some (Some (bstr "1"))
  else if decide (k = bstr "t") then Some (Some (an_peer_id announced)) else None) [(IpV4 10 0 0 1, 4433)] false.
Lemma announced_endpoint_recognised_witness :
  exists e', guard_callback browser (an_peer_id announced) seen 900000 =
      Some (mkLanObservation e' [SocketV4 10 0 0 1 4433] false) /\
    (e' = here \/ tag_collision protected here e' 2 900000).
Proof.
  pose proof (announced_endpoint_recognised protected here 4433 [IpV4 10 0 0 1] 0 0 (Ok tt) (Ok tt) publisher
    (Lookup_new toy_network) events 650000 900000 browser seen) as Ht.
  cbv zeta in Ht; fold before in Ht; rewrite after_tick in Ht; apply (Ht spawned before_running); clear Ht; try reflexivity.
  - apply list_elem_of_here.
  - discriminate.
  - split; [|reflexivity]; intros k v Hkv.
    assert (Hin : (k, v) ∈ [(bstr "v", bstr "1"); (bstr "t", an_peer_id announced)]) by exact Hkv.
    apply elem_of_cons in Hin as [[= -> ->]|[[= -> ->]|[]%not_elem_of_nil]%elem_of_cons]; reflexivity.
  - vm_compute; split; discriminate.
Defined.
End LanWitness.
