(* ===== verification/DirectoryFacts.v ===== *)
(** * Properties of the presence directory

    The index by address of the presence cache agrees with its records by endpoint, a
    record is never replaced by an older one, and over any interleaving of local and
    remote discovery the lookup offers only addresses that a member of the network
    announced for that endpoint. *)

From S2P Require Import Prelude Wire Core SocketAddr Platform CertificateWire Certificates Symmetric ToyCrypto CertificateChain.
From S2P Require Import Snapshot Validate Presence PresenceFacts Lan Directory LanFacts.

(** ** The two indices of the cache *)
(** Scanning the records by endpoint is the reference the index by address has to meet. *)
Record cache_inv (c : PresenceCache) : Prop := {
  ci_endpoint n e r : pc_endpoint_records c !! (n, e) = Some r -> pr_network_id r = n /\ pr_endpoint_id r = e;
  ci_records n a r : pc_records c !! (n, a) = Some r <->
    pc_endpoint_records c !! (n, pr_endpoint_id r) = Some r /\ a ∈ pr_virtual_addrs r;
}.

Lemma lookup_insert_all r m k :
  insert_all r m !! k = if decide (k.1 = pr_network_id r /\ k.2 ∈ pr_virtual_addrs r) then Some r else m !! k.
Proof.
  unfold insert_all; revert m; induction (pr_virtual_addrs r) as [|a l IH] using rev_ind; intros m; cbn.
  - rewrite decide_False; [done | set_solver].
  - rewrite foldl_snoc, lookup_insert, IH; destruct k as [n b]; cbn.
    repeat case_decide; simplify_eq; try done; exfalso; set_solver.
Qed.
Lemma lookup_remove_all r m k :
  remove_all r m !! k = if decide (k.1 = pr_network_id r /\ k.2 ∈ pr_virtual_addrs r) then None else m !! k.
Proof.
  unfold remove_all; revert m; induction (pr_virtual_addrs r) as [|a l IH] using rev_ind; intros m; cbn.
  - rewrite decide_False; [done | set_solver].
  - rewrite foldl_snoc, lookup_delete, IH; destruct k as [n b]; cbn.
    repeat case_decide; simplify_eq; try done; exfalso; set_solver.
Qed.

(** The four outcomes of [apply]. *)
Inductive apply_outcome (c : PresenceCache) (r : PresenceRecord) : PresenceCache * result DiscoveryError bool -> Prop :=
| ao_rollback cur :
    pc_endpoint_records c !! (pr_network_id r, pr_endpoint_id r) = Some cur -> r <> cur -> pr_sequence r <= pr_sequence cur ->
    apply_outcome c r (c, Err Rollback)
| ao_same :
    pc_endpoint_records c !! (pr_network_id r, pr_endpoint_id r) = Some r -> apply_outcome c r (c, Ok false)
| ao_taken a cur :
    a ∈ pr_virtual_addrs r -> pc_records c !! (pr_network_id r, a) = Some cur -> pr_endpoint_id cur <> pr_endpoint_id r ->
    apply_outcome c r (c, Err InvalidPresence)
| ao_stored c' :
    (forall cur, pc_endpoint_records c !! (pr_network_id r, pr_endpoint_id r) = Some cur -> pr_sequence cur < pr_sequence r) ->
    (forall a cur, a ∈ pr_virtual_addrs r -> pc_records c !! (pr_network_id r, a) = Some cur -> pr_endpoint_id cur = pr_endpoint_id r) ->
    pc_endpoint_records c' = <[(pr_network_id r, pr_endpoint_id r) := r]> (pc_endpoint_records c) ->
    pc_records c' = insert_all r (match pc_endpoint_records c !! (pr_network_id r, pr_endpoint_id r) with
                                  | Some previous => remove_all previous (pc_records c) | None => pc_records c end) ->
    apply_outcome c r (c', Ok true).
(** The test for an address another endpoint holds. *)
Definition taken (c : PresenceCache) (r : PresenceRecord) : bool :=
  existsb (fun a => match pc_records c !! (pr_network_id r, a) with
                    | Some cur => negb (bool_decide (pr_endpoint_id cur = pr_endpoint_id r))
                    | None => false
                    end) (pr_virtual_addrs r).
Lemma taken_true c r :
  taken c r = true -> exists a cur, a ∈ pr_virtual_addrs r /\ pc_records c !! (pr_network_id r, a) = Some cur /\
    pr_endpoint_id cur <> pr_endpoint_id r.
Proof.
  intros (a & Ha & Hx)%existsb_exists; destruct (pc_records c !! _) as [x|] eqn:Hx'; [|done]; bool_inv.
  exists a, x; split; [by apply list_elem_of_In | done].
Qed.
Lemma taken_false c r a cur :
  taken c r = false -> a ∈ pr_virtual_addrs r -> pc_records c !! (pr_network_id r, a) = Some cur ->
  pr_endpoint_id cur = pr_endpoint_id r.
Proof.
  intros Ht Ha Hx; destruct (decide (pr_endpoint_id cur = pr_endpoint_id r)) as [|Hn]; [done | exfalso].
  revert Ht; apply not_false_iff_true, existsb_exists; exists a; split; [by apply list_elem_of_In|].
  rewrite Hx; by rewrite bool_decide_false.
Qed.
Lemma Cache_apply_cases c r : apply_outcome c r (Cache_apply c r).
Proof.
  unfold Cache_apply; cbv zeta; fold (taken c r); destruct (pc_endpoint_records c !! _) as [cur|] eqn:Hc.
  - destruct (_ || _) eqn:Hg.
    { apply (ao_rollback _ _ cur); [done|..]; apply orb_true_iff in Hg as [Hg|Hg]; bool_inv; [intros ->; lia | done | lia | lia]. }
    apply orb_false_iff in Hg as [Hs Hg]; destruct (bool_decide (Some cur = Some r)) eqn:Hr; bool_inv.
    { apply ao_same; by rewrite Hc, Hr. }
    destruct (taken c r) eqn:Ht; [apply taken_true in Ht as (a & x & ? & ? & ?); by eapply ao_taken|].
    apply ao_stored; cbn; [|by eauto using taken_false | done | by rewrite Hc].
    intros x Hx; rewrite Hc in Hx; injection Hx as <-.
    apply andb_false_iff in Hg as [Hg|Hg]; bool_inv; [lia|]; destruct Hr; by f_equal.
  - rewrite bool_decide_false by done.
    destruct (taken c r) eqn:Ht; [apply taken_true in Ht as (a & x & ? & ? & ?); by eapply ao_taken|].
    apply ao_stored; cbn; [intros x Hx; by rewrite Hc in Hx | by eauto using taken_false | done | by rewrite Hc].
Qed.

Lemma Cache_apply_inv c r : cache_inv c -> cache_inv (Cache_apply c r).1.
Proof.
  intros Hc; destruct (Cache_apply_cases c r) as [| | |c' Hseq Hfree He Hr]; cbn; try done; constructor; rewrite He.
  - intros n e x; rewrite lookup_insert_Some; intros [[[= <- <-] <-]|[_ Hx]]; [done | by apply Hc].
  - intros n a x; rewrite Hr, lookup_insert_all, lookup_insert; cbn.
    assert (Hold : (match pc_endpoint_records c !! (pr_network_id r, pr_endpoint_id r) with
              | Some previous => remove_all previous (pc_records c) | None => pc_records c end) !! (n, a) = Some x <->
             pc_records c !! (n, a) = Some x /\ (n, pr_endpoint_id x) <> (pr_network_id r, pr_endpoint_id r)).
    { destruct (pc_endpoint_records c !! (pr_network_id r, pr_endpoint_id r)) as [p|] eqn:Hp.
      - destruct (ci_endpoint _ Hc _ _ _ Hp) as [Hn Hpe]; rewrite lookup_remove_all; cbn; rewrite Hn; split.
        + case_decide as Hd; [done|]; intros Hx; split; [done|]; intros [= -> Hxe]; apply Hc in Hx as [Hx Ha].
          rewrite Hxe, Hp in Hx; injection Hx as <-; by destruct Hd.
        + intros [Hx Hne]; case_decide as Hd; [|done]; exfalso; apply Hne; destruct Hd as [-> Ha]; f_equal.
          assert (Hpa : pc_records c !! (pr_network_id r, a) = Some p) by (apply Hc; by rewrite Hpe).
          rewrite Hx in Hpa; by injection Hpa as ->.
      - split; [|naive_solver]; intros Hx; split; [done|]; intros [= -> Hxe]; apply Hc in Hx as [Hx _]; by rewrite Hxe, Hp in Hx. }
    case_decide as Hd; case_decide as Hk.
    + destruct Hd as [-> Ha]; injection Hk as Hk; split; [intros [= <-]; done | intros [[= <-] _]; done].
    + destruct Hd as [-> Ha]; split; [intros [= <-]; done|]; intros [Hx Hxa]; exfalso; apply Hk; f_equal.
      symmetry; apply (Hfree a); [done|]; by apply Hc.
    + rewrite Hold; injection Hk as <- Hk; split; [intros [_ Hne]; by destruct Hne; f_equal|].
      intros [[= <-] Ha]; by destruct Hd.
    + rewrite Hold, (ci_records _ Hc); split; [naive_solver|]; intros [Hx Ha]; split; [done|]; intros [= -> Hxe]; apply Hk; by f_equal.
Qed.
Lemma Cache_purge_inv c now : cache_inv c -> cache_inv (Cache_purge_expired c now).1.
Proof.
  intros Hc; constructor; cbn.
  - intros n e r [Hr _]%map_lookup_filter_Some; by apply Hc.
  - intros n a r; rewrite !map_lookup_filter_Some; cbn; rewrite (ci_records _ Hc); tauto.
Qed.
Lemma Cache_empty_inv : cache_inv Cache_empty.
Proof. constructor; cbn; [intros n e r Hr | intros n a r; split; [intros Hr | intros [Hr _]]]; by rewrite lookup_empty in Hr. Qed.

(** ** Discovery as a whole

    The directory, the local publisher and the endpoint share one lookup.  Every operation
    holds the locks it needs from start to end, so a run is a sequence of operations. *)
Record Discovery : Type := mkDiscovery { ds_mdns : MdnsLanDiscovery; ds_running : bool; ds_directory : PresenceDirectory }.
Inductive DiscoveryEvent : Type :=
| OnLan (ev : LanEvent)
| OnPresence (config : ValidatedNetworkConfig) (encrypted : EncryptedPresenceRecord) (now_ms : Z)
| OnPurge (now_ms : Z)
| OnPublish (data : list TransportAddr)
| OnResolve (endpoint : EndpointId).

Section system.
Context `{Ed25519} `{Blake3} `{Aead} `{Platform}.
Implicit Types (s : Discovery) (evs : list DiscoveryEvent).

Definition with_lookup (d : PresenceDirectory) (l : WeaverAddressLookup) : PresenceDirectory :=
  mkDirectory (dir_network_id d) (dir_cache d) l.
Definition discovery_step s (ev : DiscoveryEvent) : Discovery :=
  let d := ds_directory s in
  match ev with
  | OnLan ev =>
      let rt := lan_step (mkLanRuntime (ds_mdns s) (dir_lookup d) (ds_running s)) ev in
      mkDiscovery (lr_mdns rt) (lr_running rt) (with_lookup d (lr_lookup rt))
  | OnPresence config encrypted now => mkDiscovery (ds_mdns s) (ds_running s) (apply_encrypted d config encrypted now).1
  | OnPurge now => mkDiscovery (ds_mdns s) (ds_running s) (Directory_purge_expired d now)
  | OnPublish data => mkDiscovery (ds_mdns s) (ds_running s) (with_lookup d (Lookup_publish (dir_lookup d) data))
  | OnResolve e => mkDiscovery (ds_mdns s) (ds_running s) (with_lookup d (Lookup_resolve (dir_lookup d) e).1)
  end.
Definition discovery_run : Discovery -> list DiscoveryEvent -> Discovery := foldl discovery_step.

(** *** What is announced on the local network
    The protection in force and whether the task still runs, from the protection it was
    started with: a running task takes over a protection of the same network when the mDNS
    library can start a publisher with it. *)
Definition force_step (f : ProtectedLanDiscovery * bool) (ev : DiscoveryEvent) : ProtectedLanDiscovery * bool :=
  match ev with
  | OnLan (Command (UpdateProtection q) _ _ (Ok _)) =>
      if f.2 && bool_decide (pl_network_id q = pl_network_id f.1) then (q, true) else f
  | OnLan Stop => (f.1, false)
  | _ => f
  end.
Definition in_force (start : ProtectedLanDiscovery * bool) evs : ProtectedLanDiscovery * bool := foldl force_step start evs.
(** What a peer with the identifier [peer_id] has to announce at the time [now] to be
    taken for the endpoint [e] under the configuration [c]: version 1, and as its tag, which
    is its identifier, the keyed hash under the LAN secret of the configuration of the
    network, the epoch, the current slot of five minutes, the one before or the one after,
    and an endpoint that the configuration binds. *)
Record lan_announced (c : ValidatedNetworkConfig) (e : EndpointId) (peer_id : bytes) (peer : Peer) (now : Z) : Prop := {
  ln_version : peer_txt_attribute peer (bstr "v") = Some (Some (bstr "1"));
  ln_identifier : peer_txt_attribute peer (bstr "t") = Some (Some peer_id);
  ln_bound : exists raw b, raw ∈ cfg_endpoint_bindings (vc_inner c) /\ EndpointBinding_from_bytes raw = Ok b /\
    EndpointId_from_bytes (eb_endpoint_id (payload b)) = Some e;
  ln_tag : exists slot, slot ∈ [saturating_sub (now / LAN_SLOT_MS) 1; now / LAN_SLOT_MS; saturating_add (now / LAN_SLOT_MS) 1] /\
    LanTag_from_txt (bstr "t=" ++ peer_id) = Ok (LanTag_from_bytes (take 16
      (keyed_hash (lan_discovery_seed (cfg_epoch_secrets (vc_inner c)))
        (bstr "weaver.lan-tag.v1" ++ [Byte.x00] ++ NetworkId_as_bytes (cfg_network_id (vc_inner c)) ++
         to_be 8 (cfg_epoch (vc_inner c)) ++ to_be 8 slot ++ EndpointId_as_bytes e))));
}.
Lemma protected_observation_announced c p peer_id peer now o :
  Protected_from_config c = Ok p -> protected_observation p peer_id peer now = Some o ->
  lan_announced c (lo_endpoint_id o) peer_id peer now /\
  lo_addresses o = (fun '(ip, port) => SocketAddr_new ip port) <$> peer_addrs peer.
Proof.
  unfold Protected_from_config, protected_observation; intros Hp Ho.
  apply bind_Ok in Hp as (known & Hknown%try_map_Ok & <-%Ok_inj).
  destruct (negb _) eqn:Hv; [done|]; bool_inv; apply bind_Some in Ho as (t & Ht & Ho).
  destruct (negb (bool_decide (t = peer_id))) eqn:Hid; [done|]; bool_inv; subst t.
  destruct (LanTag_from_txt _) as [tag|] eqn:Htag; [|done]; apply bind_Some in Ho as (e & Hm & [= <-]).
  apply find_some in Hm as [Hin Hslots]; apply list_elem_of_In in Hin; cbn [lo_endpoint_id lo_addresses]; split; [|done].
  apply existsb_exists in Hslots as (slot & Hslot%list_elem_of_In & Heq); bool_inv; constructor; [done | | |].
  - destruct (peer_txt_attribute peer (bstr "t")) as [[x|]|]; cbn in Ht; congruence.
  - destruct (Forall2_elem_r _ _ _ _ Hknown Hin) as (raw & Hraw & Hb); apply bind_Ok in Hb as (b & Hb%map_err_Ok & He%ok_or_Ok); eauto.
  - exists slot; split; [done|]; rewrite Htag, <- Heq; done.
Qed.

(** What happened in a run: the browser of the task saw a peer and took it for [o] under
    the protection in force at that moment, and a presence record was accepted under a
    configuration of the network. *)
Definition observed (start : ProtectedLanDiscovery * bool) evs (o : LanObservation) : Prop :=
  exists i peer_id peer now, evs !! i = Some (OnLan (PeerSeen peer_id peer now)) /\ (in_force start (take i evs)).2 = true /\
    protected_observation (in_force start (take i evs)).1 peer_id peer now = Some o.
Definition accepted (net : NetworkId) evs (r : PresenceRecord) : Prop :=
  exists config encrypted now, OnPresence config encrypted now ∈ evs /\ cfg_network_id (vc_inner config) = net /\
    Presence_open encrypted config now = Ok r.

(** ** The invariant of the lookup *)
Section lookup_inv.
Context (net : NetworkId) (Obs : LanObservation -> Prop) (Acc : PresenceRecord -> Prop).

Record entry_ok (e : EndpointId) (x : LookupEntry) : Prop := {
  eo_published : le_sender x = le_sender (publish_merged x);
  eo_lan addresses : le_lan x = Some addresses -> exists o, Obs o /\ lo_endpoint_id o = e /\ lo_addresses o = addresses;
  eo_presence ts : le_presence x = Some ts ->
    exists r, Acc r /\ pr_endpoint_id r = e /\ try_map candidate_transport (pr_candidates r) = Ok ts;
}.
Record lookup_inv (l : WeaverAddressLookup) : Prop := {
  li_network : lk_network_id l = net;
  li_entries e x : lk_entries l !! e = Some x -> entry_ok e x;
}.

Lemma LookupEntry_new_ok e : entry_ok e LookupEntry_new.
Proof. constructor; done. Qed.
Lemma entry_of_ok l e : lookup_inv l -> entry_ok e (entry_of l e).
Proof. intros Hl; unfold entry_of; destruct (lk_entries l !! e) eqn:Hx; [by apply Hl | apply LookupEntry_new_ok]. Qed.
Lemma with_entry_inv l e x u : lookup_inv l -> entry_ok e x -> lookup_inv (with_entry l e x u).
Proof.
  intros [Hn He] Hx; constructor; [done|]; cbn; intros e' y; rewrite lookup_insert_Some; intros [[<- <-]|[_ Hy]]; auto.
Qed.
Lemma apply_lan_inv l o : lookup_inv l -> Obs o -> lookup_inv (apply_lan_observation l o).
Proof.
  intros Hl Ho; apply with_entry_inv; [done|]; destruct (entry_of_ok l (lo_endpoint_id o) Hl) as [_ _ Hp].
  constructor; cbn; [done | | done]; destruct (_ || _); [done|]; intros a [= <-]; eauto.
Qed.
Lemma apply_presence_inv l r : lookup_inv l -> Acc r -> lookup_inv (apply_presence l r).1.
Proof.
  intros Hl Hr; unfold apply_presence; destruct (negb _); [done|]; destruct (try_map _ _) as [ts|] eqn:Hts; [|done]; cbn.
  apply with_entry_inv; [done|]; destruct (entry_of_ok l (pr_endpoint_id r) Hl) as [_ Hlan _].
  constructor; cbn; [done | done |]; destruct (bool_decide _); [done|]; intros ? [= <-]; eauto.
Qed.
Lemma clear_presence_inv l e : lookup_inv l -> lookup_inv (clear_presence l e).
Proof.
  intros Hl; unfold clear_presence; destruct (lk_entries l !! e) as [x|] eqn:Hx; [|done].
  apply with_entry_inv; [done|]; destruct (li_entries _ Hl _ _ Hx) as [_ Hlan _]; by constructor.
Qed.
End lookup_inv.

Lemma lookup_inv_mono net Obs Obs' Acc Acc' l :
  (forall o, Obs o -> Obs' o) -> (forall r, Acc r -> Acc' r) -> lookup_inv net Obs Acc l -> lookup_inv net Obs' Acc' l.
Proof.
  intros Ho Ha [Hn He]; constructor; [done|]; intros e x Hx; destruct (He e x Hx) as [? Hlan Hp]; constructor; [done|..].
  - intros a (o & ? & ?)%Hlan; eauto.
  - intros ts (r & ? & ?)%Hp; eauto.
Qed.

(** ** Which presence candidates the lookup holds *)
Definition presence_of (l : WeaverAddressLookup) (e : EndpointId) : option (list TransportAddr) := lk_entries l !! e ≫= le_presence.

Lemma presence_of_entry l e : le_presence (entry_of l e) = presence_of l e.
Proof. unfold presence_of, entry_of; by destruct (lk_entries l !! e). Qed.
Lemma presence_of_with_entry l e x u e' :
  presence_of (with_entry l e x u) e' = if decide (e' = e) then le_presence x else presence_of l e'.
Proof. unfold presence_of; cbn; case_decide; subst; [by rewrite lookup_insert_eq | by rewrite lookup_insert_ne]. Qed.
Lemma presence_of_lan l o e : presence_of (apply_lan_observation l o) e = presence_of l e.
Proof.
  unfold apply_lan_observation; cbv zeta; rewrite presence_of_with_entry; case_decide; [|done]; subst; cbn; apply presence_of_entry.
Qed.
Lemma presence_of_clear l e e' : presence_of (clear_presence l e) e' = if decide (e' = e) then None else presence_of l e'.
Proof.
  unfold clear_presence; destruct (lk_entries l !! e) as [x|] eqn:Hx; [by rewrite presence_of_with_entry|].
  case_decide; [|done]; subst; unfold presence_of; by rewrite Hx.
Qed.
Lemma presence_of_apply l r e ts :
  presence_of (apply_presence l r).1 e = Some ts -> e = pr_endpoint_id r \/ presence_of l e = Some ts.
Proof.
  unfold apply_presence; destruct (negb _); [auto|]; destruct (try_map _ _); [|auto]; cbn.
  rewrite presence_of_with_entry; case_decide; auto.
Qed.
Lemma presence_of_resolve l e e' : presence_of (Lookup_resolve l e).1 e' = presence_of l e'.
Proof.
  unfold Lookup_resolve; cbn; unfold presence_of; cbn; destruct (decide (e' = e)) as [->|]; [|by rewrite lookup_insert_ne].
  rewrite lookup_insert_eq; cbn; apply presence_of_entry.
Qed.
Definition purge_lookup (cache : PresenceCache) (l : WeaverAddressLookup) (removed : list EndpointId) : WeaverAddressLookup :=
  foldl (fun lookup e => if contains_endpoint cache e then lookup else clear_presence lookup e) l removed.
Lemma presence_of_purge cache removed l e ts :
  presence_of (purge_lookup cache l removed) e = Some ts ->
  presence_of l e = Some ts /\ (e ∈ removed -> contains_endpoint cache e = true).
Proof.
  unfold purge_lookup; revert l; induction removed as [|x removed IH]; intros l; cbn; [set_solver|]; intros [Hl Hr]%IH.
  destruct (contains_endpoint cache x) eqn:Hx.
  - split; [done|]; intros [->|]%elem_of_cons; auto.
  - rewrite presence_of_clear in Hl; case_decide; [done|]; split; [done|]; intros [->|]%elem_of_cons; [done | auto].
Qed.
Lemma lan_of_purge cache removed l e :
  le_lan (entry_of (purge_lookup cache l removed) e) = le_lan (entry_of l e).
Proof.
  unfold purge_lookup; revert l; induction removed as [|x removed IH]; intros l; [done|]; cbn; rewrite IH.
  destruct (contains_endpoint _ _); [done|]; unfold clear_presence; destruct (lk_entries l !! x) as [y|] eqn:Hy; [|done].
  unfold entry_of, with_entry; cbn; rewrite lookup_insert; case_decide; subst; [by rewrite Hy | done].
Qed.
Lemma purge_lookup_inv net Obs Acc cache removed l : lookup_inv net Obs Acc l -> lookup_inv net Obs Acc (purge_lookup cache l removed).
Proof.
  unfold purge_lookup; revert l; induction removed as [|x removed IH]; intros l Hl; [done|]; cbn; apply IH.
  destruct (contains_endpoint _ _); [done | by apply clear_presence_inv].
Qed.
Lemma contains_endpoint_true cache e :
  contains_endpoint cache e = true <-> exists n r, pc_endpoint_records cache !! (n, e) = Some r.
Proof.
  unfold contains_endpoint; rewrite existsb_exists; split.
  - intros ([[n e'] r] & Hin & Heq); bool_inv; cbn in Heq; subst; exists n, r; by apply elem_of_map_to_list, list_elem_of_In.
  - intros (n & r & Hr); exists ((n, e), r); split; [by apply list_elem_of_In, elem_of_map_to_list | by apply bool_decide_eq_true].
Qed.
Lemma removed_elem cache now n e r :
  pc_endpoint_records cache !! (n, e) = Some r -> pr_expires_at_ms r <= now -> e ∈ (Cache_purge_expired cache now).2.
Proof.
  intros Hr Hx; cbn; apply list_elem_of_fmap; exists ((n, e), r); split; [done|]; apply list_elem_of_In, filter_In.
  split; [by apply list_elem_of_In, elem_of_map_to_list | by apply Z.leb_le].
Qed.

Lemma Presence_open_network p config now r : Presence_open p config now = Ok r -> pr_network_id r = cfg_network_id (vc_inner config).
Proof.
  unfold Presence_open, check_presence; cbv zeta; intros Ho; res_inv; bool_inv; done.
Qed.
Lemma accepted_network net evs r : accepted net evs r -> pr_network_id r = net.
Proof. intros (config & p & now & _ & <- & Ho); by eapply Presence_open_network. Qed.
Lemma accepted_app net evs ev r : accepted net evs r -> accepted net (evs ++ [ev]) r.
Proof. intros (config & p & now & Hin & ?); exists config, p, now; split; [set_solver | done]. Qed.

(** ** The invariant of the whole *)
Section from_start.
Context (start : ProtectedLanDiscovery * bool).
(** The publisher uses the protection in force. *)
Definition tracks evs s : Prop := in_force start evs = (md_protected (ds_mdns s), ds_running s).
Record system_inv (net : NetworkId) (local : EndpointId) evs s : Prop := {
  si_mdns : mdns_inv net local (ds_mdns s);
  si_queue : Forall (observed start evs) (md_queue (ds_mdns s));
  si_lookup : lookup_inv net (observed start evs) (accepted net evs) (dir_lookup (ds_directory s));
  si_network : dir_network_id (ds_directory s) = net;
  si_cache : cache_inv (dir_cache (ds_directory s));
  si_accepted k r : pc_endpoint_records (dir_cache (ds_directory s)) !! k = Some r -> accepted net evs r;
  si_cached e ts : presence_of (dir_lookup (ds_directory s)) e = Some ts ->
    exists r, pc_endpoint_records (dir_cache (ds_directory s)) !! (net, e) = Some r;
}.

Lemma observed_app evs ev o : observed start evs o -> observed start (evs ++ [ev]) o.
Proof.
  intros (i & id & peer & now & Hi & Ho); exists i, id, peer, now; pose proof (lookup_lt_Some _ _ _ Hi).
  by rewrite lookup_app_l, take_app_le by lia.
Qed.
Lemma in_force_snoc evs ev : in_force start (evs ++ [ev]) = force_step (in_force start evs) ev.
Proof. apply foldl_snoc. Qed.
Lemma system_inv_app net local evs ev s : system_inv net local evs s -> system_inv net local (evs ++ [ev]) s.
Proof.
  intros []; constructor; try done; [eapply Forall_impl; [done|]; eauto using observed_app | | eauto using accepted_app].
  eapply lookup_inv_mono; [..|done]; eauto using observed_app, accepted_app.
Qed.

Lemma lan_step_cases rt ev :
  (lr_lookup (lan_step rt ev) = lr_lookup rt /\ md_queue (lr_mdns (lan_step rt ev)) = md_queue (lr_mdns rt)) \/
  (lr_lookup (lan_step rt ev) = lr_lookup rt /\ exists id peer now o, ev = PeerSeen id peer now /\
     guard_callback (md_guard (lr_mdns rt)) id peer now = Some o /\
     md_queue (lr_mdns (lan_step rt ev)) = md_queue (lr_mdns rt) ++ [o]) \/
  (exists o q, md_queue (lr_mdns rt) = o :: q /\ lr_lookup (lan_step rt ev) = apply_lan_observation (lr_lookup rt) o /\
     md_queue (lr_mdns (lan_step rt ev)) = q).
Proof.
  unfold lan_step; destruct (negb _); [auto|].
  assert (Hre : forall m port addrs now answer, md_queue (rebind_addresses m port addrs now answer).1 = md_queue m).
  { intros; unfold rebind_addresses; by destruct (spawn_mdns_guard _ _ _ _ _ _). }
  destruct ev as [id peer now| |data now answer|[|p] ifs now answer|now answer|]; cbn; [..|auto].
  - unfold Mdns_callback; destruct (guard_callback _ _ _ _) as [o|] eqn:Hg; [|auto]; destruct (Nat.ltb _ _); [|auto].
    right; left; split; [done|]; exists id, peer, now, o; auto.
  - unfold Mdns_recv; destruct (md_queue (lr_mdns rt)) as [|o q] eqn:Hq; cbn; [auto|]; right; right; eauto.
  - left; unfold update_mdns_addresses; destruct (ip_addrs data); auto.
  - left; destruct (bool_decide _); cbn; auto.
  - left; unfold replace_protection; destruct (negb _); [auto|]; by destruct (spawn_mdns_guard _ _ _ _ _ _).
  - left; unfold refresh_tag; destruct (_ =? _); [auto|]; by destruct (spawn_mdns_guard _ _ _ _ _ _).
Qed.
Lemma discovery_step_tracks evs s ev : tracks evs s -> tracks (evs ++ [ev]) (discovery_step s ev).
Proof.
  unfold tracks; rewrite in_force_snoc; intros ->; destruct ev as [ev|config p now|now|data|e]; try done; cbn [discovery_step ds_mdns ds_running].
  unfold lan_step; cbn [lr_running lr_mdns lr_lookup]; destruct (ds_running s) eqn:Hrun; cbn [negb]; [|by destruct ev as [| | |[|q] ifs now [u|x]| |]; cbn; rewrite ?Hrun].
  assert (Hre : forall m port addrs now answer, md_protected (rebind_addresses m port addrs now answer).1 = md_protected m).
  { intros; unfold rebind_addresses; by destruct (spawn_mdns_guard _ _ _ _ _ _). }
  destruct ev as [id peer now| |data now answer|[|q] ifs now answer|now answer|]; cbn; [..|done].
  - unfold Mdns_callback; destruct (guard_callback _ _ _ _); [by destruct (Nat.ltb _ _) | done].
  - unfold Mdns_recv; by destruct (md_queue (ds_mdns s)).
  - unfold update_mdns_addresses; destruct (ip_addrs data); cbn; by rewrite ?Hre.
  - destruct (bool_decide _); cbn; by rewrite ?Hre.
  - unfold replace_protection, spawn_mdns_guard; case_bool_decide as Hn; cbn; destruct answer; cbn; try done;
      by rewrite ?(bool_decide_true _ Hn), ?(bool_decide_false _ Hn).
  - unfold refresh_tag; destruct (_ =? _); [done|]; by destruct (spawn_mdns_guard _ _ _ _ _ _).
Qed.
Lemma lan_event_inv net local evs s ev :
  system_inv net local evs s -> tracks evs s -> system_inv net local (evs ++ [OnLan ev]) (discovery_step s (OnLan ev)).
Proof.
  intros Hs Htr; set (rt := mkLanRuntime (ds_mdns s) (dir_lookup (ds_directory s)) (ds_running s)).
  assert (Hm : mdns_inv net local (lr_mdns (lan_step rt ev))) by (apply lan_step_inv, Hs).
  destruct (system_inv_app _ _ _ (OnLan ev) _ Hs) as [_ Hq Hl Hn Hc Ha Hp].
  destruct (lan_step_cases rt ev) as [[El Eq]|[[El (id & peer & now & o & -> & Hg & Eq)]|(o & q & E & El & Eq)]];
    (constructor; cbn [discovery_step ds_mdns ds_directory with_lookup dir_lookup dir_cache dir_network_id]; fold rt; [done | | | done..|]);
    rewrite ?Eq, ?El; try done.
  - apply Forall_app; split; [done | constructor; [|constructor]].
    assert (Hrun : ds_running s = true).
    { destruct (ds_running s) eqn:Hrun; [done|]; exfalso; unfold lan_step, rt in Eq; cbn in Eq.
      apply (f_equal length) in Eq; rewrite length_app in Eq; cbn in Eq; lia. }
    unfold guard_callback in Hg; destruct (decide _); [done|]; exists (length evs), id, peer, now.
    rewrite (list_lookup_middle _ _ _ _ eq_refl), take_app_length, Htr; cbn [fst snd]; split_and!; [done.. |].
    by rewrite <- (mi_protected _ _ _ (si_mdns _ _ _ _ Hs)).
  - cbn in E; rewrite E in Hq; by inversion Hq.
  - cbn in E; rewrite E in Hq; inversion Hq; by apply apply_lan_inv.
  - intros e ts; rewrite presence_of_lan; apply Hp.
Qed.

Lemma stored_cache c r c' :
  Cache_apply c r = (c', Ok true) ->
  pc_endpoint_records c' = <[(pr_network_id r, pr_endpoint_id r) := r]> (pc_endpoint_records c).
Proof. pose proof (Cache_apply_cases c r) as Hc; intros Hx; rewrite Hx in Hc; by inversion Hc. Qed.
Lemma apply_encrypted_cases d config p now :
  (apply_encrypted d config p now).1 = d \/
  (exists r cache l, cfg_network_id (vc_inner config) = dir_network_id d /\ Presence_open p config now = Ok r /\
     Cache_apply (dir_cache d) r = (cache, Ok true) /\ l = (apply_presence (dir_lookup d) r).1 /\
     (apply_encrypted d config p now).1 = mkDirectory (dir_network_id d) cache l).
Proof.
  unfold apply_encrypted; destruct (negb _) eqn:Hn; [auto|]; bool_inv; destruct (Presence_open p config now) as [r|] eqn:Ho; [|auto].
  pose proof (Cache_apply_cases (dir_cache d) r) as Hc; destruct (Cache_apply (dir_cache d) r) as [cache res] eqn:Hca.
  destruct d as [net c l]; inversion Hc; subst; cbn; [auto.. |].
  right; destruct (apply_presence l r) as [l' u] eqn:Hl; exists r, cache, l'; rewrite Hl; done.
Qed.
Lemma presence_event_inv net local evs s config p now :
  system_inv net local evs s ->
  system_inv net local (evs ++ [OnPresence config p now]) (discovery_step s (OnPresence config p now)).
Proof.
  intros Hs; pose proof (system_inv_app _ _ _ (OnPresence config p now) _ Hs) as Hs'; cbn [discovery_step].
  destruct (apply_encrypted_cases (ds_directory s) config p now) as [->|(r & cache & l & Hn & Ho & Hc & -> & ->)].
  { destruct s; exact Hs'. }
  destruct Hs' as [Hm Hq Hl Hnet Hci Ha Hp].
  assert (Hacc : accepted net (evs ++ [OnPresence config p now]) r) by (exists config, p, now; split_and!; [set_solver | congruence | done]).
  apply stored_cache in Hc as Hst; pose proof (Cache_apply_inv _ r Hci) as Hinv; rewrite Hc in Hinv; cbn in Hinv.
  constructor; cbn; try done; [by apply apply_presence_inv | |].
  - intros k x; rewrite Hst, lookup_insert_Some; intros [[_ <-]|[_ Hx]]; eauto.
  - intros e ts He; rewrite Hst; apply presence_of_apply in He as [->|(x & Hx)%Hp].
    + exists r; rewrite <- (accepted_network _ _ _ Hacc); apply lookup_insert_eq.
    + destruct (decide ((pr_network_id r, pr_endpoint_id r) = (net, e))) as [->|]; [rewrite lookup_insert_eq; eauto|].
      exists x; by rewrite lookup_insert_ne.
Qed.
Lemma purge_event_inv net local evs s now :
  system_inv net local evs s -> system_inv net local (evs ++ [OnPurge now]) (discovery_step s (OnPurge now)).
Proof.
  intros Hs; destruct (system_inv_app _ _ _ (OnPurge now) _ Hs) as [Hm Hq Hl Hnet Hci Ha Hp].
  constructor; try done; cbn [discovery_step ds_directory Directory_purge_expired Cache_purge_expired dir_lookup dir_cache].
  - by apply purge_lookup_inv.
  - by apply (Cache_purge_inv _ now).
  - cbn; intros k r [Hr _]%map_lookup_filter_Some; eauto.
  - intros e ts [He Hrem]%presence_of_purge; destruct (Hp e ts He) as [r Hr].
    destruct (decide (now < pr_expires_at_ms r)) as [Hx|Hx]; [exists r; cbn; by apply map_lookup_filter_Some|].
    destruct (proj1 (contains_endpoint_true _ _) (Hrem (removed_elem _ now net e r Hr ltac:(lia)))) as (n & x & Hx').
    exists x; cbn in Hx' |- *; pose proof Hx' as [Hy _]%map_lookup_filter_Some.
    replace n with net in Hx'; [done|]; rewrite <- (accepted_network _ _ _ (Ha _ _ Hy)); by apply (ci_endpoint _ Hci _ _ _ Hy).
Qed.
Lemma discovery_step_inv net local evs s ev :
  system_inv net local evs s -> tracks evs s -> system_inv net local (evs ++ [ev]) (discovery_step s ev).
Proof.
  intros Hs Htr; destruct ev as [ev|config p now|now|data|e].
  - by apply lan_event_inv.
  - by apply presence_event_inv.
  - by apply purge_event_inv.
  - destruct (system_inv_app _ _ _ (OnPublish data) _ Hs) as [Hm Hq [Hl He] Hnet Hci Ha Hp]; by constructor.
  - destruct (system_inv_app _ _ _ (OnResolve e) _ Hs) as [Hm Hq Hl Hnet Hci Ha Hp]; constructor; try done.
    + constructor; [apply Hl|]; cbn; intros e' x; rewrite lookup_insert_Some; intros [[<- <-]|[_ Hx]]; [by eapply entry_of_ok | by apply Hl].
    + intros e' ts; cbn [discovery_step ds_directory with_lookup dir_lookup]; rewrite presence_of_resolve; apply Hp.
Qed.
Lemma discovery_run_inv net local evs0 s evs :
  system_inv net local evs0 s -> tracks evs0 s -> system_inv net local (evs0 ++ evs) (discovery_run s evs).
Proof.
  revert evs0 s; induction evs as [|ev evs IH]; intros evs0 s Hs Htr; [by rewrite app_nil_r|].
  replace (evs0 ++ ev :: evs) with ((evs0 ++ [ev]) ++ evs) by (by rewrite <- app_assoc).
  apply IH; [by apply discovery_step_inv | by apply discovery_step_tracks].
Qed.
End from_start.

(** A run starts with an empty lookup and directory and a publisher for the network. *)
Definition discovery_start (net : NetworkId) (local : EndpointId) s : Prop :=
  Directory_new net (Lookup_new net) = Some (ds_directory s) /\
  exists p port addresses now answer, pl_network_id p = net /\ Mdns_spawn p local port addresses now answer = Ok (ds_mdns s).
Definition force_of s : ProtectedLanDiscovery * bool := (md_protected (ds_mdns s), ds_running s).
Lemma discovery_start_inv net local s : discovery_start net local s -> system_inv (force_of s) net local [] s /\ tracks (force_of s) [] s.
Proof.
  intros [Hd (p & port & addresses & now & answer & Hp & Hs)]; pose proof (Mdns_spawn_inv _ _ _ _ _ _ _ Hs) as Hi; rewrite Hp in Hi.
  unfold Directory_new in Hd; rewrite decide_True in Hd by done; injection Hd as Hd; split; [|done]; constructor; rewrite <- ?Hd; try done.
  - unfold Mdns_spawn in Hs; apply bind_Ok in Hs as (g & _ & Hs%Ok_inj); by rewrite <- Hs.
  - apply Cache_empty_inv.
Qed.
Lemma discovery_reaches net local s evs : discovery_start net local s -> system_inv (force_of s) net local evs (discovery_run s evs).
Proof. intros [Hi Ht]%discovery_start_inv; by apply (discovery_run_inv _ _ _ [] s evs). Qed.
(** The protection in force comes from a configuration when all that were given do. *)
Lemma in_force_config (start : ProtectedLanDiscovery * bool) evs :
  (exists c, Protected_from_config c = Ok start.1) ->
  (forall p ifs now answer, OnLan (Command (UpdateProtection p) ifs now answer) ∈ evs -> exists c, Protected_from_config c = Ok p) ->
  exists c, Protected_from_config c = Ok (in_force start evs).1.
Proof.
  intros H0'; induction evs as [|ev evs IH] using rev_ind; intros Hup; [done|]; rewrite in_force_snoc.
  destruct IH as [c Hc]; [intros p ifs now answer Hin; apply (Hup p ifs now answer); set_solver|].
  destruct ev as [[| | |[|q] ifs now [u|x]| |]| | | |]; cbn; try (by exists c); destruct (_ && _); [|by exists c].
  apply (Hup q ifs now (Ok u)); set_solver.
Qed.
Lemma elem_of_take_in {A} (l : list A) i x : x ∈ take i l -> x ∈ l.
Proof. intros Hx; rewrite <- (take_drop i l); set_solver. Qed.
End system.

(** ** Theorems *)

(** C24: every transport address the lookup offers for an endpoint is authenticated, over
    any interleaving of local discovery, presence records, expiry, publications and
    lookups.  When the protection the task starts with, and each one it is given later,
    comes from a configuration, then the address was announced on the local network by a
    peer whose tag is the keyed hash of that endpoint under the LAN secret of a
    configuration that binds the endpoint, and whose protection was in force when the peer
    was seen; or the address is a candidate of a presence record of that endpoint which
    [open] accepted under a configuration of the network. *)
Theorem lookup_offers_authenticated `{Ed25519} `{Blake3} `{Aead} `{PlatformLaws}
    (net : NetworkId) (local : EndpointId) (s : Discovery) (evs : list DiscoveryEvent) (e : EndpointId)
    (data : list TransportAddr) (t : TransportAddr) :
  discovery_start net local s -> (exists c, Protected_from_config c = Ok (md_protected (ds_mdns s))) ->
  (forall p ifs now answer, OnLan (Command (UpdateProtection p) ifs now answer) ∈ evs -> exists c, Protected_from_config c = Ok p) ->
  (Lookup_resolve (dir_lookup (ds_directory (discovery_run s evs))) e).2 = Some (e, data) -> t ∈ data ->
  (exists i peer_id peer now c ip port, evs !! i = Some (OnLan (PeerSeen peer_id peer now)) /\
     (exists p, Protected_from_config c = Ok p /\ in_force (md_protected (ds_mdns s), ds_running s) (take i evs) = (p, true)) /\
     lan_announced c e peer_id peer now /\ (ip, port) ∈ peer_addrs peer /\ t = TransportIp (SocketAddr_new ip port)) \/
  (exists r c, accepted net evs r /\ pr_endpoint_id r = e /\ c ∈ pr_candidates r /\ candidate_transport c = Ok t).
Proof.
  intros Hs Hst Hup Hr Ht; apply (discovery_reaches _ _ _ evs) in Hs.
  destruct (entry_of_ok _ _ _ _ e (si_lookup _ _ _ _ _ Hs)) as [Hpub Hlan Hpres].
  unfold Lookup_resolve in Hr; cbn in Hr; set (x := entry_of _ e) in *.
  rewrite Hpub in Hr; cbn in Hr; case_bool_decide; [done|]; cbn in Hr; injection Hr as <-.
  apply endpoint_data_elements, elem_of_app in Ht as [Ht|Ht].
  - apply list_elem_of_fmap in Ht as (a & -> & Ha); destruct (le_lan x) as [addresses|] eqn:Hx; [|by apply not_elem_of_nil in Ha].
    destruct (Hlan _ eq_refl) as (o & (i & id & peer & now & Hi & Hrun & Ho) & He & <-); left.
    destruct (in_force_config (force_of s) (take i evs) Hst) as [c Hc]; [intros p ifs nw answer Hin; apply (Hup p ifs nw answer); by eapply elem_of_take_in|].
    destruct (protected_observation_announced _ _ _ _ _ _ Hc Ho) as [Hann Haddr]; rewrite Haddr in Ha.
    apply list_elem_of_fmap in Ha as ([ip port] & -> & Hport); exists i, id, peer, now, c, ip, port; rewrite <- He; split_and!; try done.
    eexists; split; [exact Hc|]; fold (force_of s); rewrite <- Hrun; apply surjective_pairing.
  - destruct (le_presence x) as [ts|] eqn:Hx; [|by apply not_elem_of_nil in Ht].
    destruct (Hpres _ eq_refl) as (r & Ha & He & Hts%try_map_Ok); right; exists r.
    destruct (Forall2_elem_r _ _ _ _ Hts Ht) as (c & Hc & Hct); exists c; done.
Qed.

Lemma resolve_system `{Ed25519} `{Blake3} `{Aead} `{Platform} start net local evs s a e now :
  system_inv start net local evs s ->
  let d := ds_directory s in
  Directory_resolve d a now = Some e <->
  exists r, pc_endpoint_records (dir_cache d) !! (net, e) = Some r /\ a ∈ pr_virtual_addrs r /\ now < pr_expires_at_ms r /\
    pr_endpoint_id r = e /\ accepted net evs r.
Proof.
  intros [_ _ _ Hn Hc Ha _] d; fold d in Hn, Hc, Ha; unfold Directory_resolve, Cache_get; rewrite Hn; split.
  - destruct (pc_records (dir_cache d) !! (net, a)) as [r|] eqn:Hr; [|done]; cbn.
    destruct (_ <? _) eqn:Hx; [|done]; intros [= <-]; bool_inv; apply Hc in Hr as [Hr ?]; exists r; split_and!; eauto.
  - intros (r & Hr & Hin & Hx & <- & _); rewrite (proj2 (ci_records _ Hc net a r)) by done; cbn.
    by rewrite (proj2 (Z.ltb_lt _ _)).
Qed.
Lemma resolve_exact `{Ed25519} `{Blake3} `{Aead} `{Platform}
    (net : NetworkId) (local : EndpointId) (s : Discovery) (evs : list DiscoveryEvent) (a : ScopedVirtualAddr) (e : EndpointId)
    (now : Z) :
  discovery_start net local s ->
  let d := ds_directory (discovery_run s evs) in
  Directory_resolve d a now = Some e <->
  exists r, pc_endpoint_records (dir_cache d) !! (net, e) = Some r /\ a ∈ pr_virtual_addrs r /\ now < pr_expires_at_ms r /\
    pr_endpoint_id r = e /\ accepted net evs r.
Proof. intros Hs; apply (resolve_system (force_of s) net local); by apply discovery_reaches. Qed.

(** Over any run the index by address agrees with the records by endpoint: the directory
    resolves an address to an endpoint exactly when the endpoint's current record lists the
    address and has not expired, and that record was accepted by [open] in the run. *)
Theorem directory_index_exact `{Ed25519} `{Blake3} `{Aead} `{Platform}
    (net : NetworkId) (local : EndpointId) (s : Discovery) (evs : list DiscoveryEvent) (a : ScopedVirtualAddr) (e : EndpointId)
    (now : Z) :
  discovery_start net local s ->
  let d := ds_directory (discovery_run s evs) in
  Directory_resolve d a now = Some e <->
  exists r, pc_endpoint_records (dir_cache d) !! (net, e) = Some r /\ a ∈ pr_virtual_addrs r /\ now < pr_expires_at_ms r /\
    pr_endpoint_id r = e /\ accepted net evs r.
Proof. apply resolve_exact. Qed.

(** [r'] is [r] or a newer record. *)
Definition not_older (r r' : PresenceRecord) : Prop := r' = r \/ pr_sequence r < pr_sequence r'.
Lemma step_not_older `{Ed25519} `{Blake3} `{Aead} `{Platform} s ev k r :
  pc_endpoint_records (dir_cache (ds_directory s)) !! k = Some r ->
  (exists r', pc_endpoint_records (dir_cache (ds_directory (discovery_step s ev))) !! k = Some r' /\ not_older r r') \/
  exists now, ev = OnPurge now /\ pr_expires_at_ms r <= now.
Proof.
  intros Hr; destruct ev as [ev|config p now|now|data|e]; [left; exists r; cbn; unfold not_older; auto | | | left; exists r; unfold not_older; auto..].
  - left; cbn; destruct (apply_encrypted_cases (ds_directory s) config p now) as [->|(x & c & l & _ & _ & Hc & -> & ->)];
      [exists r; unfold not_older; auto|]; cbn.
    pose proof (Cache_apply_cases (dir_cache (ds_directory s)) x) as Ho; rewrite Hc in Ho; inversion Ho as [| | |c' Hseq _ He _]; subst.
    rewrite He, lookup_insert; case_decide; [subst; exists x; split; [done | right; by apply Hseq] | exists r; unfold not_older; auto].
  - cbn; destruct (decide (now < pr_expires_at_ms r)); [left; exists r; split; [by apply map_lookup_filter_Some | by left] | right; exists now; split; [done | lia]].
Qed.

(** C32: The directory never goes back to an older record of an endpoint: after any further
    events the endpoint's record is the same or has a larger sequence number, unless a record
    at least as new had expired and was purged. *)
Theorem presence_never_rolls_back `{Ed25519} `{Blake3} `{Aead} `{Platform}
    (s : Discovery) (evs : list DiscoveryEvent) (k : NetworkId * EndpointId) (r : PresenceRecord) :
  pc_endpoint_records (dir_cache (ds_directory s)) !! k = Some r ->
  (exists r', pc_endpoint_records (dir_cache (ds_directory (discovery_run s evs))) !! k = Some r' /\ not_older r r') \/
  (exists r' now, not_older r r' /\ OnPurge now ∈ evs /\ pr_expires_at_ms r' <= now).
Proof.
  assert (Ht : forall x y z, not_older x y -> not_older y z -> not_older x z).
  { unfold not_older; intros x y z [->|?] [->|?]; auto; right; lia. }
  revert s r; induction evs as [|ev evs IH]; intros s r Hr; [left; exists r; split; [done | by left]|].
  destruct (step_not_older s ev k r Hr) as [(r1 & Hr1 & Ho1)|(now & -> & Hx)].
  - destruct (IH _ _ Hr1) as [(r2 & Hr2 & Ho2)|(r2 & now & Ho2 & Hin & Hx)]; [left; eauto | right; exists r2, now; split_and!; [eauto | set_solver | done]].
  - right; exists r, now; split_and!; [by left | set_solver | done].
Qed.

(** Purging at any point of a run removes exactly the expired records, resolves nothing
    to an expired record, and leaves presence addresses in the lookup only for endpoints that
    still have an unexpired record; addresses from the local network are not touched. *)
Theorem purge_leaves_live_records `{Ed25519} `{Blake3} `{Aead} `{Platform}
    (net : NetworkId) (local : EndpointId) (s : Discovery) (evs : list DiscoveryEvent) (now : Z) :
  discovery_start net local s ->
  let d := ds_directory (discovery_run s evs) in
  let d' := Directory_purge_expired d now in
  (forall k r, pc_endpoint_records (dir_cache d') !! k = Some r <->
     pc_endpoint_records (dir_cache d) !! k = Some r /\ now < pr_expires_at_ms r) /\
  (forall e ts, presence_of (dir_lookup d') e = Some ts ->
     presence_of (dir_lookup d) e = Some ts /\
     exists r, pc_endpoint_records (dir_cache d') !! (net, e) = Some r /\ now < pr_expires_at_ms r) /\
  (forall e, le_lan (entry_of (dir_lookup d') e) = le_lan (entry_of (dir_lookup d) e)).
Proof.
  intros Hs d d'; pose proof (discovery_reaches _ _ _ evs Hs) as Hi.
  split_and!.
  - intros k r; unfold d', Directory_purge_expired; cbn; by rewrite map_lookup_filter_Some.
  - intros e ts He; apply presence_of_purge in He as Hp; split; [apply Hp|].
    apply (purge_event_inv _ _ _ _ _ now) in Hi; destruct (si_cached _ _ _ _ _ Hi e ts He) as [r Hr]; exists r; split; [exact Hr|].
    cbn in Hr; by apply map_lookup_filter_Some in Hr as [_ ?].
  - intros e; apply lan_of_purge.
Qed.

(** [apply_encrypted] is not atomic.  When an accepted record carries a relay candidate
    that is not a relay URL, the call reports an error and the lookup learns nothing, but the
    record stays in the cache: the address resolves, and repeating the call reports success
    without ever publishing the record's addresses. *)
Theorem rejected_presence_is_cached `{Ed25519} `{Blake3} `{Aead} `{Platform}
    (d : PresenceDirectory) (config : ValidatedNetworkConfig) (p : EncryptedPresenceRecord) (now : Z) (r : PresenceRecord)
    (url : bytes) :
  cfg_network_id (vc_inner config) = dir_network_id d -> lk_network_id (dir_lookup d) = dir_network_id d ->
  Presence_open p config now = Ok r -> (Cache_apply (dir_cache d) r).2 = Ok true ->
  CandidateRelay url ∈ pr_candidates r -> relay_url_parse url = None ->
  exists d', apply_encrypted d config p now = (d', Err InvalidPresence) /\ dir_lookup d' = dir_lookup d /\
    (forall a, a ∈ pr_virtual_addrs r -> Directory_resolve d' a now = Some (pr_endpoint_id r)) /\
    apply_encrypted d' config p now = (d', Ok false).
Proof.
  intros Hn Hl Ho Hc Hin Hu; destruct (Cache_apply (dir_cache d) r) as [c res] eqn:Hca; cbn in Hc; subst res.
  pose proof (Presence_open_network _ _ _ _ Ho) as Hnet; pose proof (stored_cache _ _ _ Hca) as Hst.
  assert (Hap : apply_presence (dir_lookup d) r = (dir_lookup d, Err InvalidPresence)).
  { unfold apply_presence; rewrite bool_decide_true by congruence; cbn [negb].
    assert (try_map candidate_transport (pr_candidates r) = Err InvalidPresence) as ->; [|done]; clear -Hin Hu.
    induction (pr_candidates r) as [|x l IH]; [by apply not_elem_of_nil in Hin|]; cbn.
    apply elem_of_cons in Hin as [<-|Hin]; [cbn; by rewrite Hu|].
    destruct x as [s|u]; cbn; [by rewrite IH|]; destruct (relay_url_parse u); cbn; [by rewrite IH | done]. }
  exists (mkDirectory (dir_network_id d) c (dir_lookup d)); split_and!.
  - unfold apply_encrypted; rewrite bool_decide_true by done; cbn [negb]; by rewrite Ho, Hca, Hap.
  - done.
  - intros a Ha; unfold Directory_resolve, Cache_get; cbn.
    assert (pc_records c !! (dir_network_id d, a) = Some r) as ->.
    { pose proof (Cache_apply_cases (dir_cache d) r) as Hcs; rewrite Hca in Hcs; inversion Hcs as [| | |c' _ _ _ Hr]; subst.
      rewrite Hr, lookup_insert_all, decide_True; [done|]; cbn; split; [congruence | done]. }
    assert (now < pr_expires_at_ms r) by (unfold Presence_open, check_presence in Ho; cbv zeta in Ho; res_inv; bool_inv; done).
    cbn; by rewrite (proj2 (Z.ltb_lt _ _)).
  - unfold apply_encrypted; cbn [dir_network_id dir_cache]; rewrite bool_decide_true by done; cbn [negb]; rewrite Ho.
    assert (Cache_apply c r = (c, Ok false)) as ->; [|done].
    unfold Cache_apply; rewrite Hst, lookup_insert_eq, Z.ltb_irrefl, Z.eqb_refl, !bool_decide_true by done; done.
Qed.

(** ** Concrete runs *)
Module DirectoryWitness.
Import Samples ValidateWitness PresenceWitness.
Definition config : ValidatedNetworkConfig := mkValidated snapshot.
Definition start : Discovery := mkDiscovery LanWitness.publisher true (mkDirectory toy_network Cache_empty (Lookup_new toy_network)).
Definition run : list DiscoveryEvent := [OnPresence config sealed 320].
Lemma start_ok : discovery_start toy_network LanWitness.here start.
Proof.
  split; [unfold Directory_new; by rewrite decide_True|].
  exists LanWitness.protected, 4433, [IpV4 10 0 0 1], 0, (Ok tt); split; [done | apply LanWitness.spawned].
Qed.
Definition key : NetworkId * EndpointId := (pr_network_id record, pr_endpoint_id record).
Definition cache : PresenceCache := mkCache (insert_all record ∅) (<[key := record]> ∅).
Definition transports : list TransportAddr := Eval vm_compute in
  ok_else [] (try_map candidate_transport (pr_candidates record)).
Definition lookup : WeaverAddressLookup := with_entry (Lookup_new toy_network) (pr_endpoint_id record)
  (mkLookupEntry None (Some transports) (Some transports)) (mkUpdate (pr_endpoint_id record) EncryptedPresence false 3).
Lemma cache_stored : Cache_apply Cache_empty record = (cache, Ok true).
Proof.
  unfold Cache_apply; cbn [Cache_empty pc_records pc_endpoint_records]; rewrite lookup_empty, bool_decide_false by done.
  unfold record; cbn [pr_virtual_addrs existsb]; by rewrite lookup_empty.
Qed.
Lemma presence_applied : apply_presence (Lookup_new toy_network) record = (lookup, Ok tt).
Proof.
  unfold apply_presence; rewrite bool_decide_true by reflexivity; cbn [negb].
  assert (try_map candidate_transport (pr_candidates record) = Ok transports) as -> by reflexivity.
  unfold entry_of; cbn [Lookup_new lk_entries]; by rewrite lookup_empty.
Qed.
Lemma after_run : ds_directory (discovery_run start run) = mkDirectory toy_network cache lookup.
Proof.
  unfold run, discovery_run; cbn [foldl discovery_step ds_directory ds_mdns start].
  unfold apply_encrypted; rewrite bool_decide_true by reflexivity; cbn [negb]; unfold config; rewrite sealed_record_opens.
  cbn [dir_cache dir_lookup dir_network_id]; by rewrite cache_stored, presence_applied.
Qed.
(** A member sees the bound endpoint on its local network. *)
Definition lan_protected : ProtectedLanDiscovery := Eval vm_compute in ok_else LanWitness.protected (Protected_from_config config).
Definition lan_publisher : MdnsLanDiscovery := Eval vm_compute in
  ok_else LanWitness.publisher (Mdns_spawn lan_protected LanWitness.there 4433 [IpV4 10 0 0 1] 0 (Ok tt)).
Definition lan_begin : Discovery := mkDiscovery lan_publisher true (mkDirectory toy_network Cache_empty (Lookup_new toy_network)).
Definition lan_peer_id : bytes := Eval vm_compute in tag_hex (tag_for_slot lan_protected endpoint 0).
Definition lan_peer : Peer := mkPeer (fun k => if decide (k = bstr "v") then Some (Some (bstr "1"))
  else if decide (k = bstr "t") then Some (Some lan_peer_id) else None) [(IpV4 10 0 0 9, 5000)] false.
Definition lan_events : list DiscoveryEvent := [OnLan (PeerSeen lan_peer_id lan_peer 1000); OnLan ObservationReady].
Lemma lan_config : Protected_from_config config = Ok lan_protected.
Proof. vm_compute; reflexivity. Qed.
Lemma lan_start_ok : discovery_start toy_network LanWitness.there lan_begin.
Proof.
  split; [unfold Directory_new; by rewrite decide_True|].
  exists lan_protected, 4433, [IpV4 10 0 0 1], 0, (Ok tt); split; [done | vm_compute; reflexivity].
Qed.
Lemma lan_resolves :
  (Lookup_resolve (dir_lookup (ds_directory (discovery_run lan_begin lan_events))) endpoint).2 = Some (endpoint, [TransportIp (SocketV4 10 0 0 9 5000)]).
Proof. vm_compute; reflexivity. Qed.
Lemma lookup_offers_authenticated_witness :
  (exists i peer_id peer now c ip port, lan_events !! i = Some (OnLan (PeerSeen peer_id peer now)) /\
     (exists p, Protected_from_config c = Ok p /\ in_force (lan_protected, true) (take i lan_events) = (p, true)) /\
     lan_announced c endpoint peer_id peer now /\ (ip, port) ∈ peer_addrs peer /\
     TransportIp (SocketV4 10 0 0 9 5000) = TransportIp (SocketAddr_new ip port)) \/
  (exists r c, accepted toy_network lan_events r /\ pr_endpoint_id r = endpoint /\ c ∈ pr_candidates r /\
     candidate_transport c = Ok (TransportIp (SocketV4 10 0 0 9 5000))).
Proof.
  refine (lookup_offers_authenticated toy_network LanWitness.there lan_begin lan_events endpoint _ _ lan_start_ok
    (ex_intro _ config lan_config) _ lan_resolves _).
  - intros p ifs now answer Hin; unfold lan_events in Hin; rewrite !elem_of_cons in Hin; destruct Hin as [Hin|[Hin|Hin]];
      [discriminate Hin | discriminate Hin | by apply not_elem_of_nil in Hin].
  - apply list_elem_of_here.
Defined.
Lemma directory_index_exact_witness : Directory_resolve (ds_directory (discovery_run start run)) address 400 = Some endpoint.
Proof.
  apply (directory_index_exact toy_network LanWitness.here start run address endpoint 400 start_ok).
  exists record; split_and!; [rewrite after_run; apply lookup_insert_eq | apply list_elem_of_here | done | done |].
  exists config, sealed, 320; split_and!; [apply list_elem_of_here | done | apply sealed_record_opens].
Defined.
Lemma cached_record : pc_endpoint_records (dir_cache (ds_directory (discovery_run start run))) !! key = Some record.
Proof. rewrite after_run; apply lookup_insert_eq. Qed.
Lemma presence_never_rolls_back_witness :
  (exists r', pc_endpoint_records (dir_cache (ds_directory (discovery_run (discovery_run start run) [OnPurge 400]))) !! key = Some r' /\
     not_older record r') \/
  (exists r' now, not_older record r' /\ OnPurge now ∈ [OnPurge 400] /\ pr_expires_at_ms r' <= now).
Proof. exact (presence_never_rolls_back _ [OnPurge 400] key record cached_record). Defined.
Lemma purge_leaves_live_records_witness :
  pc_endpoint_records (dir_cache (Directory_purge_expired (ds_directory (discovery_run start run)) 460)) !! key = None.
Proof.
  destruct (purge_leaves_live_records toy_network LanWitness.here start run 460 start_ok) as [Hk _].
  apply eq_None_not_Some; intros [r [Hr Hx]%Hk]; rewrite cached_record in Hr; injection Hr as <-; revert Hx; by vm_compute.
Defined.

(** A platform that accepts no relay URL. *)
Definition no_urls : Platform := {|
  endpoint_public secret := secret; endpoint_id_valid bs := Nat.eqb (length bs) 32; relay_url_parse _ := None;
  endpoint_data ts := ts |}.
Lemma sealed_opens_here : Presence_open (H2 := no_urls) sealed config 320 = Ok record.
Proof. vm_compute; reflexivity. Qed.
Lemma rejected_presence_is_cached_witness :
  exists d', apply_encrypted (H2 := no_urls) (ds_directory start) config sealed 320 = (d', Err InvalidPresence) /\
    dir_lookup d' = Lookup_new toy_network /\
    (forall a, a ∈ pr_virtual_addrs record -> Directory_resolve d' a 320 = Some (pr_endpoint_id record)) /\
    apply_encrypted (H2 := no_urls) d' config sealed 320 = (d', Ok false).
Proof.
  refine (rejected_presence_is_cached (H2 := no_urls) (ds_directory start) config sealed 320 record (bstr "https://relay")
    eq_refl eq_refl sealed_opens_here _ _ eq_refl).
  - cbn [start ds_directory dir_cache]; by rewrite cache_stored.
  - unfold record; cbn [pr_candidates]; do 2 right; left.
Defined.
End DirectoryWitness.
