(* ===== verification/Envelope.v ===== *)
(** * weaver-config: encrypted configuration envelopes

    Models [crates/weaver-config/src/lib.rs]: the signed and encrypted envelope
    around a configuration snapshot, its wire format, sealing (by the root and by
    an online administrator), opening with a chain expectation, and the update
    batches that carry a stretch of the revision chain. *)

From S2P Require Import Prelude Wire Core CertificateWire Certificates Symmetric ToyCrypto Snapshot Validate.

(* weaver-config/src/lib.rs:35-35 ENVELOPE_MAGIC *)
Definition ENVELOPE_MAGIC : bytes := bstr "WVRCFG" ++ [Byte.x00; Byte.x01].
(* weaver-config/src/lib.rs:36-36 FORMAT_VERSION *)
Definition FORMAT_VERSION : Z := 1.
(* weaver-config/src/lib.rs:37-37 CONTENT_KEY_LEN *)
Definition CONTENT_KEY_LEN : nat := 32.
(* weaver-config/src/lib.rs:38-38 NONCE_LEN *)
Definition NONCE_LEN : nat := 24.
(* weaver-config/src/lib.rs:40-40 MAX_CONFIG_PLAINTEXT *)
Definition MAX_CONFIG_PLAINTEXT : Z := 1024 * 1024.
(* weaver-config/src/lib.rs:41-41 MAX_CIPHERTEXT *)
Definition MAX_CIPHERTEXT : Z := MAX_CONFIG_PLAINTEXT + 32.
(* weaver-config/src/lib.rs:42-42 MAX_KEY_WRAPS *)
Definition MAX_KEY_WRAPS : Z := 256.
(* weaver-config/src/lib.rs:43-43 MAX_WRAP_PART *)
Definition MAX_WRAP_PART : Z := 1024.
(* weaver-config/src/lib.rs:44-44 HPKE_INFO *)
Definition HPKE_INFO : bytes := bstr "weaver.config-key-wrap.v1".
(* weaver-config/src/lib.rs:45-45 UPDATE_BATCH_MAGIC *)
Definition UPDATE_BATCH_MAGIC : bytes := bstr "WVRUPD" ++ [Byte.x00; Byte.x01].
(* weaver-config/src/lib.rs:46-46 MAX_UPDATE_ENVELOPES *)
Definition MAX_UPDATE_ENVELOPES : Z := 1024.
(* weaver-config/src/lib.rs:47-47 MAX_UPDATE_BATCH_BYTES *)
Definition MAX_UPDATE_BATCH_BYTES : Z := 16 * 1024 * 1024.

(* weaver-config/src/lib.rs:667-708 ConfigError *)
Inductive ConfigError : Type :=
| CfgRandomnessUnavailable
| InvalidMemberKey
| InvalidRecipientCount
| PayloadTooLarge
| EncryptionFailed
| DecryptionFailed
| KeyWrapFailed
| NoRecipientWrap
| CfgMalformedWire
| UnsupportedVersion (version : Z)
| CfgWrongNetwork
| WrongSigner
| CfgPermissionDenied
| SignatureError (e : CertificateError)
| ChainMismatch
| PayloadHashMismatch
| EnvelopePayloadMismatch
| SnapshotFailed (e : SnapshotError)
| RecipientSetMismatch
| UpdateBatchTooLarge.

(* weaver-config/src/lib.rs:50-53 MemberEncryptionKeypair *)
Record MemberEncryptionKeypair : Type := mkEncryptionKeypair { ek_secret : bytes; ek_public : bytes }.
(* weaver-config/src/lib.rs:108-111 KeyWrap *)
Record KeyWrap : Type := mkKeyWrap { kw_encapsulated_key : bytes; kw_ciphertext : bytes }.
(* weaver-config/src/lib.rs:114-127 EncryptedConfigEnvelope *)
Record EncryptedConfigEnvelope : Type := mkEnvelope {
  env_format_version : Z;
  env_network_id : NetworkId;
  env_epoch : Z;
  env_revision : Z;
  env_previous_hash : bytes;
  env_payload_hash : bytes;
  env_nonce : bytes;
  env_ciphertext : bytes;
  env_member_key_wraps : list KeyWrap;
  env_signer_key_id : bytes;
  env_signed_bytes : bytes;
  env_signature : bytes;
}.
(* weaver-config/src/lib.rs:541-545 ConfigHead *)
Record ConfigHead : Type := mkConfigHead { head_epoch : Z; head_revision : Z; head_hash : bytes }.
(* weaver-config/src/lib.rs:553-557 ConfigUpdateBatch *)
Record ConfigUpdateBatch : Type := mkBatch {
  ub_network_id : NetworkId; ub_base_head : ConfigHead; ub_envelopes : list bytes }.
(* weaver-config/src/lib.rs:648-652 ChainExpectation *)
Inductive ChainExpectation : Type :=
| Genesis
| Next (head : ConfigHead)
| Checkpoint (head : ConfigHead).
(* weaver-config/src/lib.rs:655-658 OpenedConfig *)
Record OpenedConfig : Type := mkOpenedConfig { op_plaintext : bytes; op_head : ConfigHead }.
(* weaver-config/src/lib.rs:661-664 OpenedNetworkConfig *)
Record OpenedNetworkConfig : Type := mkOpenedNetworkConfig {
  onc_config : ValidatedNetworkConfig; onc_head : ConfigHead }.
#[global] Instance ConfigHead_eq_dec : EqDecision ConfigHead.
Proof. solve_decision. Defined.

(** ** Wire format of an envelope *)
(* weaver-config/src/lib.rs:524-534 encode_signed_bytes *)
Definition encode_wrap (w : KeyWrap) : result ConfigError bytes :=
  fail_if ((65535 <? len (kw_encapsulated_key w)) || (65535 <? len (kw_ciphertext w))) CfgMalformedWire;;
  Ok (to_be 2 (len (kw_encapsulated_key w)) ++ kw_encapsulated_key w
      ++ to_be 2 (len (kw_ciphertext w)) ++ kw_ciphertext w).
(* weaver-config/src/lib.rs:506-537 EncryptedConfigEnvelope::encode_signed_bytes *)
Definition encode_signed_bytes (e : EncryptedConfigEnvelope) : result ConfigError bytes :=
  fail_if ((4294967295 <? len (env_ciphertext e)) || (65535 <? len (env_member_key_wraps e))) CfgMalformedWire;;
  wraps ← try_map encode_wrap (env_member_key_wraps e);
  Ok (ENVELOPE_MAGIC ++ to_be 2 (env_format_version e) ++ NetworkId_as_bytes (env_network_id e)
      ++ to_be 8 (env_epoch e) ++ to_be 8 (env_revision e) ++ env_previous_hash e ++ env_payload_hash e
      ++ env_nonce e ++ to_be 4 (len (env_ciphertext e)) ++ env_ciphertext e
      ++ to_be 2 (len (env_member_key_wraps e)) ++ concat wraps ++ env_signer_key_id e).

#[local] Abbreviation array := (d_array CfgMalformedWire).
#[local] Abbreviation u16 := (d_u16 CfgMalformedWire).
#[local] Abbreviation u32 := (d_u32 CfgMalformedWire).
#[local] Abbreviation u64 := (d_u64 CfgMalformedWire).
#[local] Abbreviation take_bytes := (d_take CfgMalformedWire).

(* weaver-config/src/lib.rs:314-327 from_bytes *)
Definition d_wrap : dec ConfigError KeyWrap :=
  enc_len ← u16;
  lift (fail_if ((enc_len =? 0) || (MAX_WRAP_PART <? enc_len)) CfgMalformedWire);;
  encapsulated_key ← take_bytes enc_len;
  wrapped_len ← u16;
  lift (fail_if ((wrapped_len =? 0) || (MAX_WRAP_PART <? wrapped_len)) CfgMalformedWire);;
  ciphertext ← take_bytes wrapped_len;
  mret (mkKeyWrap encapsulated_key ciphertext).
(* weaver-config/src/lib.rs:291-344 EncryptedConfigEnvelope::from_bytes *)
Definition d_envelope (signed_bytes signature : bytes) : dec ConfigError EncryptedConfigEnvelope :=
  d_magic CfgMalformedWire ENVELOPE_MAGIC;;
  format_version ← u16;
  lift (fail_if (negb (format_version =? FORMAT_VERSION)) (UnsupportedVersion format_version));;
  network_id ← array 32; epoch ← u64; revision ← u64; previous_hash ← array 32;
  payload_hash ← array 32; nonce ← array NONCE_LEN;
  ciphertext_len ← u32;
  lift (fail_if (MAX_CIPHERTEXT <? ciphertext_len) PayloadTooLarge);;
  ciphertext ← take_bytes ciphertext_len;
  wrap_count ← u16;
  lift (fail_if ((wrap_count =? 0) || (MAX_KEY_WRAPS <? wrap_count)) InvalidRecipientCount);;
  member_key_wraps ← d_repeat d_wrap (Z.to_nat wrap_count);
  signer_key_id ← array 16;
  d_finish CfgMalformedWire;;
  mret {| env_format_version := format_version; env_network_id := NetworkId_from_bytes network_id;
          env_epoch := epoch; env_revision := revision; env_previous_hash := previous_hash;
          env_payload_hash := payload_hash; env_nonce := nonce; env_ciphertext := ciphertext;
          env_member_key_wraps := member_key_wraps; env_signer_key_id := signer_key_id;
          env_signed_bytes := signed_bytes; env_signature := signature |}.
(* weaver-config/src/lib.rs:282-345 EncryptedConfigEnvelope::from_bytes *)
Definition Envelope_from_bytes (bs : bytes) : result ConfigError EncryptedConfigEnvelope :=
  fail_if (Nat.ltb (length bs) SIGNATURE_LEN) CfgMalformedWire;;
  let signed_len := (length bs - SIGNATURE_LEN)%nat in
  let signed_bytes := take signed_len bs in
  run_decoder (d_envelope signed_bytes (drop signed_len bs)) signed_bytes.
(* weaver-config/src/lib.rs:347-352 EncryptedConfigEnvelope::to_bytes *)
Definition Envelope_to_bytes (e : EncryptedConfigEnvelope) : bytes := env_signed_bytes e ++ env_signature e.

(* weaver-config/src/lib.rs:775-790 envelope_aad *)
Definition envelope_aad (network_id : NetworkId) (epoch revision : Z) (previous_hash payload_hash : bytes) : bytes :=
  bstr "WVRCFGA" ++ [Byte.x01] ++ NetworkId_as_bytes network_id ++ to_be 8 epoch ++ to_be 8 revision
  ++ previous_hash ++ payload_hash.

(** ** Shuffling *)
(** [items.swap(i, j)] *)
Definition swap {A} (i j : nat) (items : list A) : list A :=
  match items !! i, items !! j with
  | Some a, Some b => <[i := b]> (<[j := a]> items)
  | _, _ => items
  end.
(** The iterations for [index], [index - 1], ..., [1]. *)
Fixpoint shuffle_from {A} (index : nat) (items : list A) : rnd ConfigError (list A) :=
  match index with
  | O => mret items
  | S below =>
      random ← fill CfgRandomnessUnavailable 8;
      let selected := Z.to_nat (from_be (rev random) mod (Z.of_nat index + 1)) in
      shuffle_from below (swap index selected items)
  end.
(* weaver-config/src/lib.rs:820-828 shuffle *)
Definition shuffle {A} (items : list A) : rnd ConfigError (list A) := shuffle_from (length items - 1) items.

Section envelope.
Context `{Ed25519} `{Blake3} `{Aead} `{Hpke}.
Implicit Types (e : EncryptedConfigEnvelope) (root : NetworkRootPublic) (net : NetworkId) (now : Z).

(** ** Keys and key wraps *)
(* weaver-config/src/lib.rs:74-87 MemberEncryptionKeypair::from_secret_bytes *)
Definition Keypair_from_secret_bytes (secret : bytes) : result ConfigError MemberEncryptionKeypair :=
  fail_if (negb (kem_sk_valid secret)) InvalidMemberKey;;
  let public := kem_sk_to_pk secret in
  fail_if (negb (Nat.eqb (length public) 32)) InvalidMemberKey;;
  Ok (mkEncryptionKeypair secret public).
(* weaver-config/src/lib.rs:733-750 wrap_content_key *)
Definition wrap_content_key (content_key aad recipient_public : bytes) : rnd ConfigError KeyWrap :=
  rlift (fail_if (negb (kem_pk_valid recipient_public)) InvalidMemberKey);;
  seed ← draw;
  w ← rlift (hpke_seal seed recipient_public HPKE_INFO aad content_key ?? KeyWrapFailed);
  mret (mkKeyWrap w.1 w.2).
(** [EncappedKey::from_bytes] and [setup_receiver] report the same error as [open]. *)
(* weaver-config/src/lib.rs:752-773 unwrap_content_key *)
Definition unwrap_content_key (recipient : MemberEncryptionKeypair) (wrap : KeyWrap) (aad : bytes)
    : result ConfigError bytes :=
  fail_if (negb (kem_sk_valid (ek_secret recipient))) InvalidMemberKey;;
  key ← hpke_open (ek_secret recipient) (kw_encapsulated_key wrap) HPKE_INFO aad (kw_ciphertext wrap)
          ?? KeyWrapFailed;
  fail_if (negb (Nat.eqb (length key) CONTENT_KEY_LEN)) KeyWrapFailed;;
  Ok key.
(* weaver-config/src/lib.rs:354-356 EncryptedConfigEnvelope::envelope_hash *)
Definition envelope_hash e : bytes := blake3_hash (Envelope_to_bytes e).
Definition envelope_aad_of e : bytes :=
  envelope_aad (env_network_id e) (env_epoch e) (env_revision e) (env_previous_hash e) (env_payload_hash e).
(* weaver-config/src/lib.rs:465-469 open_after_verified_signature *)
Definition envelope_head e : ConfigHead := mkConfigHead (env_epoch e) (env_revision e) (envelope_hash e).

(** ** Sealing *)
(* weaver-config/src/lib.rs:710-731 validate_recipient_set *)
Definition validate_recipient_set (config : NetworkConfigV1) (recipients : list bytes) : result ConfigError unit :=
  keys ← map_err SignatureError
           (try_map (fun raw => certificate ← MemberCertificate_from_bytes raw;
                                Ok (mc_encryption_public_key (payload certificate))) (cfg_members config));
  let expected : gset bytes := list_to_set keys in
  let actual : gset bytes := list_to_set recipients in
  fail_if (negb (Nat.eqb (size expected) (length (cfg_members config)))
           || negb (Nat.eqb (size actual) (length recipients))
           || negb (bool_decide (expected = actual))) RecipientSetMismatch.
(* weaver-config/src/lib.rs:222-280 EncryptedConfigEnvelope::seal_with_signer *)
Definition seal_with_signer (network_id : NetworkId) (signer_key_id : bytes) (sign : bytes -> bytes)
    (epoch revision : Z) (previous_hash plaintext : bytes) (recipients : list bytes)
    : rnd ConfigError EncryptedConfigEnvelope :=
  rlift (fail_if (MAX_CONFIG_PLAINTEXT <? len plaintext) PayloadTooLarge);;
  rlift (fail_if (bool_decide (recipients = []) || (MAX_KEY_WRAPS <? len recipients)) InvalidRecipientCount);;
  let payload_hash := blake3_hash plaintext in
  content_key ← fill CfgRandomnessUnavailable CONTENT_KEY_LEN;
  nonce ← fill CfgRandomnessUnavailable NONCE_LEN;
  let aad := envelope_aad network_id epoch revision previous_hash payload_hash in
  ciphertext ← rlift (aead_encrypt content_key nonce aad plaintext ?? EncryptionFailed);
  member_key_wraps ← rnd_map (wrap_content_key content_key aad) recipients;
  member_key_wraps ← shuffle member_key_wraps;
  let unsigned := {|
    env_format_version := FORMAT_VERSION; env_network_id := network_id; env_epoch := epoch;
    env_revision := revision; env_previous_hash := previous_hash; env_payload_hash := payload_hash;
    env_nonce := nonce; env_ciphertext := ciphertext; env_member_key_wraps := member_key_wraps;
    env_signer_key_id := signer_key_id; env_signed_bytes := []; env_signature := [] |} in
  signed_bytes ← rlift (encode_signed_bytes unsigned);
  mret {|
    env_format_version := FORMAT_VERSION; env_network_id := network_id; env_epoch := epoch;
    env_revision := revision; env_previous_hash := previous_hash; env_payload_hash := payload_hash;
    env_nonce := nonce; env_ciphertext := ciphertext; env_member_key_wraps := member_key_wraps;
    env_signer_key_id := signer_key_id; env_signed_bytes := signed_bytes;
    env_signature := sign signed_bytes |}.
(* weaver-config/src/lib.rs:201-220 EncryptedConfigEnvelope::seal *)
Definition seal (root : NetworkRootKey) (epoch revision : Z) (previous_hash plaintext : bytes)
    (recipients : list bytes) : rnd ConfigError EncryptedConfigEnvelope :=
  let public := NetworkRootKey_public root in
  seal_with_signer (root_network_id public) (root_key_id public) (NetworkRootKey_sign_bytes root)
    epoch revision previous_hash plaintext recipients.
(* weaver-config/src/lib.rs:130-149 EncryptedConfigEnvelope::seal_config *)
Definition seal_config (root : NetworkRootKey) (config : NetworkConfigV1) (recipients : list bytes)
    : rnd ConfigError EncryptedConfigEnvelope :=
  let root_public := NetworkRootKey_public root in
  rlift (map_err SnapshotFailed
    (validate config root_public (root_network_id root_public) (cfg_issued_at_ms config)));;
  rlift (validate_recipient_set config recipients);;
  plaintext ← rlift (map_err SnapshotFailed (NetworkConfigV1_to_bytes config));
  seal root (cfg_epoch config) (cfg_revision config) (cfg_previous_hash config) plaintext recipients.
(* weaver-config/src/lib.rs:151-199 EncryptedConfigEnvelope::seal_next_config *)
Definition seal_next_config root (admin : OnlineAdminKey) (current_config : ValidatedNetworkConfig)
    (current_head : ConfigHead) (next_config : NetworkConfigV1) (recipients : list bytes) now
    : rnd ConfigError EncryptedConfigEnvelope :=
  let current := vc_inner current_config in
  rlift (fail_if (negb (bool_decide (cfg_network_id current = root_network_id root))
                  || negb (cfg_revision current =? head_revision current_head)
                  || negb (cfg_epoch current =? head_epoch current_head)) EnvelopePayloadMismatch);;
  verified ← rlift (map_err SnapshotFailed
               (verified_admin current_config root (OnlineAdminKey_key_id admin) now));
  rlift (fail_if (negb (bool_decide (adm_public_key (va_payload verified) = OnlineAdminKey_public_bytes admin)))
    WrongSigner);;
  rlift (fail_if (Z.land (adm_permissions (va_payload verified)) ADMIN_PERMISSION_CONFIG_WRITE =? 0)
    CfgPermissionDenied);;
  rlift (fail_if (negb (bool_decide (cfg_network_id next_config = root_network_id root))) ChainMismatch);;
  next_revision ← rlift (checked_add (head_revision current_head) 1 ?? ChainMismatch);
  rlift (fail_if (negb (cfg_revision next_config =? next_revision)
                  || negb (bool_decide (cfg_previous_hash next_config = head_hash current_head))
                  || (cfg_epoch next_config <? head_epoch current_head)) ChainMismatch);;
  rlift (map_err SnapshotFailed
    (validate next_config root (root_network_id root) (cfg_issued_at_ms next_config)));;
  rlift (validate_recipient_set next_config recipients);;
  plaintext ← rlift (map_err SnapshotFailed (NetworkConfigV1_to_bytes next_config));
  seal_with_signer (root_network_id root) (OnlineAdminKey_key_id admin) (OnlineAdminKey_sign_bytes admin)
    (cfg_epoch next_config) (cfg_revision next_config) (cfg_previous_hash next_config) plaintext recipients.

(** ** Opening *)
(* weaver-config/src/lib.rs:792-818 validate_chain *)
Definition validate_chain e (expectation : ChainExpectation) : result ConfigError unit :=
  match expectation with
  | Genesis => fail_if (negb ((env_revision e =? 0) && bool_decide (env_previous_hash e = zero32))) ChainMismatch
  | Next head =>
      fail_if (negb (bool_decide (checked_add (head_revision head) 1 = Some (env_revision e))
                     && bool_decide (env_previous_hash e = head_hash head)
                     && (head_epoch head <=? env_epoch e))) ChainMismatch
  | Checkpoint head =>
      fail_if (negb ((env_epoch e =? head_epoch head) && (env_revision e =? head_revision head)
                     && bool_decide (envelope_hash e = head_hash head))) ChainMismatch
  end.
(** The first wrap the recipient can open. *)
(* weaver-config/src/lib.rs:440-446 open_after_verified_signature *)
Fixpoint find_content_key (recipient : MemberEncryptionKeypair) (aad : bytes) (wraps : list KeyWrap) : option bytes :=
  match wraps with
  | [] => None
  | w :: wraps => match unwrap_content_key recipient w aad with
                  | Ok key => Some key
                  | Err _ => find_content_key recipient aad wraps
                  end
  end.
(* weaver-config/src/lib.rs:423-471 EncryptedConfigEnvelope::open_after_verified_signature *)
Definition open_after_verified_signature e net (recipient : MemberEncryptionKeypair) (chain : ChainExpectation)
    : result ConfigError OpenedConfig :=
  fail_if (negb (bool_decide (env_network_id e = net))) CfgWrongNetwork;;
  validate_chain e chain;;
  let aad := envelope_aad_of e in
  content_key ← find_content_key recipient aad (env_member_key_wraps e) ?? NoRecipientWrap;
  plaintext ← aead_decrypt content_key (env_nonce e) aad (env_ciphertext e) ?? DecryptionFailed;
  fail_if (negb (bool_decide (blake3_hash plaintext = env_payload_hash e))) PayloadHashMismatch;;
  Ok (mkOpenedConfig plaintext (envelope_head e)).
(* weaver-config/src/lib.rs:485-504 EncryptedConfigEnvelope::decode_and_validate_opened *)
Definition decode_and_validate_opened e root (opened : OpenedConfig) now : result ConfigError OpenedNetworkConfig :=
  config ← map_err SnapshotFailed (NetworkConfigV1_from_bytes (op_plaintext opened));
  fail_if (negb (bool_decide (cfg_network_id config = env_network_id e))
           || negb (cfg_epoch config =? env_epoch e) || negb (cfg_revision config =? env_revision e)
           || negb (bool_decide (cfg_previous_hash config = env_previous_hash e))) EnvelopePayloadMismatch;;
  config ← map_err SnapshotFailed (validate config root (env_network_id e) now);
  Ok (mkOpenedNetworkConfig config (op_head opened)).
(* weaver-config/src/lib.rs:358-374 EncryptedConfigEnvelope::open *)
Definition Envelope_open e root net (recipient : MemberEncryptionKeypair) (chain : ChainExpectation)
    : result ConfigError OpenedConfig :=
  fail_if (negb (bool_decide (env_network_id e = net)) || negb (bool_decide (root_network_id root = net)))
    CfgWrongNetwork;;
  fail_if (negb (bool_decide (env_signer_key_id e = root_key_id root))) WrongSigner;;
  map_err SignatureError (NetworkRootPublic_verify_bytes root (env_signed_bytes e) (env_signature e));;
  open_after_verified_signature e net recipient chain.
(* weaver-config/src/lib.rs:473-483 EncryptedConfigEnvelope::open_config *)
Definition open_config e root net (recipient : MemberEncryptionKeypair) (chain : ChainExpectation) now
    : result ConfigError OpenedNetworkConfig :=
  opened ← Envelope_open e root net recipient chain;
  decode_and_validate_opened e root opened now.
(* weaver-config/src/lib.rs:399-421 EncryptedConfigEnvelope::open_config_with_verified_admin *)
Definition open_config_with_verified_admin e root (admin : VerifiedAdmin) (recipient : MemberEncryptionKeypair)
    (chain : ChainExpectation) now : result ConfigError OpenedNetworkConfig :=
  fail_if (negb (bool_decide (root_network_id root = env_network_id e))
           || negb (bool_decide (adm_network_id (va_payload admin) = env_network_id e))) CfgWrongNetwork;;
  fail_if (negb (bool_decide (env_signer_key_id e = adm_key_id (va_payload admin)))) WrongSigner;;
  fail_if (Z.land (adm_permissions (va_payload admin)) ADMIN_PERMISSION_CONFIG_WRITE =? 0) CfgPermissionDenied;;
  map_err SignatureError (VerifiedAdmin_verify_bytes admin (env_signed_bytes e) (env_signature e));;
  opened ← open_after_verified_signature e (env_network_id e) recipient chain;
  decode_and_validate_opened e root opened now.
(* weaver-config/src/lib.rs:376-397 EncryptedConfigEnvelope::open_next_config *)
Definition open_next_config e root (current_config : ValidatedNetworkConfig) (recipient : MemberEncryptionKeypair)
    (current_head : ConfigHead) now : result ConfigError OpenedNetworkConfig :=
  fail_if (negb (bool_decide (root_network_id root = env_network_id e))
           || negb (bool_decide (cfg_network_id (vc_inner current_config) = env_network_id e))) CfgWrongNetwork;;
  admin ← map_err SnapshotFailed (verified_admin current_config root (env_signer_key_id e) now);
  open_config_with_verified_admin e root admin recipient (Next current_head) now.

(** ** Update batches *)
(* weaver-config/src/lib.rs:574-592 ConfigUpdateBatch::new *)
Fixpoint batch_chain (network_id : NetworkId) (expected_revision : Z) (expected_previous : bytes) (total : Z)
    (envelopes : list bytes) : result ConfigError unit :=
  match envelopes with
  | [] => Ok tt
  | raw :: rest =>
      total ← checked_add total (len raw) ?? UpdateBatchTooLarge;
      fail_if (MAX_UPDATE_BATCH_BYTES <? total) UpdateBatchTooLarge;;
      envelope ← Envelope_from_bytes raw;
      fail_if (negb (bool_decide (env_network_id envelope = network_id))
               || negb (env_revision envelope =? expected_revision)
               || negb (bool_decide (env_previous_hash envelope = expected_previous))) ChainMismatch;;
      expected_revision ← checked_add expected_revision 1 ?? ChainMismatch;
      batch_chain network_id expected_revision (envelope_hash envelope) total rest
  end.
(* weaver-config/src/lib.rs:560-598 ConfigUpdateBatch::new *)
Definition Batch_new (network_id : NetworkId) (base_head : ConfigHead) (envelopes : list bytes)
    : result ConfigError ConfigUpdateBatch :=
  fail_if (MAX_UPDATE_ENVELOPES <? len envelopes) UpdateBatchTooLarge;;
  expected_revision ← checked_add (head_revision base_head) 1 ?? ChainMismatch;
  batch_chain network_id expected_revision (head_hash base_head) 0 envelopes;;
  Ok (mkBatch network_id base_head envelopes).
(* weaver-config/src/lib.rs:609-614 ConfigUpdateBatch::to_bytes *)
Definition push_envelope (envelope : bytes) : result ConfigError bytes :=
  fail_if (negb (is_u32 (len envelope))) UpdateBatchTooLarge;;
  Ok (to_be 4 (len envelope) ++ envelope).
(* weaver-config/src/lib.rs:600-616 ConfigUpdateBatch::to_bytes *)
Definition Batch_to_bytes (b : ConfigUpdateBatch) : result ConfigError bytes :=
  validated ← Batch_new (ub_network_id b) (ub_base_head b) (ub_envelopes b);
  envelopes ← try_map push_envelope (ub_envelopes validated);
  Ok (UPDATE_BATCH_MAGIC ++ NetworkId_as_bytes (ub_network_id validated)
      ++ to_be 8 (head_epoch (ub_base_head validated)) ++ to_be 8 (head_revision (ub_base_head validated))
      ++ head_hash (ub_base_head validated) ++ to_be 4 (len (ub_envelopes validated)) ++ concat envelopes).
(* weaver-config/src/lib.rs:636-640 ConfigUpdateBatch::from_bytes *)
Definition d_batch_envelope : dec ConfigError bytes :=
  n ← u32;
  lift (fail_if (MAX_UPDATE_BATCH_BYTES <? n) UpdateBatchTooLarge);;
  take_bytes n.
(* weaver-config/src/lib.rs:618-644 ConfigUpdateBatch::from_bytes *)
Definition Batch_from_bytes (bs : bytes) : result ConfigError ConfigUpdateBatch :=
  fail_if (MAX_UPDATE_BATCH_BYTES <? len bs) UpdateBatchTooLarge;;
  run_decoder (
    d_magic CfgMalformedWire UPDATE_BATCH_MAGIC;;
    network_id ← array 32;
    epoch ← u64; revision ← u64; hash ← array 32;
    count ← u32;
    lift (fail_if (MAX_UPDATE_ENVELOPES <? count) UpdateBatchTooLarge);;
    envelopes ← d_repeat d_batch_envelope (Z.to_nat count);
    d_finish CfgMalformedWire;;
    lift (Batch_new (NetworkId_from_bytes network_id) (mkConfigHead epoch revision hash) envelopes)) bs.
End envelope.
