(* ===== verification/EnvelopeChain.v ===== *)
(** * Properties of configuration envelopes

    The theorems about [Envelope]: the wire formats of envelopes and batches are
    exact, a sealed envelope opens for every recipient, what opens was signed by
    a key the current configuration (or the root) authorises and extends the
    chain, and a batch commits to every envelope it carries. *)

From S2P Require Import Prelude Wire Core CertificateWire Certificates Symmetric ToyCrypto Snapshot Validate Envelope.

(** ** Wire format *)
Definition part_wf (bs : bytes) : Prop := 0 < len bs <= MAX_WRAP_PART.
Definition wrap_wf (w : KeyWrap) : Prop := part_wf (kw_encapsulated_key w) /\ part_wf (kw_ciphertext w).
Record envelope_wf (e : EncryptedConfigEnvelope) : Prop := {
  ew_version : env_format_version e = FORMAT_VERSION;
  ew_network : NetworkId_wf (env_network_id e);
  ew_epoch : is_u64 (env_epoch e) = true;
  ew_revision : is_u64 (env_revision e) = true;
  ew_previous : length (env_previous_hash e) = 32%nat;
  ew_payload : length (env_payload_hash e) = 32%nat;
  ew_nonce : length (env_nonce e) = NONCE_LEN;
  ew_ciphertext : len (env_ciphertext e) <= MAX_CIPHERTEXT;
  ew_count : 0 < len (env_member_key_wraps e) <= MAX_KEY_WRAPS;
  ew_wraps : Forall wrap_wf (env_member_key_wraps e);
  ew_signer : length (env_signer_key_id e) = 16%nat;
  ew_signed : encode_signed_bytes e = Ok (env_signed_bytes e);
  ew_signature : length (env_signature e) = SIGNATURE_LEN;
}.

Definition wrap_bytes (w : KeyWrap) : bytes :=
  to_be 2 (len (kw_encapsulated_key w)) ++ kw_encapsulated_key w
  ++ to_be 2 (len (kw_ciphertext w)) ++ kw_ciphertext w.

Section wire.
Lemma part_range bs : part_wf bs -> is_u16 (len bs) = true /\
  fail_if ((len bs =? 0) || (MAX_WRAP_PART <? len bs)) CfgMalformedWire = Ok tt.
Proof.
  unfold part_wf, MAX_WRAP_PART; intros ?; split; [unfold in_range; passes | apply fail_if_Ok; passes].
Qed.

Lemma encode_wrap_Ok w : wrap_wf w -> encode_wrap w = Ok (wrap_bytes w).
Proof.
  intros [H1 H2]; unfold part_wf, MAX_WRAP_PART in *; unfold encode_wrap.
  apply bind_Ok; exists tt; split; [apply fail_if_Ok; passes | done].
Qed.

Lemma encode_wraps_Ok ws : Forall wrap_wf ws -> try_map encode_wrap ws = Ok (wrap_bytes <$> ws).
Proof.
  intros Hws; apply try_map_Ok; induction Hws; constructor; [by apply encode_wrap_Ok | done].
Qed.

Lemma steps_wrap w s : wrap_wf w -> steps d_wrap (wrap_bytes w ++ s) w s.
Proof.
  destruct w as [a b]; intros [Ha Hb]; cbn in *.
  destruct (part_range a Ha), (part_range b Hb); unfold d_wrap, wrap_bytes; cbn; parse.
Qed.

#[global] Instance reads_wrap : Reads d_wrap (fun w x => wrap_wf w /\ x = wrap_bytes w).
Proof.
  intros d s w d' Hs Hw; unfold d_wrap in Hw; unparse; res_inv; bool_inv.
  repeat match goal with
  | Hl : 0 <= ?n -> len ?a = ?n, Hr : is_u16 ?n = true |- _ =>
      assert (len a = n) as <- by (apply Hl; unfold in_range in Hr; bool_inv; lia); clear Hl end.
  eexists _, _; split_and!; [|done| |reflexivity]; [by unfold wrap_bytes; cbn; rewrite <- ?app_assoc|].
  split; unfold part_wf, len in *; cbn; lia.
Qed.

(** The bytes that are signed, as a function of the other fields. *)
Definition signed_of (e : EncryptedConfigEnvelope) : bytes :=
  ENVELOPE_MAGIC ++ to_be 2 (env_format_version e) ++ NetworkId_as_bytes (env_network_id e)
  ++ to_be 8 (env_epoch e) ++ to_be 8 (env_revision e) ++ env_previous_hash e ++ env_payload_hash e
  ++ env_nonce e ++ to_be 4 (len (env_ciphertext e)) ++ env_ciphertext e
  ++ to_be 2 (len (env_member_key_wraps e)) ++ concat (wrap_bytes <$> env_member_key_wraps e) ++ env_signer_key_id e.

Lemma encode_signed_Ok e :
  Forall wrap_wf (env_member_key_wraps e) -> len (env_ciphertext e) <= MAX_CIPHERTEXT ->
  len (env_member_key_wraps e) <= MAX_KEY_WRAPS -> encode_signed_bytes e = Ok (signed_of e).
Proof.
  unfold MAX_CIPHERTEXT, MAX_KEY_WRAPS, MAX_CONFIG_PLAINTEXT; intros Hw Hc Hn; unfold encode_signed_bytes.
  apply bind_Ok; exists tt; split; [apply fail_if_Ok; passes|].
  by rewrite (encode_wraps_Ok _ Hw).
Qed.

Lemma steps_envelope e :
  envelope_wf e -> steps (d_envelope (env_signed_bytes e) (env_signature e)) (signed_of e ++ []) e [].
Proof.
  intros []; destruct e as [fv [net] ep rev prev ph nonce ct ws sk sb sg]; cbn in *; subst fv.
  unfold NetworkId_wf in *; cbn in *; unfold d_envelope, signed_of; cbn.
  assert (is_u32 (len ct) = true) by (unfold MAX_CIPHERTEXT, MAX_CONFIG_PLAINTEXT in *; unfold in_range, len in *; passes).
  assert (is_u16 (len ws) = true) by (unfold MAX_KEY_WRAPS in *; unfold in_range, len in *; passes).
  assert (fail_if (negb (FORMAT_VERSION =? FORMAT_VERSION)) (UnsupportedVersion FORMAT_VERSION) = Ok tt) by done.
  assert (fail_if (MAX_CIPHERTEXT <? len ct) PayloadTooLarge = Ok tt) by (apply fail_if_Ok; passes).
  assert (fail_if ((len ws =? 0) || (MAX_KEY_WRAPS <? len ws)) InvalidRecipientCount = Ok tt)
    by (apply fail_if_Ok; passes).
  pose proof (fun s => steps_repeat d_wrap wrap_bytes wrap_wf ws s (fun w s H => steps_wrap w s H) ew_wraps0) as Hr.
  replace (length ws) with (Z.to_nat (len ws)) in Hr by (unfold len; lia).
  assert (is_u16 FORMAT_VERSION = true) by done.
  rewrite <- ?app_assoc; parse.
Qed.

Lemma d_envelope_Ok sb sg e :
  length sg = SIGNATURE_LEN -> run_decoder (d_envelope sb sg) sb = Ok e ->
  envelope_wf e /\ env_signed_bytes e = sb /\ env_signature e = sg.
Proof.
  intros Hsg Hd; unfold d_envelope in Hd; unparse; res_inv; bool_inv.
  match goal with Hv : _ = FORMAT_VERSION |- _ => rewrite ?Hv in * end.
  repeat match goal with
  | Hl : 0 <= ?n -> len ?a = ?n, Hr : is_u32 ?n = true |- _ =>
      assert (len a = n) as <- by (apply Hl; unfold in_range in Hr; bool_inv; lia); clear Hl
  | Hf : Forall2 (fun w x => wrap_wf w /\ x = wrap_bytes w) ?ws ?ys |- _ =>
      assert (Forall wrap_wf ws /\ ys = wrap_bytes <$> ws) as [? ->]
        by (clear -Hf; induction Hf; [done|]; naive_solver); clear Hf
  | Hx : exists _, _ |- _ => destruct Hx
  | Hx : _ /\ _ |- _ => destruct Hx
  end; subst.
  match goal with
  | Hn : length ?ws = Z.to_nat ?n, Hr : is_u16 ?n = true, Hw : Forall wrap_wf ?ws |- _ =>
      assert (len ws = n) as <- by (unfold in_range in Hr; bool_inv; unfold len; lia); rename Hw into Hws; clear Hn end.
  split; [constructor; cbn; try done; try lia|done].
  - unfold len in *; lia.
  - rewrite encode_signed_Ok; cbn; [|done|lia|lia]; unfold signed_of; cbn; by rewrite ?app_nil_r.
Qed.

Lemma Envelope_from_bytes_exact bs e :
  Envelope_from_bytes bs = Ok e <-> envelope_wf e /\ bs = Envelope_to_bytes e.
Proof.
  unfold Envelope_from_bytes, Envelope_to_bytes; split.
  - intros Hb; apply bind_Ok in Hb as (u & Hl%fail_if_Ok & Hb); cbv zeta in Hb; apply Nat.ltb_ge in Hl.
    apply d_envelope_Ok in Hb as (Hw & -> & ->); [by rewrite take_drop|].
    rewrite length_drop; lia.
  - intros [Hw ->]; rewrite length_app, (ew_signature _ Hw).
    rewrite (proj2 (Nat.ltb_ge _ _)) by lia; cbn [fail_if mbind result_bind]; cbv zeta.
    replace (_ + _ - SIGNATURE_LEN)%nat with (length (env_signed_bytes e)) by lia.
    rewrite take_app_length, drop_app_length; eapply run_steps.
    replace (env_signed_bytes e) with (signed_of e) at 2; [by apply steps_envelope|].
    pose proof (ew_signed _ Hw) as Hs; rewrite encode_signed_Ok in Hs by apply Hw; by apply Ok_inj in Hs.
Qed.
End wire.

(** ** Sealing and opening *)
Section shuffle.
Lemma swap_Permutation {A} i j (items : list A) : swap i j items ≡ₚ items.
Proof.
  unfold swap; destruct (items !! i) as [a|] eqn:Hi, (items !! j) as [b|] eqn:Hj; try done.
  by apply Permutation_insert_swap.
Qed.
Lemma shuffle_Permutation {A} (items : list A) e items' e' :
  shuffle items e = Ok (items', e') -> items' ≡ₚ items.
Proof.
  unfold shuffle; generalize (length items - 1)%nat as n; intros n; revert items e.
  induction n as [|n IH]; intros items e Hs; cbn in Hs.
  - by injection Hs as <- <-.
  - apply rnd_bind_Ok in Hs as (r & e1 & _ & Hs); apply IH in Hs as ->; apply swap_Permutation.
Qed.
End shuffle.

Section sealing.
Context `{Ed25519} `{Blake3} `{Aead} `{Hpke}.

Definition wrapped (content_key aad recipient : bytes) (w : KeyWrap) : Prop :=
  exists seed, hpke_seal seed recipient HPKE_INFO aad content_key
               = Some (kw_encapsulated_key w, kw_ciphertext w).

(** What [seal_with_signer] produces. *)
Record sealed net kid (sign : bytes -> bytes) epoch revision prev plaintext recipients
    (e : EncryptedConfigEnvelope) : Prop := {
  sd_version : env_format_version e = FORMAT_VERSION;
  sd_network : env_network_id e = net;
  sd_epoch : env_epoch e = epoch;
  sd_revision : env_revision e = revision;
  sd_previous : env_previous_hash e = prev;
  sd_payload : env_payload_hash e = blake3_hash plaintext;
  sd_signer : env_signer_key_id e = kid;
  sd_nonce : length (env_nonce e) = NONCE_LEN;
  sd_signed : encode_signed_bytes e = Ok (env_signed_bytes e);
  sd_signature : env_signature e = sign (env_signed_bytes e);
  sd_plaintext : len plaintext <= MAX_CONFIG_PLAINTEXT;
  sd_recipients : 0 < len recipients <= MAX_KEY_WRAPS;
  sd_content : exists ck wraps, length ck = CONTENT_KEY_LEN /\
    aead_encrypt ck (env_nonce e) (envelope_aad_of e) plaintext = Some (env_ciphertext e) /\
    Forall2 (wrapped ck (envelope_aad_of e)) recipients wraps /\ env_member_key_wraps e ≡ₚ wraps;
}.

Lemma rnd_map_wraps ck aad recipients ent ws ent' :
  rnd_map (wrap_content_key ck aad) recipients ent = Ok (ws, ent') -> Forall2 (wrapped ck aad) recipients ws.
Proof.
  intros Hm%rnd_map_Forall2; eapply Forall2_impl; [exact Hm|]; intros r w (e1 & e2 & Hw).
  unfold wrap_content_key in Hw; do 3 rnd_inv Hw; injection Hw as <- <-.
  apply ok_or_Ok in Ha1; destruct a1; by eexists.
Qed.

Lemma seal_with_signer_Ok net kid sign epoch revision prev plaintext recipients ent e ent' :
  seal_with_signer net kid sign epoch revision prev plaintext recipients ent = Ok (e, ent') ->
  sealed net kid sign epoch revision prev plaintext recipients e.
Proof.
  intros Hs; unfold seal_with_signer in Hs.
  rnd_inv Hs; apply fail_if_Ok in Ha; rnd_inv Hs; apply fail_if_Ok in Ha0; bool_inv.
  rnd_inv Hs; apply fill_Ok in Ha1; rnd_inv Hs; apply fill_Ok in Ha2.
  rnd_inv Hs; apply ok_or_Ok in Ha3.
  rnd_inv Hs; apply rnd_map_wraps in Ha4; rnd_inv Hs; apply shuffle_Permutation in Ha5.
  rnd_inv Hs; injection Hs as <- <-.
  constructor; try done; [|eauto 8].
  split; [|done]; unfold len; destruct recipients; [done | cbn; lia].
Qed.

Section laws.
Context `{Laead : !AeadLaws} `{Lhpke : !HpkeLaws} `{Lblake : !Blake3Laws}.

Lemma sealed_wf net kid sign epoch revision prev plaintext recipients e :
  sealed net kid sign epoch revision prev plaintext recipients e ->
  NetworkId_wf net -> length kid = 16%nat -> is_u64 epoch = true -> is_u64 revision = true ->
  length prev = 32%nat -> (forall m, length (sign m) = SIGNATURE_LEN) -> envelope_wf e.
Proof.
  intros [] Hn Hk He Hr Hp Hsg; destruct sd_content0 as (ck & ws & Hck & Hct & Hws & Hperm).
  assert (Forall wrap_wf ws) as Hwf.
  { clear -Hws Hck Lhpke; induction Hws as [|r w rs ws [seed Hw] _ IH]; constructor; [|done].
    apply hpke_sizes in Hw as [He1 He2]; unfold wrap_wf, part_wf, MAX_WRAP_PART, len.
    rewrite He1, He2, Hck; cbn; lia. }
  constructor; try congruence.
  - rewrite sd_payload0; apply blake3_hash_len.
  - apply aead_overhead in Hct; unfold len, MAX_CIPHERTEXT in *; lia.
  - unfold len in *; rewrite Hperm, <- (Forall2_length _ _ _ Hws); done.
  - by rewrite Hperm.
Qed.

Context `{Lexcl : !HpkeExclusive}.

(** A recipient finds the content key, wherever its wrap was shuffled to. *)
Lemma find_content_key_sealed ck aad recipients ws ws' kp :
  Forall2 (wrapped ck aad) recipients ws -> ws' ≡ₚ ws -> length ck = CONTENT_KEY_LEN ->
  kem_sk_valid (ek_secret kp) = true -> kem_sk_to_pk (ek_secret kp) ∈ recipients ->
  find_content_key kp aad ws' = Some ck.
Proof.
  intros Hws Hperm Hck Hsk Hin.
  assert (Hall : forall w, w ∈ ws' -> unwrap_content_key kp w aad = Ok ck \/ exists x, unwrap_content_key kp w aad = Err x).
  { intros w Hw; rewrite Hperm in Hw; apply list_elem_of_lookup_1 in Hw as [i Hi].
    destruct (Forall2_lookup_r _ _ _ _ _ Hws Hi) as (r & _ & seed & Hs).
    unfold unwrap_content_key; rewrite Hsk; cbn; destruct (decide (kem_sk_to_pk (ek_secret kp) = r)) as [<-|Hne].
    - left; rewrite (hpke_round_trip _ _ _ _ _ _ _ Hsk Hs); cbn; by rewrite Hck.
    - right; rewrite (hpke_other_key _ _ _ _ _ _ _ _ Hs Hne); by eexists. }
  assert (Hex : exists w, w ∈ ws' /\ unwrap_content_key kp w aad = Ok ck).
  { apply list_elem_of_lookup_1 in Hin as [i Hi]; destruct (Forall2_lookup_l _ _ _ _ _ Hws Hi) as (w & Hw & seed & Hs).
    exists w; split; [rewrite Hperm; by eapply list_elem_of_lookup_2|].
    unfold unwrap_content_key; rewrite Hsk; cbn; rewrite (hpke_round_trip _ _ _ _ _ _ _ Hsk Hs); cbn; by rewrite Hck. }
  clear Hws Hperm Hin; induction ws' as [|w ws' IH]; cbn; [destruct Hex as (w & Hw & _); by apply elem_of_nil in Hw|].
  destruct (Hall w) as [->|[x Hx]]; [apply elem_of_cons; by left | done|]; rewrite Hx; apply IH.
  - intros w' Hw'; apply Hall, elem_of_cons; by right.
  - destruct Hex as (w' & [->|?]%elem_of_cons & Hw'); [congruence | eauto].
Qed.

Lemma find_content_key_invalid kp aad ws : kem_sk_valid (ek_secret kp) = false -> find_content_key kp aad ws = None.
Proof. intros Hsk; induction ws as [|w ws IH]; cbn; [done|]; unfold unwrap_content_key; by rewrite Hsk. Qed.

Lemma find_content_key_outsider ck aad recipients ws ws' kp :
  Forall2 (wrapped ck aad) recipients ws -> ws' ≡ₚ ws -> kem_sk_to_pk (ek_secret kp) ∉ recipients ->
  find_content_key kp aad ws' = None.
Proof.
  intros Hws Hperm Hin.
  assert (Hall : Forall (fun w => exists x, unwrap_content_key kp w aad = Err x) ws').
  { rewrite Hperm; apply Forall_forall; intros w Hw; apply list_elem_of_lookup_1 in Hw as [i Hi].
    destruct (Forall2_lookup_r _ _ _ _ _ Hws Hi) as (r & Hr & seed & Hs).
    assert (kem_sk_to_pk (ek_secret kp) <> r) as Hne by (intros <-; apply Hin; by eapply list_elem_of_lookup_2).
    unfold unwrap_content_key; destruct (kem_sk_valid _); [|by eexists]; cbn.
    rewrite (hpke_other_key _ _ _ _ _ _ _ _ Hs Hne); by eexists. }
  clear Hperm; induction Hall as [|w ws' [x Hx] _ IH]; cbn; [done | by rewrite Hx].
Qed.

Lemma sealed_opens net kid sign epoch revision prev plaintext recipients e kp chain :
  sealed net kid sign epoch revision prev plaintext recipients e ->
  kem_sk_valid (ek_secret kp) = true -> kem_sk_to_pk (ek_secret kp) ∈ recipients ->
  validate_chain e chain = Ok tt ->
  open_after_verified_signature e net kp chain = Ok (mkOpenedConfig plaintext (envelope_head e)).
Proof.
  intros [] Hsk Hin Hch; destruct sd_content0 as (ck & ws & Hck & Hct & Hws & Hperm).
  unfold open_after_verified_signature; rewrite bool_decide_true by done; cbn; rewrite Hch; cbn.
  rewrite (find_content_key_sealed _ _ _ _ _ _ Hws Hperm Hck Hsk Hin); cbn.
  rewrite (aead_round_trip _ _ _ _ _ Hct); cbn; by rewrite bool_decide_true.
Qed.

(** It does not open for anyone else. *)
Lemma sealed_closed net kid sign epoch revision prev plaintext recipients e kp chain :
  sealed net kid sign epoch revision prev plaintext recipients e ->
  kem_sk_to_pk (ek_secret kp) ∉ recipients -> validate_chain e chain = Ok tt ->
  open_after_verified_signature e net kp chain = Err NoRecipientWrap.
Proof.
  intros [] Hnot Hch; destruct sd_content0 as (ck & ws & Hck & Hct & Hws & Hperm).
  unfold open_after_verified_signature; rewrite bool_decide_true by done; cbn; rewrite Hch; cbn.
  by rewrite (find_content_key_outsider _ _ _ _ _ _ Hws Hperm Hnot).
Qed.

(** Whoever opens it is a recipient and gets what was sealed. *)
Lemma sealed_opened net kid sign epoch revision prev plaintext recipients e net' kp chain o :
  sealed net kid sign epoch revision prev plaintext recipients e ->
  open_after_verified_signature e net' kp chain = Ok o ->
  kem_sk_valid (ek_secret kp) = true /\ kem_sk_to_pk (ek_secret kp) ∈ recipients /\
  o = mkOpenedConfig plaintext (envelope_head e).
Proof.
  intros Hs Ho; pose proof Hs as []; pose proof Ho as Ho'; unfold open_after_verified_signature in Ho'.
  apply bind_Ok in Ho' as (u & Hn%fail_if_Ok & Ho'); apply bind_Ok in Ho' as ([] & Hch & Ho'); bool_inv.
  apply bind_Ok in Ho' as (ck' & Hck'%ok_or_Ok & _).
  destruct (decide (kem_sk_to_pk (ek_secret kp) ∈ recipients)) as [Hin|Hnot].
  2:{ rewrite sd_network0 in Hn; subst net'; by rewrite (sealed_closed _ _ _ _ _ _ _ _ _ _ _ Hs Hnot Hch) in Ho. }
  destruct (kem_sk_valid (ek_secret kp)) eqn:Hsk; [|by rewrite find_content_key_invalid in Hck'].
  rewrite sd_network0 in Hn; subst net'; rewrite (sealed_opens _ _ _ _ _ _ _ _ _ _ _ Hs Hsk Hin Hch) in Ho.
  by apply Ok_inj in Ho as <-.
Qed.
End laws.
End sealing.

Section opening.
Context `{Ed25519} `{Blake3} `{Aead} `{Hpke}.

(** What [decode_and_validate_opened] accepts. *)
Lemma decode_and_validate_Ok e root opened now o :
  decode_and_validate_opened e root opened now = Ok o <->
  exists c, NetworkConfigV1_from_bytes (op_plaintext opened) = Ok c /\
    cfg_network_id c = env_network_id e /\ cfg_epoch c = env_epoch e /\ cfg_revision c = env_revision e /\
    cfg_previous_hash c = env_previous_hash e /\ config_valid c root (env_network_id e) now /\
    o = mkOpenedNetworkConfig (mkValidated c) (op_head opened).
Proof.
  unfold decode_and_validate_opened; rewrite bind_Ok; split.
  - intros (c & Hc%map_err_Ok & Ho); apply bind_Ok in Ho as (u & Hf%fail_if_Ok & Ho); bool_inv.
    apply bind_Ok in Ho as (v & [-> Hv]%map_err_Ok%validate_Ok & <-%Ok_inj); by eexists.
  - intros (c & Hc & ? & ? & ? & ? & Hv & ->); exists c; split; [by apply map_err_Ok|].
    apply bind_Ok; exists tt; split; [apply fail_if_Ok; passes|].
    apply bind_Ok; exists (mkValidated c); split; [by apply map_err_Ok, validate_Ok | done].
Qed.

(** What [open_after_verified_signature] accepts. *)
Lemma open_verified_Ok e net kp chain o :
  open_after_verified_signature e net kp chain = Ok o ->
  env_network_id e = net /\ validate_chain e chain = Ok tt /\ op_head o = envelope_head e /\
  blake3_hash (op_plaintext o) = env_payload_hash e.
Proof. unfold open_after_verified_signature; intros Ho; res_inv; bool_inv; by units. Qed.

Lemma validate_chain_Next e head :
  validate_chain e (Next head) = Ok tt <->
  env_revision e = head_revision head + 1 /\ env_revision e <= U64_MAX /\
  env_previous_hash e = head_hash head /\ head_epoch head <= env_epoch e.
Proof.
  unfold validate_chain, checked_add; rewrite fail_if_Ok, negb_false_iff, !andb_true_iff, !bool_decide_eq_true, Z.leb_le.
  destruct (_ <=? _) eqn:Hle; bool_inv; split; [intros (([= <-] & ?) & ?) | intros (-> & ? & ? & ?) | naive_solver | lia];
    split_and!; try done; lia.
Qed.

(** Who may extend the chain of the current configuration. *)
Record update_authorised (e : EncryptedConfigEnvelope) root (current : ValidatedNetworkConfig) now
    (va : VerifiedAdmin) : Prop := {
  ua_root : root_network_id root = env_network_id e;
  ua_current : cfg_network_id (vc_inner current) = env_network_id e;
  ua_admin : verified_admin current root (env_signer_key_id e) now = Ok va;
  ua_network : adm_network_id (va_payload va) = env_network_id e;
  ua_signer : env_signer_key_id e = adm_key_id (va_payload va);
  ua_permission : Z.land (adm_permissions (va_payload va)) ADMIN_PERMISSION_CONFIG_WRITE <> 0;
  ua_signature : ed_verify (va_verifying_key va) (env_signed_bytes e) (env_signature e) = true;
}.

Lemma open_next_config_Ok e root current kp head now o :
  open_next_config e root current kp head now = Ok o <->
  exists va opened, update_authorised e root current now va /\
    open_after_verified_signature e (env_network_id e) kp (Next head) = Ok opened /\
    decode_and_validate_opened e root opened now = Ok o.
Proof.
  unfold open_next_config, open_config_with_verified_admin, VerifiedAdmin_verify_bytes; split.
  - intros Ho; apply bind_Ok in Ho as (u & Hf%fail_if_Ok & Ho); bool_inv.
    apply bind_Ok in Ho as (va & Hva%map_err_Ok & Ho); exists va.
    apply bind_Ok in Ho as (u1 & Hf1%fail_if_Ok & Ho); apply bind_Ok in Ho as (u2 & Hf2%fail_if_Ok & Ho).
    apply bind_Ok in Ho as (u3 & Hf3%fail_if_Ok & Ho); bool_inv.
    apply bind_Ok in Ho as ([] & Hsig%map_err_Ok%verify_signature_Ok & Ho).
    apply bind_Ok in Ho as (opened & Hop & Ho); exists opened; by split_and!; [constructor | |].
  - intros (va & opened & [] & Hop & Ho).
    apply bind_Ok; exists tt; split; [apply fail_if_Ok; passes|].
    apply bind_Ok; exists va; split; [by apply map_err_Ok|].
    do 3 (apply bind_Ok; exists tt; split; [apply fail_if_Ok; passes|]).
    apply bind_Ok; exists tt; split; [by apply map_err_Ok, verify_signature_Ok|].
    apply bind_Ok; by exists opened.
Qed.

(** The recipients an envelope is sealed to are the members' encryption keys. *)
Lemma validate_recipient_set_Ok config recipients :
  validate_recipient_set config recipients = Ok tt <->
  exists mcs, Forall2 (fun raw m => MemberCertificate_from_bytes raw = Ok m) (cfg_members config) mcs /\
    NoDup recipients /\ (fun m => mc_encryption_public_key (payload m)) <$> mcs ≡ₚ recipients.
Proof.
  unfold validate_recipient_set; rewrite bind_Ok; split.
  - intros (keys & Hk%map_err_Ok%try_map_Ok & Hf%fail_if_Ok); bool_inv.
    repeat match goal with Hx : Nat.eqb _ _ = true |- _ => apply Nat.eqb_eq in Hx end.
    assert (exists mcs, Forall2 (fun raw m => MemberCertificate_from_bytes raw = Ok m) (cfg_members config) mcs /\
      keys = (fun m => mc_encryption_public_key (payload m)) <$> mcs) as (mcs & Hm & ->).
    { clear -Hk; induction Hk as [|raw k raws keys Hr _ IH]; [by exists []|]; destruct IH as (mcs & ? & ->).
      apply bind_Ok in Hr as (m & ? & <-%Ok_inj); exists (m :: mcs); split; [by constructor | done]. }
    rewrite (Forall2_length _ _ _ Hk) in *.
    exists mcs; split_and!; [done | by apply NoDup_size_list_to_set|].
    apply NoDup_Permutation; [by apply NoDup_size_list_to_set..|]; set_solver.
  - intros (mcs & Hm & Hnd & Hp); exists ((fun m => mc_encryption_public_key (payload m)) <$> mcs); split.
    { apply map_err_Ok, try_map_Ok; clear -Hm; induction Hm as [|raw m raws mcs Hr _ IH]; constructor; [|done].
      apply bind_Ok; by exists m. }
    assert (NoDup ((fun m => mc_encryption_public_key (payload m)) <$> mcs)) as Hnd' by (by rewrite Hp).
    apply NoDup_size_list_to_set in Hnd, Hnd'; apply fail_if_Ok; rewrite Hnd, Hnd', length_fmap.
    rewrite (Forall2_length _ _ _ Hm), !Nat.eqb_refl; cbn; apply negb_false_iff, bool_decide_eq_true.
    apply set_eq; intros x; rewrite !elem_of_list_to_set; by rewrite Hp.
Qed.

Lemma member_is_recipient config recipients cr m :
  validate_recipient_set config recipients = Ok tt -> snapshot_parses config cr -> m ∈ cr_members cr ->
  mc_encryption_public_key (payload m) ∈ recipients.
Proof.
  intros (mcs & Hm & _ & <-)%validate_recipient_set_Ok Hp Hin.
  assert (cr_members cr = mcs) as <-
    by (eapply Forall2_functional; [|apply Hp | exact Hm]; cbn; intros; congruence).
  by apply (list_elem_of_fmap_2 (fun m => mc_encryption_public_key (payload m))).
Qed.

(** What [seal_next_config] checks and produces. *)
Record sealed_update root (admin : OnlineAdminKey) (current : ValidatedNetworkConfig) (head : ConfigHead)
    (next : NetworkConfigV1) (recipients : list bytes) now (va : VerifiedAdmin) (plaintext : bytes)
    (e : EncryptedConfigEnvelope) : Prop := {
  su_network : cfg_network_id (vc_inner current) = root_network_id root;
  su_current : cfg_revision (vc_inner current) = head_revision head /\ cfg_epoch (vc_inner current) = head_epoch head;
  su_admin : verified_admin current root (OnlineAdminKey_key_id admin) now = Ok va;
  su_key : adm_public_key (va_payload va) = OnlineAdminKey_public_bytes admin;
  su_permission : Z.land (adm_permissions (va_payload va)) ADMIN_PERMISSION_CONFIG_WRITE <> 0;
  su_next_network : cfg_network_id next = root_network_id root;
  su_revision : cfg_revision next = head_revision head + 1 /\ head_revision head + 1 <= U64_MAX;
  su_previous : cfg_previous_hash next = head_hash head;
  su_epoch : head_epoch head <= cfg_epoch next;
  su_valid : config_valid next root (root_network_id root) (cfg_issued_at_ms next);
  su_recipients : validate_recipient_set next recipients = Ok tt;
  su_plaintext : NetworkConfigV1_to_bytes next = Ok plaintext;
  su_sealed : sealed (root_network_id root) (OnlineAdminKey_key_id admin) (OnlineAdminKey_sign_bytes admin)
                (cfg_epoch next) (cfg_revision next) (cfg_previous_hash next) plaintext recipients e;
}.

Lemma seal_next_config_Ok root admin current head next recipients now ent e ent' :
  seal_next_config root admin current head next recipients now ent = Ok (e, ent') ->
  exists va plaintext, sealed_update root admin current head next recipients now va plaintext e.
Proof.
  intros Hs; unfold seal_next_config in Hs; do 10 rnd_inv Hs; units; apply map_err_Ok in Ha0, Ha6, Ha8; apply ok_or_Ok in Ha4.
  apply fail_if_Ok in Ha, Ha1, Ha2, Ha3, Ha5; bool_inv; apply validate_Ok in Ha6 as [_ Hv].
  unfold checked_add in Ha4; destruct (_ <=? _) eqn:Hle; [|done]; injection Ha4 as <-; bool_inv.
  apply seal_with_signer_Ok in Hs; eexists _, _; constructor; eauto; lia.
Qed.

Lemma sealed_update_chain root admin current head next recipients now va plaintext e :
  sealed_update root admin current head next recipients now va plaintext e -> validate_chain e (Next head) = Ok tt.
Proof. intros []; destruct su_sealed0; apply validate_chain_Next; split_and!; try congruence; lia. Qed.

Section laws.
Context `{Led : !Ed25519Laws} `{Lblake : !Blake3Laws} `{Laead : !AeadLaws} `{Lhpke : !HpkeLaws}.
Context `{Lexcl : !HpkeExclusive}.

(** Decoding what was sealed from a configuration. *)
Lemma sealed_decodes config plaintext net kid sign recipients e root now :
  sealed net kid sign (cfg_epoch config) (cfg_revision config) (cfg_previous_hash config) plaintext recipients e ->
  config_typed config -> NetworkConfigV1_to_bytes config = Ok plaintext -> cfg_network_id config = net ->
  config_valid config root net now ->
  decode_and_validate_opened e root (mkOpenedConfig plaintext (envelope_head e)) now
    = Ok (mkOpenedNetworkConfig (mkValidated config) (envelope_head e)).
Proof.
  intros Hs Ht Hp Hn Hv; apply decode_and_validate_Ok; exists config; destruct Hs; cbn.
  split_and!; try congruence; by apply config_round_trip_forward.
Qed.

Lemma sealed_on_wire config plaintext net kid seed recipients e :
  sealed net kid (ed_sign seed) (cfg_epoch config) (cfg_revision config) (cfg_previous_hash config) plaintext
    recipients e ->
  config_typed config -> NetworkId_wf net -> length kid = 16%nat -> length seed = 32%nat ->
  Envelope_from_bytes (Envelope_to_bytes e) = Ok e.
Proof.
  intros Hs [] Hn Hk Hl; apply Envelope_from_bytes_exact; split; [|done].
  eapply sealed_wf; try done; intros m; by apply ed_sign_len.
Qed.

(** A sealed update is authorised whenever its administrator still verifies. *)
Lemma sealed_update_authorised root admin current head next recipients t va plaintext e va' now :
  sealed_update root admin current head next recipients t va plaintext e -> length (admin_seed admin) = 32%nat ->
  verified_admin current root (OnlineAdminKey_key_id admin) now = Ok va' -> update_authorised e root current now va'.
Proof.
  intros [] Hlen Hva; pose proof (find_admin_agree _ _ _ _ _ _ _ _ _ su_admin0 Hva); subst va'.
  pose proof Hva as (c & -> & Hkid & Htr)%find_admin_Ok; destruct su_sealed0, Htr; cbn in *; constructor; cbn; try congruence.
  rewrite sd_signature0, su_key0; by apply ed_verify_sign.
Qed.

(** Whoever opens a sealed update is a recipient and gets the configuration that was sealed. *)
Lemma sealed_update_opens_to root admin current head next recipients t va plaintext e kp now o :
  sealed_update root admin current head next recipients t va plaintext e -> config_typed next ->
  open_next_config e root current kp head now = Ok o ->
  kem_sk_valid (ek_secret kp) = true /\ kem_sk_to_pk (ek_secret kp) ∈ recipients /\
  o = mkOpenedNetworkConfig (mkValidated next) (envelope_head e) /\ config_valid next root (root_network_id root) now.
Proof.
  intros Hsu Ht (va' & opened & Hau & Hop & Hd)%open_next_config_Ok; pose proof (su_sealed _ _ _ _ _ _ _ _ _ _ Hsu) as Hs.
  destruct (sealed_opened _ _ _ _ _ _ _ _ _ _ _ _ _ Hs Hop) as (Hsk & Hin & ->); split_and!; try done.
  all: apply decode_and_validate_Ok in Hd as (c & Hc & _ & _ & _ & _ & Hv & ->); cbn in Hc.
  all: rewrite (config_round_trip_forward _ _ Ht (su_plaintext _ _ _ _ _ _ _ _ _ _ Hsu)) in Hc; apply Ok_inj in Hc as <-.
  1: done. by rewrite <- (sd_network _ _ _ _ _ _ _ _ _ Hs).
Qed.

(** A sealed update opens for every recipient, at any time at which its
    administrator and its content are valid. *)
Lemma sealed_update_opened root admin current head next recipients t va plaintext e va' now kp :
  sealed_update root admin current head next recipients t va plaintext e -> length (admin_seed admin) = 32%nat ->
  config_typed next -> kem_sk_valid (ek_secret kp) = true -> kem_sk_to_pk (ek_secret kp) ∈ recipients ->
  verified_admin current root (OnlineAdminKey_key_id admin) now = Ok va' ->
  config_valid next root (root_network_id root) now ->
  open_next_config e root current kp head now = Ok (mkOpenedNetworkConfig (mkValidated next) (envelope_head e)).
Proof.
  intros Hsu Hlen Ht Hsk Hin Hva Hv; apply open_next_config_Ok; eexists va', _; split_and!.
  - by eapply sealed_update_authorised.
  - rewrite (sd_network _ _ _ _ _ _ _ _ _ (su_sealed _ _ _ _ _ _ _ _ _ _ Hsu)).
    eapply sealed_opens; [apply Hsu | done | done | by eapply sealed_update_chain].
  - eapply (sealed_decodes next plaintext (root_network_id root)); try done; apply Hsu.
Qed.
(** A snapshot sealed by the root opens for every member it lists. *)
Lemma sealed_config_opened (root : NetworkRootKey) config recipients ent e ent' kp cr m chain now :
  let public := NetworkRootKey_public root in
  length (root_seed root) = 32%nat -> config_typed config ->
  seal_config root config recipients ent = Ok (e, ent') ->
  snapshot_parses config cr -> m ∈ cr_members cr ->
  kem_sk_valid (ek_secret kp) = true -> kem_sk_to_pk (ek_secret kp) = mc_encryption_public_key (payload m) ->
  validate_chain e chain = Ok tt -> config_valid config public (root_network_id public) now ->
  Envelope_from_bytes (Envelope_to_bytes e) = Ok e /\
  open_config e public (root_network_id public) kp chain now
    = Ok (mkOpenedNetworkConfig (mkValidated config) (envelope_head e)).
Proof.
  intros public Hlen Ht Hs Hp Hm Hsk Hpk Hch Hv; unfold seal_config in Hs.
  do 3 rnd_inv Hs; apply map_err_Ok, validate_Ok in Ha as [_ [_ [Hn _] _ _ _ _ _]]; units.
  pose proof (member_is_recipient _ _ _ _ Ha0 Hp Hm) as Hin; rewrite <- Hpk in Hin.
  apply map_err_Ok in Ha1; apply seal_with_signer_Ok in Hs as Hsealed.
  split; [eapply sealed_on_wire; try done; [apply derive_key_len | apply derive_key_id_len]|].
  unfold open_config, Envelope_open; fold public in Hsealed |- *.
  rewrite !bool_decide_true by (done || apply Hsealed); cbn [negb orb fail_if mbind result_bind].
  rewrite (sd_signature _ _ _ _ _ _ _ _ _ Hsealed).
  unfold NetworkRootPublic_verify_bytes, verify_signature, NetworkRootKey_sign_bytes; cbn [root_verifying_key public NetworkRootKey_public].
  rewrite ed_verify_sign by done; cbn [negb fail_if map_err mbind result_bind].
  rewrite (sealed_opens _ _ _ _ _ _ _ _ _ _ _ Hsealed Hsk Hin Hch); cbn [mbind result_bind].
  by eapply sealed_decodes.
Qed.
End laws.
End opening.

(** The wire format of envelopes is exact: the bytes that parse are exactly
    the serialisations of well-formed envelopes, whose signed bytes are the
    encoding of the fields. *)
Theorem envelope_wire_exact (bs : bytes) (e : EncryptedConfigEnvelope) :
  Envelope_from_bytes bs = Ok e <-> envelope_wf e /\ bs = Envelope_to_bytes e.
Proof. apply Envelope_from_bytes_exact. Qed.

Section claims.
Context `{Led : Ed25519Laws} `{Lblake : Blake3Laws} `{Laead : AeadLaws} `{Lhpke : HpkeLaws}.
Context `{Lexcl : !HpkeExclusive}.

(** A snapshot sealed by the network root opens for every member it lists.
    The envelope survives the wire; any holder of the encryption key of a member
    certificate of the snapshot, at any time at which the snapshot is valid and
    with any chain expectation the envelope meets, gets the very snapshot that
    was sealed. *)
Theorem sealed_config_opens (root : NetworkRootKey) (config : NetworkConfigV1) (recipients : list bytes)
    (ent ent' : entropy) (e : EncryptedConfigEnvelope) (kp : MemberEncryptionKeypair) (cr : Credentials)
    (m : MemberCertificate) (chain : ChainExpectation) (now : Z) :
  let public := NetworkRootKey_public root in
  length (root_seed root) = 32%nat -> config_typed config ->
  seal_config root config recipients ent = Ok (e, ent') ->
  snapshot_parses config cr -> m ∈ cr_members cr ->
  kem_sk_valid (ek_secret kp) = true -> kem_sk_to_pk (ek_secret kp) = mc_encryption_public_key (payload m) ->
  validate_chain e chain = Ok tt -> config_valid config public (root_network_id public) now ->
  Envelope_from_bytes (Envelope_to_bytes e) = Ok e /\
  open_config e public (root_network_id public) kp chain now
    = Ok (mkOpenedNetworkConfig (mkValidated config) (envelope_head e)).
Proof.
  intros public Hlen Ht Hs Hp Hm Hsk Hpk Hch Hv; by eapply sealed_config_opened.
Qed.

(** An update sealed by an online administrator is accepted by every member
    it lists.  If [seal_next_config] produced it from the current configuration
    and head, then [open_next_config] with the same current configuration and
    head returns the next snapshot, at any time at which the administrator's
    certificate verifies and the snapshot is valid. *)
Theorem sealed_update_opens (root : NetworkRootPublic) (admin : OnlineAdminKey) (current : ValidatedNetworkConfig)
    (head : ConfigHead) (next : NetworkConfigV1) (recipients : list bytes) (t : Z) (ent ent' : entropy)
    (e : EncryptedConfigEnvelope) (kp : MemberEncryptionKeypair) (cr : Credentials) (m : MemberCertificate)
    (va : VerifiedAdmin) (now : Z) :
  length (admin_seed admin) = 32%nat -> NetworkId_wf (root_network_id root) -> config_typed next ->
  seal_next_config root admin current head next recipients t ent = Ok (e, ent') ->
  snapshot_parses next cr -> m ∈ cr_members cr ->
  kem_sk_valid (ek_secret kp) = true -> kem_sk_to_pk (ek_secret kp) = mc_encryption_public_key (payload m) ->
  verified_admin current root (OnlineAdminKey_key_id admin) now = Ok va ->
  config_valid next root (root_network_id root) now ->
  Envelope_from_bytes (Envelope_to_bytes e) = Ok e /\
  open_next_config e root current kp head now
    = Ok (mkOpenedNetworkConfig (mkValidated next) (envelope_head e)).
Proof.
  intros Hlen Hnet Ht (va' & plaintext & Hsu)%seal_next_config_Ok Hp Hm Hsk Hpk Hva Hv.
  split; [eapply sealed_on_wire; [apply Hsu | try done; apply derive_key_id_len..]|].
  eapply sealed_update_opened; try done; rewrite Hpk; eapply member_is_recipient; [apply Hsu | done..].
Qed.

(** C4: what a node accepts as the next configuration.  When [open_next_config]
    succeeds on a current configuration that was validated before, then the
    envelope's bytes carry a signature of an administrator certified in the
    current configuration, valid now, not revoked, and allowed to write
    configurations; the envelope is the immediate successor of the head, links to
    its hash and does not decrease the epoch; and the configuration returned is
    the validated content of the payload the envelope commits to, for the same
    network, epoch, revision and predecessor. *)
Theorem accepted_update_sound (root : NetworkRootPublic) (net : NetworkId) (c0 : NetworkConfigV1) (t0 : Z)
    (current : ValidatedNetworkConfig) (cr : Credentials) (head : ConfigHead) (e : EncryptedConfigEnvelope)
    (kp : MemberEncryptionKeypair) (now : Z) (o : OpenedNetworkConfig) :
  validate c0 root net t0 = Ok current -> snapshot_parses c0 cr ->
  open_next_config e root current kp head now = Ok o ->
  let next := vc_inner (onc_config o) in
  (exists a, a ∈ cr_admins cr /\ admin_trusted a root net now (revoked_set c0) /\
     Z.land (adm_permissions (payload a)) ADMIN_PERMISSION_CONFIG_WRITE <> 0 /\
     ed_verify (adm_public_key (payload a)) (env_signed_bytes e) (env_signature e) = true) /\
  (env_revision e = head_revision head + 1 /\ env_revision e <= U64_MAX /\
   env_previous_hash e = head_hash head /\ head_epoch head <= env_epoch e) /\
  (exists plaintext, blake3_hash plaintext = env_payload_hash e /\ NetworkConfigV1_from_bytes plaintext = Ok next) /\
  config_valid next root net now /\
  cfg_network_id next = net /\ cfg_epoch next = env_epoch e /\ cfg_revision next = env_revision e /\
  cfg_previous_hash next = env_previous_hash e /\ onc_head o = envelope_head e.
Proof.
  intros [-> Hv0]%validate_Ok Hp (va & opened & Hau & Hop & Ho)%open_next_config_Ok; cbn zeta.
  apply decode_and_validate_Ok in Ho as (c & Hc & ? & ? & ? & ? & Hv & ->); cbn.
  apply open_verified_Ok in Hop as (_ & Hch%validate_chain_Next & Hhead & Hhash).
  destruct (va_credentials _ _ _ _ Hv0) as (cr' & Hp' & Hcv); rewrite (snapshot_parses_inj _ _ _ Hp Hp').
  destruct Hau as [Hr Hcur Hva Hn Hsg Hperm Hsig]; cbn in Hcur; rewrite (proj1 (va_network _ _ _ _ Hv0)) in Hcur.
  apply (find_admin_spec _ _ _ _ _ _ _ (sp_admins _ _ Hp') (cv_unique_admins _ _ _ _ _ Hcv)) in Hva
    as (a & Ha & _ & Htr & ->); cbn in *; rewrite (proj1 (va_network _ _ _ _ Hv0)) in Htr.
  rewrite <- Hcur in *; split; [by exists a|]; split; [exact Hch|]; split_and!; try done; eauto.
Qed.

(** C28: an envelope does not open for anyone else.  A key pair whose public key
    is not the encryption key of a member of the sealed snapshot, such as that of
    a member removed from it, gets [NoRecipientWrap] from an envelope that is
    otherwise acceptable. *)
Theorem outsider_cannot_open (root : NetworkRootPublic) (admin : OnlineAdminKey) (current : ValidatedNetworkConfig)
    (head : ConfigHead) (next : NetworkConfigV1) (recipients : list bytes) (t : Z) (ent ent' : entropy)
    (e : EncryptedConfigEnvelope) (kp : MemberEncryptionKeypair) (cr : Credentials) (chain : ChainExpectation) :
  seal_next_config root admin current head next recipients t ent = Ok (e, ent') ->
  snapshot_parses next cr ->
  (forall m, m ∈ cr_members cr -> mc_encryption_public_key (payload m) <> kem_sk_to_pk (ek_secret kp)) ->
  validate_chain e chain = Ok tt ->
  open_after_verified_signature e (root_network_id root) kp chain = Err NoRecipientWrap.
Proof.
  intros (va & plaintext & Hsu)%seal_next_config_Ok Hp Hno Hch; eapply sealed_closed; [apply Hsu | | done].
  pose proof (su_recipients _ _ _ _ _ _ _ _ _ _ Hsu) as (mcs & Hm & _ & <-)%validate_recipient_set_Ok.
  assert (cr_members cr = mcs) as <-
    by (eapply Forall2_functional; [|apply Hp | exact Hm]; cbn; intros; congruence).
  intros (m & Hk & Hin)%list_elem_of_fmap; by apply (Hno m Hin).
Qed.
End claims.

(** ** Update batches *)
Section batch.
Context `{Blake3}.

(** Envelopes that extend a head one revision at a time. *)
Inductive linked (net : NetworkId) : Z -> bytes -> list bytes -> Prop :=
| linked_nil revision previous : linked net revision previous []
| linked_cons revision previous raw e rest :
    Envelope_from_bytes raw = Ok e -> env_network_id e = net -> env_revision e = revision ->
    env_previous_hash e = previous -> revision < U64_MAX ->
    linked net (revision + 1) (envelope_hash e) rest ->
    linked net revision previous (raw :: rest).

Definition total_len (raws : list bytes) : Z := foldr (fun raw n => len raw + n) 0 raws.

Lemma total_len_cons raw raws : total_len (raw :: raws) = len raw + total_len raws.
Proof. done. Qed.
Lemma total_len_nonneg raws : 0 <= total_len raws.
Proof. induction raws as [|r raws IH]; [done | rewrite total_len_cons; unfold len in *; lia]. Qed.

Lemma checked_add_Some a b r : checked_add a b = Some r <-> r = a + b /\ r <= U64_MAX.
Proof. unfold checked_add; destruct (_ <=? _) eqn:Hl; bool_inv; split; [intros [= <-] | intros [-> ?] | done | intros [-> ?]]; done || lia. Qed.

Lemma batch_chain_Ok net revision previous total raws :
  0 <= total ->
  batch_chain net revision previous total raws = Ok tt <->
  linked net revision previous raws /\ (raws <> [] -> total + total_len raws <= MAX_UPDATE_BATCH_BYTES).
Proof.
  revert revision previous total; induction raws as [|raw raws IH]; intros revision previous total Ht; cbn [batch_chain]; rewrite ?total_len_cons.
  - split; [intros _; split; [constructor | done] | done].
  - assert (0 <= len raw) by (unfold len; lia); pose proof (total_len_nonneg raws); split.
    + intros Hb; apply bind_Ok in Hb as (t & [-> _]%ok_or_Ok%checked_add_Some & Hb).
      apply bind_Ok in Hb as (u & Hf%fail_if_Ok & Hb); apply bind_Ok in Hb as (e & He & Hb).
      apply bind_Ok in Hb as (u2 & Hf2%fail_if_Ok & Hb); apply bind_Ok in Hb as (r & [-> Hr]%ok_or_Ok%checked_add_Some & Hb).
      bool_inv; apply IH in Hb as [Hl Hm]; [|lia]; split; [econstructor; try done; lia|]; intros _.
      destruct raws; [unfold total_len; cbn; lia|]; specialize (Hm ltac:(done)); lia.
    + intros [Hl Hm]; inversion Hl; subst; specialize (Hm ltac:(done)).
      apply bind_Ok; eexists; split; [apply ok_or_Ok, checked_add_Some; split; [done | unfold MAX_UPDATE_BATCH_BYTES, U64_MAX in *; lia]|].
      apply bind_Ok; exists tt; split; [apply fail_if_Ok; passes|]; apply bind_Ok; eexists; split; [eassumption|].
      apply bind_Ok; exists tt; split; [apply fail_if_Ok; passes|].
      apply bind_Ok; eexists; split; [apply ok_or_Ok, checked_add_Some; split; [done | lia]|].
      apply IH; [lia|]; split; [done | intros _; lia].
Qed.

Record batch_ok (b : ConfigUpdateBatch) : Prop := {
  bo_count : len (ub_envelopes b) <= MAX_UPDATE_ENVELOPES;
  bo_revision : head_revision (ub_base_head b) < U64_MAX;
  bo_linked : linked (ub_network_id b) (head_revision (ub_base_head b) + 1) (head_hash (ub_base_head b)) (ub_envelopes b);
  bo_total : total_len (ub_envelopes b) <= MAX_UPDATE_BATCH_BYTES;
}.

Lemma Batch_new_Ok net head raws b :
  Batch_new net head raws = Ok b <-> b = mkBatch net head raws /\ batch_ok b.
Proof.
  unfold Batch_new; split.
  - intros Hb; apply bind_Ok in Hb as (u & Hf%fail_if_Ok & Hb).
    apply bind_Ok in Hb as (r & [-> Hr]%ok_or_Ok%checked_add_Some & Hb).
    apply bind_Ok in Hb as ([] & [Hl Hm]%batch_chain_Ok & <-%Ok_inj); [|done]; bool_inv.
    split; [done|]; constructor; cbn; try done; [lia|].
    destruct raws; [done | by apply Hm].
  - intros [-> []]; cbn in *; apply bind_Ok; exists tt; split; [apply fail_if_Ok; passes|].
    apply bind_Ok; eexists; split; [apply ok_or_Ok, checked_add_Some; split; [done | lia]|].
    apply bind_Ok; exists tt; split; [|done]; by apply batch_chain_Ok.
Qed.

Record batch_typed (b : ConfigUpdateBatch) : Prop := {
  bty_network : NetworkId_wf (ub_network_id b);
  bty_epoch : is_u64 (head_epoch (ub_base_head b)) = true;
  bty_revision : is_u64 (head_revision (ub_base_head b)) = true;
  bty_hash : length (head_hash (ub_base_head b)) = 32%nat;
}.

Definition framed (raw : bytes) : bytes := to_be 4 (len raw) ++ raw.
Definition batch_bytes (b : ConfigUpdateBatch) : bytes :=
  UPDATE_BATCH_MAGIC ++ NetworkId_as_bytes (ub_network_id b) ++ to_be 8 (head_epoch (ub_base_head b))
  ++ to_be 8 (head_revision (ub_base_head b)) ++ head_hash (ub_base_head b) ++ to_be 4 (len (ub_envelopes b))
  ++ concat (framed <$> ub_envelopes b).

Lemma total_len_elem raws raw : raw ∈ raws -> len raw <= total_len raws.
Proof.
  induction raws as [|r raws IH]; intros Hr; [by apply elem_of_nil in Hr|]; pose proof (total_len_nonneg raws).
  rewrite total_len_cons; apply elem_of_cons in Hr as [->|Hr]; [lia|]; specialize (IH Hr); unfold len in *; lia.
Qed.

Lemma batch_element_range b raw :
  batch_ok b -> raw ∈ ub_envelopes b -> len raw <= MAX_UPDATE_BATCH_BYTES /\ is_u32 (len raw) = true.
Proof.
  intros Hb Hr; pose proof (total_len_elem _ _ Hr); destruct Hb.
  split; [lia|]; unfold MAX_UPDATE_BATCH_BYTES, in_range, len in *; passes.
Qed.

Lemma Batch_to_bytes_Ok b bs : Batch_to_bytes b = Ok bs <-> batch_ok b /\ bs = batch_bytes b.
Proof.
  assert (Hpush : batch_ok b -> try_map push_envelope (ub_envelopes b) = Ok (framed <$> ub_envelopes b)).
  { intros Hb; apply try_map_Ok; pose proof (fun raw => batch_element_range b raw Hb) as Hr.
    revert Hr; generalize (ub_envelopes b) as raws; induction raws as [|r raws IH]; intros Hr; constructor.
    - destruct (Hr r) as [_ Hu]; [apply elem_of_cons; by left|].
      apply bind_Ok; exists tt; split; [apply fail_if_Ok; by rewrite Hu | done].
    - apply IH; intros raw ?; apply Hr, elem_of_cons; by right. }
  unfold Batch_to_bytes; destruct b as [net head raws]; cbn in *; split.
  - intros Hb; apply bind_Ok in Hb as (v & [-> Hok]%Batch_new_Ok & Hb); cbn in *.
    rewrite Hpush in Hb by done; cbn in Hb; by apply Ok_inj in Hb as <-.
  - intros [Hok ->]; apply bind_Ok; eexists; split; [by apply Batch_new_Ok|]; cbn; by rewrite Hpush.
Qed.

Lemma steps_batch_envelope raw s :
  len raw <= MAX_UPDATE_BATCH_BYTES /\ is_u32 (len raw) = true -> steps d_batch_envelope (framed raw ++ s) raw s.
Proof.
  intros [Hl Hu]; assert (fail_if (MAX_UPDATE_BATCH_BYTES <? len raw) UpdateBatchTooLarge = Ok tt)
    by (apply fail_if_Ok; passes).
  unfold d_batch_envelope, framed; parse.
Qed.

#[local] Instance reads_batch_envelope : Reads d_batch_envelope (fun raw x => x = framed raw).
Proof.
  intros d s raw d' Hs Hr; unfold d_batch_envelope in Hr; unparse; res_inv.
  match goal with Hl : 0 <= ?n -> len raw = ?n, Hr : is_u32 ?n = true |- _ =>
    assert (len raw = n) as <- by (apply Hl; unfold in_range in Hr; bool_inv; lia) end.
  unfold framed; rewrite ?app_assoc; eexists _, _; split_and!; [reflexivity | done..].
Qed.

Lemma Batch_wire_forward b :
  batch_typed b -> batch_ok b -> len (batch_bytes b) <= MAX_UPDATE_BATCH_BYTES ->
  Batch_from_bytes (batch_bytes b) = Ok b.
Proof.
  intros [] Hok Hlen; unfold Batch_from_bytes; apply bind_Ok; exists tt; split; [apply fail_if_Ok; passes|].
  assert (Hnew : Batch_new (ub_network_id b) (ub_base_head b) (ub_envelopes b) = Ok b)
    by (apply Batch_new_Ok; split; [by destruct b | done]).
  assert (Hf : Forall (fun raw => len raw <= MAX_UPDATE_BATCH_BYTES /\ is_u32 (len raw) = true) (ub_envelopes b))
    by (apply Forall_forall; intros raw Hr; by apply (batch_element_range b)).
  pose proof (fun s => steps_repeat d_batch_envelope framed _ _ s steps_batch_envelope Hf) as Hrep; clear Hf.
  pose proof (bo_count _ Hok) as Hcount.
  destruct b as [[net] [ep rev hash] raws]; unfold NetworkId_wf in *; cbn in *; eapply run_steps; unfold batch_bytes; cbn.
  assert (is_u32 (len raws) = true) by (unfold MAX_UPDATE_ENVELOPES, in_range, len in *; passes).
  assert (fail_if (MAX_UPDATE_ENVELOPES <? len raws) UpdateBatchTooLarge = Ok tt) by (apply fail_if_Ok; passes).
  replace (length raws) with (Z.to_nat (len raws)) in Hrep by (unfold len; lia).
  rewrite <- ?app_assoc; parse.
Qed.

Lemma Batch_wire_backward bs b :
  Batch_from_bytes bs = Ok b ->
  batch_typed b /\ batch_ok b /\ bs = batch_bytes b /\ len bs <= MAX_UPDATE_BATCH_BYTES.
Proof.
  intros Hb; unfold Batch_from_bytes in Hb; apply bind_Ok in Hb as (u & Hf%fail_if_Ok & Hb); bool_inv.
  unparse; match goal with Hn : Batch_new _ _ _ = Ok _ |- _ => apply Batch_new_Ok in Hn as [-> Hok] end.
  repeat match goal with
  | Hx : exists _, _ |- _ => destruct Hx
  | Hx : _ /\ _ |- _ => destruct Hx
  | Hx : Forall2 (fun raw x => x = framed raw) ?raws ?ys |- _ =>
      assert (ys = framed <$> raws) as -> by (clear -Hx; induction Hx; [done | cbn; by f_equal]); clear Hx
  end; subst.
  match goal with Hn : length ?raws = Z.to_nat ?n, Hr : is_u32 ?n = true |- _ =>
    assert (len raws = n) as <- by (unfold in_range in Hr; bool_inv; unfold len; lia) end.
  split_and!; [by constructor | done | unfold batch_bytes; cbn; by rewrite ?app_nil_r | done].
Qed.

(** ** A batch commits to its envelopes *)
Definition last_hash (previous : bytes) (raws : list bytes) : bytes :=
  match last raws with Some raw => blake3_hash raw | None => previous end.

Lemma linked_snoc net revision previous raws raw :
  linked net revision previous (raws ++ [raw]) ->
  linked net revision previous raws /\
  exists e, Envelope_from_bytes raw = Ok e /\ env_previous_hash e = last_hash previous raws.
Proof.
  revert revision previous; induction raws as [|r raws IH]; intros revision previous Hl; inversion Hl; subst.
  - split; [constructor | eauto].
  - match goal with Hx : linked _ _ _ (_ ++ _) |- _ => apply IH in Hx as (Hl' & e' & He' & Hp) end.
    split; [by econstructor|]; exists e'; split; [done|]; rewrite Hp.
    match goal with Hr : Envelope_from_bytes r = Ok _ |- _ => apply Envelope_from_bytes_exact in Hr as [_ ->] end.
    unfold last_hash; destruct raws as [|r' raws']; [done|].
    rewrite (last_cons (Envelope_to_bytes _) (_ :: _)); destruct (last (r' :: raws')) eqn:Hlast; [done | by apply last_None in Hlast].
Qed.

Lemma linked_determined net1 net2 r1 r2 p1 p2 raws1 raws2 :
  linked net1 r1 p1 raws1 -> linked net2 r2 p2 raws2 -> length raws1 = length raws2 ->
  last_hash p1 raws1 = last_hash p2 raws2 ->
  (raws1 = raws2 /\ p1 = p2) \/ exists x y : bytes, x <> y /\ blake3_hash x = blake3_hash y.
Proof.
  revert raws2; induction raws1 as [|x raws1 IH] using rev_ind; intros raws2 Hl1 Hl2 Hlen Hh.
  - destruct raws2; [by left | done].
  - destruct raws2 as [|y raws2 _] using rev_ind; [rewrite length_app in Hlen; cbn in Hlen; lia|].
    apply linked_snoc in Hl1 as (Hl1 & e1 & He1 & Hp1); apply linked_snoc in Hl2 as (Hl2 & e2 & He2 & Hp2).
    unfold last_hash in Hh; rewrite !last_snoc in Hh.
    destruct (decide (x = y)) as [->|Hne]; [|right; eauto].
    assert (e1 = e2) as <- by congruence; rewrite !length_app in Hlen; cbn in Hlen.
    destruct (IH raws2 Hl1 Hl2) as [[-> ->]|?]; [lia | congruence | by left | by right].
Qed.
End batch.

(** ** A batch at the size limit *)
Section oversized.
Context `{Lblake : Blake3Laws} (ct : bytes) (Hct : len ct = 2 ^ 20 - 238).

Definition filler (revision : Z) (previous : bytes) : EncryptedConfigEnvelope :=
  let e := {|
    env_format_version := FORMAT_VERSION; env_network_id := NetworkId_from_bytes zero32; env_epoch := 0;
    env_revision := revision; env_previous_hash := previous; env_payload_hash := zero32;
    env_nonce := repeat Byte.x00 24; env_ciphertext := ct;
    env_member_key_wraps := [mkKeyWrap [Byte.x01] [Byte.x01]]; env_signer_key_id := repeat Byte.x00 16;
    env_signed_bytes := []; env_signature := repeat Byte.x00 64 |} in
  {| env_format_version := FORMAT_VERSION; env_network_id := NetworkId_from_bytes zero32; env_epoch := 0;
     env_revision := revision; env_previous_hash := previous; env_payload_hash := zero32;
     env_nonce := repeat Byte.x00 24; env_ciphertext := ct;
     env_member_key_wraps := [mkKeyWrap [Byte.x01] [Byte.x01]]; env_signer_key_id := repeat Byte.x00 16;
     env_signed_bytes := signed_of e; env_signature := repeat Byte.x00 64 |}.

Lemma filler_wf revision previous :
  is_u64 revision = true -> length previous = 32%nat -> envelope_wf (filler revision previous).
Proof.
  intros Hr Hp; constructor; try done; cbn [filler env_ciphertext env_member_key_wraps].
  - rewrite Hct; unfold MAX_CIPHERTEXT, MAX_CONFIG_PLAINTEXT; lia.
  - by constructor.
  - rewrite encode_signed_Ok; [done | by constructor | |done].
    cbn; rewrite Hct; unfold MAX_CIPHERTEXT, MAX_CONFIG_PLAINTEXT; lia.
Qed.

Lemma filler_len revision previous :
  length previous = 32%nat -> len (Envelope_to_bytes (filler revision previous)) = 2 ^ 20.
Proof.
  intros Hp; unfold Envelope_to_bytes; cbn [filler env_signed_bytes env_signature]; unfold signed_of, len in *.
  cbn [env_format_version env_network_id env_epoch env_revision env_previous_hash env_payload_hash env_nonce
       env_ciphertext env_member_key_wraps env_signer_key_id NetworkId_as_bytes].
  rewrite !length_app, !length_to_be, Hp, !repeat_length; cbn [length concat fmap list_fmap app].
  rewrite !length_app; unfold wrap_bytes; cbn [kw_encapsulated_key kw_ciphertext length].
  rewrite !length_app, !length_to_be; change (length ENVELOPE_MAGIC) with 8%nat; change (length zero32) with 32%nat.
  cbn [length]; lia.
Qed.

Fixpoint fillers (n : nat) (revision : Z) (previous : bytes) : list bytes :=
  match n with
  | O => []
  | S n => let raw := Envelope_to_bytes (filler revision previous) in
           raw :: fillers n (revision + 1) (blake3_hash raw)
  end.

Lemma fillers_linked n revision previous :
  0 <= revision -> revision + Z.of_nat n < U64_MAX -> length previous = 32%nat ->
  linked (NetworkId_from_bytes zero32) revision previous (fillers n revision previous) /\
  Forall (fun raw => len raw = 2 ^ 20) (fillers n revision previous) /\ length (fillers n revision previous) = n.
Proof.
  revert revision previous; induction n as [|n IH]; intros revision previous Hr Hn Hp; cbn [fillers].
  - split_and!; [constructor | constructor | done].
  - destruct (IH (revision + 1) (blake3_hash (Envelope_to_bytes (filler revision previous))))
      as (Hl & Hf & Hlen); [lia.. | apply blake3_hash_len|].
    split_and!; [| constructor; [by apply filler_len | done] | cbn [length]; by rewrite Hlen].
    eapply linked_cons with (e := filler revision previous); try done; [|lia].
    apply Envelope_from_bytes_exact; split; [|done]; apply filler_wf; [unfold in_range, U64_MAX in *; passes | done].
Qed.

Lemma framed_total raws n : Forall (fun raw => len raw = n) raws ->
  total_len raws = Z.of_nat (length raws) * n /\ len (concat (framed <$> raws)) = Z.of_nat (length raws) * (n + 4).
Proof.
  induction 1 as [|raw raws Hr _ [IH1 IH2]]; [done|]; rewrite total_len_cons, Hr, IH1.
  cbn [fmap list_fmap concat length]; unfold len in *; rewrite length_app; unfold framed at 1.
  rewrite length_app, length_to_be; lia.
Qed.

Definition full_batch : ConfigUpdateBatch :=
  mkBatch (NetworkId_from_bytes zero32) (mkConfigHead 0 0 zero32) (fillers 16 1 zero32).

Lemma full_batch_facts :
  batch_typed full_batch /\ batch_ok full_batch /\ MAX_UPDATE_BATCH_BYTES < len (batch_bytes full_batch).
Proof.
  destruct (fillers_linked 16 1 zero32) as (Hl & Hf & Hn); [done.. | unfold U64_MAX; lia | done|].
  destruct (framed_total _ _ Hf) as [Ht Hb]; rewrite Hn in *.
  split_and!; [by constructor | |].
  - constructor; cbn [full_batch ub_envelopes ub_network_id ub_base_head head_revision head_hash]; unfold len;
      rewrite ?Hn, ?Ht; done.
  - unfold batch_bytes, len in *; cbn [full_batch ub_envelopes ub_network_id ub_base_head head_epoch head_revision head_hash].
    rewrite !length_app, !Nat2Z.inj_add, Hb, !length_to_be; unfold MAX_UPDATE_BATCH_BYTES; lia.
Qed.
End oversized.

Section batch_claims.
Context `{Blake3}.

(** What the wire format of update batches preserves.  Whatever parses is
    the serialisation of the batch it parses to; and a batch that serialises, with
    its fields in their Rust ranges, parses back to itself unless the result
    exceeds the 16 MiB limit, in which case parsing refuses it. *)
Theorem update_batch_wire_exact :
  (forall bs b, Batch_from_bytes bs = Ok b -> batch_typed b /\ Batch_to_bytes b = Ok bs) /\
  (forall bs b, batch_typed b -> Batch_to_bytes b = Ok bs ->
     Batch_from_bytes bs = if len bs <=? MAX_UPDATE_BATCH_BYTES then Ok b else Err UpdateBatchTooLarge).
Proof.
  split.
  - intros bs b (Ht & Hok & -> & Hlen)%Batch_wire_backward; split; [done|]; by apply Batch_to_bytes_Ok.
  - intros bs b Ht [Hok ->]%Batch_to_bytes_Ok; destruct (_ <=? _) eqn:Hl; bool_inv; [by apply Batch_wire_forward|].
    unfold Batch_from_bytes; by rewrite (proj2 (Z.ltb_lt _ _) Hl).
Qed.

(** A batch commits to its content.  Two batches of the same length that end
    in the same envelope hash carry the same envelopes and start from the same
    hash, or exhibit a collision of the hash function. *)
Theorem batch_commits_to_envelopes (b1 b2 : ConfigUpdateBatch) bs1 bs2 :
  Batch_from_bytes bs1 = Ok b1 -> Batch_from_bytes bs2 = Ok b2 ->
  length (ub_envelopes b1) = length (ub_envelopes b2) ->
  last_hash (head_hash (ub_base_head b1)) (ub_envelopes b1)
    = last_hash (head_hash (ub_base_head b2)) (ub_envelopes b2) ->
  (ub_envelopes b1 = ub_envelopes b2 /\ head_hash (ub_base_head b1) = head_hash (ub_base_head b2)) \/
  exists x y : bytes, x <> y /\ blake3_hash x = blake3_hash y.
Proof.
  intros (_ & Hok1 & _)%Batch_wire_backward (_ & Hok2 & _)%Batch_wire_backward Hlen Hh.
  eapply linked_determined; [apply Hok1 | apply Hok2 | done | done].
Qed.

(** Batches at the limit do not survive the wire.  [to_bytes] bounds the sum
    of the envelopes by 16 MiB, [from_bytes] the whole message, header and length
    prefixes included: there is a batch of sixteen envelopes of 1 MiB that
    serialises and is then refused by every receiver. *)
Theorem full_batch_refused `{!Blake3Laws} :
  exists b bs, batch_typed b /\ Batch_to_bytes b = Ok bs /\ Batch_from_bytes bs = Err UpdateBatchTooLarge.
Proof.
  assert (exists ct : bytes, len ct = 2 ^ 20 - 238) as [ct Hct].
  { exists (repeat Byte.x00 (Z.to_nat (2 ^ 20 - 238))); unfold len; rewrite repeat_length; lia. }
  destruct (full_batch_facts ct Hct) as (Ht & Hok & Hlen).
  exists (full_batch ct), (batch_bytes (full_batch ct)); split; [exact Ht|]; split.
  - apply Batch_to_bytes_Ok; split; [exact Hok | reflexivity].
  - apply Z.ltb_lt in Hlen; unfold Batch_from_bytes; rewrite Hlen; reflexivity.
Qed.
End batch_claims.

(** ** Concrete runs *)
Module EnvelopeWitness.
Import Samples.

Definition root_public : NetworkRootPublic := Eval vm_compute in NetworkRootKey_public toy_root.
Definition config_at (revision : Z) (previous : bytes) : NetworkConfigV1 :=
  let c := ValidateWitness.snapshot in {|
  cfg_network_id := cfg_network_id c; cfg_epoch := 1; cfg_revision := revision; cfg_previous_hash := previous;
  cfg_issued_at_ms := cfg_issued_at_ms c; cfg_expires_at_ms := cfg_expires_at_ms c;
  cfg_admin_keys := cfg_admin_keys c; cfg_members := cfg_members c;
  cfg_endpoint_bindings := cfg_endpoint_bindings c; cfg_revoked_serials := cfg_revoked_serials c;
  cfg_apps := cfg_apps c; cfg_app_bindings := cfg_app_bindings c; cfg_virtual_dns := cfg_virtual_dns c;
  cfg_relays := cfg_relays c; cfg_presence_services := cfg_presence_services c;
  cfg_epoch_secrets := cfg_epoch_secrets c; cfg_policies := cfg_policies c |}.
Definition genesis : NetworkConfigV1 := Eval vm_compute in config_at 0 zero32.
Definition random : entropy := [Some (repeat Byte.x01 32); Some (repeat Byte.x02 24); None].
Definition no_envelope : EncryptedConfigEnvelope := mkEnvelope 0 toy_network 0 0 [] [] [] [] [] [] [] [].
Definition genesis_envelope : EncryptedConfigEnvelope := Eval vm_compute in
  (ok_else (no_envelope, []) (seal_config toy_root genesis [toy_encryption] random)).1.
Definition head : ConfigHead := Eval vm_compute in envelope_head genesis_envelope.
Definition next : NetworkConfigV1 := Eval vm_compute in config_at 1 (head_hash head).
Definition next_envelope : EncryptedConfigEnvelope := Eval vm_compute in
  (ok_else (no_envelope, [])
     (seal_next_config root_public toy_admin (mkValidated genesis) head next [toy_encryption] 300 random)).1.
Definition keypair : MemberEncryptionKeypair := mkEncryptionKeypair toy_encryption toy_encryption.
Definition stranger : MemberEncryptionKeypair := mkEncryptionKeypair zero32 zero32.

Lemma genesis_sealed : seal_config toy_root genesis [toy_encryption] random = Ok (genesis_envelope, []).
Proof. vm_compute; reflexivity. Qed.
Lemma next_sealed :
  seal_next_config root_public toy_admin (mkValidated genesis) head next [toy_encryption] 300 random
    = Ok (next_envelope, []).
Proof. vm_compute; reflexivity. Qed.
Lemma genesis_validates : validate genesis root_public toy_network 300 = Ok (mkValidated genesis).
Proof. vm_compute; reflexivity. Qed.
Lemma next_validates : validate next root_public toy_network 300 = Ok (mkValidated next).
Proof. vm_compute; reflexivity. Qed.
Lemma config_at_typed revision previous :
  is_u64 revision = true -> length previous = 32%nat -> config_typed (config_at revision previous).
Proof.
  intros Hr Hp; constructor; cbn [config_at cfg_network_id cfg_epoch cfg_revision cfg_previous_hash cfg_issued_at_ms
    cfg_expires_at_ms cfg_revoked_serials cfg_virtual_dns cfg_relays cfg_presence_services cfg_epoch_secrets
    cfg_policies ValidateWitness.snapshot]; try exact Hr; try exact Hp; try reflexivity.
  - constructor; [reflexivity | constructor].
  - apply Forall_singleton; refine (conj _ (conj _ _)); vm_compute; reflexivity.
  - apply Forall_singleton; refine (conj _ (conj _ _)); reflexivity.
  - apply Forall_singleton; refine (conj _ _); reflexivity.
  - repeat constructor.
  - refine (conj _ (conj _ _)); reflexivity.
Qed.
Lemma config_at_parses revision previous :
  snapshot_parses (config_at revision previous) ValidateWitness.credentials.
Proof. constructor; apply ValidateWitness.snapshot_credentials. Qed.
Lemma sealed_config_opens_witness :
  Envelope_from_bytes (Envelope_to_bytes genesis_envelope) = Ok genesis_envelope /\
  open_config genesis_envelope root_public (root_network_id root_public) keypair Genesis 300
    = Ok (mkOpenedNetworkConfig (mkValidated genesis) (envelope_head genesis_envelope)).
Proof.
  refine (sealed_config_opens toy_root genesis [toy_encryption] random [] genesis_envelope keypair
    ValidateWitness.credentials mc Genesis 300 _ (config_at_typed 0 zero32 eq_refl eq_refl) genesis_sealed
    (config_at_parses _ _) _ _ _ _ (proj2 (proj1 (validate_Ok _ _ _ _ _) genesis_validates)));
    try (vm_compute; reflexivity); apply list_elem_of_singleton; reflexivity.
Defined.

Lemma sealed_update_opens_witness :
  Envelope_from_bytes (Envelope_to_bytes next_envelope) = Ok next_envelope /\
  open_next_config next_envelope root_public (mkValidated genesis) keypair head 400
    = Ok (mkOpenedNetworkConfig (mkValidated next) (envelope_head next_envelope)).
Proof.
  refine (sealed_update_opens root_public toy_admin (mkValidated genesis) head next [toy_encryption] 300 random []
    next_envelope keypair ValidateWitness.credentials mc (as_admin ac) 400 _ _
    (config_at_typed 1 (head_hash head) _ _) next_sealed (config_at_parses _ _) _ _ _ _
    (proj2 (proj1 (validate_Ok next root_public toy_network 400 (mkValidated next)) _)));
    try (vm_compute; reflexivity); apply list_elem_of_singleton; reflexivity.
Defined.

Lemma accepted_update_sound_witness :
  config_valid next root_public toy_network 300.
Proof.
  refine (proj1 (proj2 (proj2 (proj2 (accepted_update_sound root_public toy_network genesis 300 (mkValidated genesis)
    ValidateWitness.credentials head next_envelope keypair 300
    (mkOpenedNetworkConfig (mkValidated next) (envelope_head next_envelope)) genesis_validates (config_at_parses _ _) _)))));
    vm_compute; reflexivity.
Defined.

Lemma outsider_cannot_open_witness :
  open_after_verified_signature next_envelope (root_network_id root_public) stranger (Next head) = Err NoRecipientWrap.
Proof.
  refine (outsider_cannot_open root_public toy_admin (mkValidated genesis) head next [toy_encryption] 300 random []
    next_envelope stranger ValidateWitness.credentials (Next head) next_sealed (config_at_parses _ _) _ _);
    [|vm_compute; reflexivity].
  intros m Hm; apply list_elem_of_singleton in Hm as ->; vm_compute; discriminate.
Defined.

Definition batch : ConfigUpdateBatch := mkBatch toy_network head [Envelope_to_bytes next_envelope].
Lemma batch_commits_to_envelopes_witness :
  (ub_envelopes batch = ub_envelopes batch /\ head_hash head = head_hash head) \/
  exists x y : bytes, x <> y /\ blake3_hash x = blake3_hash y.
Proof.
  apply (batch_commits_to_envelopes batch batch (batch_bytes batch) (batch_bytes batch));
    [vm_compute; reflexivity | vm_compute; reflexivity | reflexivity | reflexivity].
Defined.

Lemma full_batch_refused_witness :
  exists b bs, batch_typed b /\ Batch_to_bytes b = Ok bs /\ Batch_from_bytes bs = Err UpdateBatchTooLarge.
Proof. apply full_batch_refused. Defined.
End EnvelopeWitness.
