(* ===== verification/ConfigState.v ===== *)
(** * weaver-net: the member's configuration checkpoint

    Models [crates/weaver-net/src/config_state.rs]: opening the persisted
    checkpoint, applying a batch of updates to it in one compare-and-swap commit,
    and serving the updates after a head.  The store is any [StateStore]; the
    theorems hold for every store that satisfies [StateStoreLaws]. *)

From S2P Require Import Prelude Wire Core Store CertificateWire Certificates Symmetric ToyCrypto Snapshot Validate.
From S2P Require Import Envelope EnvelopeChain.

(* weaver-net/src/config_state.rs:11-11 CONFIG_ENVELOPE_KEY *)
Definition CONFIG_ENVELOPE_KEY : bytes := bstr "config/envelope/v1".
(* weaver-net/src/config_state.rs:12-12 CONFIG_HEAD_KEY *)
Definition CONFIG_HEAD_KEY : bytes := bstr "config/head/v1".
(* weaver-net/src/config_state.rs:13-13 CONFIG_SIGNER_CERTIFICATE_KEY *)
Definition CONFIG_SIGNER_CERTIFICATE_KEY : bytes := bstr "config/signer-certificate/v1".
(* weaver-net/src/config_state.rs:14-14 CONFIG_HISTORY_KEY_PREFIX *)
Definition CONFIG_HISTORY_KEY_PREFIX : bytes := bstr "config/history/v1/".

(** [Unreachable] is the panic of [expect("non-empty update batch")]. *)
(* weaver-net/src/config_state.rs:243-264 ConfigStateError *)
Inductive ConfigStateError : Type :=
| NotJoined
| BaseHeadMismatch
| MissingSignerCertificate
| CommitLost
| MalformedHead
| UnknownHead
| HistoryUnavailable
| CsStore (e : StoreError)
| CsConfig (e : ConfigError)
| CsCrypto (e : CertificateError)
| Unreachable.

(* weaver-net/src/config_state.rs:20-29 PersistedConfigState *)
Record PersistedConfigState (S : Type) : Type := mkConfigState {
  cs_store : S;
  cs_root : NetworkRootPublic;
  cs_encryption : MemberEncryptionKeypair;
  cs_config : ValidatedNetworkConfig;
  cs_head : ConfigHead;
  cs_envelope_version : Z;
  cs_head_version : Z;
  cs_signer_version : Z;
}.
Arguments mkConfigState {S}.
Arguments cs_store {S}.
Arguments cs_root {S}.
Arguments cs_encryption {S}.
Arguments cs_config {S}.
Arguments cs_head {S}.
Arguments cs_envelope_version {S}.
Arguments cs_head_version {S}.
Arguments cs_signer_version {S}.

(* weaver-net/src/config_state.rs:266-271 history_key *)
Definition history_key (revision : Z) : result StoreError StoreKey :=
  StoreKey_new (CONFIG_HISTORY_KEY_PREFIX ++ to_be 8 revision).
(* weaver-net/src/config_state.rs:299-305 encode_head *)
Definition encode_head (head : ConfigHead) : bytes :=
  to_be 8 (head_epoch head) ++ to_be 8 (head_revision head) ++ head_hash head.
(* weaver-net/src/config_state.rs:307-316 decode_head *)
Definition decode_head (bs : bytes) : result ConfigStateError ConfigHead :=
  fail_if (negb (Nat.eqb (length bs) 48)) MalformedHead;;
  Ok (mkConfigHead (from_be (take 8 bs)) (from_be (take 8 (drop 8 bs))) (take 32 (drop 16 bs))).

(** Errors of the layers below, lifted by [?]. *)
#[local] Abbreviation store_err := (map_err CsStore).
#[local] Abbreviation config_err := (map_err CsConfig).
#[local] Abbreviation crypto_err := (map_err CsCrypto).

Section config_state.
Context `{Ed25519} `{Blake3} `{Aead} `{Hpke} {S : Type} `{StateStore S}.
Implicit Types (st : PersistedConfigState S) (s : S) (root : NetworkRootPublic) (now : Z).

(** [store.read(scope, &StoreKey::new(key)?).await?] *)
Definition read_key s (scope : StoreScope) (key : bytes) : result ConfigStateError (option VersionedBytes) :=
  key ← store_err (StoreKey_new key); store_err (read s scope key).

(* weaver-net/src/config_state.rs:273-297 seed_history *)
Definition seed_history s (scope : StoreScope) (revision : Z) (envelope : bytes)
    : S * result ConfigStateError unit :=
  let pure := (key ← store_err (history_key revision); existing ← store_err (read s scope key); Ok (key, existing)) in
  match pure with
  | Err e => (s, Err e)
  | Ok (_, Some existing) =>
      (s, if bool_decide (vb_bytes existing = envelope) then Ok tt else Err HistoryUnavailable)
  | Ok (key, None) =>
      match AtomicBatch_put (AtomicBatch_new scope) key envelope Missing with
      | Err e => (s, Err (CsStore e))
      | Ok batch =>
          match commit s batch with
          | (s', Ok _) => (s', Ok tt)
          | (s', Err (VersionConflict _ _ _)) =>
              (s', existing ← store_err (read s' scope key);
                   match existing with
                   | Some existing => fail_if (negb (bool_decide (vb_bytes existing = envelope))) HistoryUnavailable
                   | None => Err HistoryUnavailable
                   end)
          | (s', Err e) => (s', Err (CsStore e))
          end
      end
  end.

(** The records of the checkpoint, read and verified. *)
(* weaver-net/src/config_state.rs:38-62 PersistedConfigState::open *)
Definition load_checkpoint s root (encryption : MemberEncryptionKeypair) now
    : result ConfigStateError (OpenedNetworkConfig * VersionedBytes * VersionedBytes * VersionedBytes) :=
  let network_id := root_network_id root in
  let scope := StoreScope_member network_id in
  envelope_record ← read_key s scope CONFIG_ENVELOPE_KEY; envelope_record ← envelope_record ?? NotJoined;
  head_record ← read_key s scope CONFIG_HEAD_KEY; head_record ← head_record ?? NotJoined;
  signer_record ← read_key s scope CONFIG_SIGNER_CERTIFICATE_KEY; signer_record ← signer_record ?? NotJoined;
  envelope ← config_err (Envelope_from_bytes (vb_bytes envelope_record));
  head ← decode_head (vb_bytes head_record);
  signer ← crypto_err (AdminCertificate_from_bytes (vb_bytes signer_record));
  verified_signer ← crypto_err (AdminCertificate_verify signer root network_id now ∅);
  opened ← config_err (open_config_with_verified_admin envelope root verified_signer encryption (Checkpoint head) now);
  Ok (opened, envelope_record, head_record, signer_record).
(* weaver-net/src/config_state.rs:32-80 PersistedConfigState::open *)
Definition ConfigState_open s root (encryption : MemberEncryptionKeypair) now
    : S * result ConfigStateError (PersistedConfigState S) :=
  match load_checkpoint s root encryption now with
  | Err e => (s, Err e)
  | Ok (opened, envelope_record, head_record, signer_record) =>
      match seed_history s (StoreScope_member (root_network_id root)) (head_revision (onc_head opened))
              (vb_bytes envelope_record) with
      | (s', Err e) => (s', Err e)
      | (s', Ok _) =>
          (s', Ok (mkConfigState s' root encryption (onc_config opened) (onc_head opened)
                     (vb_version envelope_record) (vb_version head_record) (vb_version signer_record)))
      end
  end.

(** [admin_keys.iter().find_map(..)]: the certificate bytes of the first
    administrator whose certificate parses and has the key id. *)
(* weaver-net/src/config_state.rs:119-131 PersistedConfigState::apply *)
Fixpoint find_signer (key_id : bytes) (keys : list AdminKey) : option bytes :=
  match keys with
  | [] => None
  | k :: keys =>
      match AdminCertificate_from_bytes (ak_certificate k) with
      | Ok certificate => if bool_decide (adm_key_id (payload certificate) = key_id)
                          then Some (ak_certificate k) else find_signer key_id keys
      | Err _ => find_signer key_id keys
      end
  end.
(** The state of the loop over the envelopes: configuration, head, and the last
    envelope with the certificate of its signer. *)
Definition follow_state : Type := ValidatedNetworkConfig * ConfigHead * option (bytes * bytes).
(* weaver-net/src/config_state.rs:117-143 PersistedConfigState::apply *)
Definition follow root (encryption : MemberEncryptionKeypair) now (acc : follow_state) (raw : bytes)
    : result ConfigStateError follow_state :=
  let '(current_config, current_head, _) := acc in
  envelope ← config_err (Envelope_from_bytes raw);
  signer ← find_signer (env_signer_key_id envelope) (cfg_admin_keys (vc_inner current_config))
             ?? MissingSignerCertificate;
  opened ← config_err (open_next_config envelope root current_config encryption current_head now);
  Ok (onc_config opened, onc_head opened, Some (raw, signer)).
(* weaver-net/src/config_state.rs:167-174 PersistedConfigState::apply *)
Definition put_history (batch : AtomicBatch) (raw : bytes) : result ConfigStateError AtomicBatch :=
  envelope ← config_err (Envelope_from_bytes raw);
  key ← store_err (history_key (env_revision envelope));
  store_err (AtomicBatch_put batch key raw Missing).
(** The next configuration and head, and the batch that persists them. *)
(* weaver-net/src/config_state.rs:110-174 PersistedConfigState::apply *)
Definition prepare_update st (updates : ConfigUpdateBatch) now
    : result ConfigStateError (ValidatedNetworkConfig * ConfigHead * bytes * AtomicBatch) :=
  wire ← config_err (Batch_to_bytes updates);
  updates ← config_err (Batch_from_bytes wire);
  followed ← try_fold (follow (cs_root st) (cs_encryption st) now) (cs_config st, cs_head st, None)
               (ub_envelopes updates);
  let '(current_config, current_head, final) := followed in
  final ← final ?? Unreachable;
  let scope := StoreScope_member (root_network_id (cs_root st)) in
  envelope_key ← store_err (StoreKey_new CONFIG_ENVELOPE_KEY);
  head_key ← store_err (StoreKey_new CONFIG_HEAD_KEY);
  signer_key ← store_err (StoreKey_new CONFIG_SIGNER_CERTIFICATE_KEY);
  batch ← store_err (AtomicBatch_put (AtomicBatch_new scope) envelope_key final.1 (Exact (cs_envelope_version st)));
  batch ← store_err (AtomicBatch_put batch head_key (encode_head current_head) (Exact (cs_head_version st)));
  batch ← store_err (AtomicBatch_put batch signer_key final.2 (Exact (cs_signer_version st)));
  batch ← try_fold put_history batch (ub_envelopes updates);
  Ok (current_config, current_head, final.1, batch).
(* weaver-net/src/config_state.rs:177-196 PersistedConfigState::apply *)
Definition read_back s (scope : StoreScope) (final_envelope : bytes) (current_head : ConfigHead)
    : result ConfigStateError (Z * Z * Z) :=
  envelope_record ← read_key s scope CONFIG_ENVELOPE_KEY; envelope_record ← envelope_record ?? CommitLost;
  head_record ← read_key s scope CONFIG_HEAD_KEY; head_record ← head_record ?? CommitLost;
  signer_record ← read_key s scope CONFIG_SIGNER_CERTIFICATE_KEY; signer_record ← signer_record ?? CommitLost;
  fail_if (negb (bool_decide (vb_bytes envelope_record = final_envelope))) CommitLost;;
  head ← decode_head (vb_bytes head_record);
  fail_if (negb (bool_decide (head = current_head))) CommitLost;;
  Ok (vb_version envelope_record, vb_version head_record, vb_version signer_record).

Definition with_store st s : PersistedConfigState S :=
  mkConfigState s (cs_root st) (cs_encryption st) (cs_config st) (cs_head st)
    (cs_envelope_version st) (cs_head_version st) (cs_signer_version st).
(* weaver-net/src/config_state.rs:98-203 PersistedConfigState::apply *)
Definition ConfigState_apply st (updates : ConfigUpdateBatch) now
    : PersistedConfigState S * result ConfigStateError ConfigHead :=
  if negb (bool_decide (ub_network_id updates = root_network_id (cs_root st)))
     || negb (bool_decide (ub_base_head updates = cs_head st)) then (st, Err BaseHeadMismatch)
  else match ub_envelopes updates with
  | [] => (st, Ok (cs_head st))
  | _ :: _ =>
      match prepare_update st updates now with
      | Err e => (st, Err e)
      | Ok (current_config, current_head, final_envelope, batch) =>
          match commit (cs_store st) batch with
          | (s', Err e) => (with_store st s', Err (CsStore e))
          | (s', Ok _) =>
              match read_back s' (StoreScope_member (root_network_id (cs_root st))) final_envelope current_head with
              | Err e => (with_store st s', Err e)
              | Ok (envelope_version, head_version, signer_version) =>
                  (mkConfigState s' (cs_root st) (cs_encryption st) current_config current_head
                     envelope_version head_version signer_version, Ok current_head)
              end
          end
      end
  end.

(** The reads of [updates_after] for [count] revisions from [revision] on. *)
(* weaver-net/src/config_state.rs:226-233 PersistedConfigState::updates_after *)
Fixpoint read_history s (scope : StoreScope) (revision : Z) (count : nat)
    : result ConfigStateError (list bytes) :=
  match count with
  | O => Ok []
  | Datatypes.S count =>
      key ← store_err (history_key revision);
      record ← store_err (read s scope key);
      record ← record ?? HistoryUnavailable;
      rest ← read_history s scope (revision + 1) count;
      Ok (vb_bytes record :: rest)
  end.
(* weaver-net/src/config_state.rs:205-239 PersistedConfigState::updates_after *)
Definition updates_after st (base_head : ConfigHead) : result ConfigStateError ConfigUpdateBatch :=
  fail_if ((head_revision (cs_head st) <? head_revision base_head)
           || (head_epoch (cs_head st) <? head_epoch base_head)) UnknownHead;;
  let scope := StoreScope_member (root_network_id (cs_root st)) in
  key ← store_err (history_key (head_revision base_head));
  base ← store_err (read (cs_store st) scope key);
  base ← base ?? UnknownHead;
  base_envelope ← config_err (Envelope_from_bytes (vb_bytes base));
  fail_if (negb (env_epoch base_envelope =? head_epoch base_head)
           || negb (env_revision base_envelope =? head_revision base_head)
           || negb (bool_decide (envelope_hash base_envelope = head_hash base_head))) UnknownHead;;
  let first := wrapping_incr (head_revision base_head) in
  envelopes ← read_history (cs_store st) scope first (Z.to_nat (head_revision (cs_head st) + 1 - first));
  config_err (Batch_new (root_network_id (cs_root st)) base_head envelopes).
End config_state.
