(* ===== verification/ConfigStateFacts.v ===== *)
(** * Properties of the configuration checkpoint

    For every store that satisfies [StateStoreLaws]: applying updates is
    all-or-nothing, follows the chain of authorised revisions, and leaves a
    checkpoint from which the member restarts in the same state. *)

From S2P Require Import Prelude Wire Core Store CertificateWire Certificates Symmetric ToyCrypto Snapshot Validate.
From S2P Require Import Envelope EnvelopeChain ConfigState.

Section keys.
Definition envelope_key : StoreKey := mkStoreKey CONFIG_ENVELOPE_KEY.
Definition head_key : StoreKey := mkStoreKey CONFIG_HEAD_KEY.
Definition signer_key : StoreKey := mkStoreKey CONFIG_SIGNER_CERTIFICATE_KEY.
Definition hist_key (revision : Z) : StoreKey := mkStoreKey (CONFIG_HISTORY_KEY_PREFIX ++ to_be 8 revision).

Lemma hist_key_wf revision : StoreKey_wf (hist_key revision).
Proof.
  unfold StoreKey_wf, hist_key, len; cbn [StoreKey_as_bytes]; rewrite length_app, length_to_be.
  change (length CONFIG_HISTORY_KEY_PREFIX) with 18%nat; unfold MAX_KEY_LEN; lia.
Qed.
Lemma history_key_Ok revision : history_key revision = Ok (hist_key revision).
Proof. apply StoreKey_new_wf; split; [done | apply hist_key_wf]. Qed.
Lemma envelope_key_Ok : StoreKey_new CONFIG_ENVELOPE_KEY = Ok envelope_key.
Proof. reflexivity. Qed.
Lemma head_key_Ok : StoreKey_new CONFIG_HEAD_KEY = Ok head_key.
Proof. reflexivity. Qed.
Lemma signer_key_Ok : StoreKey_new CONFIG_SIGNER_CERTIFICATE_KEY = Ok signer_key.
Proof. reflexivity. Qed.
Lemma fixed_keys_wf : StoreKey_wf envelope_key /\ StoreKey_wf head_key /\ StoreKey_wf signer_key.
Proof. vm_compute; repeat split; intros; discriminate. Qed.
End keys.

Section heads.
Lemma encode_decode_head h :
  is_u64 (head_epoch h) = true -> is_u64 (head_revision h) = true -> length (head_hash h) = 32%nat ->
  decode_head (encode_head h) = Ok h.
Proof.
  destruct h as [ep rev hash]; cbn; intros He Hr Hh; unfold decode_head, encode_head; cbn [head_epoch head_revision head_hash].
  rewrite !length_app, !length_to_be, Hh; cbn [Nat.add Nat.eqb negb fail_if mbind result_bind].
  rewrite take_app_length' by (by rewrite length_to_be).
  rewrite drop_app_length' by (by rewrite length_to_be); rewrite take_app_length' by (by rewrite length_to_be).
  rewrite app_assoc, drop_app_length' by (by rewrite length_app, !length_to_be).
  rewrite take_ge by (by rewrite Hh); unfold in_range in *; bool_inv.
  by rewrite !from_to_be, !Z.mod_small by lia.
Qed.

Lemma decode_head_Ok bs h :
  decode_head bs = Ok h <->
  bs = encode_head h /\ is_u64 (head_epoch h) = true /\ is_u64 (head_revision h) = true /\ length (head_hash h) = 32%nat.
Proof.
  split.
  - unfold decode_head; intros Hd; apply bind_Ok in Hd as (u & Hl%fail_if_Ok & <-%Ok_inj); bool_inv.
    apply Nat.eqb_eq in Hl; unfold encode_head; cbn [head_epoch head_revision head_hash].
    assert (length (take 8 bs) = 8%nat) as H1 by (rewrite length_take; lia).
    assert (length (take 8 (drop 8 bs)) = 8%nat) as H2 by (rewrite length_take, length_drop; lia).
    rewrite (to_from_be_n 8 _ H1), (to_from_be_n 8 _ H2).
    pose proof (from_be_range (take 8 bs)); pose proof (from_be_range (take 8 (drop 8 bs))); rewrite ?H1, ?H2 in *.
    split_and!.
    + rewrite (take_ge (drop 16 bs)) by (rewrite length_drop; lia).
      rewrite <- (take_drop 8 bs) at 1; f_equal; rewrite <- (take_drop 8 (drop 8 bs)) at 1; f_equal; by rewrite drop_drop.
    + unfold in_range; passes.
    + unfold in_range; passes.
    + rewrite length_take, length_drop; lia.
  - intros (-> & ? & ? & ?); by apply encode_decode_head.
Qed.
End heads.

(** The revision of a serialised envelope; only used of bytes that parse. *)
Definition raw_revision (raw : bytes) : Z :=
  match Envelope_from_bytes raw with Ok e => env_revision e | Err _ => 0 end.
Definition history_put (raw : bytes) : BatchOperation := Put (hist_key (raw_revision raw)) raw Missing.

Section batches.
Lemma put_history_Ok b raws b' :
  batch_wf b -> try_fold put_history b raws = Ok b' ->
  batch_wf b' /\ batch_scope b' = batch_scope b /\ batch_operations b' = batch_operations b ++ (history_put <$> raws).
Proof.
  revert b; induction raws as [|raw raws IH]; cbn; intros b Hb Hf.
  - apply Ok_inj in Hf as <-; by rewrite app_nil_r.
  - apply bind_Ok in Hf as (b1 & Hp & Hf); unfold put_history in Hp.
    apply bind_Ok in Hp as (e & He%map_err_Ok & Hp); rewrite history_key_Ok in Hp; cbn in Hp; apply map_err_Ok in Hp.
    apply AtomicBatch_put_wf in Hp as (Hb1 & Hs1 & Ho1); [|done | apply hist_key_wf].
    destruct (IH b1 Hb1 Hf) as (? & -> & ->); rewrite Ho1, <- app_assoc; split_and!; [done | done|].
    cbn; unfold history_put at 2, raw_revision; by rewrite He.
Qed.
End batches.

Section facts.
Context `{Ed25519} `{Blake3} `{Aead} `{Hpke} {S : Type} `{StateStore S}.
Implicit Types (st : PersistedConfigState S) (s : S) (root : NetworkRootPublic) (now : Z) (m : records).

(** A run of accepted updates. *)
Inductive follows root (enc : MemberEncryptionKeypair) now :
  ValidatedNetworkConfig -> ConfigHead -> list bytes -> ValidatedNetworkConfig -> ConfigHead -> Prop :=
| follows_nil c h : follows root enc now c h [] c h
| follows_cons c h raw e o raws c' h' :
    Envelope_from_bytes raw = Ok e -> open_next_config e root c enc h now = Ok o ->
    follows root enc now (onc_config o) (onc_head o) raws c' h' ->
    follows root enc now c h (raw :: raws) c' h'.

(** The last envelope of a run, with the configuration it was opened against. *)
Record final_update root (enc : MemberEncryptionKeypair) now (raws : list bytes) (c' : ValidatedNetworkConfig)
    (h' : ConfigHead) (raw signer : bytes) : Prop := {
  fu_last : last raws = Some raw;
  fu_opened : exists e c h, Envelope_from_bytes raw = Ok e /\
    open_next_config e root c enc h now = Ok (mkOpenedNetworkConfig c' h') /\
    find_signer (env_signer_key_id e) (cfg_admin_keys (vc_inner c)) = Some signer;
}.

Lemma follow_Ok root enc now c h fin raws c' h' fin' :
  try_fold (follow root enc now) (c, h, fin) raws = Ok (c', h', fin') ->
  follows root enc now c h raws c' h' /\
  (raws = [] /\ fin' = fin \/ exists raw signer, fin' = Some (raw, signer) /\ final_update root enc now raws c' h' raw signer).
Proof.
  revert c h fin; induction raws as [|raw raws IH]; cbn; intros c h fin Hf.
  - injection Hf as <- <- <-; split; [constructor | by left].
  - apply bind_Ok in Hf as ([[c1 h1] fin1] & Hs & Hf).
    apply bind_Ok in Hs as (e & He%map_err_Ok & Hs); apply bind_Ok in Hs as (signer & Hsg%ok_or_Ok & Hs).
    apply bind_Ok in Hs as (o & Ho%map_err_Ok & [= <- <- <-]).
    destruct (IH _ _ _ Hf) as [Hfl Hfin]; split; [by econstructor|]; right.
    destruct Hfin as [[-> ->] | (raw' & sg & -> & [Hlast Hop])].
    + inversion Hfl; subst; eexists _, _; split; [done|]; constructor; [done|].
      exists e, c, h; split_and!; [done | by destruct o | done].
    + exists raw', sg; split; [done|]; constructor; [|done]; rewrite last_cons; by rewrite Hlast.
Qed.

(** The records an applied update leaves behind. *)
Record update_effect (scope : StoreScope) m (raws : list bytes) (raw signer : bytes) (h' : ConfigHead) (m' : records)
    : Prop := {
  ue_envelope : vb_bytes <$> m' !! (scope, envelope_key) = Some raw;
  ue_head : vb_bytes <$> m' !! (scope, head_key) = Some (encode_head h');
  ue_signer : vb_bytes <$> m' !! (scope, signer_key) = Some signer;
  ue_history : forall r, r ∈ raws -> m !! (scope, hist_key (raw_revision r)) = None /\
                 vb_bytes <$> m' !! (scope, hist_key (raw_revision r)) = Some r;
  ue_outside : forall scope' key, scope' <> scope \/
      (key <> envelope_key /\ key <> head_key /\ key <> signer_key /\ forall r, r ∈ raws -> key <> hist_key (raw_revision r)) ->
    m' !! (scope', key) = m !! (scope', key);
}.

Definition update_operations st (raws : list bytes) (raw signer : bytes) (h' : ConfigHead) : list BatchOperation :=
  [Put envelope_key raw (Exact (cs_envelope_version st)); Put head_key (encode_head h') (Exact (cs_head_version st));
   Put signer_key signer (Exact (cs_signer_version st))] ++ (history_put <$> raws).

Lemma reparse_batch updates u :
  batch_typed updates -> (wire ← Batch_to_bytes updates; Batch_from_bytes wire) = Ok u -> u = updates /\ batch_ok updates.
Proof.
  intros Ht Hw; apply bind_Ok in Hw as (wire & [Hok ->]%Batch_to_bytes_Ok & Hu).
  pose proof Hu as (_ & _ & _ & Hlen)%Batch_wire_backward.
  rewrite (Batch_wire_forward _ Ht Hok Hlen) in Hu; by apply Ok_inj in Hu as <-.
Qed.

Lemma prepare_update_Ok st updates now c' h' raw batch :
  batch_typed updates -> scope_wf (StoreScope_member (root_network_id (cs_root st))) -> ub_envelopes updates <> [] ->
  prepare_update st updates now = Ok (c', h', raw, batch) ->
  batch_ok updates /\ exists signer,
    follows (cs_root st) (cs_encryption st) now (cs_config st) (cs_head st) (ub_envelopes updates) c' h' /\
    final_update (cs_root st) (cs_encryption st) now (ub_envelopes updates) c' h' raw signer /\
    batch_wf batch /\ batch_scope batch = StoreScope_member (root_network_id (cs_root st)) /\
    batch_operations batch = update_operations st (ub_envelopes updates) raw signer h'.
Proof.
  intros Hty Hsc Hne Hp; unfold prepare_update in Hp; destruct fixed_keys_wf as (Hk1 & Hk2 & Hk3).
  apply bind_Ok in Hp as (wire & Hw%map_err_Ok & Hp); apply bind_Ok in Hp as (u & Hu%map_err_Ok & Hp).
  destruct (reparse_batch updates u) as [-> Hok]; [done | apply bind_Ok; eauto|]; clear wire Hw Hu.
  apply bind_Ok in Hp as ([[c1 h1] fin] & [Hfl Hfin]%follow_Ok & Hp); cbn beta iota in Hp.
  destruct Hfin as [[? _]|(raw' & signer & -> & Hfu)]; [done|].
  cbn [ok_or mbind result_bind] in Hp; rewrite envelope_key_Ok, head_key_Ok, signer_key_Ok in Hp.
  cbn [map_err mbind result_bind fst snd] in Hp.
  apply bind_Ok in Hp as (b1 & Hb1%map_err_Ok & Hp); apply bind_Ok in Hp as (b2 & Hb2%map_err_Ok & Hp).
  apply bind_Ok in Hp as (b3 & Hb3%map_err_Ok & Hp); apply bind_Ok in Hp as (b4 & Hb4 & [= <- <- <- <-]).
  apply AtomicBatch_put_wf in Hb1 as (Hw1 & Hs1 & Ho1); [|by apply AtomicBatch_new_wf | done].
  apply AtomicBatch_put_wf in Hb2 as (Hw2 & Hs2 & Ho2); [|done..].
  apply AtomicBatch_put_wf in Hb3 as (Hw3 & Hs3 & Ho3); [|done..].
  apply put_history_Ok in Hb4 as (Hw4 & Hs4 & Ho4); [|done].
  split; [done|]; exists signer; split_and!; try done; [by rewrite Hs4, Hs3, Hs2, Hs1 | by rewrite Ho4, Ho3, Ho2, Ho1].
Qed.

Lemma update_batch_effect st m batch m' raws raw signer h' :
  batch_operations batch = update_operations st raws raw signer h' ->
  preconditions m batch -> batch_effect m batch m' -> update_effect (batch_scope batch) m raws raw signer h' m'.
Proof.
  intros Hops Hpre [Hin Hout]; unfold preconditions in Hpre; rewrite Hops in *.
  assert (Hh : forall r, r ∈ raws -> history_put r ∈ update_operations st raws raw signer h').
  { intros r Hr; apply elem_of_app; right; by apply list_elem_of_fmap_2. }
  constructor.
  - apply (Hin (Put envelope_key raw (Exact (cs_envelope_version st)))); apply elem_of_app; left; apply elem_of_cons; by left.
  - apply (Hin (Put head_key (encode_head h') (Exact (cs_head_version st)))); apply elem_of_app; left; set_solver.
  - apply (Hin (Put signer_key signer (Exact (cs_signer_version st)))); apply elem_of_app; left; set_solver.
  - intros r Hr; specialize (Hh r Hr); split; [|by apply (Hin _ Hh)].
    rewrite Forall_forall in Hpre; specialize (Hpre _ Hh); cbn in Hpre; apply bool_decide_eq_true in Hpre.
    by apply fmap_None in Hpre.
  - intros scope' key Hk; apply Hout; destruct Hk as [?|(? & ? & ? & Hk)]; [by left | right].
    unfold update_operations; rewrite fmap_app, not_elem_of_app; split; [cbn; set_solver|].
    rewrite <- list_fmap_compose, list_elem_of_fmap; intros (r & -> & Hr); by apply (Hk r).
Qed.

Lemma open_next_head e root c enc h now o :
  open_next_config e root c enc h now = Ok o -> onc_head o = envelope_head e.
Proof.
  intros (va & opened & _ & (_ & _ & Hh & _)%open_verified_Ok & Ho)%open_next_config_Ok.
  apply decode_and_validate_Ok in Ho as (? & _ & _ & _ & _ & _ & _ & ->); done.
Qed.

Section laws.
Context `{Lstore : !StateStoreLaws S} `{Lblake : !Blake3Laws}.

Lemma final_head_typed root enc now raws c' h' raw signer :
  final_update root enc now raws c' h' raw signer -> decode_head (encode_head h') = Ok h'.
Proof.
  intros [_ (e & c & h & [Hw _]%Envelope_from_bytes_exact & Ho & _)].
  apply open_next_head in Ho; cbn in Ho; subst h'; apply encode_decode_head; cbn; [apply Hw.. | apply blake3_hash_len].
Qed.

Lemma read_key_Ok s m scope key o :
  store_rep s m -> scope_wf scope -> read_key s scope key = Ok o -> exists k, StoreKey_new key = Ok k /\ o = m !! (scope, k).
Proof.
  intros Hr Hs Hk; apply bind_Ok in Hk as (k & Hk%map_err_Ok & Ho%map_err_Ok); exists k; split; [done|].
  by apply (read_rep s m).
Qed.

(** Reading the checkpoint of a committed update back can only fail in the store. *)
Lemma read_back_committed s m m' scope raws raw signer h' r :
  store_rep s m' -> scope_wf scope -> update_effect scope m raws raw signer h' m' ->
  decode_head (encode_head h') = Ok h' -> read_back s scope raw h' = r ->
  (exists e, r = Err (CsStore e)) \/
  exists ev hv sv, r = Ok (ev, hv, sv) /\ m' !! (scope, envelope_key) = Some (mkVersionedBytes ev raw) /\
    m' !! (scope, head_key) = Some (mkVersionedBytes hv (encode_head h')) /\
    m' !! (scope, signer_key) = Some (mkVersionedBytes sv signer).
Proof.
  intros Hrep Hsc [He Hh Hsg _ _] Hd <-; unfold read_back, read_key.
  rewrite envelope_key_Ok, head_key_Ok, signer_key_Ok; cbn [map_err mbind result_bind].
  apply fmap_Some in He as ([ev eb] & Hev & [= ->]); apply fmap_Some in Hh as ([hv hb] & Hhv & Hhb); cbn in Hhb; subst hb.
  apply fmap_Some in Hsg as ([sv sb] & Hsv & [= ->]).
  destruct (read s scope envelope_key) as [oe|x] eqn:Hre; [|left; by eexists].
  rewrite (read_rep _ _ _ _ _ Hrep Hsc Hre), Hev; cbn.
  destruct (read s scope head_key) as [oh|x] eqn:Hrh; [|left; by eexists].
  rewrite (read_rep _ _ _ _ _ Hrep Hsc Hrh), Hhv; cbn.
  destruct (read s scope signer_key) as [os|x] eqn:Hrs; [|left; by eexists].
  rewrite (read_rep _ _ _ _ _ Hrep Hsc Hrs), Hsv; cbn; right.
  rewrite bool_decide_true by done; cbn; rewrite Hd; cbn; rewrite bool_decide_true by done; cbn; eauto 10.
Qed.

(** The member's state of mind: configuration and head, without the store. *)
Definition same_view st st' : Prop :=
  cs_root st' = cs_root st /\ cs_encryption st' = cs_encryption st /\
  cs_config st' = cs_config st /\ cs_head st' = cs_head st.

Definition updated st m (raws : list bytes) now (c' : ValidatedNetworkConfig) (h' : ConfigHead) (m' : records) : Prop :=
  follows (cs_root st) (cs_encryption st) now (cs_config st) (cs_head st) raws c' h' /\
  exists raw signer, final_update (cs_root st) (cs_encryption st) now raws c' h' raw signer /\
    update_effect (StoreScope_member (root_network_id (cs_root st))) m raws raw signer h' m'.

(** Errors that are not bugs: neither of the two that a lawful store rules out. *)
Definition benign (e : ConfigStateError) : Prop := e <> CommitLost /\ e <> Unreachable.

Lemma map_err_benign {E A} (f : E -> ConfigStateError) (x : result E A) e :
  (forall y, benign (f y)) -> map_err f x = Err e -> benign e.
Proof. destruct x; [done|]; intros Hf [= <-]; apply Hf. Qed.

Ltac benign_step H :=
  apply bind_Err in H as [H | (? & ? & H)];
  [solve [eapply map_err_benign; [|exact H]; by intros; split]|].

Lemma follow_benign root enc now acc raws e : try_fold (follow root enc now) acc raws = Err e -> benign e.
Proof.
  revert acc; induction raws as [|raw raws IH]; cbn; intros acc Hf; [done|].
  apply bind_Err in Hf as [Hf | (acc' & _ & Hf)]; [|by eapply IH].
  destruct acc as [[c h] fin]; unfold follow in Hf; benign_step Hf.
  apply bind_Err in Hf as [[_ ->]%ok_or_Err | (? & _ & Hf)]; [by split|].
  benign_step Hf; done.
Qed.
Lemma put_history_benign b raws e : try_fold put_history b raws = Err e -> benign e.
Proof.
  revert b; induction raws as [|raw raws IH]; cbn; intros b Hf; [done|].
  apply bind_Err in Hf as [Hf | (b' & _ & Hf)]; [|by eapply IH].
  unfold put_history in Hf; do 2 benign_step Hf; eapply map_err_benign; [|exact Hf]; by split.
Qed.

Lemma prepare_update_benign st updates now e :
  batch_typed updates -> ub_envelopes updates <> [] -> prepare_update st updates now = Err e -> benign e.
Proof.
  intros Hty Hne Hp; unfold prepare_update in Hp.
  apply bind_Err in Hp as [Hp | (wire & Hw & Hp)]; [by eapply map_err_benign; [|exact Hp]|].
  apply bind_Err in Hp as [Hp | (u & Hu & Hp)]; [by eapply map_err_benign; [|exact Hp]|].
  destruct (reparse_batch updates u) as [-> Hok]; [done | apply map_err_Ok in Hw, Hu; apply bind_Ok; eauto|].
  apply bind_Err in Hp as [Hp | ([[c1 h1] fin] & [_ Hfin]%follow_Ok & Hp)]; [by eapply follow_benign|].
  destruct Hfin as [[? _]|(raw' & signer & -> & _)]; [done|]; cbn [ok_or mbind result_bind] in Hp.
  do 6 benign_step Hp; apply bind_Err in Hp as [Hp | (? & _ & Hp)]; [by eapply put_history_benign | done].
Qed.

Lemma apply_cases st m updates now st' r :
  store_rep (cs_store st) m -> scope_wf (StoreScope_member (root_network_id (cs_root st))) ->
  batch_typed updates -> ConfigState_apply st updates now = (st', r) ->
  (same_view st st' /\ store_rep (cs_store st') m /\
    (r = Ok (cs_head st) /\ ub_envelopes updates = [] /\ st' = st \/ exists e, r = Err e /\ benign e)) \/
  exists c' h' m', updated st m (ub_envelopes updates) now c' h' m' /\ store_rep (cs_store st') m' /\
    ((exists e, r = Err (CsStore e)) /\ same_view st st' \/
     r = Ok h' /\ cs_root st' = cs_root st /\ cs_encryption st' = cs_encryption st /\
       cs_config st' = c' /\ cs_head st' = h' /\ exists raw signer,
       let scope := StoreScope_member (root_network_id (cs_root st)) in
       final_update (cs_root st) (cs_encryption st) now (ub_envelopes updates) c' h' raw signer /\
       m' !! (scope, envelope_key) = Some (mkVersionedBytes (cs_envelope_version st') raw) /\
       m' !! (scope, head_key) = Some (mkVersionedBytes (cs_head_version st') (encode_head h')) /\
       m' !! (scope, signer_key) = Some (mkVersionedBytes (cs_signer_version st') signer)).
Proof.
  intros Hrep Hsc Hty Ha; unfold ConfigState_apply in Ha.
  destruct (_ || _) eqn:Hbase; [injection Ha as <- <-; left; by repeat split; eauto; right; eexists|].
  destruct (ub_envelopes updates) as [|raw0 raws0] eqn:Henv; [injection Ha as <- <-; left; repeat split; eauto|].
  assert (ub_envelopes updates <> []) as Hne by (by rewrite Henv); rewrite <- Henv in *; clear raw0 raws0 Henv.
  destruct (prepare_update st updates now) as [[[[c' h'] raw] batch]|e] eqn:Hp.
  2:{ injection Ha as <- <-; left; repeat split; eauto; right; eexists; split; [done|].
      by eapply prepare_update_benign. }
  destruct (prepare_update_Ok st updates now c' h' raw batch Hty Hsc Hne Hp)
    as (Hok & signer & Hfl & Hfu & Hwf & Hbs & Hops).
  assert (Heff : forall m', preconditions m batch -> batch_effect m batch m' ->
    update_effect (StoreScope_member (root_network_id (cs_root st))) m (ub_envelopes updates) raw signer h' m').
  { intros m' Hpre Hbe; rewrite <- Hbs; by eapply update_batch_effect. }
  destruct (commit (cs_store st) batch) as [s' [v|e]] eqn:Hc.
  - destruct (commit_success _ _ _ _ _ Hrep Hwf Hc) as (Hpre & m' & Hrep' & Hbe); right; exists c', h', m'.
    pose proof (Heff m' Hpre Hbe) as Hue.
    destruct (read_back_committed s' m m' _ _ _ _ _ _ Hrep' Hsc Hue (final_head_typed _ _ _ _ _ _ _ _ Hfu) eq_refl)
      as [[e He] | (ev & hv & sv & He & ? & ? & ?)]; rewrite He in Ha; injection Ha as <- <-; split_and!; try done;
      [by split; eauto | left; split; [by eexists | done] | by split; eauto | right; split_and!; try done; eauto 10].
  - injection Ha as <- <-; destruct (commit_failure _ _ _ _ _ Hrep Hwf Hc) as [Hm | (_ & Hpre & m' & Hrep' & Hbe)].
    + left; split; [done|]; split; [done|]; right; eexists; split; [done | by split].
    + right; exists c', h', m'; split; [split; eauto|]; split; [done|]; left; split; [by eexists | done].
Qed.

(** ** Applying a run that opens *)
Lemma find_signer_exists root net now revoked key_id keys va :
  find_admin root net now revoked key_id keys = Ok va -> exists signer, find_signer key_id keys = Some signer.
Proof.
  induction keys as [|k keys IH]; cbn; [done|].
  destruct (AdminCertificate_from_bytes (ak_certificate k)) as [a|] eqn:Ha; cbn; [|done].
  case_bool_decide; [by eexists | done].
Qed.

Lemma follow_complete root enc now c h raws c' h' fin :
  follows root enc now c h raws c' h' ->
  exists fin', try_fold (follow root enc now) (c, h, fin) raws = Ok (c', h', fin') /\ (raws <> [] -> is_Some fin').
Proof.
  intros Hf; revert fin; induction Hf as [c h | c h raw e o raws c' h' He Ho Hf IH]; intros fin; cbn.
  - exists fin; by split.
  - pose proof Ho as (va & opened & [_ _ Hva _ _ _ _] & _)%open_next_config_Ok.
    destruct (find_signer_exists _ _ _ _ _ _ _ Hva) as [signer Hs].
    destruct (IH (Some (raw, signer))) as (fin' & Hfin & Hne); exists fin'.
    rewrite He; cbn [map_err mbind result_bind]; rewrite Hs; cbn [ok_or mbind result_bind].
    rewrite Ho; cbn [map_err mbind result_bind]; split; [done|]; intros _.
    destruct raws as [|raw' raws]; [|by apply Hne]; injection Hfin as _ _ <-; by eexists.
Qed.

Lemma follows_parse root enc now c h raws c' h' :
  follows root enc now c h raws c' h' -> Forall (fun raw => exists e, Envelope_from_bytes raw = Ok e) raws.
Proof. induction 1; constructor; eauto. Qed.

Lemma put_history_store_error b raws e :
  Forall (fun raw => exists e, Envelope_from_bytes raw = Ok e) raws -> try_fold put_history b raws = Err e ->
  exists x, e = CsStore x.
Proof.
  intros Hp; revert b; induction Hp as [|raw raws [env He] _ IH]; cbn; intros b Hf; [done|].
  apply bind_Err in Hf as [Hf | (b' & _ & Hf)]; [|by eapply IH].
  unfold put_history in Hf; rewrite He in Hf; cbn [map_err mbind result_bind] in Hf; rewrite history_key_Ok in Hf.
  apply map_err_Err in Hf as (x & _ & ->); by eexists.
Qed.

Lemma prepare_update_followed st updates wire now c' h' :
  Batch_from_bytes wire = Ok updates -> ub_envelopes updates <> [] ->
  follows (cs_root st) (cs_encryption st) now (cs_config st) (cs_head st) (ub_envelopes updates) c' h' ->
  (exists raw batch, prepare_update st updates now = Ok (c', h', raw, batch)) \/
  exists x, prepare_update st updates now = Err (CsStore x).
Proof.
  intros Hw Hne Hf; pose proof Hw as (_ & Hok & -> & Hlen)%Batch_wire_backward; unfold prepare_update.
  rewrite (proj2 (Batch_to_bytes_Ok _ _) (conj Hok eq_refl)); cbn [map_err mbind result_bind].
  rewrite Hw; cbn [map_err mbind result_bind].
  destruct (follow_complete _ _ _ _ _ _ _ _ None Hf) as ([[raw signer]|] & -> & Hfin); [|by destruct (Hfin Hne)].
  cbn [map_err mbind result_bind ok_or fst snd]; rewrite envelope_key_Ok, head_key_Ok, signer_key_Ok; cbn [map_err mbind result_bind].
  do 3 (destruct (AtomicBatch_put _ _ _ _) as [?|x]; cbn [map_err mbind result_bind]; [|right; by exists x]).
  destruct (try_fold put_history _ _) as [b|x] eqn:Hp; [left; by eexists _, _|].
  apply put_history_store_error in Hp as [y ->]; [right; by exists y | by eapply follows_parse].
Qed.

(** A batch whose envelopes open one after the other is applied, unless the
    member's store fails. *)
Lemma apply_followed st m updates wire now c' h' st' r :
  store_rep (cs_store st) m -> scope_wf (StoreScope_member (root_network_id (cs_root st))) ->
  Batch_from_bytes wire = Ok updates -> ub_network_id updates = root_network_id (cs_root st) ->
  ub_base_head updates = cs_head st ->
  follows (cs_root st) (cs_encryption st) now (cs_config st) (cs_head st) (ub_envelopes updates) c' h' ->
  ConfigState_apply st updates now = (st', r) ->
  (r = Ok h' /\ cs_config st' = c' /\ cs_head st' = h') \/ exists x, r = Err (CsStore x).
Proof.
  intros Hrep Hsc Hw Hn Hb Hf Ha; unfold ConfigState_apply in Ha.
  rewrite !bool_decide_true in Ha by done; cbn [negb orb] in Ha.
  destruct (ub_envelopes updates) as [|raw0 raws0] eqn:Henv.
  { injection Ha as <- <-; inversion Hf; subst; left; by rewrite <- ?Hb. }
  assert (ub_envelopes updates <> []) as Hne by (by rewrite Henv); rewrite <- Henv in *; clear raw0 raws0 Henv.
  destruct (prepare_update_followed st updates wire now c' h' Hw Hne Hf) as [(raw & batch & Hp) | [x Hp]];
    rewrite Hp in Ha; [|injection Ha as <- <-; right; by exists x].
  pose proof Hw as (Hty & _ & _ & _)%Batch_wire_backward.
  destruct (prepare_update_Ok st updates now c' h' raw batch Hty Hsc Hne Hp) as (_ & signer & _ & Hfu & Hwf & Hbs & Hops).
  destruct (commit (cs_store st) batch) as [s' [v|e]] eqn:Hc; [|injection Ha as <- <-; right; by exists e].
  destruct (commit_success _ _ _ _ _ Hrep Hwf Hc) as (Hpre & m' & Hrep' & Hbe).
  pose proof (update_batch_effect _ _ _ _ _ _ _ _ Hops Hpre Hbe) as Hue; rewrite Hbs in Hue.
  destruct (read_back_committed s' m m' _ _ _ _ _ _ Hrep' Hsc Hue (final_head_typed _ _ _ _ _ _ _ _ Hfu) eq_refl)
    as [[e He] | (ev & hv & sv & He & _)]; rewrite He in Ha; injection Ha as <- <-; [right; by exists e | by left].
Qed.

(** ** Restarting from the checkpoint *)
Lemma admin_trusted_no_revocation a root net now revoked :
  admin_trusted a root net now revoked -> admin_trusted a root net now ∅.
Proof. intros []; constructor; try done; set_solver. Qed.

Lemma find_signer_found root net now revoked key_id keys va signer :
  find_admin root net now revoked key_id keys = Ok va -> find_signer key_id keys = Some signer ->
  exists a, AdminCertificate_from_bytes signer = Ok a /\ va = as_admin a /\ admin_trusted a root net now revoked.
Proof.
  induction keys as [|k keys IH]; cbn; [done|].
  destruct (AdminCertificate_from_bytes (ak_certificate k)) as [a|] eqn:Ha; cbn; [|done].
  case_bool_decide; [|done]; intros Hv [= <-]; apply map_err_Ok, AdminCertificate_verify_Ok in Hv as [-> ?]; eauto.
Qed.

Lemma reopen_verified e net enc chain chain' opened :
  open_after_verified_signature e net enc chain = Ok opened -> validate_chain e chain' = Ok tt ->
  open_after_verified_signature e net enc chain' = Ok opened.
Proof.
  unfold open_after_verified_signature; intros Ho Hc; apply bind_Ok in Ho as (u & -> & Ho).
  apply bind_Ok in Ho as (u' & _ & Ho); cbn; rewrite Hc; exact Ho.
Qed.

Lemma checkpoint_chain e : validate_chain e (Checkpoint (envelope_head e)) = Ok tt.
Proof. unfold validate_chain, envelope_head; cbn; by rewrite !Z.eqb_refl, bool_decide_true. Qed.

(** The records of a checkpoint that has been opened at the time [now]. *)
Definition checkpoint_at root (enc : MemberEncryptionKeypair) now (raw signer : bytes) (a : AdminCertificate)
    (c : ValidatedNetworkConfig) (h : ConfigHead) : Prop :=
  exists e, Envelope_from_bytes raw = Ok e /\ h = envelope_head e /\ AdminCertificate_from_bytes signer = Ok a /\
    admin_trusted a root (root_network_id root) now ∅ /\
    open_config_with_verified_admin e root (as_admin a) enc (Checkpoint h) now = Ok (mkOpenedNetworkConfig c h).
(** What time can change of it: the certificate of the signer and the configuration, with
    all it contains, are still valid. *)
Definition still_valid root (a : AdminCertificate) (c : ValidatedNetworkConfig) now : Prop :=
  adm_not_before_ms (payload a) <= now < adm_expires_at_ms (payload a) /\
  config_valid (vc_inner c) root (root_network_id root) now.

(** The envelope that ends an update opens again against its own head. *)
Lemma final_update_reopens root enc now raws c' h' raw signer :
  final_update root enc now raws c' h' raw signer -> exists e a,
    Envelope_from_bytes raw = Ok e /\ adm_key_id (payload a) = env_signer_key_id e /\
    checkpoint_at root enc now raw signer a c' h'.
Proof.
  intros [_ (e & c & h & He & Ho & Hs)]; pose proof (open_next_head _ _ _ _ _ _ _ Ho) as Hh; cbn in Hh.
  apply open_next_config_Ok in Ho as (va & opened & [Hr Hcur Hva Hn Hsg Hperm Hsig] & Hop & Hd).
  destruct (find_signer_found _ _ _ _ _ _ _ _ Hva Hs) as (a & Ha & -> & Htr); exists e, a; split_and!; [done..|].
  exists e; split_and!; try done.
  - rewrite Hr, <- Hcur; by eapply admin_trusted_no_revocation.
  - unfold open_config_with_verified_admin, VerifiedAdmin_verify_bytes.
    do 3 (apply bind_Ok; exists tt; split; [apply fail_if_Ok; passes|]).
    apply bind_Ok; exists tt; split; [by apply map_err_Ok, verify_signature_Ok|].
    apply bind_Ok; exists opened; split; [|done]; eapply reopen_verified; [exact Hop|]; subst h'; apply checkpoint_chain.
Qed.
Lemma reopen_config_at e root va enc chain now now' c h :
  open_config_with_verified_admin e root va enc chain now = Ok (mkOpenedNetworkConfig c h) ->
  config_valid (vc_inner c) root (root_network_id root) now /\
  forall o, open_config_with_verified_admin e root va enc chain now' = Ok o <->
    o = mkOpenedNetworkConfig c h /\ config_valid (vc_inner c) root (root_network_id root) now'.
Proof.
  unfold open_config_with_verified_admin; intros Ho; apply bind_Ok in Ho as ([] & Hn & Ho); rewrite Hn; apply fail_if_Ok in Hn; bool_inv.
  do 2 (apply bind_Ok in Ho as ([] & -> & Ho)); apply bind_Ok in Ho as (? & -> & Ho); apply bind_Ok in Ho as (opened & -> & Ho).
  cbn [mbind result_bind]; apply decode_and_validate_Ok in Ho as (cfg & Hx & Hw & He & Hr & Hp & Hv & Heq); injection Heq as -> ->; cbn [vc_inner].
  replace (root_network_id root) with (env_network_id e); split; [done|]; intros o; rewrite decode_and_validate_Ok; split.
  - intros (y & Hy & _ & _ & _ & _ & Hv' & ->); rewrite Hx in Hy; injection Hy as <-; done.
  - intros [-> Hv']; by exists cfg.
Qed.
(** Opening a checkpoint again, at any time: it gives what was opened before when signer
    and configuration are valid at that time, and fails otherwise, or when the store
    cannot be read. *)
Lemma checkpoint_reopens root enc now now' raw signer a c h s m ev hv sv :
  let scope := StoreScope_member (root_network_id root) in
  checkpoint_at root enc now raw signer a c h -> store_rep s m -> scope_wf scope ->
  m !! (scope, envelope_key) = Some (mkVersionedBytes ev raw) ->
  m !! (scope, head_key) = Some (mkVersionedBytes hv (encode_head h)) ->
  m !! (scope, signer_key) = Some (mkVersionedBytes sv signer) ->
  match load_checkpoint s root enc now' with
  | Ok opened => still_valid root a c now' /\
      opened = (mkOpenedNetworkConfig c h, mkVersionedBytes ev raw, mkVersionedBytes hv (encode_head h), mkVersionedBytes sv signer)
  | Err e => (exists key se, read s scope key = Err se /\ e = CsStore se) \/ ~ still_valid root a c now'
  end.
Proof.
  intros scope (e & Hpe & Hhe & Hpa & Htr & Hop) Hrep Hsc He Hh Hsg; unfold load_checkpoint, read_key; fold scope.
  assert (Hdh : decode_head (encode_head h) = Ok h).
  { subst h; apply Envelope_from_bytes_exact in Hpe as [Hw _]; apply encode_decode_head; cbn; [apply Hw.. | apply blake3_hash_len]. }
  rewrite envelope_key_Ok, head_key_Ok, signer_key_Ok; cbn [map_err mbind result_bind].
  destruct (read s scope envelope_key) as [oe|x] eqn:Hre; cbn [map_err mbind result_bind]; [|by eauto].
  rewrite (read_rep _ _ _ _ _ Hrep Hsc Hre), He; cbn [ok_or mbind result_bind].
  destruct (read s scope head_key) as [oh|x] eqn:Hrh; cbn [map_err mbind result_bind]; [|by eauto].
  rewrite (read_rep _ _ _ _ _ Hrep Hsc Hrh), Hh; cbn [ok_or mbind result_bind].
  destruct (read s scope signer_key) as [os|x] eqn:Hrs; cbn [map_err mbind result_bind]; [|by eauto].
  rewrite (read_rep _ _ _ _ _ Hrep Hsc Hrs), Hsg; cbn [ok_or mbind result_bind vb_bytes].
  rewrite Hpe, Hdh, Hpa; cbn [map_err mbind result_bind].
  destruct (reopen_config_at _ _ _ _ _ _ now' _ _ Hop) as [_ Hre'].
  destruct (AdminCertificate_verify a root (root_network_id root) now' ∅) as [va|ex] eqn:Hva; cbn [map_err mbind result_bind].
  - apply AdminCertificate_verify_Ok in Hva as [-> Htr']; fold (as_admin a).
    destruct (open_config_with_verified_admin e root (as_admin a) enc (Checkpoint h) now') as [o|ex]; cbn [map_err mbind result_bind].
    + destruct (proj1 (Hre' o) eq_refl) as [-> Hv]; split; [by split; [apply Htr'|] | done].
    + right; intros [_ Hv]; pose proof (proj2 (Hre' _) (conj eq_refl Hv)) as Hx; discriminate Hx.
  - right; intros [Ht _]; assert (admin_trusted a root (root_network_id root) now' ∅) as Htr' by (destruct Htr; by constructor).
    pose proof (proj2 (AdminCertificate_verify_Ok _ _ _ _ _ _) (conj eq_refl Htr')) as Hx; congruence.
Qed.

Lemma restart_after_update st m m' raws raw signer a c' h' now now' s' ev hv sv :
  let root := cs_root st in let enc := cs_encryption st in
  let scope := StoreScope_member (root_network_id root) in
  store_rep s' m' -> scope_wf scope -> last raws = Some raw ->
  checkpoint_at root enc now raw signer a c' h' -> update_effect scope m raws raw signer h' m' ->
  m' !! (scope, envelope_key) = Some (mkVersionedBytes ev raw) ->
  m' !! (scope, head_key) = Some (mkVersionedBytes hv (encode_head h')) ->
  m' !! (scope, signer_key) = Some (mkVersionedBytes sv signer) ->
  exists r, ConfigState_open s' root enc now' = (s', r) /\
  match r with
  | Ok st' => still_valid root a c' now' /\ st' = mkConfigState s' root enc c' h' ev hv sv
  | Err e => (exists key se, read s' scope key = Err se /\ e = CsStore se) \/ ~ still_valid root a c' now'
  end.
Proof.
  intros root enc scope Hrep Hsc Hlast Hcp Hue He Hh Hsg.
  pose proof (checkpoint_reopens _ _ _ now' _ _ _ _ _ _ _ _ _ _ Hcp Hrep Hsc He Hh Hsg) as Hl.
  unfold ConfigState_open; destruct (load_checkpoint s' root enc now') as [opened|e]; [|by eexists].
  destruct Hl as [Hcur ->]; fold scope; cbn [onc_head onc_config vb_bytes vb_version].
  assert (Hhist : vb_bytes <$> m' !! (scope, hist_key (head_revision h')) = Some raw).
  { apply last_Some_elem_of in Hlast; destruct (ue_history _ _ _ _ _ _ _ Hue raw Hlast) as [_ Hx].
    destruct Hcp as (e & Hpe & -> & _); unfold raw_revision in Hx; by rewrite Hpe in Hx. }
  apply fmap_Some in Hhist as ([hvv hraw] & Hhist & [= ->]).
  unfold seed_history; rewrite history_key_Ok; cbn [map_err mbind result_bind].
  destruct (read s' scope (hist_key (head_revision h'))) as [o|se] eqn:Hr; cbn [map_err mbind result_bind].
  - rewrite (read_rep _ _ _ _ _ Hrep Hsc Hr), Hhist; cbn [vb_bytes]; rewrite bool_decide_true by done; by eexists.
  - eexists; split; [done|]; left; eauto.
Qed.

(** ** Serving updates *)
Lemma read_history_Ok s m scope revision count raws :
  store_rep s m -> scope_wf scope -> read_history s scope revision count = Ok raws ->
  length raws = count /\
  forall i raw, raws !! i = Some raw -> vb_bytes <$> m !! (scope, hist_key (revision + Z.of_nat i)) = Some raw.
Proof.
  intros Hrep Hsc; revert revision raws; induction count as [|count IH]; cbn; intros revision raws Hr.
  - apply Ok_inj in Hr as <-; split; [done | intros [] ? ?; done].
  - rewrite history_key_Ok in Hr; cbn in Hr; apply bind_Ok in Hr as (o & Ho%map_err_Ok & Hr).
    apply bind_Ok in Hr as (rec & Hrec%ok_or_Ok & Hr); apply bind_Ok in Hr as (rest & Hrest & <-%Ok_inj); subst o.
    destruct (IH _ _ Hrest) as [<- Hi]; split; [done|]; intros [|i] raw; cbn.
    + intros [= <-]; rewrite Z.add_0_r, <- (read_rep _ _ _ _ _ Hrep Hsc Ho); done.
    + intros Hraw; rewrite <- (Hi i raw Hraw); do 4 f_equal; lia.
Qed.

Lemma linked_elem_parses net revision previous raws raw :
  linked net revision previous raws -> raw ∈ raws -> exists e, Envelope_from_bytes raw = Ok e.
Proof. induction 1; [by intros ?%elem_of_nil|]; intros [->|?]%elem_of_cons; eauto. Qed.

Lemma updates_after_Ok st m base b :
  store_rep (cs_store st) m -> scope_wf (StoreScope_member (root_network_id (cs_root st))) -> 0 <= head_revision base ->
  updates_after st base = Ok b ->
  let scope := StoreScope_member (root_network_id (cs_root st)) in
  batch_ok b /\ ub_network_id b = root_network_id (cs_root st) /\ ub_base_head b = base /\
  len (ub_envelopes b) = head_revision (cs_head st) - head_revision base /\
  (exists e, vb_bytes <$> m !! (scope, hist_key (head_revision base)) = Some (Envelope_to_bytes e) /\ envelope_hash e = head_hash base) /\
  forall i raw, ub_envelopes b !! i = Some raw ->
    vb_bytes <$> m !! (scope, hist_key (head_revision base + 1 + Z.of_nat i)) = Some raw.
Proof.
  intros Hrep Hsc Hpos Hu; unfold updates_after in Hu; cbn zeta.
  apply bind_Ok in Hu as (u & Hf%fail_if_Ok & Hu); bool_inv; rewrite history_key_Ok in Hu; cbn [map_err mbind result_bind] in Hu.
  apply bind_Ok in Hu as (o & Ho%map_err_Ok & Hu); apply bind_Ok in Hu as (rec & Hrec%ok_or_Ok & Hu); subst o.
  apply bind_Ok in Hu as (e & [Hw He]%map_err_Ok%Envelope_from_bytes_exact & Hu).
  apply bind_Ok in Hu as (u2 & Hf2%fail_if_Ok & Hu); bool_inv.
  apply bind_Ok in Hu as (raws & Hraws & [-> Hok]%map_err_Ok%Batch_new_Ok); cbn.
  assert (wrapping_incr (head_revision base) = head_revision base + 1) as Hwr.
  { destruct Hok; cbn in *; unfold U64_MAX in *; apply wrapping_incr_small; lia. }
  rewrite Hwr in Hraws; destruct (read_history_Ok _ _ _ _ _ _ Hrep Hsc Hraws) as [Hlen Hi].
  split_and!; try done; [unfold len; lia|].
  exists e; rewrite <- (read_rep _ _ _ _ _ Hrep Hsc Ho); cbn; by rewrite He.
Qed.
End laws.
End facts.

Section claims.
Context `{Led : Ed25519} `{Lblake : Blake3Laws} `{Laead : Aead} `{Lhpke : Hpke} {S : Type} `{Lstore : StateStoreLaws S}.

(** C1: applying updates is all or nothing, on every store that keeps its
    contract.  On success the member is at the head reached by opening every
    envelope of the batch in turn, each against the configuration and head before
    it, and the store holds the last envelope, this head, the signer's certificate
    and the history entries and nothing else has changed.  On failure the
    configuration and head in memory are unchanged, and so is the store, unless
    the store itself reported an error, in which case it may hold the complete
    update.  The two internal errors (a lost commit, an empty batch) do not occur. *)
Theorem apply_all_or_nothing (st st' : PersistedConfigState S) (m : records) (updates : ConfigUpdateBatch) (now : Z)
    (r : result ConfigStateError ConfigHead) :
  store_rep (cs_store st) m -> scope_wf (StoreScope_member (root_network_id (cs_root st))) ->
  batch_typed updates -> ConfigState_apply st updates now = (st', r) ->
  match r with
  | Ok h =>
      cs_head st' = h /\
      follows (cs_root st) (cs_encryption st) now (cs_config st) (cs_head st) (ub_envelopes updates) (cs_config st') h /\
      (ub_envelopes updates <> [] ->
       exists m', store_rep (cs_store st') m' /\ updated st m (ub_envelopes updates) now (cs_config st') h m')
  | Err e =>
      same_view st st' /\ benign e /\
      (store_rep (cs_store st') m \/
       (exists se, e = CsStore se) /\
       exists c' h' m', store_rep (cs_store st') m' /\ updated st m (ub_envelopes updates) now c' h' m')
  end.
Proof.
  intros Hrep Hsc Hty Ha; destruct (apply_cases _ _ _ _ _ _ Hrep Hsc Hty Ha)
    as [(Hv & Hr & [(-> & Hn & ->) | (e & -> & Hb)]) | (c' & h' & m' & Hup & Hr & [([e ->] & Hv) | (-> & _ & _ & Hc & Hh & _)])].
  - rewrite Hn; split_and!; [done | constructor | done].
  - split_and!; [done.. | by left].
  - split_and!; [done | by split | right; split; eauto 6].
  - subst; split_and!; [done | apply Hup | eauto].
Qed.

(** C29: a member restarts where it stopped.  After an update of at least one revision has
    been applied, opening the store again, at any time and with the same root and key,
    never writes to it, and gives exactly the state the update returned, with the same
    configuration, head and record versions, precisely when the certificate of the
    administrator who signed the last revision, and the configuration with everything in
    it, are valid at that time.  It fails only when they are not or when the store cannot
    be read.  Both are valid at the time of the update. *)
Theorem applied_update_survives_restart (st st' : PersistedConfigState S) (m : records)
    (updates : ConfigUpdateBatch) (now : Z) (h : ConfigHead) :
  let root := cs_root st in let scope := StoreScope_member (root_network_id root) in
  store_rep (cs_store st) m -> scope_wf scope -> batch_typed updates -> ub_envelopes updates <> [] ->
  ConfigState_apply st updates now = (st', Ok h) ->
  exists raw e a, last (ub_envelopes updates) = Some raw /\ Envelope_from_bytes raw = Ok e /\
    adm_key_id (payload a) = env_signer_key_id e /\ admin_trusted a root (root_network_id root) now ∅ /\
    still_valid root a (cs_config st') now /\
    forall now', exists r, ConfigState_open (cs_store st') root (cs_encryption st) now' = (cs_store st', r) /\
    match r with
    | Ok st2 => st2 = st' /\ still_valid root a (cs_config st') now'
    | Err e => (exists key se, read (cs_store st') scope key = Err se /\ e = CsStore se) \/ ~ still_valid root a (cs_config st') now'
    end.
Proof.
  intros root scope Hrep Hsc Hty Hne Ha; subst root scope; destruct (apply_cases _ _ _ _ _ _ Hrep Hsc Hty Ha)
    as [(_ & _ & [(_ & ? & _) | (e & ? & _)]) | (c' & h' & m' & [_ (raw & signer & Hfu & Hue)] & Hr & [([e ?] & _) | (_ & Hcr & Hce & Hc & Hh & raw' & signer' & _ & He & Hhd & Hsg)])]; try done.
  pose proof (ue_envelope _ _ _ _ _ _ _ Hue) as He'; pose proof (ue_signer _ _ _ _ _ _ _ Hue) as Hsg'.
  rewrite He in He'; rewrite Hsg in Hsg'; cbn in He', Hsg'; injection He' as ->; injection Hsg' as ->.
  destruct (final_update_reopens _ _ _ _ _ _ _ _ Hfu) as (e & a & Hpe & Hid & Hcp); exists raw, e, a.
  pose proof Hcp as (e0 & _ & _ & _ & Htr & Hop); destruct (reopen_config_at _ _ _ _ _ _ now _ _ Hop) as [Hv _].
  rewrite Hc; split_and!; [apply Hfu | done.. | by split; [apply Htr|] |]; intros now'.
  destruct (restart_after_update st m m' (ub_envelopes updates) raw signer a c' h' now now' _ _ _ _ Hr Hsc (fu_last _ _ _ _ _ _ _ _ Hfu) Hcp Hue He Hhd Hsg)
    as (r & -> & Hres); exists r; split; [done|]; destruct r as [st2|]; [|exact Hres].
  destruct Hres as [Hcur ->]; split; [|done]; destruct st'; cbn in *; congruence.
Qed.

Lemma served_updates (st : PersistedConfigState S) (m : records) (base : ConfigHead)
    (b : ConfigUpdateBatch) (e : EncryptedConfigEnvelope) :
  store_rep (cs_store st) m -> scope_wf (StoreScope_member (root_network_id (cs_root st))) -> 0 <= head_revision base ->
  vb_bytes <$> m !! (StoreScope_member (root_network_id (cs_root st)), hist_key (head_revision (cs_head st)))
    = Some (Envelope_to_bytes e) -> envelope_hash e = head_hash (cs_head st) ->
  updates_after st base = Ok b ->
  batch_ok b /\ ub_base_head b = base /\
  len (ub_envelopes b) = head_revision (cs_head st) - head_revision base /\
  last_hash (head_hash base) (ub_envelopes b) = head_hash (cs_head st).
Proof.
  intros Hrep Hsc Hpos He Hhash Hu.
  destruct (updates_after_Ok _ _ _ _ Hrep Hsc Hpos Hu) as (Hok & _ & Hb & Hlen & (e0 & He0 & Hh0) & Hi).
  split_and!; try done; unfold last_hash, len in *; destruct (ub_envelopes b) as [|x raws] eqn:Hraws; cbn [length] in Hlen.
  - replace (head_revision (cs_head st)) with (head_revision base) in He by lia.
    rewrite He0 in He; injection He as He; cbn; rewrite <- Hh0, <- Hhash; unfold envelope_hash; by rewrite He.
  - destruct (last (x :: raws)) as [raw|] eqn:Hl; [|by apply last_None in Hl].
    rewrite last_lookup in Hl; apply Hi in Hl; cbn [length pred] in Hl.
    replace (head_revision base + 1 + _) with (head_revision (cs_head st)) in Hl by lia.
    rewrite He in Hl; injection Hl as <-; exact Hhash.
Qed.

(** What a member serves to a peer.  When [updates_after] answers a head, the
    batch starts at this head, has one envelope per revision up to the member's
    own, links them hash by hash, and, if the member's history holds its current
    envelope, ends in the member's head. *)
Theorem served_updates_reach_head (st : PersistedConfigState S) (m : records) (base : ConfigHead)
    (b : ConfigUpdateBatch) (e : EncryptedConfigEnvelope) :
  store_rep (cs_store st) m -> scope_wf (StoreScope_member (root_network_id (cs_root st))) -> 0 <= head_revision base ->
  vb_bytes <$> m !! (StoreScope_member (root_network_id (cs_root st)), hist_key (head_revision (cs_head st)))
    = Some (Envelope_to_bytes e) -> envelope_hash e = head_hash (cs_head st) ->
  updates_after st base = Ok b ->
  batch_ok b /\ ub_base_head b = base /\
  len (ub_envelopes b) = head_revision (cs_head st) - head_revision base /\
  last_hash (head_hash base) (ub_envelopes b) = head_hash (cs_head st).
Proof. apply served_updates. Qed.
End claims.

(** ** A concrete member *)
Module ConfigStateWitness.
Import Samples EnvelopeWitness.

Definition scope : StoreScope := StoreScope_member toy_network.
Definition genesis_raw : bytes := Eval vm_compute in Envelope_to_bytes genesis_envelope.
Definition member_records : records :=
  <[(scope, envelope_key) := mkVersionedBytes 1 genesis_raw]>
  (<[(scope, head_key) := mkVersionedBytes 2 (encode_head head)]>
  (<[(scope, signer_key) := mkVersionedBytes 3 (to_bytes ac)]>
  (<[(scope, hist_key 0) := mkVersionedBytes 4 genesis_raw]> ∅))).
Definition member_store : MemoryState := mkMemoryState 1 5 5 member_records.
Definition member : PersistedConfigState MemoryState :=
  mkConfigState member_store root_public keypair (mkValidated genesis) head 1 2 3.
Definition member' : PersistedConfigState MemoryState := (ConfigState_apply member batch 300).1.
Definition head' : ConfigHead := envelope_head next_envelope.

Lemma member_applies : ConfigState_apply member batch 300 = (member', Ok head').
Proof.
  assert (Hr : (ConfigState_apply member batch 300).2 = Ok head') by (vm_compute; reflexivity).
  rewrite (surjective_pairing (ConfigState_apply member batch 300)), Hr; unfold member'; reflexivity.
Qed.
#[local] Opaque genesis_envelope next_envelope head head' member'.
Lemma memory_reads (st : MemoryState) scope key : exists o, read st scope key = Ok o.
Proof. eexists; reflexivity. Qed.
Lemma member_history : vb_bytes <$> member_records !! (scope, hist_key 0) = Some genesis_raw.
Proof.
  unfold member_records; generalize genesis_raw as raw, (encode_head head) as h, (to_bytes ac) as sg; intros raw h sg.
  rewrite !lookup_insert_ne
    by (intros Heq; apply (f_equal (fun p => StoreKey_as_bytes p.2)) in Heq; vm_compute in Heq; discriminate Heq).
  rewrite lookup_insert_eq; reflexivity.
Qed.
Lemma head_facts : head_revision head = 0 /\ head_hash head = envelope_hash genesis_envelope.
Proof. vm_compute; split; reflexivity. Qed.
Lemma member_rep : store_rep (cs_store member) member_records.
Proof. reflexivity. Qed.
Lemma batch_has_type : batch_typed batch.
Proof. constructor; vm_compute; reflexivity. Qed.
Lemma scope_has_type : scope_wf scope.
Proof. vm_compute; reflexivity. Qed.

Lemma batch_nonempty : ub_envelopes batch <> [].
Proof. intros Hnil; discriminate Hnil. Qed.
Lemma expired_later : ~ (cfg_issued_at_ms (vc_inner (cs_config member')) <= 100000 < cfg_expires_at_ms (vc_inner (cs_config member'))).
Proof.
  assert (cfg_expires_at_ms (vc_inner (cs_config member')) <= 100000) by (vm_compute; discriminate); lia.
Qed.

Lemma apply_all_or_nothing_witness :
  follows root_public keypair 300 (mkValidated genesis) head (ub_envelopes batch) (cs_config member') head'.
Proof.
  exact (proj1 (proj2 (apply_all_or_nothing member member' member_records batch 300 (Ok head') member_rep scope_has_type
    batch_has_type member_applies))).
Defined.

Lemma applied_update_survives_restart_witness :
  ConfigState_open (cs_store member') (cs_root member) (cs_encryption member) 300 = (cs_store member', Ok member') /\
  exists e, ConfigState_open (cs_store member') (cs_root member) (cs_encryption member) 100000 = (cs_store member', Err e).
Proof.
  pose proof (applied_update_survives_restart member member' member_records batch 300 head' member_rep scope_has_type
    batch_has_type batch_nonempty member_applies) as Ht; cbv zeta in Ht.
  destruct Ht as (raw & e & a & _ & _ & _ & _ & Hnow & Hopen); split.
  - destruct (Hopen 300) as ([st2|x] & Ho & Hr); [destruct Hr as [Hr _]; rewrite Ho, Hr; reflexivity|]; exfalso.
    destruct Hr as [(key & se & Hread & _)|Hr]; [|exact (Hr Hnow)].
    destruct (memory_reads (cs_store member') (StoreScope_member (root_network_id (cs_root member))) key) as [o Hok].
    rewrite Hok in Hread; discriminate Hread.
  - destruct (Hopen 100000) as ([st2|x] & Ho & Hr); [exfalso | by exists x].
    destruct Hr as [_ [_ Hv]]; exact (expired_later (va_time _ _ _ _ Hv)).
Defined.

Lemma served_updates_reach_head_witness :
  last_hash (head_hash head) [] = head_hash head.
Proof.
  refine (proj2 (proj2 (proj2 (served_updates_reach_head member member_records head (mkBatch toy_network head [])
    genesis_envelope member_rep scope_has_type _ _ _ _)))).
  - change (0 <= head_revision head); rewrite (proj1 head_facts); discriminate.
  - change (vb_bytes <$> member_records !! (scope, hist_key (head_revision head)) = Some genesis_raw).
    rewrite (proj1 head_facts); exact member_history.
  - symmetry; exact (proj2 head_facts).
  - vm_compute; reflexivity.
Defined.
End ConfigStateWitness.
