(* ===== verification/JoinTicket.v ===== *)
(** * weaver-relay-core: errors of the authority and join tickets

    Models the [JoinTicket] of [crates/weaver-relay-core/src/lib.rs]: the signed
    message with which the authority admits a device, its wire format and its
    verification by the joining device. *)

From S2P Require Import Prelude Wire Core Store CertificateWire Certificates Symmetric Snapshot Validate Envelope.
From S2P Require Import EnvelopeChain.

(* weaver-relay-core/src/lib.rs:966-1013 AuthorityError *)
Inductive AuthorityError : Type :=
| AlreadyInitialized
| InvalidDataDirectory
| InvalidOptions
| CorruptState
| InvalidJoinRequest
| InvalidJoinTicket
| InvalidInvitation
| InvitationAlreadyUsed
| InvitationRevoked
| MemberNotFound
| CannotRevokeAuthorityMember
| ApplicationAlreadyRegistered
| ApplicationNotFound
| VirtualDnsRecordNotFound
| RelayNotFound
| UnknownConfigHead
| AuHistoryUnavailable
| Io (message : bytes)
| AuStore (e : StoreError)
| AuSecret (e : SecretStoreError)
| AuCrypto (e : CertificateError)
| AuConfig (e : ConfigError)
| AuSnapshot (e : SnapshotError).

(* weaver-relay-core/src/lib.rs:44-44 JOIN_TICKET_MAGIC *)
Definition JOIN_TICKET_MAGIC : bytes := bstr "WVRTKT" ++ [Byte.x00; Byte.x01].

(* weaver-relay-core/src/lib.rs:79-91 JoinTicket *)
Record JoinTicket : Type := mkJoinTicket {
  tk_network_id : NetworkId;
  tk_request_nonce : bytes;
  tk_expires_at_ms : Z;
  tk_config_head : ConfigHead;
  tk_admin_certificate : bytes;
  tk_member_certificate : bytes;
  tk_endpoint_binding : bytes;
  tk_embedded_config : bytes;
  tk_signer_key_id : bytes;
  tk_signed_bytes : bytes;
  tk_signature : bytes;
}.

(* weaver-relay-core/src/lib.rs:1264-1269 push_ticket_blob *)
Definition push_ticket_blob (blob : bytes) : result AuthorityError bytes :=
  fail_if (negb (is_u32 (len blob))) InvalidJoinTicket;; Ok (to_be 4 (len blob) ++ blob).
(* weaver-relay-core/src/lib.rs:219-234 JoinTicket::encode_signed *)
Definition Ticket_encode_signed (t : JoinTicket) : result AuthorityError bytes :=
  admin ← push_ticket_blob (tk_admin_certificate t);
  member ← push_ticket_blob (tk_member_certificate t);
  endpoint ← push_ticket_blob (tk_endpoint_binding t);
  config ← push_ticket_blob (tk_embedded_config t);
  Ok (JOIN_TICKET_MAGIC ++ NetworkId_as_bytes (tk_network_id t) ++ tk_request_nonce t
      ++ to_be 8 (tk_expires_at_ms t) ++ to_be 8 (head_epoch (tk_config_head t))
      ++ to_be 8 (head_revision (tk_config_head t)) ++ head_hash (tk_config_head t)
      ++ admin ++ member ++ endpoint ++ config ++ tk_signer_key_id t).

#[local] Abbreviation array := (d_array InvalidJoinTicket).
#[local] Abbreviation u64 := (d_u64 InvalidJoinTicket).
(* weaver-relay-core/src/lib.rs:1308-1314 TicketDecoder::blob *)
Definition d_ticket_blob : dec AuthorityError bytes :=
  n ← d_u32 InvalidJoinTicket;
  lift (fail_if ((n =? 0) || (MAX_VALUE_LEN <? n)) InvalidJoinTicket);;
  d_take InvalidJoinTicket n.
(* weaver-relay-core/src/lib.rs:139-167 JoinTicket::from_bytes *)
Definition d_ticket (signed_bytes signature : bytes) : dec AuthorityError JoinTicket :=
  d_magic InvalidJoinTicket JOIN_TICKET_MAGIC;;
  network_id ← array 32; request_nonce ← array 32; expires_at_ms ← u64;
  epoch ← u64; revision ← u64; hash ← array 32;
  admin_certificate ← d_ticket_blob; member_certificate ← d_ticket_blob;
  endpoint_binding ← d_ticket_blob; embedded_config ← d_ticket_blob;
  signer_key_id ← array 16;
  d_finish InvalidJoinTicket;;
  mret {| tk_network_id := NetworkId_from_bytes network_id; tk_request_nonce := request_nonce;
          tk_expires_at_ms := expires_at_ms; tk_config_head := mkConfigHead epoch revision hash;
          tk_admin_certificate := admin_certificate; tk_member_certificate := member_certificate;
          tk_endpoint_binding := endpoint_binding; tk_embedded_config := embedded_config;
          tk_signer_key_id := signer_key_id; tk_signed_bytes := signed_bytes; tk_signature := signature |}.
(* weaver-relay-core/src/lib.rs:130-168 JoinTicket::from_bytes *)
Definition Ticket_from_bytes (bs : bytes) : result AuthorityError JoinTicket :=
  fail_if (Nat.ltb (length bs) SIGNATURE_LEN) InvalidJoinTicket;;
  let signed_len := (length bs - SIGNATURE_LEN)%nat in
  let signed_bytes := take signed_len bs in
  run_decoder (d_ticket signed_bytes (drop signed_len bs)) signed_bytes.
(* weaver-relay-core/src/lib.rs:170-175 JoinTicket::to_bytes *)
Definition Ticket_to_bytes (t : JoinTicket) : bytes := tk_signed_bytes t ++ tk_signature t.

Section ticket.
Context `{Ed25519} `{Blake3}.

(* weaver-relay-core/src/lib.rs:101-128 JoinTicket::issue *)
Definition Ticket_issue (admin : OnlineAdminKey) (network_id : NetworkId) (request_nonce : bytes) (expires_at_ms : Z)
    (config_head : ConfigHead) (admin_certificate member_certificate endpoint_binding embedded_config : bytes)
    : result AuthorityError JoinTicket :=
  let unsigned := mkJoinTicket network_id request_nonce expires_at_ms config_head admin_certificate
    member_certificate endpoint_binding embedded_config (OnlineAdminKey_key_id admin) [] [] in
  signed_bytes ← Ticket_encode_signed unsigned;
  Ok (mkJoinTicket network_id request_nonce expires_at_ms config_head admin_certificate
        member_certificate endpoint_binding embedded_config (OnlineAdminKey_key_id admin)
        signed_bytes (OnlineAdminKey_sign_bytes admin signed_bytes)).

(* weaver-relay-core/src/lib.rs:177-217 JoinTicket::verify *)
Definition Ticket_verify (t : JoinTicket) (root : NetworkRootPublic) (expected_network : NetworkId)
    (expected_nonce expected_endpoint : bytes) (now_ms : Z) : result AuthorityError unit :=
  fail_if (negb (bool_decide (tk_network_id t = expected_network))
           || negb (bool_decide (root_network_id root = expected_network))
           || negb (bool_decide (tk_request_nonce t = expected_nonce))
           || (tk_expires_at_ms t <=? now_ms)) InvalidJoinTicket;;
  admin_certificate ← map_err AuCrypto (AdminCertificate_from_bytes (tk_admin_certificate t));
  admin ← map_err AuCrypto (AdminCertificate_verify admin_certificate root expected_network now_ms ∅);
  fail_if (negb (bool_decide (tk_signer_key_id t = adm_key_id (va_payload admin)))) InvalidJoinTicket;;
  map_err AuCrypto (VerifiedAdmin_verify_bytes admin (tk_signed_bytes t) (tk_signature t));;
  member ← map_err AuCrypto (MemberCertificate_from_bytes (tk_member_certificate t));
  verified_member ← map_err AuCrypto (MemberCertificate_verify_with_admin member admin expected_network now_ms ∅);
  endpoint ← map_err AuCrypto (EndpointBinding_from_bytes (tk_endpoint_binding t));
  map_err AuCrypto (EndpointBinding_verify endpoint verified_member expected_network expected_endpoint now_ms);;
  envelope ← map_err AuConfig (Envelope_from_bytes (tk_embedded_config t));
  fail_if (negb (bool_decide (env_network_id envelope = expected_network))
           || negb (env_epoch envelope =? head_epoch (tk_config_head t))
           || negb (env_revision envelope =? head_revision (tk_config_head t))
           || negb (bool_decide (envelope_hash envelope = head_hash (tk_config_head t)))) InvalidJoinTicket.
End ticket.

(** ** Wire format *)
Definition blob_wf (bs : bytes) : Prop := 0 < len bs <= MAX_VALUE_LEN.
Record ticket_wf (t : JoinTicket) : Prop := {
  tw_network : NetworkId_wf (tk_network_id t);
  tw_nonce : length (tk_request_nonce t) = 32%nat;
  tw_expires : is_u64 (tk_expires_at_ms t) = true;
  tw_epoch : is_u64 (head_epoch (tk_config_head t)) = true;
  tw_revision : is_u64 (head_revision (tk_config_head t)) = true;
  tw_hash : length (head_hash (tk_config_head t)) = 32%nat;
  tw_admin : blob_wf (tk_admin_certificate t);
  tw_member : blob_wf (tk_member_certificate t);
  tw_endpoint : blob_wf (tk_endpoint_binding t);
  tw_config : blob_wf (tk_embedded_config t);
  tw_signer : length (tk_signer_key_id t) = 16%nat;
  tw_signed : Ticket_encode_signed t = Ok (tk_signed_bytes t);
  tw_signature : length (tk_signature t) = SIGNATURE_LEN;
}.

Section wire.
Lemma push_ticket_blob_Ok bs : blob_wf bs -> push_ticket_blob bs = Ok (to_be 4 (len bs) ++ bs).
Proof.
  unfold blob_wf, MAX_VALUE_LEN; intros Hb; unfold push_ticket_blob; apply bind_Ok; exists tt; split; [|done].
  apply fail_if_Ok; unfold in_range; passes.
Qed.

Lemma steps_ticket_blob bs s : blob_wf bs -> steps d_ticket_blob ((to_be 4 (len bs) ++ bs) ++ s) bs s.
Proof.
  unfold blob_wf; intros Hb.
  assert (is_u32 (len bs) = true) by (unfold MAX_VALUE_LEN in *; unfold in_range; passes).
  assert (fail_if ((len bs =? 0) || (MAX_VALUE_LEN <? len bs)) InvalidJoinTicket = Ok tt) by (apply fail_if_Ok; passes).
  unfold d_ticket_blob; parse.
Qed.

#[local] Instance reads_ticket_blob : Reads d_ticket_blob (fun bs x => blob_wf bs /\ x = to_be 4 (len bs) ++ bs).
Proof.
  intros d s bs d' Hs Hb; unfold d_ticket_blob in Hb; unparse; res_inv; bool_inv.
  match goal with Hl : 0 <= ?n -> len bs = ?n, Hr : is_u32 ?n = true |- _ =>
    assert (len bs = n) as <- by (apply Hl; unfold in_range in Hr; bool_inv; lia) end.
  rewrite ?app_assoc; eexists _, _; split_and!; [reflexivity | done | | done]; unfold blob_wf, len in *; lia.
Qed.

Definition ticket_bytes (t : JoinTicket) : bytes :=
  JOIN_TICKET_MAGIC ++ NetworkId_as_bytes (tk_network_id t) ++ tk_request_nonce t
  ++ to_be 8 (tk_expires_at_ms t) ++ to_be 8 (head_epoch (tk_config_head t))
  ++ to_be 8 (head_revision (tk_config_head t)) ++ head_hash (tk_config_head t)
  ++ (to_be 4 (len (tk_admin_certificate t)) ++ tk_admin_certificate t)
  ++ (to_be 4 (len (tk_member_certificate t)) ++ tk_member_certificate t)
  ++ (to_be 4 (len (tk_endpoint_binding t)) ++ tk_endpoint_binding t)
  ++ (to_be 4 (len (tk_embedded_config t)) ++ tk_embedded_config t) ++ tk_signer_key_id t.

Lemma Ticket_encode_Ok t :
  blob_wf (tk_admin_certificate t) -> blob_wf (tk_member_certificate t) -> blob_wf (tk_endpoint_binding t) ->
  blob_wf (tk_embedded_config t) -> Ticket_encode_signed t = Ok (ticket_bytes t).
Proof. intros; unfold Ticket_encode_signed; by rewrite !push_ticket_blob_Ok. Qed.

Lemma steps_ticket t :
  ticket_wf t -> steps (d_ticket (tk_signed_bytes t) (tk_signature t)) (ticket_bytes t ++ []) t [].
Proof.
  intros []; destruct t as [[net] nonce ex [ep rev hash] ac mc eb ec sk sb sg]; unfold NetworkId_wf in *; cbn in *.
  unfold d_ticket, ticket_bytes; cbn.
  pose proof (fun s => steps_ticket_blob ac s tw_admin0); pose proof (fun s => steps_ticket_blob mc s tw_member0).
  pose proof (fun s => steps_ticket_blob eb s tw_endpoint0); pose proof (fun s => steps_ticket_blob ec s tw_config0).
  set (xa := to_be 4 (len ac) ++ ac) in *; set (xm := to_be 4 (len mc) ++ mc) in *.
  set (xe := to_be 4 (len eb) ++ eb) in *; set (xc := to_be 4 (len ec) ++ ec) in *; clearbody xa xm xe xc.
  rewrite <- ?app_assoc; parse.
Qed.

Lemma Ticket_from_bytes_exact bs t : Ticket_from_bytes bs = Ok t <-> ticket_wf t /\ bs = Ticket_to_bytes t.
Proof.
  unfold Ticket_from_bytes, Ticket_to_bytes; split.
  - intros Hb; apply bind_Ok in Hb as (u & Hl%fail_if_Ok & Hb); cbv zeta in Hb; apply Nat.ltb_ge in Hl.
    set (sb := take _ _) in *; assert (length (drop (length bs - SIGNATURE_LEN) bs) = SIGNATURE_LEN) as Hsg
      by (rewrite length_drop; lia).
    assert (bs = sb ++ drop (length bs - SIGNATURE_LEN) bs) as Hbs by (unfold sb; by rewrite take_drop).
    set (sg := drop _ _) in *; clearbody sb sg; subst bs; unfold d_ticket in Hb; unparse.
    split; [constructor; cbn; try done | done].
    rewrite Ticket_encode_Ok by done; unfold ticket_bytes; cbn; by rewrite ?app_nil_r.
  - intros [Hw ->]; rewrite length_app, (tw_signature _ Hw).
    rewrite (proj2 (Nat.ltb_ge _ _)) by lia; cbn [fail_if mbind result_bind]; cbv zeta.
    replace (_ + _ - SIGNATURE_LEN)%nat with (length (tk_signed_bytes t)) by lia.
    rewrite take_app_length, drop_app_length; eapply run_steps.
    pose proof (tw_signed _ Hw) as Hs; rewrite Ticket_encode_Ok in Hs by apply Hw; apply Ok_inj in Hs.
    rewrite <- Hs at 2; by apply steps_ticket.
Qed.
End wire.
