(* ===== verification/Authority.v ===== *)
(** * weaver-relay-core: the authority

    Models the [Authority] of [crates/weaver-relay-core/src/lib.rs]: the
    persistent owner of a network's configuration chain.  Every operation
    prepares the next snapshot from the current one and commits it with
    [commit_config], which seals it as the next envelope of the chain and
    replaces envelope and head in one compare-and-swap batch.

    The stores are any [StateStore] and [SecretStore]; the file system, endpoint
    keys and relay URLs are the interface [Platform]. *)

From S2P Require Import Prelude Platform Wire Core Store CertificateWire Certificates Symmetric ToyCrypto Snapshot Validate.
From S2P Require Import Envelope EnvelopeChain ConfigState JoinTicket.

(* weaver-relay-core/src/lib.rs:38-38 MANIFEST_MAGIC *)
Definition MANIFEST_MAGIC : bytes := bstr "WVRATH" ++ [Byte.x00; Byte.x01].
(* weaver-relay-core/src/lib.rs:39-39 MANIFEST_FIXED_LEN *)
Definition MANIFEST_FIXED_LEN : nat := 8 + 32 + 32 + 32 + 2.
(* weaver-relay-core/src/lib.rs:40-40 KEY_ENVELOPE *)
Definition KEY_ENVELOPE : bytes := bstr "authority/config/envelope/v1".
(* weaver-relay-core/src/lib.rs:41-41 KEY_HEAD *)
Definition KEY_HEAD : bytes := bstr "authority/config/head/v1".
(* weaver-relay-core/src/lib.rs:42-42 KEY_HISTORY_PREFIX *)
Definition KEY_HISTORY_PREFIX : bytes := bstr "authority/config/history/v1/".
(* weaver-relay-core/src/lib.rs:43-43 HEAD_LEN *)
Definition HEAD_LEN : nat := 8 + 8 + 32.

(* weaver-relay-core/src/lib.rs:71-76 AuthorityStatus *)
Record AuthorityStatus : Type := mkAuthorityStatus {
  as_network_id : NetworkId;
  as_root_public_key : bytes;
  as_head : ConfigHead;
  as_relay_url : bytes;
}.
(* weaver-relay-core/src/lib.rs:94-97 RegisteredApp *)
Record RegisteredApp : Type := mkRegisteredApp { ra_registration : bytes; ra_status : AuthorityStatus }.
(* weaver-relay-core/src/lib.rs:1015-1020 Manifest *)
Record Manifest : Type := mkManifest {
  mf_network_id : NetworkId;
  mf_root_public_key : bytes;
  mf_genesis_hash : bytes;
  mf_admin_certificate : bytes;
}.
(** [data_dir] is only carried along. *)
(* weaver-relay-core/src/lib.rs:257-271 Authority *)
Record Authority (S K : Type) : Type := mkAuthority {
  au_state : S;
  au_secrets : K;
  au_root_public : NetworkRootPublic;
  au_online_admin : OnlineAdminKey;
  au_verified_admin : VerifiedAdmin;
  au_admin_certificate : bytes;
  au_member_encryption : MemberEncryptionKeypair;
  au_endpoint_secret : bytes;
  au_config : ValidatedNetworkConfig;
  au_envelope_record_version : Z;
  au_head_record_version : Z;
  au_status : AuthorityStatus;
}.
Arguments mkAuthority {S K}.
Arguments au_state {S K}.
Arguments au_secrets {S K}.
Arguments au_root_public {S K}.
Arguments au_online_admin {S K}.
Arguments au_verified_admin {S K}.
Arguments au_admin_certificate {S K}.
Arguments au_member_encryption {S K}.
Arguments au_endpoint_secret {S K}.
Arguments au_config {S K}.
Arguments au_envelope_record_version {S K}.
Arguments au_head_record_version {S K}.
Arguments au_status {S K}.

(** ** Helpers *)
#[local] Abbreviation store_err := (map_err AuStore).
#[local] Abbreviation crypto_err := (map_err AuCrypto).
#[local] Abbreviation config_err := (map_err AuConfig).
#[local] Abbreviation snapshot_err := (map_err AuSnapshot).

(* weaver-relay-core/src/lib.rs:1407-1412 history_key *)
Definition au_history_key (revision : Z) : result AuthorityError StoreKey :=
  store_err (StoreKey_new (KEY_HISTORY_PREFIX ++ to_be 8 revision)).
(** The same bytes as the member's [encode_head]. *)
(* weaver-relay-core/src/lib.rs:1399-1405 encode_head *)
Definition au_encode_head (head : ConfigHead) : bytes := encode_head head.
(* weaver-relay-core/src/lib.rs:1414-1433 decode_head *)
Definition au_decode_head (bs : bytes) : result AuthorityError ConfigHead :=
  fail_if (negb (Nat.eqb (length bs) HEAD_LEN)) CorruptState;;
  Ok (mkConfigHead (from_be (take 8 bs)) (from_be (take 8 (drop 8 bs))) (drop 16 bs)).
(** The bytes [write_manifest] writes. *)
(* weaver-relay-core/src/lib.rs:1343-1358 write_manifest *)
Definition manifest_bytes (m : Manifest) : result AuthorityError bytes :=
  fail_if (negb (is_u16 (len (mf_admin_certificate m)))) CorruptState;;
  Ok (MANIFEST_MAGIC ++ NetworkId_as_bytes (mf_network_id m) ++ mf_root_public_key m ++ mf_genesis_hash m
      ++ to_be 2 (len (mf_admin_certificate m)) ++ mf_admin_certificate m).
(** [contents] is what the file system answered, [None] for an error. *)
(* weaver-relay-core/src/lib.rs:1370-1397 read_manifest *)
Definition read_manifest (contents : option bytes) : result AuthorityError Manifest :=
  bs ← contents ?? CorruptState;
  fail_if (Nat.ltb (length bs) MANIFEST_FIXED_LEN || negb (bool_decide (take 8 bs = MANIFEST_MAGIC))) CorruptState;;
  let certificate_len := Z.to_nat (from_be (take 2 (drop 104 bs))) in
  fail_if (Nat.eqb certificate_len 0 || negb (Nat.eqb (length bs) (MANIFEST_FIXED_LEN + certificate_len))) CorruptState;;
  Ok (mkManifest (NetworkId_from_bytes (take 32 (drop 8 bs))) (take 32 (drop 40 bs)) (take 32 (drop 72 bs)) (drop 106 bs)).

(* weaver-relay-core/src/lib.rs:1201-1211 active_recipient_keys *)
Definition active_recipient_keys (config : NetworkConfigV1) : result AuthorityError (list bytes) :=
  try_map (fun raw => certificate ← crypto_err (MemberCertificate_from_bytes raw);
                      Ok (mc_encryption_public_key (payload certificate))) (cfg_members config).
(* weaver-relay-core/src/lib.rs:1213-1233 ensure_join_is_unique *)
Definition ensure_join_is_unique (config : NetworkConfigV1) (request : JoinRequestPayload) : result AuthorityError unit :=
  for_each (fun raw =>
    member ← crypto_err (MemberCertificate_from_bytes raw);
    fail_if (bool_decide (mc_member_id (payload member) = jr_member_id request)
             || bool_decide (mc_signing_public_key (payload member) = jr_signing_public_key request)
             || bool_decide (mc_encryption_public_key (payload member) = jr_encryption_public_key request))
      InvalidJoinRequest) (cfg_members config);;
  for_each (fun raw =>
    endpoint ← crypto_err (EndpointBinding_from_bytes raw);
    fail_if (bool_decide (eb_endpoint_id (payload endpoint) = jr_endpoint_id request)) InvalidJoinRequest)
    (cfg_endpoint_bindings config).
(** [config.field = value] on a snapshot. *)
Definition with_revision (c : NetworkConfigV1) (epoch revision : Z) (previous_hash : bytes) (issued_at_ms : Z)
    (secrets : EpochSecrets) : NetworkConfigV1 := {|
  cfg_network_id := cfg_network_id c; cfg_epoch := epoch; cfg_revision := revision;
  cfg_previous_hash := previous_hash; cfg_issued_at_ms := issued_at_ms; cfg_expires_at_ms := cfg_expires_at_ms c;
  cfg_admin_keys := cfg_admin_keys c; cfg_members := cfg_members c;
  cfg_endpoint_bindings := cfg_endpoint_bindings c; cfg_revoked_serials := cfg_revoked_serials c;
  cfg_apps := cfg_apps c; cfg_app_bindings := cfg_app_bindings c; cfg_virtual_dns := cfg_virtual_dns c;
  cfg_relays := cfg_relays c; cfg_presence_services := cfg_presence_services c;
  cfg_epoch_secrets := secrets; cfg_policies := cfg_policies c |}.
Definition with_members (c : NetworkConfigV1) (members endpoint_bindings app_bindings : list bytes)
    (revoked : list Z) : NetworkConfigV1 := {|
  cfg_network_id := cfg_network_id c; cfg_epoch := cfg_epoch c; cfg_revision := cfg_revision c;
  cfg_previous_hash := cfg_previous_hash c; cfg_issued_at_ms := cfg_issued_at_ms c;
  cfg_expires_at_ms := cfg_expires_at_ms c; cfg_admin_keys := cfg_admin_keys c; cfg_members := members;
  cfg_endpoint_bindings := endpoint_bindings; cfg_revoked_serials := revoked;
  cfg_apps := cfg_apps c; cfg_app_bindings := app_bindings; cfg_virtual_dns := cfg_virtual_dns c;
  cfg_relays := cfg_relays c; cfg_presence_services := cfg_presence_services c;
  cfg_epoch_secrets := cfg_epoch_secrets c; cfg_policies := cfg_policies c |}.
Definition with_services (c : NetworkConfigV1) (apps : list bytes) (dns : list VirtualDnsRecord)
    (relays : list RelayDescriptor) (presence : list PresenceServiceDescriptor) : NetworkConfigV1 := {|
  cfg_network_id := cfg_network_id c; cfg_epoch := cfg_epoch c; cfg_revision := cfg_revision c;
  cfg_previous_hash := cfg_previous_hash c; cfg_issued_at_ms := cfg_issued_at_ms c;
  cfg_expires_at_ms := cfg_expires_at_ms c; cfg_admin_keys := cfg_admin_keys c; cfg_members := cfg_members c;
  cfg_endpoint_bindings := cfg_endpoint_bindings c; cfg_revoked_serials := cfg_revoked_serials c;
  cfg_apps := apps; cfg_app_bindings := cfg_app_bindings c; cfg_virtual_dns := dns;
  cfg_relays := relays; cfg_presence_services := presence;
  cfg_epoch_secrets := cfg_epoch_secrets c; cfg_policies := cfg_policies c |}.
(* weaver-relay-core/src/lib.rs:1235-1247 prepare_next_revision *)
Definition prepare_next_revision (config : NetworkConfigV1) (current : ConfigHead) (now_ms : Z)
    : result AuthorityError NetworkConfigV1 :=
  revision ← checked_add (cfg_revision config) 1 ?? InvalidOptions;
  Ok (with_revision config (cfg_epoch config) revision (head_hash current) now_ms (cfg_epoch_secrets config)).
(* weaver-config/src/snapshot.rs:87-92 EpochSecrets::generate *)
Definition EpochSecrets_generate : rnd SnapshotError EpochSecrets :=
  raw ← fill SnapRandomnessUnavailable 128;
  mret (EpochSecrets_from_bytes (take 32 raw) (take 32 (drop 32 raw)) (take 32 (drop 64 raw)) (drop 96 raw)).
(** The same with the epoch advanced and fresh epoch secrets. *)
(* weaver-relay-core/src/lib.rs:671-682 Authority::invite_member *)
Definition prepare_next_epoch (config : NetworkConfigV1) (current : ConfigHead) (now_ms : Z)
    : rnd AuthorityError NetworkConfigV1 :=
  epoch ← rlift (checked_add (cfg_epoch config) 1 ?? InvalidOptions);
  revision ← rlift (checked_add (cfg_revision config) 1 ?? InvalidOptions);
  secrets ← rmap_err AuSnapshot EpochSecrets_generate;
  mret (with_revision config epoch revision (head_hash current) now_ms secrets).
(* weaver-relay-core/src/lib.rs:1249-1262 next_serial *)
Definition next_serial (config : NetworkConfigV1) : result AuthorityError Z :=
  let maximum := fold_left Z.max (cfg_revoked_serials config) 0 in
  maximum ← try_fold (fun maximum k =>
    certificate ← crypto_err (AdminCertificate_from_bytes (ak_certificate k));
    Ok (Z.max maximum (adm_serial (payload certificate)))) maximum (cfg_admin_keys config);
  maximum ← try_fold (fun maximum raw =>
    certificate ← crypto_err (MemberCertificate_from_bytes raw);
    Ok (Z.max maximum (mc_serial (payload certificate)))) maximum (cfg_members config);
  checked_add maximum 1 ?? InvalidOptions.
Section authority.
Context `{Ed25519} `{Blake3} `{Aead} `{Hpke} `{Platform} {S K : Type} `{StateStore S} `{SecretStore K}.
#[local] Abbreviation authority := (Authority S K).
Implicit Types (a : authority) (now : Z) (ent : entropy).

(** Running a random computation for its result. *)
Definition rnd_result {E A} (p : rnd E A) ent : result E A := '(x, _) ← p ent; Ok x.

(** [self.field = value] *)
Definition with_state a (s : S) : authority :=
  mkAuthority s (au_secrets a) (au_root_public a) (au_online_admin a) (au_verified_admin a) (au_admin_certificate a)
    (au_member_encryption a) (au_endpoint_secret a) (au_config a) (au_envelope_record_version a)
    (au_head_record_version a) (au_status a).
(* weaver-relay-core/src/lib.rs:436-442 Authority::open *)
Definition first_relay_url (c : NetworkConfigV1) : bytes :=
  match cfg_relays c with relay :: _ => rd_url relay | [] => [] end.
Definition with_config a (s : S) (envelope_version head_version : Z) (config : ValidatedNetworkConfig)
    (head : ConfigHead) : authority :=
  mkAuthority s (au_secrets a) (au_root_public a) (au_online_admin a) (au_verified_admin a) (au_admin_certificate a)
    (au_member_encryption a) (au_endpoint_secret a) config envelope_version head_version
    (mkAuthorityStatus (as_network_id (au_status a)) (as_root_public_key (au_status a)) head
       (first_relay_url (vc_inner config))).

(** ** Committing the next revision *)
(** The next envelope of the chain and the configuration it opens to. *)
(* weaver-relay-core/src/lib.rs:551-567 Authority::commit_config *)
Definition seal_revision a (next_config : NetworkConfigV1) now ent
    : result AuthorityError (EncryptedConfigEnvelope * OpenedNetworkConfig) :=
  recipients ← active_recipient_keys next_config;
  envelope ← config_err (rnd_result (seal_next_config (au_root_public a) (au_online_admin a) (au_config a)
               (as_head (au_status a)) next_config recipients now) ent);
  opened ← config_err (open_next_config envelope (au_root_public a) (au_config a) (au_member_encryption a)
             (as_head (au_status a)) now);
  Ok (envelope, opened).
(** The batch that persists it. *)
(* weaver-relay-core/src/lib.rs:568-586 Authority::commit_config *)
Definition revision_batch a (envelope : EncryptedConfigEnvelope) (opened : OpenedNetworkConfig)
    : result AuthorityError AtomicBatch :=
  let scope := StoreScope_authority (as_network_id (au_status a)) in
  envelope_key ← store_err (StoreKey_new KEY_ENVELOPE);
  head_key ← store_err (StoreKey_new KEY_HEAD);
  batch ← store_err (AtomicBatch_put (AtomicBatch_new scope) envelope_key (Envelope_to_bytes envelope)
            (Exact (au_envelope_record_version a)));
  batch ← store_err (AtomicBatch_put batch head_key (au_encode_head (onc_head opened)) (Exact (au_head_record_version a)));
  key ← au_history_key (head_revision (onc_head opened));
  store_err (AtomicBatch_put batch key (Envelope_to_bytes envelope) Missing).
(* weaver-relay-core/src/lib.rs:551-586 Authority::commit_config *)
Definition prepare_commit a (next_config : NetworkConfigV1) now ent
    : result AuthorityError (EncryptedConfigEnvelope * OpenedNetworkConfig * AtomicBatch) :=
  '(envelope, opened) ← seal_revision a next_config now ent;
  batch ← revision_batch a envelope opened;
  Ok (envelope, opened, batch).
(* weaver-relay-core/src/lib.rs:588-602 Authority::commit_config *)
Definition read_commit_back (s : S) (scope : StoreScope) (envelope : bytes) (head : ConfigHead)
    : result AuthorityError (Z * Z) :=
  envelope_key ← store_err (StoreKey_new KEY_ENVELOPE);
  head_key ← store_err (StoreKey_new KEY_HEAD);
  envelope_record ← store_err (read s scope envelope_key); envelope_record ← envelope_record ?? CorruptState;
  head_record ← store_err (read s scope head_key); head_record ← head_record ?? CorruptState;
  fail_if (negb (bool_decide (vb_bytes envelope_record = envelope))) CorruptState;;
  stored ← au_decode_head (vb_bytes head_record);
  fail_if (negb (bool_decide (stored = head))) CorruptState;;
  Ok (vb_version envelope_record, vb_version head_record).
(* weaver-relay-core/src/lib.rs:546-615 Authority::commit_config *)
Definition commit_config a (next_config : NetworkConfigV1) now ent : authority * result AuthorityError AuthorityStatus :=
  match prepare_commit a next_config now ent with
  | Err e => (a, Err e)
  | Ok (envelope, opened, batch) =>
      match commit (au_state a) batch with
      | (s, Err e) => (with_state a s, Err (AuStore e))
      | (s, Ok _) =>
          match read_commit_back s (StoreScope_authority (as_network_id (au_status a))) (Envelope_to_bytes envelope)
                  (onc_head opened) with
          | Err e => (with_state a s, Err e)
          | Ok (envelope_version, head_version) =>
              let a' := with_config a s envelope_version head_version (onc_config opened) (onc_head opened) in
              (a', Ok (au_status a'))
          end
      end
  end.

(** Operations that prepare a snapshot without effect and then commit it. *)
Definition commit_prepared a (next : result AuthorityError NetworkConfigV1) now ent
    : authority * result AuthorityError AuthorityStatus :=
  match next with
  | Err e => (a, Err e)
  | Ok next => commit_config a next now ent
  end.
Definition commit_random a (next : rnd AuthorityError NetworkConfigV1) now ent
    : authority * result AuthorityError AuthorityStatus :=
  match next ent with
  | Err e => (a, Err e)
  | Ok (next, ent) => commit_config a next now ent
  end.

(** ** Members *)
(** The checks of an invitation and the certificate it issues. *)
(* weaver-relay-core/src/lib.rs:625-669 Authority::invite_member *)
Definition admit_member a (request : JoinRequest) (endpoint_binding : EndpointBinding) (granted_roles now valid_for_ms : Z)
    : result AuthorityError (JoinRequestPayload * Z * MemberCertificate) :=
  let network_id := as_network_id (au_status a) in
  request ← crypto_err (JoinRequest_verify request network_id now);
  let request := vjr_payload request in
  fail_if (negb (MemberRoles.contains (jr_requested_roles request) granted_roles) || (granted_roles =? 0)) InvalidOptions;;
  expires_at_ms ← checked_add now valid_for_ms ?? InvalidOptions;
  let expires_at_ms := Z.min (Z.min (Z.min expires_at_ms (jr_expires_at_ms request))
                                (adm_expires_at_ms (va_payload (au_verified_admin a))))
                         (cfg_expires_at_ms (vc_inner (au_config a))) in
  fail_if (expires_at_ms <=? now) InvalidOptions;;
  let eb := payload endpoint_binding in
  fail_if (negb (bool_decide (eb_network_id eb = network_id))
           || negb (bool_decide (eb_member_id eb = jr_member_id request))
           || negb (bool_decide (eb_endpoint_id eb = jr_endpoint_id request))
           || negb (eb_sequence eb =? 0) || (eb_expires_at_ms eb <? expires_at_ms)) InvalidJoinRequest;;
  ensure_join_is_unique (vc_inner (au_config a)) request;;
  serial ← next_serial (vc_inner (au_config a));
  member ← crypto_err (MemberCertificate_issue_by_admin (au_online_admin a) (va_payload (au_verified_admin a))
             (jr_signing_public_key request) (jr_encryption_public_key request) granted_roles serial now expires_at_ms);
  verified_member ← crypto_err (MemberCertificate_verify_with_admin member (au_verified_admin a) network_id now ∅);
  crypto_err (EndpointBinding_verify endpoint_binding verified_member network_id (jr_endpoint_id request) now);;
  Ok (request, expires_at_ms, member).
(* weaver-relay-core/src/lib.rs:617-706 Authority::invite_member *)
Definition invite_member a (request : JoinRequest) (endpoint_binding : EndpointBinding) (granted_roles now valid_for_ms : Z)
    ent : authority * result AuthorityError JoinTicket :=
  match admit_member a request endpoint_binding granted_roles now valid_for_ms with
  | Err e => (a, Err e)
  | Ok (request, expires_at_ms, member) =>
      let current := vc_inner (au_config a) in
      let next := with_members current (cfg_members current ++ [to_bytes member])
                    (cfg_endpoint_bindings current ++ [to_bytes endpoint_binding]) (cfg_app_bindings current)
                    (cfg_revoked_serials current) in
      match commit_random a (prepare_next_epoch next (as_head (au_status a)) now) now ent with
      | (a, Err e) => (a, Err e)
      | (a, Ok status) =>
          (a, key ← store_err (StoreKey_new KEY_ENVELOPE);
              record ← store_err (read (au_state a) (StoreScope_authority (as_network_id (au_status a))) key);
              record ← record ?? CorruptState;
              Ticket_issue (au_online_admin a) (as_network_id (au_status a)) (jr_nonce request) expires_at_ms
                (as_head status) (au_admin_certificate a) (to_bytes member) (to_bytes endpoint_binding) (vb_bytes record))
      end
  end.
(** [members.iter().position(..)] *)
Fixpoint member_position (member_id : MemberId) (members : list bytes) : option nat :=
  match members with
  | [] => None
  | raw :: members =>
      if match MemberCertificate_from_bytes raw with
         | Ok member => bool_decide (mc_member_id (payload member) = member_id)
         | Err _ => false
         end
      then Some O else Datatypes.S <$> member_position member_id members
  end.
(** [Vec::remove] *)
Definition remove_at {A} (i : nat) (xs : list A) : list A := take i xs ++ drop (Datatypes.S i) xs.
(* weaver-relay-core/src/lib.rs:713-755 Authority::revoke_member *)
Definition without_member a (member_id : MemberId) : result AuthorityError NetworkConfigV1 :=
  let current := vc_inner (au_config a) in
  position ← member_position member_id (cfg_members current) ?? MemberNotFound;
  removed ← crypto_err (MemberCertificate_from_bytes (nth position (cfg_members current) []));
  fail_if (bool_decide (mc_encryption_public_key (payload removed) = ek_public (au_member_encryption a)))
    CannotRevokeAuthorityMember;;
  let endpoint_bindings := retain_parsed EndpointBinding_from_bytes
    (fun b => negb (bool_decide (eb_member_id (payload b) = member_id))) (cfg_endpoint_bindings current) in
  let app_bindings := retain_parsed AppBinding_from_bytes
    (fun b => negb (bool_decide (ab_subject (payload b) = member_id))) (cfg_app_bindings current) in
  let revoked_endpoints : gset bytes := list_to_set (omap (fun raw =>
    match EndpointBinding_from_bytes raw with
    | Ok b => if bool_decide (eb_member_id (payload b) = member_id) then Some (eb_endpoint_id (payload b)) else None
    | Err _ => None
    end) (cfg_endpoint_bindings current)) in
  let relays := List.filter (fun r => negb (bool_decide (rd_endpoint_id r ∈ revoked_endpoints))) (cfg_relays current) in
  let presence := List.filter (fun s => negb (bool_decide (ps_endpoint_id s ∈ revoked_endpoints)))
                    (cfg_presence_services current) in
  fail_if (bool_decide (mc_serial (payload removed) ∈ cfg_revoked_serials current)) MemberNotFound;;
  let revoked := merge_sort Z.le (cfg_revoked_serials current ++ [mc_serial (payload removed)]) in
  Ok (with_services (with_members current (remove_at position (cfg_members current)) endpoint_bindings app_bindings revoked)
        (cfg_apps current) (cfg_virtual_dns current) relays presence).
(* weaver-relay-core/src/lib.rs:708-768 Authority::revoke_member *)
Definition revoke_member a (member_id : MemberId) now ent : authority * result AuthorityError AuthorityStatus :=
  commit_random a (next ← rlift (without_member a member_id); prepare_next_epoch next (as_head (au_status a)) now) now ent.

(** ** Applications and names *)
(* weaver-relay-core/src/lib.rs:770-801 Authority::register_app *)
Definition register_app a (request : AppRegistrationRequest) now ent : authority * result AuthorityError RegisteredApp :=
  let current := vc_inner (au_config a) in
  let prepared :=
    request ← crypto_err (AppRegistrationRequest_verify request (as_network_id (au_status a)));
    fail_if (any_parsed AppRegistration_from_bytes
               (fun app => bool_decide (ar_app_addr (payload app) = rq_app_addr (vrq_payload request)))
               (cfg_apps current)) ApplicationAlreadyRegistered;;
    registration ← crypto_err (AppRegistration_issue_by_admin (au_online_admin a) (va_payload (au_verified_admin a)) request);
    next ← prepare_next_revision (with_services current (cfg_apps current ++ [to_bytes registration])
             (cfg_virtual_dns current) (cfg_relays current) (cfg_presence_services current)) (as_head (au_status a)) now;
    Ok (registration, next) in
  match prepared with
  | Err e => (a, Err e)
  | Ok (registration, next) =>
      match commit_config a next now ent with
      | (a, Err e) => (a, Err e)
      | (a, Ok status) => (a, Ok (mkRegisteredApp (to_bytes registration) status))
      end
  end.
(* weaver-relay-core/src/lib.rs:803-817 Authority::authorize_app_binding *)
Definition authorize_app_binding a (binding : AppBinding) now ent : authority * result AuthorityError AuthorityStatus :=
  let current := vc_inner (au_config a) in
  commit_prepared a (prepare_next_revision
    (with_members current (cfg_members current) (cfg_endpoint_bindings current)
       (cfg_app_bindings current ++ [to_bytes binding]) (cfg_revoked_serials current)) (as_head (au_status a)) now) now ent.
Definition dns_le (x y : VirtualDnsRecord) : Prop :=
  bytes_le (VirtualName_as_str (dns_name x)) (VirtualName_as_str (dns_name y)).
#[local] Instance dns_le_dec : RelDecision dns_le.
Proof. intros x y; unfold dns_le; apply _. Defined.
(* weaver-relay-core/src/lib.rs:823-854 Authority::set_virtual_dns *)
Definition set_virtual_dns a (name : VirtualName) (app_addr : AppAddr) (expires_at_ms now : Z) ent
    : authority * result AuthorityError AuthorityStatus :=
  let config := vc_inner (au_config a) in
  commit_prepared a (
    fail_if (negb (any_parsed AppRegistration_from_bytes
                     (fun app => bool_decide (ar_app_addr (payload app) = app_addr)) (cfg_apps config))) ApplicationNotFound;;
    fail_if ((expires_at_ms <=? now) || (cfg_expires_at_ms config <? expires_at_ms)) InvalidOptions;;
    let records := merge_sort dns_le (List.filter (fun r => negb (bool_decide (dns_name r = name))) (cfg_virtual_dns config)
                                      ++ [mkVirtualDnsRecord name app_addr expires_at_ms]) in
    prepare_next_revision (with_services config (cfg_apps config) records (cfg_relays config)
                             (cfg_presence_services config)) (as_head (au_status a)) now) now ent.
(* weaver-relay-core/src/lib.rs:856-869 Authority::remove_virtual_dns *)
Definition remove_virtual_dns a (name : VirtualName) now ent : authority * result AuthorityError AuthorityStatus :=
  let config := vc_inner (au_config a) in
  commit_prepared a (
    let records := List.filter (fun r => negb (bool_decide (dns_name r = name))) (cfg_virtual_dns config) in
    fail_if (Nat.eqb (length records) (length (cfg_virtual_dns config))) VirtualDnsRecordNotFound;;
    prepare_next_revision (with_services config (cfg_apps config) records (cfg_relays config)
                             (cfg_presence_services config)) (as_head (au_status a)) now) now ent.

(** ** Relays *)
Definition relay_le (x y : RelayDescriptor) : Prop := bytes_le (rd_endpoint_id x) (rd_endpoint_id y).
#[local] Instance relay_le_dec : RelDecision relay_le.
Proof. intros x y; unfold relay_le; apply _. Defined.
Definition service_le (x y : PresenceServiceDescriptor) : Prop := bytes_le (ps_endpoint_id x) (ps_endpoint_id y).
#[local] Instance service_le_dec : RelDecision service_le.
Proof. intros x y; unfold service_le; apply _. Defined.
Definition known_role_bits : Z :=
  RelayRoles.union (RelayRoles.union RelayRoles.DATA_RELAY RelayRoles.BOOTSTRAP) RelayRoles.PRESENCE.
(** [roles & !known] on [u32]. *)
Definition unknown_roles (roles : Z) : Z := Z.land roles (Z.lxor known_role_bits (2 ^ 32 - 1)).
(* weaver-relay-core/src/lib.rs:874-943 Authority::register_relay *)
Definition register_relay a (endpoint_id url : bytes) (roles expires_at_ms now : Z) ent
    : authority * result AuthorityError AuthorityStatus :=
  let config := vc_inner (au_config a) in
  commit_prepared a (
    fail_if ((roles =? 0) || negb (unknown_roles roles =? 0) || (expires_at_ms <=? now)
             || (cfg_expires_at_ms config <? expires_at_ms) || negb (relay_url_valid url)) InvalidOptions;;
    binding ← find_parsed EndpointBinding_from_bytes
                (fun b => bool_decide (eb_endpoint_id (payload b) = endpoint_id)) (cfg_endpoint_bindings config)
                ?? MemberNotFound;
    member ← find_parsed MemberCertificate_from_bytes
               (fun m => bool_decide (mc_member_id (payload m) = eb_member_id (payload binding))) (cfg_members config)
               ?? MemberNotFound;
    fail_if (negb (MemberRoles.contains (mc_roles (payload member)) MemberRoles.RELAY)
             || (RelayRoles.contains roles RelayRoles.BOOTSTRAP
                 && negb (MemberRoles.contains (mc_roles (payload member)) MemberRoles.BOOTSTRAP))
             || (mc_expires_at_ms (payload member) <? expires_at_ms)
             || (eb_expires_at_ms (payload binding) <? expires_at_ms)) InvalidOptions;;
    let relays := List.filter (fun r => negb (bool_decide (rd_endpoint_id r = endpoint_id))) (cfg_relays config) in
    let presence := List.filter (fun s => negb (bool_decide (ps_endpoint_id s = endpoint_id)))
                      (cfg_presence_services config) in
    let relays := relays ++ [mkRelayDescriptor endpoint_id url roles expires_at_ms] in
    let presence := if RelayRoles.contains roles RelayRoles.PRESENCE
                    then presence ++ [mkPresenceServiceDescriptor endpoint_id url expires_at_ms] else presence in
    prepare_next_revision (with_services config (cfg_apps config) (cfg_virtual_dns config)
                             (merge_sort relay_le relays) (merge_sort service_le presence)) (as_head (au_status a)) now)
    now ent.
(* weaver-relay-core/src/lib.rs:945-962 Authority::remove_relay *)
Definition remove_relay a (endpoint_id : bytes) now ent : authority * result AuthorityError AuthorityStatus :=
  let config := vc_inner (au_config a) in
  commit_prepared a (
    let relays := List.filter (fun r => negb (bool_decide (rd_endpoint_id r = endpoint_id))) (cfg_relays config) in
    let presence := List.filter (fun s => negb (bool_decide (ps_endpoint_id s = endpoint_id)))
                      (cfg_presence_services config) in
    fail_if (Nat.eqb (length relays) (length (cfg_relays config))) RelayNotFound;;
    prepare_next_revision (with_services config (cfg_apps config) (cfg_virtual_dns config) relays presence)
      (as_head (au_status a)) now) now ent.

(** ** Queries *)
(* weaver-relay-core/src/lib.rs:486-497 Authority::allowed_member_endpoints *)
Definition allowed_member_endpoints a : result AuthorityError (gset bytes) :=
  ids ← try_map (fun raw =>
    binding ← crypto_err (EndpointBinding_from_bytes raw);
    fail_if (negb (endpoint_id_valid (eb_endpoint_id (payload binding)))) CorruptState;;
    Ok (eb_endpoint_id (payload binding))) (cfg_endpoint_bindings (vc_inner (au_config a)));
  Ok (list_to_set ids).
(* weaver-relay-core/src/lib.rs:526-533 Authority::config_updates_after *)
Fixpoint au_read_history (s : S) (scope : StoreScope) (revision : Z) (count : nat) : result AuthorityError (list bytes) :=
  match count with
  | O => Ok []
  | Datatypes.S count =>
      key ← au_history_key revision;
      record ← store_err (read s scope key);
      record ← record ?? AuHistoryUnavailable;
      rest ← au_read_history s scope (revision + 1) count;
      Ok (vb_bytes record :: rest)
  end.
(* weaver-relay-core/src/lib.rs:503-539 Authority::config_updates_after *)
Definition config_updates_after a (base_head : ConfigHead) : result AuthorityError ConfigUpdateBatch :=
  let head := as_head (au_status a) in
  fail_if ((head_revision head <? head_revision base_head) || (head_epoch head <? head_epoch base_head))
    UnknownConfigHead;;
  let scope := StoreScope_authority (as_network_id (au_status a)) in
  key ← au_history_key (head_revision base_head);
  base ← store_err (read (au_state a) scope key);
  base ← base ?? UnknownConfigHead;
  base_envelope ← config_err (Envelope_from_bytes (vb_bytes base));
  fail_if (negb (env_epoch base_envelope =? head_epoch base_head)
           || negb (env_revision base_envelope =? head_revision base_head)
           || negb (bool_decide (envelope_hash base_envelope = head_hash base_head))) UnknownConfigHead;;
  let first := wrapping_incr (head_revision base_head) in
  envelopes ← au_read_history (au_state a) scope first (Z.to_nat (head_revision head + 1 - first));
  config_err (Batch_new (as_network_id (au_status a)) base_head envelopes).

(** ** Opening *)
(* weaver-relay-core/src/lib.rs:1194-1199 secret_id *)
Definition secret_id (network_id : NetworkId) (label : bytes) : SecretId :=
  SecretId_from_bytes (derive_key (bstr "weaver.authority.secret-id.v1") (NetworkId_as_bytes network_id ++ label)).
(** [secrets.open(..).await?] followed by the conversion to 32 bytes. *)
Definition open_secret_32 (k : K) (id : SecretId) : result AuthorityError bytes :=
  secret ← map_err AuSecret (open_secret k id);
  fail_if (negb (Nat.eqb (length secret) 32)) CorruptState;; Ok secret.
(* weaver-relay-core/src/lib.rs:393-412 Authority::open *)
Definition authority_role_valid (config : NetworkConfigV1) (authority_endpoint : bytes) : bool :=
  match find_parsed EndpointBinding_from_bytes
          (fun b => bool_decide (eb_endpoint_id (payload b) = authority_endpoint)) (cfg_endpoint_bindings config) with
  | None => false
  | Some b => any_parsed MemberCertificate_from_bytes
                (fun m => bool_decide (mc_member_id (payload m) = eb_member_id (payload b))
                          && MemberRoles.contains (mc_roles (payload m)) MemberRoles.AUTHORITY) (cfg_members config)
  end.
(** Everything [open] checks before it touches the history. *)
(* weaver-relay-core/src/lib.rs:318-412 Authority::open *)
Definition load_authority (s : S) (k : K) (manifest_file : option bytes) now
    : result AuthorityError (Manifest * NetworkRootPublic * MemberEncryptionKeypair * bytes * OnlineAdminKey *
                             VerifiedAdmin * VersionedBytes * VersionedBytes * OpenedNetworkConfig) :=
  manifest ← read_manifest manifest_file;
  root_public ← crypto_err (NetworkRootPublic_from_bytes (mf_root_public_key manifest));
  let network_id := mf_network_id manifest in
  fail_if (negb (bool_decide (root_network_id root_public = network_id))) CorruptState;;
  encryption_bytes ← open_secret_32 k (secret_id network_id (bstr "member-encryption"));
  encryption ← config_err (Keypair_from_secret_bytes encryption_bytes);
  endpoint_secret ← open_secret_32 k (secret_id network_id (bstr "endpoint"));
  admin_bytes ← open_secret_32 k (secret_id network_id (bstr "online-admin"));
  let online_admin := OnlineAdminKey_from_bytes admin_bytes in
  let scope := StoreScope_authority network_id in
  envelope_key ← store_err (StoreKey_new KEY_ENVELOPE);
  envelope_record ← store_err (read s scope envelope_key); envelope_record ← envelope_record ?? CorruptState;
  envelope ← config_err (Envelope_from_bytes (vb_bytes envelope_record));
  head_key ← store_err (StoreKey_new KEY_HEAD);
  stored_head ← store_err (read s scope head_key); stored_head ← stored_head ?? CorruptState;
  stored_head_value ← au_decode_head (vb_bytes stored_head);
  fail_if (negb (bool_decide (envelope_hash envelope = head_hash stored_head_value))) CorruptState;;
  admin_certificate ← crypto_err (AdminCertificate_from_bytes (mf_admin_certificate manifest));
  manifest_admin ← crypto_err (AdminCertificate_verify admin_certificate root_public network_id now ∅);
  fail_if (negb (bool_decide (adm_public_key (va_payload manifest_admin) = OnlineAdminKey_public_bytes online_admin)))
    CorruptState;;
  opened ← (if env_revision envelope =? 0 then
              fail_if (negb (bool_decide (envelope_hash envelope = mf_genesis_hash manifest))) CorruptState;;
              config_err (open_config envelope root_public network_id encryption Genesis now)
            else
              config_err (open_config_with_verified_admin envelope root_public manifest_admin encryption
                            (Checkpoint stored_head_value) now));
  fail_if (negb (bool_decide (stored_head_value = onc_head opened))) CorruptState;;
  fail_if (negb (authority_role_valid (vc_inner (onc_config opened)) (endpoint_public endpoint_secret))) CorruptState;;
  Ok (manifest, root_public, encryption, endpoint_secret, online_admin, manifest_admin, envelope_record, stored_head, opened).
(* weaver-relay-core/src/lib.rs:413-428 Authority::open *)
Definition migrate_history (s : S) (scope : StoreScope) (revision : Z) (envelope : bytes) : S * result AuthorityError unit :=
  match (key ← au_history_key revision; existing ← store_err (read s scope key); Ok (key, existing)) with
  | Err e => (s, Err e)
  | Ok (_, Some record) => (s, if bool_decide (vb_bytes record = envelope) then Ok tt else Err CorruptState)
  | Ok (key, None) =>
      match AtomicBatch_put (AtomicBatch_new scope) key envelope Missing with
      | Err e => (s, Err (AuStore e))
      | Ok batch => match commit s batch with
                    | (s, Ok _) => (s, Ok tt)
                    | (s, Err e) => (s, Err (AuStore e))
                    end
      end
  end.
(* weaver-relay-core/src/lib.rs:313-464 Authority::open *)
Definition Authority_open (s : S) (k : K) (manifest_file : option bytes) now : S * result AuthorityError authority :=
  match load_authority s k manifest_file now with
  | Err e => (s, Err e)
  | Ok (manifest, root_public, encryption, endpoint_secret, online_admin, manifest_admin, envelope_record, stored_head,
        opened) =>
      match migrate_history s (StoreScope_authority (mf_network_id manifest)) (head_revision (onc_head opened))
              (vb_bytes envelope_record) with
      | (s, Err e) => (s, Err e)
      | (s, Ok _) =>
          (s, verified ← snapshot_err (verified_admin (onc_config opened) root_public (OnlineAdminKey_key_id online_admin) now);
              fail_if (negb (bool_decide (adm_public_key (va_payload verified) = OnlineAdminKey_public_bytes online_admin)))
                CorruptState;;
              Ok (mkAuthority s k root_public online_admin manifest_admin (mf_admin_certificate manifest) encryption
                    endpoint_secret (onc_config opened) (vb_version envelope_record) (vb_version stored_head)
                    (mkAuthorityStatus (mf_network_id manifest) (mf_root_public_key manifest) (onc_head opened)
                       (first_relay_url (vc_inner (onc_config opened))))))
      end
  end.
End authority.
