(* ===== verification/AuthorityFacts.v ===== *)
(** * Properties of the authority

    For every store that keeps its contract: committing a configuration is all
    or nothing, the stored chain of envelopes only grows and never forks whatever
    requests arrive and whenever the store fails, and what the authority commits
    is what the members it lists apply. *)

From S2P Require Import Prelude Platform Wire Core Store CertificateWire Certificates Symmetric ToyCrypto Snapshot Validate.
From S2P Require Import Envelope EnvelopeChain ConfigState ConfigStateFacts JoinTicket Authority.

Section keys.
Definition au_envelope_key : StoreKey := mkStoreKey KEY_ENVELOPE.
Definition au_head_key : StoreKey := mkStoreKey KEY_HEAD.
Definition au_hist_key (revision : Z) : StoreKey := mkStoreKey (KEY_HISTORY_PREFIX ++ to_be 8 revision).

Lemma au_hist_key_wf revision : StoreKey_wf (au_hist_key revision).
Proof.
  unfold StoreKey_wf, au_hist_key, len; cbn [StoreKey_as_bytes]; rewrite length_app, length_to_be.
  change (length KEY_HISTORY_PREFIX) with 28%nat; unfold MAX_KEY_LEN; lia.
Qed.
Lemma au_history_key_Ok revision : au_history_key revision = Ok (au_hist_key revision).
Proof. unfold au_history_key; apply map_err_Ok, StoreKey_new_wf; split; [done | apply au_hist_key_wf]. Qed.
Lemma au_hist_key_inj r r' :
  is_u64 r = true -> is_u64 r' = true -> au_hist_key r = au_hist_key r' -> r = r'.
Proof.
  unfold au_hist_key, in_range; intros ? ? Heq%(f_equal StoreKey_as_bytes)%app_inv_head; bool_inv.
  apply (f_equal from_be) in Heq; rewrite !from_to_be, !Z.mod_small in Heq by lia; done.
Qed.
Lemma au_envelope_key_Ok : StoreKey_new KEY_ENVELOPE = Ok au_envelope_key.
Proof. reflexivity. Qed.
Lemma au_head_key_Ok : StoreKey_new KEY_HEAD = Ok au_head_key.
Proof. reflexivity. Qed.
Lemma au_fixed_keys_wf : StoreKey_wf au_envelope_key /\ StoreKey_wf au_head_key.
Proof. vm_compute; repeat split; intros; discriminate. Qed.

Lemma au_decode_head_Ok bs h :
  au_decode_head bs = Ok h <->
  bs = au_encode_head h /\ is_u64 (head_epoch h) = true /\ is_u64 (head_revision h) = true /\ length (head_hash h) = 32%nat.
Proof.
  rewrite <- decode_head_Ok; unfold au_decode_head, decode_head, HEAD_LEN; cbn [Nat.add].
  destruct (Nat.eqb (length bs) 48) eqn:Hl; cbn; [|by split].
  apply Nat.eqb_eq in Hl; rewrite (take_ge (drop 16 bs)) by (rewrite length_drop; lia); by split; intros [= <-].
Qed.
End keys.

Section commit.
Context `{Ed25519} `{Blake3} `{Aead} `{Hpke} `{Platform} {S K : Type} `{StateStore S} `{SecretStore K}.
#[local] Abbreviation authority := (Authority S K).
Implicit Types (a : authority) (now : Z) (ent : entropy) (m : records).

Definition au_scope a : StoreScope := StoreScope_authority (as_network_id (au_status a)).

(** The next envelope of an authority's chain, and what it opens to. *)
Record next_envelope a (next : NetworkConfigV1) now (e : EncryptedConfigEnvelope) (opened : OpenedNetworkConfig)
    : Prop := {
  ne_sealed : exists recipients ent ent', active_recipient_keys next = Ok recipients /\
    seal_next_config (au_root_public a) (au_online_admin a) (au_config a) (as_head (au_status a)) next recipients now ent
      = Ok (e, ent');
  ne_opened : open_next_config e (au_root_public a) (au_config a) (au_member_encryption a) (as_head (au_status a)) now
      = Ok opened;
  ne_size : len (Envelope_to_bytes e) <= MAX_VALUE_LEN;
}.

Definition commit_operations a (e : EncryptedConfigEnvelope) : list BatchOperation :=
  [Put au_envelope_key (Envelope_to_bytes e) (Exact (au_envelope_record_version a));
   Put au_head_key (encode_head (envelope_head e)) (Exact (au_head_record_version a));
   Put (au_hist_key (env_revision e)) (Envelope_to_bytes e) Missing].

Lemma seal_revision_Ok a next now ent e opened :
  seal_revision a next now ent = Ok (e, opened) -> len (Envelope_to_bytes e) <= MAX_VALUE_LEN ->
  next_envelope a next now e opened /\ onc_head opened = envelope_head e.
Proof.
  intros Hp Hl; apply bind_Ok in Hp as (recipients & Hr & Hp); apply bind_Ok in Hp as (e' & Hs%map_err_Ok & Hp).
  apply bind_Ok in Hs as ([e2 ent'] & Hs & <-%Ok_inj); apply bind_Ok in Hp as (o & Ho%map_err_Ok & [= <- <-]).
  split; [constructor; eauto 8 | exact (open_next_head _ _ _ _ _ _ _ Ho)].
Qed.
Lemma revision_batch_Ok a e opened batch :
  scope_wf (au_scope a) -> onc_head opened = envelope_head e -> revision_batch a e opened = Ok batch ->
  batch_wf batch /\ batch_scope batch = au_scope a /\ batch_operations batch = commit_operations a e /\
  len (Envelope_to_bytes e) <= MAX_VALUE_LEN.
Proof.
  intros Hsc Hh Hp; unfold revision_batch in Hp; destruct au_fixed_keys_wf as [Hk1 Hk2].
  rewrite au_envelope_key_Ok, au_head_key_Ok, au_history_key_Ok in Hp; cbn [map_err mbind result_bind] in Hp.
  apply bind_Ok in Hp as (b1 & Hb1%map_err_Ok & Hp); apply bind_Ok in Hp as (b2 & Hb2%map_err_Ok & Hb3%map_err_Ok).
  pose proof (AtomicBatch_put_value _ _ _ _ _ Hb1) as Hval.
  apply AtomicBatch_put_wf in Hb1 as (Hw1 & Hs1 & Ho1); [|by apply AtomicBatch_new_wf | done].
  apply AtomicBatch_put_wf in Hb2 as (Hw2 & Hs2 & Ho2); [|done..].
  apply AtomicBatch_put_wf in Hb3 as (Hw3 & Hs3 & Ho3); [|done | apply au_hist_key_wf].
  split_and!; try done; [by rewrite Hs3, Hs2, Hs1 | by rewrite Ho3, Ho2, Ho1, Hh].
Qed.

Lemma prepare_commit_Ok a next now ent e opened batch :
  scope_wf (au_scope a) -> prepare_commit a next now ent = Ok (e, opened, batch) ->
  next_envelope a next now e opened /\ onc_head opened = envelope_head e /\
  batch_wf batch /\ batch_scope batch = au_scope a /\ batch_operations batch = commit_operations a e.
Proof.
  intros Hsc Hp; apply bind_Ok in Hp as ([e' o] & Hs & Hp); apply bind_Ok in Hp as (b & Hb & [= <- <- <-]).
  assert (Hh : onc_head o = envelope_head e').
  { apply bind_Ok in Hs as (? & _ & Hs); apply bind_Ok in Hs as (? & _ & Hs).
    apply bind_Ok in Hs as (? & Ho%map_err_Ok & [= <- <-]); exact (open_next_head _ _ _ _ _ _ _ Ho). }
  apply revision_batch_Ok in Hb as (? & ? & ? & Hl); [|done..].
  destruct (seal_revision_Ok _ _ _ _ _ _ Hs Hl); by split_and!.
Qed.

(** The records a committed revision leaves behind. *)
Record commit_effect a m (e : EncryptedConfigEnvelope) (m' : records) : Prop := {
  ce_envelope : vb_bytes <$> m' !! (au_scope a, au_envelope_key) = Some (Envelope_to_bytes e);
  ce_head : vb_bytes <$> m' !! (au_scope a, au_head_key) = Some (encode_head (envelope_head e));
  ce_history : vb_bytes <$> m' !! (au_scope a, au_hist_key (env_revision e)) = Some (Envelope_to_bytes e);
  ce_fresh : m !! (au_scope a, au_hist_key (env_revision e)) = None;
  ce_outside : forall scope key, scope <> au_scope a \/
      (key <> au_envelope_key /\ key <> au_head_key /\ key <> au_hist_key (env_revision e)) ->
    m' !! (scope, key) = m !! (scope, key);
}.

Lemma commit_batch_effect a m batch m' e :
  batch_scope batch = au_scope a -> batch_operations batch = commit_operations a e ->
  preconditions m batch -> batch_effect m batch m' -> commit_effect a m e m'.
Proof.
  intros Hbs Hops Hpre [Hin Hout]; unfold preconditions in Hpre; rewrite Hops, Hbs in *.
  constructor.
  - apply (Hin (Put au_envelope_key (Envelope_to_bytes e) (Exact (au_envelope_record_version a)))); set_solver.
  - apply (Hin (Put au_head_key (encode_head (envelope_head e)) (Exact (au_head_record_version a)))); set_solver.
  - apply (Hin (Put (au_hist_key (env_revision e)) (Envelope_to_bytes e) Missing)); set_solver.
  - rewrite Forall_forall in Hpre; pose proof (Hpre (Put (au_hist_key (env_revision e)) (Envelope_to_bytes e) Missing)) as Hp.
    cbn in Hp; apply (fmap_None vb_version), (bool_decide_eq_true_1 _), Hp; set_solver.
  - intros scope key Hk; apply Hout; destruct Hk as [?|(? & ? & ?)]; [by left | right]; cbn; set_solver.
Qed.

Section laws.
Context `{Lstore : !StateStoreLaws S} `{Lblake : !Blake3Laws}.

(** Reading a commit back can only fail in the store. *)
Lemma read_commit_back_Ok s m m' a e r :
  store_rep s m' -> scope_wf (au_scope a) -> commit_effect a m e m' -> envelope_wf e ->
  read_commit_back s (au_scope a) (Envelope_to_bytes e) (envelope_head e) = r ->
  (exists x, r = Err (AuStore x)) \/
  exists ev hv, r = Ok (ev, hv) /\
    m' !! (au_scope a, au_envelope_key) = Some (mkVersionedBytes ev (Envelope_to_bytes e)) /\
    m' !! (au_scope a, au_head_key) = Some (mkVersionedBytes hv (encode_head (envelope_head e))).
Proof.
  intros Hrep Hsc [He Hh _ _ _] Hw <-; unfold read_commit_back.
  rewrite au_envelope_key_Ok, au_head_key_Ok; cbn [map_err mbind result_bind].
  apply fmap_Some in He as ([ev eb] & Hev & [= ->]); apply fmap_Some in Hh as ([hv hb] & Hhv & Hhb); cbn in Hhb; subst hb.
  destruct (read s _ au_envelope_key) as [oe|x] eqn:Hre; [|left; by eexists].
  rewrite (read_rep _ _ _ _ _ Hrep Hsc Hre), Hev; cbn.
  destruct (read s _ au_head_key) as [oh|x] eqn:Hrh; [|left; by eexists].
  rewrite (read_rep _ _ _ _ _ Hrep Hsc Hrh), Hhv; cbn; right.
  rewrite bool_decide_true by done; cbn [negb fail_if mbind result_bind].
  rewrite (proj2 (au_decode_head_Ok _ _)) by (split_and!; try done; cbn; [apply Hw.. | apply blake3_hash_len]).
  cbn [mbind result_bind]; rewrite bool_decide_true by done; cbn; eauto 10.
Qed.
End laws.

(** The type invariant of an open authority. *)
Record authority_typed a : Prop := {
  ty_network : NetworkId_wf (as_network_id (au_status a));
  ty_root : root_network_id (au_root_public a) = as_network_id (au_status a);
  ty_seed : length (admin_seed (au_online_admin a)) = 32%nat;
  ty_config : config_typed (vc_inner (au_config a));
  ty_hash : length (head_hash (as_head (au_status a))) = 32%nat;
}.

Section commit_laws.
Context `{Led : !Ed25519Laws} `{Lblake : !Blake3Laws} `{Laead : !AeadLaws} `{Lhpke : !HpkeLaws}.
Context `{Lexcl : !HpkeExclusive} `{Lstore : !StateStoreLaws S}.

(** What the next envelope says, given that its content is well typed. *)
Record extends a (next : NetworkConfigV1) now (e : EncryptedConfigEnvelope) : Prop := {
  ex_wf : envelope_wf e;
  ex_valid : config_valid next (au_root_public a) (as_network_id (au_status a)) now;
  ex_network : env_network_id e = as_network_id (au_status a);
  ex_epoch : env_epoch e = cfg_epoch next /\ head_epoch (as_head (au_status a)) <= env_epoch e;
  ex_revision : env_revision e = cfg_revision next /\ env_revision e = head_revision (as_head (au_status a)) + 1;
  ex_previous : env_previous_hash e = head_hash (as_head (au_status a));
}.

Lemma next_envelope_extends a next now e o :
  authority_typed a -> config_typed next -> next_envelope a next now e o ->
  extends a next now e /\ o = mkOpenedNetworkConfig (mkValidated next) (envelope_head e).
Proof.
  intros [] Ht [(recipients & ent & ent' & Hr & (va & plaintext & Hsu)%seal_next_config_Ok) Ho].
  destruct (sealed_update_opens_to _ _ _ _ _ _ _ _ _ _ _ _ _ Hsu Ht Ho) as (_ & _ & -> & Hv); split; [|done].
  destruct Hsu; destruct su_sealed, Ht; rewrite ty_root0 in *; destruct su_revision.
  constructor; try congruence; [| split; congruence || lia..].
  eapply (sealed_wf (as_network_id (au_status a)) _ _ (cfg_epoch next) (cfg_revision next)); try done.
  - apply derive_key_id_len.
  - intros msg; by apply ed_sign_len.
Qed.

Definition same_authority a a' : Prop := a' = with_state a (au_state a').

Lemma active_recipient_keys_error c e : active_recipient_keys c = Err e -> exists x, e = AuCrypto x.
Proof.
  unfold active_recipient_keys; induction (cfg_members c) as [|raw raws IH]; cbn; [done|].
  destruct (MemberCertificate_from_bytes raw); cbn; [|by intros [= <-]; eexists].
  destruct (try_map _ raws); cbn in *; [done|]; exact IH.
Qed.
Lemma prepare_commit_error a next now ent e : prepare_commit a next now ent = Err e -> e <> CorruptState.
Proof.
  intros Hp ->; apply bind_Err in Hp as [Hp | ([e o] & _ & Hp)].
  - apply bind_Err in Hp as [[? ?]%active_recipient_keys_error | (recipients & _ & Hp)]; [done|].
    repeat (apply bind_Err in Hp as [Hp | (? & _ & Hp)]; [by apply map_err_Err in Hp as (? & _ & ?)|]); done.
  - apply bind_Err in Hp as [Hp | (? & _ & Hp)]; [|done]; unfold revision_batch in Hp.
    rewrite au_envelope_key_Ok, au_head_key_Ok in Hp; cbn [map_err mbind result_bind] in Hp.
    repeat (apply bind_Err in Hp as [Hp | (? & _ & Hp)]; [by apply map_err_Err in Hp as (? & _ & ?)|]).
    by apply map_err_Err in Hp as (? & _ & ?).
Qed.

Lemma commit_cases a m next now ent a' r :
  store_rep (au_state a) m -> authority_typed a -> config_typed next -> commit_config a next now ent = (a', r) ->
  (same_authority a a' /\ store_rep (au_state a') m /\ exists e, r = Err e /\ e <> CorruptState) \/
  exists e m', next_envelope a next now e (mkOpenedNetworkConfig (mkValidated next) (envelope_head e)) /\
    commit_effect a m e m' /\ store_rep (au_state a') m' /\
    ((exists x, r = Err (AuStore x)) /\ same_authority a a' \/
     r = Ok (au_status a') /\ exists ev hv,
       a' = with_config a (au_state a') ev hv (mkValidated next) (envelope_head e) /\
       m' !! (au_scope a, au_envelope_key) = Some (mkVersionedBytes ev (Envelope_to_bytes e)) /\
       m' !! (au_scope a, au_head_key) = Some (mkVersionedBytes hv (encode_head (envelope_head e)))).
Proof.
  intros Hrep Hty Ht Hc; unfold commit_config in Hc; assert (Hsc : scope_wf (au_scope a)) by apply Hty.
  destruct (prepare_commit a next now ent) as [[[e o] batch]|x] eqn:Hp.
  2:{ injection Hc as <- <-; left; split_and!; [by destruct a | done|]; eexists; split; [done|].
      by eapply prepare_commit_error. }
  apply prepare_commit_Ok in Hp as (Hne & Hh & Hwf & Hbs & Hops); [|done].
  destruct (next_envelope_extends _ _ _ _ _ Hty Ht Hne) as [Hex ->]; cbn [onc_head onc_config] in Hc.
  assert (Heff : forall m', preconditions m batch -> batch_effect m batch m' -> commit_effect a m e m')
    by (intros m'; by apply commit_batch_effect).
  destruct (commit (au_state a) batch) as [s' [v|x]] eqn:Hco.
  - destruct (commit_success _ _ _ _ _ Hrep Hwf Hco) as (Hpre & m' & Hrep' & Hbe); right; exists e, m'.
    pose proof (Heff m' Hpre Hbe) as Hce; fold (au_scope a) in Hc.
    destruct (read_commit_back_Ok s' m m' a e _ Hrep' Hsc Hce (ex_wf _ _ _ _ Hex) eq_refl)
      as [[x Hr] | (ev & hv & Hr & ? & ?)]; rewrite Hr in Hc; injection Hc as <- <-; split_and!; try done;
      [left; split; [by eexists | done] | right; split; [done | eauto 10]].
  - injection Hc as <- <-; destruct (commit_failure _ _ _ _ _ Hrep Hwf Hco) as [Hm | (_ & Hpre & m' & Hrep' & Hbe)].
    + left; split_and!; [done.. | by eexists].
    + right; exists e, m'; split_and!; try done; [by apply Heff | left; split; [by eexists | done]].
Qed.
End commit_laws.

(** ** Requests *)

(** The operations that change the configuration, except the redemption of an invitation:
    [InvitationFacts.AnyRequest] adds that and the other operations on invitations. *)
Inductive Request : Type :=
| InviteMember (request : JoinRequest) (endpoint_binding : EndpointBinding) (granted_roles valid_for_ms : Z)
| RevokeMember (member_id : MemberId)
| RegisterApp (request : AppRegistrationRequest)
| AuthorizeAppBinding (binding : AppBinding)
| SetVirtualDns (name : VirtualName) (app_addr : AppAddr) (expires_at_ms : Z)
| RemoveVirtualDns (name : VirtualName)
| RegisterRelay (endpoint_id url : bytes) (roles expires_at_ms : Z)
| RemoveRelay (endpoint_id : bytes).

(** The ranges the Rust types of the arguments guarantee. *)
Definition request_typed (r : Request) : Prop :=
  match r with
  | SetVirtualDns name app_addr expires => VirtualName_wf name /\ AppAddr_wf app_addr /\ is_u64 expires = true
  | RegisterRelay endpoint_id _ roles expires =>
      length endpoint_id = 32%nat /\ is_u32 roles = true /\ is_u64 expires = true
  | _ => True
  end.

Definition handle a (r : Request) now ent : authority :=
  match r with
  | InviteMember request binding roles valid_for => (invite_member a request binding roles now valid_for ent).1
  | RevokeMember member_id => (revoke_member a member_id now ent).1
  | RegisterApp request => (register_app a request now ent).1
  | AuthorizeAppBinding binding => (authorize_app_binding a binding now ent).1
  | SetVirtualDns name app_addr expires => (set_virtual_dns a name app_addr expires now ent).1
  | RemoveVirtualDns name => (remove_virtual_dns a name now ent).1
  | RegisterRelay endpoint_id url roles expires => (register_relay a endpoint_id url roles expires now ent).1
  | RemoveRelay endpoint_id => (remove_relay a endpoint_id now ent).1
  end.
(** The same with the error the caller gets, if there is one. *)
Definition outcome {A} (x : authority * result AuthorityError A) : authority * option AuthorityError :=
  (x.1, match x.2 with Ok _ => None | Err e => Some e end).
Definition handle_outcome a (r : Request) now ent : authority * option AuthorityError :=
  match r with
  | InviteMember request binding roles valid_for => outcome (invite_member a request binding roles now valid_for ent)
  | RevokeMember member_id => outcome (revoke_member a member_id now ent)
  | RegisterApp request => outcome (register_app a request now ent)
  | AuthorizeAppBinding binding => outcome (authorize_app_binding a binding now ent)
  | SetVirtualDns name app_addr expires => outcome (set_virtual_dns a name app_addr expires now ent)
  | RemoveVirtualDns name => outcome (remove_virtual_dns a name now ent)
  | RegisterRelay endpoint_id url roles expires => outcome (register_relay a endpoint_id url roles expires now ent)
  | RemoveRelay endpoint_id => outcome (remove_relay a endpoint_id now ent)
  end.
Lemma handle_outcome_fst a r now ent : (handle_outcome a r now ent).1 = handle a r now ent.
Proof. by destruct r. Qed.

Lemma with_members_typed c members endpoints bindings revoked :
  config_typed c -> Forall (fun s => is_u64 s = true) revoked ->
  config_typed (with_members c members endpoints bindings revoked).
Proof. intros [] ?; by constructor. Qed.
Lemma with_services_typed c apps dns relays presence :
  config_typed c -> Forall dns_typed dns -> Forall relay_typed relays -> Forall service_typed presence ->
  config_typed (with_services c apps dns relays presence).
Proof. intros [] ? ? ?; by constructor. Qed.

Lemma checked_add_u64 x n : is_u64 x = true -> checked_add x 1 = Some n -> is_u64 n = true.
Proof.
  unfold checked_add; intros Hx Hn; destruct (x + 1 <=? U64_MAX) eqn:Hle; [|done]; injection Hn as <-.
  unfold U64_MAX, in_range in *; bool_inv; passes.
Qed.

Lemma prepare_next_revision_typed c head now next :
  config_typed c -> length (head_hash head) = 32%nat -> is_u64 now = true ->
  prepare_next_revision c head now = Ok next -> config_typed next.
Proof.
  intros [] Hh Hn Hp; apply bind_Ok in Hp as (rev & Hrev%ok_or_Ok & <-%Ok_inj); constructor; cbn; try done.
  by eapply checked_add_u64; [|exact Hrev].
Qed.

Lemma EpochSecrets_generate_typed ent secrets ent' : EpochSecrets_generate ent = Ok (secrets, ent') -> secrets_typed secrets.
Proof.
  unfold EpochSecrets_generate; intros Hg; rnd_inv Hg; injection Hg as <- <-; apply fill_Ok in Ha.
  unfold secrets_typed, expose_bytes; rewrite !Forall_cons; split_and!; try done; cbn [presence_index_seed presence_encryption_seed
    lan_discovery_seed relay_access_seed]; by rewrite ?length_take, ?length_drop, Ha.
Qed.
Lemma prepare_next_epoch_typed c head now ent next ent' :
  config_typed c -> length (head_hash head) = 32%nat -> is_u64 now = true ->
  prepare_next_epoch c head now ent = Ok (next, ent') -> config_typed next.
Proof.
  intros [] Hh Hn Hp; unfold prepare_next_epoch in Hp; do 3 rnd_inv Hp; injection Hp as <- <-.
  apply ok_or_Ok in Ha, Ha0; apply rmap_err_Ok, EpochSecrets_generate_typed in Ha1.
  constructor; cbn; try done; [by eapply checked_add_u64; [|exact Ha] | by eapply checked_add_u64; [|exact Ha0]].
Qed.

Lemma without_member_typed a member_id next :
  config_typed (vc_inner (au_config a)) -> without_member a member_id = Ok next -> config_typed next.
Proof.
  intros Hc Hw; unfold without_member in Hw.
  apply bind_Ok in Hw as (pos & _ & Hw); apply bind_Ok in Hw as (removed & Hm%map_err_Ok & Hw).
  apply MemberCertificate_from_bytes_exact in Hm as [[(_ & _ & _ & _ & _ & Hser & _) _] _].
  apply bind_Ok in Hw as (u & _ & Hw); apply bind_Ok in Hw as (u' & _ & <-%Ok_inj).
  apply with_services_typed; [apply with_members_typed; [done|] | apply Hc | apply Forall_retain, Hc..].
  rewrite merge_sort_Permutation; apply Forall_app; split; [apply Hc | by constructor].
Qed.

(** A request either leaves the authority alone or commits one well-typed
    configuration. *)
Definition commits a now a' : Prop :=
  a' = a \/ exists next ent r, config_typed next /\ commit_config a next now ent = (a', r).

Lemma commit_prepared_cases a next now ent :
  (forall c, next = Ok c -> config_typed c) -> commits a now (commit_prepared a next now ent).1.
Proof.
  intros Ht; unfold commit_prepared; destruct next as [next|]; [|by left].
  destruct (commit_config a next now ent) as [a' r] eqn:Hc; right; exists next, ent, r; split; [by apply Ht | done].
Qed.
Lemma commit_random_cases a next now ent :
  (forall c ent', next ent = Ok (c, ent') -> config_typed c) -> commits a now (commit_random a next now ent).1.
Proof.
  intros Ht; unfold commit_random; destruct (next ent) as [[next' ent']|] eqn:Hn; [|by left].
  destruct (commit_config a next' now ent') as [a' r] eqn:Hc; right; exists next', ent', r; split; [by eapply Ht | done].
Qed.

Ltac next_typed :=
  match goal with
  | Hh : length (head_hash ?h) = 32%nat, Hn : is_u64 ?now = true, Hp : prepare_next_revision _ ?h ?now = Ok _ |- _ =>
      eapply prepare_next_revision_typed; [| exact Hh | exact Hn | exact Hp]; clear Hp
  end.

Lemma handle_cases a r now ent :
  authority_typed a -> request_typed r -> is_u64 now = true -> commits a now (handle a r now ent).
Proof.
  intros [_ _ _ Hc Hh] Hr Hn; destruct r; cbn [handle request_typed] in *.
  - unfold invite_member; destruct (admit_member _ _ _ _ _ _) as [[[req ex] mem]|]; [|by left].
    match goal with |- context [commit_random a ?p now ent] =>
      pose proof (commit_random_cases a p now ent) as Hcr; destruct (commit_random a p now ent) as [a' [st|e]] end;
      apply Hcr; intros c ent'; apply prepare_next_epoch_typed; try done; by apply with_members_typed; [|apply Hc].
  - apply commit_random_cases; intros c ent' (next & ent1 & [Hw ->]%rlift_Ok & Hp)%rnd_bind_Ok.
    by eapply prepare_next_epoch_typed; [eapply without_member_typed|..].
  - unfold register_app; match goal with |- context [match ?p with _ => _ end] => destruct p as [[reg next]|] eqn:Hp end; [|by left].
    destruct (commit_config a next now ent) as [a' res] eqn:Hco; right; exists next, ent, res; split; [|by destruct res].
    res_inv; next_typed; apply with_services_typed; try apply Hc; done.
  - apply commit_prepared_cases; intros c; apply prepare_next_revision_typed; try done.
    apply with_members_typed; [done | apply Hc].
  - apply commit_prepared_cases; intros c Hp; cbv zeta in Hp; res_inv; next_typed.
    apply with_services_typed; try apply Hc; rewrite merge_sort_Permutation; apply Forall_app; split;
      [apply Forall_retain, Hc | by constructor].
  - apply commit_prepared_cases; intros c Hp; cbv zeta in Hp; res_inv; next_typed.
    apply with_services_typed; try apply Hc; apply Forall_retain, Hc.
  - apply commit_prepared_cases; intros c Hp; cbv zeta in Hp; res_inv; next_typed.
    apply with_services_typed; try apply Hc; [rewrite merge_sort_Permutation; apply Forall_app; split;
      [apply Forall_retain, Hc | by constructor] |].
    rewrite merge_sort_Permutation; case_match; [apply Forall_app; split|]; try apply Forall_retain, Hc.
    apply Forall_singleton; by destruct Hr as (? & _ & ?).
  - apply commit_prepared_cases; intros c Hp; cbv zeta in Hp; res_inv; next_typed.
    apply with_services_typed; try apply Hc; apply Forall_retain, Hc.
Qed.

(** ** The stored chain *)
Implicit Types (e : EncryptedConfigEnvelope) (es : list EncryptedConfigEnvelope).

(** [e'] extends the chain that ends in [e]. *)
Record follows_on (net : NetworkId) e e' : Prop := {
  fo_wf : envelope_wf e';
  fo_network : env_network_id e' = net;
  fo_revision : env_revision e' = env_revision e + 1;
  fo_previous : env_previous_hash e' = envelope_hash e;
  fo_epoch : env_epoch e <= env_epoch e';
}.
Inductive chained net : EncryptedConfigEnvelope -> list EncryptedConfigEnvelope -> EncryptedConfigEnvelope -> Prop :=
| chained_nil e : chained net e [] e
| chained_cons e e1 es e' : follows_on net e e1 -> chained net e1 es e' -> chained net e (e1 :: es) e'.

Lemma chained_snoc net e es e1 e2 : chained net e es e1 -> follows_on net e1 e2 -> chained net e (es ++ [e2]) e2.
Proof. induction 1; intros; cbn; econstructor; eauto; constructor. Qed.
Lemma chained_app net e es e1 es' e2 : chained net e es e1 -> chained net e1 es' e2 -> chained net e (es ++ es') e2.
Proof. induction 1; intros; cbn; [done|]; econstructor; eauto. Qed.
Lemma chained_snoc_inv net e es e1 e2 :
  chained net e (es ++ [e1]) e2 -> exists e', chained net e es e' /\ follows_on net e' e2.
Proof.
  revert e; induction es as [|x es IH]; cbn; intros e Hc; inversion Hc as [|? ? ? ? Hf Hc']; subst.
  - inversion Hc'; subst; exists e; split; [constructor | done].
  - destruct (IH _ Hc') as (e' & ? & ?); exists e'; split; [by econstructor | done].
Qed.
Lemma chained_functional net e es e1 e2 : chained net e es e1 -> chained net e es e2 -> e1 = e2.
Proof. induction 1; inversion 1; subst; eauto. Qed.
Lemma chained_last net e es e' : chained net e es e' -> e' ∈ e :: es.
Proof. induction 1; set_solver. Qed.

(** The history holds every envelope of the chain; the current records its last. *)
Record stored_chain (scope : StoreScope) net m e0 es e' : Prop := {
  sc_first : envelope_wf e0;
  sc_chained : chained net e0 es e';
  sc_history : forall e, e ∈ e0 :: es ->
    vb_bytes <$> m !! (scope, au_hist_key (env_revision e)) = Some (Envelope_to_bytes e);
  sc_envelope : vb_bytes <$> m !! (scope, au_envelope_key) = Some (Envelope_to_bytes e');
  sc_head : vb_bytes <$> m !! (scope, au_head_key) = Some (encode_head (envelope_head e'));
}.

Lemma au_hist_key_other revision : au_hist_key revision <> au_envelope_key /\ au_hist_key revision <> au_head_key.
Proof.
  split; intros Heq%(f_equal (fun k => length (StoreKey_as_bytes k))); cbn in Heq; discriminate Heq.
Qed.

(** A committed envelope extends the stored chain: the history precondition
    refuses an authority whose view is behind it. *)
Lemma stored_chain_step a next now m e0 es el pre post ev e m' :
  stored_chain (au_scope a) (as_network_id (au_status a)) m e0 es el ->
  es = pre ++ post -> chained (as_network_id (au_status a)) e0 pre ev ->
  chained (as_network_id (au_status a)) ev post el -> as_head (au_status a) = envelope_head ev ->
  extends a next now e -> commit_effect a m e m' ->
  stored_chain (au_scope a) (as_network_id (au_status a)) m' e0 (es ++ [e]) e.
Proof.
  intros [Hf Hch Hhist He Hh] -> Hpre Hpost Hview Hex Hce.
  assert (Hfo : follows_on (as_network_id (au_status a)) ev e).
  { destruct Hex as [? ? ? [? ?] [? ?] ?]; rewrite Hview in *; by constructor. }
  assert (post = []) as ->.
  { destruct post as [|e1 post]; [done|]; exfalso; inversion Hpost as [|? ? ? ? Hfo1 _]; subst.
    assert (e1 ∈ e0 :: pre ++ e1 :: post) as Hin by set_solver; apply Hhist in Hin.
    rewrite (fo_revision _ _ _ Hfo1), <- (fo_revision _ _ _ Hfo), (ce_fresh _ _ _ _ Hce) in Hin; done. }
  rewrite app_nil_r in *; assert (el = ev) as -> by (by inversion Hpost).
  constructor; [done | by eapply chained_snoc | | apply Hce..].
  intros e1 [Hin | ->%list_elem_of_singleton]%(elem_of_app (e0 :: pre)); [|apply Hce].
  rewrite (ce_outside _ _ _ _ Hce); [by apply Hhist | right; destruct (au_hist_key_other (env_revision e1))].
  split_and!; try done; intros Heq; apply Hhist in Hin; by rewrite Heq, (ce_fresh _ _ _ _ Hce) in Hin.
Qed.

Section chain_laws.
Context `{Led : !Ed25519Laws} `{Lblake : !Blake3Laws} `{Laead : !AeadLaws} `{Lhpke : !HpkeLaws}.
Context `{Lexcl : !HpkeExclusive} `{Lstore : !StateStoreLaws S}.

(** The invariant of a running authority: the store holds one chain, and the
    authority's view is the head of a prefix of it. *)
Record chain_inv a m e0 es e' : Prop := {
  ci_store : store_rep (au_state a) m;
  ci_typed : authority_typed a;
  ci_chain : stored_chain (au_scope a) (as_network_id (au_status a)) m e0 es e';
  ci_view : exists pre post ev, es = pre ++ post /\ chained (as_network_id (au_status a)) e0 pre ev /\
    chained (as_network_id (au_status a)) ev post e' /\ as_head (au_status a) = envelope_head ev;
  ci_valid : exists t, config_valid (vc_inner (au_config a)) (au_root_public a) (as_network_id (au_status a)) t;
}.

Lemma same_authority_inv a a' m e0 es e' :
  same_authority a a' -> store_rep (au_state a') m -> authority_typed a ->
  stored_chain (au_scope a) (as_network_id (au_status a)) m e0 es e' ->
  (exists pre post ev, es = pre ++ post /\ chained (as_network_id (au_status a)) e0 pre ev /\
    chained (as_network_id (au_status a)) ev post e' /\ as_head (au_status a) = envelope_head ev) ->
  (exists t, config_valid (vc_inner (au_config a)) (au_root_public a) (as_network_id (au_status a)) t) ->
  chain_inv a' m e0 es e'.
Proof. intros -> Hr [] Hc Hv Hval; by constructor. Qed.

(** The records of the configuration chain; [others_kept]: no other changed. *)
Definition chain_key (key : StoreKey) : Prop :=
  key = au_envelope_key \/ key = au_head_key \/ exists revision, key = au_hist_key revision.
Definition others_kept a m m' : Prop :=
  forall scope key, scope <> au_scope a \/ ~ chain_key key -> m' !! (scope, key) = m !! (scope, key).
Lemma commit_effect_others a m e m' : commit_effect a m e m' -> others_kept a m m'.
Proof.
  intros [_ _ _ _ Ho] scope key [?|Hk]; apply Ho; [by left | right]; unfold chain_key in Hk.
  split_and!; intros ->; apply Hk; eauto.
Qed.

(** A view and a stored chain, extended by one envelope. *)
Lemma chain_inv_extended a m e0 es el next now e m' :
  chain_inv a m e0 es el -> extends a next now e -> commit_effect a m e m' ->
  stored_chain (au_scope a) (as_network_id (au_status a)) m' e0 (es ++ [e]) e /\
  exists pre post ev, es ++ [e] = pre ++ post /\ chained (as_network_id (au_status a)) e0 pre ev /\
    chained (as_network_id (au_status a)) ev post e /\ as_head (au_status a) = envelope_head ev.
Proof.
  intros [Hrep Hty Hch (pre & post & ev & Hes & Hpre & Hpost & Hhead) Hval] Hex Hce.
  pose proof (stored_chain_step _ _ _ _ _ _ _ _ _ _ _ _ Hch Hes Hpre Hpost Hhead Hex Hce) as Hch'; split; [done|].
  assert (Hfo : follows_on (as_network_id (au_status a)) el e).
  { pose proof (sc_chained _ _ _ _ _ _ Hch') as Hc'; apply chained_snoc_inv in Hc' as (el' & Hc' & Hfo).
    by rewrite (chained_functional _ _ _ _ _ (sc_chained _ _ _ _ _ _ Hch) Hc'). }
  exists pre, (post ++ [e]), ev; rewrite Hes, app_assoc; split_and!; try done; by eapply chained_snoc.
Qed.

(** Committing preserves the invariant, whether it succeeds, is refused, or the
    store fails after having committed. *)
Lemma commit_preserves_inv a m e0 es el next now ent a' r :
  chain_inv a m e0 es el -> config_typed next -> commit_config a next now ent = (a', r) ->
  exists m' es' el', chain_inv a' m' e0 (es ++ es') el' /\ (length es' <= 1)%nat /\ others_kept a m m'.
Proof.
  intros Hi Ht Hc; pose proof Hi as [Hrep Hty Hch Hview Hval].
  destruct (commit_cases _ _ _ _ _ _ _ Hrep Hty Ht Hc) as [(Hs & Hr & _) | (e & m' & Hne & Hce & Hr & Hres)].
  - exists m, [], el; rewrite app_nil_r; split_and!; [by eapply same_authority_inv | cbn; lia | done].
  - destruct (next_envelope_extends _ _ _ _ _ Hty Ht Hne) as [Hex _].
    destruct (chain_inv_extended _ _ _ _ _ _ _ _ _ Hi Hex Hce) as [Hch' Hview'].
    exists m', [e], e; split_and!; [|cbn; lia | by eapply commit_effect_others].
    destruct Hres as [(_ & Hs) | (_ & ev' & hv & -> & _ & _)]; [by eapply same_authority_inv|].
    constructor; cbn; try done.
    + destruct Hty; constructor; cbn; try done; apply blake3_hash_len.
    + exists (es ++ [e]), [], e; rewrite app_nil_r; split_and!; try done; [apply Hch' | constructor].
    + exists now; apply Hex.
Qed.

Lemma commits_preserves_inv a now a' m e0 es el :
  chain_inv a m e0 es el -> commits a now a' ->
  exists m' es' el', chain_inv a' m' e0 (es ++ es') el' /\ (length es' <= 1)%nat /\ others_kept a m m'.
Proof.
  intros Hi [-> | (next & ent & r & Ht & Hc)]; [|by eapply commit_preserves_inv].
  exists m, [], el; rewrite app_nil_r; split_and!; [done | cbn; lia | done].
Qed.

(** A run of requests, each with its time and its randomness. *)
Fixpoint serve a (rs : list (Request * Z * entropy)) : authority :=
  match rs with
  | [] => a
  | (r, now, ent) :: rs => serve (handle a r now ent) rs
  end.

Lemma serve_app a rs rs' : serve a (rs ++ rs') = serve (serve a rs) rs'.
Proof. revert a; induction rs as [|[[r now] ent] rs IH]; intros a; cbn; [done | apply IH]. Qed.

Lemma serve_preserves_inv a rs m e0 es el :
  chain_inv a m e0 es el -> Forall (fun x => request_typed x.1.1 /\ is_u64 x.1.2 = true) rs ->
  exists m' es' el', chain_inv (serve a rs) m' e0 (es ++ es') el' /\ (length es' <= length rs)%nat.
Proof.
  intros Hi Hrs; revert a m es el Hi; induction Hrs as [|[[r now] ent] rs [Hr Hn] _ IH]; intros a m es el Hi; cbn in *.
  - exists m, [], el; by rewrite app_nil_r.
  - destruct (commits_preserves_inv _ _ _ _ _ _ _ Hi (handle_cases a r now ent (ci_typed _ _ _ _ _ Hi) Hr Hn))
      as (m1 & es1 & el1 & Hi1 & Hl1 & _).
    destruct (IH _ _ _ _ Hi1) as (m2 & es2 & el2 & Hi2 & Hl2); exists m2, (es1 ++ es2), el2.
    rewrite app_assoc, length_app; split; [done | lia].
Qed.

(** ** Opening *)
Lemma decoded_typed e root opened now o :
  decode_and_validate_opened e root opened now = Ok o ->
  onc_head o = op_head opened /\ config_typed (vc_inner (onc_config o)) /\
  config_valid (vc_inner (onc_config o)) root (env_network_id e) now.
Proof.
  intros (c & Hc & _ & _ & _ & _ & Hv & ->)%decode_and_validate_Ok; split_and!; try done.
  by eapply config_from_bytes_typed.
Qed.
Lemma open_config_typed e root net kp chain now o :
  open_config e root net kp chain now = Ok o ->
  onc_head o = envelope_head e /\ config_typed (vc_inner (onc_config o)) /\
  config_valid (vc_inner (onc_config o)) root (root_network_id root) now.
Proof.
  intros Ho; apply bind_Ok in Ho as (opened & Hop & (Hh & Ht & Hv)%decoded_typed); rewrite Hh.
  unfold Envelope_open in Hop; res_inv; bool_inv; split_and!; [by eapply open_verified_Ok | done | congruence].
Qed.
Lemma open_with_admin_typed e root va kp chain now o :
  open_config_with_verified_admin e root va kp chain now = Ok o ->
  onc_head o = envelope_head e /\ config_typed (vc_inner (onc_config o)) /\
  config_valid (vc_inner (onc_config o)) root (root_network_id root) now.
Proof.
  intros Ho; unfold open_config_with_verified_admin in Ho; apply bind_Ok in Ho as (u & Hf%fail_if_Ok & Ho); bool_inv.
  do 3 (apply bind_Ok in Ho as (? & _ & Ho)); apply bind_Ok in Ho as (opened & Hop & (Hh & Ht & Hv)%decoded_typed).
  rewrite Hh; split_and!; [by eapply open_verified_Ok | done | congruence].
Qed.

Lemma read_manifest_typed file mf : read_manifest file = Ok mf -> NetworkId_wf (mf_network_id mf).
Proof.
  unfold read_manifest; intros Hm; apply bind_Ok in Hm as (bs & _ & Hm); apply bind_Ok in Hm as (u & Hl%fail_if_Ok & Hm).
  bool_inv; match goal with Hb : Nat.ltb _ _ = false |- _ => apply Nat.ltb_ge in Hb end; apply bind_Ok in Hm as (u' & _ & <-%Ok_inj); unfold NetworkId_wf, MANIFEST_FIXED_LEN in *.
  cbn [mf_network_id NetworkId_as_bytes]; rewrite length_take, length_drop; lia.
Qed.

(** What [load_authority] has established when it succeeds. *)
Record loaded (s : S) m now (mf : Manifest) (root : NetworkRootPublic) (admin : OnlineAdminKey)
    (er hr : VersionedBytes) (o : OpenedNetworkConfig) e : Prop := {
  ld_network : NetworkId_wf (mf_network_id mf);
  ld_root : root_network_id root = mf_network_id mf;
  ld_seed : length (admin_seed admin) = 32%nat;
  ld_envelope : m !! (StoreScope_authority (mf_network_id mf), au_envelope_key) = Some er;
  ld_head : m !! (StoreScope_authority (mf_network_id mf), au_head_key) = Some hr;
  ld_parsed : Envelope_from_bytes (vb_bytes er) = Ok e;
  ld_stored : vb_bytes hr = encode_head (onc_head o);
  ld_opened : onc_head o = envelope_head e /\ config_typed (vc_inner (onc_config o)) /\
    config_valid (vc_inner (onc_config o)) root (root_network_id root) now;
}.
Lemma load_authority_Ok s m k file now mf root enc esk admin va er hr o :
  store_rep s m -> load_authority s k file now = Ok (mf, root, enc, esk, admin, va, er, hr, o) ->
  exists e, loaded s m now mf root admin er hr o e.
Proof.
  intros Hrep Hl; unfold load_authority in Hl.
  apply bind_Ok in Hl as (mf' & Hmf%read_manifest_typed & Hl); apply bind_Ok in Hl as (root' & _ & Hl).
  apply bind_Ok in Hl as (u & Hroot%fail_if_Ok & Hl); bool_inv; apply bind_Ok in Hl as (eb & _ & Hl).
  apply bind_Ok in Hl as (enc' & _ & Hl); apply bind_Ok in Hl as (es' & _ & Hl); apply bind_Ok in Hl as (ab & Hab & Hl).
  apply bind_Ok in Hab as (sec & _ & Hab); apply bind_Ok in Hab as (u1 & Hlen%fail_if_Ok & <-%Ok_inj); bool_inv.
  rewrite au_envelope_key_Ok, au_head_key_Ok in Hl; cbn [map_err mbind result_bind] in Hl.
  apply bind_Ok in Hl as (oe & Hoe%map_err_Ok & Hl); apply bind_Ok in Hl as (er' & Her%ok_or_Ok & Hl).
  apply bind_Ok in Hl as (e & He%map_err_Ok & Hl); apply bind_Ok in Hl as (oh & Hoh%map_err_Ok & Hl).
  apply bind_Ok in Hl as (hr' & Hhr%ok_or_Ok & Hl); apply bind_Ok in Hl as (hd & (Hhd & _)%au_decode_head_Ok & Hl).
  apply bind_Ok in Hl as (u2 & _ & Hl); apply bind_Ok in Hl as (ac & _ & Hl); apply bind_Ok in Hl as (va' & _ & Hl).
  apply bind_Ok in Hl as (u3 & _ & Hl); apply bind_Ok in Hl as (o' & Ho & Hl).
  apply bind_Ok in Hl as (u4 & Hst%fail_if_Ok & Hl); apply bind_Ok in Hl as (u5 & _ & Hl); bool_inv.
  injection Hl as <- <- <- <- <- <- <- <- <-; exists e.
  subst oe oh; apply Nat.eqb_eq in Hlen; constructor; try done.
  - symmetry; by apply (read_rep s m _ _ _ Hrep).
  - symmetry; by apply (read_rep s m _ _ _ Hrep).
  - rewrite Hhd; by subst.
  - case_match; [apply bind_Ok in Ho as (? & _ & Ho)|]; apply map_err_Ok in Ho;
      [by eapply open_config_typed | by eapply open_with_admin_typed].
Qed.

Lemma migrate_history_Ok s m scope revision env s' :
  store_rep s m -> scope_wf scope -> migrate_history s scope revision env = (s', Ok tt) ->
  exists m', store_rep s' m' /\ vb_bytes <$> m' !! (scope, au_hist_key revision) = Some env /\
    forall scope' key, (scope', key) <> (scope, au_hist_key revision) -> m' !! (scope', key) = m !! (scope', key).
Proof.
  intros Hrep Hsc Hm; unfold migrate_history in Hm; rewrite au_history_key_Ok in Hm; cbn [mbind result_bind] in Hm.
  destruct (read s scope (au_hist_key revision)) as [o|x] eqn:Hr; cbn in Hm; [|done].
  pose proof (read_rep _ _ _ _ _ Hrep Hsc Hr) as Ho; destruct o as [rec|].
  - injection Hm as <- Hm; case_bool_decide as Hb; [|done]; exists m; split_and!; try done; rewrite <- Ho; cbn; by rewrite Hb.
  - destruct (AtomicBatch_put _ _ _ _) as [b|] eqn:Hb; [|done].
    apply AtomicBatch_put_wf in Hb as (Hw & Hbs & Hops); [|by apply AtomicBatch_new_wf | apply au_hist_key_wf].
    destruct (commit s b) as [s1 [v|x]] eqn:Hc; [|done]; injection Hm as <-.
    destruct (commit_success _ _ _ _ _ Hrep Hw Hc) as (_ & m' & Hrep' & [Hin Hout]); exists m'; split_and!; try done.
    + rewrite Hops, Hbs in Hin; apply (Hin (Put (au_hist_key revision) env Missing)); set_solver.
    + intros scope' key Hne; apply Hout; rewrite Hbs, Hops; cbn.
      destruct (decide (scope' = scope)) as [->|]; [right | by left]; rewrite list_elem_of_singleton; congruence.
Qed.

(** Opening leaves a store that has the history of its head as it is. *)
Lemma open_loaded s k file now mf root enc ep oa va er hr op rec v :
  load_authority s k file now = Ok (mf, root, enc, ep, oa, va, er, hr, op) ->
  read s (StoreScope_authority (mf_network_id mf)) (au_hist_key (head_revision (onc_head op))) = Ok (Some rec) ->
  vb_bytes rec = vb_bytes er -> verified_admin (onc_config op) root (OnlineAdminKey_key_id oa) now = Ok v ->
  adm_public_key (va_payload v) = OnlineAdminKey_public_bytes oa ->
  Authority_open s k file now = (s, Ok (mkAuthority s k root oa va (mf_admin_certificate mf) enc ep (onc_config op)
    (vb_version er) (vb_version hr) (mkAuthorityStatus (mf_network_id mf) (mf_root_public_key mf) (onc_head op)
       (first_relay_url (vc_inner (onc_config op)))))).
Proof.
  intros Hl Hr Hb Hv Hk; unfold Authority_open; rewrite Hl; unfold migrate_history.
  rewrite au_history_key_Ok; cbn [mbind result_bind]; rewrite Hr; cbn [map_err mbind result_bind].
  rewrite bool_decide_true by done; rewrite Hv; cbn [map_err mbind result_bind]; by rewrite bool_decide_true.
Qed.

(** An opened authority satisfies the invariant, at the head it was opened at. *)
Lemma open_establishes_inv s m k file now s' a :
  store_rep s m -> Authority_open s k file now = (s', Ok a) -> exists m' e, chain_inv a m' e [] e.
Proof.
  intros Hrep Ho; unfold Authority_open in Ho.
  destruct (load_authority s k file now) as [[[[[[[[[mf root] enc] esk] admin] va] er] hr] o]|] eqn:Hl; [|done].
  apply (load_authority_Ok _ m) in Hl as (e & Hl); [|done].
  set (scope := StoreScope_authority (mf_network_id mf)) in *.
  destruct (migrate_history s scope (head_revision (onc_head o)) (vb_bytes er)) as [s1 [[]|]] eqn:Hm; [|done].
  injection Ho as <- Ho; destruct Hl as [Hn Hroot Hseed Her Hhr He Hst (Hh & Ht & Hv)].
  destruct (migrate_history_Ok _ _ _ _ _ _ Hrep (Hn : scope_wf scope) Hm) as (m' & Hrep' & Hhist & Hout); exists m', e.
  apply bind_Ok in Ho as (vadm & _ & Ho); apply bind_Ok in Ho as (u & _ & <-%Ok_inj).
  pose proof He as [Hw Hraw]%Envelope_from_bytes_exact.
  assert (Hoth : forall key, key = au_envelope_key \/ key = au_head_key -> m' !! (scope, key) = m !! (scope, key)).
  { intros key Hk; apply Hout; intros [= Hkey]; destruct (au_hist_key_other (head_revision (onc_head o))); naive_solver. }
  constructor; cbn.
  - done.
  - constructor; cbn; try done; rewrite Hh; apply blake3_hash_len.
  - constructor; [done | constructor | | |].
    + intros e1 ->%list_elem_of_singleton; rewrite <- Hraw, <- Hhist, Hh; done.
    + unfold au_scope; cbn; fold scope; rewrite Hoth by auto; unfold scope; rewrite Her; cbn; by rewrite Hraw.
    + unfold au_scope; cbn; fold scope; rewrite Hoth by auto; unfold scope; rewrite Hhr; cbn; by rewrite Hst, Hh.
  - exists [], [], e; split_and!; try done; constructor.
  - exists now; by rewrite <- Hroot.
Qed.

(** ** Members follow the authority *)

(** A run of successful commits, with the envelopes it published. *)
Inductive commit_run : authority -> list (NetworkConfigV1 * EncryptedConfigEnvelope) -> authority -> Prop :=
| commit_run_nil a : commit_run a [] a
| commit_run_cons a next now ent e o batch a1 status run a' :
    config_typed next -> prepare_commit a next now ent = Ok (e, o, batch) ->
    commit_config a next now ent = (a1, Ok status) -> commit_run a1 run a' -> commit_run a ((next, e) :: run) a'.

(** The key pair belongs to a member of the snapshot. *)
Definition lists_key (c : NetworkConfigV1) (kp : MemberEncryptionKeypair) : Prop :=
  exists cr mem, snapshot_parses c cr /\ mem ∈ cr_members cr /\
    mc_encryption_public_key (payload mem) = kem_sk_to_pk (ek_secret kp).
(** Every revision of a run lists the key and is acceptable at the time. *)
Fixpoint readable root (signer : bytes) (kp : MemberEncryptionKeypair) now (current : ValidatedNetworkConfig)
    (run : list NetworkConfigV1) : Prop :=
  match run with
  | [] => True
  | next :: run => (exists va, verified_admin current root signer now = Ok va) /\
      config_valid next root (root_network_id root) now /\ lists_key next kp /\
      readable root signer kp now (mkValidated next) run
  end.

Lemma commit_config_view a next now ent e o batch a1 status :
  prepare_commit a next now ent = Ok (e, o, batch) -> commit_config a next now ent = (a1, Ok status) ->
  exists s ev hv, a1 = with_config a s ev hv (onc_config o) (onc_head o) /\ status = au_status a1.
Proof.
  unfold commit_config; intros -> Hc; destruct (commit _ _) as [s [v|]]; [|done].
  destruct (read_commit_back _ _ _ _) as [[ev hv]|]; [|done]; injection Hc as <- <-; eauto 6.
Qed.

Lemma commit_run_follows a run a' kp now :
  commit_run a run a' -> authority_typed a -> kem_sk_valid (ek_secret kp) = true ->
  readable (au_root_public a) (OnlineAdminKey_key_id (au_online_admin a)) kp now (au_config a) run.*1 ->
  authority_typed a' /\
  follows (au_root_public a) kp now (au_config a) (as_head (au_status a)) (Envelope_to_bytes <$> run.*2)
    (au_config a') (as_head (au_status a')).
Proof.
  intros Hrun Hty Hsk; revert Hty; induction Hrun as [a | a next t ent e o batch a1 status run a' Ht Hp Hc Hrun IH];
    intros Hty Hread; [split; [done | constructor]|].
  destruct Hread as ([va Hva] & Hv & (cr & mem & Hcr & Hmem & Hkey) & Hread).
  destruct (commit_config_view _ _ _ _ _ _ _ _ _ Hp Hc) as (s & ev & hv & -> & _).
  apply prepare_commit_Ok in Hp as (Hne & _); [|apply Hty].
  destruct (next_envelope_extends _ _ _ _ _ Hty Ht Hne) as [Hex ->]; cbn [onc_config onc_head] in *.
  destruct (IH) as [Hty' Hf]; [destruct Hty; constructor; cbn; try done; apply blake3_hash_len | done|].
  split; [done|]; cbn; eapply (follows_cons _ _ _ _ _ _ e (mkOpenedNetworkConfig (mkValidated next) (envelope_head e))).
  - apply Envelope_from_bytes_exact; split; [apply Hex | done].
  - destruct Hne as [(recipients & ent1 & ent2 & _ & (va' & pt & Hsu)%seal_next_config_Ok) _ _].
    eapply sealed_update_opened; try done; [apply Hty|]; rewrite <- Hkey; eapply member_is_recipient; try done; apply Hsu.
  - exact Hf.
Qed.
End chain_laws.
End commit.
