(* ===== verification/AuthorityChain.v ===== *)
(** * The authority's configuration chain

    A commit is all or nothing, and a member that fetches what the authority
    committed ends in the authority's configuration. *)

From S2P Require Import Prelude Platform Wire Core Store CertificateWire Certificates Symmetric ToyCrypto Snapshot Validate.
From S2P Require Import Envelope EnvelopeChain ConfigState ConfigStateFacts JoinTicket Authority AuthorityFacts.

Section claims.
Context `{Led : Ed25519Laws} `{Lblake : Blake3Laws} `{Laead : AeadLaws} `{Lhpke : HpkeLaws} `{Lexcl : !HpkeExclusive}.
Context `{Lplatform : Platform} {S K : Type} `{Lstore : StateStoreLaws S} `{Lsecret : SecretStore K}.

(** C9: committing a configuration is all or nothing.  On success the authority
    holds the committed snapshot, which is valid, under a head that is the
    immediate successor of the old one, and the store holds the new envelope,
    head and history entry, where there was none before, and is otherwise
    unchanged.  On failure the authority is unchanged but for the store, which is
    unchanged too unless it reported the error itself, in which case it may hold
    the complete revision.  [CorruptState] is never the outcome. *)
Theorem commit_config_all_or_nothing (a a' : Authority S K) (m : records) (next : NetworkConfigV1) (now : Z)
    (ent : entropy) (r : result AuthorityError AuthorityStatus) :
  store_rep (au_state a) m -> authority_typed a -> config_typed next -> commit_config a next now ent = (a', r) ->
  match r with
  | Ok status =>
      exists e m', as_head status = envelope_head e /\ au_config a' = mkValidated next /\ au_status a' = status /\
        config_valid next (au_root_public a) (as_network_id (au_status a)) now /\
        env_previous_hash e = head_hash (as_head (au_status a)) /\
        head_revision (as_head status) = head_revision (as_head (au_status a)) + 1 /\
        store_rep (au_state a') m' /\ commit_effect a m e m'
  | Err x =>
      same_authority a a' /\ x <> CorruptState /\
      (store_rep (au_state a') m \/
       (exists se, x = AuStore se) /\ exists e m', store_rep (au_state a') m' /\ commit_effect a m e m')
  end.
Proof.
  intros Hrep Hty Ht Hc; destruct (commit_cases _ _ _ _ _ _ _ Hrep Hty Ht Hc)
    as [(Hs & Hr & e & -> & Hne) | (e & m' & Hne & Hce & Hr & [([x ->] & Hs) | (-> & ev & hv & -> & _)])].
  - by split_and!; [| |left].
  - split_and!; [done.. | right; split; eauto].
  - destruct (next_envelope_extends _ _ _ _ _ Hty Ht Hne) as [[_ ? _ _ [_ ?] ?] _]; exists e, m'; by split_and!.
Qed.

(** C8: what the authority commits is what its members apply.  Let the authority
    commit any number of revisions, and let a member at the authority's old
    configuration and head receive the batch of their envelopes over the wire.
    If every revision lists the member's key, is valid at the time and was signed
    by an administrator still valid at the time, then the member ends exactly in
    the authority's new configuration and head, unless its own store fails. *)
Theorem members_follow_authority (a a' : Authority S K) (run : list (NetworkConfigV1 * EncryptedConfigEnvelope))
    (st st' : PersistedConfigState S) (m : records) (wire : bytes) (now : Z) (r : result ConfigStateError ConfigHead) :
  authority_typed a -> commit_run a run a' ->
  store_rep (cs_store st) m -> cs_root st = au_root_public a -> cs_config st = au_config a ->
  cs_head st = as_head (au_status a) -> kem_sk_valid (ek_secret (cs_encryption st)) = true ->
  readable (au_root_public a) (OnlineAdminKey_key_id (au_online_admin a)) (cs_encryption st) now (au_config a) run.*1 ->
  Batch_from_bytes wire = Ok (mkBatch (as_network_id (au_status a)) (as_head (au_status a)) (Envelope_to_bytes <$> run.*2)) ->
  ConfigState_apply st (mkBatch (as_network_id (au_status a)) (as_head (au_status a)) (Envelope_to_bytes <$> run.*2)) now
    = (st', r) ->
  (r = Ok (as_head (au_status a')) /\ cs_config st' = au_config a' /\ cs_head st' = as_head (au_status a')) \/
  exists x, r = Err (CsStore x).
Proof.
  intros Hty Hrun Hrep Hroot Hcfg Hhead Hsk Hread Hw Ha.
  destruct (commit_run_follows _ _ _ _ _ Hrun Hty Hsk Hread) as [_ Hf].
  rewrite <- Hroot, <- Hcfg, <- Hhead in Hf; eapply apply_followed; try done.
  - destruct Hty; rewrite Hroot, ty_root; done.
  - cbn; destruct Hty; by rewrite Hroot.
Qed.
End claims.

(** ** A concrete authority *)
Module AuthorityWitness.
Import Samples EnvelopeWitness ConfigStateWitness.

Definition au_scope0 : StoreScope := StoreScope_authority toy_network.
Definition authority_records : records :=
  <[(au_scope0, au_envelope_key) := mkVersionedBytes 1 genesis_raw]>
  (<[(au_scope0, au_head_key) := mkVersionedBytes 2 (encode_head head)]>
  (<[(au_scope0, au_hist_key 0) := mkVersionedBytes 3 genesis_raw]> ∅)).
Definition authority_store : MemoryState := mkMemoryState 1 4 4 authority_records.
Definition secrets : gmap SecretId bytes :=
  <[secret_id toy_network (bstr "member-encryption") := toy_encryption]>
  (<[secret_id toy_network (bstr "endpoint") := toy_endpoint]>
  (<[secret_id toy_network (bstr "online-admin") := repeat Byte.x22 32]> ∅)).
Definition manifest : bytes := Eval vm_compute in
  ok_else [] (manifest_bytes (mkManifest toy_network (repeat Byte.x11 32) (head_hash head) (to_bytes ac))).
Definition authority : Authority MemoryState (gmap SecretId bytes) :=
  mkAuthority authority_store secrets root_public toy_admin (as_admin ac) (to_bytes ac) keypair toy_endpoint
    (mkValidated genesis) 1 2 (mkAuthorityStatus toy_network (repeat Byte.x11 32) head (bstr "https://relay")).
Lemma authority_loads :
  load_authority authority_store secrets (Some manifest) 300
    = Ok (mkManifest toy_network (repeat Byte.x11 32) (head_hash head) (to_bytes ac), root_public, keypair, toy_endpoint,
          toy_admin, as_admin ac, mkVersionedBytes 1 genesis_raw, mkVersionedBytes 2 (encode_head head),
          mkOpenedNetworkConfig (mkValidated genesis) head).
Proof. vm_compute; reflexivity. Qed.
Lemma pair_ok {A E B} (d : B) (p : A * result E B) : is_ok p.2 = true -> p = (p.1, Ok (ok_else d p.2)).
Proof. destruct p as [x [y|]]; done. Qed.
Lemma authority_opens : Authority_open authority_store secrets (Some manifest) 300 = (authority_store, Ok authority).
Proof.
  exact (open_loaded _ _ _ _ _ _ _ _ _ _ _ _ _ (mkVersionedBytes 3 genesis_raw) (as_admin ac) authority_loads
    ltac:(vm_compute; reflexivity) eq_refl ltac:(vm_compute; reflexivity) ltac:(vm_compute; reflexivity)).
Qed.
Lemma memory_rep (st : MemoryState) : store_rep st (ms_records st).
Proof. reflexivity. Qed.
Lemma authority_invariant : exists m e, chain_inv authority m e [] e.
Proof. exact (open_establishes_inv authority_store authority_records _ _ _ _ _ eq_refl authority_opens). Qed.
Lemma authority_has_type : authority_typed authority.
Proof. destruct authority_invariant as (m & e & Hi); exact (ci_typed _ _ _ _ _ Hi). Qed.
Lemma authority_at_genesis :
  au_config authority = mkValidated genesis /\ au_status authority
    = mkAuthorityStatus toy_network (repeat Byte.x11 32) head (bstr "https://relay") /\
  au_root_public authority = root_public /\ au_online_admin authority = toy_admin.
Proof. split_and!; reflexivity. Qed.
Lemma next_has_type : config_typed next.
Proof. apply config_at_typed; vm_compute; reflexivity. Qed.

Definition prepared := prepare_commit authority next 300 random.
Definition nothing_prepared : EncryptedConfigEnvelope * OpenedNetworkConfig * AtomicBatch :=
  (no_envelope, mkOpenedNetworkConfig (mkValidated genesis) head, AtomicBatch_new au_scope0).
Definition published := Eval vm_compute in ok_else nothing_prepared prepared.
Definition committed := commit_config authority next 300 random.
Definition status' : AuthorityStatus := ok_else (au_status authority) committed.2.
Lemma prepared_ok : prepared = Ok published.
Proof. vm_compute; reflexivity. Qed.
Lemma committed_ok : is_ok committed.2 = true.
Proof. vm_compute; reflexivity. Qed.
Lemma published_envelope : published.1.1 = next_envelope.
Proof. vm_compute; reflexivity. Qed.

#[local] Opaque authority prepare_commit commit_config.
Lemma authority_prepares :
  prepare_commit authority next 300 random = Ok (published.1.1, published.1.2, published.2).
Proof.
  change (prepared = Ok (published.1.1, published.1.2, published.2)).
  rewrite prepared_ok; destruct published as [[e o] b]; reflexivity.
Qed.
Lemma authority_commits : commit_config authority next 300 random = (committed.1, Ok status').
Proof. exact (pair_ok (au_status authority) committed committed_ok). Qed.

Lemma commit_config_all_or_nothing_witness :
  exists e m', as_head status' = envelope_head e /\ store_rep (au_state committed.1) m' /\
    commit_effect authority (ms_records (au_state authority)) e m'.
Proof.
  destruct (commit_config_all_or_nothing authority committed.1 (ms_records (au_state authority)) next 300 random
    (Ok status') (memory_rep _) authority_has_type next_has_type authority_commits) as (e & m' & Hh & _ & _ & _ & _ & _ & Hr & Hc).
  exact (ex_intro _ e (ex_intro _ m' (conj Hh (conj Hr Hc)))).
Defined.

Definition revisions : list (NetworkConfigV1 * EncryptedConfigEnvelope) := [(next, next_envelope)].
Lemma authority_run : commit_run authority revisions committed.1.
Proof.
  pose proof authority_prepares as Hp; rewrite published_envelope in Hp.
  exact (commit_run_cons _ _ _ _ _ _ _ _ _ _ _ next_has_type Hp authority_commits (commit_run_nil _)).
Qed.
Lemma revisions_readable :
  readable (au_root_public authority) (OnlineAdminKey_key_id (au_online_admin authority)) keypair 300
    (au_config authority) revisions.*1.
Proof.
  destruct authority_at_genesis as (-> & _ & -> & ->); split_and!; [| | |exact I].
  - exists (as_admin ac); vm_compute; reflexivity.
  - exact (proj2 (proj1 (validate_Ok _ _ _ _ _) next_validates)).
  - exists ValidateWitness.credentials, mc; split_and!;
      [apply config_at_parses | by apply list_elem_of_singleton | vm_compute; reflexivity].
Qed.
Definition update : ConfigUpdateBatch :=
  mkBatch (as_network_id (au_status authority)) (as_head (au_status authority)) (Envelope_to_bytes <$> revisions.*2).
Lemma update_on_wire : Batch_from_bytes (ok_else [] (Batch_to_bytes update)) = Ok update.
Proof. unfold update; destruct authority_at_genesis as (_ & -> & _); vm_compute; reflexivity. Qed.
Lemma member_at_genesis :
  cs_root member = au_root_public authority /\ cs_config member = au_config authority /\
  cs_head member = as_head (au_status authority).
Proof. destruct authority_at_genesis as (-> & -> & -> & _); split_and!; reflexivity. Qed.
Definition applied := ConfigState_apply member update 300.
Lemma applied_pair : ConfigState_apply member update 300 = (applied.1, applied.2).
Proof. exact (surjective_pairing applied). Qed.
#[local] Opaque applied.

Lemma members_follow_authority_witness :
  (applied.2 = Ok (as_head (au_status committed.1)) /\ cs_config applied.1 = au_config committed.1 /\
   cs_head applied.1 = as_head (au_status committed.1)) \/ exists x, applied.2 = Err (CsStore x).
Proof.
  exact (members_follow_authority authority committed.1 revisions member applied.1 member_records
    (ok_else [] (Batch_to_bytes update)) 300 applied.2 authority_has_type authority_run member_rep
    (proj1 member_at_genesis) (proj1 (proj2 member_at_genesis)) (proj2 (proj2 member_at_genesis)) eq_refl
    revisions_readable update_on_wire applied_pair).
Defined.
End AuthorityWitness.
