(* ===== verification/AuthorityOps.v ===== *)
(** * What the operations of the authority achieve

    Beyond extending the chain: an invitation yields a ticket the device accepts
    and a serial number never used before, a revoked member disappears from the
    configuration and cannot read it, a registered name resolves, and an expired
    credential makes every other change of the configuration fail. *)

From S2P Require Import Prelude Platform Wire Core Store CertificateWire Certificates Symmetric ToyCrypto CertificateChain.
From S2P Require Import Snapshot Validate Envelope EnvelopeChain ConfigState ConfigStateFacts JoinTicket Authority.
From S2P Require Import AuthorityFacts AuthorityChain.

(** ** Serial numbers *)
Section serials.
Lemma max_fold_Ok {E A B} (parse : A -> result E B) (f : B -> Z) xs acc n :
  try_fold (fun acc x => c ← parse x; Ok (Z.max acc (f c))) acc xs = Ok n ->
  acc <= n /\ Forall (fun x => exists c, parse x = Ok c /\ f c <= n) xs.
Proof.
  revert acc; induction xs as [|x xs IH]; cbn; intros acc Hf; [apply Ok_inj in Hf; split; [lia | constructor]|].
  apply bind_Ok in Hf as (acc' & Hx & Hf); apply bind_Ok in Hx as (c & Hc & <-%Ok_inj).
  destruct (IH _ Hf) as [Hle Hall]; split; [lia|]; constructor; [|done]; exists c; split; [done | lia].
Qed.
Lemma fold_max_le xs acc : acc <= fold_left Z.max xs acc /\ Forall (fun x => x <= fold_left Z.max xs acc) xs.
Proof.
  revert acc; induction xs as [|x xs IH]; intros acc; cbn; [split; [lia | constructor]|].
  destruct (IH (Z.max acc x)); split; [lia|]; constructor; [lia | done].
Qed.

(** A serial number larger than every one the configuration knows. *)
Record serial_fresh (c : NetworkConfigV1) (serial : Z) : Prop := {
  sf_range : 0 < serial <= U64_MAX;
  sf_revoked : Forall (fun s => s < serial) (cfg_revoked_serials c);
  sf_admins : Forall (fun k => exists x, AdminCertificate_from_bytes (ak_certificate k) = Ok x /\ adm_serial (payload x) < serial)
                (cfg_admin_keys c);
  sf_members : Forall (fun raw => exists x, MemberCertificate_from_bytes raw = Ok x /\ mc_serial (payload x) < serial)
                 (cfg_members c);
}.
Lemma next_serial_fresh c serial : next_serial c = Ok serial -> serial_fresh c serial.
Proof.
  unfold next_serial; destruct (fold_max_le (cfg_revoked_serials c) 0) as [H0 Hr].
  generalize dependent (fold_left Z.max (cfg_revoked_serials c) 0); intros n0 H0 Hr Hn.
  apply bind_Ok in Hn as (n1 & [H1 Ha]%(max_fold_Ok (fun k => map_err AuCrypto (AdminCertificate_from_bytes (ak_certificate k)))
    (fun x => adm_serial (payload x))) & Hn).
  apply bind_Ok in Hn as (n2 & [H2 Hm]%(max_fold_Ok (fun raw => map_err AuCrypto (MemberCertificate_from_bytes raw))
    (fun x => mc_serial (payload x))) & Hs%ok_or_Ok).
  unfold checked_add in Hs; destruct (_ <=? _) eqn:Hle; [|done]; injection Hs as <-; bool_inv; constructor; [lia|..].
  - eapply Forall_impl; [exact Hr|]; cbn; lia.
  - eapply Forall_impl; [exact Ha|]; cbn; intros k (x & Hx%map_err_Ok & ?); exists x; split; [done | lia].
  - eapply Forall_impl; [exact Hm|]; cbn; intros k (x & Hx%map_err_Ok & ?); exists x; split; [done | lia].
Qed.
End serials.

Section ops.
Context `{Ed25519} `{Blake3} `{Aead} `{Hpke} `{Platform} {S K : Type} `{StateStore S} `{SecretStore K}.
#[local] Abbreviation authority := (Authority S K).
Implicit Types (a : authority) (now : Z) (ent : entropy) (m : records).

(** ** The identity of the authority never changes *)
Definition same_identity a a' : Prop :=
  au_root_public a' = au_root_public a /\ au_online_admin a' = au_online_admin a /\
  au_verified_admin a' = au_verified_admin a /\ au_admin_certificate a' = au_admin_certificate a /\
  au_member_encryption a' = au_member_encryption a /\ as_network_id (au_status a') = as_network_id (au_status a).
#[global] Instance same_identity_preorder : PreOrder same_identity.
Proof. split; [intros a; by repeat split | intros a b c; unfold same_identity; intuition congruence]. Qed.

Lemma commit_config_identity a next now ent a' r : commit_config a next now ent = (a', r) -> same_identity a a'.
Proof.
  unfold commit_config; destruct (prepare_commit _ _ _ _) as [[[e o] b]|]; [|by intros [= <- <-]].
  destruct (commit _ _) as [s [v|]]; [|by intros [= <- <-]].
  destruct (read_commit_back _ _ _ _) as [[ev hv]|]; by intros [= <- <-].
Qed.
(** The administrator certificate the authority carries is its own, and was
    verified at time [t]. *)
Definition administers a (t : Z) : Prop :=
  exists ac, AdminCertificate_from_bytes (au_admin_certificate a) = Ok ac /\ au_verified_admin a = as_admin ac /\
    admin_trusted ac (au_root_public a) (as_network_id (au_status a)) t ∅ /\
    adm_public_key (payload ac) = OnlineAdminKey_public_bytes (au_online_admin a).
Lemma administers_same a a' t : same_identity a a' -> administers a t -> administers a' t.
Proof.
  intros (Hr & Ho & Hv & Hc & _ & Hn) (ac & ? & ? & ? & ?); exists ac; by rewrite Hr, Ho, Hv, Hc, Hn.
Qed.
Lemma open_administers s k file t s' a : Authority_open s k file t = (s', Ok a) -> administers a t.
Proof.
  intros Ho; unfold Authority_open in Ho.
  destruct (load_authority s k file t) as [[[[[[[[[mf root] enc] esk] admin] va] er] hr] o]|] eqn:Hl; [|done].
  destruct (migrate_history _ _ _ _) as [s1 [[]|]]; [|done]; injection Ho as <- Ho.
  apply bind_Ok in Ho as (vadm & _ & Ho); apply bind_Ok in Ho as (u & _ & <-%Ok_inj).
  unfold load_authority in Hl; do 16 (apply bind_Ok in Hl as (? & _ & Hl)).
  apply bind_Ok in Hl as (ac & Hac%map_err_Ok & Hl); apply bind_Ok in Hl as (va' & [-> Ht]%map_err_Ok%AdminCertificate_verify_Ok & Hl).
  apply bind_Ok in Hl as (u3 & Hk%fail_if_Ok & Hl); bool_inv; do 3 (apply bind_Ok in Hl as (? & _ & Hl)).
  injection Hl as <- <- <- <- <- <- <- <- <-; exists ac; split_and!; done.
Qed.

(** ** Invitations *)

Lemma cert_blob {P} `{Codec P CertificateError} {n : nat} (c : Signed P) :
  (forall p, wire_wf p -> length (encode p) = n) -> Nat.leb n 4096 = true -> cert_wf c -> blob_wf (to_bytes c).
Proof.
  intros Hn Hle%Nat.leb_le (Hw & Hs & Hg); unfold blob_wf, to_bytes, append_signature, len, MAX_VALUE_LEN, SIGNATURE_LEN in *.
  rewrite length_app, Hs, Hn, Hg by done; lia.
Qed.

(** What [invite_member] has checked and issued before it commits. *)
Record admitted a (request : JoinRequest) (binding : EndpointBinding) (roles now ex : Z) (mem : MemberCertificate)
    : Prop := {
  ad_expires : now < ex <= jr_expires_at_ms (payload request) /\ ex <= adm_expires_at_ms (va_payload (au_verified_admin a));
  ad_issued : exists serial, next_serial (vc_inner (au_config a)) = Ok serial /\
    MemberCertificate_issue_by_admin (au_online_admin a) (va_payload (au_verified_admin a))
      (jr_signing_public_key (payload request)) (jr_encryption_public_key (payload request)) roles serial now ex = Ok mem;
  ad_verified : MemberCertificate_verify_with_admin mem (au_verified_admin a) (as_network_id (au_status a)) now ∅
      = Ok (mkVerifiedMember (payload mem));
  ad_endpoint : EndpointBinding_verify binding (mkVerifiedMember (payload mem)) (as_network_id (au_status a))
      (jr_endpoint_id (payload request)) now = Ok tt;
}.
Lemma admit_member_Ok a request binding roles now valid_for req ex mem :
  is_u64 now = true -> admit_member a request binding roles now valid_for = Ok (req, ex, mem) ->
  req = payload request /\ ex <= U64_MAX /\ admitted a request binding roles now ex mem.
Proof.
  intros Hnow Ha; unfold admit_member in Ha; cbv zeta in Ha.
  apply bind_Ok in Ha as (vr & Hvr%map_err_Ok & Ha).
  assert (vjr_payload vr = payload request) as Hp by (unfold JoinRequest_verify in Hvr; res_inv; done); rewrite Hp in Ha.
  apply bind_Ok in Ha as (u1 & Hroles%fail_if_Ok & Ha); apply bind_Ok in Ha as (ex0 & Hex0%ok_or_Ok & Ha).
  apply bind_Ok in Ha as (u2 & Hex%fail_if_Ok & Ha); apply bind_Ok in Ha as (u3 & _ & Ha).
  apply bind_Ok in Ha as (u4 & _ & Ha); apply bind_Ok in Ha as (serial & Hser & Ha).
  apply bind_Ok in Ha as (mem' & Hmem%map_err_Ok & Ha); apply bind_Ok in Ha as (vm & Hvm%map_err_Ok & Ha).
  apply bind_Ok in Ha as ([] & Hend%map_err_Ok & [= <- <- <-]).
  pose proof Hvm as [-> _]%MemberCertificate_verify_with_admin_Ok.
  unfold checked_add in Hex0; destruct (_ <=? U64_MAX) eqn:Hle; [|done]; injection Hex0 as <-; bool_inv.
  split_and!; [done | lia | constructor; eauto; lia].
Qed.

Lemma commit_random_Ok a next now ent a' status :
  commit_random a next now ent = (a', Ok status) ->
  exists c ent', next ent = Ok (c, ent') /\ commit_config a c now ent' = (a', Ok status).
Proof. unfold commit_random; destruct (next ent) as [[c ent']|] eqn:Hn; [eauto | done]. Qed.

Lemma prepare_next_epoch_Ok c head now ent next ent' :
  prepare_next_epoch c head now ent = Ok (next, ent') ->
  exists secrets, next = with_revision c (cfg_epoch c + 1) (cfg_revision c + 1) (head_hash head) now secrets.
Proof.
  intros Hp; unfold prepare_next_epoch in Hp; do 3 rnd_inv Hp; injection Hp as <- <-; exists a1.
  apply ok_or_Ok in Ha, Ha0; unfold checked_add in *.
  destruct (_ <=? _) in Ha; [|done]; destruct (_ <=? _) in Ha0; [|done]; by injection Ha as <-; injection Ha0 as <-.
Qed.

(** ** Revocation *)
Lemma member_position_Ok id raws pos :
  member_position id raws = Some pos ->
  exists raw mem, raws !! pos = Some raw /\ MemberCertificate_from_bytes raw = Ok mem /\ mc_member_id (payload mem) = id.
Proof.
  revert pos; induction raws as [|raw raws IH]; cbn; intros pos Hp; [done|].
  destruct (MemberCertificate_from_bytes raw) as [mem|] eqn:Hm; [case_bool_decide as Hid|].
  - injection Hp as <-; by exists raw, mem.
  - apply fmap_Some in Hp as (p & Hp & ->); destruct (IH _ Hp) as (r & mm & ? & ? & ?); by exists r, mm.
  - apply fmap_Some in Hp as (p & Hp & ->); destruct (IH _ Hp) as (r & mm & ? & ? & ?); by exists r, mm.
Qed.
Lemma elem_of_remove_at {A} i (xs : list A) x : x ∈ remove_at i xs -> exists j, j <> i /\ xs !! j = Some x.
Proof.
  unfold remove_at; intros [Hx|Hx]%elem_of_app; apply list_elem_of_lookup_1 in Hx as [j Hj].
  - apply lookup_take_Some in Hj as [? ?]; exists j; split; [lia | done].
  - rewrite lookup_drop in Hj; exists (Datatypes.S i + j)%nat; split; [lia | done].
Qed.

(** A configuration without a member. *)
Record excludes (id : MemberId) (c : NetworkConfigV1) : Prop := {
  xc_members : forall raw x, raw ∈ cfg_members c -> MemberCertificate_from_bytes raw = Ok x -> mc_member_id (payload x) <> id;
  xc_endpoints : forall raw x, raw ∈ cfg_endpoint_bindings c -> EndpointBinding_from_bytes raw = Ok x ->
    eb_member_id (payload x) <> id;
  xc_bindings : forall raw x, raw ∈ cfg_app_bindings c -> AppBinding_from_bytes raw = Ok x -> ab_subject (payload x) <> id;
}.
Lemma elem_of_retain_parsed {E A} (parse : bytes -> result E A) p raws raw x :
  raw ∈ retain_parsed parse p raws -> parse raw = Ok x -> p x = true.
Proof. unfold retain_parsed; intros [_ Hp]%elem_of_retain Hx; by rewrite Hx in Hp. Qed.

Lemma without_member_Ok a id c root net t :
  config_valid (vc_inner (au_config a)) root net t -> without_member a id = Ok c ->
  exists raw removed, raw ∈ cfg_members (vc_inner (au_config a)) /\ MemberCertificate_from_bytes raw = Ok removed /\
    mc_member_id (payload removed) = id /\ mc_encryption_public_key (payload removed) <> ek_public (au_member_encryption a) /\
    excludes id c /\ mc_serial (payload removed) ∈ cfg_revoked_serials c /\ cfg_epoch c = cfg_epoch (vc_inner (au_config a)) /\
    (forall raw' x, raw' ∈ cfg_endpoint_bindings (vc_inner (au_config a)) -> EndpointBinding_from_bytes raw' = Ok x ->
       eb_member_id (payload x) = id -> eb_endpoint_id (payload x) ∉ rd_endpoint_id <$> cfg_relays c).
Proof.
  intros Hv Hw; unfold without_member in Hw; cbv zeta in Hw.
  apply bind_Ok in Hw as (pos & Hpos%ok_or_Ok & Hw); apply bind_Ok in Hw as (removed & Hrem%map_err_Ok & Hw).
  apply bind_Ok in Hw as (u & Hown%fail_if_Ok & Hw); apply bind_Ok in Hw as (u' & _ & <-%Ok_inj); bool_inv.
  destruct (member_position_Ok _ _ _ Hpos) as (raw & mem & Hraw & Hmem & Hid).
  rewrite (nth_lookup_Some _ _ _ _ Hraw), Hmem in Hrem; apply Ok_inj in Hrem as <-.
  destruct (va_credentials _ _ _ _ Hv) as (cr & Hp & Hcv); exists raw, mem; split_and!; try done.
  - by eapply list_elem_of_lookup_2.
  - constructor; cbn.
    + intros raw' x (j & Hj & Hraw')%elem_of_remove_at Hx Heq; apply Hj.
      destruct (Forall2_lookup_l _ _ _ _ _ (sp_members _ _ Hp) Hraw) as (x1 & Hx1 & Hp1).
      destruct (Forall2_lookup_l _ _ _ _ _ (sp_members _ _ Hp) Hraw') as (x2 & Hx2 & Hp2).
      rewrite Hmem in Hp1; apply Ok_inj in Hp1 as <-; rewrite Hx in Hp2; apply Ok_inj in Hp2 as <-.
      eapply (NoDup_lookup _ _ _ _ (cv_unique_members _ _ _ _ _ Hcv)); rewrite list_lookup_fmap, ?Hx1, ?Hx2; cbn; [reflexivity|].
      by rewrite Hid, Heq.
    + intros raw' x Hin Hx; by pose proof (elem_of_retain_parsed _ _ _ _ _ Hin Hx) as ?%negb_true_iff%bool_decide_eq_false.
    + intros raw' x Hin Hx; by pose proof (elem_of_retain_parsed _ _ _ _ _ Hin Hx) as ?%negb_true_iff%bool_decide_eq_false.
  - cbn; rewrite merge_sort_Permutation; apply elem_of_app; right; by apply list_elem_of_singleton.
  - cbn; intros raw' x Hin Hx Hxid (r & Hr & Hrel)%list_elem_of_fmap.
    apply elem_of_retain in Hrel as [_ Hrel]; apply negb_true_iff, bool_decide_eq_false in Hrel; apply Hrel.
    rewrite <- Hr; apply elem_of_list_to_set, list_elem_of_omap; exists raw'; split; [done|]; rewrite Hx; by rewrite bool_decide_true.
Qed.

(** ** Expired members *)

(** The snapshot lists a member certificate that has expired. *)
Definition expired_member (c : NetworkConfigV1) (raw : bytes) (mem : MemberCertificate) now : Prop :=
  raw ∈ cfg_members c /\ MemberCertificate_from_bytes raw = Ok mem /\ mc_expires_at_ms (payload mem) <= now.

Lemma expired_member_invalid c raw mem now root net : expired_member c raw mem now -> ~ config_valid c root net now.
Proof.
  intros (Hin & Hp & Hex) Hv; destruct (va_credentials _ _ _ _ Hv) as (cr & Hcr & Hcv).
  apply list_elem_of_lookup_1 in Hin as [i Hi]; destruct (Forall2_lookup_l _ _ _ _ _ (sp_members _ _ Hcr) Hi) as (x & Hx & Hpx).
  rewrite Hp in Hpx; apply Ok_inj in Hpx as <-; pose proof (Forall_lookup_1 _ _ _ _ (cv_members _ _ _ _ _ Hcv) Hx) as Hvm.
  destruct Hvm as [[_ _ _ _ ? _ _] | (_ & ac & _ & [_ _ _ _ _ _ ? _ _])]; lia.
Qed.
Lemma expired_seal_refused a next now ent raw mem x :
  expired_member next raw mem now -> cfg_issued_at_ms next = now -> seal_revision a next now ent <> Ok x.
Proof.
  intros Hex Hnow Hp; apply bind_Ok in Hp as (recipients & _ & Hp).
  apply bind_Ok in Hp as (e' & Hs%map_err_Ok & _); apply bind_Ok in Hs as ([e2 ent'] & Hs & _).
  apply seal_next_config_Ok in Hs as (va & pt & Hsu); eapply expired_member_invalid; [exact Hex|].
  rewrite <- Hnow; apply Hsu.
Qed.
Lemma expired_commit_refused a next now ent raw mem :
  expired_member next raw mem now -> cfg_issued_at_ms next = now -> exists e, commit_config a next now ent = (a, Err e).
Proof.
  intros Hex Hnow; unfold commit_config; destruct (prepare_commit a next now ent) as [[[e o] b]|] eqn:Hp; [|eauto].
  exfalso; apply bind_Ok in Hp as (x & Hp & _); by eapply expired_seal_refused.
Qed.

Lemma prepare_next_revision_Ok c head now next :
  prepare_next_revision c head now = Ok next ->
  next = with_revision c (cfg_epoch c) (cfg_revision c + 1) (head_hash head) now (cfg_epoch_secrets c).
Proof.
  intros Hp; apply bind_Ok in Hp as (rev & Hrev%ok_or_Ok & <-%Ok_inj); unfold checked_add in Hrev.
  destruct (_ <=? _); [|done]; by injection Hrev as <-.
Qed.

Definition keeps_expired (c : NetworkConfigV1) (raw : bytes) now : Prop := raw ∈ cfg_members c /\ cfg_issued_at_ms c = now.
Lemma prepared_locked a next now ent raw mem :
  expired_member (vc_inner (au_config a)) raw mem now -> (forall c, next = Ok c -> keeps_expired c raw now) ->
  exists e, outcome (commit_prepared a next now ent) = (a, Some e).
Proof.
  intros (_ & Hp & He) Hk; unfold commit_prepared; destruct next as [c|]; [|by eexists]; destruct (Hk c eq_refl) as [Hin Hn].
  destruct (expired_commit_refused a c now ent raw mem) as [e ->]; [done..|]; by exists e.
Qed.
Lemma random_locked a next now ent raw mem :
  expired_member (vc_inner (au_config a)) raw mem now -> (forall c ent', next ent = Ok (c, ent') -> keeps_expired c raw now) ->
  exists e, outcome (commit_random a next now ent) = (a, Some e).
Proof.
  intros (_ & Hp & He) Hk; unfold commit_random; destruct (next ent) as [[c ent']|]; [|by eexists].
  destruct (Hk c ent' eq_refl) as [Hin Hn]; destruct (expired_commit_refused a c now ent' raw mem) as [e ->]; [done..|]; by exists e.
Qed.

Lemma without_member_subset a id c raw :
  without_member a id = Ok c -> raw ∈ cfg_members c -> raw ∈ cfg_members (vc_inner (au_config a)).
Proof.
  intros Hw Hin; unfold without_member in Hw; cbv zeta in Hw; do 4 (apply bind_Ok in Hw as (? & _ & Hw)).
  apply Ok_inj in Hw as <-; cbn in Hin; apply elem_of_remove_at in Hin as (j & _ & Hj); by eapply list_elem_of_lookup_2.
Qed.
Lemma without_member_keeps a id c raw mem :
  without_member a id = Ok c -> raw ∈ cfg_members (vc_inner (au_config a)) -> MemberCertificate_from_bytes raw = Ok mem ->
  mc_member_id (payload mem) <> id -> raw ∈ cfg_members c.
Proof.
  intros Hw Hin Hp Hne; unfold without_member in Hw; cbv zeta in Hw; apply bind_Ok in Hw as (pos & Hpos%ok_or_Ok & Hw).
  do 3 (apply bind_Ok in Hw as (? & _ & Hw)); apply Ok_inj in Hw as <-; cbn; unfold remove_at.
  destruct (member_position_Ok _ _ _ Hpos) as (raw' & mem' & Hraw & Hmem & Hid).
  apply list_elem_of_lookup_1 in Hin as [j Hj].
  assert (j <> pos) as Hjp by (intros ->; congruence); apply elem_of_app; destruct (decide (j < pos)%nat); [left | right].
  - apply (list_elem_of_lookup_2 _ j); by rewrite lookup_take_lt.
  - apply (list_elem_of_lookup_2 _ (j - Datatypes.S pos)); rewrite lookup_drop; by replace (_ + _)%nat with j by lia.
Qed.

Ltac expired_kept :=
  match goal with Hn : prepare_next_revision _ _ _ = Ok _ |- _ => apply prepare_next_revision_Ok in Hn as -> end; done.

Lemma handle_locked a r now ent raw mem :
  expired_member (vc_inner (au_config a)) raw mem now -> (forall id, r = RevokeMember id -> mc_member_id (payload mem) <> id) ->
  exists e, handle_outcome a r now ent = (a, Some e).
Proof.
  intros Hex Hid; pose proof Hex as (Hin & Hp & _); destruct r; cbn [handle_outcome].
  - unfold invite_member; destruct (admit_member _ _ _ _ _ _) as [[[req ex] mm]|]; [|by eexists]; cbv zeta.
    match goal with |- context [commit_random a ?p now ent] => destruct (random_locked a p now ent raw mem Hex) as [e He] end.
    { intros c ent' [secrets ->]%prepare_next_epoch_Ok; split; cbn; try done; set_solver. }
    destruct (commit_random _ _ _ _) as [a' [st|e']]; [done|]; injection He as -> ->; by exists e.
  - apply (random_locked a _ now ent raw mem Hex); intros c ent' (c0 & ent1 & [Hw ->]%rlift_Ok & [secrets ->]%prepare_next_epoch_Ok)%rnd_bind_Ok.
    split; [|done]; cbn; eapply without_member_keeps; try done; by apply Hid.
  - unfold register_app; match goal with |- context [match ?p with _ => _ end] => destruct p as [[reg next]|] eqn:Hpr end; [|by eexists].
    res_inv; match goal with Hn : prepare_next_revision _ _ _ = Ok _ |- _ => apply prepare_next_revision_Ok in Hn end.
    destruct (expired_commit_refused a next now ent raw mem) as [e ->]; [subst next; by destruct Hex as (? & ? & ?) | by subst next | by exists e].
  - apply (prepared_locked a _ now ent raw mem Hex); by intros c ->%prepare_next_revision_Ok.
  - apply (prepared_locked a _ now ent raw mem Hex); intros c Hc; cbv zeta in Hc; res_inv; expired_kept.
  - apply (prepared_locked a _ now ent raw mem Hex); intros c Hc; cbv zeta in Hc; res_inv; expired_kept.
  - apply (prepared_locked a _ now ent raw mem Hex); intros c Hc; cbv zeta in Hc; res_inv; expired_kept.
  - apply (prepared_locked a _ now ent raw mem Hex); intros c Hc; cbv zeta in Hc; res_inv; expired_kept.
Qed.

Section laws.
Context `{Led : !Ed25519Laws} `{Lblake : !Blake3Laws} `{Laead : !AeadLaws} `{Lhpke : !HpkeLaws}.
Context `{Lexcl : !HpkeExclusive} `{Lstore : !StateStoreLaws S}.

Lemma serve_identity a rs m e0 es el :
  chain_inv a m e0 es el -> Forall (fun x => request_typed x.1.1 /\ is_u64 x.1.2 = true) rs ->
  same_identity a (serve a rs).
Proof.
  intros Hi Hrs; revert a m es el Hi; induction Hrs as [|[[r now] ent] rs [Hr Hn] _ IH]; intros a m es el Hi; [done|].
  cbn in *; pose proof (handle_cases a r now ent (ci_typed _ _ _ _ _ Hi) Hr Hn) as Hc.
  destruct (commits_preserves_inv _ _ _ _ _ _ _ Hi Hc) as (m1 & es1 & el1 & Hi1 & _).
  etrans; [|by eapply IH]; destruct Hc as [-> | (next & ent' & res & _ & Hc)]; [done | by eapply commit_config_identity].
Qed.

(** What holds of an authority from the moment it is opened, whatever it serves. *)
Record running a t : Prop := {
  rn_chain : exists m e0 es el, chain_inv a m e0 es el;
  rn_admin : administers a t;
}.
Lemma serve_running s m k file t s' a rs :
  store_rep s m -> Authority_open s k file t = (s', Ok a) ->
  Forall (fun x => request_typed x.1.1 /\ is_u64 x.1.2 = true) rs -> running (serve a rs) t.
Proof.
  intros Hrep Ho Hrs; destruct (open_establishes_inv _ _ _ _ _ _ _ Hrep Ho) as (m0 & e0 & Hi); constructor.
  - destruct (serve_preserves_inv _ _ _ _ _ _ Hi Hrs) as (m' & es & el & Hi' & _); eauto.
  - eapply administers_same; [by eapply serve_identity | by eapply open_administers].
Qed.

(** A successful commit, seen from the outside. *)
Lemma commit_config_Ok a m next now ent a' status :
  store_rep (au_state a) m -> authority_typed a -> config_typed next -> commit_config a next now ent = (a', Ok status) ->
  exists e m', extends a next now e /\ next_envelope a next now e (mkOpenedNetworkConfig (mkValidated next) (envelope_head e)) /\
    store_rep (au_state a') m' /\ commit_effect a m e m' /\ au_config a' = mkValidated next /\
    au_status a' = status /\ as_head status = envelope_head e.
Proof.
  intros Hrep Hty Ht Hc; destruct (commit_cases _ _ _ _ _ _ _ Hrep Hty Ht Hc)
    as [(_ & _ & x & ? & _) | (e & m' & Hne & Hce & Hr & [([x ?] & _) | (Hst & ev & hv & Ha & _)])]; try done.
  injection Hst as ->; exists e, m'; split_and!; try done; [by eapply next_envelope_extends | by rewrite Ha..].
Qed.

(** What the authority signs verifies until its certificate expires. *)
Lemma administers_later a t now :
  administers a t -> t <= now < adm_expires_at_ms (va_payload (au_verified_admin a)) -> authority_typed a ->
  exists ac, AdminCertificate_from_bytes (au_admin_certificate a) = Ok ac /\ au_verified_admin a = as_admin ac /\
    AdminCertificate_verify ac (au_root_public a) (as_network_id (au_status a)) now ∅ = Ok (as_admin ac) /\
    adm_key_id (payload ac) = OnlineAdminKey_key_id (au_online_admin a) /\
    forall msg, VerifiedAdmin_verify_bytes (as_admin ac) msg (OnlineAdminKey_sign_bytes (au_online_admin a) msg) = Ok tt.
Proof.
  intros (ac & Hac & Hva & Htr & Hkey) Htn Hty; exists ac; split_and!; try done.
  - apply AdminCertificate_verify_Ok; split; [done|].
    destruct Htr as [? ? ? ? ? [? ?] ? ?]; constructor; try done; rewrite Hva in *; cbn in *; lia.
  - by rewrite (at_key_id _ _ _ _ _ Htr), Hkey.
  - intros msg; apply verify_signature_Ok; cbn; rewrite Hkey; apply ed_verify_sign, Hty.
Qed.

(** The ticket issued for a committed envelope is well-formed and verifies. *)
Lemma issued_ticket_valid a t now ex request binding roles mem e tk :
  administers a t -> t <= now -> authority_typed a -> is_u64 ex = true -> envelope_wf e ->
  env_network_id e = as_network_id (au_status a) -> len (Envelope_to_bytes e) <= MAX_VALUE_LEN ->
  cert_wf request -> cert_wf binding -> cert_wf mem -> admitted a request binding roles now ex mem ->
  Ticket_issue (au_online_admin a) (as_network_id (au_status a)) (jr_nonce (payload request)) ex (envelope_head e)
    (au_admin_certificate a) (to_bytes mem) (to_bytes binding) (Envelope_to_bytes e) = Ok tk ->
  Ticket_from_bytes (Ticket_to_bytes tk) = Ok tk /\
  Ticket_verify tk (au_root_public a) (as_network_id (au_status a)) (jr_nonce (payload request))
    (jr_endpoint_id (payload request)) now = Ok tt.
Proof.
  intros Hadm Htn Hty Hex Hw Hnet Hsize Hreq Hbind Hmem Had Htk.
  destruct (administers_later a t now) as (ac & Hac & Hva & Hvac & Hkid & Hvb); [done | destruct Had; lia | done|].
  pose proof Hac as [Hwac Hraw]%AdminCertificate_from_bytes_exact.
  assert (Hblobs : blob_wf (au_admin_certificate a) /\ blob_wf (to_bytes mem) /\ blob_wf (to_bytes binding) /\
    blob_wf (Envelope_to_bytes e)).
  { rewrite Hraw; split_and!; [by eapply cert_blob; [apply admin_payload_length | reflexivity|]
      | by eapply cert_blob; [apply member_payload_length | reflexivity|]
      | by eapply cert_blob; [apply endpoint_payload_length | reflexivity|] | split; [|done]].
    unfold Envelope_to_bytes, len; rewrite length_app, (ew_signature _ Hw); unfold SIGNATURE_LEN; lia. }
  destruct Hblobs as (Hb1 & Hb2 & Hb3 & Hb4); unfold Ticket_issue in Htk.
  apply bind_Ok in Htk as (signed & Hs & <-%Ok_inj); split.
  - apply Ticket_from_bytes_exact; split; [|done]; destruct Hreq as [(_ & _ & _ & _ & _ & Hnonce & _) _].
    constructor; cbn; try done; [apply Hty | apply Hw.. | apply blake3_hash_len | apply derive_key_id_len | apply ed_sign_len, Hty].
  - unfold Ticket_verify; cbn; destruct Had as [[? ?] _ Hv1 Hv2]; destruct Hty.
    apply bind_Ok; exists tt; split; [apply fail_if_Ok; passes|].
    rewrite Hac; cbn [map_err mbind result_bind].
    rewrite Hvac; cbn [map_err mbind result_bind].
    apply bind_Ok; exists tt; split; [apply fail_if_Ok; apply negb_false_iff, bool_decide_eq_true; by cbn|].
    rewrite Hva in *; apply bind_Ok; exists tt; split; [apply map_err_Ok, Hvb|].
    rewrite (proj2 (MemberCertificate_from_bytes_exact _ mem)) by done; cbn [map_err mbind result_bind].
    rewrite Hv1; cbn [map_err mbind result_bind].
    rewrite (proj2 (EndpointBinding_from_bytes_exact _ binding)) by done; cbn [map_err mbind result_bind].
    rewrite Hv2; cbn [map_err mbind result_bind].
    rewrite (proj2 (Envelope_from_bytes_exact _ e)) by done; cbn [map_err mbind result_bind].
    apply fail_if_Ok; rewrite !Z.eqb_refl, !bool_decide_true by done; done.
Qed.

Lemma admitted_wf a t now ex request binding roles mem :
  administers a t -> authority_typed a -> is_u64 now = true -> is_u64 ex = true -> is_u32 roles = true -> cert_wf request ->
  admitted a request binding roles now ex mem ->
  cert_wf mem /\ mc_signing_public_key (payload mem) = jr_signing_public_key (payload request) /\
  mc_encryption_public_key (payload mem) = jr_encryption_public_key (payload request) /\
  mc_roles (payload mem) = roles /\ mc_expires_at_ms (payload mem) = ex /\
  serial_fresh (vc_inner (au_config a)) (mc_serial (payload mem)).
Proof.
  intros (ac & _ & Hva & Htr & _) Hty Hn He Hr [(_ & _ & Hsk & Hek & _) _] [_ (serial & Hser%next_serial_fresh & Hi) _ _].
  assert (is_u64 serial = true) by (destruct Hser as [[? ?] _ _ _]; unfold U64_MAX, in_range in *; passes).
  rewrite Hva in Hi; apply MemberCertificate_issue_by_admin_wf in Hi
    as (? & _ & _ & ? & ? & ? & Hms & _ & ? & _); try done; try apply Hty.
  - by rewrite Hms.
  - cbn; rewrite (at_network _ _ _ _ _ Htr); apply Hty.
Qed.

Lemma open_valid s m k file t s' a :
  store_rep s m -> Authority_open s k file t = (s', Ok a) -> exists root net, config_valid (vc_inner (au_config a)) root net t.
Proof.
  intros Hrep Ho; unfold Authority_open in Ho.
  destruct (load_authority s k file t) as [[[[[[[[[mf root] enc] esk] admin] va] er] hr] o]|] eqn:Hl; [|done].
  apply (load_authority_Ok _ m) in Hl as (e & Hl); [|done].
  destruct (migrate_history _ _ _ _) as [s1 [[]|]]; [|done]; injection Ho as <- Ho.
  apply bind_Ok in Ho as (vadm & _ & Ho); apply bind_Ok in Ho as (u & _ & <-%Ok_inj).
  eexists _, _; apply (ld_opened _ _ _ _ _ _ _ _ _ _ Hl).
Qed.

(** The effect of a successful invitation. *)
Lemma invite_member_Ok a t m request binding roles now valid_for ent a' tk :
  administers a t -> t <= now -> authority_typed a -> store_rep (au_state a) m ->
  is_u64 now = true -> is_u32 roles = true -> cert_wf request -> cert_wf binding ->
  invite_member a request binding roles now valid_for ent = (a', Ok tk) ->
  exists mem ex, admitted a request binding roles now ex mem /\ is_u64 ex = true /\
    Ticket_from_bytes (Ticket_to_bytes tk) = Ok tk /\
    Ticket_verify tk (au_root_public a) (as_network_id (au_status a)) (jr_nonce (payload request))
      (jr_endpoint_id (payload request)) now = Ok tt /\
    tk_member_certificate tk = to_bytes mem /\ tk_config_head tk = as_head (au_status a') /\
    cfg_members (vc_inner (au_config a')) = cfg_members (vc_inner (au_config a)) ++ [to_bytes mem] /\
    cfg_epoch (vc_inner (au_config a')) = cfg_epoch (vc_inner (au_config a)) + 1.
Proof.
  intros Had Htn Hty Hrep Hn Hro Hreq Hbind Hi; unfold invite_member in Hi.
  destruct (admit_member a request binding roles now valid_for) as [[[req ex] mem]|] eqn:Ha; [|done].
  apply admit_member_Ok in Ha as (-> & Hex & Hadm); [|done].
  assert (is_u64 ex = true) as Hex' by (destruct Hadm as [[? _] _ _ _]; unfold U64_MAX, in_range in *; bool_inv; passes).
  cbv zeta in Hi; match type of Hi with context [commit_random a ?p now ent] =>
    destruct (commit_random a p now ent) as [a1 [st|x]] eqn:Hc end; [|done].
  apply commit_random_Ok in Hc as (next & ent' & Hp & Hc).
  assert (config_typed next) as Ht.
  { eapply prepare_next_epoch_typed; [| | |exact Hp]; [apply with_members_typed; apply Hty | apply Hty | done]. }
  apply prepare_next_epoch_Ok in Hp as [secrets Hnext].
  destruct (commit_config_Ok _ _ _ _ _ _ _ Hrep Hty Ht Hc) as (e & m' & Hex1 & Hne & Hr' & Hce & Hcfg & Hst & Hhead).
  pose proof (commit_config_identity _ _ _ _ _ _ Hc) as (_ & Hon & _ & Hcert & _ & Hnet).
  apply pair_equal_spec in Hi as [<- Hi]; rewrite au_envelope_key_Ok in Hi; cbn [map_err mbind result_bind] in Hi.
  apply bind_Ok in Hi as (o & Ho%map_err_Ok & Hi); apply bind_Ok in Hi as (rec & Hrec%ok_or_Ok & Hi); subst o.
  pose proof (ce_envelope _ _ _ _ Hce) as Henv; unfold au_scope in Henv; rewrite <- Hnet in Henv.
  assert (scope_wf (StoreScope_authority (as_network_id (au_status a1)))) as Hsc by (rewrite Hnet; apply Hty).
  rewrite <- (read_rep _ _ _ _ _ Hr' Hsc Ho) in Henv; cbn in Henv; injection Henv as Henv.
  rewrite Henv, Hon, Hcert, Hnet, Hhead in Hi; destruct (admitted_wf _ _ _ _ _ _ _ _ Had Hty Hn Hex' Hro Hreq Hadm) as (Hwm & _).
  destruct (issued_ticket_valid a t now ex request binding roles mem e tk) as [Hrt Hver]; try done;
    [apply Hex1 | apply Hex1 | apply Hne|].
  exists mem, ex; rewrite Hst, Hhead, Hcfg, Hnext; split_and!; try done.
  all: unfold Ticket_issue in Hi; apply bind_Ok in Hi as (sb & _ & <-%Ok_inj); done.
Qed.

(** ** Names *)
Lemma commit_prepared_Ok a next now ent a' status :
  commit_prepared a next now ent = (a', Ok status) -> exists c, next = Ok c /\ commit_config a c now ent = (a', Ok status).
Proof. unfold commit_prepared; destruct next; [eauto | done]. Qed.

(** [name_table c c' name entry]: [c'] has the names of [c] except [name], which has [entry]. *)
Definition renamed (c c' : NetworkConfigV1) (name : VirtualName) (entry : option (AppAddr * Z)) : Prop :=
  cfg_virtual_dns c' ≡ₚ List.filter (fun r => negb (bool_decide (dns_name r = name))) (cfg_virtual_dns c)
    ++ match entry with Some (app, ex) => [mkVirtualDnsRecord name app ex] | None => [] end.

Lemma renamed_resolves c c' name entry root net root' net' t0 t1 n t :
  renamed c c' name entry -> config_valid c root net t0 -> config_valid c' root' net' t1 ->
  resolve_virtual_name (mkValidated c') n t =
    if bool_decide (n = name) then entry ≫= fun e => if t <? e.2 then Some e.1 else None
    else resolve_virtual_name (mkValidated c) n t.
Proof.
  intros Hr Hv Hv'; destruct (va_credentials _ _ _ _ Hv) as (cr & _ & Hc), (va_credentials _ _ _ _ Hv') as (cr' & _ & Hc').
  apply option_eq; intros app; unfold resolve_virtual_name; cbn [vc_inner].
  rewrite (find_dns_Some _ _ _ _ (cv_unique_names _ _ _ _ _ Hc')).
  setoid_rewrite Hr; setoid_rewrite elem_of_app; setoid_rewrite elem_of_retain; setoid_rewrite negb_true_iff.
  setoid_rewrite bool_decide_eq_false; case_bool_decide as Hn.
  - subst n; split.
    + intros (r & [(_ & Hne) | Hin] & ? & Ht & <-); [done|]; destruct entry as [[app' ex]|]; [|by apply elem_of_nil in Hin].
      apply list_elem_of_singleton in Hin as ->; cbn in *; by rewrite (proj2 (Z.ltb_lt _ _) Ht).
    + destruct entry as [[app' ex]|]; cbn; [|done]; destruct (t <? ex) eqn:Ht; [|done]; intros [= <-]; apply Z.ltb_lt in Ht.
      exists (mkVirtualDnsRecord name app' ex); split_and!; try done; right; by apply list_elem_of_singleton.
  - rewrite (find_dns_Some _ _ _ _ (cv_unique_names _ _ _ _ _ Hc)); split.
    + intros (r & [(Hin & _) | Hin] & Hrn & ? & ?); [by exists r|].
      destruct entry as [[app' ex]|]; [|by apply elem_of_nil in Hin]; apply list_elem_of_singleton in Hin as ->; by cbn in Hrn.
    + intros (r & Hin & Hrn & ? & ?); exists r; split_and!; try done; left; split; [done | congruence].
Qed.

Lemma set_virtual_dns_Ok a m name app ex now ent a' status :
  authority_typed a -> store_rep (au_state a) m -> request_typed (SetVirtualDns name app ex) -> is_u64 now = true ->
  set_virtual_dns a name app ex now ent = (a', Ok status) ->
  renamed (vc_inner (au_config a)) (vc_inner (au_config a')) name (Some (app, ex)) /\
  config_valid (vc_inner (au_config a')) (au_root_public a) (as_network_id (au_status a)) now.
Proof.
  intros Hty Hrep Hr Hn (c & Hc & Hco)%commit_prepared_Ok; cbv zeta in Hc; res_inv.
  match goal with Hp : prepare_next_revision _ _ _ = Ok _ |- _ => rename Hp into Hprep end.
  assert (config_typed c) as Ht.
  { eapply prepare_next_revision_typed; [| apply Hty | exact Hn | exact Hprep].
    apply with_services_typed; try apply Hty; rewrite merge_sort_Permutation; apply Forall_app; split;
      [apply Forall_retain, Hty | by apply Forall_singleton]. }
  destruct (commit_config_Ok _ _ _ _ _ _ _ Hrep Hty Ht Hco) as (e & m' & Hex & _ & _ & _ & -> & _).
  split; [|apply Hex]; apply prepare_next_revision_Ok in Hprep as ->; unfold renamed; cbn; apply merge_sort_Permutation.
Qed.
Lemma remove_virtual_dns_Ok a m name now ent a' status :
  authority_typed a -> store_rep (au_state a) m -> is_u64 now = true ->
  remove_virtual_dns a name now ent = (a', Ok status) ->
  renamed (vc_inner (au_config a)) (vc_inner (au_config a')) name None /\
  config_valid (vc_inner (au_config a')) (au_root_public a) (as_network_id (au_status a)) now.
Proof.
  intros Hty Hrep Hn (c & Hc & Hco)%commit_prepared_Ok; cbv zeta in Hc; res_inv.
  match goal with Hp : prepare_next_revision _ _ _ = Ok _ |- _ => rename Hp into Hprep end.
  assert (config_typed c) as Ht.
  { eapply prepare_next_revision_typed; [| apply Hty | exact Hn | exact Hprep].
    apply with_services_typed; try apply Hty; apply Forall_retain, Hty. }
  destruct (commit_config_Ok _ _ _ _ _ _ _ Hrep Hty Ht Hco) as (e & m' & Hex & _ & _ & _ & -> & _).
  split; [|apply Hex]; apply prepare_next_revision_Ok in Hprep as ->; unfold renamed; cbn; by rewrite app_nil_r.
Qed.
End laws.
End ops.

Section claims.
Context `{Led : Ed25519Laws} `{Lblake : Blake3Laws} `{Laead : AeadLaws} `{Lhpke : HpkeLaws} `{Lexcl : !HpkeExclusive}.
Context `{Lplatform : Platform} {S K : Type} `{Lstore : StateStoreLaws S} `{Lsecret : SecretStore K}.

(** An invitation works.  Take an authority opened on any lawful store that
    has served any requests.  If it then answers an invitation with a ticket, the
    ticket survives the wire and verifies at the device against the network root,
    for the nonce and endpoint of the device's request; it names the new head; and
    the member certificate in it carries the keys of the request, the granted
    roles, and a serial number larger than every administrator's, member's and
    revoked serial of the configuration, whose members are the old ones and this
    one. *)
Theorem invited_member_ticket_valid (s s' : S) (m : records) (k : K) (file : option bytes) (t : Z) (a0 : Authority S K)
    (served : list (Request * Z * entropy)) (request : JoinRequest) (binding : EndpointBinding)
    (roles now valid_for : Z) (ent : entropy) (a' : Authority S K) (tk : JoinTicket) :
  store_rep s m -> Authority_open s k file t = (s', Ok a0) ->
  Forall (fun x => request_typed x.1.1 /\ is_u64 x.1.2 = true) served ->
  t <= now -> is_u64 now = true -> is_u32 roles = true -> cert_wf request -> cert_wf binding ->
  let a := serve a0 served in
  invite_member a request binding roles now valid_for ent = (a', Ok tk) ->
  Ticket_from_bytes (Ticket_to_bytes tk) = Ok tk /\
  Ticket_verify tk (au_root_public a) (as_network_id (au_status a)) (jr_nonce (payload request))
    (jr_endpoint_id (payload request)) now = Ok tt /\
  tk_config_head tk = as_head (au_status a') /\
  exists mem, MemberCertificate_from_bytes (tk_member_certificate tk) = Ok mem /\
    mc_signing_public_key (payload mem) = jr_signing_public_key (payload request) /\
    mc_encryption_public_key (payload mem) = jr_encryption_public_key (payload request) /\
    mc_roles (payload mem) = roles /\ serial_fresh (vc_inner (au_config a)) (mc_serial (payload mem)) /\
    cfg_members (vc_inner (au_config a')) = cfg_members (vc_inner (au_config a)) ++ [tk_member_certificate tk].
Proof.
  intros Hrep Ho Hs Ht Hn Hr Hreq Hbind a Hi.
  destruct (serve_running _ _ _ _ _ _ _ _ Hrep Ho Hs) as [(m' & e0 & es & el & [Hr' Hty _ _ _]) Had]; fold a in Hr', Hty, Had.
  destruct (invite_member_Ok a t m' request binding roles now valid_for ent a' tk)
    as (mem & ex & Hadm & Hex & Hrt & Hver & Hmc & Hh & Hmem & _); try done.
  destruct (admitted_wf _ _ _ _ _ _ _ _ Had Hty Hn Hex Hr Hreq Hadm) as (Hw & ? & ? & ? & _ & ?).
  split_and!; try done; exists mem; rewrite Hmc; split_and!; try done; by apply MemberCertificate_from_bytes_exact.
Qed.

(** C10: revocation is complete.  When the authority revokes a member, the new
    configuration has no certificate, endpoint binding or application binding of
    it, no relay at one of its endpoints, its serial among the revoked ones and a
    later epoch; and the stored envelope does not open with the member's key,
    provided no other member of the old configuration has the same key. *)
Theorem revoked_member_excluded (s s' : S) (m : records) (k : K) (file : option bytes) (t : Z) (a0 : Authority S K)
    (served : list (Request * Z * entropy)) (id : MemberId) (now : Z) (ent : entropy) (a' : Authority S K)
    (status : AuthorityStatus) :
  store_rep s m -> Authority_open s k file t = (s', Ok a0) ->
  Forall (fun x => request_typed x.1.1 /\ is_u64 x.1.2 = true) served -> is_u64 now = true ->
  let a := serve a0 served in
  let old := vc_inner (au_config a) in
  let new := vc_inner (au_config a') in
  revoke_member a id now ent = (a', Ok status) ->
  exists raw removed, raw ∈ cfg_members old /\ MemberCertificate_from_bytes raw = Ok removed /\
    mc_member_id (payload removed) = id /\ excludes id new /\ mc_serial (payload removed) ∈ cfg_revoked_serials new /\
    cfg_epoch new = cfg_epoch old + 1 /\
    (forall raw' x, raw' ∈ cfg_endpoint_bindings old -> EndpointBinding_from_bytes raw' = Ok x ->
       eb_member_id (payload x) = id -> eb_endpoint_id (payload x) ∉ rd_endpoint_id <$> cfg_relays new) /\
    exists e m', as_head (au_status a') = envelope_head e /\ store_rep (au_state a') m' /\
      vb_bytes <$> m' !! (au_scope a, au_envelope_key) = Some (Envelope_to_bytes e) /\
      forall kp, kem_sk_to_pk (ek_secret kp) = mc_encryption_public_key (payload removed) ->
        (forall raw' x, raw' ∈ cfg_members old -> MemberCertificate_from_bytes raw' = Ok x ->
           mc_member_id (payload x) <> id -> mc_encryption_public_key (payload x) <> kem_sk_to_pk (ek_secret kp)) ->
        open_after_verified_signature e (as_network_id (au_status a)) kp (Next (as_head (au_status a)))
          = Err NoRecipientWrap.
Proof.
  intros Hrep Ho Hs Hn a old new Hrv.
  destruct (serve_running _ _ _ _ _ _ _ _ Hrep Ho Hs) as [(m' & e0 & es & el & [Hr' Hty _ _ [t0 Hv]]) _]; fold a in Hr', Hty, Hv.
  apply commit_random_Ok in Hrv as (c & ent' & Hp & Hc); apply rnd_bind_Ok in Hp as (c0 & ent1 & [Hw ->]%rlift_Ok & Hp).
  assert (config_typed c) as Ht.
  { eapply prepare_next_epoch_typed; [| apply Hty | exact Hn | exact Hp]; eapply without_member_typed; [apply Hty | exact Hw]. }
  destruct (without_member_Ok _ _ _ _ _ _ Hv Hw) as (raw & removed & Hin & Hpr & Hid & _ & [Hx1 Hx2 Hx3] & Hser & Hep & Hrel).
  destruct (commit_config_Ok _ _ _ _ _ _ _ Hr' Hty Ht Hc) as (e & m1 & Hex & Hne & Hr1 & Hce & Hcfg & Hst & Hhead).
  apply prepare_next_epoch_Ok in Hp as [secrets Hcq].
  exists raw, removed; unfold new; rewrite Hcfg; cbn [vc_inner]; rewrite Hcq; split_and!; try done; [by rewrite Hep|].
  exists e, m1; rewrite Hst; split_and!; try done; [apply Hce|]; intros kp Hkp Huniq.
  destruct Hne as [(recipients & ent2 & ent3 & _ & (va & pt & Hsu)%seal_next_config_Ok) _ _].
  rewrite <- (ty_root _ Hty); eapply sealed_closed; [apply Hsu | | by eapply sealed_update_chain].
  pose proof (su_recipients _ _ _ _ _ _ _ _ _ _ Hsu) as (mcs & Hm & _ & <-)%validate_recipient_set_Ok.
  intros (x & Hk & [i Hi]%list_elem_of_lookup_1)%list_elem_of_fmap.
  destruct (Forall2_lookup_r _ _ _ _ _ Hm Hi) as (raw' & Hraw' & Hx); apply list_elem_of_lookup_2 in Hraw'.
  rewrite Hcq in Hraw'; cbn in Hraw'; apply (Huniq raw' x); try done; [|by eapply Hx1].
  by eapply without_member_subset.
Qed.

(** The names of the network are those the authority was asked for.  After a
    successful [set_virtual_dns] the name resolves to the application until it
    expires and to nothing afterwards, after [remove_virtual_dns] to nothing; and
    every other name resolves as before, at every time. *)
Theorem names_follow_requests (s s' : S) (m : records) (k : K) (file : option bytes) (t : Z) (a0 : Authority S K)
    (served : list (Request * Z * entropy)) (name : VirtualName) (app : AppAddr) (ex now : Z) (ent : entropy)
    (a' : Authority S K) (status : AuthorityStatus) :
  store_rep s m -> Authority_open s k file t = (s', Ok a0) ->
  Forall (fun x => request_typed x.1.1 /\ is_u64 x.1.2 = true) served -> is_u64 now = true ->
  VirtualName_wf name -> AppAddr_wf app -> is_u64 ex = true ->
  let a := serve a0 served in
  (set_virtual_dns a name app ex now ent = (a', Ok status) -> forall n at_ms,
     resolve_virtual_name (au_config a') n at_ms =
       if bool_decide (n = name) then (if at_ms <? ex then Some app else None)
       else resolve_virtual_name (au_config a) n at_ms) /\
  (remove_virtual_dns a name now ent = (a', Ok status) -> forall n at_ms,
     resolve_virtual_name (au_config a') n at_ms =
       if bool_decide (n = name) then None else resolve_virtual_name (au_config a) n at_ms).
Proof.
  intros Hrep Ho Hs Hn Hname Happ Hex a.
  destruct (serve_running _ _ _ _ _ _ _ _ Hrep Ho Hs) as [(m' & e0 & es & el & [Hr' Hty _ _ [t0 Hv]]) _]; fold a in Hr', Hty, Hv.
  split; intros Hd n at_ms.
  - destruct (set_virtual_dns_Ok _ _ _ _ _ _ _ _ _ Hty Hr' (conj Hname (conj Happ Hex)) Hn Hd) as [Hren Hv'].
    pose proof (renamed_resolves _ _ _ _ _ _ _ _ _ _ n at_ms Hren Hv Hv') as Hres.
    destruct (au_config a), (au_config a'); exact Hres.
  - destruct (remove_virtual_dns_Ok _ _ _ _ _ _ _ Hty Hr' Hn Hd) as [Hren Hv'].
    pose proof (renamed_resolves _ _ _ _ _ _ _ _ _ _ n at_ms Hren Hv Hv') as Hres.
    destruct (au_config a), (au_config a'); exact Hres.
Qed.

End claims.

(** ** Concrete requests *)
Module OpsWitness.
Import Samples EnvelopeWitness ConfigStateWitness AuthorityWitness.

Definition device : SigningKeypair := SigningKeypair_from_bytes (repeat Byte.x77 32).
Definition device_key : MemberEncryptionKeypair := mkEncryptionKeypair (repeat Byte.x88 32) (repeat Byte.x88 32).
Definition join : PreparedJoinRequest := Eval vm_compute in
  get_ok (PreparedJoinRequest_create toy_network device (ek_public device_key) (repeat Byte.x99 32) (repeat Byte.xaa 32)
            MemberRoles.MEMBER 500).
Definition random2 : entropy :=
  [Some (repeat Byte.x05 128); Some (repeat Byte.x01 32); Some (repeat Byte.x02 24); None; None; Some (repeat Byte.x00 8)].
Definition no_ticket : JoinTicket := mkJoinTicket toy_network [] 0 head [] [] [] [] [] [] [].
Definition invited := invite_member authority (pj_request join) (pj_endpoint_binding join) MemberRoles.MEMBER 300 150 random2.
Definition ticket : JoinTicket := Eval vm_compute in ok_else no_ticket invited.2.
Lemma invited_ok : invited.2 = Ok ticket.
Proof. vm_compute; reflexivity. Qed.
Definition member_id : MemberId := jr_member_id (payload (pj_request join)).
Definition random1 : entropy := [Some (repeat Byte.x06 128); Some (repeat Byte.x03 32); Some (repeat Byte.x04 24); None].
Definition serving : list (Request * Z * entropy) :=
  [(InviteMember (pj_request join) (pj_endpoint_binding join) MemberRoles.MEMBER 150, 300, random2)].
Definition revoked := revoke_member (serve authority serving) member_id 320 random1.
Definition revoked_status : AuthorityStatus := ok_else (au_status authority) revoked.2.
Definition named := set_virtual_dns authority (VirtualName_mk (bstr "new.virtual")) (ar_app_addr (payload registration)) 500 300 random.
Definition named_status : AuthorityStatus := ok_else (au_status authority) named.2.
Lemma revoked_ok : is_ok revoked.2 = true.
Proof. vm_compute; reflexivity. Qed.
Lemma named_ok : is_ok named.2 = true.
Proof. vm_compute; reflexivity. Qed.
Lemma join_wf : cert_wf (pj_request join) /\ cert_wf (pj_endpoint_binding join).
Proof.
  split; [eapply (JoinRequest_from_bytes_exact (to_bytes (pj_request join)))
    | eapply (EndpointBinding_from_bytes_exact (to_bytes (pj_endpoint_binding join)))]; vm_compute; reflexivity.
Qed.
Definition second : MemberCertificate := Eval vm_compute in ok_else mc (MemberCertificate_from_bytes (tk_member_certificate ticket)).
Lemma two_members :
  cfg_members (vc_inner (au_config (serve authority serving))) = [to_bytes mc; tk_member_certificate ticket] /\
  MemberCertificate_from_bytes (to_bytes mc) = Ok mc /\
  MemberCertificate_from_bytes (tk_member_certificate ticket) = Ok second /\
  mc_expires_at_ms (payload mc) = 800 /\ mc_expires_at_ms (payload second) = 450 /\
  bool_decide (mc_member_id (payload second) = mc_member_id (payload mc)) = false.
Proof. vm_compute; repeat split; reflexivity. Qed.

#[local] Opaque authority invite_member revoke_member set_virtual_dns serve.
Lemma authority_invites :
  invite_member authority (pj_request join) (pj_endpoint_binding join) MemberRoles.MEMBER 300 150 random2
    = (invited.1, Ok ticket).
Proof. change (invited = (invited.1, Ok ticket)); rewrite <- invited_ok; apply surjective_pairing. Qed.
Lemma authority_revokes :
  revoke_member (serve authority serving) member_id 320 random1 = (revoked.1, Ok revoked_status).
Proof. exact (pair_ok (au_status authority) revoked revoked_ok). Qed.
Lemma authority_names :
  set_virtual_dns authority (VirtualName_mk (bstr "new.virtual")) (ar_app_addr (payload registration)) 500 300 random
    = (named.1, Ok named_status).
Proof. exact (pair_ok (au_status authority) named named_ok). Qed.
Lemma serve_nothing : serve authority [] = authority.
Proof. reflexivity. Qed.
Lemma serving_typed : Forall (fun x => request_typed x.1.1 /\ is_u64 x.1.2 = true) serving.
Proof. apply Forall_singleton; exact (conj I eq_refl). Qed.

Lemma invited_member_ticket_valid_witness :
  Ticket_verify ticket (au_root_public (serve authority [])) (as_network_id (au_status (serve authority [])))
    (jr_nonce (payload (pj_request join))) (jr_endpoint_id (payload (pj_request join))) 300 = Ok tt.
Proof.
  refine (proj1 (proj2 (invited_member_ticket_valid authority_store authority_store authority_records secrets (Some manifest) 300 authority
    [] (pj_request join) (pj_endpoint_binding join) MemberRoles.MEMBER 300 150 random2 invited.1 ticket
    (memory_rep authority_store) authority_opens (Forall_nil_2 _) _ eq_refl eq_refl (proj1 join_wf) (proj2 join_wf) _))).
  - apply Z.le_refl.
  - rewrite serve_nothing; exact authority_invites.
Defined.

Lemma revoked_member_excluded_witness : excludes member_id (vc_inner (au_config revoked.1)).
Proof.
  destruct (revoked_member_excluded authority_store authority_store authority_records secrets (Some manifest) 300 authority serving
    member_id 320 random1 revoked.1 revoked_status (memory_rep authority_store) authority_opens serving_typed eq_refl
    authority_revokes) as (raw & removed & _ & _ & _ & Hx & _).
  exact Hx.
Defined.

Lemma names_follow_requests_witness :
  resolve_virtual_name (au_config named.1) (VirtualName_mk (bstr "new.virtual")) 400 = Some (ar_app_addr (payload registration)).
Proof.
  refine (proj1 (names_follow_requests authority_store authority_store authority_records secrets (Some manifest) 300 authority []
    (VirtualName_mk (bstr "new.virtual")) (ar_app_addr (payload registration)) 500 300 random named.1 named_status
    (memory_rep authority_store) authority_opens (Forall_nil_2 _) eq_refl _ _ eq_refl) _ (VirtualName_mk (bstr "new.virtual")) 400).
  - vm_compute; reflexivity.
  - vm_compute; reflexivity.
  - rewrite serve_nothing; exact authority_names.
Defined.

Lemma first_expired : expired_member (vc_inner (au_config (serve authority serving))) (to_bytes mc) mc 900.
Proof.
  destruct two_members as (Hm & Hp & _ & He & _); unfold expired_member; rewrite Hm, He.
  split_and!; [apply list_elem_of_In; left; reflexivity | exact Hp | discriminate].
Qed.
Lemma second_expired :
  expired_member (vc_inner (au_config (serve authority serving))) (tk_member_certificate ticket) second 900.
Proof.
  destruct two_members as (Hm & _ & Hp & _ & He & _); unfold expired_member; rewrite Hm, He.
  split_and!; [apply list_elem_of_In; right; left; reflexivity | exact Hp | discriminate].
Qed.
End OpsWitness.
