(* ===== verification/Initialize.v ===== *)
(** * weaver-relay-core: creating a network

    Models [initialize_staging] of [crates/weaver-relay-core/src/lib.rs]: the keys
    and credentials of a new network, its genesis configuration, and the secrets,
    records and manifest it leaves in the staging directory.  [initialize] renames
    this directory on success and removes it on any error, so a failed run has no
    result here.

    The theorem: what it wrote opens, at any time before the network expires, as
    an authority with the status it reported. *)

From S2P Require Import Prelude Platform Wire Core Store CertificateWire Certificates Symmetric ToyCrypto CertificateChain.
From S2P Require Import Snapshot Validate Envelope EnvelopeChain ConfigState ConfigStateFacts JoinTicket Authority.
From S2P Require Import AuthorityFacts AuthorityChain.

(** Key generation of the libraries: an X25519 pair by [Kem::gen_keypair] and an
    endpoint key by iroh, each from what the random source answers. *)
Class KeyGen : Type := {
  kem_gen : option bytes -> bytes * bytes;
  endpoint_gen : option bytes -> bytes;
}.
Class KeyGenLaws `{Hpke} `{Platform} `{KeyGen} : Prop := {
  kem_gen_pair seed : (kem_gen seed).2 = kem_sk_to_pk (kem_gen seed).1;
  kem_gen_valid seed : kem_sk_valid (kem_gen seed).1 = true;
  kem_gen_len seed : length (kem_gen seed).1 = 32%nat /\ length (kem_gen seed).2 = 32%nat;
  endpoint_gen_len seed : length (endpoint_gen seed) = 32%nat;
  endpoint_public_len secret : length (endpoint_public secret) = 32%nat;
}.

(** [data_dir], [master_key] and [recovery_root_out] only reach the file system. *)
(* weaver-relay-core/src/lib.rs:48-55 AuthorityInit *)
Record AuthorityInit : Type := mkAuthorityInit {
  ai_relay_url : bytes;
  ai_now_ms : Z;
  ai_valid_for_ms : Z;
}.
(* weaver-relay-core/src/lib.rs:236-239 InitializedAuthority *)
Record InitializedAuthority : Type := mkInitialized { in_status : AuthorityStatus; in_recovery_root : bytes }.

(* weaver-relay-core/src/lib.rs:1183-1192 validate_init *)
Definition validate_init (o : AuthorityInit) : result AuthorityError unit :=
  fail_if ((ai_valid_for_ms o =? 0) || bool_decide (ai_relay_url o = []) || (2048 <? len (ai_relay_url o))
           || negb (is_ascii (ai_relay_url o))) InvalidOptions.

(* weaver-crypto/src/lib.rs:42-46 SigningKeypair::generate *)
Definition SigningKeypair_generate : rnd CertificateError SigningKeypair :=
  bs ← fill RandomnessUnavailable 32; mret (SigningKeypair_from_bytes bs).
(* weaver-crypto/src/lib.rs:121-123 NetworkRootKey::generate *)
Definition NetworkRootKey_generate : rnd CertificateError NetworkRootKey :=
  k ← SigningKeypair_generate; mret (NetworkRootKey_from_bytes (sk_seed k)).
(* weaver-crypto/src/lib.rs:158-160 OnlineAdminKey::generate *)
Definition OnlineAdminKey_generate : rnd CertificateError OnlineAdminKey :=
  k ← SigningKeypair_generate; mret (OnlineAdminKey_from_bytes (sk_seed k)).

Section initialize.
Context `{Ed25519} `{Blake3} `{Aead} `{Hpke} `{Platform} `{KeyGen} {S K : Type} `{StateStore S} `{SecretStore K}.

(* weaver-config/src/lib.rs:56-72 MemberEncryptionKeypair::generate *)
Definition Keypair_generate : rnd ConfigError MemberEncryptionKeypair :=
  seed ← draw;
  let '(secret, public) := kem_gen seed in
  rlift (fail_if (negb (Nat.eqb (length secret) 32)) InvalidMemberKey);;
  rlift (fail_if (negb (Nat.eqb (length public) 32)) InvalidMemberKey);;
  mret (mkEncryptionKeypair secret public).
(** [EndpointSecretKey::generate()] *)
Definition endpoint_generate : rnd AuthorityError bytes := seed ← draw; mret (endpoint_gen seed).

(* weaver-relay-core/src/lib.rs:1167-1181 seal_secret *)
Definition seal_secret (k : K) (network_id : NetworkId) (label value : bytes) : result AuthorityError K :=
  match Store.seal k (secret_id network_id label) value with
  | (k', Ok _) => Ok k'
  | (_, Err e) => Err (AuSecret e)
  end.

(* weaver-relay-core/src/lib.rs:1047-1051 initialize_staging *)
Definition authority_roles : Z :=
  MemberRoles.union (MemberRoles.union (MemberRoles.union (MemberRoles.union MemberRoles.MEMBER MemberRoles.SERVICE)
    MemberRoles.RELAY) MemberRoles.BOOTSTRAP) MemberRoles.AUTHORITY.
(* weaver-relay-core/src/lib.rs:1063-1096 initialize_staging *)
Definition genesis_config (network_id : NetworkId) (o : AuthorityInit) (expires_at_ms : Z) (admin member endpoint_binding : bytes)
    (endpoint_id : bytes) (secrets : EpochSecrets) : NetworkConfigV1 := {|
  cfg_network_id := network_id; cfg_epoch := 0; cfg_revision := 0; cfg_previous_hash := zero32;
  cfg_issued_at_ms := ai_now_ms o; cfg_expires_at_ms := expires_at_ms;
  cfg_admin_keys := [mkAdminKey admin]; cfg_members := [member]; cfg_endpoint_bindings := [endpoint_binding];
  cfg_revoked_serials := []; cfg_apps := []; cfg_app_bindings := []; cfg_virtual_dns := [];
  cfg_relays := [mkRelayDescriptor endpoint_id (ai_relay_url o)
                   (RelayRoles.union (RelayRoles.union RelayRoles.DATA_RELAY RelayRoles.BOOTSTRAP) RelayRoles.PRESENCE)
                   expires_at_ms];
  cfg_presence_services := [mkPresenceServiceDescriptor endpoint_id (ai_relay_url o) expires_at_ms];
  cfg_epoch_secrets := secrets; cfg_policies := NetworkPolicy_default |}.

(** The keys of a new network and the credentials issued with them. *)
Record Genesis_keys : Type := mkGenesisKeys {
  gk_root : NetworkRootKey; gk_signing : SigningKeypair; gk_admin : OnlineAdminKey;
  gk_admin_certificate : AdminCertificate; gk_encryption : MemberEncryptionKeypair; gk_endpoint : bytes;
  gk_member : MemberCertificate; gk_binding : EndpointBinding;
}.
(* weaver-relay-core/src/lib.rs:1030-1062 initialize_staging *)
Definition generate_keys (o : AuthorityInit) (expires_at_ms : Z) : rnd AuthorityError Genesis_keys :=
  root ← rmap_err AuCrypto NetworkRootKey_generate;
  member_signing ← rmap_err AuCrypto SigningKeypair_generate;
  online_admin ← rmap_err AuCrypto OnlineAdminKey_generate;
  admin_certificate ← rlift (map_err AuCrypto (AdminCertificate_issue root (OnlineAdminKey_public_bytes online_admin)
                               (2 ^ 32 - 1) 2 (ai_now_ms o) expires_at_ms));
  member_encryption ← rmap_err AuConfig Keypair_generate;
  endpoint ← endpoint_generate;
  member ← rlift (map_err AuCrypto (MemberCertificate_issue root (SigningKeypair_public_bytes member_signing)
                    (ek_public member_encryption) authority_roles 1 (ai_now_ms o) expires_at_ms));
  endpoint_binding ← rlift (map_err AuCrypto (EndpointBinding_issue member_signing (payload member)
                              (endpoint_public endpoint) 0 expires_at_ms));
  mret (mkGenesisKeys root member_signing online_admin admin_certificate member_encryption endpoint member endpoint_binding).

(* weaver-relay-core/src/lib.rs:1106-1129 initialize_staging *)
Definition store_secrets (k : K) (network_id : NetworkId) (g : Genesis_keys) : result AuthorityError K :=
  k ← seal_secret k network_id (bstr "online-admin") (admin_seed (gk_admin g));
  k ← seal_secret k network_id (bstr "member-signing") (sk_seed (gk_signing g));
  k ← seal_secret k network_id (bstr "member-encryption") (ek_secret (gk_encryption g));
  seal_secret k network_id (bstr "endpoint") (gk_endpoint g).
(* weaver-relay-core/src/lib.rs:1131-1148 initialize_staging *)
Definition store_genesis (s : S) (network_id : NetworkId) (envelope : bytes) (head : ConfigHead) : result AuthorityError S :=
  envelope_key ← map_err AuStore (StoreKey_new KEY_ENVELOPE);
  batch ← map_err AuStore (AtomicBatch_put (AtomicBatch_new (StoreScope_authority network_id)) envelope_key envelope Missing);
  head_key ← map_err AuStore (StoreKey_new KEY_HEAD);
  batch ← map_err AuStore (AtomicBatch_put batch head_key (au_encode_head head) Missing);
  key ← au_history_key (head_revision head);
  batch ← map_err AuStore (AtomicBatch_put batch key envelope Missing);
  match commit s batch with
  | (s', Ok _) => Ok s'
  | (_, Err e) => Err (AuStore e)
  end.
(** [s] and [k] are the stores opened in the staging directory; the result also
    carries their contents and that of the manifest file. *)
(* weaver-relay-core/src/lib.rs:1022-1165 initialize_staging *)
Definition initialize_staging (s : S) (k : K) (o : AuthorityInit) (ent : entropy)
    : result AuthorityError (InitializedAuthority * S * K * bytes) :=
  expires_at_ms ← checked_add (ai_now_ms o) (ai_valid_for_ms o) ?? InvalidOptions;
  '(g, ent) ← generate_keys o expires_at_ms ent;
  let root_public := NetworkRootKey_public (gk_root g) in
  let network_id := root_network_id root_public in
  '(secrets, ent) ← map_err AuSnapshot (EpochSecrets_generate ent);
  let config := genesis_config network_id o expires_at_ms (to_bytes (gk_admin_certificate g)) (to_bytes (gk_member g))
                  (to_bytes (gk_binding g)) (endpoint_public (gk_endpoint g)) secrets in
  '(envelope, _) ← map_err AuConfig (seal_config (gk_root g) config [ek_public (gk_encryption g)] ent);
  let head := mkConfigHead 0 0 (envelope_hash envelope) in
  k ← store_secrets k network_id g;
  s ← store_genesis s network_id (Envelope_to_bytes envelope) head;
  let root_key := ed_public (root_seed (gk_root g)) in
  manifest ← manifest_bytes (mkManifest network_id root_key (head_hash head) (to_bytes (gk_admin_certificate g)));
  Ok (mkInitialized (mkAuthorityStatus network_id root_key head (ai_relay_url o)) (root_seed (gk_root g)), s, k, manifest).
End initialize.

(** ** The manifest *)
Lemma manifest_round_trip mf bs :
  NetworkId_wf (mf_network_id mf) -> length (mf_root_public_key mf) = 32%nat -> length (mf_genesis_hash mf) = 32%nat ->
  mf_admin_certificate mf <> [] -> manifest_bytes mf = Ok bs -> read_manifest (Some bs) = Ok mf.
Proof.
  destruct mf as [[net] key hash cert]; unfold NetworkId_wf, manifest_bytes.
  cbn [mf_network_id mf_root_public_key mf_genesis_hash mf_admin_certificate NetworkId_as_bytes]; intros Hn Hk Hh Hc Hb.
  apply bind_Ok in Hb as (u & Hl%fail_if_Ok & <-%Ok_inj); bool_inv; unfold in_range in *; bool_inv.
  unfold read_manifest; cbn [ok_or mbind result_bind].
  assert (Hlen : length (MANIFEST_MAGIC ++ net ++ key ++ hash ++ to_be 2 (len cert) ++ cert) = (106 + length cert)%nat)
    by (rewrite !length_app, length_to_be, Hn, Hk, Hh; reflexivity).
  rewrite Hlen; unfold MANIFEST_FIXED_LEN; cbn [Nat.add].
  rewrite (proj2 (Nat.ltb_ge _ _)) by lia; rewrite bool_decide_true by (by rewrite take_app_length').
  cbn [orb negb fail_if mbind result_bind].
  assert (Hd : forall n pre (rest : bytes), length pre = n -> drop n (pre ++ rest) = rest) by (intros; by apply drop_app_length').
  rewrite !(app_assoc MANIFEST_MAGIC), !(app_assoc (MANIFEST_MAGIC ++ net)), !(app_assoc ((MANIFEST_MAGIC ++ net) ++ key)).
  rewrite (Hd 104%nat) by (rewrite !length_app, Hn, Hk, Hh; reflexivity); rewrite take_app_length' by (by rewrite length_to_be).
  rewrite (app_assoc _ (to_be 2 _)), (Hd 106%nat) by (rewrite !length_app, length_to_be, Hn, Hk, Hh; reflexivity).
  rewrite from_to_be, Z.mod_small by (unfold len in *; lia); unfold len; rewrite Nat2Z.id, Nat.eqb_refl.
  destruct (Nat.eqb (length cert) 0) eqn:Hz; [apply Nat.eqb_eq in Hz; by destruct cert|]; cbn [orb negb fail_if mbind result_bind].
  rewrite <- !app_assoc, (Hd 8%nat) by reflexivity; rewrite take_app_length' by done.
  rewrite (app_assoc MANIFEST_MAGIC), (Hd 40%nat) by (by rewrite length_app, Hn); rewrite take_app_length' by done.
  rewrite (app_assoc (MANIFEST_MAGIC ++ net)), (Hd 72%nat) by (by rewrite !length_app, Hn, Hk); by rewrite take_app_length'.
Qed.

Section facts.
Context `{Led : Ed25519Laws} `{Lblake : Blake3Laws} `{Laead : AeadLaws} `{Lhpke : HpkeLaws} `{Lexcl : !HpkeExclusive}.
Context `{Lgen : !@KeyGenLaws _ Lplatform Lkeys} {S K : Type} `{Lstore : StateStoreLaws S} `{Lsecret : SecretStoreLaws K}.

Lemma MemberCertificate_issue_wf root skey ekey roles serial nb ex c :
  length (root_seed root) = 32%nat -> length skey = 32%nat -> length ekey = 32%nat -> is_u32 roles = true ->
  is_u64 serial = true -> is_u64 nb = true -> is_u64 ex = true ->
  MemberCertificate_issue root skey ekey roles serial nb ex = Ok c ->
  cert_wf c /\ mc_signing_public_key (payload c) = skey /\ mc_encryption_public_key (payload c) = ekey /\
  mc_roles (payload c) = roles /\ mc_expires_at_ms (payload c) = ex /\
  NetworkId_wf (mc_network_id (payload c)) /\ MemberId_wf (mc_member_id (payload c)).
Proof.
  intros Hr Hk Hek Hro Hs Hn He Hi; unfold MemberCertificate_issue in Hi; res_inv; split_and!; try done.
  - apply (cert_wf_intro (H := member_codec)); [|by apply ed_sign_len].
    split_and!; cbn; auto using derive_network_id_wf, derive_member_id_wf, derive_key_id_len.
  - apply derive_network_id_wf.
  - apply derive_member_id_wf.
Qed.

Lemma SigningKeypair_generate_len ent k ent' : SigningKeypair_generate ent = Ok (k, ent') -> length (sk_seed k) = 32%nat.
Proof. unfold SigningKeypair_generate; intros Hg; rnd_inv Hg; injection Hg as <- <-; by eapply fill_Ok. Qed.

(** What the generated keys and credentials satisfy. *)
Record genesis_ok (o : AuthorityInit) (ex : Z) (g : Genesis_keys) : Prop := {
  go_root : length (root_seed (gk_root g)) = 32%nat;
  go_signing : length (sk_seed (gk_signing g)) = 32%nat;
  go_admin : length (admin_seed (gk_admin g)) = 32%nat;
  go_kem : kem_sk_valid (ek_secret (gk_encryption g)) = true /\
    ek_public (gk_encryption g) = kem_sk_to_pk (ek_secret (gk_encryption g)) /\
    length (ek_secret (gk_encryption g)) = 32%nat /\ length (ek_public (gk_encryption g)) = 32%nat;
  go_endpoint : length (gk_endpoint g) = 32%nat;
  go_certificate : cert_wf (gk_admin_certificate g) /\
    adm_public_key (payload (gk_admin_certificate g)) = OnlineAdminKey_public_bytes (gk_admin g) /\
    adm_expires_at_ms (payload (gk_admin_certificate g)) = ex /\
    forall now revoked, ai_now_ms o <= now < ex -> 2 ∉ revoked ->
      AdminCertificate_verify (gk_admin_certificate g) (NetworkRootKey_public (gk_root g))
        (root_network_id (NetworkRootKey_public (gk_root g))) now revoked = Ok (as_admin (gk_admin_certificate g));
  go_member : cert_wf (gk_member g) /\ mc_encryption_public_key (payload (gk_member g)) = ek_public (gk_encryption g) /\
    mc_roles (payload (gk_member g)) = authority_roles /\ mc_expires_at_ms (payload (gk_member g)) = ex;
  go_binding : cert_wf (gk_binding g) /\ eb_endpoint_id (payload (gk_binding g)) = endpoint_public (gk_endpoint g) /\
    eb_member_id (payload (gk_binding g)) = mc_member_id (payload (gk_member g)) /\ eb_expires_at_ms (payload (gk_binding g)) = ex;
}.

Lemma generate_keys_Ok o ex ent g ent' :
  is_u64 (ai_now_ms o) = true -> is_u64 ex = true -> generate_keys o ex ent = Ok (g, ent') -> genesis_ok o ex g.
Proof.
  intros Hn Hex Hg; unfold generate_keys in Hg.
  apply rnd_bind_Ok in Hg as (root & e1 & Hroot%rmap_err_Ok & Hg); apply rnd_bind_Ok in Hroot as (k1 & e2 & Hk1 & [= <- <-]).
  apply rnd_bind_Ok in Hg as (signing & e3 & Hsig%rmap_err_Ok & Hg).
  apply rnd_bind_Ok in Hg as (admin & e4 & Hadm%rmap_err_Ok & Hg); apply rnd_bind_Ok in Hadm as (k2 & e5 & Hk2 & [= <- <-]).
  apply SigningKeypair_generate_len in Hk1, Hsig, Hk2.
  apply rnd_bind_Ok in Hg as (ac & e6 & [Hac%map_err_Ok ->]%rlift_Ok & Hg).
  apply rnd_bind_Ok in Hg as (kp & e7 & Hkp%rmap_err_Ok & Hg); apply rnd_bind_Ok in Hkp as (seed & e8 & _ & Hkp).
  destruct (kem_gen seed) as [sk pk] eqn:Hkem; do 2 rnd_inv Hkp; injection Hkp as <- <-.
  apply rnd_bind_Ok in Hg as (endpoint & e9 & Hend & Hg); apply rnd_bind_Ok in Hend as (seed' & e10 & _ & [= <- <-]).
  apply rnd_bind_Ok in Hg as (mem & e11 & [Hmem%map_err_Ok ->]%rlift_Ok & Hg).
  apply rnd_bind_Ok in Hg as (bind & e12 & [Hbind%map_err_Ok ->]%rlift_Ok & [= <- <-]).
  pose proof (kem_gen_pair seed) as Hp1; pose proof (kem_gen_valid seed) as Hp2; pose proof (kem_gen_len seed) as [Hp3 Hp4].
  rewrite Hkem in Hp1, Hp2, Hp3, Hp4; cbn in Hp1, Hp2, Hp3, Hp4.
  apply AdminCertificate_issue_wf in Hac as (? & Hpk & _ & Hser & _ & Hexp & Hver); try done; [|by apply ed_public_len].
  apply MemberCertificate_issue_wf in Hmem as (? & Hsk & ? & ? & ? & ? & ?); try done; [|by apply ed_public_len].
  pose proof Hbind as Hb; apply EndpointBinding_issue_wf in Hb as [Hbw _]; try done; [|apply endpoint_public_len].
  unfold EndpointBinding_issue in Hbind; res_inv.
  constructor; cbn; split_and?; try done; [apply endpoint_gen_len|].
  intros t revoked Ht Hr; rewrite Hver by (try done; by rewrite Hser); by rewrite <- Hpk.
Qed.

Lemma seal_secret_Ok (k k' : K) net label v :
  seal_secret k net label v = Ok k' ->
  secret_view k' !! secret_id net label = Some v /\ forall id x, secret_view k !! id = Some x -> secret_view k' !! id = Some x.
Proof.
  unfold seal_secret; destruct (Store.seal _ _ _) as [k1 [[]|]] eqn:Hs; [|done]; intros [= <-].
  apply seal_success in Hs as [-> Hold]; split; [apply lookup_insert_eq|]; intros id x Hid.
  destruct (decide (id = secret_id net label)) as [->|Hne]; [|by rewrite lookup_insert_ne].
  rewrite lookup_insert_eq; destruct Hold as [Hold|Hold]; congruence.
Qed.
Lemma store_secrets_Ok (k k' : K) net g :
  store_secrets k net g = Ok k' ->
  secret_view k' !! secret_id net (bstr "online-admin") = Some (admin_seed (gk_admin g)) /\
  secret_view k' !! secret_id net (bstr "member-encryption") = Some (ek_secret (gk_encryption g)) /\
  secret_view k' !! secret_id net (bstr "endpoint") = Some (gk_endpoint g).
Proof.
  intros Hs; apply bind_Ok in Hs as (k1 & [? Hw1]%seal_secret_Ok & Hs); apply bind_Ok in Hs as (k2 & [_ Hw2]%seal_secret_Ok & Hs).
  apply bind_Ok in Hs as (k3 & [? Hw3]%seal_secret_Ok & [? Hw4]%seal_secret_Ok); split_and!; auto.
Qed.

Lemma store_genesis_Ok (s s' : S) m net raw h :
  store_rep s m -> NetworkId_wf net -> store_genesis s net raw h = Ok s' ->
  exists m', store_rep s' m' /\
    vb_bytes <$> m' !! (StoreScope_authority net, au_envelope_key) = Some raw /\
    vb_bytes <$> m' !! (StoreScope_authority net, au_head_key) = Some (encode_head h) /\
    vb_bytes <$> m' !! (StoreScope_authority net, au_hist_key (head_revision h)) = Some raw.
Proof.
  intros Hrep Hn Hs; unfold store_genesis in Hs; destruct au_fixed_keys_wf as [Hk1 Hk2].
  rewrite au_envelope_key_Ok, au_head_key_Ok in Hs; cbn [map_err mbind result_bind] in Hs.
  apply bind_Ok in Hs as (b1 & Hb1%map_err_Ok & Hs); apply bind_Ok in Hs as (b2 & Hb2%map_err_Ok & Hs).
  rewrite au_history_key_Ok in Hs; cbn [mbind result_bind] in Hs; apply bind_Ok in Hs as (b3 & Hb3%map_err_Ok & Hs).
  apply AtomicBatch_put_wf in Hb1 as (Hw1 & Hs1 & Ho1); [|by apply AtomicBatch_new_wf | done].
  apply AtomicBatch_put_wf in Hb2 as (Hw2 & Hs2 & Ho2); [|done..].
  apply AtomicBatch_put_wf in Hb3 as (Hw3 & Hs3 & Ho3); [|done | apply au_hist_key_wf].
  destruct (commit s b3) as [s1 [v|]] eqn:Hc; [|done]; injection Hs as <-.
  destruct (commit_success _ _ _ _ _ Hrep Hw3 Hc) as (_ & m' & Hrep' & [Hin _]); exists m'.
  rewrite Ho3, Ho2, Ho1, Hs3, Hs2, Hs1 in Hin; split_and!; [done|..].
  - apply (Hin (Put au_envelope_key raw Missing)); set_solver.
  - apply (Hin (Put au_head_key (encode_head h) Missing)); set_solver.
  - apply (Hin (Put (au_hist_key (head_revision h)) raw Missing)); set_solver.
Qed.

(** ** The genesis configuration *)
Definition genesis_of (o : AuthorityInit) (ex : Z) (g : Genesis_keys) (secrets : EpochSecrets) : NetworkConfigV1 :=
  genesis_config (root_network_id (NetworkRootKey_public (gk_root g))) o ex (to_bytes (gk_admin_certificate g))
    (to_bytes (gk_member g)) (to_bytes (gk_binding g)) (endpoint_public (gk_endpoint g)) secrets.
Definition genesis_credentials (g : Genesis_keys) : Credentials :=
  mkCredentials [gk_admin_certificate g] [gk_member g] [gk_binding g] [] [].

Lemma genesis_parses o ex g secrets : genesis_ok o ex g -> snapshot_parses (genesis_of o ex g secrets) (genesis_credentials g).
Proof.
  intros [_ _ _ _ _ [? _] [? _] [? _]]; constructor; cbn; repeat constructor.
  - by apply AdminCertificate_from_bytes_exact.
  - by apply MemberCertificate_from_bytes_exact.
  - by apply EndpointBinding_from_bytes_exact.
Qed.
Lemma genesis_typed o ex g ent secrets ent' :
  EpochSecrets_generate ent = Ok (secrets, ent') -> is_u64 (ai_now_ms o) = true -> is_u64 ex = true ->
  config_typed (genesis_of o ex g secrets).
Proof.
  intros Hs Hn He; pose proof (endpoint_public_len (gk_endpoint g)); constructor; cbn; try done.
  - apply derive_key_len.
  - by repeat constructor.
  - by repeat constructor.
  - by eapply EpochSecrets_generate_typed.
Qed.
Lemma genesis_valid_until o ex g secrets root net t :
  genesis_ok o ex g -> config_valid (genesis_of o ex g secrets) root net (ai_now_ms o) -> ai_now_ms o <= t < ex ->
  config_valid (genesis_of o ex g secrets) root net t.
Proof.
  intros Hg Hv Ht; eapply config_valid_later; [exact Hv | by apply genesis_parses | lia|].
  destruct Hg as [_ _ _ _ _ (_ & _ & Ha & _) (_ & _ & _ & Hm) (_ & _ & _ & Hb)].
  constructor; cbn; rewrite ?Forall_singleton; rewrite ?Ha, ?Hm, ?Hb; cbn; try lia; constructor.
Qed.

(** ** Opening what was written *)
Lemma genesis_role_valid o ex g secrets :
  genesis_ok o ex g -> authority_role_valid (genesis_of o ex g secrets) (endpoint_public (gk_endpoint g)) = true.
Proof.
  intros [_ _ _ _ _ _ [Hm (_ & Hr & _)] [Hb (He & Hi & _)]]; unfold authority_role_valid, find_parsed, parsed, any_parsed; cbn.
  rewrite (proj2 (EndpointBinding_from_bytes_exact _ _) (conj Hb eq_refl)); cbn; rewrite He, bool_decide_true by done.
  rewrite (proj2 (MemberCertificate_from_bytes_exact _ _) (conj Hm eq_refl)); cbn; by rewrite Hi, bool_decide_true, Hr.
Qed.
Lemma genesis_admin o ex g secrets t :
  genesis_ok o ex g -> ai_now_ms o <= t < ex ->
  verified_admin (mkValidated (genesis_of o ex g secrets)) (NetworkRootKey_public (gk_root g)) (OnlineAdminKey_key_id (gk_admin g)) t
    = Ok (as_admin (gk_admin_certificate g)).
Proof.
  intros [_ _ _ _ _ (Hw & Hk & _ & Hv) _ _] Ht; unfold verified_admin.
  change (revoked_set (vc_inner (mkValidated (genesis_of o ex g secrets)))) with (∅ : gset Z).
  cbn [vc_inner genesis_of genesis_config cfg_admin_keys cfg_network_id find_admin ak_certificate].
  rewrite (proj2 (AdminCertificate_from_bytes_exact _ _) (conj Hw eq_refl)); cbn [map_err mbind result_bind].
  specialize (Hv t ∅ Ht ltac:(set_solver)); pose proof Hv as [_ Htr]%AdminCertificate_verify_Ok.
  rewrite bool_decide_true by (rewrite (at_key_id _ _ _ _ _ Htr), Hk; done).
  by rewrite Hv.
Qed.
Lemma to_bytes_nonempty {P} `{Codec P CertificateError} (c : Signed P) : cert_wf c -> to_bytes c <> [].
Proof.
  intros (_ & _ & Hg) Hnil%(f_equal length); unfold to_bytes, append_signature in Hnil; rewrite length_app, Hg in Hnil.
  unfold SIGNATURE_LEN in Hnil; cbn [length] in Hnil; lia.
Qed.

(** What the staging directory holds. *)
Record staged (s : S) (k : K) (file : bytes) m (g : Genesis_keys) (e : EncryptedConfigEnvelope) : Prop := {
  sg_rep : store_rep s m;
  sg_envelope : vb_bytes <$> m !! (StoreScope_authority (root_network_id (NetworkRootKey_public (gk_root g))), au_envelope_key)
    = Some (Envelope_to_bytes e);
  sg_head : vb_bytes <$> m !! (StoreScope_authority (root_network_id (NetworkRootKey_public (gk_root g))), au_head_key)
    = Some (encode_head (envelope_head e));
  sg_history : vb_bytes <$> m !! (StoreScope_authority (root_network_id (NetworkRootKey_public (gk_root g))), au_hist_key 0)
    = Some (Envelope_to_bytes e);
  sg_admin : secret_view k !! secret_id (root_network_id (NetworkRootKey_public (gk_root g))) (bstr "online-admin")
    = Some (admin_seed (gk_admin g));
  sg_encryption : secret_view k !! secret_id (root_network_id (NetworkRootKey_public (gk_root g))) (bstr "member-encryption")
    = Some (ek_secret (gk_encryption g));
  sg_endpoint : secret_view k !! secret_id (root_network_id (NetworkRootKey_public (gk_root g))) (bstr "endpoint")
    = Some (gk_endpoint g);
  sg_manifest : read_manifest (Some file) = Ok (mkManifest (root_network_id (NetworkRootKey_public (gk_root g)))
    (ed_public (root_seed (gk_root g))) (envelope_hash e) (to_bytes (gk_admin_certificate g)));
}.

Lemma load_genesis s k file m o ex g secrets e t :
  staged s k file m g e -> genesis_ok o ex g -> ai_now_ms o <= t < ex -> envelope_wf e -> env_revision e = 0 ->
  open_config e (NetworkRootKey_public (gk_root g)) (root_network_id (NetworkRootKey_public (gk_root g)))
    (gk_encryption g) Genesis t = Ok (mkOpenedNetworkConfig (mkValidated (genesis_of o ex g secrets)) (envelope_head e)) ->
  (forall scope key, exists x, read s scope key = Ok x) -> (forall id v, secret_view k !! id = Some v -> open_secret k id = Ok v) ->
  exists er hr, vb_bytes er = Envelope_to_bytes e /\
    load_authority s k (Some file) t =
      Ok (mkManifest (root_network_id (NetworkRootKey_public (gk_root g))) (ed_public (root_seed (gk_root g)))
            (envelope_hash e) (to_bytes (gk_admin_certificate g)),
          NetworkRootKey_public (gk_root g), gk_encryption g, gk_endpoint g, gk_admin g, as_admin (gk_admin_certificate g), er, hr,
          mkOpenedNetworkConfig (mkValidated (genesis_of o ex g secrets)) (envelope_head e)).
Proof.
  intros [Hrep He Hh _ Hsa Hse Hsp Hmf] Hg Ht Hw Hrev Hop Hreads Hopens.
  pose proof (go_kem _ _ _ Hg) as (Hkv & Hkp & Hks & Hkl); pose proof (go_endpoint _ _ _ Hg) as Hel.
  pose proof (go_admin _ _ _ Hg) as Hal; pose proof (go_certificate _ _ _ Hg) as (Hcw & Hck & _ & Hcv).
  apply fmap_Some in He as ([ev eb] & He & Heb); cbn in Heb; subst eb.
  apply fmap_Some in Hh as ([hv hb] & Hh & Hhb); cbn in Hhb; subst hb.
  exists (mkVersionedBytes ev (Envelope_to_bytes e)), (mkVersionedBytes hv (encode_head (envelope_head e))); split; [done|].
  set (net := root_network_id (NetworkRootKey_public (gk_root g))) in *.
  assert (Hnw : scope_wf (StoreScope_authority net)) by apply derive_key_len.
  assert (Hread : forall key x, m !! (StoreScope_authority net, key) = x -> read s (StoreScope_authority net) key = Ok x).
  { intros key x <-; destruct (Hreads (StoreScope_authority net) key) as [y Hy]; rewrite Hy; f_equal; by eapply read_rep. }
  unfold load_authority, open_secret_32; rewrite Hmf; cbn [mbind result_bind mf_root_public_key mf_network_id mf_admin_certificate mf_genesis_hash].
  rewrite NetworkRootPublic_of_key by apply Hg; cbn [map_err mbind result_bind]; fold net.
  rewrite bool_decide_true by done; cbn [negb fail_if mbind result_bind].
  rewrite (Hopens _ _ Hse), (Hopens _ _ Hsp), (Hopens _ _ Hsa); cbn [map_err mbind result_bind].
  rewrite Hks, Hel, Hal, Nat.eqb_refl; cbn [negb fail_if mbind result_bind].
  unfold Keypair_from_secret_bytes; rewrite Hkv, <- Hkp, Hkl, Nat.eqb_refl; cbn [negb fail_if map_err mbind result_bind].
  rewrite au_envelope_key_Ok, au_head_key_Ok; cbn [map_err mbind result_bind].
  rewrite (Hread _ _ He), (Hread _ _ Hh); cbn [map_err mbind result_bind ok_or vb_bytes].
  rewrite (proj2 (Envelope_from_bytes_exact _ e)) by done; cbn [map_err mbind result_bind].
  rewrite (proj2 (au_decode_head_Ok _ (envelope_head e))) by (split_and!; try done; cbn; [apply Hw.. | apply blake3_hash_len]).
  cbn [mbind result_bind head_hash envelope_head]; rewrite bool_decide_true by done; cbn [negb fail_if mbind result_bind].
  rewrite (proj2 (AdminCertificate_from_bytes_exact _ _) (conj Hcw eq_refl)); cbn [map_err mbind result_bind].
  rewrite (Hcv t ∅ Ht) by set_solver; cbn [map_err mbind result_bind va_payload as_admin].
  rewrite bool_decide_true by (rewrite Hck; by destruct (gk_admin g)); cbn [negb fail_if mbind result_bind].
  rewrite Hrev, Z.eqb_refl.
  destruct (gk_encryption g) as [sk pk]; cbn [ek_secret ek_public] in *; rewrite Hop; cbn [map_err mbind result_bind onc_head onc_config vc_inner].
  rewrite bool_decide_true by done; cbn [negb fail_if mbind result_bind].
  rewrite (genesis_role_valid _ _ _ _ Hg); cbn [negb fail_if mbind result_bind]; by destruct (gk_admin g).
Qed.

Lemma initialize_staging_Ok s0 k0 m0 o ent init s k file :
  store_rep s0 m0 -> is_u64 (ai_now_ms o) = true -> 0 <= ai_valid_for_ms o ->
  initialize_staging s0 k0 o ent = Ok (init, s, k, file) ->
  let ex := ai_now_ms o + ai_valid_for_ms o in
  exists g secrets e ent1 ent2 m, genesis_ok o ex g /\ config_typed (genesis_of o ex g secrets) /\
    seal_config (gk_root g) (genesis_of o ex g secrets) [ek_public (gk_encryption g)] ent1 = Ok (e, ent2) /\
    staged s k file m g e /\
    init = mkInitialized (mkAuthorityStatus (root_network_id (NetworkRootKey_public (gk_root g)))
             (ed_public (root_seed (gk_root g))) (mkConfigHead 0 0 (envelope_hash e)) (ai_relay_url o)) (root_seed (gk_root g)).
Proof.
  intros Hrep Hn Hv Hi ex; unfold initialize_staging in Hi.
  apply bind_Ok in Hi as (ex' & Hex%ok_or_Ok & Hi); unfold checked_add in Hex; destruct (_ <=? _) eqn:Hle; [|done].
  injection Hex as <-; fold ex in Hi, Hle; bool_inv.
  assert (is_u64 ex = true) as Hexu by (unfold ex, U64_MAX, in_range in *; bool_inv; passes).
  apply bind_Ok in Hi as ([g ent1] & Hg & Hi); apply generate_keys_Ok in Hg; [|done..].
  apply bind_Ok in Hi as ([secrets ent2] & Hs%map_err_Ok & Hi); apply bind_Ok in Hi as ([e ent3] & He%map_err_Ok & Hi).
  apply bind_Ok in Hi as (k' & Hk%store_secrets_Ok & Hi); apply bind_Ok in Hi as (s' & Hst & Hi).
  apply bind_Ok in Hi as (file' & Hf & [= <- <- <- <-]).
  pose proof (genesis_typed o ex g ent1 secrets ent2 Hs Hn Hexu) as Hty.
  apply (store_genesis_Ok _ _ m0) in Hst as (m & Hrep' & ? & Hh & ?); [|done | apply derive_key_len].
  assert (Heh : envelope_head e = mkConfigHead 0 0 (envelope_hash e)).
  { unfold seal_config in He; do 3 rnd_inv He; apply seal_with_signer_Ok in He; destruct He; unfold envelope_head.
    by rewrite sd_epoch, sd_revision. }
  exists g, secrets, e, ent2, ent3, m; split_and!; try done; destruct Hk as (? & ? & ?); constructor; try done.
  - by rewrite Heh.
  - apply manifest_round_trip in Hf; cbn; [done | apply derive_key_len | apply ed_public_len, Hg | apply blake3_hash_len|].
    apply to_bytes_nonempty, Hg.
Qed.

(** C14: a new network opens.  After [initialize_staging] succeeded, opening the
    directory it filled, at any time before the network expires and with stores
    that answer, gives an authority with exactly the status that was reported,
    administered by the key that was sealed and without writing to the store. *)
Theorem initialized_authority_opens (s0 s : S) (k0 k : K) (m0 : records) (o : AuthorityInit) (ent : entropy)
    (init : InitializedAuthority) (file : bytes) (t : Z) :
  store_rep s0 m0 -> is_u64 (ai_now_ms o) = true -> 0 <= ai_valid_for_ms o ->
  initialize_staging s0 k0 o ent = Ok (init, s, k, file) ->
  ai_now_ms o <= t < ai_now_ms o + ai_valid_for_ms o ->
  (forall scope key, exists x, read s scope key = Ok x) -> (forall id v, secret_view k !! id = Some v -> open_secret k id = Ok v) ->
  exists a, Authority_open s k (Some file) t = (s, Ok a) /\ au_status a = in_status init /\
    ed_public (in_recovery_root init) = as_root_public_key (au_status a).
Proof.
  intros Hrep Hn Hv Hi Ht Hreads Hopens.
  destruct (initialize_staging_Ok _ _ _ _ _ _ _ _ _ Hrep Hn Hv Hi) as (g & secrets & e & ent1 & ent2 & m & Hg & Hty & Hseal & Hsg & ->).
  set (ex := ai_now_ms o + ai_valid_for_ms o) in *; set (net := root_network_id (NetworkRootKey_public (gk_root g))).
  pose proof Hseal as Hs; unfold seal_config in Hs; do 3 rnd_inv Hs; apply map_err_Ok, validate_Ok in Ha as [_ Hvalid].
  apply seal_with_signer_Ok in Hs; cbn [cfg_issued_at_ms genesis_of genesis_config] in Hvalid.
  pose proof (genesis_valid_until _ _ _ _ _ _ _ Hg Hvalid Ht) as Hvt.
  pose proof (go_kem _ _ _ Hg) as (Hkv & Hkp & _).
  destruct (sealed_config_opened (gk_root g) (genesis_of o ex g secrets) [ek_public (gk_encryption g)] ent1 e ent2 (gk_encryption g)
    (genesis_credentials g) (gk_member g) Genesis t) as [Hwire Hop]; try done.
  { apply Hg. } { by apply genesis_parses. } { by apply list_elem_of_singleton. }
  { rewrite <- Hkp; symmetry; apply Hg. }
  { unfold validate_chain; destruct Hs as [_ _ _ -> -> _ _ _ _ _ _ _ _]; cbn; by rewrite bool_decide_true. }
  apply Envelope_from_bytes_exact in Hwire as [Hw _].
  destruct (load_genesis s k file m o ex g secrets e t) as (er & hr & Her & Hl); try done; [apply Hs|].
  destruct Hsg as [Hrm _ _ Hh _ _ _ _]; apply fmap_Some in Hh as (rec & Hrec & Hb).
  destruct (Hreads (StoreScope_authority net) (au_hist_key 0)) as [x Hx].
  pose proof (read_rep _ _ _ _ _ Hrm (derive_key_len _ _ : scope_wf (StoreScope_authority net)) Hx) as Hxr.
  rewrite (eq_trans Hxr Hrec) in Hx.
  assert (Heh : envelope_head e = mkConfigHead 0 0 (envelope_hash e))
    by (destruct Hs as [_ _ Hep Hrv _ _ _ _ _ _ _ _ _]; unfold envelope_head; by rewrite Hep, Hrv).
  eexists; split; [eapply open_loaded; [exact Hl | | exact (eq_trans (eq_sym Hb) (eq_sym Her)) | exact (genesis_admin _ _ _ _ _ Hg Ht) | apply Hg]|].
  - cbn [onc_head]; rewrite Heh; exact Hx.
  - cbn; by rewrite Heh.
Qed.
End facts.

(** ** A concrete network *)
Module InitializeWitness.
Import ConfigStateWitness AuthorityWitness.

Definition toy_key (seed : option bytes) : bytes := toy_fit 32 (default [] seed).
#[global] Instance toy_keygen : KeyGen := {| kem_gen seed := (toy_key seed, toy_key seed); endpoint_gen := toy_key |}.
(** iroh's public keys have 32 bytes; so do those of this platform. *)
#[local] Instance platform32 : Platform := {|
  endpoint_public := toy_fit 32; endpoint_id_valid bs := Nat.eqb (length bs) 32; relay_url_parse url := Some url; endpoint_data ts := ts |}.
#[global] Instance toy_keygen_laws : KeyGenLaws.
Proof.
  constructor; intros; cbn [kem_gen endpoint_gen toy_keygen fst snd endpoint_public platform32 kem_sk_to_pk kem_sk_valid toy_hpke];
    unfold toy_key; rewrite ?toy_fit_len; done.
Qed.

Definition options : AuthorityInit := mkAuthorityInit (bstr "https://relay") 100 900.
Definition randomness : entropy :=
  [Some (repeat Byte.x11 32); Some (repeat Byte.x33 32); Some (repeat Byte.x22 32); Some (repeat Byte.x66 32);
   Some (repeat Byte.x55 32); Some (repeat Byte.x06 128); Some (repeat Byte.x01 32); Some (repeat Byte.x02 24); None].
Definition empty_store : MemoryState := mkMemoryState 1 1 1 ∅.
Definition no_secrets : gmap SecretId bytes := ∅.
Definition nothing : InitializedAuthority * MemoryState * gmap SecretId bytes * bytes :=
  (mkInitialized (mkAuthorityStatus toy_network [] (mkConfigHead 0 0 []) []) [], empty_store, no_secrets, []).
Definition initialized := initialize_staging empty_store no_secrets options randomness.
Lemma initialized_ok : is_ok initialized = true.
Proof. vm_compute; reflexivity. Qed.
Definition network := ok_else nothing initialized.
#[local] Opaque initialize_staging.
Lemma initializes :
  initialize_staging empty_store no_secrets options randomness = Ok (network.1.1.1, network.1.1.2, network.1.2, network.2).
Proof.
  change (initialized = Ok (network.1.1.1, network.1.1.2, network.1.2, network.2)).
  rewrite (is_ok_else nothing _ initialized_ok); fold network; destruct network as [[[i s] k] f]; reflexivity.
Qed.
#[local] Opaque network.
Lemma memory_opens (k : gmap SecretId bytes) id v : secret_view k !! id = Some v -> open_secret k id = Ok v.
Proof. intros Hv; apply ok_or_Ok; exact Hv. Qed.

Lemma initialized_authority_opens_witness :
  exists a, Authority_open network.1.1.2 network.1.2 (Some network.2) 500 = (network.1.1.2, Ok a) /\
    au_status a = in_status network.1.1.1 /\
    ed_public (in_recovery_root network.1.1.1) = as_root_public_key (au_status a).
Proof.
  exact (initialized_authority_opens empty_store network.1.1.2 no_secrets network.1.2 (ms_records empty_store) options randomness
    network.1.1.1 network.2 500 (memory_rep empty_store) eq_refl (proj1 (Z.leb_le 0 900) eq_refl) initializes
    (conj (proj1 (Z.leb_le 100 500) eq_refl) (proj1 (Z.ltb_lt 500 1000) eq_refl))
    (memory_reads network.1.1.2) (memory_opens network.1.2)).
Defined.
End InitializeWitness.
