(* ===== verification/Identity.v ===== *)
(** * weaver-net: the identity of a client

    Models [crates/weaver-net/src/identity.rs]: the key pair, device id and secret id a
    client keeps for an application, in a record of the state store that refers to a secret
    of the secret store.  [load_or_create_client_identity] is given as the function the code
    is, and once more as the steps between its calls to the two stores, so that several
    processes can be interleaved, and stopped, anywhere. *)

From S2P Require Import Prelude Core Platform Store CertificateWire Certificates Symmetric Initialize.

(* weaver-net/src/identity.rs:17-21 PersistentClientIdentity *)
Record PersistentClientIdentity : Type := mkIdentity {
  ci_secret_key : bytes; ci_device_id : DeviceId; ci_secret_id : SecretId }.
(* weaver-net/src/identity.rs:51-65 IdentityError *)
Inductive IdentityError : Type :=
| IdState (e : StoreError)
| IdSecret (e : SecretStoreError)
| CorruptRecord
| SecretPublicKeyMismatch
| DeviceIdMismatch
| MissingAfterConcurrentCreate.
Definition IDENTITY_KEY_PREFIX : bytes := bstr "identity/client/v1/".
Definition RECORD_MAGIC : bytes := bstr "WVRID" ++ [Byte.x00; Byte.x00; Byte.x01].
Abbreviation RECORD_LEN := (length RECORD_MAGIC + 32 + 32 + 32)%nat.

Section identity.
Context `{Blake3} `{Platform} `{KeyGen} {S K : Type} `{StateStore S} `{SecretStore K}.
Variables (network_id : NetworkId) (app_addr : AppAddr).

(* weaver-net/src/identity.rs:159-164 identity_key *)
Definition identity_key : result StoreError StoreKey := StoreKey_new (IDENTITY_KEY_PREFIX ++ AppAddr_as_bytes app_addr).
(* weaver-net/src/identity.rs:166-172 derive_device_id *)
Definition derive_device_id (endpoint_id : EndpointId) : DeviceId :=
  DeviceId_from_bytes (derive_key (bstr "weaver.device.v1")
    (NetworkId_as_bytes network_id ++ AppAddr_as_bytes app_addr ++ EndpointId_as_bytes endpoint_id)).
(* weaver-net/src/identity.rs:174-180 derive_secret_id *)
Definition derive_secret_id (endpoint_id : EndpointId) : SecretId :=
  SecretId_from_bytes (derive_key (bstr "weaver.secret.endpoint.v1")
    (NetworkId_as_bytes network_id ++ AppAddr_as_bytes app_addr ++ EndpointId_as_bytes endpoint_id)).
(* weaver-net/src/identity.rs:182-189 encode_record *)
Definition encode_record (secret_id : SecretId) (endpoint_id : EndpointId) (device_id : DeviceId) : bytes :=
  RECORD_MAGIC ++ SecretId_as_bytes secret_id ++ EndpointId_as_bytes endpoint_id ++ DeviceId_as_bytes device_id.
(* weaver-net/src/identity.rs:191-215 decode_record *)
Definition decode_record (bs : bytes) : result IdentityError (SecretId * EndpointId * DeviceId) :=
  fail_if (negb (Nat.eqb (length bs) RECORD_LEN) || negb (bool_decide (take (length RECORD_MAGIC) bs = RECORD_MAGIC))) CorruptRecord;;
  let rest := drop (length RECORD_MAGIC) bs in
  endpoint_id ← EndpointId_from_bytes (take 32 (drop 32 rest)) ?? CorruptRecord;
  Ok (SecretId_from_bytes (take 32 rest), endpoint_id, DeviceId_from_bytes (drop 64 rest)).

(** The identity of a key. *)
Definition public_id (secret : bytes) : EndpointId := mkEndpointId (endpoint_public secret).
Definition identity_of (secret : bytes) : PersistentClientIdentity :=
  mkIdentity secret (derive_device_id (public_id secret)) (derive_secret_id (public_id secret)).
(** The part of [load_existing] after the record has been read. *)
(* weaver-net/src/identity.rs:139-156 load_existing *)
Definition check_existing (k : K) (record : bytes) : result IdentityError PersistentClientIdentity :=
  '(secret_id, committed_endpoint, device_id) ← decode_record record;
  secret ← map_err IdSecret (open_secret k secret_id);
  fail_if (negb (Nat.eqb (length secret) 32)) CorruptRecord;;
  fail_if (negb (bool_decide (public_id secret = committed_endpoint))) SecretPublicKeyMismatch;;
  fail_if (negb (bool_decide (derive_device_id committed_endpoint = device_id))) DeviceIdMismatch;;
  Ok (mkIdentity secret device_id secret_id).
(* weaver-net/src/identity.rs:128-157 load_existing *)
Definition load_existing (s : S) (k : K) (scope : StoreScope) (key : StoreKey) : result IdentityError (option PersistentClientIdentity) :=
  record ← map_err IdState (read s scope key);
  match record with
  | None => Ok None
  | Some record => identity ← check_existing k (vb_bytes record); Ok (Some identity)
  end.
(** The batch that commits the record of a new identity. *)
(* weaver-net/src/identity.rs:102-104 load_or_create_client_identity *)
Definition creation_batch (secret : bytes) : result StoreError AtomicBatch :=
  key ← identity_key;
  let i := identity_of secret in
  AtomicBatch_put (AtomicBatch_new (StoreScope_member network_id)) key
    (encode_record (ci_secret_id i) (public_id secret) (ci_device_id i)) Missing.

(** The state of the stores comes back whatever the outcome; [seed] is what the random
    source answers to [SecretKey::generate]. *)
(* weaver-net/src/identity.rs:72-126 load_or_create_client_identity *)
Definition load_or_create_client_identity (s : S) (k : K) (seed : option bytes)
    : S * K * result IdentityError PersistentClientIdentity :=
  let scope := StoreScope_member network_id in
  match (map_err IdState (ensure_supported_schema s);;
         key ← map_err IdState identity_key;
         existing ← load_existing s k scope key; Ok (key, existing)) with
  | Err e => (s, k, Err e)
  | Ok (_, Some identity) => (s, k, Ok identity)
  | Ok (key, None) =>
      let secret := endpoint_gen seed in
      let secret_id := derive_secret_id (public_id secret) in
      match seal k secret_id secret with
      | (k, Err e) => (s, k, Err (IdSecret e))
      | (k, Ok _) =>
          match (confirmed ← map_err IdSecret (open_secret k secret_id);
                 fail_if (negb (bool_decide (confirmed = secret))) SecretPublicKeyMismatch;;
                 map_err IdState (creation_batch secret)) with
          | Err e => (s, k, Err e)
          | Ok batch =>
              match commit s batch with
              | (s, Ok _) => (s, k, Ok (identity_of secret))
              | (s, Err (VersionConflict _ _ _)) =>
                  match (existing ← load_existing s k scope key; existing ?? MissingAfterConcurrentCreate) with
                  | Err e => (s, k, Err e)
                  | Ok winner =>
                      if decide (ci_secret_id winner = secret_id) then (s, k, Ok winner)
                      else match delete_secret k secret_id with
                           | (k, Err e) => (s, k, Err (IdSecret e))
                           | (k, Ok _) => (s, k, Ok winner)
                           end
                  end
              | (s, Err e) => (s, k, Err (IdState e))
              end
          end
      end
  end.

(** ** The same, one store call at a time
    [Found] has read the record and will open its secret; after a lost race it remembers the
    secret it made itself. *)
Inductive Creator : Type :=
| Begin
| Found (mine : option bytes) (record : bytes)
| Generated (secret : bytes)
| Sealed (secret : bytes)
| Confirmed (secret : bytes)
| Lost (secret : bytes)
| Cleaning (secret : bytes) (winner : PersistentClientIdentity)
| Finished (r : result IdentityError PersistentClientIdentity).

(* weaver-net/src/identity.rs:72-126 load_or_create_client_identity *)
Definition creator_step (s : S) (k : K) (seed : option bytes) (c : Creator) : S * K * Creator :=
  let scope := StoreScope_member network_id in
  match c with
  | Begin =>
      (s, k, match (map_err IdState (ensure_supported_schema s);;
                    key ← map_err IdState identity_key;
                    map_err IdState (read s scope key)) with
             | Err e => Finished (Err e)
             | Ok (Some record) => Found None (vb_bytes record)
             | Ok None => Generated (endpoint_gen seed)
             end)
  | Found mine record =>
      (s, k, match check_existing k record with
             | Err e => Finished (Err e)
             | Ok winner =>
                 match mine with
                 | None => Finished (Ok winner)
                 | Some secret =>
                     if decide (ci_secret_id winner = derive_secret_id (public_id secret)) then Finished (Ok winner)
                     else Cleaning secret winner
                 end
             end)
  | Generated secret =>
      match seal k (derive_secret_id (public_id secret)) secret with
      | (k, Err e) => (s, k, Finished (Err (IdSecret e)))
      | (k, Ok _) => (s, k, Sealed secret)
      end
  | Sealed secret =>
      (s, k, match (confirmed ← map_err IdSecret (open_secret k (derive_secret_id (public_id secret)));
                    fail_if (negb (bool_decide (confirmed = secret))) SecretPublicKeyMismatch) with
             | Err e => Finished (Err e)
             | Ok _ => Confirmed secret
             end)
  | Confirmed secret =>
      match creation_batch secret with
      | Err e => (s, k, Finished (Err (IdState e)))
      | Ok batch =>
          match commit s batch with
          | (s, Ok _) => (s, k, Finished (Ok (identity_of secret)))
          | (s, Err (VersionConflict _ _ _)) => (s, k, Lost secret)
          | (s, Err e) => (s, k, Finished (Err (IdState e)))
          end
      end
  | Lost secret =>
      (s, k, match (key ← map_err IdState identity_key; map_err IdState (read s scope key)) with
             | Err e => Finished (Err e)
             | Ok None => Finished (Err MissingAfterConcurrentCreate)
             | Ok (Some record) => Found (Some secret) (vb_bytes record)
             end)
  | Cleaning secret winner =>
      match delete_secret k (derive_secret_id (public_id secret)) with
      | (k, Err e) => (s, k, Finished (Err (IdSecret e)))
      | (k, Ok _) => (s, k, Finished (Ok winner))
      end
  | Finished r => (s, k, Finished r)
  end.
(** Several processes on the same stores: each event lets one of them take a step. *)
Definition creators_step (st : S * K * list Creator) (ev : nat * option bytes) : S * K * list Creator :=
  let '(s, k, cs) := st in
  match cs !! ev.1 with
  | None => st
  | Some c => let '(s, k, c) := creator_step s k ev.2 c in (s, k, <[ev.1 := c]> cs)
  end.
Definition creators_run : S * K * list Creator -> list (nat * option bytes) -> S * K * list Creator := foldl creators_step.
End identity.
