(* ===== verification/IdentityFacts.v ===== *)
(** * Properties of the client identity

    Run alone, the steps of a creator are the function of the source.  However many
    processes create the identity of an application at the same time, and wherever any of
    them is stopped, they agree on one identity, a committed record always refers to a
    secret that is there, and none of them waits for another. *)

From S2P Require Import Prelude Core Platform Store CertificateWire Certificates Symmetric ToyCrypto Initialize Identity.

(** Keys of iroh endpoints. *)
Class EndpointKeyLaws `{Platform} `{KeyGen} : Prop := {
  generated_key_len seed : length (endpoint_gen seed) = 32%nat;
  public_key_valid secret : length secret = 32%nat ->
    length (endpoint_public secret) = 32%nat /\ endpoint_id_valid (endpoint_public secret) = true;
}.

Section alone.
Context `{Blake3} `{Platform} `{KeyGen} {S K : Type} `{StateStore S} `{SecretStore K}.

(** The steps are the function.  A creator that runs alone ends with the stores and the
    result of [load_or_create_client_identity]. *)
Lemma creator_alone_finishes (network_id : NetworkId) (app_addr : AppAddr) (s : S) (k : K) (seed : option bytes) :
  let '(s', k', r) := load_or_create_client_identity network_id app_addr s k seed in
  creators_run network_id app_addr (s, k, [Begin]) (repeat (0%nat, seed) 7) = (s', k', [Finished r]).
Proof.
  unfold load_or_create_client_identity, load_existing; cbn [repeat creators_run foldl].
  destruct (ensure_supported_schema s) as [?|e] eqn:E1; cbn; rewrite E1; cbn; [|done].
  destruct (identity_key app_addr) as [key|e] eqn:E2; cbn; [|done].
  destruct (read s (StoreScope_member network_id) key) as [[record|]|e] eqn:E3; cbn; [| |done].
  { destruct (check_existing network_id app_addr k (vb_bytes record)); done. }
  set (x := endpoint_gen seed); destruct (seal k (derive_secret_id network_id app_addr (public_id x)) x) as [k1 [?|e]] eqn:E4; cbn; [|done].
  destruct (open_secret k1 (derive_secret_id network_id app_addr (public_id x))) as [c|e] eqn:E5; cbn; [|done].
  destruct (fail_if (negb (bool_decide (c = x))) SecretPublicKeyMismatch) as [?|e]; cbn; [|done].
  destruct (creation_batch network_id app_addr x) as [b|e] eqn:E6; cbn; [|done].
  destruct (commit s b) as [s1 [?|[]]] eqn:E7; cbn; try done.
  rewrite E2; cbn; destruct (read s1 (StoreScope_member network_id) key) as [[record|]|e]; cbn; [|done|done].
  destruct (check_existing network_id app_addr k1 (vb_bytes record)) as [w|e]; cbn; [|done].
  case_decide; cbn; [done|]; by destruct (delete_secret k1 (derive_secret_id network_id app_addr (public_id x))) as [k2 [?|e]].
Qed.
End alone.

Section together.
Context `{Lblake : Blake3Laws} `{Lkeys : EndpointKeyLaws} {S K : Type} `{Lstore : StateStoreLaws S} `{Lsecrets : SecretStoreLaws K}.
Variables (network_id : NetworkId) (app_addr : AppAddr).
Hypothesis (Hnet : NetworkId_wf network_id).
Hypothesis (Happ : AppAddr_wf app_addr).

#[local] Abbreviation scope := (StoreScope_member network_id).
#[local] Abbreviation sid x := (derive_secret_id network_id app_addr (public_id x)).
#[local] Abbreviation identity := (identity_of network_id app_addr).
Definition record_key : StoreKey := mkStoreKey (IDENTITY_KEY_PREFIX ++ AppAddr_as_bytes app_addr).
Definition record_of (secret : bytes) : bytes :=
  encode_record (ci_secret_id (identity secret)) (public_id secret) (ci_device_id (identity secret)).

Lemma record_key_ok : identity_key app_addr = Ok record_key /\ StoreKey_wf record_key.
Proof.
  assert (StoreKey_wf record_key) as Hw by (unfold StoreKey_wf, record_key, len; cbn [StoreKey_as_bytes]; rewrite length_app, Happ; by vm_compute).
  split; [|done]; apply StoreKey_new_wf; done.
Qed.
Lemma split_record (a b c : bytes) : length a = 32%nat -> length b = 32%nat ->
  take 32 (drop 32 (a ++ b ++ c)) = b /\ take 32 (a ++ b ++ c) = a /\ drop 64 (a ++ b ++ c) = c.
Proof.
  intros Ha Hb; rewrite drop_app_length', !take_app_length' by done; split_and!; [done|done|].
  rewrite app_assoc; apply drop_app_length'; rewrite length_app; lia.
Qed.
Lemma decode_record_of secret : length secret = 32%nat ->
  decode_record (record_of secret) = Ok (sid secret, public_id secret, derive_device_id network_id app_addr (public_id secret)).
Proof.
  intros Hs; destruct (public_key_valid secret Hs) as [Hl Hv]; unfold decode_record, record_of, encode_record, identity_of; cbn [ci_secret_id ci_device_id].
  assert (length (SecretId_as_bytes (sid secret)) = 32%nat) as L1 by apply derive_key_len.
  assert (length (DeviceId_as_bytes (derive_device_id network_id app_addr (public_id secret))) = 32%nat) as L2 by apply derive_key_len.
  assert (length (EndpointId_as_bytes (public_id secret)) = 32%nat) as L3 by exact Hl.
  rewrite drop_app_length, take_app_length, bool_decide_true, !length_app, L1, L2, L3 by done; cbn [negb orb Nat.eqb fail_if mbind result_bind].
  destruct (split_record _ _ (DeviceId_as_bytes (derive_device_id network_id app_addr (public_id secret))) L1 L3) as (-> & -> & ->).
  unfold EndpointId_from_bytes; cbn [EndpointId_as_bytes public_id]; rewrite Hv; cbn.
  reflexivity.
Qed.
(** What is found under a record is the identity of its secret. *)
Lemma check_existing_own k secret i : length secret = 32%nat -> secret_view k !! sid secret = Some secret ->
  check_existing network_id app_addr k (record_of secret) = Ok i -> i = identity secret.
Proof.
  intros Hs Hv; unfold check_existing; rewrite decode_record_of by done; cbn [mbind result_bind]; intros Hc; res_inv; bool_inv.
  match goal with Ho : open_secret k _ = Ok _ |- _ => apply open_view in Ho; rewrite Hv in Ho; injection Ho as <- end; done.
Qed.

(** ** The invariant
    [o] is the secret of the committed record, if there is one. *)
Definition identity_stored (m : records) (k : K) (o : option bytes) : Prop :=
  vb_bytes <$> m !! (scope, record_key) = record_of <$> o /\
  forall secret, o = Some secret -> length secret = 32%nat /\ secret_view k !! sid secret = Some secret.
Definition fits (k : K) (o : option bytes) (c : Creator) : Prop :=
  match c with
  | Begin | Finished (Err _) => True
  | Found _ record => exists secret, o = Some secret /\ record = record_of secret
  | Generated x | Sealed x | Lost x => length x = 32%nat
  | Confirmed x => length x = 32%nat /\ (o = None -> secret_view k !! sid x = Some x)
  | Cleaning x winner => exists secret, o = Some secret /\ winner = identity secret /\ sid x <> sid secret
  | Finished (Ok i) => exists secret, o = Some secret /\ i = identity secret
  end.
Definition creators_inv (st : S * K * list Creator) (o : option bytes) : Prop :=
  let '(s, k, cs) := st in exists m, store_rep s m /\ identity_stored m k o /\ Forall (fits k o) cs.

(** The other creators do not mind a change that keeps what they rely on. *)
Lemma fits_mono k k' o o' c :
  (forall secret, o = Some secret -> o' = Some secret) ->
  (o' = None -> forall x, secret_view k !! sid x = Some x -> secret_view k' !! sid x = Some x) ->
  fits k o c -> fits k' o' c.
Proof.
  intros Ho Hk; destruct c as [|mine r|x|x|x|x|x w|[i|e]]; cbn; try done.
  - intros (z & Hz & ?); eauto.
  - intros [Hl Hc]; split; [done|]; intros Hn; apply Hk, Hc; [done|]; destruct o as [z|]; [by rewrite (Ho z) in Hn | done].
  - intros (z & Hz & ?); eauto.
  - intros (z & Hz & ?); eauto.
Qed.
Lemma creation_batch_ok x b : creation_batch network_id app_addr x = Ok b ->
  batch_wf b /\ batch_scope b = scope /\ batch_operations b = [Put record_key (record_of x) Missing].
Proof.
  unfold creation_batch; destruct record_key_ok as [-> Hw]; cbn [mbind result_bind]; intros Hb.
  by apply (AtomicBatch_put_wf _ _ _ _ _ (AtomicBatch_new_wf scope Hnet) Hw) in Hb.
Qed.
Lemma creation_commit x b s m s' r : creation_batch network_id app_addr x = Ok b -> store_rep s m -> commit s b = (s', r) ->
  store_rep s' m /\ (forall v, r <> Ok v) \/
  m !! (scope, record_key) = None /\ exists m', store_rep s' m' /\ vb_bytes <$> m' !! (scope, record_key) = Some (record_of x).
Proof.
  intros (Hw & Hsc & Hops)%creation_batch_ok Hm Hc.
  assert (Heff : forall m', preconditions m b -> store_rep s' m' -> batch_effect m b m' ->
    m !! (scope, record_key) = None /\ exists m', store_rep s' m' /\ vb_bytes <$> m' !! (scope, record_key) = Some (record_of x)).
  { intros m' Hp Hm' [Hin _]; unfold preconditions in Hp; rewrite Hops, Hsc in *; apply Forall_inv in Hp; cbn in Hp.
    unfold actual_version in Hp; destruct (m !! (scope, record_key)); [done|]; split; [done|]; exists m'; split; [done|].
    apply (Hin (Put record_key (record_of x) Missing)), list_elem_of_here. }
  destruct r as [v|e].
  - destruct (commit_success _ _ _ _ _ Hm Hw Hc) as (Hp & m' & Hm' & He); right; by eapply Heff.
  - destruct (commit_failure _ _ _ _ _ Hm Hw Hc) as [?|(_ & Hp & m' & Hm' & He)]; [by left | right; by eapply Heff].
Qed.
Lemma seal_keeps k k' x r y : seal k (sid x) x = (k', r) -> secret_view k !! sid y = Some y -> secret_view k' !! sid y = Some y.
Proof.
  intros Hs Hy; assert (secret_view k' = secret_view k \/ secret_view k' = <[sid x := x]> (secret_view k) /\
    (secret_view k !! sid x = None \/ secret_view k !! sid x = Some x)) as [->|[-> Hx]]; [|done|].
  - destruct r as [[]|e]; [right; by apply seal_success | destruct (seal_failure _ _ _ _ _ Hs) as [?|(_ & ? & ?)]; auto].
  - destruct (decide (sid x = sid y)) as [He|He]; [|by rewrite lookup_insert_ne].
    rewrite He in *; rewrite Hy in Hx; destruct Hx as [?|[= ->]]; [done | apply lookup_insert_eq].
Qed.
(** What one step does, from the point of view of the stores and of the other creators. *)
Definition step_ok (k : K) (o : option bytes) (s' : S) (k' : K) (c' : Creator) : Prop :=
  exists m' o', store_rep s' m' /\ identity_stored m' k' o' /\ fits k' o' c' /\ (forall z, o = Some z -> o' = Some z) /\
    (o' = None -> forall x, secret_view k !! sid x = Some x -> secret_view k' !! sid x = Some x).
Lemma step_reads s m k o c' : store_rep s m -> identity_stored m k o -> fits k o c' -> step_ok k o s k c'.
Proof. intros ? ? ?; exists m, o; split_and!; auto. Qed.
Lemma triple_inv {X Y Z} (x x' : X) (y y' : Y) (z z' : Z) : (x, y, z) = (x', y', z') -> x = x' /\ y = y' /\ z = z'.
Proof. naive_solver. Qed.
Lemma commit_step_ok s k seed x s' k' c' m o :
  store_rep s m -> identity_stored m k o -> fits k o (Confirmed x) ->
  creator_step network_id app_addr s k seed (Confirmed x) = (s', k', c') -> step_ok k o s' k' c'.
Proof.
  intros Hm Hi Hc Hs; pose proof Hi as [Hrec _]; cbn [creator_step fits] in *.
  destruct Hc as [Hx Hcon]; destruct (creation_batch network_id app_addr x) as [b|e] eqn:Hb;
    [|apply triple_inv in Hs as (<- & <- & <-); by apply (step_reads _ m)].
  destruct (commit s b) as [s1 r] eqn:Hcm.
  assert (s' = s1 /\ k' = k) as [-> ->] by (destruct r as [?|[]]; apply triple_inv in Hs as (<- & <- & <-); done).
  destruct (creation_commit _ _ _ _ _ _ Hb Hm Hcm) as [[Hm1 Hne]|(Hnone & m1 & Hm1 & Hr)].
  + apply (step_reads _ m); [done|done|]; destruct r as [v|[]]; [by destruct (Hne v)|..]; injection Hs as <-; done.
  + rewrite Hnone in Hrec; destruct o as [z|]; [done|]; exists m1, (Some x); split_and!; [done| | |done|done].
    * split; [done|]; intros z [= <-]; auto.
    * destruct r as [v|[]]; injection Hs as <-; cbn; eauto.
Qed.
Lemma creator_step_ok s k seed c s' k' c' m o :
  store_rep s m -> identity_stored m k o -> fits k o c ->
  creator_step network_id app_addr s k seed c = (s', k', c') -> step_ok k o s' k' c'.
Proof.
  intros Hm Hi Hc Hs; destruct record_key_ok as [Hkey Hkw]; pose proof Hi as [Hrec Hsec].
  assert (Hread : forall v, read s scope record_key = Ok v -> vb_bytes <$> v = record_of <$> o).
  { intros v Hv; apply (read_rep _ _ scope _ _ Hm Hnet) in Hv as ->; done. }
  destruct c as [|mine r|x|x|x|x|x w|res]; cbn [creator_step fits] in *.
  - apply triple_inv in Hs as (<- & <- & <-); apply (step_reads _ m); [done|done|].
    destruct (ensure_supported_schema s); cbn; [|done]; rewrite Hkey; cbn.
    destruct (read s scope record_key) as [[v|]|]; cbn; [| |done].
    + specialize (Hread _ eq_refl); destruct o as [z|]; [|done]; injection Hread as Hread; eauto.
    + apply generated_key_len.
  - destruct Hc as (z & -> & ->); destruct (Hsec z eq_refl) as [Hz Hv]; apply triple_inv in Hs as (<- & <- & <-); apply (step_reads _ m); [done|done|].
    destruct (check_existing network_id app_addr k (record_of z)) as [i|] eqn:He; [|done].
    apply check_existing_own in He as ->; [|done..]; destruct mine as [y|]; [case_decide as Hd|]; cbn; [eauto| |eauto].
    exists z; split_and!; [done|done|]; intros Hq; by apply Hd.
  - destruct (seal k (sid x) x) as [k1 r] eqn:Hseal.
    assert (s' = s /\ k' = k1 /\ fits k1 o c') as (-> & -> & Hf) by (destruct r; apply triple_inv in Hs as (<- & <- & <-); done).
    exists m, o; split_and!; [done| |done|done|intros _ y; by apply (seal_keeps _ _ _ _ _ Hseal)].
    split; [done|]; intros z Hz; destruct (Hsec z Hz); split; [done|]; by apply (seal_keeps _ _ _ _ _ Hseal).
  - apply triple_inv in Hs as (<- & <- & <-); apply (step_reads _ m); [done|done|].
    destruct (open_secret k (sid x)) as [v|] eqn:Ho; cbn; [|done]; destruct (fail_if _ _) eqn:Hf; [|done]; cbn.
    apply fail_if_Ok in Hf; bool_inv; subst v; apply open_view in Ho; done.
  - exact (commit_step_ok s k seed x _ _ _ m o Hm Hi Hc Hs).
  - apply triple_inv in Hs as (<- & <- & <-); apply (step_reads _ m); [done|done|]; rewrite Hkey; cbn.
    destruct (read s scope record_key) as [[v|]|]; cbn; [|done|done].
    specialize (Hread _ eq_refl); destruct o as [z|]; [|done]; injection Hread as Hread; eauto.
  - destruct Hc as (z & -> & -> & Hne); destruct (Hsec z eq_refl) as [Hz Hv]; destruct (delete_secret k (sid x)) as [k1 r] eqn:Hd.
    assert (s' = s /\ k' = k1 /\ fits k1 (Some z) c') as (-> & -> & Hf) by (destruct r; apply triple_inv in Hs as (<- & <- & <-); cbn; eauto).
    exists m, (Some z); split_and!; [done| |done|done|done]; split; [done|]; intros z' [= <-]; split; [done|].
    assert (secret_view k1 = secret_view k \/ secret_view k1 = delete (sid x) (secret_view k)) as [->| ->];
      [destruct r as [[]|e]; [right; by apply delete_success | by apply (delete_failure _ _ _ e)]|done|by rewrite lookup_delete_ne].
  - apply triple_inv in Hs as (<- & <- & <-); by apply (step_reads _ m).
Qed.
Lemma creators_run_inv st o evs : creators_inv st o ->
  exists o', creators_inv (creators_run network_id app_addr st evs) o' /\ forall z, o = Some z -> o' = Some z.
Proof.
  revert st o; induction evs as [|[i seed] evs IH]; intros [[s k] cs] o (m & Hm & Hi & Hf); [exists o; split; [by exists m | done]|].
  cbn [creators_run foldl creators_step fst snd]; destruct (cs !! i) as [c|] eqn:Hc; [|apply (IH (s, k, cs)); by exists m].
  destruct (creator_step network_id app_addr s k seed c) as [[s' k'] c'] eqn:Hs.
  destruct (creator_step_ok _ _ _ _ _ _ _ _ _ Hm Hi (Forall_lookup_1 _ _ _ _ Hf Hc) Hs) as (m' & o1 & Hm' & Hi' & Hc' & Ho1 & Hk).
  destruct (IH (s', k', <[i := c']> cs) o1) as (o2 & Hinv & Ho2); [|exists o2; split; [exact Hinv | auto]].
  exists m'; split_and!; [done|done|]; apply Forall_insert; [|done].
  eapply Forall_impl; [exact Hf|]; intros y; by apply fits_mono.
Qed.

(** C18: processes that create an identity at the same time agree.  Start any number of
    them on stores that hold no identity for the application, or a complete one; let them
    take their steps in any order, stop any of them anywhere, and let any store call fail.
    At every moment all that have succeeded returned the same identity, a committed record
    refers to a secret that is in the secret store, and an identity that was there before
    is still the one. *)
Theorem concurrent_creators_agree (s : S) (k : K) (m : records) (o : option bytes) (n : nat) (evs : list (nat * option bytes)) :
  store_rep s m -> identity_stored m k o ->
  let '(s', k', cs) := creators_run network_id app_addr (s, k, replicate n Begin) evs in
  exists m' o', store_rep s' m' /\ identity_stored m' k' o' /\ (forall secret, o = Some secret -> o' = Some secret) /\
    forall i identity, cs !! i = Some (Finished (Ok identity)) ->
      exists secret, o' = Some secret /\ identity = identity_of network_id app_addr secret.
Proof.
  intros Hm Hi; destruct (creators_run_inv (s, k, replicate n Begin) o evs) as (o' & Hinv & Ho).
  { exists m; split_and!; [done|done|]; by apply Forall_replicate. }
  destruct (creators_run _ _ _ evs) as [[s' k'] cs]; destruct Hinv as (m' & Hm' & Hi' & Hf).
  exists m', o'; split_and!; [done|done|done|]; intros i identity Hc; apply (Forall_lookup_1 _ _ _ _ Hf Hc).
Qed.

(** *** Every creator finishes *)
(** How many steps a creator has left. *)
Definition steps_left (c : Creator) : nat :=
  match c with
  | Begin => 7 | Generated _ => 6 | Sealed _ => 5 | Confirmed _ => 4 | Lost _ => 3 | Found (Some _) _ => 2
  | Found None _ | Cleaning _ _ => 1 | Finished _ => 0
  end.
Lemma step_left s k seed c : (steps_left (creator_step network_id app_addr s k seed c).2 <= pred (steps_left c))%nat.
Proof.
  destruct c as [|[x|] rec|x|x|x|x|x w|res]; cbn [creator_step]; repeat case_match; cbn; repeat case_match; cbn; lia.
Qed.
Lemma run_left st evs i c : st.2 !! i = Some c ->
  exists c', (creators_run network_id app_addr st evs).2 !! i = Some c' /\
    (steps_left c' <= steps_left c - length (filter (fun ev => ev.1 = i) evs))%nat.
Proof.
  revert st c; induction evs as [|[j seed] evs IH]; intros [[s k] cs] c Hc; cbn [snd] in Hc; [exists c; split; [done | cbn; lia]|].
  cbn [creators_run foldl creators_step fst snd]; rewrite filter_cons; cbn [fst].
  destruct (cs !! j) as [cj|] eqn:Hj.
  - pose proof (step_left s k seed cj) as Hl; destruct (creator_step network_id app_addr s k seed cj) as [[s' k'] c'] eqn:Hs; cbn [snd] in Hl.
    case_decide as Hd.
    + subst j; rewrite Hc in Hj; injection Hj as <-; destruct (IH (s', k', <[i := c']> cs) c') as (c2 & Hc2 & Hle).
      { cbn; apply list_lookup_insert_eq; by apply lookup_lt_Some in Hc. }
      exists c2; split; [exact Hc2|]; cbn [length]; lia.
    + destruct (IH (s', k', <[j := c']> cs) c) as (c2 & Hc2 & Hle); [cbn; by rewrite list_lookup_insert_ne|]; exists c2; split; [exact Hc2 | done].
  - case_decide as Hd; [subst j; congruence|]; by apply (IH (s, k, cs)).
Qed.
(** Once an identity is stored, every later call finds it, and writes nothing. *)
Lemma stored_is_loaded s k m secret seed :
  store_rep s m -> identity_stored m k (Some secret) ->
  exists r, load_or_create_client_identity network_id app_addr s k seed = (s, k, r) /\
    (r = Ok (identity secret) \/
     (exists e, r = Err (IdState e) /\ (ensure_supported_schema s = Err e \/ read s scope record_key = Err e)) \/
     (exists e, r = Err (IdSecret e) /\ open_secret k (sid secret) = Err e /\ e <> SecretNotFound)).
Proof.
  intros Hm [Hrec Hsec]; destruct (Hsec secret eq_refl) as [Hlen Hv]; cbn in Hrec; unfold load_or_create_client_identity, load_existing.
  destruct (ensure_supported_schema s) as [u|e]; cbn [map_err mbind result_bind]; [|eexists; split; [done|]; right; left; eauto].
  destruct record_key_ok as [-> _]; cbn [map_err mbind result_bind].
  destruct (read s scope record_key) as [v|e] eqn:Hr; cbn [map_err mbind result_bind]; [|eexists; split; [done|]; right; left; eauto].
  apply (read_rep _ _ scope _ _ Hm Hnet) in Hr; subst v; apply fmap_Some in Hrec as (v & -> & Hb); rewrite <- Hb.
  unfold check_existing; rewrite decode_record_of by done; cbn [mbind result_bind].
  destruct (open_secret k (sid secret)) as [x|e] eqn:Ho; cbn [map_err mbind result_bind].
  - apply open_view in Ho; rewrite Hv in Ho; injection Ho as <-; rewrite Hlen, !bool_decide_true by done; cbn; eexists; split; [done|]; by left.
  - eexists; split; [done|]; right; right; exists e; split_and!; [done..|]; intros ->; apply open_missing in Ho; congruence.
Qed.

(** C37: creating an identity never waits for another process, and what it returns stays.
    Start any number of processes as before.  Each of them is done after at most seven
    steps of its own, whatever the others do in between and wherever they stop.  If it has
    succeeded, then any later call of [load_or_create_client_identity] returns the same
    identity without writing to either store, unless the state store reports an error or
    the secret store one other than that the secret is missing. *)
Theorem creators_finish (s : S) (k : K) (m : records) (o : option bytes) (n i : nat) (evs : list (nat * option bytes)) (seed : option bytes) :
  store_rep s m -> identity_stored m k o -> (i < n)%nat -> (7 <= length (filter (fun ev => ev.1 = i) evs))%nat ->
  let '(s', k', cs) := creators_run network_id app_addr (s, k, replicate n Begin) evs in
  exists r, cs !! i = Some (Finished r) /\ forall identity, r = Ok identity ->
    exists r', load_or_create_client_identity network_id app_addr s' k' seed = (s', k', r') /\
      (r' = Ok identity \/
       (exists e, r' = Err (IdState e) /\ (ensure_supported_schema s' = Err e \/ read s' scope record_key = Err e)) \/
       (exists e, r' = Err (IdSecret e) /\ open_secret k' (ci_secret_id identity) = Err e /\ e <> SecretNotFound)).
Proof.
  intros Hm Hi Hlt Hsteps; destruct (creators_run_inv (s, k, replicate n Begin) o evs) as (o' & Hinv & _).
  { exists m; split_and!; [done|done|]; by apply Forall_replicate. }
  destruct (run_left (s, k, replicate n Begin) evs i Begin) as (c' & Hc' & Hle); [cbn; by apply lookup_replicate|].
  destruct (creators_run _ _ _ evs) as [[s' k'] cs]; destruct Hinv as (m' & Hm' & Hi' & Hf); cbn [snd steps_left] in *.
  destruct c' as [|[x|] rec|x|x|x|x|x w|res]; cbn [steps_left] in Hle; try lia; exists res; split; [done|]; intros ident ->.
  destruct (Forall_lookup_1 _ _ _ _ Hf Hc') as (secret & -> & ->); apply (stored_is_loaded s' k' m' secret seed Hm' Hi').
Qed.
End together.

(** ** Witnesses *)
Module IdentityWitness.
Import InitializeWitness.
#[local] Instance toy_endpoint_keys : EndpointKeyLaws.
Proof.
  split; [intros seed; apply toy_fit_len|].
  intros secret Hs; cbn; rewrite Hs; done.
Qed.
Definition app : AppAddr := AppAddr_from_bytes (repeat Byte.x44 32).
Definition first : option bytes := Some (repeat Byte.x0a 32).
Definition second : option bytes := Some (repeat Byte.x0b 32).
(** Both find nothing, the second commits, and the first finds out. *)
Definition race : list (nat * option bytes) :=
  [(0, first); (1, second); (0, None); (1, None); (0, None); (1, None); (1, None); (0, None); (0, None); (0, None); (0, None)]%nat.
Definition no_secrets : gmap SecretId bytes := ∅.
Definition winner : PersistentClientIdentity := Eval vm_compute in identity_of toy_network app (repeat Byte.x0b 32).
Lemma race_ends : (creators_run toy_network app (MemoryStateStore_new, no_secrets, replicate 2 Begin) race).2 = replicate 2 (Finished (Ok winner)).
Proof. vm_compute; reflexivity. Qed.
Lemma nothing_stored : identity_stored toy_network app ∅ no_secrets None.
Proof. split; [by rewrite lookup_empty | done]. Qed.
Lemma concurrent_creators_agree_witness :
  let '(s', k', cs) := creators_run toy_network app (MemoryStateStore_new, no_secrets, replicate 2 Begin) race in
  exists secret, identity_stored toy_network app (ms_records s') k' (Some secret) /\ winner = identity_of toy_network app secret.
Proof.
  pose proof (concurrent_creators_agree toy_network app eq_refl eq_refl MemoryStateStore_new no_secrets ∅ None 2 race eq_refl nothing_stored) as Ht.
  pose proof race_ends as Hr; destruct (creators_run _ _ _ race) as [[s' k'] cs]; cbn [snd] in Hr; subst cs.
  destruct Ht as (m' & o' & Hm & Hi & _ & Hf); destruct (Hf 0%nat winner eq_refl) as (secret & -> & Hw).
  exists secret; split; [|exact Hw]; change (ms_records s' = m') in Hm; subst m'; exact Hi.
Defined.
(** The first process takes its seven steps in the race. *)
Lemma creators_finish_witness :
  let '(s', k', cs) := creators_run toy_network app (MemoryStateStore_new, no_secrets, replicate 2 Begin) race in
  exists r, load_or_create_client_identity toy_network app s' k' None = (s', k', r).
Proof.
  pose proof (creators_finish toy_network app eq_refl eq_refl MemoryStateStore_new no_secrets ∅ None 2 0 race None eq_refl nothing_stored
    ltac:(lia) ltac:(vm_compute; lia)) as Ht.
  pose proof race_ends as Hr; destruct (creators_run _ _ _ race) as [[s' k'] cs]; cbn [snd] in Hr; subst cs.
  destruct Ht as (r & Hfin & Hr); injection Hfin as <-; destruct (Hr winner eq_refl) as (r' & Hl & _); exists r'; exact Hl.
Defined.
End IdentityWitness.
