(* ===== verification/Invitation.v ===== *)
(** * weaver-relay-core: invitations

    Models [crates/weaver-relay-core/src/invitation.rs]: the signed invitation a
    device bootstraps from, its binary and text form, the messages of the bootstrap
    protocol, and the operations of the authority that create, redeem and revoke
    invitations.  Base64 is the interface [Base64]. *)

From S2P Require Import Prelude Platform Wire Core Store CertificateWire Certificates Symmetric ToyCrypto Snapshot Validate.
From S2P Require Import Envelope EnvelopeChain ConfigState JoinTicket Authority SocketAddr.

(** The URL-safe alphabet without padding. *)
Class Base64 : Type := { b64_encode : bytes -> bytes; b64_decode : bytes -> option bytes }.
Definition b64_char (b : Byte.byte) : bool :=
  between 65 90 b || between 97 122 b || between 48 57 b || bool_decide (b = Byte.x2d) || bool_decide (b = Byte.x5f).
Class Base64Laws `{Base64} : Prop := {
  b64_round_trip bs : b64_decode (b64_encode bs) = Some bs;
  b64_alphabet bs : forallb b64_char (b64_encode bs) = true;
}.

(** ** [str::trim] *)
(** The encodings of the characters with the property [White_Space]. *)
Definition white_space : list bytes :=
  ((fun z => [byte_of_Z z]) <$> [9; 10; 11; 12; 13; 32])
  ++ [[Byte.xc2; Byte.x85]; [Byte.xc2; Byte.xa0]; [Byte.xe1; Byte.x9a; Byte.x80]]
  ++ ((fun z => [Byte.xe2; Byte.x80; byte_of_Z z]) <$> [128; 129; 130; 131; 132; 133; 134; 135; 136; 137; 138; 168; 169; 175])
  ++ [[Byte.xe2; Byte.x81; Byte.x9f]; [Byte.xe3; Byte.x80; Byte.x80]].
Definition strip_suffix (p s : bytes) : option bytes := reverse <$> strip_prefix (reverse p) (reverse s).
(** One character at a time; every step shortens the string. *)
Fixpoint strip_all (strip : bytes -> bytes -> option bytes) (fuel : nat) (s : bytes) : bytes :=
  match fuel with
  | O => s
  | S fuel => match omap (fun p => strip p s) white_space with [] => s | s' :: _ => strip_all strip fuel s' end
  end.
Definition trim (s : bytes) : bytes :=
  let s := strip_all strip_prefix (length s) s in strip_all strip_suffix (length s) s.

(* weaver-relay-core/src/invitation.rs:20-21 MAGIC *)
Definition INVITATION_MAGIC : bytes := bstr "WVRINV" ++ [Byte.x00; Byte.x01].
(* weaver-relay-core/src/invitation.rs:23-23 MAX_DIRECT_ADDRESSES *)
Definition MAX_DIRECT_ADDRESSES : Z := 8.
(* weaver-relay-core/src/invitation.rs:24-24 INVITATION_KEY_PREFIX *)
Definition INVITATION_KEY_PREFIX : bytes := bstr "authority/invitation/v1/".
(* weaver-relay-core/src/invitation.rs:25-25 CONSUMED_MAGIC *)
Definition CONSUMED_MAGIC : bytes := bstr "WVRUSE" ++ [Byte.x00; Byte.x01].
(* weaver-relay-core/src/invitation.rs:26-26 TEXT_PREFIX *)
Definition TEXT_PREFIX : bytes := bstr "weaver-invite-v1:".
(* weaver-relay-core/src/invitation.rs:27-27 BOOTSTRAP_ALPN_PREFIX *)
Definition BOOTSTRAP_ALPN_PREFIX : bytes := bstr "weaver/bootstrap/1/".
(* weaver-relay-core/src/invitation.rs:28-28 BOOTSTRAP_REQUEST_MAGIC *)
Definition BOOTSTRAP_REQUEST_MAGIC : bytes := bstr "WVRBSR" ++ [Byte.x00; Byte.x01].
(* weaver-relay-core/src/invitation.rs:29-29 BOOTSTRAP_RESPONSE_MAGIC *)
Definition BOOTSTRAP_RESPONSE_MAGIC : bytes := bstr "WVRBSP" ++ [Byte.x00; Byte.x01].
(* weaver-relay-core/src/invitation.rs:30-30 MAX_BOOTSTRAP_PAYLOAD *)
Definition MAX_BOOTSTRAP_PAYLOAD : Z := 1024 * 1024.

(* weaver-relay-core/src/invitation.rs:53-58 bootstrap_alpn *)
Definition bootstrap_alpn (network_id : NetworkId) : bytes := BOOTSTRAP_ALPN_PREFIX ++ NetworkId_as_bytes network_id.

(* weaver-relay-core/src/invitation.rs:60-75 InvitationBundle *)
Record InvitationBundle : Type := mkInvitation {
  iv_invitation_id : bytes;
  iv_network_id : NetworkId;
  iv_root_public_key : bytes;
  iv_bootstrap_endpoint_id : bytes;
  iv_bootstrap_direct_addresses : list SocketAddr;
  iv_bootstrap_relay : option bytes;
  iv_client_app_addr : AppAddr;
  iv_service_name : VirtualName;
  iv_expires_at_ms : Z;
  iv_admin_certificate : bytes;
  iv_signer_key_id : bytes;
  iv_signed_bytes : bytes;
  iv_signature : bytes;
}.

(* weaver-relay-core/src/invitation.rs:597-602 push_blob *)
Definition push_blob16 (value : bytes) : result AuthorityError bytes :=
  fail_if (negb (is_u16 (len value))) InvalidInvitation;; Ok (to_be 2 (len value) ++ value).
(* weaver-relay-core/src/invitation.rs:604-609 push_u32_blob *)
Definition push_u32_blob (value : bytes) : result AuthorityError bytes :=
  fail_if (negb (is_u32 (len value))) InvalidInvitation;; Ok (to_be 4 (len value) ++ value).
(* weaver-relay-core/src/invitation.rs:496-527 InvitationBundle::encode_signed *)
Definition Invitation_encode_signed (i : InvitationBundle) : result AuthorityError bytes :=
  fail_if (negb (is_u8 (len (iv_bootstrap_direct_addresses i)))) InvalidInvitation;;
  addresses ← try_map (fun address => push_blob16 (SocketAddr_to_string address)) (iv_bootstrap_direct_addresses i);
  relay ← match iv_bootstrap_relay i with
          | Some relay => relay ← push_blob16 relay; Ok (to_be 1 1 ++ relay)
          | None => Ok (to_be 1 0)
          end;
  service ← push_blob16 (VirtualName_as_str (iv_service_name i));
  certificate ← push_blob16 (iv_admin_certificate i);
  Ok (INVITATION_MAGIC ++ iv_invitation_id i ++ NetworkId_as_bytes (iv_network_id i) ++ iv_root_public_key i
      ++ iv_bootstrap_endpoint_id i ++ to_be 1 (len (iv_bootstrap_direct_addresses i)) ++ concat addresses ++ relay
      ++ AppAddr_as_bytes (iv_client_app_addr i) ++ service ++ to_be 8 (iv_expires_at_ms i) ++ certificate
      ++ iv_signer_key_id i).

#[local] Abbreviation array := (d_array InvalidInvitation).
(* weaver-relay-core/src/invitation.rs:754-760 Decoder::blob *)
Definition d_blob16 (max : Z) : dec AuthorityError bytes :=
  n ← d_u16 InvalidInvitation;
  lift (fail_if ((n =? 0) || (max <? n)) InvalidInvitation);;
  d_take InvalidInvitation n.
(* weaver-relay-core/src/invitation.rs:761-763 Decoder::string *)
Definition d_string16 (max : Z) : dec AuthorityError bytes :=
  bs ← d_blob16 max;
  lift (fail_if (negb (is_utf8 bs)) InvalidInvitation);;
  mret bs.
(** The three variable parts of [from_bytes]. *)
(* weaver-relay-core/src/invitation.rs:443-448 InvitationBundle::from_bytes *)
Definition d_address : dec AuthorityError SocketAddr :=
  text ← d_string16 128; lift (SocketAddr_from_str text ?? InvalidInvitation).
(* weaver-relay-core/src/invitation.rs:449-453 InvitationBundle::from_bytes *)
Definition d_relay : dec AuthorityError (option bytes) :=
  tag ← d_u8 InvalidInvitation;
  match tag with
  | 0 => mret None
  | 1 => relay ← d_string16 2048; mret (Some relay)
  | _ => lift (Err InvalidInvitation)
  end.
(* weaver-relay-core/src/invitation.rs:455-456 InvitationBundle::from_bytes *)
Definition d_service_name : dec AuthorityError VirtualName :=
  text ← d_string16 255; lift (map_err (fun _ => InvalidInvitation) (VirtualName_new text)).
(* weaver-relay-core/src/invitation.rs:432-475 InvitationBundle::from_bytes *)
Definition d_invitation (signed_bytes signature : bytes) : dec AuthorityError InvitationBundle :=
  d_magic InvalidInvitation INVITATION_MAGIC;;
  invitation_id ← array 32; network_id ← array 32; root_public_key ← array 32; bootstrap_endpoint_id ← array 32;
  address_count ← d_u8 InvalidInvitation;
  lift (fail_if (MAX_DIRECT_ADDRESSES <? address_count) InvalidInvitation);;
  addresses ← d_repeat d_address (Z.to_nat address_count);
  bootstrap_relay ← d_relay;
  client_app_addr ← array 32;
  service_name ← d_service_name;
  expires_at_ms ← d_u64 InvalidInvitation;
  admin_certificate ← d_blob16 (16 * 1024);
  signer_key_id ← array 16;
  d_finish InvalidInvitation;;
  mret {| iv_invitation_id := invitation_id; iv_network_id := NetworkId_from_bytes network_id;
          iv_root_public_key := root_public_key; iv_bootstrap_endpoint_id := bootstrap_endpoint_id;
          iv_bootstrap_direct_addresses := addresses; iv_bootstrap_relay := bootstrap_relay;
          iv_client_app_addr := AppAddr_from_bytes client_app_addr; iv_service_name := service_name;
          iv_expires_at_ms := expires_at_ms; iv_admin_certificate := admin_certificate;
          iv_signer_key_id := signer_key_id; iv_signed_bytes := signed_bytes; iv_signature := signature |}.
(* weaver-relay-core/src/invitation.rs:423-475 InvitationBundle::from_bytes *)
Definition Invitation_from_bytes (bs : bytes) : result AuthorityError InvitationBundle :=
  fail_if (Nat.ltb (length bs) (8 + SIGNATURE_LEN)) InvalidInvitation;;
  let signed_len := (length bs - SIGNATURE_LEN)%nat in
  let signed_bytes := take signed_len bs in
  run_decoder (d_invitation signed_bytes (drop signed_len bs)) signed_bytes.
(* weaver-relay-core/src/invitation.rs:400-405 InvitationBundle::to_bytes *)
Definition Invitation_to_bytes (i : InvitationBundle) : bytes := iv_signed_bytes i ++ iv_signature i.

Section invitation.
Context `{Ed25519} `{Blake3} `{Aead} `{Hpke} `{Platform} `{Base64} {S K : Type} `{StateStore S} `{SecretStore K}.
#[local] Abbreviation authority := (Authority S K).
Implicit Types (a : authority) (i : InvitationBundle) (now : Z) (ent : entropy).

(* weaver-relay-core/src/invitation.rs:407-409 InvitationBundle::to_text *)
Definition Invitation_to_text i : bytes := TEXT_PREFIX ++ b64_encode (Invitation_to_bytes i).
(* weaver-relay-core/src/invitation.rs:411-420 InvitationBundle::from_text *)
Definition Invitation_from_text (value : bytes) : result AuthorityError InvitationBundle :=
  encoded ← strip_prefix TEXT_PREFIX (trim value) ?? InvalidInvitation;
  bs ← b64_decode encoded ?? InvalidInvitation;
  Invitation_from_bytes bs.
(* weaver-relay-core/src/invitation.rs:371-398 InvitationBundle::issue *)
Definition Invitation_issue a (invitation_id bootstrap_endpoint : bytes) (addresses : list SocketAddr) (relay : option bytes)
    (client_app_addr : AppAddr) (service_name : VirtualName) (expires_at_ms : Z) : result AuthorityError InvitationBundle :=
  let unsigned := mkInvitation invitation_id (as_network_id (au_status a)) (root_verifying_key (au_root_public a))
    bootstrap_endpoint addresses relay client_app_addr service_name expires_at_ms (au_admin_certificate a)
    (OnlineAdminKey_key_id (au_online_admin a)) [] [] in
  signed_bytes ← Invitation_encode_signed unsigned;
  Ok (mkInvitation invitation_id (as_network_id (au_status a)) (root_verifying_key (au_root_public a))
        bootstrap_endpoint addresses relay client_app_addr service_name expires_at_ms (au_admin_certificate a)
        (OnlineAdminKey_key_id (au_online_admin a)) signed_bytes (OnlineAdminKey_sign_bytes (au_online_admin a) signed_bytes)).
(* weaver-relay-core/src/invitation.rs:477-494 InvitationBundle::verify *)
Definition Invitation_verify i (expected_root : NetworkRootPublic) now : result AuthorityError unit :=
  fail_if (negb (bool_decide (iv_root_public_key i = root_verifying_key expected_root))
           || negb (bool_decide (iv_network_id i = root_network_id expected_root))
           || (iv_expires_at_ms i <=? now)
           || negb (endpoint_id_valid (iv_bootstrap_endpoint_id i))) InvalidInvitation;;
  certificate ← map_err AuCrypto (AdminCertificate_from_bytes (iv_admin_certificate i));
  admin ← map_err AuCrypto (AdminCertificate_verify certificate expected_root (iv_network_id i) now ∅);
  fail_if (negb (bool_decide (adm_key_id (va_payload admin) = iv_signer_key_id i))) InvalidInvitation;;
  map_err AuCrypto (VerifiedAdmin_verify_bytes admin (iv_signed_bytes i) (iv_signature i)).

(* weaver-relay-core/src/invitation.rs:611-616 invitation_key *)
Definition invitation_key (invitation_id : bytes) : result AuthorityError StoreKey :=
  map_err AuStore (StoreKey_new (INVITATION_KEY_PREFIX ++ invitation_id)).
(* weaver-relay-core/src/invitation.rs:618-627 encode_consumed *)
Definition encode_consumed (request_hash : bytes) (ticket : JoinTicket) : result AuthorityError bytes :=
  fail_if (negb (is_u32 (len (Ticket_to_bytes ticket)))) InvalidJoinTicket;;
  Ok (CONSUMED_MAGIC ++ request_hash ++ to_be 4 (len (Ticket_to_bytes ticket)) ++ Ticket_to_bytes ticket).
(* weaver-relay-core/src/invitation.rs:629-655 decode_consumed *)
Definition decode_consumed (bs expected_request_hash : bytes) : result AuthorityError JoinTicket :=
  fail_if (Nat.ltb (length bs) (8 + 32 + 4) || negb (bool_decide (take 8 bs = CONSUMED_MAGIC))) InvalidInvitation;;
  fail_if (negb (bool_decide (take 32 (drop 8 bs) = expected_request_hash))) InvitationAlreadyUsed;;
  let ticket_len := from_be (take 4 (drop 40 bs)) in
  let ticket := drop 44 bs in
  fail_if (negb (len ticket =? ticket_len)) InvalidInvitation;;
  Ticket_from_bytes ticket.
(** [record.bytes.starts_with(CONSUMED_MAGIC)] *)
Definition is_consumed (bs : bytes) : bool := bool_decide (take (length CONSUMED_MAGIC) bs = CONSUMED_MAGIC).

(* weaver-relay-core/src/invitation.rs:363-368 enrollment_secret_id *)
Definition enrollment_secret_id (network_id : NetworkId) (app_addr : AppAddr) : SecretId :=
  SecretId_from_bytes (derive_key (bstr "weaver.authority.enrollment-app-root.v1")
    (NetworkId_as_bytes network_id ++ AppAddr_as_bytes app_addr)).
Definition with_secrets a (k : K) : authority :=
  mkAuthority (au_state a) k (au_root_public a) (au_online_admin a) (au_verified_admin a) (au_admin_certificate a)
    (au_member_encryption a) (au_endpoint_secret a) (au_config a) (au_envelope_record_version a)
    (au_head_record_version a) (au_status a).
(* weaver-relay-core/src/invitation.rs:81-103 Authority::install_enrollment_app_root *)
Definition install_enrollment_app_root a (app_root : AppRootKey) : authority * result AuthorityError unit :=
  match
    registration ← find_parsed AppRegistration_from_bytes
      (fun r => bool_decide (ar_app_addr (payload r) = AppRootKey_app_addr app_root)) (cfg_apps (vc_inner (au_config a)))
      ?? ApplicationNotFound;
    fail_if (negb (bool_decide (ar_app_root_public_key (payload registration) = AppRootKey_public_bytes app_root)))
      InvalidInvitation
  with
  | Err e => (a, Err e)
  | Ok _ =>
      match Store.seal (au_secrets a) (enrollment_secret_id (as_network_id (au_status a)) (AppRootKey_app_addr app_root))
              (app_seed app_root) with
      | (k, r) => (with_secrets a k, map_err AuSecret r)
      end
  end.

(* weaver-relay-core/src/invitation.rs:137-169 Authority::create_invitation *)
Definition prepare_invitation a (bootstrap_endpoint : bytes) (addresses : list SocketAddr) (relay : option bytes)
    (client_app_addr : AppAddr) (service_name : VirtualName) now (valid_for_ms : Z) : rnd AuthorityError InvitationBundle :=
  expires_at_ms ← rlift (checked_add now valid_for_ms ?? InvalidInvitation);
  let expires_at_ms := Z.min (Z.min expires_at_ms (adm_expires_at_ms (va_payload (au_verified_admin a))))
                         (cfg_expires_at_ms (vc_inner (au_config a))) in
  rlift (fail_if ((valid_for_ms =? 0) || (expires_at_ms <=? now) || (MAX_DIRECT_ADDRESSES <? len addresses)
                  || match relay with Some value => 2048 <? len value | None => false end) InvalidInvitation);;
  rlift (fail_if (negb (any_parsed AppRegistration_from_bytes
                    (fun app => bool_decide (ar_app_addr (payload app) = client_app_addr)) (cfg_apps (vc_inner (au_config a)))))
           ApplicationNotFound);;
  invitation_id ← fill InvalidInvitation 32;
  rlift (Invitation_issue a invitation_id bootstrap_endpoint addresses relay client_app_addr service_name expires_at_ms).
(* weaver-relay-core/src/invitation.rs:127-179 Authority::create_invitation *)
Definition create_invitation a (bootstrap_endpoint : bytes) (addresses : list SocketAddr) (relay : option bytes)
    (client_app_addr : AppAddr) (service_name : VirtualName) now (valid_for_ms : Z) ent
    : authority * result AuthorityError InvitationBundle :=
  match
    '(invitation, _) ← prepare_invitation a bootstrap_endpoint addresses relay client_app_addr service_name now valid_for_ms ent;
    key ← invitation_key (iv_invitation_id invitation);
    batch ← map_err AuStore (AtomicBatch_put (AtomicBatch_new (StoreScope_authority (as_network_id (au_status a)))) key
              (Invitation_to_bytes invitation) Missing);
    Ok (invitation, batch)
  with
  | Err e => (a, Err e)
  | Ok (invitation, batch) =>
      match commit (au_state a) batch with
      | (s, Err e) => (with_state a s, Err (AuStore e))
      | (s, Ok _) => (with_state a s, Ok invitation)
      end
  end.
(* weaver-relay-core/src/invitation.rs:345-360 Authority::revoke_invitation *)
Definition revoke_invitation a (invitation_id : bytes) : authority * result AuthorityError unit :=
  let scope := StoreScope_authority (as_network_id (au_status a)) in
  match
    key ← invitation_key invitation_id;
    record ← map_err AuStore (read (au_state a) scope key); record ← record ?? InvitationRevoked;
    fail_if (is_consumed (vb_bytes record)) InvitationAlreadyUsed;;
    map_err AuStore (AtomicBatch_delete (AtomicBatch_new scope) key (Exact (vb_version record)))
  with
  | Err e => (a, Err e)
  | Ok batch =>
      match commit (au_state a) batch with
      | (s, Err e) => (with_state a s, Err (AuStore e))
      | (s, Ok _) => (with_state a s, Ok tt)
      end
  end.

(** ** Redeeming *)
(** The checks every redemption makes, and the record it finds. *)
(* weaver-relay-core/src/invitation.rs:188-204 Authority::redeem_invitation *)
Definition find_invitation a i (prepared : PreparedJoinRequest) (client_app_root : AppRootKey) now
    : result AuthorityError (StoreKey * VersionedBytes) :=
  Invitation_verify i (au_root_public a) now;;
  fail_if (negb (bool_decide (iv_client_app_addr i = AppRootKey_app_addr client_app_root))) InvalidInvitation;;
  map_err AuCrypto (PreparedJoinRequest_verify prepared (as_network_id (au_status a)) now);;
  key ← invitation_key (iv_invitation_id i);
  record ← map_err AuStore (read (au_state a) (StoreScope_authority (as_network_id (au_status a))) key);
  record ← record ?? InvitationRevoked;
  Ok (key, record).
(** The credentials of the new member: its certificate and its client binding. *)
(* weaver-relay-core/src/invitation.rs:212-263 Authority::redeem_invitation *)
Definition admit_invited a i (prepared : PreparedJoinRequest) (client_app_root : AppRootKey) now
    : result AuthorityError (JoinRequestPayload * Z * MemberCertificate * AppBinding) :=
  let network_id := as_network_id (au_status a) in
  let current := vc_inner (au_config a) in
  request ← map_err AuCrypto (JoinRequest_verify (pj_request prepared) network_id now);
  let request := vjr_payload request in
  ensure_join_is_unique current request;;
  let expires_at_ms := Z.min (Z.min (Z.min (iv_expires_at_ms i) (jr_expires_at_ms request))
                                (adm_expires_at_ms (va_payload (au_verified_admin a)))) (cfg_expires_at_ms current) in
  fail_if (expires_at_ms <=? now) InvalidInvitation;;
  serial ← next_serial current;
  member ← map_err AuCrypto (MemberCertificate_issue_by_admin (au_online_admin a) (va_payload (au_verified_admin a))
             (jr_signing_public_key request) (jr_encryption_public_key request) MemberRoles.MEMBER serial now expires_at_ms);
  verified_member ← map_err AuCrypto (MemberCertificate_verify_with_admin member (au_verified_admin a) network_id now ∅);
  map_err AuCrypto (EndpointBinding_verify (pj_endpoint_binding prepared) verified_member network_id
    (jr_endpoint_id request) now);;
  app_binding ← map_err AuCrypto (AppBinding_issue client_app_root network_id (jr_member_id request) RoleClient
    (Some (derive_device_id network_id (iv_client_app_addr i) (jr_signing_public_key request))) expires_at_ms []);
  Ok (request, expires_at_ms, member, app_binding).
(** The next revision, the ticket and the batch that writes both. *)
(* weaver-relay-core/src/invitation.rs:212-324 Authority::redeem_invitation *)
Definition prepare_redemption a i (prepared : PreparedJoinRequest) (client_app_root : AppRootKey) (key : StoreKey)
    (record : VersionedBytes) now ent : result AuthorityError (OpenedNetworkConfig * JoinTicket * AtomicBatch) :=
  '(request, expires_at_ms, member, app_binding) ← admit_invited a i prepared client_app_root now;
  '(next, ent) ← prepare_next_epoch (vc_inner (au_config a)) (as_head (au_status a)) now ent;
  let endpoint_binding := to_bytes (pj_endpoint_binding prepared) in
  let next := with_members next (cfg_members next ++ [to_bytes member]) (cfg_endpoint_bindings next ++ [endpoint_binding])
                (cfg_app_bindings next ++ [to_bytes app_binding]) (cfg_revoked_serials next) in
  '(envelope, opened) ← seal_revision a next now ent;
  ticket ← Ticket_issue (au_online_admin a) (as_network_id (au_status a)) (jr_nonce request) expires_at_ms (onc_head opened)
             (au_admin_certificate a) (to_bytes member) endpoint_binding (Envelope_to_bytes envelope);
  batch ← revision_batch a envelope opened;
  consumed ← encode_consumed (blake3_hash (PreparedJoinRequest_to_bytes prepared)) ticket;
  batch ← map_err AuStore (AtomicBatch_put batch key consumed (Exact (vb_version record)));
  Ok (opened, ticket, batch).
(* weaver-relay-core/src/invitation.rs:327-336 Authority::redeem_invitation *)
Definition read_versions (s : S) (scope : StoreScope) : result AuthorityError (Z * Z) :=
  envelope_key ← map_err AuStore (StoreKey_new KEY_ENVELOPE);
  head_key ← map_err AuStore (StoreKey_new KEY_HEAD);
  envelope_record ← map_err AuStore (read s scope envelope_key); envelope_record ← envelope_record ?? CorruptState;
  head_record ← map_err AuStore (read s scope head_key); head_record ← head_record ?? CorruptState;
  Ok (vb_version envelope_record, vb_version head_record).
(** [self.config = ..; self.status.head = ..]: the relay URL of the status stays. *)
(* weaver-relay-core/src/invitation.rs:337-341 Authority::redeem_invitation *)
Definition with_head a (s : S) (envelope_version head_version : Z) (config : ValidatedNetworkConfig) (head : ConfigHead)
    : authority :=
  mkAuthority s (au_secrets a) (au_root_public a) (au_online_admin a) (au_verified_admin a) (au_admin_certificate a)
    (au_member_encryption a) (au_endpoint_secret a) config envelope_version head_version
    (mkAuthorityStatus (as_network_id (au_status a)) (as_root_public_key (au_status a)) head (as_relay_url (au_status a))).
(* weaver-relay-core/src/invitation.rs:181-343 Authority::redeem_invitation *)
Definition redeem_invitation a i (prepared : PreparedJoinRequest) (client_app_root : AppRootKey) now ent
    : authority * result AuthorityError JoinTicket :=
  match find_invitation a i prepared client_app_root now with
  | Err e => (a, Err e)
  | Ok (key, record) =>
      if is_consumed (vb_bytes record) then
        (a, decode_consumed (vb_bytes record) (blake3_hash (PreparedJoinRequest_to_bytes prepared)))
      else if negb (bool_decide (vb_bytes record = Invitation_to_bytes i)) then (a, Err InvalidInvitation)
      else match prepare_redemption a i prepared client_app_root key record now ent with
      | Err e => (a, Err e)
      | Ok (opened, ticket, batch) =>
          match commit (au_state a) batch with
          | (s, Err e) => (with_state a s, Err (AuStore e))
          | (s, Ok _) =>
              match read_versions s (StoreScope_authority (as_network_id (au_status a))) with
              | Err e => (with_state a s, Err e)
              | Ok (envelope_version, head_version) =>
                  (with_head a s envelope_version head_version (onc_config opened) (onc_head opened), Ok ticket)
              end
          end
      end
  end.
(* weaver-relay-core/src/invitation.rs:105-125 Authority::redeem_invitation_online *)
Definition redeem_invitation_online a i (prepared : PreparedJoinRequest) now ent : authority * result AuthorityError JoinTicket :=
  match open_secret_32 (au_secrets a) (enrollment_secret_id (as_network_id (au_status a)) (iv_client_app_addr i)) with
  | Err e => (a, Err e)
  | Ok bs => redeem_invitation a i prepared (AppRootKey_from_bytes bs) now ent
  end.
End invitation.

(** ** The bootstrap protocol *)
(* weaver-relay-core/src/invitation.rs:32-36 BootstrapRedeemRequest *)
Record BootstrapRedeemRequest : Type := mkRedeemRequest { br_invitation : InvitationBundle; br_prepared : PreparedJoinRequest }.
(* weaver-relay-core/src/invitation.rs:38-45 BootstrapRejectCode *)
Inductive BootstrapRejectCode : Type := RejectInvalid | RejectAlreadyUsed | RejectRevoked | RejectInternal.
(* weaver-relay-core/src/invitation.rs:47-51 BootstrapRedeemResponse *)
Inductive BootstrapRedeemResponse : Type := Accepted (ticket : JoinTicket) | Rejected (code : BootstrapRejectCode).
(** [code as u8] *)
Definition reject_value (c : BootstrapRejectCode) : Z :=
  match c with RejectInvalid => 1 | RejectAlreadyUsed => 2 | RejectRevoked => 3 | RejectInternal => 4 end.

(* weaver-relay-core/src/invitation.rs:705-716 WideDecoder::blob_allow_empty *)
Definition d_wide_blob (max : Z) : dec AuthorityError bytes :=
  n ← d_u32 InvalidInvitation; lift (fail_if (max <? n) InvalidInvitation);; d_take InvalidInvitation n.
(* weaver-relay-core/src/invitation.rs:697-704 WideDecoder::blob *)
Definition d_wide_nonempty (max : Z) : dec AuthorityError bytes :=
  value ← d_wide_blob max; lift (fail_if (len value =? 0) InvalidInvitation);; mret value.

(* weaver-relay-core/src/invitation.rs:531-545 BootstrapRedeemRequest::to_bytes *)
Definition RedeemRequest_to_bytes (r : BootstrapRedeemRequest) : result AuthorityError bytes :=
  let invitation := Invitation_to_bytes (br_invitation r) in
  let prepared := PreparedJoinRequest_to_bytes (br_prepared r) in
  fail_if ((MAX_BOOTSTRAP_PAYLOAD <? len invitation) || (MAX_BOOTSTRAP_PAYLOAD <? len prepared)) InvalidInvitation;;
  invitation ← push_u32_blob invitation;
  prepared ← push_u32_blob prepared;
  Ok (BOOTSTRAP_REQUEST_MAGIC ++ invitation ++ prepared).
(* weaver-relay-core/src/invitation.rs:547-557 BootstrapRedeemRequest::from_bytes *)
Definition RedeemRequest_from_bytes : bytes -> result AuthorityError BootstrapRedeemRequest := run_decoder (
  d_magic InvalidInvitation BOOTSTRAP_REQUEST_MAGIC;;
  invitation ← d_wide_nonempty MAX_BOOTSTRAP_PAYLOAD; invitation ← lift (Invitation_from_bytes invitation);
  prepared ← d_wide_nonempty MAX_BOOTSTRAP_PAYLOAD;
  prepared ← lift (map_err AuCrypto (PreparedJoinRequest_from_bytes prepared));
  d_finish InvalidInvitation;;
  mret (mkRedeemRequest invitation prepared)).
(* weaver-relay-core/src/invitation.rs:561-575 BootstrapRedeemResponse::to_bytes *)
Definition RedeemResponse_to_bytes (r : BootstrapRedeemResponse) : result AuthorityError bytes :=
  match r with
  | Accepted ticket => blob ← push_u32_blob (Ticket_to_bytes ticket); Ok (BOOTSTRAP_RESPONSE_MAGIC ++ to_be 1 0 ++ blob)
  | Rejected code => Ok (BOOTSTRAP_RESPONSE_MAGIC ++ to_be 1 (reject_value code) ++ to_be 4 0)
  end.
(* weaver-relay-core/src/invitation.rs:577-591 BootstrapRedeemResponse::from_bytes *)
Definition RedeemResponse_from_bytes : bytes -> result AuthorityError BootstrapRedeemResponse := run_decoder (
  d_magic InvalidInvitation BOOTSTRAP_RESPONSE_MAGIC;;
  status ← d_u8 InvalidInvitation;
  payload ← d_wide_blob MAX_BOOTSTRAP_PAYLOAD;
  d_finish InvalidInvitation;;
  lift (match status with
        | 0 => ticket ← Ticket_from_bytes payload; Ok (Accepted ticket)
        | 1 => if len payload =? 0 then Ok (Rejected RejectInvalid) else Err InvalidInvitation
        | 2 => if len payload =? 0 then Ok (Rejected RejectAlreadyUsed) else Err InvalidInvitation
        | 3 => if len payload =? 0 then Ok (Rejected RejectRevoked) else Err InvalidInvitation
        | 4 => if len payload =? 0 then Ok (Rejected RejectInternal) else Err InvalidInvitation
        | _ => Err InvalidInvitation
        end)).
