(* ===== verification/InvitationFacts.v ===== *)
(** * Properties of invitations

    An invitation survives its binary and text form and verifies at the device; it
    is redeemed at most once, whatever the authority serves in between, and a device
    that repeats its request gets the same ticket; and neither creating, redeeming
    nor revoking invitations can damage the configuration chain. *)

From S2P Require Import Prelude Platform Wire Core Store CertificateWire Certificates Symmetric ToyCrypto CertificateChain Snapshot.
From S2P Require Import Validate Envelope EnvelopeChain ConfigState ConfigStateFacts JoinTicket Authority AuthorityFacts.
From S2P Require Import AuthorityChain AuthorityOps SocketAddr Invitation.

(** ** Wire format *)
Definition blob16_wf (max : Z) (bs : bytes) : Prop := 0 < len bs <= Z.min max 65535.
Definition string16_wf (max : Z) (bs : bytes) : Prop := blob16_wf max bs /\ is_utf8 bs = true.
Definition address_wf (s : SocketAddr) : Prop := socket_wf s /\ without_flowinfo s = s.
Record invitation_wf (i : InvitationBundle) : Prop := {
  iw_id : length (iv_invitation_id i) = 32%nat;
  iw_network : NetworkId_wf (iv_network_id i);
  iw_root : length (iv_root_public_key i) = 32%nat;
  iw_endpoint : length (iv_bootstrap_endpoint_id i) = 32%nat;
  iw_count : len (iv_bootstrap_direct_addresses i) <= MAX_DIRECT_ADDRESSES;
  iw_addresses : Forall address_wf (iv_bootstrap_direct_addresses i);
  iw_relay : forall relay, iv_bootstrap_relay i = Some relay -> string16_wf 2048 relay;
  iw_app : AppAddr_wf (iv_client_app_addr i);
  iw_service : VirtualName_wf (iv_service_name i);
  iw_expires : is_u64 (iv_expires_at_ms i) = true;
  iw_certificate : blob16_wf (16 * 1024) (iv_admin_certificate i);
  iw_signer : length (iv_signer_key_id i) = 16%nat;
  iw_signed : Invitation_encode_signed i = Ok (iv_signed_bytes i);
  iw_signature : length (iv_signature i) = SIGNATURE_LEN;
}.

Lemma push_blob16_Ok max bs : blob16_wf max bs -> push_blob16 bs = Ok (to_be 2 (len bs) ++ bs).
Proof.
  unfold blob16_wf; intros Hb; unfold push_blob16; apply bind_Ok; exists tt; split; [|done].
  apply fail_if_Ok; unfold in_range; passes.
Qed.
Lemma steps_blob16 max bs s : blob16_wf max bs -> steps (d_blob16 max) ((to_be 2 (len bs) ++ bs) ++ s) bs s.
Proof.
  unfold blob16_wf; intros Hb; assert (is_u16 (len bs) = true) by (unfold in_range; passes).
  assert (fail_if ((len bs =? 0) || (max <? len bs)) InvalidInvitation = Ok tt) by (apply fail_if_Ok; passes).
  unfold d_blob16; parse.
Qed.
Lemma steps_string16 max bs s : string16_wf max bs -> steps (d_string16 max) ((to_be 2 (len bs) ++ bs) ++ s) bs s.
Proof.
  intros [Hb Hu]; eapply steps_bind; [by apply steps_blob16|].
  eapply steps_bind; [apply (steps_lift _ tt), fail_if_Ok; by rewrite Hu | apply steps_ret].
Qed.

Definition blob16 (bs : bytes) : bytes := to_be 2 (len bs) ++ bs.
Lemma address_text s : address_wf s -> string16_wf 128 (SocketAddr_to_string s).
Proof.
  intros [Hw _]; destruct (SocketAddr_text s Hw) as [[Hl Ha] Hne]; split; [|by apply is_ascii_utf8].
  unfold blob16_wf, len; destruct (SocketAddr_to_string s); cbn in *; [done | lia].
Qed.
Lemma steps_address s rest : address_wf s -> steps d_address (blob16 (SocketAddr_to_string s) ++ rest) s rest.
Proof.
  intros Hw; eapply steps_bind; [by apply steps_string16, address_text|]; apply steps_lift, ok_or_Ok.
  destruct Hw as [Hw Hf]; by rewrite SocketAddr_round_trip, Hf.
Qed.
Definition relay_bytes (relay : option bytes) : bytes :=
  match relay with Some relay => to_be 1 1 ++ blob16 relay | None => to_be 1 0 end.
Lemma steps_relay relay rest :
  (forall r, relay = Some r -> string16_wf 2048 r) -> steps d_relay (relay_bytes relay ++ rest) relay rest.
Proof.
  intros Hr; destruct relay as [r|]; cbn [relay_bytes]; rewrite <- ?app_assoc.
  - eapply steps_bind; [by apply (steps_uint _ 1)|]; cbn beta iota.
    eapply steps_bind; [by apply steps_string16, Hr | apply steps_ret].
  - eapply steps_bind; [by apply (steps_uint _ 1) | apply steps_ret].
Qed.
Lemma name_text n : VirtualName_wf n -> string16_wf 255 (VirtualName_as_str n).
Proof.
  unfold VirtualName_wf, validate_virtual_name; intros Hv; apply bind_Ok in Hv as (u & Hf%fail_if_Ok & _); bool_inv.
  split; [|by apply is_ascii_utf8]; unfold blob16_wf, len in *; destruct (VirtualName_as_str n); cbn in *; [done | lia].
Qed.
Lemma steps_service_name n rest :
  VirtualName_wf n -> steps d_service_name (blob16 (VirtualName_as_str n) ++ rest) n rest.
Proof.
  intros Hn; eapply steps_bind; [by apply steps_string16, name_text|].
  apply steps_lift, map_err_Ok, VirtualName_new_wf; by destruct n.
Qed.

Definition invitation_bytes (i : InvitationBundle) : bytes :=
  INVITATION_MAGIC ++ iv_invitation_id i ++ NetworkId_as_bytes (iv_network_id i) ++ iv_root_public_key i
  ++ iv_bootstrap_endpoint_id i ++ to_be 1 (len (iv_bootstrap_direct_addresses i))
  ++ concat ((fun s => blob16 (SocketAddr_to_string s)) <$> iv_bootstrap_direct_addresses i)
  ++ relay_bytes (iv_bootstrap_relay i) ++ AppAddr_as_bytes (iv_client_app_addr i)
  ++ blob16 (VirtualName_as_str (iv_service_name i)) ++ to_be 8 (iv_expires_at_ms i)
  ++ blob16 (iv_admin_certificate i) ++ iv_signer_key_id i.

Lemma Invitation_encode_Ok i :
  len (iv_bootstrap_direct_addresses i) <= MAX_DIRECT_ADDRESSES -> Forall address_wf (iv_bootstrap_direct_addresses i) ->
  (forall relay, iv_bootstrap_relay i = Some relay -> string16_wf 2048 relay) -> VirtualName_wf (iv_service_name i) ->
  blob16_wf (16 * 1024) (iv_admin_certificate i) -> Invitation_encode_signed i = Ok (invitation_bytes i).
Proof.
  intros Hc Ha Hr Hn Hac; unfold Invitation_encode_signed.
  rewrite (proj2 (fail_if_Ok _ _ tt)) by (unfold in_range, MAX_DIRECT_ADDRESSES, len in *; passes); cbn [mbind result_bind].
  rewrite (proj2 (try_map_Ok _ _ ((fun s => blob16 (SocketAddr_to_string s)) <$> iv_bootstrap_direct_addresses i))).
  2: { clear Hc; induction Ha as [|s l Hs _ IH]; constructor; [|done]; eapply push_blob16_Ok, address_text, Hs. }
  cbn [mbind result_bind]; assert ((match iv_bootstrap_relay i with
    | Some relay => relay ← push_blob16 relay; Ok (to_be 1 1 ++ relay) | None => Ok (to_be 1 0) end)
    = Ok (E := AuthorityError) (relay_bytes (iv_bootstrap_relay i))) as ->.
  { destruct (iv_bootstrap_relay i) as [r|]; [|done]; by rewrite (push_blob16_Ok 2048) by (by apply Hr). }
  cbn [mbind result_bind]; rewrite (push_blob16_Ok 255 (VirtualName_as_str _)) by (by apply name_text); cbn [mbind result_bind].
  by rewrite (push_blob16_Ok (16 * 1024)).
Qed.

Lemma steps_invitation i :
  invitation_wf i -> steps (d_invitation (iv_signed_bytes i) (iv_signature i)) (invitation_bytes i ++ []) i [].
Proof.
  intros []; destruct i as [iid [net] root ep addrs relay [app] name ex ac sk sb sg]; unfold NetworkId_wf, AppAddr_wf in *; cbn in *.
  unfold d_invitation, invitation_bytes; cbn [iv_invitation_id iv_network_id iv_root_public_key iv_bootstrap_endpoint_id
    iv_bootstrap_direct_addresses iv_bootstrap_relay iv_client_app_addr iv_service_name iv_expires_at_ms iv_admin_certificate
    iv_signer_key_id iv_signed_bytes iv_signature NetworkId_as_bytes AppAddr_as_bytes].
  assert (is_u8 (len addrs) = true) by (unfold in_range, MAX_DIRECT_ADDRESSES, len in *; passes).
  assert (fail_if (MAX_DIRECT_ADDRESSES <? len addrs) InvalidInvitation = Ok tt) by (apply fail_if_Ok; passes).
  pose proof (fun s => steps_repeat d_address (fun s => blob16 (SocketAddr_to_string s)) address_wf addrs s steps_address iw_addresses0).
  pose proof (fun s => steps_relay relay s iw_relay0); pose proof (fun s => steps_service_name name s iw_service0).
  pose proof (fun s => steps_blob16 (16 * 1024) ac s iw_certificate0 : steps _ (blob16 ac ++ s) _ _).
  rewrite <- ?app_assoc; do 6 parse_step; cbn beta.
  replace (Z.to_nat (len addrs)) with (length addrs) by (unfold len; by rewrite Nat2Z.id); parse.
Qed.

Lemma Invitation_wire i : invitation_wf i -> Invitation_from_bytes (Invitation_to_bytes i) = Ok i.
Proof.
  intros Hw; unfold Invitation_from_bytes, Invitation_to_bytes; rewrite length_app, (iw_signature _ Hw).
  pose proof (iw_signed _ Hw) as Hs; rewrite Invitation_encode_Ok in Hs by apply Hw; apply Ok_inj in Hs.
  assert (8 <= length (iv_signed_bytes i))%nat by (rewrite <- Hs; unfold invitation_bytes; rewrite length_app; change (length INVITATION_MAGIC) with 8%nat; lia).
  rewrite (proj2 (Nat.ltb_ge _ _)) by lia; cbn [fail_if mbind result_bind]; cbv zeta.
  replace (_ + _ - SIGNATURE_LEN)%nat with (length (iv_signed_bytes i)) by lia.
  rewrite take_app_length, drop_app_length; eapply run_steps; rewrite <- Hs at 2; by apply steps_invitation.
Qed.

(** ** Text form *)
Definition starts_blank (s : bytes) : Prop := exists p s', p ∈ white_space /\ s = p ++ s'.
Lemma strip_all_none strip fuel s : (forall p, p ∈ white_space -> strip p s = None) -> strip_all strip fuel s = s.
Proof.
  destruct fuel as [|fuel]; [done|]; intros Hs; cbn [strip_all].
  assert (omap (fun p => strip p s) white_space = []) as ->; [|done].
  revert Hs; generalize white_space; induction l as [|p l IH]; intros Hs; [done|]; cbn; rewrite Hs by left.
  apply IH; intros q Hq; apply Hs; by right.
Qed.
(** No white space starts or ends with a visible ASCII character. *)
Definition visible (b : Byte.byte) : Prop := 33 <= byte_val b <= 126.
Lemma white_space_invisible p : p ∈ white_space -> exists b b' p' p'', p = b :: p' /\ p = p'' ++ [b'] /\ ~ visible b /\ ~ visible b'.
Proof.
  assert (Forall (fun p => exists b b' p' p'', p = b :: p' /\ p = p'' ++ [b'] /\ ~ visible b /\ ~ visible b') white_space) as Hf.
  { let l := eval vm_compute in white_space in change white_space with l; unfold visible.
    repeat (apply Forall_cons; split; [match goal with |- exists b b' p' p'', ?x = _ /\ _ => eexists _, _, _, (removelast x) end;
      split_and!; [reflexivity | reflexivity | vm_compute; intros [? ?]; congruence..]|]); constructor. }
  rewrite Forall_forall in Hf; apply Hf.
Qed.
Lemma trim_visible s b b' x y : s = b :: x -> s = y ++ [b'] -> visible b -> visible b' -> trim s = s.
Proof.
  intros Hs Hs' Hb Hb'; unfold trim.
  rewrite (strip_all_none strip_prefix); [apply strip_all_none|].
  - intros p Hp; destruct (white_space_invisible p Hp) as (c & c' & p' & p'' & _ & -> & _ & Hc).
    unfold strip_suffix; destruct (strip_prefix _ _) as [z|] eqn:Hz; [|done]; apply strip_prefix_Some in Hz.
    rewrite Hs', !reverse_snoc in Hz; injection Hz as Hbc _; by subst.
  - intros p Hp; destruct (white_space_invisible p Hp) as (c & c' & p' & p'' & -> & _ & Hc & _).
    destruct (strip_prefix _ _) as [z|] eqn:Hz; [|done]; apply strip_prefix_Some in Hz; rewrite Hs in Hz.
    injection Hz as Hbc _; by subst.
Qed.
Lemma b64_char_visible b : b64_char b = true -> visible b.
Proof.
  unfold b64_char, visible; rewrite !orb_true_iff, !between_true, !bool_decide_eq_true.
  intros [[[[?|?]|?]| ->]| ->]; [lia.. | vm_compute; split; congruence | vm_compute; split; congruence].
Qed.
Lemma trim_text `{Base64Laws} bs : trim (TEXT_PREFIX ++ b64_encode bs) = TEXT_PREFIX ++ b64_encode bs.
Proof.
  pose proof (b64_alphabet bs) as Ha; rewrite forallb_forall in Ha.
  assert (exists y b', TEXT_PREFIX ++ b64_encode bs = y ++ [b'] /\ visible b') as (y & b' & Hy & Hv).
  { destruct (b64_encode bs) as [|b' y _] using rev_ind.
    - exists (removelast TEXT_PREFIX), Byte.x3a; split; [reflexivity | vm_compute; split; congruence].
    - exists (TEXT_PREFIX ++ y), b'; split; [by rewrite app_assoc|]; apply b64_char_visible, Ha.
      apply in_or_app; right; by left. }
  eapply (trim_visible _ Byte.x77 b'); [reflexivity | exact Hy | vm_compute; split; congruence | done].
Qed.
Lemma Invitation_text `{Base64Laws} i : invitation_wf i -> Invitation_from_text (Invitation_to_text i) = Ok i.
Proof.
  intros Hw; unfold Invitation_from_text, Invitation_to_text; rewrite trim_text, strip_prefix_app; cbn [ok_or mbind result_bind].
  rewrite b64_round_trip; cbn [ok_or mbind result_bind]; by apply Invitation_wire.
Qed.

(** ** Consumed records *)
Section consumed.
Context `{Blake3Laws}.
Lemma encode_consumed_Ok hash t bs :
  length hash = 32%nat -> ticket_wf t -> encode_consumed hash t = Ok bs ->
  is_consumed bs = true /\ decode_consumed bs hash = Ok t /\
  forall other, other <> hash -> decode_consumed bs other = Err InvitationAlreadyUsed.
Proof.
  intros Hh Ht Hb; apply bind_Ok in Hb as (u & Hl%fail_if_Ok & <-%Ok_inj); bool_inv.
  set (tb := Ticket_to_bytes t) in *; set (bs := CONSUMED_MAGIC ++ hash ++ to_be 4 (len tb) ++ tb).
  assert (H8 : take 8 bs = CONSUMED_MAGIC) by reflexivity.
  assert (H32 : take 32 (drop 8 bs) = hash) by (change (drop 8 bs) with (hash ++ to_be 4 (len tb) ++ tb); by apply take_app_length').
  assert (H40 : drop 40 bs = to_be 4 (len tb) ++ tb).
  { change (drop 40 bs) with (drop 32 (hash ++ to_be 4 (len tb) ++ tb)); by apply drop_app_length'. }
  assert (H44 : drop 44 bs = tb).
  { change 44%nat with (40 + 4)%nat; rewrite <- drop_drop, H40; apply drop_app_length'; by rewrite length_to_be. }
  assert (Hlen : Nat.ltb (length bs) (8 + 32 + 4) = false).
  { apply Nat.ltb_ge; unfold bs; rewrite !length_app, Hh, length_to_be; change (length CONSUMED_MAGIC) with 8%nat; lia. }
  assert (Hd : forall other, decode_consumed bs other =
    if bool_decide (hash = other) then Ticket_from_bytes tb else Err InvitationAlreadyUsed).
  { intros other; unfold decode_consumed; rewrite Hlen, H8, H32, H40, H44, (bool_decide_true (CONSUMED_MAGIC = _)) by done; cbn [orb negb fail_if mbind result_bind].
    case_bool_decide; [|done]; cbn [orb negb fail_if mbind result_bind]; rewrite (take_app_length' (to_be 4 _)) by (by rewrite length_to_be).
    unfold in_range in Hl; bool_inv; by rewrite from_to_be, Z.mod_small, Z.eqb_refl by lia. }
  split_and!; [by apply bool_decide_eq_true | | intros other Ho; by rewrite Hd, bool_decide_false].
  rewrite Hd, bool_decide_true by done; apply Ticket_from_bytes_exact; by split.
Qed.
End consumed.

(** ** Bootstrap messages *)
Lemma push_u32_blob_Ok bs : is_u32 (len bs) = true -> push_u32_blob bs = Ok (to_be 4 (len bs) ++ bs).
Proof. intros Hb; unfold push_u32_blob; by rewrite Hb. Qed.
Lemma steps_wide_blob max bs s :
  is_u32 (len bs) = true -> len bs <= max -> steps (d_wide_blob max) ((to_be 4 (len bs) ++ bs) ++ s) bs s.
Proof.
  intros Hb Hm; assert (fail_if (max <? len bs) InvalidInvitation = Ok tt) by (apply fail_if_Ok; passes).
  unfold d_wide_blob; parse.
Qed.
Lemma fails_wide_blob max bs s :
  is_u32 (len bs) = true -> max < len bs -> fails (d_wide_blob max) ((to_be 4 (len bs) ++ bs) ++ s) InvalidInvitation.
Proof.
  intros Hb Hm; rewrite <- app_assoc; eapply fails_after; [by apply (steps_uint _ 4)|].
  apply fails_first, fails_lift, fail_if_Err; split; [passes | done].
Qed.
Lemma steps_wide_nonempty max bs s :
  is_u32 (len bs) = true -> 0 < len bs <= max -> steps (d_wide_nonempty max) ((to_be 4 (len bs) ++ bs) ++ s) bs s.
Proof.
  intros Hb Hm; eapply steps_bind; [apply steps_wide_blob; [done | lia]|].
  eapply steps_bind; [apply (steps_lift _ tt), fail_if_Ok; passes | apply steps_ret].
Qed.

(** ** Invitation records *)
Definition ikey (id : bytes) : StoreKey := mkStoreKey (INVITATION_KEY_PREFIX ++ id).
Lemma ikey_Ok id : length id = 32%nat -> invitation_key id = Ok (ikey id) /\ StoreKey_wf (ikey id).
Proof.
  intros Hi; assert (StoreKey_wf (ikey id)) as Hw.
  { unfold StoreKey_wf, ikey, len; cbn [StoreKey_as_bytes]; rewrite length_app, Hi.
    change (length INVITATION_KEY_PREFIX) with 24%nat; unfold MAX_KEY_LEN; lia. }
  split; [|done]; unfold invitation_key; apply map_err_Ok, StoreKey_new_wf; by split.
Qed.
Lemma ikey_not_chain id : ~ chain_key (ikey id).
Proof.
  intros [Hk|[Hk|[r Hk]]]; apply (f_equal (fun k => take 11 (StoreKey_as_bytes k))) in Hk; vm_compute in Hk; discriminate Hk.
Qed.

Section ops.
Context `{Led : Ed25519Laws} `{Lblake : Blake3Laws} `{Laead : AeadLaws} `{Lhpke : HpkeLaws} `{Lexcl : !HpkeExclusive}.
Context `{Lplatform : Platform} {S K : Type} `{Lstore : StateStoreLaws S} `{Lsecret : SecretStore K}.
#[local] Abbreviation authority := (Authority S K).
Implicit Types (a : authority) (i : InvitationBundle) (now : Z) (ent : entropy) (m : records).

(** [m'] differs from [m] in one invitation at most. *)
Definition agree a (id : bytes) m m' : Prop :=
  forall scope key, (scope, key) <> (au_scope a, ikey id) -> m' !! (scope, key) = m !! (scope, key).
Lemma stored_chain_frame a id m m' net e0 es el :
  agree a id m m' -> stored_chain (au_scope a) net m e0 es el -> stored_chain (au_scope a) net m' e0 es el.
Proof.
  intros Hag [Hf Hc Hh He Hd].
  assert (Hk : forall key, chain_key key -> m' !! (au_scope a, key) = m !! (au_scope a, key)).
  { intros key Hk; apply Hag; intros [= ->]; by eapply ikey_not_chain. }
  constructor; try done; [intros e Hin|..]; rewrite Hk; auto; unfold chain_key; eauto.
Qed.
(** Everything but the stores is the same. *)
Definition same_view a a' : Prop :=
  au_root_public a' = au_root_public a /\ au_online_admin a' = au_online_admin a /\ au_config a' = au_config a /\
  au_status a' = au_status a.
Lemma chain_inv_frame a a' id m m' e0 es el :
  chain_inv a m e0 es el -> same_view a a' -> store_rep (au_state a') m' -> agree a id m m' -> chain_inv a' m' e0 es el.
Proof.
  intros [_ [] Hch Hv Hval] (Hr & Ho & Hc & Hs) Hrep Hag; apply (stored_chain_frame a id m m') in Hch; [|done].
  unfold au_scope in *; constructor; [done | constructor | unfold au_scope|..]; rewrite ?Hs, ?Hc, ?Hr, ?Ho; done.
Qed.
Lemma agree_refl a id m : agree a id m m.
Proof. by intros ? ?. Qed.

(** A commit of one operation on an invitation record. *)
Lemma commit_invitation a m id op batch s' r :
  store_rep (au_state a) m -> authority_typed a -> length id = 32%nat -> batch_wf batch -> batch_scope batch = au_scope a ->
  batch_operations batch = [op] -> op_key op = ikey id -> commit (au_state a) batch = (s', r) ->
  exists m', store_rep s' m' /\ agree a id m m' /\
    ((exists e, r = Err e) /\ m' = m \/
     preconditions m batch /\ vb_bytes <$> m' !! (au_scope a, ikey id) = op_value op).
Proof.
  intros Hrep Hty Hid Hw Hbs Hops Hkey Hc.
  assert (Heff : forall m', batch_effect m batch m' -> agree a id m m' /\ vb_bytes <$> m' !! (au_scope a, ikey id) = op_value op).
  { intros m' [Hin Hout]; rewrite Hops, Hbs in *; split; [|rewrite <- Hkey; apply Hin; by left].
    intros scope key Hne; apply Hout; cbn; rewrite Hkey.
    destruct (decide (scope = au_scope a)) as [->|]; [right | by left]; rewrite list_elem_of_singleton; congruence. }
  destruct r as [v|x].
  - destruct (commit_success _ _ _ _ _ Hrep Hw Hc) as (Hpre & m' & Hr & He); apply Heff in He as [? ?].
    exists m'; split_and!; try done; by right.
  - destruct (commit_failure _ _ _ _ _ Hrep Hw Hc) as [Hm | (_ & Hpre & m' & Hr & He)].
    + exists m; split_and!; [done | apply agree_refl | left; eauto].
    + apply Heff in He as [? ?]; exists m'; split_and!; try done; by right.
Qed.

(** ** Creating and revoking *)
Lemma create_invitation_cases a m ep addrs relay app name now valid ent a' r :
  store_rep (au_state a) m -> authority_typed a -> create_invitation a ep addrs relay app name now valid ent = (a', r) ->
  (a' = a /\ exists e, r = Err e) \/
  exists i ent' s' m', prepare_invitation a ep addrs relay app name now valid ent = Ok (i, ent') /\
    a' = with_state a s' /\ store_rep s' m' /\ agree a (iv_invitation_id i) m m' /\ length (iv_invitation_id i) = 32%nat /\
    (m' = m /\ (exists e, r = Err e) \/
     m !! (au_scope a, ikey (iv_invitation_id i)) = None /\ (r = Ok i \/ exists e, r = Err e) /\
     vb_bytes <$> m' !! (au_scope a, ikey (iv_invitation_id i)) = Some (Invitation_to_bytes i)).
Proof.
  intros Hrep Hty Hc; unfold create_invitation in Hc.
  destruct (prepare_invitation _ _ _ _ _ _ _ _ ent) as [[i ent']|x] eqn:Hp; cbn [mbind result_bind] in Hc; [|injection Hc as <- <-; left; eauto].
  assert (Hid : length (iv_invitation_id i) = 32%nat).
  { unfold prepare_invitation in Hp; do 3 (apply rnd_bind_Ok in Hp as (? & ? & _ & Hp)); apply rnd_bind_Ok in Hp as (id & e1 & Hf & Hp).
    apply rlift_Ok in Hp as [Hp _]; apply bind_Ok in Hp as (sb & _ & <-%Ok_inj); by eapply fill_Ok. }
  destruct (ikey_Ok _ Hid) as [Hk Hkw]; rewrite Hk in Hc; cbn [mbind result_bind] in Hc.
  destruct (AtomicBatch_put _ _ _ _) as [b|x] eqn:Hb; cbn [map_err mbind result_bind] in Hc; [|injection Hc as <- <-; left; eauto].
  apply AtomicBatch_put_wf in Hb as (Hw & Hbs & Hops); [|apply AtomicBatch_new_wf, Hty | done].
  destruct (commit (au_state a) b) as [s' cr] eqn:Hco; right; exists i, ent', s'.
  destruct (commit_invitation a m _ _ _ _ _ Hrep Hty Hid Hw Hbs Hops eq_refl Hco) as (m' & Hr' & Hag & Hcase); exists m'.
  assert (a' = with_state a s' /\ (r = Ok i \/ exists e, r = Err e) /\ (is_ok cr = false -> exists e, r = Err e)) as (-> & Hres & Herr)
    by (destruct cr; injection Hc as <- <-; split_and!; eauto; done).
  split_and!; try done; destruct Hcase as [[[e ->] ->] | [Hpre Hv]]; [left; by split_and!; [|apply Herr] | right].
  split_and!; try done; unfold preconditions in Hpre; rewrite Hops, Hbs in Hpre; apply Forall_inv in Hpre; cbn in Hpre.
  apply (fmap_None vb_version), (bool_decide_eq_true_1 _), Hpre.
Qed.

Lemma revoke_invitation_cases a m id a' r :
  store_rep (au_state a) m -> authority_typed a -> length id = 32%nat -> revoke_invitation a id = (a', r) ->
  (a' = a /\ exists e, r = Err e) \/
  exists s' m', a' = with_state a s' /\ store_rep s' m' /\ agree a id m m' /\
    forall rec, m !! (au_scope a, ikey id) = Some rec -> is_consumed (vb_bytes rec) = false.
Proof.
  intros Hrep Hty Hid Hc; unfold revoke_invitation in Hc; destruct (ikey_Ok _ Hid) as [Hk Hkw]; rewrite Hk in Hc.
  cbn [mbind result_bind] in Hc; fold (au_scope a) in Hc.
  destruct (read (au_state a) (au_scope a) (ikey id)) as [o|x] eqn:Hr; cbn [map_err mbind result_bind] in Hc; [|injection Hc as <- <-; left; eauto].
  apply (read_rep _ m) in Hr; [|done | apply Hty]; destruct o as [rec|]; cbn [ok_or mbind result_bind] in Hc; [|injection Hc as <- <-; left; eauto].
  destruct (is_consumed (vb_bytes rec)) eqn:Hcon; cbn [fail_if mbind result_bind] in Hc; [injection Hc as <- <-; left; eauto|].
  destruct (AtomicBatch_delete _ _ _) as [b|x] eqn:Hb; cbn [map_err] in Hc; [|injection Hc as <- <-; left; eauto].
  apply AtomicBatch_delete_wf in Hb as (Hw & Hbs & Hops); [|apply AtomicBatch_new_wf, Hty | done].
  destruct (commit (au_state a) b) as [s' cr] eqn:Hco; right; exists s'.
  destruct (commit_invitation a m _ _ _ _ _ Hrep Hty Hid Hw Hbs Hops eq_refl Hco) as (m' & Hr' & Hag & _); exists m'.
  split_and!; [by destruct cr; injection Hc as <- <- | done..|]; intros rec'; rewrite <- Hr; by intros [= <-].
Qed.

(** ** Redeeming *)
Lemma admit_invited_Ok a i prep root now req ex mem ab :
  is_u64 now = true -> is_u64 (iv_expires_at_ms i) = true -> admit_invited a i prep root now = Ok (req, ex, mem, ab) ->
  req = payload (pj_request prep) /\ is_u64 ex = true /\ ex <= iv_expires_at_ms i /\
  admitted a (pj_request prep) (pj_endpoint_binding prep) MemberRoles.MEMBER now ex mem /\
  AppBinding_issue root (as_network_id (au_status a)) (jr_member_id req) RoleClient
    (Some (derive_device_id (as_network_id (au_status a)) (iv_client_app_addr i) (jr_signing_public_key req))) ex [] = Ok ab.
Proof.
  intros Hn Hiu Ha; unfold admit_invited in Ha; cbv zeta in Ha; apply bind_Ok in Ha as (vr & Hvr%map_err_Ok & Ha).
  assert (vjr_payload vr = payload (pj_request prep)) as Hp by (unfold JoinRequest_verify in Hvr; res_inv; done); rewrite Hp in Ha.
  apply bind_Ok in Ha as (u1 & _ & Ha); apply bind_Ok in Ha as (u2 & Hex%fail_if_Ok & Ha); bool_inv.
  apply bind_Ok in Ha as (serial & Hser & Ha); apply bind_Ok in Ha as (mem' & Hmem%map_err_Ok & Ha).
  apply bind_Ok in Ha as (vm & Hvm%map_err_Ok & Ha); apply bind_Ok in Ha as ([] & Hend%map_err_Ok & Ha).
  apply bind_Ok in Ha as (ab' & Hab%map_err_Ok & [= <- <- <- <-]).
  pose proof Hvm as [-> _]%MemberCertificate_verify_with_admin_Ok.
  split_and!; [done | unfold in_range in *; bool_inv; passes | lia | constructor; eauto; lia | done].
Qed.

(** The next configuration of a redemption. *)
Definition enrolled (c : NetworkConfigV1) (head : ConfigHead) now (secrets : EpochSecrets) (mem : MemberCertificate)
    (binding : EndpointBinding) (ab : AppBinding) : NetworkConfigV1 :=
  let c := with_revision c (cfg_epoch c + 1) (cfg_revision c + 1) (head_hash head) now secrets in
  with_members c (cfg_members c ++ [to_bytes mem]) (cfg_endpoint_bindings c ++ [to_bytes binding])
    (cfg_app_bindings c ++ [to_bytes ab]) (cfg_revoked_serials c).

(** A redemption that reached the store, and what it leaves there. *)
Record redemption a m i (prep : PreparedJoinRequest) (root : AppRootKey) now (next : NetworkConfigV1)
    (e : EncryptedConfigEnvelope) (tk : JoinTicket) m' : Prop := {
  rd_record : exists rec, m !! (au_scope a, ikey (iv_invitation_id i)) = Some rec /\ vb_bytes rec = Invitation_to_bytes i /\
    is_consumed (vb_bytes rec) = false;
  rd_typed : config_typed next;
  rd_envelope : next_envelope a next now e (mkOpenedNetworkConfig (mkValidated next) (envelope_head e));
  rd_admitted : exists ex mem ab secrets, is_u64 ex = true /\ ex <= iv_expires_at_ms i /\
    admitted a (pj_request prep) (pj_endpoint_binding prep) MemberRoles.MEMBER now ex mem /\
    AppBinding_issue root (as_network_id (au_status a)) (jr_member_id (payload (pj_request prep))) RoleClient
      (Some (derive_device_id (as_network_id (au_status a)) (iv_client_app_addr i)
               (jr_signing_public_key (payload (pj_request prep))))) ex [] = Ok ab /\
    next = enrolled (vc_inner (au_config a)) (as_head (au_status a)) now secrets mem (pj_endpoint_binding prep) ab /\
    Ticket_issue (au_online_admin a) (as_network_id (au_status a)) (jr_nonce (payload (pj_request prep))) ex (envelope_head e)
      (au_admin_certificate a) (to_bytes mem) (to_bytes (pj_endpoint_binding prep)) (Envelope_to_bytes e) = Ok tk;
  rd_effect : exists m1, commit_effect a m e m1 /\ agree a (iv_invitation_id i) m1 m';
  rd_consumed : exists c, encode_consumed (blake3_hash (PreparedJoinRequest_to_bytes prep)) tk = Ok c /\
    vb_bytes <$> m' !! (au_scope a, ikey (iv_invitation_id i)) = Some c;
}.

Lemma redemption_batch_effect a m e key rec c v batch m' :
  m !! (au_scope a, key) = Some rec -> ~ chain_key key -> batch_scope batch = au_scope a ->
  batch_operations batch = commit_operations a e ++ [Put key c (Exact v)] ->
  preconditions m batch -> batch_effect m batch m' ->
  commit_effect a m e (<[(au_scope a, key) := rec]> m') /\ vb_bytes <$> m' !! (au_scope a, key) = Some c.
Proof.
  intros Hrec Hkey Hbs Hops Hpre [Hin Hout]; unfold preconditions in Hpre; rewrite Hops, Hbs in *.
  assert (Hne : forall key', chain_key key' -> (au_scope a, key) <> (au_scope a, key')) by (intros ? ? [= ->]; done).
  split; [|apply (Hin (Put key c (Exact v))); set_solver]; constructor.
  1-3: rewrite lookup_insert_ne by (apply Hne; unfold chain_key; eauto).
  - apply (Hin (Put au_envelope_key (Envelope_to_bytes e) (Exact (au_envelope_record_version a)))); set_solver.
  - apply (Hin (Put au_head_key (encode_head (envelope_head e)) (Exact (au_head_record_version a)))); set_solver.
  - apply (Hin (Put (au_hist_key (env_revision e)) (Envelope_to_bytes e) Missing)); set_solver.
  - rewrite Forall_forall in Hpre; pose proof (Hpre (Put (au_hist_key (env_revision e)) (Envelope_to_bytes e) Missing)) as Hp.
    cbn in Hp; apply (fmap_None vb_version), (bool_decide_eq_true_1 _), Hp; set_solver.
  - intros scope key' Hk; destruct (decide ((scope, key') = (au_scope a, key))) as [[= -> ->]|Hd].
    + by rewrite lookup_insert_eq.
    + rewrite lookup_insert_ne by congruence; apply Hout; destruct (decide (scope = au_scope a)) as [->|]; [right | by left].
      destruct Hk as [?|(? & ? & ?)]; [done|]; cbn; assert (key' <> key) by congruence; set_solver.
Qed.

Lemma seal_revision_typed a next now ent e o :
  authority_typed a -> config_typed next -> seal_revision a next now ent = Ok (e, o) -> onc_head o = envelope_head e.
Proof.
  intros Hty Ht Hs; apply bind_Ok in Hs as (? & _ & Hs); apply bind_Ok in Hs as (? & _ & Hs).
  apply bind_Ok in Hs as (? & Ho%map_err_Ok & [= <- <-]); exact (open_next_head _ _ _ _ _ _ _ Ho).
Qed.

Lemma prepare_redemption_Ok a m i prep root rec now ent o tk batch :
  store_rep (au_state a) m -> authority_typed a -> is_u64 now = true -> is_u64 (iv_expires_at_ms i) = true ->
  length (iv_invitation_id i) = 32%nat -> m !! (au_scope a, ikey (iv_invitation_id i)) = Some rec ->
  vb_bytes rec = Invitation_to_bytes i -> is_consumed (vb_bytes rec) = false ->
  prepare_redemption a i prep root (ikey (iv_invitation_id i)) rec now ent = Ok (o, tk, batch) ->
  exists next e, o = mkOpenedNetworkConfig (mkValidated next) (envelope_head e) /\ batch_wf batch /\ batch_scope batch = au_scope a /\
    forall m', preconditions m batch -> batch_effect m batch m' -> redemption a m i prep root now next e tk m'.
Proof.
  intros Hrep Hty Hn Hiu Hid Hrec Hb Hcon Hp; unfold prepare_redemption in Hp.
  apply bind_Ok in Hp as ([[[req ex] mem] ab] & (-> & Hex & Hle & Hadm & Hab)%admit_invited_Ok & Hp); [|done..].
  apply bind_Ok in Hp as ([next0 ent'] & Hnext & Hp); cbv zeta in Hp.
  set (next := with_members next0 _ _ _ _) in *.
  assert (Ht : config_typed next).
  { apply with_members_typed; [eapply prepare_next_epoch_typed; [| | |exact Hnext]; [apply Hty | apply Hty | done]|].
    apply prepare_next_epoch_Ok in Hnext as [sec ->]; apply Hty. }
  apply prepare_next_epoch_Ok in Hnext as [secrets ->].
  apply bind_Ok in Hp as ([e o'] & Hs & Hp); pose proof (seal_revision_typed _ _ _ _ _ _ Hty Ht Hs) as Hh.
  apply bind_Ok in Hp as (tk' & Htk & Hp); apply bind_Ok in Hp as (b & Hbatch & Hp).
  apply revision_batch_Ok in Hbatch as (Hw & Hbs & Hops & Hlen); [|apply Hty | done].
  apply bind_Ok in Hp as (c & Hc & Hp); apply bind_Ok in Hp as (b' & Hput%map_err_Ok & [= <- <- <-]).
  destruct (seal_revision_Ok _ _ _ _ _ _ Hs Hlen) as [Hne _].
  destruct (next_envelope_extends _ _ _ _ _ Hty Ht Hne) as [Hext ->]; cbn [onc_head] in Htk.
  apply AtomicBatch_put_wf in Hput as (Hw' & Hbs' & Hops'); [|done | by apply ikey_Ok].
  exists next, e; split_and!; try done; [by rewrite Hbs'|]; intros m' Hpre He.
  rewrite Hbs in Hbs'; rewrite Hops in Hops'.
  destruct (redemption_batch_effect _ _ _ _ _ _ _ _ _ Hrec (ikey_not_chain _) Hbs' Hops' Hpre He) as [Hce Hconsumed].
  constructor; try done; [by exists rec | by exists ex, mem, ab, secrets | | by exists c].
  eexists; split; [exact Hce|]; intros scope key Hk; by rewrite lookup_insert_ne.
Qed.

Lemma find_invitation_Ok a m i prep root now key rec :
  store_rep (au_state a) m -> authority_typed a -> length (iv_invitation_id i) = 32%nat ->
  find_invitation a i prep root now = Ok (key, rec) ->
  key = ikey (iv_invitation_id i) /\ m !! (au_scope a, ikey (iv_invitation_id i)) = Some rec.
Proof.
  intros Hrep Hty Hid Hf; unfold find_invitation in Hf; do 3 (apply bind_Ok in Hf as (? & _ & Hf)).
  rewrite (proj1 (ikey_Ok _ Hid)) in Hf; cbn [mbind result_bind] in Hf.
  apply bind_Ok in Hf as (o & Ho%map_err_Ok & Hf); apply bind_Ok in Hf as (rec' & ->%ok_or_Ok & [= <- <-]).
  split; [done|]; symmetry; by apply (read_rep _ _ _ _ _ Hrep) in Ho; [|apply Hty].
Qed.

(** A redemption is answered from the record, refused, or takes effect as a
    whole, in which case only a failing store can hide it from the caller. *)
Lemma redeem_cases a m i prep root now ent a' r :
  store_rep (au_state a) m -> authority_typed a -> is_u64 now = true -> is_u64 (iv_expires_at_ms i) = true ->
  length (iv_invitation_id i) = 32%nat -> redeem_invitation a i prep root now ent = (a', r) ->
  (a' = a /\ ((exists x, r = Err x) \/ exists rec, m !! (au_scope a, ikey (iv_invitation_id i)) = Some rec /\
     is_consumed (vb_bytes rec) = true /\
     r = decode_consumed (vb_bytes rec) (blake3_hash (PreparedJoinRequest_to_bytes prep)))) \/
  (same_authority a a' /\ store_rep (au_state a') m /\ exists x, r = Err x) \/
  exists next e tk m', redemption a m i prep root now next e tk m' /\ store_rep (au_state a') m' /\
    (same_authority a a' /\ (exists x, r = Err x) \/
     r = Ok tk /\ exists ev hv, a' = with_head a (au_state a') ev hv (mkValidated next) (envelope_head e)).
Proof.
  intros Hrep Hty Hn Hiu Hid Hr; unfold redeem_invitation in Hr.
  destruct (find_invitation a i prep root now) as [[key rec]|x] eqn:Hf; [|injection Hr as <- <-; left; eauto].
  apply (find_invitation_Ok _ m) in Hf as [-> Hrec]; [|done..].
  destruct (is_consumed (vb_bytes rec)) eqn:Hcon; [injection Hr as <- <-; left; split; [done|]; right; eauto|].
  case_bool_decide as Hb; cbn [negb] in Hr; [|injection Hr as <- <-; left; eauto].
  destruct (prepare_redemption _ _ _ _ _ _ _ _) as [[[o tk] batch]|x] eqn:Hp; [|injection Hr as <- <-; left; eauto].
  apply (prepare_redemption_Ok _ m) in Hp as (next & e & -> & Hw & Hbs & Hred); [|done..]; cbn [onc_config onc_head] in Hr.
  destruct (commit (au_state a) batch) as [s' [v|x]] eqn:Hco; right.
  - destruct (commit_success _ _ _ _ _ Hrep Hw Hco) as (Hpre & m' & Hr' & He); right; exists next, e, tk, m'.
    destruct (read_versions _ _) as [[ev hv]|x]; injection Hr as <- <-;
      (split_and!; [by apply Hred | done|]); [right; eauto | left; split; [done | eauto]].
  - injection Hr as <- <-; destruct (commit_failure _ _ _ _ _ Hrep Hw Hco) as [Hm | (_ & Hpre & m' & Hr' & He)].
    + left; split_and!; [done | done | eauto].
    + right; exists next, e, tk, m'; split_and!; [by apply Hred | done | left; split; [done | eauto]].
Qed.

(** ** Any sequence of requests *)
(** The requests of [AuthorityFacts] and those about invitations. *)
Inductive AnyRequest : Type :=
| Configure (r : Request)
| CreateInvitation (bootstrap_endpoint : bytes) (addresses : list SocketAddr) (relay : option bytes) (client_app_addr : AppAddr)
    (service_name : VirtualName) (valid_for_ms : Z)
| Redeem (i : InvitationBundle) (prepared : PreparedJoinRequest) (client_app_root : AppRootKey)
| RedeemOnline (i : InvitationBundle) (prepared : PreparedJoinRequest)
| RevokeInvitation (invitation_id : bytes)
| InstallEnrollmentRoot (app_root : AppRootKey).
Definition invitation_typed i : Prop := length (iv_invitation_id i) = 32%nat /\ is_u64 (iv_expires_at_ms i) = true.
Definition any_typed (r : AnyRequest) : Prop :=
  match r with
  | Configure r => request_typed r
  | Redeem i _ _ | RedeemOnline i _ => invitation_typed i
  | RevokeInvitation id => length id = 32%nat
  | _ => True
  end.
Definition handle_any a (r : AnyRequest) now ent : authority :=
  match r with
  | Configure r => handle a r now ent
  | CreateInvitation ep addrs relay app name valid => (create_invitation a ep addrs relay app name now valid ent).1
  | Redeem i prep root => (redeem_invitation a i prep root now ent).1
  | RedeemOnline i prep => (redeem_invitation_online a i prep now ent).1
  | RevokeInvitation id => (revoke_invitation a id).1
  | InstallEnrollmentRoot root => (install_enrollment_app_root a root).1
  end.
Fixpoint serve_any a (rs : list (AnyRequest * Z * entropy)) : authority :=
  match rs with
  | [] => a
  | (r, now, ent) :: rs => serve_any (handle_any a r now ent) rs
  end.
Lemma serve_any_app a rs rs' : serve_any a (rs ++ rs') = serve_any (serve_any a rs) rs'.
Proof. revert a; induction rs as [|[[r now] ent] rs IH]; intros a; cbn; [done | apply IH]. Qed.

(** The records of used invitations never change. *)
Definition keeps_consumed a m m' : Prop :=
  forall id c, length id = 32%nat -> vb_bytes <$> m !! (au_scope a, ikey id) = Some c -> is_consumed c = true ->
    vb_bytes <$> m' !! (au_scope a, ikey id) = Some c.
Lemma others_kept_consumed a m m' : others_kept a m m' -> keeps_consumed a m m'.
Proof. intros Ho id c _ Hm _; rewrite Ho; [done | right; apply ikey_not_chain]. Qed.
Lemma agree_consumed a id m m' :
  agree a id m m' -> (forall rec, m !! (au_scope a, ikey id) = Some rec -> is_consumed (vb_bytes rec) = false) -> keeps_consumed a m m'.
Proof.
  intros Hag Hnot id' c _ Hm Hc; rewrite Hag; [done|]; intros [= ->].
  apply fmap_Some in Hm as (rec & Hrec & ->); by rewrite (Hnot _ Hrec) in Hc.
Qed.

(** What every request preserves. *)
Definition step_inv a m e0 es a' : Prop :=
  exists m' es' el', chain_inv a' m' e0 (es ++ es') el' /\ (length es' <= 1)%nat /\ keeps_consumed a m m' /\ same_identity a a'.
Lemma step_inv_same a m e0 es el : chain_inv a m e0 es el -> step_inv a m e0 es a.
Proof. intros Hi; exists m, [], el; rewrite app_nil_r; split_and!; [done | cbn; lia | by intros ? | done]. Qed.
Lemma step_inv_frame a m e0 es el a' id m' :
  chain_inv a m e0 es el -> same_view a a' -> same_identity a a' -> store_rep (au_state a') m' -> agree a id m m' ->
  keeps_consumed a m m' -> step_inv a m e0 es a'.
Proof.
  intros Hi Hv Hs Hr Hag Hk; exists m', [], el; rewrite app_nil_r; split_and!; [by eapply chain_inv_frame | cbn; lia | done | done].
Qed.

Lemma redemption_keeps a m i prep root now next e tk m' :
  redemption a m i prep root now next e tk m' -> keeps_consumed a m m'.
Proof.
  intros [(rec & Hrec & Hb & Hnot) _ _ _ (m1 & Hce & Hag) _] id c Hl Hm Hc.
  apply commit_effect_others, others_kept_consumed in Hce; pose proof (Hce id c Hl Hm Hc) as Hm1.
  rewrite Hag; [done|]; intros [= ->]; rewrite Hrec in Hm; injection Hm as <-; congruence.
Qed.
Lemma redemption_inv a m e0 es el i prep root now next e tk m' a' :
  chain_inv a m e0 es el -> redemption a m i prep root now next e tk m' -> store_rep (au_state a') m' ->
  (same_authority a a' \/ exists ev hv, a' = with_head a (au_state a') ev hv (mkValidated next) (envelope_head e)) ->
  chain_inv a' m' e0 (es ++ [e]) e /\ same_identity a a'.
Proof.
  intros Hi [_ Ht Hne _ (m1 & Hce & Hag) _] Hr' Hres; pose proof Hi as [Hrep Hty Hch Hview Hval].
  destruct (next_envelope_extends _ _ _ _ _ Hty Ht Hne) as [Hex _].
  destruct (chain_inv_extended _ _ _ _ _ _ _ _ _ Hi Hex Hce) as [Hch' Hview']; apply (stored_chain_frame _ _ _ _ _ _ _ _ Hag) in Hch'.
  split; [|by destruct Hres as [-> | (ev & hv & ->)]].
  destruct Hres as [Hs | (ev & hv & ->)]; [by eapply same_authority_inv|]; constructor; cbn; try done.
  - destruct Hty; constructor; cbn; try done; apply blake3_hash_len.
  - exists (es ++ [e]), [], e; rewrite app_nil_r; split_and!; try done; [apply Hch' | constructor].
  - exists now; apply Hex.
Qed.
Lemma redeem_step a m e0 es el i prep root now ent :
  chain_inv a m e0 es el -> is_u64 now = true -> invitation_typed i ->
  step_inv a m e0 es (redeem_invitation a i prep root now ent).1.
Proof.
  intros Hi Hn [Hid Hiu]; pose proof Hi as [Hrep Hty _ _ _].
  destruct (redeem_invitation a i prep root now ent) as [a' r] eqn:Hr; cbn [fst].
  destruct (redeem_cases _ _ _ _ _ _ _ _ _ Hrep Hty Hn Hiu Hid Hr)
    as [[-> _] | [(Hs & Hr' & _) | (next & e & tk & m' & Hred & Hr' & Hres)]]; [by eapply step_inv_same | |].
  - apply (step_inv_frame a m e0 es el a' [] m); [done | by rewrite Hs | by rewrite Hs | done | apply agree_refl | by intros ?].
  - destruct (redemption_inv _ _ _ _ _ _ _ _ _ _ _ _ _ _ Hi Hred Hr') as [? ?]; [destruct Hres as [[? _]|[_ ?]]; auto|].
    exists m', [e], e; split_and!; [done | cbn; lia | by eapply redemption_keeps | done].
Qed.

Lemma handle_any_step a m e0 es el r now ent :
  chain_inv a m e0 es el -> any_typed r -> is_u64 now = true -> step_inv a m e0 es (handle_any a r now ent).
Proof.
  intros Hi Ht Hn; pose proof Hi as [Hrep Hty _ _ _]; destruct r as [r|ep addrs relay app name valid|i prep root|i prep|id|root]; cbn [handle_any any_typed] in *.
  - pose proof (handle_cases a r now ent Hty Ht Hn) as Hc; destruct (commits_preserves_inv _ _ _ _ _ _ _ Hi Hc) as (m' & es' & el' & Hi' & Hl & Ho).
    exists m', es', el'; split_and!; try done; [by apply others_kept_consumed|].
    destruct Hc as [-> | (next & ent' & res & _ & Hc)]; [done | by eapply commit_config_identity].
  - destruct (create_invitation _ _ _ _ _ _ _ _ _) as [a' r] eqn:Hc; cbn [fst].
    destruct (create_invitation_cases _ _ _ _ _ _ _ _ _ _ _ _ Hrep Hty Hc) as [[-> _] | (i & ent' & s' & m' & _ & -> & Hr & Hag & Hid & Hcase)];
      [by eapply step_inv_same | eapply step_inv_frame; try done].
    destruct Hcase as [[-> _] | (Hnone & _)]; [by intros ?|]; eapply agree_consumed; [exact Hag|]; congruence.
  - by eapply redeem_step.
  - unfold redeem_invitation_online; destruct (open_secret_32 _ _); [by eapply redeem_step | by eapply step_inv_same].
  - destruct (revoke_invitation a id) as [a' r] eqn:Hc; cbn [fst].
    destruct (revoke_invitation_cases _ _ _ _ _ Hrep Hty Ht Hc) as [[-> _] | (s' & m' & -> & Hr & Hag & Hnot)];
      [by eapply step_inv_same | eapply step_inv_frame; try done; by eapply agree_consumed].
  - unfold install_enrollment_app_root; match goal with |- context [match ?x with Ok _ => _ | Err _ => _ end] => destruct x end; [|by eapply step_inv_same].
    destruct (Store.seal _ _ _) as [k r]; cbn [fst].
    apply (step_inv_frame a m e0 es el _ [] m); [done.. | apply agree_refl | by intros ?].
Qed.

Definition served_typed (rs : list (AnyRequest * Z * entropy)) : Prop :=
  Forall (fun x => any_typed x.1.1 /\ is_u64 x.1.2 = true) rs.
Lemma serve_any_inv a rs m e0 es el :
  chain_inv a m e0 es el -> served_typed rs ->
  exists m' es' el', chain_inv (serve_any a rs) m' e0 (es ++ es') el' /\ (length es' <= length rs)%nat /\
    keeps_consumed a m m' /\ same_identity a (serve_any a rs).
Proof.
  intros Hi Hrs; revert a m es el Hi; induction Hrs as [|[[r now] ent] rs [Hr Hn] _ IH]; intros a m es el Hi; cbn in *.
  - exists m, [], el; rewrite app_nil_r; split_and!; [done | cbn; lia | by intros ? | done].
  - destruct (handle_any_step _ _ _ _ _ r now ent Hi Hr Hn) as (m1 & es1 & el1 & Hi1 & Hl1 & Hk1 & Hs1).
    destruct (IH _ _ _ _ Hi1) as (m2 & es2 & el2 & Hi2 & Hl2 & Hk2 & Hs2); exists m2, (es1 ++ es2), el2.
    rewrite app_assoc, length_app; split_and!; [done | lia | | by etrans].
    intros id c Hid Hm Hc; pose proof (Hk1 id c Hid Hm Hc) as Hm1.
    assert (au_scope (handle_any a r now ent) = au_scope a) as Hsc by (unfold au_scope; by rewrite (proj2 (proj2 (proj2 (proj2 (proj2 Hs1)))))).
    rewrite <- Hsc in Hm1 |- *; by apply Hk2.
Qed.

(** An authority from the moment it is opened, whatever it serves. *)
Lemma serve_any_running s m k file t s' a rs :
  store_rep s m -> Authority_open s k file t = (s', Ok a) -> served_typed rs -> running (serve_any a rs) t.
Proof.
  intros Hrep Ho Hrs; destruct (open_establishes_inv _ _ _ _ _ _ _ Hrep Ho) as (m0 & e0 & Hi).
  destruct (serve_any_inv _ _ _ _ _ _ Hi Hrs) as (m' & es & el & Hi' & _ & _ & Hs); constructor; [eauto|].
  eapply administers_same; [exact Hs | by eapply open_administers].
Qed.

Lemma decode_consumed_inv c h h' t t' :
  decode_consumed c h = Ok t -> decode_consumed c h' = Ok t' -> h' = h /\ t' = t.
Proof.
  unfold decode_consumed; intros Hd Hd'; res_inv; bool_inv; split; congruence.
Qed.

(** The ticket of a redemption. *)
Lemma redemption_ticket a t m i prep root now next e tk m' :
  redemption a m i prep root now next e tk m' -> administers a t -> t <= now -> is_u64 now = true -> authority_typed a ->
  cert_wf (pj_request prep) -> cert_wf (pj_endpoint_binding prep) ->
  Ticket_from_bytes (Ticket_to_bytes tk) = Ok tk /\
  Ticket_verify tk (au_root_public a) (as_network_id (au_status a)) (jr_nonce (payload (pj_request prep)))
    (jr_endpoint_id (payload (pj_request prep))) now = Ok tt.
Proof.
  intros [_ Ht Hne (ex & mem & ab & secrets & Hex & _ & Hadm & _ & _ & Htk) _ _] Had Htn Hn Hty Hreq Hbind.
  destruct (next_envelope_extends _ _ _ _ _ Hty Ht Hne) as [Hext _].
  destruct (admitted_wf _ _ _ _ _ _ _ _ Had Hty Hn Hex (eq_refl : is_u32 MemberRoles.MEMBER = true) Hreq Hadm) as (Hwm & _).
  eapply (issued_ticket_valid a t now ex _ _ MemberRoles.MEMBER mem e tk); try done; [apply Hext | apply Hext | apply Hne].
Qed.

(** Only a verified invitation to the owner's application is redeemed. *)
Lemma redeem_checked a i prep root now ent a' tk :
  redeem_invitation a i prep root now ent = (a', Ok tk) ->
  Invitation_verify i (au_root_public a) now = Ok tt /\ iv_client_app_addr i = AppRootKey_app_addr root.
Proof.
  unfold redeem_invitation; destruct (find_invitation a i prep root now) as [[key rec]|] eqn:Hf; [|done]; intros _.
  unfold find_invitation in Hf; apply bind_Ok in Hf as ([] & Hv & Hf); apply bind_Ok in Hf as (u & Happ%fail_if_Ok & _).
  by bool_inv.
Qed.

(** After a successful redemption the record answers with this ticket. *)
Definition answers a (id : bytes) m (prep : PreparedJoinRequest) tk : Prop :=
  exists c, vb_bytes <$> m !! (au_scope a, ikey id) = Some c /\ is_consumed c = true /\
    decode_consumed c (blake3_hash (PreparedJoinRequest_to_bytes prep)) = Ok tk.
Lemma redeemed_answers a t m e0 es el i prep root now ent a' tk :
  chain_inv a m e0 es el -> administers a t -> t <= now -> is_u64 now = true -> invitation_typed i ->
  cert_wf (pj_request prep) -> cert_wf (pj_endpoint_binding prep) ->
  redeem_invitation a i prep root now ent = (a', Ok tk) ->
  exists m' es' el', chain_inv a' m' e0 es' el' /\ same_identity a a' /\ answers a (iv_invitation_id i) m' prep tk.
Proof.
  intros Hi Had Htn Hn [Hid Hiu] Hreq Hbind Hr; pose proof Hi as [Hrep Hty _ _ _].
  destruct (redeem_cases _ _ _ _ _ _ _ _ _ Hrep Hty Hn Hiu Hid Hr)
    as [[-> [[x ?] | (rec & Hrec & Hc & Hd)]] | [(_ & _ & x & ?) | (next & e & tk' & m' & Hred & Hr' & [[_ [x ?]] | ([= <-] & Ha')])]]; try done.
  - exists m, es, el; split_and!; try done; exists (vb_bytes rec); rewrite Hrec; by split_and!.
  - destruct (redemption_ticket _ _ _ _ _ _ _ _ _ _ _ Hred Had Htn Hn Hty Hreq Hbind) as [Hw _].
    destruct (rd_consumed _ _ _ _ _ _ _ _ _ _ Hred) as (c & Hc & Hm').
    apply Ticket_from_bytes_exact in Hw as [Hw _]; apply encode_consumed_Ok in Hc as (? & ? & _); [|apply blake3_hash_len | done].
    destruct (redemption_inv _ _ _ _ _ _ _ _ _ _ _ _ _ _ Hi Hred Hr') as [? ?]; [by right|].
    exists m', (es ++ [e]), e; split_and!; try done; exists c; by split_and!.
Qed.

(** ** What a created invitation says *)
Lemma open_root_length s k file t s' a :
  Authority_open s k file t = (s', Ok a) -> length (root_verifying_key (au_root_public a)) = 32%nat.
Proof.
  intros Ho; unfold Authority_open in Ho.
  destruct (load_authority s k file t) as [[[[[[[[[mf root] enc] esk] admin] va] er] hr] o]|] eqn:Hl; [|done].
  destruct (migrate_history _ _ _ _) as [s1 [[]|]]; [|done]; injection Ho as <- Ho.
  apply bind_Ok in Ho as (vadm & _ & Ho); apply bind_Ok in Ho as (u & _ & <-%Ok_inj); cbn.
  unfold load_authority in Hl; apply bind_Ok in Hl as (mf' & Hmf & Hl); apply bind_Ok in Hl as (root' & Hroot%map_err_Ok & Hl).
  do 20 (apply bind_Ok in Hl as (? & _ & Hl)); injection Hl as <- <- <- <- <- <- <- <- <-.
  apply bind_Ok in Hroot as (key & Hk & <-%Ok_inj); unfold verifying_key in Hk; res_inv; cbn.
  unfold read_manifest in Hmf; apply bind_Ok in Hmf as (bs & _ & Hmf); apply bind_Ok in Hmf as (u1 & Hlen%fail_if_Ok & Hmf).
  apply orb_false_iff in Hlen as [Hlen%Nat.ltb_ge _]; apply bind_Ok in Hmf as (u2 & _ & <-%Ok_inj); cbn.
  unfold MANIFEST_FIXED_LEN in Hlen; rewrite length_take, length_drop; lia.
Qed.

Record issued_invitation a ep addrs relay app name now i : Prop := {
  ii_fields : iv_network_id i = as_network_id (au_status a) /\ iv_root_public_key i = root_verifying_key (au_root_public a) /\
    iv_bootstrap_endpoint_id i = ep /\ iv_bootstrap_direct_addresses i = addrs /\ iv_bootstrap_relay i = relay /\
    iv_client_app_addr i = app /\ iv_service_name i = name /\ iv_admin_certificate i = au_admin_certificate a /\
    iv_signer_key_id i = OnlineAdminKey_key_id (au_online_admin a);
  ii_id : length (iv_invitation_id i) = 32%nat;
  ii_count : len addrs <= MAX_DIRECT_ADDRESSES;
  ii_expires : now < iv_expires_at_ms i <= U64_MAX /\ iv_expires_at_ms i <= adm_expires_at_ms (va_payload (au_verified_admin a));
  ii_signed : Invitation_encode_signed i = Ok (iv_signed_bytes i);
  ii_signature : iv_signature i = OnlineAdminKey_sign_bytes (au_online_admin a) (iv_signed_bytes i);
}.
Lemma prepare_invitation_Ok a ep addrs relay app name now valid ent i ent' :
  prepare_invitation a ep addrs relay app name now valid ent = Ok (i, ent') ->
  issued_invitation a ep addrs relay app name now i.
Proof.
  intros Hp; unfold prepare_invitation in Hp.
  apply rnd_bind_Ok in Hp as (ex & e1 & [Hex%ok_or_Ok ->]%rlift_Ok & Hp); cbv zeta in Hp.
  apply rnd_bind_Ok in Hp as (u1 & e1 & [Hg%fail_if_Ok ->]%rlift_Ok & Hp); apply rnd_bind_Ok in Hp as (u2 & e1 & [_ ->]%rlift_Ok & Hp).
  apply rnd_bind_Ok in Hp as (id & e1 & Hf%fill_Ok & Hp); apply rlift_Ok in Hp as [Hp _].
  unfold checked_add in Hex; destruct (_ <=? U64_MAX) eqn:Hle; [|done]; injection Hex as <-; bool_inv.
  apply bind_Ok in Hp as (sb & Hsb & <-%Ok_inj); constructor; cbn [iv_network_id iv_root_public_key iv_bootstrap_endpoint_id
    iv_bootstrap_direct_addresses iv_bootstrap_relay iv_client_app_addr iv_service_name iv_admin_certificate iv_signer_key_id
    iv_invitation_id iv_expires_at_ms iv_signed_bytes iv_signature]; try done; lia.
Qed.

Lemma issued_invitation_wf a t ep addrs relay app name now i :
  issued_invitation a ep addrs relay app name now i -> administers a t -> authority_typed a ->
  length (root_verifying_key (au_root_public a)) = 32%nat -> 0 <= now ->
  length ep = 32%nat -> Forall address_wf addrs -> (forall r, relay = Some r -> string16_wf 2048 r) -> AppAddr_wf app -> VirtualName_wf name ->
  invitation_wf i.
Proof.
  intros [(Hn & Hr & He & Ha & Hrl & Hap & Hna & Hc & Hk) Hid Hct [[? ?] _] Hs Hsg] (ac & Hac & _) Hty Hroot Hnow Hep Had Hrel Happ Hname.
  pose proof Hac as [Hwac Hraw]%AdminCertificate_from_bytes_exact.
  assert (blob16_wf (16 * 1024) (au_admin_certificate a)).
  { destruct Hwac as (Hw & Hsp & Hg); rewrite Hraw; unfold blob16_wf, to_bytes, append_signature, len; rewrite length_app, Hg, Hsp.
    rewrite admin_payload_length by done; vm_compute; split; congruence. }
  constructor; rewrite ?Hn, ?Hr, ?He, ?Ha, ?Hrl, ?Hap, ?Hna, ?Hc, ?Hk; try done; [apply Hty | | apply derive_key_id_len|].
  - unfold in_range, U64_MAX in *; passes.
  - rewrite Hsg; apply ed_sign_len, Hty.
Qed.

Lemma issued_invitation_verifies a t ep addrs relay app name now i t' :
  issued_invitation a ep addrs relay app name now i -> administers a t -> authority_typed a -> endpoint_id_valid ep = true ->
  t <= t' < iv_expires_at_ms i -> Invitation_verify i (au_root_public a) t' = Ok tt.
Proof.
  intros [(Hn & Hr & He & _ & _ & _ & _ & Hc & Hk) _ _ [_ ?] _ Hsg] Had Hty Hep Ht'.
  destruct (administers_later a t t') as (ac & Hac & Hva & Hvac & Hkid & Hvb); [done | lia | done|].
  unfold Invitation_verify; rewrite Hn, Hr, He, Hc, Hk, (ty_root _ Hty), Hep.
  apply bind_Ok; exists tt; split; [apply fail_if_Ok; passes|]; rewrite Hac; cbn [map_err mbind result_bind].
  rewrite Hvac; cbn [map_err mbind result_bind]; apply bind_Ok; exists tt; split.
  - apply fail_if_Ok, negb_false_iff, bool_decide_eq_true; done.
  - rewrite Hsg; apply map_err_Ok, Hvb.
Qed.
End ops.
