(* ===== verification/InvitationChain.v ===== *)
(** * The authority and its invitations

    The properties of the authority under every request, those about invitations
    included: the stored chain is append-only, an invitation is redeemed at most
    once, a redeemed one enrols the device, a created one works, the messages of the
    bootstrap protocol survive the wire, and expired members lock the configuration. *)

From S2P Require Import Prelude Platform Wire Core Store CertificateWire Certificates Symmetric ToyCrypto CertificateChain Snapshot.
From S2P Require Import Validate Envelope EnvelopeChain ConfigState ConfigStateFacts JoinTicket Authority AuthorityFacts.
From S2P Require Import AuthorityChain AuthorityOps SocketAddr Invitation InvitationFacts.

Section claims.
Context `{Led : Ed25519Laws} `{Lblake : Blake3Laws} `{Laead : AeadLaws} `{Lhpke : HpkeLaws} `{Lexcl : !HpkeExclusive}.
Context `{Lplatform : Platform} {S K : Type} `{Lstore : StateStoreLaws S} `{Lsecret : SecretStore K} `{Lb64 : Base64Laws}.

(** C3: the configuration chain is append-only.  Open an authority on any store
    that keeps its contract and let it serve any requests at any times, those that
    create, redeem and revoke invitations included, with the store failing wherever
    it likes: at every point the store holds one chain of envelopes starting at the
    one the authority was opened at, each the successor of the one before by
    revision and hash with the epoch not decreasing, whose last is the current
    envelope and head; and the authority's own head is the head of one of its
    envelopes.  Each request adds at most one envelope. *)
Theorem authority_chain_append_only (s s' : S) (m : records) (k : K) (file : option bytes) (t : Z) (a : Authority S K)
    (before after : list (AnyRequest * Z * entropy)) :
  store_rep s m -> Authority_open s k file t = (s', Ok a) -> served_typed (before ++ after) ->
  exists m1 m2 e0 es1 es2 e1 e2,
    chain_inv (serve_any a before) m1 e0 es1 e1 /\ chain_inv (serve_any a (before ++ after)) m2 e0 (es1 ++ es2) e2 /\
    (length es1 <= length before)%nat /\ (length es2 <= length after)%nat.
Proof.
  intros Hrep Ho [Hb Ha]%Forall_app; destruct (open_establishes_inv _ _ _ _ _ _ _ Hrep Ho) as (m0 & e0 & Hi).
  destruct (serve_any_inv _ _ _ _ _ _ Hi Hb) as (m1 & es1 & e1 & Hi1 & Hl1 & _).
  destruct (serve_any_inv _ _ _ _ _ _ Hi1 Ha) as (m2 & es2 & e2 & Hi2 & Hl2 & _).
  exists m1, m2, e0, es1, es2, e1, e2; rewrite serve_any_app; by split_and!.
Qed.

(** C30: an invitation is redeemed at most once.  Once a redemption has been
    answered with a ticket, then after any further requests a redemption of the
    same invitation changes nothing; the only ticket it can be answered with is the
    first one, and only for a request with the same hash; a device that repeats its
    request does get it again as soon as the checks and the store let it through;
    and the invitation can no longer be revoked. *)
Theorem invitation_redeemed_once (s s' : S) (m : records) (k : K) (file : option bytes) (t : Z) (a0 : Authority S K)
    (before between : list (AnyRequest * Z * entropy)) (i i' : InvitationBundle) (prep prep' : PreparedJoinRequest)
    (root root' : AppRootKey) (now now' : Z) (ent ent' : entropy) (a1 a2 : Authority S K) (tk : JoinTicket)
    (r : result AuthorityError JoinTicket) :
  store_rep s m -> Authority_open s k file t = (s', Ok a0) -> served_typed before -> served_typed between ->
  invitation_typed i -> t <= now -> is_u64 now = true -> cert_wf (pj_request prep) -> cert_wf (pj_endpoint_binding prep) ->
  redeem_invitation (serve_any a0 before) i prep root now ent = (a1, Ok tk) ->
  let a := serve_any a1 between in
  invitation_typed i' -> iv_invitation_id i' = iv_invitation_id i -> is_u64 now' = true ->
  redeem_invitation a i' prep' root' now' ent' = (a2, r) ->
  a2 = a /\
  (forall tk', r = Ok tk' -> tk' = tk /\
     blake3_hash (PreparedJoinRequest_to_bytes prep') = blake3_hash (PreparedJoinRequest_to_bytes prep)) /\
  (forall found, find_invitation a i' prep root' now' = Ok found -> prep' = prep -> r = Ok tk) /\
  (revoke_invitation a (iv_invitation_id i)).1 = a.
Proof.
  intros Hrep Ho Hb Hbt Hti Htn Hn Hwr Hwb Hr a [Hid' Hiu'] Hid Hn' Hr2.
  destruct (serve_any_running _ _ _ _ _ _ _ _ Hrep Ho Hb) as [(m1 & e0 & es & el & Hi) Had].
  destruct (redeemed_answers _ _ _ _ _ _ _ _ _ _ _ _ _ Hi Had Htn Hn Hti Hwr Hwb Hr) as (m2 & es2 & el2 & Hi2 & Hs2 & c & Hc & Hcon & Hdec).
  destruct (serve_any_inv _ _ _ _ _ _ Hi2 Hbt) as (m3 & es3 & el3 & Hi3 & _ & Hk & Hs3); fold a in Hi3, Hs3.
  assert (Hsc : au_scope a1 = au_scope (serve_any a0 before) /\ au_scope a = au_scope a1)
    by (split; unfold au_scope; f_equal; [apply Hs2 | apply Hs3]).
  destruct Hsc as [Hsc1 Hsc]; rewrite <- Hsc1 in Hc; apply (Hk _ _ (proj1 Hti)) in Hc; [|done]; rewrite <- Hsc in Hc.
  pose proof Hi3 as [Hrep3 Hty3 _ _ _]; apply fmap_Some in Hc as (rec & Hrec & ->); rewrite <- Hid in Hrec |- *.
  assert (Hfound : forall p rt n key rec', find_invitation a i' p rt n = Ok (key, rec') -> rec' = rec).
  { intros p rt n key rec' [_ Hf]%(find_invitation_Ok _ m3); [congruence | done..]. }
  unfold redeem_invitation in Hr2; split_and!.
  - destruct (find_invitation _ _ _ _ _) as [[key rec']|] eqn:Hf; [|congruence].
    rewrite (Hfound _ _ _ _ _ Hf), Hcon in Hr2; congruence.
  - intros tk' ->; destruct (find_invitation _ _ _ _ _) as [[key rec']|] eqn:Hf; [|done].
    rewrite (Hfound _ _ _ _ _ Hf), Hcon in Hr2; injection Hr2 as _ Hd; destruct (decode_consumed_inv _ _ _ _ _ Hdec Hd); done.
  - intros [key rec'] Hf ->; rewrite Hf, (Hfound _ _ _ _ _ Hf), Hcon, Hdec in Hr2; congruence.
  - destruct (revoke_invitation a (iv_invitation_id i')) as [a3 r3] eqn:Hv; cbn [fst].
    destruct (revoke_invitation_cases _ _ _ _ _ Hrep3 Hty3 Hid' Hv) as [[-> _] | (s3 & m4 & _ & _ & _ & Hnot)]; [done|].
    by rewrite (Hnot _ Hrec) in Hcon.
Qed.

(** Redeeming enrols the device.  A redemption that is answered with a ticket
    either repeats an earlier answer and changes nothing, or: the ticket survives
    the wire and verifies at the device for the nonce and endpoint of its request
    and names the new head; the new configuration is valid and has, beyond the old
    one, exactly the member in the ticket, which carries the keys of the request,
    the role of a plain member, an expiry no later than the invitation's and a serial
    number never used before, its endpoint binding, and a client binding to the
    application the invitation is for. *)
Theorem redeemed_member_enrolled (s s' : S) (m : records) (k : K) (file : option bytes) (t : Z) (a0 : Authority S K)
    (before : list (AnyRequest * Z * entropy)) (i : InvitationBundle) (prep : PreparedJoinRequest) (root : AppRootKey)
    (now : Z) (ent : entropy) (a' : Authority S K) (tk : JoinTicket) :
  store_rep s m -> Authority_open s k file t = (s', Ok a0) -> served_typed before ->
  invitation_typed i -> t <= now -> is_u64 now = true -> cert_wf (pj_request prep) -> cert_wf (pj_endpoint_binding prep) ->
  let a := serve_any a0 before in
  redeem_invitation a i prep root now ent = (a', Ok tk) ->
  a' = a \/
  (Ticket_from_bytes (Ticket_to_bytes tk) = Ok tk /\
   Ticket_verify tk (au_root_public a) (as_network_id (au_status a)) (jr_nonce (payload (pj_request prep)))
     (jr_endpoint_id (payload (pj_request prep))) now = Ok tt /\
   tk_config_head tk = as_head (au_status a') /\
   let old := vc_inner (au_config a) in
   let new := vc_inner (au_config a') in
   config_valid new (au_root_public a) (as_network_id (au_status a)) now /\
   exists mem ab, MemberCertificate_from_bytes (tk_member_certificate tk) = Ok mem /\
     mc_signing_public_key (payload mem) = jr_signing_public_key (payload (pj_request prep)) /\
     mc_encryption_public_key (payload mem) = jr_encryption_public_key (payload (pj_request prep)) /\
     mc_roles (payload mem) = MemberRoles.MEMBER /\ mc_expires_at_ms (payload mem) <= iv_expires_at_ms i /\
     serial_fresh old (mc_serial (payload mem)) /\
     cfg_members new = cfg_members old ++ [tk_member_certificate tk] /\
     cfg_endpoint_bindings new = cfg_endpoint_bindings old ++ [to_bytes (pj_endpoint_binding prep)] /\
     cfg_app_bindings new = cfg_app_bindings old ++ [to_bytes ab] /\
     ab_app_addr (payload ab) = iv_client_app_addr i /\ ab_subject (payload ab) = jr_member_id (payload (pj_request prep)) /\
     ab_role (payload ab) = RoleClient).
Proof.
  intros Hrep Ho Hb [Hid Hiu] Htn Hn Hwr Hwb a Hr.
  destruct (serve_any_running _ _ _ _ _ _ _ _ Hrep Ho Hb) as [(m1 & e0 & es & el & Hi) Had]; fold a in Hi, Had.
  pose proof Hi as [Hrep1 Hty _ _ _]; destruct (redeem_checked _ _ _ _ _ _ _ _ Hr) as [_ Happ].
  destruct (redeem_cases _ _ _ _ _ _ _ _ _ Hrep1 Hty Hn Hiu Hid Hr)
    as [[-> _] | [(_ & _ & x & ?) | (next & e & tk' & m' & Hred & Hr' & [[_ [x ?]] | ([= <-] & ev & hv & ->)])]]; try done; [by left | right].
  destruct (redemption_ticket _ _ _ _ _ _ _ _ _ _ _ Hred Had Htn Hn Hty Hwr Hwb) as [? ?].
  destruct Hred as [_ Ht Hne (ex & mem & ab & secrets & Hex & Hle & Hadm & Hab & Hnext & Htk) _ _].
  destruct (next_envelope_extends _ _ _ _ _ Hty Ht Hne) as [Hext _].
  destruct (admitted_wf _ _ _ _ _ _ _ _ Had Hty Hn Hex (eq_refl : is_u32 MemberRoles.MEMBER = true) Hwr Hadm) as (Hwm & ? & ? & ? & Hmex & ?).
  assert (tk_member_certificate tk = to_bytes mem /\ tk_config_head tk = envelope_head e) as [Htm Hth]
    by (unfold Ticket_issue in Htk; apply bind_Ok in Htk as (sb & _ & <-%Ok_inj); done).
  assert (ab_app_addr (payload ab) = AppRootKey_app_addr root /\ ab_subject (payload ab) = jr_member_id (payload (pj_request prep)) /\
    ab_role (payload ab) = RoleClient) as (? & ? & ?) by (unfold AppBinding_issue in Hab; res_inv; done).
  split_and!; try done; cbv zeta; split; [apply Hext|]; exists mem, ab; rewrite Htm; cbn [with_head au_config vc_inner]; rewrite Hnext; split_and!; try done; [by apply MemberCertificate_from_bytes_exact | lia | congruence].
Qed.

(** A created invitation works.  It survives its binary and its text form, and
    verifies against the network root until it expires; it names the service, the
    application and the addresses it was asked for; and the authority's store holds
    it, where there was nothing under its identifier before. *)
Theorem created_invitation_works (s s' : S) (m : records) (k : K) (file : option bytes) (t : Z) (a0 : Authority S K)
    (before : list (AnyRequest * Z * entropy)) (ep : bytes) (addrs : list SocketAddr) (relay : option bytes) (app : AppAddr)
    (name : VirtualName) (now valid t' : Z) (ent : entropy) (a' : Authority S K) (i : InvitationBundle) :
  store_rep s m -> Authority_open s k file t = (s', Ok a0) -> served_typed before ->
  0 <= now -> length ep = 32%nat -> endpoint_id_valid ep = true -> Forall address_wf addrs ->
  (forall r, relay = Some r -> string16_wf 2048 r) -> AppAddr_wf app -> VirtualName_wf name ->
  let a := serve_any a0 before in
  create_invitation a ep addrs relay app name now valid ent = (a', Ok i) -> t <= t' < iv_expires_at_ms i ->
  Invitation_from_bytes (Invitation_to_bytes i) = Ok i /\ Invitation_from_text (Invitation_to_text i) = Ok i /\
  Invitation_verify i (au_root_public a) t' = Ok tt /\ now < iv_expires_at_ms i /\
  iv_service_name i = name /\ iv_client_app_addr i = app /\ iv_bootstrap_direct_addresses i = addrs /\
  exists m0 m', store_rep (au_state a) m0 /\ m0 !! (au_scope a, ikey (iv_invitation_id i)) = None /\
    store_rep (au_state a') m' /\ vb_bytes <$> m' !! (au_scope a, ikey (iv_invitation_id i)) = Some (Invitation_to_bytes i).
Proof.
  intros Hrep Ho Hb Hnow Hep Hepv Haddr Hrel Happ Hname a Hc Ht'.
  destruct (open_establishes_inv _ _ _ _ _ _ _ Hrep Ho) as (m1 & e0 & Hi0).
  destruct (serve_any_inv _ _ _ _ _ _ Hi0 Hb) as (m0 & es & el & [Hrep0 Hty _ _ _] & _ & _ & Hsi); fold a in Hrep0, Hty, Hsi.
  assert (Had : administers a t) by (eapply administers_same; [exact Hsi | by eapply open_administers]).
  assert (Hroot : length (root_verifying_key (au_root_public a)) = 32%nat) by (rewrite (proj1 Hsi); by eapply open_root_length).
  destruct (create_invitation_cases _ _ _ _ _ _ _ _ _ _ _ _ Hrep0 Hty Hc)
    as [[_ [x ?]] | (i' & ent' & s1 & m' & Hp%prepare_invitation_Ok & -> & Hr & _ & _ & [(_ & x & ?) | (Hnone & [[= <-] | [x ?]] & Hm')])]; try done.
  pose proof (issued_invitation_wf _ _ _ _ _ _ _ _ _ Hp Had Hty Hroot Hnow Hep Haddr Hrel Happ Hname) as Hw.
  pose proof (issued_invitation_verifies _ _ _ _ _ _ _ _ _ _ Hp Had Hty Hepv Ht') as Hv.
  destruct Hp as [(_ & _ & _ & ? & _ & ? & ? & _) _ _ [[? _] _] _ _].
  split_and!; try done; [by apply Invitation_wire | by apply Invitation_text | exists m0, m'; by split_and!].
Qed.
(** *** A configuration with expired members *)
Lemma redeem_locked (a : Authority S K) raw mem i prep root now ent :
  expired_member (vc_inner (au_config a)) raw mem now ->
  (redeem_invitation a i prep root now ent).1 = a /\
  forall tk, (redeem_invitation a i prep root now ent).2 = Ok tk ->
    exists key rec, find_invitation a i prep root now = Ok (key, rec) /\ is_consumed (vb_bytes rec) = true.
Proof.
  intros (Hin & Hp & He); unfold redeem_invitation; destruct (find_invitation a i prep root now) as [[key rec]|]; [|done].
  destruct (is_consumed (vb_bytes rec)) eqn:Hc; [split; [done | eauto]|]; destruct (negb _); [done|].
  destruct (prepare_redemption a i prep root key rec now ent) as [[[o tk] b]|] eqn:Hpr; [exfalso | done].
  unfold prepare_redemption in Hpr; apply bind_Ok in Hpr as ([[[req ex] mm] ab] & _ & Hpr).
  apply bind_Ok in Hpr as ([next ent'] & [secrets ->]%prepare_next_epoch_Ok & Hpr); cbv zeta in Hpr.
  apply bind_Ok in Hpr as (x & Hs & _); revert Hs; apply (expired_seal_refused _ _ _ _ raw mem); [|done].
  split_and!; [cbn; set_solver | done | done].
Qed.
(** With two expired members no request, at any later time, moves the authority on. *)
Lemma handle_any_locked (a : Authority S K) raw1 raw2 mem1 mem2 now r t ent :
  expired_member (vc_inner (au_config a)) raw1 mem1 now -> expired_member (vc_inner (au_config a)) raw2 mem2 now ->
  mc_member_id (payload mem2) <> mc_member_id (payload mem1) -> now <= t ->
  au_config (handle_any a r t ent) = au_config a /\ au_status (handle_any a r t ent) = au_status a.
Proof.
  intros (I1 & P1 & E1) (I2 & P2 & E2) Hne Hle.
  assert (X1 : expired_member (vc_inner (au_config a)) raw1 mem1 t) by (split_and!; done || lia).
  assert (X2 : expired_member (vc_inner (au_config a)) raw2 mem2 t) by (split_and!; done || lia).
  destruct r as [r|ep addrs relay app name valid|i prep root|i prep|id|root]; cbn [handle_any].
  - assert ((forall id, r = RevokeMember id -> mc_member_id (payload mem1) <> id) \/
            (forall id, r = RevokeMember id -> mc_member_id (payload mem2) <> id)) as Hr.
    { destruct r as [|id| | | | | |]; try (by left).
      destruct (decide (mc_member_id (payload mem1) = id)) as [<-|]; [right | left]; by intros ? [= <-]. }
    rewrite <- handle_outcome_fst; destruct Hr as [Hr|Hr];
      [destruct (handle_locked a r t ent raw1 mem1 X1 Hr) as [e ->] | destruct (handle_locked a r t ent raw2 mem2 X2 Hr) as [e ->]]; done.
  - unfold create_invitation; match goal with |- context [match ?x with Ok _ => _ | Err _ => _ end] => destruct x as [[inv b]|] end; [|done].
    by destruct (commit _ _) as [s' [v|e]].
  - by destruct (redeem_locked a raw1 mem1 i prep root t ent X1) as [-> _].
  - unfold redeem_invitation_online; destruct (open_secret_32 _ _) as [bs|]; [|done].
    by destruct (redeem_locked a raw1 mem1 i prep (AppRootKey_from_bytes bs) t ent X1) as [-> _].
  - unfold revoke_invitation; match goal with |- context [match ?x with Ok _ => _ | Err _ => _ end] => destruct x as [b|] end; [|done].
    by destruct (commit _ _) as [s' [v|e]].
  - unfold install_enrollment_app_root; match goal with |- context [match ?x with Ok _ => _ | Err _ => _ end] => destruct x end; [|done].
    by destruct (Store.seal _ _ _).
Qed.

(** C38: expired members lock the configuration.  As soon as the certificate of one member
    has expired, every request to change the configuration, except the revocation of that
    very member, is answered with an error and leaves the authority as it is; and no
    invitation is redeemed, unless it had been before.  As soon as the certificates of two
    members have expired, no sequence of requests, those about invitations included and
    whatever the store does, ever changes the configuration or the head again.  And no
    authority can be opened at a configuration that lists an expired member. *)
Theorem expired_members_lock_configuration (a : Authority S K) (raw1 raw2 : bytes) (mem1 mem2 : MemberCertificate) (now : Z) :
  expired_member (vc_inner (au_config a)) raw1 mem1 now ->
  (forall r ent, r <> RevokeMember (mc_member_id (payload mem1)) -> exists e, handle_outcome a r now ent = (a, Some e)) /\
  (forall i prep root ent, (redeem_invitation a i prep root now ent).1 = a /\
     forall tk, (redeem_invitation a i prep root now ent).2 = Ok tk ->
       exists key rec, find_invitation a i prep root now = Ok (key, rec) /\ is_consumed (vb_bytes rec) = true) /\
  (expired_member (vc_inner (au_config a)) raw2 mem2 now -> mc_member_id (payload mem2) <> mc_member_id (payload mem1) ->
   forall rs, Forall (fun x => now <= x.1.2) rs ->
     au_config (serve_any a rs) = au_config a /\ au_status (serve_any a rs) = au_status a) /\
  (forall s m k file t s' a', store_rep s m -> now <= t -> Authority_open s k file t = (s', Ok a') ->
     vc_inner (au_config a') <> vc_inner (au_config a)).
Proof.
  intros Hex; split_and!.
  - intros r ent Hne; apply (handle_locked a r now ent raw1 mem1 Hex); intros id -> Heq; apply Hne; by rewrite Heq.
  - intros i prep root ent; by apply (redeem_locked a raw1 mem1).
  - intros Hex2 Hne rs Hrs; revert a Hex Hex2; induction Hrs as [|[[r t] ent] rs Ht _ IH]; intros a Hex Hex2; [done|]; cbn in *.
    destruct (handle_any_locked a raw1 raw2 mem1 mem2 now r t ent Hex Hex2 Hne Ht) as [Hc Hs].
    destruct (IH (handle_any a r t ent)) as [-> ->]; rewrite ?Hc; done.
  - intros s m k file t s' a' Hrep Ht Ho Heq; destruct Hex as (? & ? & ?).
    destruct (open_valid _ _ _ _ _ _ _ Hrep Ho) as (root & net & Hv); rewrite Heq in Hv.
    eapply (expired_member_invalid _ raw1 mem1 t); [|exact Hv]; split_and!; done || lia.
Qed.
End claims.

(** The bootstrap messages survive the wire within their bounds.  A request of a
    well-formed invitation and join request parses back; a rejection parses back; and
    an acceptance is always serialised but parses back exactly when its ticket has at
    most one mebibyte: a larger one, which the authority can issue, is refused by
    the device. *)
Theorem bootstrap_messages_round_trip (i : InvitationBundle) (prep : PreparedJoinRequest) (tk : JoinTicket)
    (code : BootstrapRejectCode) :
  invitation_wf i -> PreparedJoinRequest_from_bytes (PreparedJoinRequest_to_bytes prep) = Ok prep ->
  0 < len (Invitation_to_bytes i) <= MAX_BOOTSTRAP_PAYLOAD -> 0 < len (PreparedJoinRequest_to_bytes prep) <= MAX_BOOTSTRAP_PAYLOAD ->
  ticket_wf tk -> is_u32 (len (Ticket_to_bytes tk)) = true ->
  (RedeemRequest_to_bytes (mkRedeemRequest i prep) ≫= RedeemRequest_from_bytes) = Ok (mkRedeemRequest i prep) /\
  (RedeemResponse_to_bytes (Rejected code) ≫= RedeemResponse_from_bytes) = Ok (Rejected code) /\
  exists bs, RedeemResponse_to_bytes (Accepted tk) = Ok bs /\
    RedeemResponse_from_bytes bs =
      if len (Ticket_to_bytes tk) <=? MAX_BOOTSTRAP_PAYLOAD then Ok (Accepted tk) else Err InvalidInvitation.
Proof.
  intros Hi Hp Hli Hlp Ht Hu.
  assert (Hu' : forall n : Z, 0 < n <= MAX_BOOTSTRAP_PAYLOAD -> is_u32 n = true) by (unfold in_range, MAX_BOOTSTRAP_PAYLOAD; intros; passes).
  split_and!.
  - unfold RedeemRequest_to_bytes; cbn [br_invitation br_prepared]; rewrite (proj2 (fail_if_Ok _ _ tt)) by passes.
    cbn [mbind result_bind]; rewrite !push_u32_blob_Ok by auto; cbn [mbind result_bind].
    eapply run_steps; rewrite <- !app_assoc.
    pose proof (fun s => steps_wide_nonempty MAX_BOOTSTRAP_PAYLOAD (Invitation_to_bytes i) s (Hu' _ Hli) Hli) as H1.
    pose proof (fun s => steps_wide_nonempty MAX_BOOTSTRAP_PAYLOAD (PreparedJoinRequest_to_bytes prep) s (Hu' _ Hlp) Hlp) as H2.
    eapply steps_bind; [apply steps_magic|]; eapply steps_bind; [rewrite app_assoc; apply H1|].
    eapply steps_bind; [apply steps_lift, Invitation_wire, Hi|]; eapply steps_bind; [rewrite app_assoc; apply H2|].
    eapply steps_bind; [apply steps_lift, map_err_Ok, Hp|]; eapply steps_bind; [apply steps_finish | apply steps_ret].
  - destruct code; vm_compute; reflexivity.
  - unfold RedeemResponse_to_bytes; rewrite push_u32_blob_Ok by done; eexists; split; [reflexivity|].
    destruct (Z.leb_spec (len (Ticket_to_bytes tk)) MAX_BOOTSTRAP_PAYLOAD) as [Hle|Hgt].
    + eapply run_steps; rewrite <- !app_assoc; eapply steps_bind; [apply steps_magic|].
      eapply steps_bind; [by apply (steps_uint _ 1)|]; eapply steps_bind; [rewrite app_assoc; by apply steps_wide_blob|].
      eapply steps_bind; [apply steps_finish|]; apply steps_lift; cbn beta iota.
      by rewrite (proj2 (Ticket_from_bytes_exact _ tk)).
    + apply run_fails; eapply fails_after; [apply steps_magic|]; eapply fails_after; [by apply (steps_uint _ 1)|].
      rewrite <- (app_nil_r (to_be 4 _ ++ _)); by apply fails_first, fails_wide_blob.
Qed.

(** ** A concrete invitation *)
Module InvitationWitness.
Import Samples EnvelopeWitness ConfigStateWitness AuthorityWitness OpsWitness.

(** Hexadecimal digits are characters of the alphabet. *)
Definition toy_pair (b : Byte.byte) : bytes := [digit_char (byte_val b / 16); digit_char (byte_val b mod 16)].
Fixpoint toy_unpair (bs : bytes) : option bytes :=
  match bs with
  | [] => Some []
  | x :: y :: bs => h ← to_digit 16 x; l ← to_digit 16 y; rest ← toy_unpair bs; Some (byte_of_Z (h * 16 + l) :: rest)
  | _ => None
  end.
#[global] Instance toy_base64 : Base64 := {| b64_encode bs := concat (toy_pair <$> bs); b64_decode := toy_unpair |}.
Lemma toy_pair_digits b : to_digit 16 (digit_char (byte_val b / 16)) = Some (byte_val b / 16) /\
  to_digit 16 (digit_char (byte_val b mod 16)) = Some (byte_val b mod 16) /\ b64_char (digit_char (byte_val b / 16)) = true /\
  b64_char (digit_char (byte_val b mod 16)) = true.
Proof. destruct b; vm_compute; repeat split. Qed.
Lemma toy_unpair_pair b s rest : toy_unpair s = Some rest -> toy_unpair (toy_pair b ++ s) = Some (b :: rest).
Proof.
  intros Hs; destruct (toy_pair_digits b) as (Hh & Hl & _); unfold toy_pair; cbn [app toy_unpair]; rewrite Hh, Hl, Hs.
  cbn [mbind option_bind]; rewrite <- (byte_of_val b) at 3; do 3 f_equal; pose proof (Z.div_mod (byte_val b) 16 ltac:(lia)); lia.
Qed.
#[global] Instance toy_base64_laws : Base64Laws.
Proof.
  constructor; induction bs as [|b bs IH]; try reflexivity; [exact (toy_unpair_pair b _ bs IH)|].
  change (b64_encode (b :: bs)) with (toy_pair b ++ b64_encode bs); rewrite forallb_app, IH.
  destruct (toy_pair_digits b) as (_ & _ & Hh & Hl); unfold toy_pair; cbn [forallb]; by rewrite Hh, Hl.
Qed.

Definition addresses : list SocketAddr := [SocketV4 127 0 0 1 4040; SocketV6 [8193; 3512; 0; 0; 1; 0; 0; 1] 443 0 7].
Definition service : VirtualName := ValidateWitness.name.
Definition app : AppAddr := Eval vm_compute in ar_app_addr (payload registration).
Definition create_random : entropy := [Some (repeat Byte.xbb 32)].
Definition creating : list (AnyRequest * Z * entropy) :=
  [(CreateInvitation toy_endpoint addresses None app service 200, 300, create_random)].
Definition created := create_invitation authority toy_endpoint addresses None app service 300 200 create_random.
Definition no_invitation : InvitationBundle := mkInvitation [] toy_network [] [] [] None app service 0 [] [] [] [].
Definition invitation : InvitationBundle := Eval vm_compute in ok_else no_invitation created.2.
Lemma created_ok : created.2 = Ok invitation.
Proof. vm_compute; reflexivity. Qed.
Definition inviting : Authority MemoryState (gmap SecretId bytes) := serve_any authority creating.
Definition redeemed := redeem_invitation inviting invitation join toy_app 320 random2.
Definition redeemed_ticket : JoinTicket := Eval vm_compute in ok_else no_ticket redeemed.2.
Lemma redeemed_ok : redeemed.2 = Ok redeemed_ticket.
Proof. vm_compute; reflexivity. Qed.
Lemma creating_typed : served_typed creating.
Proof. apply Forall_singleton; exact (conj I eq_refl). Qed.
Lemma invitation_has_type : invitation_typed invitation.
Proof. exact (conj eq_refl eq_refl). Qed.
Lemma addresses_wf : Forall address_wf addresses.
Proof.
  unfold addresses; apply Forall_cons; split; [split; [repeat split | reflexivity]|].
  apply Forall_singleton; split; [|reflexivity]; split_and!; try reflexivity; repeat constructor.
Qed.

#[local] Opaque authority create_invitation redeem_invitation serve_any.
Lemma authority_creates :
  create_invitation authority toy_endpoint addresses None app service 300 200 create_random = (created.1, Ok invitation).
Proof. change (created = (created.1, Ok invitation)); rewrite <- created_ok; apply surjective_pairing. Qed.
Lemma authority_redeems :
  redeem_invitation (serve_any authority creating) invitation join toy_app 320 random2 = (redeemed.1, Ok redeemed_ticket).
Proof. change (redeemed = (redeemed.1, Ok redeemed_ticket)); rewrite <- redeemed_ok; apply surjective_pairing. Qed.
#[local] Opaque created redeemed.

Lemma authority_chain_append_only_witness :
  exists m2 e0 es e2, chain_inv (serve_any authority (creating ++ [(Configure (RemoveVirtualDns service), 310, random)])) m2 e0 es e2.
Proof.
  destruct (authority_chain_append_only authority_store authority_store authority_records secrets (Some manifest) 300 authority
    creating [(Configure (RemoveVirtualDns service), 310, random)] (memory_rep authority_store) authority_opens)
    as (m1 & m2 & e0 & es1 & es2 & e1 & e2 & _ & Hi & _).
  - constructor; [exact (conj I eq_refl)|]; constructor; [exact (conj I eq_refl) | constructor].
  - exact (ex_intro _ m2 (ex_intro _ e0 (ex_intro _ (es1 ++ es2) (ex_intro _ e2 Hi)))).
Defined.

Definition again := redeem_invitation (serve_any redeemed.1 creating) invitation join toy_app 330 random2.
Lemma again_pair : redeem_invitation (serve_any redeemed.1 creating) invitation join toy_app 330 random2 = (again.1, again.2).
Proof. exact (surjective_pairing again). Qed.
#[local] Opaque again.
Lemma invitation_redeemed_once_witness : again.1 = serve_any redeemed.1 creating.
Proof.
  exact (proj1 (invitation_redeemed_once authority_store authority_store authority_records secrets (Some manifest) 300 authority
    creating creating invitation invitation join join toy_app toy_app 320 330 random2 random2 redeemed.1 again.1
    redeemed_ticket again.2 (memory_rep authority_store) authority_opens creating_typed creating_typed invitation_has_type
    (proj1 (Z.leb_le 300 320) eq_refl) eq_refl (proj1 join_wf) (proj2 join_wf) authority_redeems invitation_has_type eq_refl
    eq_refl again_pair)).
Defined.

Lemma redeemed_member_enrolled_witness :
  redeemed.1 = serve_any authority creating \/
  Ticket_verify redeemed_ticket (au_root_public (serve_any authority creating))
    (as_network_id (au_status (serve_any authority creating))) (jr_nonce (payload (pj_request join)))
    (jr_endpoint_id (payload (pj_request join))) 320 = Ok tt.
Proof.
  destruct (redeemed_member_enrolled authority_store authority_store authority_records secrets (Some manifest) 300 authority
    creating invitation join toy_app 320 random2 redeemed.1 redeemed_ticket (memory_rep authority_store) authority_opens
    creating_typed invitation_has_type (proj1 (Z.leb_le 300 320) eq_refl) eq_refl (proj1 join_wf) (proj2 join_wf)
    authority_redeems) as [Hs | (_ & Hv & _)]; [left; exact Hs | right; exact Hv].
Defined.

Lemma serve_no_request : serve_any authority [] = authority.
Proof. reflexivity. Qed.
Lemma created_invitation_works_witness :
  Invitation_from_text (Invitation_to_text invitation) = Ok invitation /\
  Invitation_verify invitation (au_root_public (serve_any authority [])) 350 = Ok tt.
Proof.
  destruct (created_invitation_works authority_store authority_store authority_records secrets (Some manifest) 300 authority []
    toy_endpoint addresses None app service 300 200 350 create_random created.1 invitation (memory_rep authority_store)
    authority_opens (Forall_nil_2 _) (proj1 (Z.leb_le 0 300) eq_refl) eq_refl eq_refl addresses_wf) as (_ & Ht & Hv & _).
  - discriminate.
  - reflexivity.
  - vm_compute; reflexivity.
  - rewrite serve_no_request; exact authority_creates.
  - exact (conj (proj1 (Z.leb_le 300 350) eq_refl) (proj1 (Z.ltb_lt 350 (iv_expires_at_ms invitation)) eq_refl)).
  - exact (conj Ht Hv).
Defined.

Lemma join_on_wire : PreparedJoinRequest_from_bytes (PreparedJoinRequest_to_bytes join) = Ok join.
Proof. vm_compute; reflexivity. Qed.
Lemma invitation_well_formed : invitation_wf invitation.
Proof.
  constructor.
  - reflexivity.
  - reflexivity.
  - reflexivity.
  - reflexivity.
  - vm_compute; discriminate.
  - exact addresses_wf.
  - discriminate.
  - reflexivity.
  - vm_compute; reflexivity.
  - reflexivity.
  - split; vm_compute; [reflexivity | discriminate].
  - reflexivity.
  - vm_compute; reflexivity.
  - reflexivity.
Qed.
Lemma bootstrap_messages_round_trip_witness :
  RedeemRequest_to_bytes (mkRedeemRequest invitation join) ≫= RedeemRequest_from_bytes = Ok (mkRedeemRequest invitation join).
Proof.
  refine (proj1 (bootstrap_messages_round_trip invitation join redeemed_ticket RejectRevoked _ join_on_wire _ _ _ _)).
  - exact invitation_well_formed.
  - split; vm_compute; congruence.
  - split; vm_compute; congruence.
  - exact (proj1 (proj1 (Ticket_from_bytes_exact (Ticket_to_bytes redeemed_ticket) redeemed_ticket)
      ltac:(vm_compute; reflexivity))).
  - vm_compute; reflexivity.
Defined.

(** Two members have expired: neither the removal of one nor an invitation moves the configuration. *)
Lemma expired_members_lock_configuration_witness :
  au_config (serve_any (serve authority serving) [(Configure (RevokeMember member_id), 900, random1);
      (CreateInvitation toy_endpoint addresses None app service 200, 910, create_random)]) = au_config (serve authority serving).
Proof.
  pose proof (expired_members_lock_configuration (serve authority serving) (to_bytes mc) (tk_member_certificate ticket) mc second 900 first_expired)
    as (_ & _ & Ht & _).
  refine (proj1 (Ht second_expired _ _ _)).
  - exact (bool_decide_eq_false_1 _ (proj2 (proj2 (proj2 (proj2 (proj2 two_members)))))).
  - constructor; [discriminate|]; constructor; [discriminate | constructor].
Defined.
End InvitationWitness.
