(* ===== verification/Transcripts.v ===== *)
(** * Everything that is signed

    One type for the messages that keys of the system sign, over all its crates, with the
    bytes each signature covers: the certificates, bindings and requests of
    [crates/weaver-crypto], the presence records, the configuration envelopes of
    [crates/weaver-config], and the join tickets and invitations of
    [crates/weaver-relay-core].  One key signs several of them: the key of an administrator
    signs member certificates, application registrations, envelopes, tickets and
    invitations, the key of a member signs join requests, endpoint bindings and presence
    records. *)

From S2P Require Import Prelude Core CertificateWire Certificates CertificateChain ToyCrypto Envelope EnvelopeChain JoinTicket Invitation InvitationFacts.

Inductive transcript : Type :=
| TAdmin (p : AdminCertificatePayload)
| TMember (p : MemberCertificatePayload)
| TEndpoint (p : EndpointBindingPayload)
| TJoin (p : JoinRequestPayload)
| TAppRequest (p : AppRegistrationRequestPayload)
| TAppRegistration (p : AppRegistrationPayload)
| TAppBinding (p : AppBindingPayload)
| TPresence (payload : bytes)
| TEnvelope (e : EncryptedConfigEnvelope)
| TTicket (t : JoinTicket)
| TInvitation (i : InvitationBundle).
Definition encoded {E A} (r : result E A) : option A := match r with Ok a => Some a | Err _ => None end.
(** The bytes under the signature, by the encoder of each kind. *)
Definition transcript_bytes (t : transcript) : option bytes :=
  match t with
  | TAdmin p => Some (encode_admin_payload p)
  | TMember p => Some (encode_member_payload p)
  | TEndpoint p => Some (encode_endpoint_payload p)
  | TJoin p => Some (encode_join_request_payload p)
  | TAppRequest p => Some (encode_app_registration_request_payload p)
  | TAppRegistration p => Some (encode_app_registration_payload p)
  | TAppBinding p => Some (encode_app_binding_payload p)
  | TPresence payload => Some (presence_signature_transcript payload)
  | TEnvelope e => encoded (encode_signed_bytes e)
  | TTicket t => encoded (Ticket_encode_signed t)
  | TInvitation i => encoded (Invitation_encode_signed i)
  end.
Definition transcript_wf (t : transcript) : Prop :=
  match t with
  | TAdmin p => wire_wf p | TMember p => wire_wf p | TEndpoint p => wire_wf p
  | TJoin p => wire_wf p | TAppRequest p => wire_wf p | TAppRegistration p => wire_wf p
  | TAppBinding p => wire_wf p | TPresence _ => True
  | TEnvelope e => envelope_wf e | TTicket t => ticket_wf t | TInvitation i => invitation_wf i
  end.

(** The records of the last three kinds carry their signature; the message is the rest. *)
Definition set_env_signature (s : bytes) (e : EncryptedConfigEnvelope) : EncryptedConfigEnvelope :=
  mkEnvelope (env_format_version e) (env_network_id e) (env_epoch e) (env_revision e) (env_previous_hash e) (env_payload_hash e)
    (env_nonce e) (env_ciphertext e) (env_member_key_wraps e) (env_signer_key_id e) (env_signed_bytes e) s.
Definition set_tk_signature (s : bytes) (t : JoinTicket) : JoinTicket :=
  mkJoinTicket (tk_network_id t) (tk_request_nonce t) (tk_expires_at_ms t) (tk_config_head t) (tk_admin_certificate t)
    (tk_member_certificate t) (tk_endpoint_binding t) (tk_embedded_config t) (tk_signer_key_id t) (tk_signed_bytes t) s.
Definition set_iv_signature (s : bytes) (i : InvitationBundle) : InvitationBundle :=
  mkInvitation (iv_invitation_id i) (iv_network_id i) (iv_root_public_key i) (iv_bootstrap_endpoint_id i)
    (iv_bootstrap_direct_addresses i) (iv_bootstrap_relay i) (iv_client_app_addr i) (iv_service_name i) (iv_expires_at_ms i)
    (iv_admin_certificate i) (iv_signer_key_id i) (iv_signed_bytes i) s.
Definition unsigned (t : transcript) : transcript :=
  match t with
  | TEnvelope e => TEnvelope (set_env_signature [] e)
  | TTicket t => TTicket (set_tk_signature [] t)
  | TInvitation i => TInvitation (set_iv_signature [] i)
  | t => t
  end.

(** ** The kinds are told apart by their first eight bytes *)
Definition transcript_tag (t : transcript) : bytes :=
  match t with
  | TAdmin _ => ADMIN_MAGIC | TMember _ => MEMBER_MAGIC | TEndpoint _ => ENDPOINT_MAGIC
  | TJoin _ => JOIN_REQUEST_MAGIC | TAppRequest _ => APP_REG_REQUEST_MAGIC
  | TAppRegistration _ => APP_REG_MAGIC | TAppBinding _ => APP_BIND_MAGIC
  | TPresence _ => bstr "weaver.m"
  | TEnvelope _ => ENVELOPE_MAGIC | TTicket _ => JOIN_TICKET_MAGIC | TInvitation _ => INVITATION_MAGIC
  end.
Lemma encoded_Some {E A} (r : result E A) a : encoded r = Some a <-> r = Ok a.
Proof. destruct r; cbn; naive_solver. Qed.
Lemma transcript_tag_bytes t bs : transcript_bytes t = Some bs -> exists rest, bs = transcript_tag t ++ rest.
Proof.
  destruct t as [p|p|p|p|p|p|p|p|e|t|i]; cbn [transcript_bytes transcript_tag].
  1-8: intros <-%(inj Some); eexists; first [reflexivity | cbn; by rewrite <- app_assoc].
  - intros He%encoded_Some; unfold encode_signed_bytes in He; res_inv; by eexists.
  - intros He%encoded_Some; unfold Ticket_encode_signed in He; res_inv; by eexists.
  - intros He%encoded_Some; unfold Invitation_encode_signed in He; res_inv; by eexists.
Qed.

(** ** Each kind has one reading *)
Lemma envelope_unsigned e1 e2 : envelope_wf e1 -> envelope_wf e2 -> env_signed_bytes e1 = env_signed_bytes e2 ->
  set_env_signature [] e1 = set_env_signature [] e2.
Proof.
  intros H1 H2 He; assert (envelope_wf (set_env_signature (env_signature e1) e2)) as H2' by (destruct H1, H2; constructor; done).
  pose proof (proj2 (Envelope_from_bytes_exact _ _) (conj H1 eq_refl)) as P1.
  pose proof (proj2 (Envelope_from_bytes_exact _ _) (conj H2' eq_refl)) as P2.
  unfold Envelope_to_bytes in P1, P2; cbn [env_signed_bytes env_signature set_env_signature] in P2; rewrite <- He, P1 in P2.
  apply Ok_inj in P2; by rewrite P2.
Qed.
Lemma ticket_unsigned t1 t2 : ticket_wf t1 -> ticket_wf t2 -> tk_signed_bytes t1 = tk_signed_bytes t2 ->
  set_tk_signature [] t1 = set_tk_signature [] t2.
Proof.
  intros H1 H2 He; assert (ticket_wf (set_tk_signature (tk_signature t1) t2)) as H2' by (destruct H1, H2; constructor; done).
  pose proof (proj2 (Ticket_from_bytes_exact _ _) (conj H1 eq_refl)) as P1.
  pose proof (proj2 (Ticket_from_bytes_exact _ _) (conj H2' eq_refl)) as P2.
  unfold Ticket_to_bytes in P1, P2; cbn [tk_signed_bytes tk_signature set_tk_signature] in P2; rewrite <- He, P1 in P2.
  apply Ok_inj in P2; by rewrite P2.
Qed.
Lemma invitation_unsigned i1 i2 : invitation_wf i1 -> invitation_wf i2 -> iv_signed_bytes i1 = iv_signed_bytes i2 ->
  set_iv_signature [] i1 = set_iv_signature [] i2.
Proof.
  intros H1 H2 He; assert (invitation_wf (set_iv_signature (iv_signature i1) i2)) as H2' by (destruct H1, H2; constructor; done).
  pose proof (Invitation_wire _ H1) as P1; pose proof (Invitation_wire _ H2') as P2.
  unfold Invitation_to_bytes in P1, P2; cbn [iv_signed_bytes iv_signature set_iv_signature] in P2; rewrite <- He, P1 in P2.
  apply Ok_inj in P2; by rewrite P2.
Qed.

(** C33: signatures are separated by domain.  Of the eleven kinds of messages that are
    signed anywhere in the system, two well-formed ones whose signed bytes are the same are
    the same message, up to the signature they carry.  So a signature over a certificate,
    binding, request, presence record, envelope, ticket or invitation never verifies as a
    message of another kind or with other contents, whichever key made it. *)
Theorem transcripts_injective (t1 t2 : transcript) (bs : bytes) :
  transcript_wf t1 -> transcript_wf t2 -> transcript_bytes t1 = Some bs -> transcript_bytes t2 = Some bs ->
  unsigned t1 = unsigned t2.
Proof.
  intros H1 H2 E1 E2.
  assert (Htag : transcript_tag t1 = transcript_tag t2).
  { destruct (transcript_tag_bytes t1 bs E1) as [r1 T1], (transcript_tag_bytes t2 bs E2) as [r2 T2].
    rewrite T1 in T2; apply app_inj_1 in T2 as [? _]; [done | by destruct t1, t2]. }
  destruct t1, t2; try discriminate Htag; cbn [unsigned transcript_bytes transcript_wf] in *; f_equal.
  1-7: eapply encode_inj; [eassumption..|]; cbn; congruence.
  - unfold presence_signature_transcript in *; simplify_eq; by simplify_list_eq.
  - apply encoded_Some in E1, E2; apply envelope_unsigned; [done..|]; rewrite (ew_signed _ H1) in E1; rewrite (ew_signed _ H2) in E2; congruence.
  - apply encoded_Some in E1, E2; apply ticket_unsigned; [done..|]; rewrite (tw_signed _ H1) in E1; rewrite (tw_signed _ H2) in E2; congruence.
  - apply encoded_Some in E1, E2; apply invitation_unsigned; [done..|]; rewrite (iw_signed _ H1) in E1; rewrite (iw_signed _ H2) in E2; congruence.
Qed.

(** ** Example *)
Module TranscriptWitness.
Import EnvelopeWitness.
(** An envelope and the same envelope under another signature. *)
Definition resigned : EncryptedConfigEnvelope := set_env_signature (repeat Byte.x00 64) genesis_envelope.
Lemma genesis_wf : envelope_wf genesis_envelope.
Proof. apply (Envelope_from_bytes_exact (Envelope_to_bytes genesis_envelope)); vm_compute; reflexivity. Qed.
Lemma resigned_wf : envelope_wf resigned.
Proof. pose proof genesis_wf as []; constructor; first [assumption | reflexivity]. Qed.
Lemma transcripts_injective_witness :
  TEnvelope genesis_envelope <> TEnvelope resigned /\ unsigned (TEnvelope genesis_envelope) = unsigned (TEnvelope resigned).
Proof.
  split; [intros Heq; apply (f_equal (fun t => match t with TEnvelope e => env_signature e | _ => [] end)) in Heq; vm_compute in Heq; discriminate Heq|].
  apply (transcripts_injective (TEnvelope genesis_envelope) (TEnvelope resigned) (env_signed_bytes genesis_envelope) genesis_wf resigned_wf).
  - cbn [transcript_bytes]; rewrite (ew_signed _ genesis_wf); reflexivity.
  - cbn [transcript_bytes]; rewrite (ew_signed _ resigned_wf); reflexivity.
Defined.
End TranscriptWitness.
