(* ===== verification/NetProtocol.v ===== *)
(** * weaver-net: the protocols between endpoints

    Models the wire formats of [crates/weaver-net/src/lib.rs] (the request that opens a
    virtual stream or datagram association, the presence and the configuration sync
    requests), the store of opaque presence records, and both ends of the presence and
    configuration sync exchanges.

    A QUIC stream is the sequence of bytes the other side sends on it; a read that times
    out or is cut off is a read past the end of that sequence.  Connecting yields the
    authenticated identity of the peer and the stream it answers on, or an error. *)

From S2P Require Import Prelude Wire Core SocketAddr Platform Store CertificateWire Certificates Symmetric Snapshot.
From S2P Require Import Envelope Presence Directory ConfigState.

(** ** Constants (weaver-net/src/lib.rs:71-101) *)
Abbreviation RELIABLE_STREAM_ALPN_PREFIX := (bstr "weaver/tcp/1/").
Abbreviation DATAGRAM_ALPN_PREFIX := (bstr "weaver/udp/1/").
Abbreviation CONFIG_SYNC_ALPN_PREFIX := (bstr "weaver/config-sync/1/").
Abbreviation PRESENCE_ALPN_PREFIX := (bstr "weaver/presence/1/").
Abbreviation RELIABLE_STREAM_PREFACE := (bstr "weaver-tcp-stream-v1").
Abbreviation DATAGRAM_PREFACE := (bstr "weaver-udp-assoc-v1!").
Definition CONFIG_SYNC_REQUEST_MAGIC : bytes := bstr "WVR-SYNC-REQ-v1" ++ [Byte.x00].
Abbreviation PRESENCE_REQUEST_MAGIC := (bstr "WVR-PRS-REQ-v1!!").
Abbreviation OPEN_REQUEST_LEN := (148%nat).
Abbreviation CONFIG_SYNC_REQUEST_LEN := (96%nat).
Abbreviation PRESENCE_REQUEST_HEADER_LEN := (93%nat).
Abbreviation PRESENCE_RESPONSE_HEADER_LEN := (13%nat).
Abbreviation OPEN_RESPONSE_ACCEPTED := 0.
Abbreviation OPEN_RESPONSE_NOT_AUTHORIZED := 1.
Abbreviation OPEN_RESPONSE_NETWORK_MISMATCH := 2.
Abbreviation OPEN_RESPONSE_ADDRESS_MISMATCH := 3.
Abbreviation OPEN_RESPONSE_PROTOCOL_ERROR := 4.
Abbreviation CONFIG_SYNC_RESPONSE_OK := 0.
Abbreviation CONFIG_SYNC_RESPONSE_REJECTED := 1.
Abbreviation MAX_CONFIG_SYNC_RESPONSE := (16 * 1024 * 1024).
Abbreviation PRESENCE_OP_PUBLISH := 1.
Abbreviation PRESENCE_OP_QUERY := 2.
Abbreviation PRESENCE_RESPONSE_OK := 0.
Abbreviation PRESENCE_RESPONSE_NOT_FOUND := 1.
Abbreviation PRESENCE_RESPONSE_REJECTED := 2.
Abbreviation MAX_PRESENCE_RECORD_BYTES := (16 * 1024).

(** The boxed cause of a transport error is left out. *)
(* weaver-net/src/lib.rs:1681-1713 NetworkError *)
Inductive NetworkError : Type :=
| Bind
| OnlineTimeout (timeout : Z)
| Connect
| OpenStream
| NetworkMismatch (local target : NetworkId)
| OpenRejected (reason : bytes)
| ProtocolViolation (what : bytes)
| ServerNotBound (address : ServerAddr)
| ListenerAlreadyTaken (address : ServerAddr)
| ClientNotBound (address : ClientAddr)
| ConfigSyncRejected
| NetConfigSync (e : ConfigError)
| PresenceRejected
| NetPresence (e : DiscoveryError)
| VirtualAddressUnresolved (app : AppAddr).

(** [read_exact] into an array of [n] bytes: the array and what follows it. *)
Definition read_exact (n : nat) (stream : bytes) : option (bytes * bytes) :=
  if Nat.leb n (length stream) then Some (take n stream, drop n stream) else None.

(* weaver-net/src/lib.rs:964-969 config_sync_alpn *)
Definition config_sync_alpn (network_id : NetworkId) : bytes := CONFIG_SYNC_ALPN_PREFIX ++ NetworkId_as_bytes network_id.
(* weaver-net/src/lib.rs:971-976 presence_alpn *)
Definition presence_alpn (network_id : NetworkId) : bytes := PRESENCE_ALPN_PREFIX ++ NetworkId_as_bytes network_id.
(* weaver-net/src/lib.rs:1065-1072 tcp_alpn *)
Definition tcp_alpn (app_addr : AppAddr) : bytes := RELIABLE_STREAM_ALPN_PREFIX ++ AppAddr_as_bytes app_addr.
(* weaver-net/src/lib.rs:1074-1079 udp_alpn *)
Definition udp_alpn (app_addr : AppAddr) : bytes := DATAGRAM_ALPN_PREFIX ++ AppAddr_as_bytes app_addr.

(** ** Opening a stream *)
(* weaver-net/src/lib.rs:978-983 OpenStreamRequest *)
Record OpenStreamRequest : Type := mkOpenRequest {
  or_network_id : NetworkId; or_source : ScopedVirtualAddr; or_destination : ScopedVirtualAddr }.

(* weaver-net/src/lib.rs:986-1029 OpenStreamRequest::encode_with_preface *)
Definition encode_with_preface (r : OpenStreamRequest) (preface : bytes) : result NetworkError bytes :=
  source ← match or_source r with
           | Client app device => Ok (app, device)
           | Server _ => Err (ProtocolViolation (bstr "only client addresses may initiate TCP connections"))
           end;
  destination ← match or_destination r with
                | Server app => Ok app
                | Client _ _ => Err (ProtocolViolation (bstr "TCP destination must be a server address"))
                end;
  Ok (preface ++ NetworkId_as_bytes (or_network_id r) ++ AppAddr_as_bytes source.1 ++ DeviceId_as_bytes source.2
      ++ AppAddr_as_bytes destination).
(* weaver-net/src/lib.rs:1031-1062 OpenStreamRequest::decode_with_preface *)
Definition decode_with_preface (bs preface : bytes) : result unit OpenStreamRequest :=
  run_decoder (
    d_magic tt preface;;
    network_id ← d_array tt 32; app ← d_array tt 32; device ← d_array tt 32; destination ← d_array tt 32;
    mret (mkOpenRequest (NetworkId_from_bytes network_id) (Client (AppAddr_from_bytes app) (DeviceId_from_bytes device))
            (Server (AppAddr_from_bytes destination)))) bs.
(** The preface of the two kinds of association. *)
Definition preface_of (datagram : bool) : bytes := if datagram then DATAGRAM_PREFACE else RELIABLE_STREAM_PREFACE.

(* weaver-net/src/lib.rs:2906-2914 open_response_reason *)
Definition open_response_reason (response : Z) : bytes :=
  if response =? OPEN_RESPONSE_NOT_AUTHORIZED then bstr "not authorized"
  else if response =? OPEN_RESPONSE_NETWORK_MISMATCH then bstr "network mismatch"
  else if response =? OPEN_RESPONSE_ADDRESS_MISMATCH then bstr "virtual address mismatch"
  else if response =? OPEN_RESPONSE_PROTOCOL_ERROR then bstr "protocol error"
  else bstr "unknown response code".

(** ** Presence requests *)
(* weaver-net/src/lib.rs:2789-2796 PresenceRequest *)
Record PresenceRequest : Type := mkPresenceRequest {
  pq_network_id : NetworkId;
  pq_operation : Z;
  pq_epoch : Z;
  pq_opaque_key : bytes;
  pq_expires_at_ms : Z;
  pq_body_len : Z;
}.
(* weaver-net/src/lib.rs:2768-2787 encode_presence_request *)
Definition encode_presence_request (network_id : NetworkId) (operation epoch : Z) (opaque_key : bytes)
    (expires_at_ms body_len : Z) : result NetworkError bytes :=
  fail_if (negb (is_u32 body_len)) (ProtocolViolation (bstr "presence request exceeds limit"));;
  Ok (PRESENCE_REQUEST_MAGIC ++ NetworkId_as_bytes network_id ++ to_be 1 operation ++ to_be 8 epoch ++ opaque_key
      ++ to_be 8 expires_at_ms ++ to_be 4 body_len).
(* weaver-net/src/lib.rs:2798-2821 decode_presence_request *)
Definition decode_presence_request (bs : bytes) : result unit PresenceRequest :=
  request ← run_decoder (
    d_magic tt PRESENCE_REQUEST_MAGIC;;
    network_id ← d_array tt 32; operation ← d_u8 tt; epoch ← d_u64 tt; opaque_key ← d_array tt 24;
    expires_at_ms ← d_u64 tt; body_len ← d_u32 tt;
    mret (mkPresenceRequest (NetworkId_from_bytes network_id) operation epoch opaque_key expires_at_ms body_len)) bs;
  fail_if ((MAX_PRESENCE_RECORD_BYTES <? pq_body_len request)
           || negb ((pq_operation request =? PRESENCE_OP_PUBLISH) || (pq_operation request =? PRESENCE_OP_QUERY))
           || ((pq_operation request =? PRESENCE_OP_QUERY)
               && (negb (pq_body_len request =? 0) || negb (pq_expires_at_ms request =? 0)))
           || ((pq_operation request =? PRESENCE_OP_PUBLISH) && (pq_body_len request =? 0))) tt;;
  Ok request.
(* weaver-net/src/lib.rs:2902-2904 request_operation *)
Definition request_operation (header : bytes) : option Z :=
  if bool_decide (take 16 header = PRESENCE_REQUEST_MAGIC) then byte_val <$> header !! 48%nat else None.

(** ** Configuration sync requests *)
(* weaver-net/src/lib.rs:2963-2974 encode_config_sync_request *)
Definition encode_config_sync_request (network_id : NetworkId) (base_head : ConfigHead) : bytes :=
  CONFIG_SYNC_REQUEST_MAGIC ++ NetworkId_as_bytes network_id ++ to_be 8 (head_epoch base_head)
    ++ to_be 8 (head_revision base_head) ++ head_hash base_head.
(* weaver-net/src/lib.rs:2976-2990 decode_config_sync_request *)
Definition decode_config_sync_request (bs : bytes) : result unit (NetworkId * ConfigHead) :=
  run_decoder (
    d_magic tt CONFIG_SYNC_REQUEST_MAGIC;;
    network_id ← d_array tt 32; epoch ← d_u64 tt; revision ← d_u64 tt; hash ← d_array tt 32;
    mret (NetworkId_from_bytes network_id, mkConfigHead epoch revision hash)) bs.

(** ** The store of opaque presence records *)
(* weaver-net/src/lib.rs:112-129 OpaquePresenceStore *)
Class OpaquePresenceStore (S : Type) : Type := {
  publish : S -> EndpointId -> Z -> bytes -> Z -> bytes -> Z -> S * result bytes unit;
  query : S -> EndpointId -> Z -> bytes -> Z -> S * result bytes (option (Z * bytes));
}.
(* weaver-net/src/lib.rs:131-136 StoredPresence *)
Record StoredPresence : Type := mkStored { sp_owner : EndpointId; sp_expires_at_ms : Z; sp_record : bytes }.
(* weaver-net/src/lib.rs:140-144 MemoryOpaquePresenceStore *)
Record MemoryOpaquePresenceStore : Type := mkPresenceStore {
  ps_capacity : Z; ps_records : gmap (Z * bytes) StoredPresence }.
(** [None] is the panic of the assertion. *)
(* weaver-net/src/lib.rs:147-153 MemoryOpaquePresenceStore::new *)
Definition PresenceStore_new (capacity : Z) : option MemoryOpaquePresenceStore :=
  if 0 <? capacity then Some (mkPresenceStore capacity ∅) else None.
(** [records.retain(|_, value| value.expires_at_ms > now_ms)] *)
Definition retain_live (now_ms : Z) (m : gmap (Z * bytes) StoredPresence) : gmap (Z * bytes) StoredPresence :=
  filter (fun kv => now_ms < sp_expires_at_ms kv.2) m.
(* weaver-net/src/lib.rs:158-203 MemoryOpaquePresenceStore::publish *)
Definition PresenceStore_publish (s : MemoryOpaquePresenceStore) (authenticated_peer : EndpointId) (epoch : Z)
    (opaque_key : bytes) (expires_at_ms : Z) (record : bytes) (now_ms : Z) : MemoryOpaquePresenceStore * result bytes unit :=
  if bool_decide (record = []) || (MAX_PRESENCE_RECORD_BYTES <? len record) || (expires_at_ms <=? now_ms)
     || (MAX_PRESENCE_TTL_MS <? saturating_sub expires_at_ms now_ms)
  then (s, Err (bstr "invalid opaque presence record"))
  else
    let records := retain_live now_ms (ps_records s) in
    let s := mkPresenceStore (ps_capacity s) records in
    let key := (epoch, opaque_key) in
    match records !! key with
    | Some current =>
        if negb (bool_decide (sp_owner current = authenticated_peer))
        then (s, Err (bstr "opaque presence key is owned by another endpoint"))
        else (mkPresenceStore (ps_capacity s) (<[key := mkStored authenticated_peer expires_at_ms record]> records), Ok tt)
    | None =>
        if ps_capacity s <=? Z.of_nat (size records) then (s, Err (bstr "opaque presence store is full"))
        else (mkPresenceStore (ps_capacity s) (<[key := mkStored authenticated_peer expires_at_ms record]> records), Ok tt)
    end.
(* weaver-net/src/lib.rs:205-217 MemoryOpaquePresenceStore::query *)
Definition PresenceStore_query (s : MemoryOpaquePresenceStore) (_authenticated_peer : EndpointId) (epoch : Z)
    (opaque_key : bytes) (now_ms : Z) : MemoryOpaquePresenceStore * result bytes (option (Z * bytes)) :=
  let records := retain_live now_ms (ps_records s) in
  (mkPresenceStore (ps_capacity s) records,
   Ok ((fun value => (sp_expires_at_ms value, sp_record value)) <$> records !! (epoch, opaque_key))).
#[global] Instance memory_presence_store : OpaquePresenceStore MemoryOpaquePresenceStore := {|
  publish := PresenceStore_publish; query := PresenceStore_query |}.

(** ** The service's side of a presence request *)
Section presence_service.
Context {S : Type} `{!OpaquePresenceStore S}.

(** The answer to a request whose header has been read: [None] for nothing to send back. *)
(* weaver-net/src/lib.rs:2838-2882 handle_presence_connection *)
Definition serve_presence (store : S) (network_id : NetworkId) (remote_id : EndpointId) (request : option PresenceRequest)
    (body : bytes) (now_ms : Z) : S * result bytes (option bytes) :=
  match request with
  | Some request =>
      if bool_decide (pq_network_id request = network_id) then
        if pq_operation request =? PRESENCE_OP_PUBLISH then
          match read_exact (Z.to_nat (pq_body_len request)) body with
          | Some (bs, _) =>
              match Presence_from_bytes bs with
              | Ok record =>
                  if (ep_epoch record =? pq_epoch request) && bool_decide (ep_opaque_key record = pq_opaque_key request) then
                    let '(store, r) := publish store remote_id (pq_epoch request) (pq_opaque_key request)
                                         (pq_expires_at_ms request) bs now_ms in
                    (store, match r with Ok _ => Ok None | Err e => Err e end)
                  else (store, Err (bstr "presence envelope does not match request key"))
              | Err _ => (store, Err (bstr "presence envelope does not match request key"))
              end
          | None => (store, Err (bstr "early end of stream"))
          end
        else
          let '(store, r) := query store remote_id (pq_epoch request) (pq_opaque_key request) now_ms in
          (store, match r with Ok found => Ok (snd <$> found) | Err e => Err e end)
      else (store, Err (bstr "malformed presence request"))
  | None => (store, Err (bstr "malformed presence request"))
  end.
(** [sent_at] is the clock when the answer is written. *)
(* weaver-net/src/lib.rs:2823-2900 handle_presence_connection *)
Definition handle_presence_connection (store : S) (network_id : NetworkId) (remote_id : EndpointId) (incoming : bytes)
    (now_ms sent_at : Z) : S * bytes :=
  let read := read_exact PRESENCE_REQUEST_HEADER_LEN incoming in
  let header := match read with Some (header, _) => header | None => repeat Byte.x00 PRESENCE_REQUEST_HEADER_LEN end in
  let request := '(header, _) ← read; parsed decode_presence_request header in
  let '(store, result) := serve_presence store network_id remote_id request (drop PRESENCE_REQUEST_HEADER_LEN incoming) now_ms in
  let '(status, body) := match result with
    | Ok (Some bs) => (PRESENCE_RESPONSE_OK, bs)
    | Ok None => if bool_decide (request_operation header = Some PRESENCE_OP_QUERY) then (PRESENCE_RESPONSE_NOT_FOUND, [])
                 else (PRESENCE_RESPONSE_OK, [])
    | Err _ => (PRESENCE_RESPONSE_REJECTED, [])
    end in
  (store, to_be 1 status ++ to_be 8 sent_at ++ to_be 4 (len body) ++ body).
End presence_service.

(** ** Local bindings *)
(* weaver-net/src/lib.rs:1086-1090 LocalBinding *)
Inductive LocalBinding : Type := LocalServer (address : ServerAddr) | LocalClient (address : ClientAddr).
(* weaver-net/src/lib.rs:1092-1099 LocalBinding::scoped *)
Definition LocalBinding_scoped (b : LocalBinding) : ScopedVirtualAddr :=
  match b with LocalServer a => ServerAddr_scoped a | LocalClient a => ClientAddr_scoped a end.
(* weaver-net/src/lib.rs:1153-1159 LocalBindingsError *)
Inductive LocalBindingsError : Type := LbEmpty | LbDuplicate.
(** A [LocalBindings] is its set of addresses. *)
Abbreviation LocalBindings := (gset ScopedVirtualAddr).
(* weaver-net/src/lib.rs:1112-1125 LocalBindings::new *)
Definition LocalBindings_new (bindings : list LocalBinding) : result LocalBindingsError LocalBindings :=
  addresses ← try_fold (fun (addresses : LocalBindings) b =>
    fail_if (bool_decide (LocalBinding_scoped b ∈ addresses)) LbDuplicate;;
    Ok ({[LocalBinding_scoped b]} ∪ addresses)) ∅ bindings;
  fail_if (bool_decide (addresses = ∅)) LbEmpty;;
  Ok addresses.
(** The set iterates in no fixed order; the model takes the order of [elements]. *)
(* weaver-net/src/lib.rs:1139-1144 LocalBindings::servers *)
Definition LocalBindings_servers (b : LocalBindings) : list ServerAddr :=
  omap (fun a => match a with Server app => Some (ServerAddr_new app) | Client _ _ => None end) (elements b).

(** ** Descriptors *)
(** [EndpointAddr::from_parts] *)
Definition EndpointAddr : Type := EndpointId * list TransportAddr.
(* weaver-net/src/lib.rs:1161-1168 PeerDescriptor *)
Record PeerDescriptor : Type := mkPeerDescriptor {
  pd_network_id : NetworkId;
  pd_app_addr : AppAddr;
  pd_endpoint_id : EndpointId;
  pd_relay_url : option bytes;
  pd_direct_addresses : list SocketAddr;
}.
(* weaver-net/src/lib.rs:1170-1176 ConfigPeerDescriptor *)
Record ConfigPeerDescriptor : Type := mkConfigPeer {
  cp_network_id : NetworkId;
  cp_endpoint_id : EndpointId;
  cp_relay_url : option bytes;
  cp_direct_addresses : list SocketAddr;
}.
(* weaver-net/src/lib.rs:1179-1187 ConfigPeerDescriptor::endpoint_addr *)
Definition ConfigPeer_endpoint_addr (d : ConfigPeerDescriptor) : EndpointAddr :=
  (cp_endpoint_id d, (TransportIp <$> cp_direct_addresses d) ++ option_list (TransportRelay <$> cp_relay_url d)).
(* weaver-net/src/lib.rs:1213-1221 PeerDescriptor::endpoint_addr *)
Definition Peer_endpoint_addr (d : PeerDescriptor) : EndpointAddr :=
  (pd_endpoint_id d, (TransportIp <$> pd_direct_addresses d) ++ option_list (TransportRelay <$> pd_relay_url d)).

(** ** Dialling *)
(** What the peer sends back on the stream: some bytes, after which the stream ends or
    fails, or nothing before the timeout of the caller. *)
Inductive Incoming : Type := Arrived (stream : bytes) | Silent.
Record Connection : Type := mkConnection { conn_remote_id : EndpointId; conn_incoming : Incoming }.
(** Connecting to an address with a protocol and sending bytes; [None] is a failure to connect. *)
Definition Transport : Type := EndpointAddr -> bytes -> bytes -> option Connection.
Definition read_reply (n : nat) (incoming : Incoming) : result NetworkError (bytes * bytes) :=
  match incoming with Arrived stream => read_exact n stream ?? OpenStream | Silent => Err OpenStream end.
(** The record that [VirtualTcpStream] and [VirtualUdpSocket] keep of a connection. *)
Record VirtualStream : Type := mkVirtualStream {
  vs_peer_endpoint_id : EndpointId; vs_local_addr : ScopedVirtualAddr; vs_peer_addr : ScopedVirtualAddr }.
(** A [WeaverDialer] without its endpoint, which is the transport. *)
(* weaver-net/src/lib.rs:2068-2073 WeaverDialer *)
Record WeaverDialer : Type := mkDialer {
  dl_endpoint_id : EndpointId; dl_network_id : NetworkId; dl_local_bindings : LocalBindings }.

Section dialer.
Context `{Ed25519} `{Blake3} `{Platform}.
Variables (dialer : WeaverDialer) (transport : Transport).

(** Encoding the request of a client for a server cannot fail, so it may come first. *)
(* weaver-net/src/lib.rs:2081-2150 WeaverDialer::connect *)
Definition connect (source : ClientAddr) (target : PeerDescriptor) : result NetworkError VirtualStream :=
  fail_if (negb (bool_decide (ClientAddr_scoped source ∈ dl_local_bindings dialer))) (ClientNotBound source);;
  fail_if (negb (bool_decide (pd_network_id target = dl_network_id dialer)))
    (NetworkMismatch (dl_network_id dialer) (pd_network_id target));;
  let peer_addr := Server (pd_app_addr target) in
  request ← encode_with_preface (mkOpenRequest (dl_network_id dialer) (ClientAddr_scoped source) peer_addr) (preface_of false);
  connection ← transport (Peer_endpoint_addr target) (tcp_alpn (pd_app_addr target)) request ?? Connect;
  fail_if (negb (bool_decide (conn_remote_id connection = pd_endpoint_id target))) Connect;;
  fail_if (match conn_incoming connection with Silent => true | Arrived _ => false end)
    (OpenRejected (bstr "open response timed out"));;
  reply ← read_reply 1 (conn_incoming connection);
  let response := from_be reply.1 in
  if response =? OPEN_RESPONSE_ACCEPTED
  then Ok (mkVirtualStream (conn_remote_id connection) (ClientAddr_scoped source) peer_addr)
  else if response <=? OPEN_RESPONSE_PROTOCOL_ERROR then Err (OpenRejected (open_response_reason response))
  else Err (ProtocolViolation (bstr "unknown open response code")).
(* weaver-net/src/lib.rs:1934-1990 WeaverEndpoint::connect_udp *)
Definition connect_udp (source : ClientAddr) (target : PeerDescriptor) : result NetworkError VirtualStream :=
  fail_if (negb (bool_decide (ClientAddr_scoped source ∈ dl_local_bindings dialer))) (ClientNotBound source);;
  fail_if (negb (bool_decide (pd_network_id target = dl_network_id dialer)))
    (NetworkMismatch (dl_network_id dialer) (pd_network_id target));;
  let peer_addr := Server (pd_app_addr target) in
  request ← encode_with_preface (mkOpenRequest (dl_network_id dialer) (ClientAddr_scoped source) peer_addr) (preface_of true);
  connection ← transport (Peer_endpoint_addr target) (udp_alpn (pd_app_addr target)) request ?? Connect;
  fail_if (negb (bool_decide (conn_remote_id connection = pd_endpoint_id target)))
    (ProtocolViolation (bstr "datagram peer identity differs from descriptor"));;
  reply ← read_reply 1 (conn_incoming connection);
  let response := from_be reply.1 in
  fail_if (negb (response =? OPEN_RESPONSE_ACCEPTED)) (OpenRejected (open_response_reason response));;
  Ok (mkVirtualStream (conn_remote_id connection) (ClientAddr_scoped source) peer_addr).
(* weaver-net/src/lib.rs:2360-2382 discovered_descriptor *)
Definition discovered_descriptor (network_id : NetworkId) (directory : PresenceDirectory) (app_addr : AppAddr) (now_ms : Z)
    : result NetworkError PeerDescriptor :=
  fail_if (negb (bool_decide (dir_network_id directory = network_id))) (NetworkMismatch network_id (dir_network_id directory));;
  endpoint_id ← Directory_resolve directory (Server app_addr) now_ms ?? VirtualAddressUnresolved app_addr;
  Ok (mkPeerDescriptor network_id app_addr endpoint_id None []).
(* weaver-net/src/lib.rs:2152-2161 WeaverDialer::connect_virtual *)
Definition connect_virtual (source : ClientAddr) (directory : PresenceDirectory) (app_addr : AppAddr) (now_ms : Z)
    : result NetworkError VirtualStream :=
  target ← discovered_descriptor (dl_network_id dialer) directory app_addr now_ms;
  connect source target.

(* weaver-net/src/lib.rs:2171-2226 WeaverDialer::fetch_config_updates *)
Definition fetch_config_updates (target : ConfigPeerDescriptor) (base_head : ConfigHead) : result NetworkError ConfigUpdateBatch :=
  fail_if (negb (bool_decide (cp_network_id target = dl_network_id dialer)))
    (NetworkMismatch (dl_network_id dialer) (cp_network_id target));;
  connection ← transport (ConfigPeer_endpoint_addr target) (config_sync_alpn (dl_network_id dialer))
                 (encode_config_sync_request (dl_network_id dialer) base_head) ?? Connect;
  fail_if (negb (bool_decide (conn_remote_id connection = cp_endpoint_id target)))
    (ProtocolViolation (bstr "config peer identity differs from descriptor"));;
  header ← read_reply 5 (conn_incoming connection);
  fail_if (negb (from_be (take 1 header.1) =? CONFIG_SYNC_RESPONSE_OK)) ConfigSyncRejected;;
  let n := from_be (drop 1 header.1) in
  fail_if (MAX_CONFIG_SYNC_RESPONSE <? n) (ProtocolViolation (bstr "config sync response exceeds limit"));;
  body ← read_reply (Z.to_nat n) (Arrived header.2);
  updates ← map_err NetConfigSync (Batch_from_bytes body.1);
  fail_if (negb (bool_decide (ub_network_id updates = dl_network_id dialer))
           || negb (bool_decide (ub_base_head updates = base_head)))
    (ProtocolViolation (bstr "config sync response does not match request"));;
  Ok updates.

(* weaver-net/src/lib.rs:2277-2357 WeaverDialer::presence_request *)
Definition presence_request (target : ConfigPeerDescriptor) (operation epoch : Z) (opaque_key : bytes) (expires_at_ms : Z)
    (body : bytes) : result NetworkError (option bytes) :=
  fail_if (negb (bool_decide (cp_network_id target = dl_network_id dialer)))
    (NetworkMismatch (dl_network_id dialer) (cp_network_id target));;
  fail_if (MAX_PRESENCE_RECORD_BYTES <? len body) (ProtocolViolation (bstr "presence request exceeds limit"));;
  header ← encode_presence_request (dl_network_id dialer) operation epoch opaque_key expires_at_ms (len body);
  connection ← transport (ConfigPeer_endpoint_addr target) (presence_alpn (dl_network_id dialer)) (header ++ body) ?? Connect;
  fail_if (negb (bool_decide (conn_remote_id connection = cp_endpoint_id target)))
    (ProtocolViolation (bstr "presence service identity differs from descriptor"));;
  response ← read_reply PRESENCE_RESPONSE_HEADER_LEN (conn_incoming connection);
  let status := from_be (take 1 response.1) in
  let n := from_be (drop 9 response.1) in
  fail_if (MAX_PRESENCE_RECORD_BYTES <? n) (ProtocolViolation (bstr "presence response exceeds limit"));;
  if status =? PRESENCE_RESPONSE_OK then
    fail_if ((operation =? PRESENCE_OP_PUBLISH) && negb (n =? 0))
      (ProtocolViolation (bstr "presence publish response has a payload"));;
    bs ← read_reply (Z.to_nat n) (Arrived response.2);
    Ok (if negb (n =? 0) then Some bs.1 else None)
  else if (status =? PRESENCE_RESPONSE_NOT_FOUND) && (operation =? PRESENCE_OP_QUERY) && (n =? 0) then Ok None
  else if status =? PRESENCE_RESPONSE_REJECTED then Err PresenceRejected
  else Err (ProtocolViolation (bstr "invalid presence response")).
(* weaver-net/src/lib.rs:2228-2253 WeaverDialer::publish_presence *)
Definition publish_presence (target : ConfigPeerDescriptor) (record : EncryptedPresenceRecord) (expires_at_ms : Z)
    : result NetworkError unit :=
  bs ← map_err NetPresence (Presence_to_bytes record);
  response ← presence_request target PRESENCE_OP_PUBLISH (ep_epoch record) (ep_opaque_key record) expires_at_ms bs;
  match response with
  | Some _ => Err (ProtocolViolation (bstr "presence publish returned an unexpected payload"))
  | None => Ok tt
  end.
(* weaver-net/src/lib.rs:2255-2275 WeaverDialer::query_presence *)
Definition query_presence (target : ConfigPeerDescriptor) (epoch : Z) (opaque_key : bytes)
    : result NetworkError (option EncryptedPresenceRecord) :=
  response ← presence_request target PRESENCE_OP_QUERY epoch opaque_key 0 [];
  match response with
  | None => Ok None
  | Some bs =>
      record ← map_err NetPresence (Presence_from_bytes bs);
      fail_if (negb (ep_epoch record =? epoch) || negb (bool_decide (ep_opaque_key record = opaque_key)))
        (ProtocolViolation (bstr "presence response key does not match request"));;
      Ok (Some record)
  end.
End dialer.

(** ** The source's side of a configuration sync request *)
(* weaver-net/src/lib.rs:103-109 ConfigUpdateSource *)
Class ConfigUpdateSource (S : Type) : Type :=
  source_updates_after : S -> EndpointId -> ConfigHead -> result bytes ConfigUpdateBatch.
(* weaver-net/src/lib.rs:2992-3046 handle_config_sync_connection *)
Definition handle_config_sync_connection `{Ed25519} `{Blake3} {S} `{!ConfigUpdateSource S} (source : S) (network_id : NetworkId)
    (remote_id : EndpointId) (incoming : bytes) : bytes :=
  let malformed := bstr "malformed config sync request" in
  let answer : result bytes bytes :=
    read ← read_exact CONFIG_SYNC_REQUEST_LEN incoming ?? malformed;
    request ← map_err (fun _ => malformed) (decode_config_sync_request read.1);
    fail_if (negb (bool_decide (request.1 = network_id))) malformed;;
    updates ← source_updates_after source remote_id request.2;
    fail_if (negb (bool_decide (ub_network_id updates = network_id)) || negb (bool_decide (ub_base_head updates = request.2)))
      (bstr "config source returned a mismatched batch");;
    map_err (fun _ => bstr "config update batch") (Batch_to_bytes updates) in
  let rejected := to_be 1 CONFIG_SYNC_RESPONSE_REJECTED ++ to_be 4 0 in
  match answer with
  | Ok bs => if len bs <=? MAX_CONFIG_SYNC_RESPONSE then to_be 1 CONFIG_SYNC_RESPONSE_OK ++ to_be 4 (len bs) ++ bs else rejected
  | Err _ => rejected
  end.
