(* ===== verification/NetAuthorizer.v ===== *)
(** * weaver-net: who may connect

    Models the authorization of [crates/weaver-net/src/lib.rs]: the tables derived once
    from a signed configuration, the view that follows the configuration while it
    changes, and the decisions the accept loop takes for connections and for the streams
    on them.  One reading of the clock stands for the readings of one call. *)

From S2P Require Import Prelude Wire Core SocketAddr Platform Store CertificateWire Certificates Symmetric Snapshot.
From S2P Require Import Envelope Presence Directory ConfigState NetProtocol.

(* weaver-net/src/lib.rs:1661-1679 ConfigAuthorizationError *)
Inductive ConfigAuthorizationError : Type :=
| AuthCredential (e : CertificateError)
| AuthMalformedEndpoint
| AuthMalformedRelayUrl
| AuthWrongNetwork
| NoPresenceService
| LocalEndpointNotMember
| ServerNotAuthorized
| ClientNotAuthorized.

(** A set of client addresses per endpoint. *)
Abbreviation ClientTable := (gmap EndpointId (gset ScopedVirtualAddr)).
(** [table.entry(endpoint).or_default().insert(address)] *)
Definition allow_client (table : ClientTable) (ea : EndpointId * ScopedVirtualAddr) : ClientTable :=
  <[ea.1 := {[ea.2]} ∪ default ∅ (table !! ea.1)]> table.

(* weaver-net/src/lib.rs:1370-1378 NetworkAuthorizer *)
Class NetworkAuthorizer (A : Type) : Type := {
  allow_config_sync : A -> Z -> EndpointId -> bool;
  allow_presence : A -> Z -> EndpointId -> bool;
  authorized_client_addrs : A -> Z -> EndpointId -> ScopedVirtualAddr -> gset ScopedVirtualAddr;
}.
(* weaver-net/src/lib.rs:1380-1385 StaticNetworkAuthorizer *)
Record StaticNetworkAuthorizer : Type := mkStaticAuthorizer {
  sa_clients : ClientTable; sa_config_peers : gset EndpointId; sa_presence_peers : gset EndpointId }.
(* weaver-net/src/lib.rs:1387-1403 StaticNetworkAuthorizer *)
#[global] Instance static_authorizer : NetworkAuthorizer StaticNetworkAuthorizer := {|
  allow_config_sync a _ endpoint_id := bool_decide (endpoint_id ∈ sa_config_peers a);
  allow_presence a _ endpoint_id := bool_decide (endpoint_id ∈ sa_presence_peers a);
  authorized_client_addrs a _ endpoint_id _ := default ∅ (sa_clients a !! endpoint_id) |}.
(* weaver-net/src/lib.rs:1405-1413 LiveConfigAuthorizer *)
Record LiveConfigAuthorizer : Type := mkLiveAuthorizer {
  la_network_id : NetworkId; la_local_endpoint : EndpointId; la_config : ValidatedNetworkConfig }.

(** ** The member behind an endpoint *)
(* weaver-net/src/lib.rs:1517-1545 configured_member_for_endpoint *)
Definition configured_member_for_endpoint (config : ValidatedNetworkConfig) (endpoint_id : EndpointId) (now_ms : Z) : option MemberId :=
  if cfg_expires_at_ms (vc_inner config) <=? now_ms then None
  else
    binding ← find_parsed EndpointBinding_from_bytes (fun b =>
      bool_decide (eb_endpoint_id (payload b) = EndpointId_as_bytes endpoint_id) && (now_ms <? eb_expires_at_ms (payload b)))
      (cfg_endpoint_bindings (vc_inner config));
    member ← find_parsed MemberCertificate_from_bytes (fun m =>
      bool_decide (mc_member_id (payload m) = eb_member_id (payload binding)) && (now_ms <? mc_expires_at_ms (payload m)))
      (cfg_members (vc_inner config));
    Some (mc_member_id (payload member)).

(** One turn of the loop over the application bindings: whether the local member serves
    the destination, and the addresses of the remote member. *)
(* weaver-net/src/lib.rs:1485-1507 LiveConfigAuthorizer::authorized_client_addrs *)
Definition weigh_binding (app : AppAddr) (source_member local_member : MemberId) (now_ms : Z)
    (acc : bool * gset ScopedVirtualAddr) (binding : AppBinding) : bool * gset ScopedVirtualAddr :=
  let p := payload binding in
  if ab_expires_at_ms p <=? now_ms then acc
  else
    (acc.1 || (bool_decide (ab_role p = RoleServer) && bool_decide (ab_app_addr p = app) && bool_decide (ab_subject p = local_member)),
     match ab_role p, ab_device_id p with
     | RoleClient, Some device =>
         if bool_decide (ab_subject p = source_member) then {[Client (ab_app_addr p) device]} ∪ acc.2 else acc.2
     | _, _ => acc.2
     end).
(* weaver-net/src/lib.rs:1466-1514 LiveConfigAuthorizer::authorized_client_addrs *)
Definition Live_authorized_client_addrs (a : LiveConfigAuthorizer) (now_ms : Z) (endpoint_id : EndpointId)
    (destination : ScopedVirtualAddr) : gset ScopedVirtualAddr :=
  match configured_member_for_endpoint (la_config a) endpoint_id now_ms,
        configured_member_for_endpoint (la_config a) (la_local_endpoint a) now_ms, destination with
  | Some source_member, Some local_member, Server app =>
      match try_map AppBinding_from_bytes (cfg_app_bindings (vc_inner (la_config a))) with
      | Err _ => ∅
      | Ok bindings =>
          let '(server_authorized, clients) := foldl (weigh_binding app source_member local_member now_ms) (false, ∅) bindings in
          if server_authorized then clients else ∅
      end
  | _, _, _ => ∅
  end.
(* weaver-net/src/lib.rs:1457-1515 LiveConfigAuthorizer *)
#[global] Instance live_authorizer : NetworkAuthorizer LiveConfigAuthorizer := {|
  allow_config_sync a now_ms endpoint_id :=
    bool_decide (is_Some (configured_member_for_endpoint (la_config a) endpoint_id now_ms));
  allow_presence a now_ms endpoint_id :=
    bool_decide (is_Some (configured_member_for_endpoint (la_config a) endpoint_id now_ms));
  authorized_client_addrs := Live_authorized_client_addrs |}.
(* weaver-net/src/lib.rs:1416-1428 LiveConfigAuthorizer::new *)
Definition Live_new (config : ValidatedNetworkConfig) (local_endpoint : EndpointId) (now_ms : Z)
    : result ConfigAuthorizationError LiveConfigAuthorizer :=
  configured_member_for_endpoint config local_endpoint now_ms ?? LocalEndpointNotMember;;
  Ok (mkLiveAuthorizer (cfg_network_id (vc_inner config)) local_endpoint config).
(* weaver-net/src/lib.rs:1430-1439 LiveConfigAuthorizer::update *)
Definition Live_update (a : LiveConfigAuthorizer) (config : ValidatedNetworkConfig)
    : LiveConfigAuthorizer * result ConfigAuthorizationError unit :=
  if negb (bool_decide (cfg_network_id (vc_inner config) = la_network_id a)) then (a, Err AuthWrongNetwork)
  else (mkLiveAuthorizer (la_network_id a) (la_local_endpoint a) config, Ok tt).

(** ** The tables derived from a configuration *)
(* weaver-net/src/lib.rs:1557-1561 ConfigAuthorizations *)
Record ConfigAuthorizations : Type := mkAuthorizations {
  ca_relay_urls : list bytes; ca_allowed_clients : ClientTable; ca_member_endpoints : gset EndpointId }.

Section derive.
Context `{Platform}.
Implicit Types (config : ValidatedNetworkConfig).

(** A [RelayUrl] orders as the text it serialises to. *)
(* weaver-net/src/lib.rs:1645-1659 configured_data_relay_urls *)
Definition configured_data_relay_urls config : result ConfigAuthorizationError (list bytes) :=
  relay_urls ← try_map (fun relay => relay_url_parse (rd_url relay) ?? AuthMalformedRelayUrl)
    (List.filter (fun relay => RelayRoles.contains (rd_roles relay) RelayRoles.DATA_RELAY) (cfg_relays (vc_inner config)));
  Ok (dedup (merge_sort bytes_le relay_urls)).
(* weaver-net/src/lib.rs:1573-1584 ConfigAuthorizations::derive *)
Definition note_endpoint (local_endpoint : EndpointId) (acc : gmap MemberId (list EndpointId) * option MemberId) (raw : bytes)
    : result ConfigAuthorizationError (gmap MemberId (list EndpointId) * option MemberId) :=
  binding ← map_err AuthCredential (EndpointBinding_from_bytes raw);
  endpoint ← EndpointId_from_bytes (eb_endpoint_id (payload binding)) ?? AuthMalformedEndpoint;
  let member_id := eb_member_id (payload binding) in
  Ok (<[member_id := default [] (acc.1 !! member_id) ++ [endpoint]]> acc.1,
      if bool_decide (endpoint = local_endpoint) then Some member_id else acc.2).
(* weaver-net/src/lib.rs:1588-1623 ConfigAuthorizations::derive *)
Definition note_binding (endpoints_by_member : gmap MemberId (list EndpointId)) (local_member : MemberId)
    (acc : ClientTable * gset ScopedVirtualAddr) (raw : bytes)
    : result ConfigAuthorizationError (ClientTable * gset ScopedVirtualAddr) :=
  binding ← map_err AuthCredential (AppBinding_from_bytes raw);
  let p := payload binding in
  let is_local := bool_decide (ab_subject p = local_member) in
  match ab_role p with
  | RoleServer => Ok (acc.1, if is_local then {[Server (ab_app_addr p)]} ∪ acc.2 else acc.2)
  | RoleClient =>
      device ← ab_device_id p ?? ClientNotAuthorized;
      let address := Client (ab_app_addr p) device in
      Ok (foldl (fun table endpoint => allow_client table (endpoint, address)) acc.1
            (default [] (endpoints_by_member !! ab_subject p)),
          if is_local then {[address]} ∪ acc.2 else acc.2)
  end.
(* weaver-net/src/lib.rs:1564-1642 ConfigAuthorizations::derive *)
Definition derive config (local_endpoint : EndpointId) (local_bindings : LocalBindings)
    : result ConfigAuthorizationError ConfigAuthorizations :=
  noted ← try_fold (note_endpoint local_endpoint) (∅, None) (cfg_endpoint_bindings (vc_inner config));
  local_member ← noted.2 ?? LocalEndpointNotMember;
  allowed ← try_fold (note_binding noted.1 local_member) (∅, ∅) (cfg_app_bindings (vc_inner config));
  for_each (fun address =>
    fail_if (negb (bool_decide (address ∈ allowed.2)))
      (match address with Server _ => ServerNotAuthorized | Client _ _ => ClientNotAuthorized end)) (elements local_bindings);;
  relay_urls ← configured_data_relay_urls config;
  Ok (mkAuthorizations relay_urls allowed.1 (list_to_set (concat (snd <$> map_to_list noted.1)))).

(** ** Peers of a configuration *)
Definition peer_le (x y : ConfigPeerDescriptor) : Prop := endpoint_le (cp_endpoint_id x) (cp_endpoint_id y).
#[global] Instance peer_le_dec : RelDecision peer_le.
Proof. intros x y; unfold peer_le; apply _. Defined.
(** [dedup_by_key(|peer| peer.endpoint_id)] keeps the first of each run. *)
Fixpoint dedup_peers (peers : list ConfigPeerDescriptor) : list ConfigPeerDescriptor :=
  match peers with
  | [] => []
  | peer :: rest => peer :: match dedup_peers rest with
                            | next :: rest' => if bool_decide (cp_endpoint_id next = cp_endpoint_id peer) then rest' else next :: rest'
                            | [] => []
                            end
  end.
(* weaver-net/src/lib.rs:928-955 config_peer_descriptors *)
Definition config_peer_descriptors config (local_endpoint : EndpointId) : list ConfigPeerDescriptor :=
  let relay_url := relay ← List.find (fun relay => RelayRoles.contains (rd_roles relay) RelayRoles.DATA_RELAY) (cfg_relays (vc_inner config));
                   relay_url_parse (rd_url relay) in
  let endpoints := omap (fun raw => b ← parsed EndpointBinding_from_bytes raw; EndpointId_from_bytes (eb_endpoint_id (payload b)))
                     (cfg_endpoint_bindings (vc_inner config)) in
  let peers := (fun endpoint_id => mkConfigPeer (cfg_network_id (vc_inner config)) endpoint_id relay_url [])
                 <$> List.filter (fun endpoint_id => negb (bool_decide (endpoint_id = local_endpoint))) endpoints in
  dedup_peers (merge_sort peer_le peers).
(* weaver-net/src/lib.rs:1189-1209 ConfigPeerDescriptor::first_presence_service *)
Definition first_presence_service config : result ConfigAuthorizationError ConfigPeerDescriptor :=
  service ← head (cfg_presence_services (vc_inner config)) ?? NoPresenceService;
  endpoint_id ← EndpointId_from_bytes (ps_endpoint_id service) ?? AuthMalformedEndpoint;
  relay_url ← relay_url_parse (ps_url service) ?? AuthMalformedRelayUrl;
  Ok (mkConfigPeer (cfg_network_id (vc_inner config)) endpoint_id (Some relay_url) []).
End derive.

(** ** The configuration of a node *)
(* weaver-net/src/lib.rs:1231-1247 NodeConfig *)
Record NodeConfig (A C P : Type) : Type := mkNodeConfig {
  nc_secret_key : bytes;
  nc_relay_url : option bytes;
  nc_relay_urls : list bytes;
  nc_accept_alpns : list bytes;
  nc_network_id : NetworkId;
  nc_local_bindings : LocalBindings;
  nc_allowed_clients : ClientTable;
  nc_enable_direct_paths : bool;
  nc_address_lookup : option WeaverAddressLookup;
  nc_config_update_source : option C;
  nc_allowed_config_peers : gset EndpointId;
  nc_presence_store : option P;
  nc_allowed_presence_peers : gset EndpointId;
  nc_authorizer : option A;
}.
Arguments mkNodeConfig {A C P}.
Arguments nc_secret_key {A C P}.
Arguments nc_relay_url {A C P}.
Arguments nc_relay_urls {A C P}.
Arguments nc_accept_alpns {A C P}.
Arguments nc_network_id {A C P}.
Arguments nc_local_bindings {A C P}.
Arguments nc_allowed_clients {A C P}.
Arguments nc_enable_direct_paths {A C P}.
Arguments nc_address_lookup {A C P}.
Arguments nc_config_update_source {A C P}.
Arguments nc_allowed_config_peers {A C P}.
Arguments nc_presence_store {A C P}.
Arguments nc_allowed_presence_peers {A C P}.
Arguments nc_authorizer {A C P}.

Section node.
Context `{Platform} {A C P : Type} `{!NetworkAuthorizer A}.

(* weaver-net/src/lib.rs:1547-1555 collect_client_authorizations *)
Definition collect_client_authorizations (allowed_clients : list (EndpointId * ScopedVirtualAddr)) : ClientTable :=
  foldl allow_client ∅ allowed_clients.
(* weaver-net/src/lib.rs:1270-1298 NodeConfig::new *)
Definition NodeConfig_new (secret_key : bytes) (relay_url : option bytes) (network_id : NetworkId) (local_bindings : LocalBindings)
    (allowed_clients : list (EndpointId * ScopedVirtualAddr)) : NodeConfig A C P :=
  mkNodeConfig secret_key relay_url (option_list relay_url)
    (concat ((fun server => [tcp_alpn (ServerAddr_app server); udp_alpn (ServerAddr_app server)]) <$> LocalBindings_servers local_bindings))
    network_id local_bindings (collect_client_authorizations allowed_clients) true None None ∅ None ∅ None.
(* weaver-net/src/lib.rs:1300-1323 NodeConfig::from_config *)
Definition NodeConfig_from_config (secret_key : bytes) (config : ValidatedNetworkConfig) (local_bindings : LocalBindings)
    : result ConfigAuthorizationError (NodeConfig A C P) :=
  derived ← derive config (mkEndpointId (endpoint_public secret_key)) local_bindings;
  let node := NodeConfig_new secret_key (head (ca_relay_urls derived)) (cfg_network_id (vc_inner config)) local_bindings
    (concat ((fun ea => (fun address => (ea.1, address)) <$> elements ea.2) <$> map_to_list (ca_allowed_clients derived))) in
  Ok (mkNodeConfig (nc_secret_key node) (nc_relay_url node) (ca_relay_urls derived) (nc_accept_alpns node) (nc_network_id node)
        (nc_local_bindings node) (nc_allowed_clients node) (nc_enable_direct_paths node) (nc_address_lookup node)
        (nc_config_update_source node) (ca_member_endpoints derived) (nc_presence_store node) (nc_allowed_presence_peers node)
        (nc_authorizer node)).

(** ** Admission of connections *)
(** [Arc<dyn NetworkAuthorizer>]: the one that was set, or the tables of the node. *)
Definition BoundAuthorizer : Type := A + StaticNetworkAuthorizer.
#[global] Instance bound_authorizer : NetworkAuthorizer BoundAuthorizer := {|
  allow_config_sync a := match a with inl a => allow_config_sync a | inr a => allow_config_sync a end;
  allow_presence a := match a with inl a => allow_presence a | inr a => allow_presence a end;
  authorized_client_addrs a := match a with inl a => authorized_client_addrs a | inr a => authorized_client_addrs a end |}.
(* weaver-net/src/lib.rs:2586-2593 AcceptServices *)
Record AcceptServices : Type := mkServices {
  av_config_update_source : option C;
  av_presence_store : option P;
  av_authorizer : BoundAuthorizer;
  av_application_routes : gmap bytes (ServerAddr * bool);
}.
(* weaver-net/src/lib.rs:1786-1795 WeaverEndpoint::bind *)
Definition application_routes (bindings : LocalBindings) : gmap bytes (ServerAddr * bool) :=
  foldl (fun routes server =>
    <[udp_alpn (ServerAddr_app server) := (server, true)]> (<[tcp_alpn (ServerAddr_app server) := (server, false)]> routes))
    ∅ (LocalBindings_servers bindings).
(** What [bind] hands to the accept loop, and the protocols it offers; [None] where no task is started. *)
(* weaver-net/src/lib.rs:1738-1832 WeaverEndpoint::bind *)
Definition bind (config : NodeConfig A C P) : list bytes * option AcceptServices :=
  let has {X} (o : option X) := match o with Some _ => true | None => false end in
  let accepts_connections := negb (bool_decide (nc_accept_alpns config = [])) || has (nc_config_update_source config)
                             || has (nc_presence_store config) in
  let accept_alpns := nc_accept_alpns config
    ++ (if has (nc_config_update_source config) then [config_sync_alpn (nc_network_id config)] else [])
    ++ (if has (nc_presence_store config) then [presence_alpn (nc_network_id config)] else []) in
  let authorizer := match nc_authorizer config with
    | Some a => inl a
    | None => inr (mkStaticAuthorizer (nc_allowed_clients config) (nc_allowed_config_peers config) (nc_allowed_presence_peers config))
    end in
  (accept_alpns,
   if accepts_connections
   then Some (mkServices (nc_config_update_source config) (nc_presence_store config) authorizer
                (application_routes (nc_local_bindings config)))
   else None).

Inductive Admission : Type :=
| Closed (reason : bytes)
| ServeConfigSync (source : C)
| ServePresence (store : P)
| ServeApplication (server : ServerAddr) (datagram : bool).
(** What the accept loop does with an authenticated connection. *)
(* weaver-net/src/lib.rs:2626-2687 accept_connections *)
Definition admit_connection (services : AcceptServices) (network_id : NetworkId) (now_ms : Z) (remote_id : EndpointId) (alpn : bytes) : Admission :=
  if bool_decide (alpn = config_sync_alpn network_id) then
    match av_config_update_source services with
    | None => Closed (bstr "config sync disabled")
    | Some source => if allow_config_sync (av_authorizer services) now_ms remote_id then ServeConfigSync source
                     else Closed (bstr "config peer not allowed")
    end
  else if bool_decide (alpn = presence_alpn network_id) then
    match av_presence_store services with
    | None => Closed (bstr "presence disabled")
    | Some store => if allow_presence (av_authorizer services) now_ms remote_id then ServePresence store
                    else Closed (bstr "presence peer not allowed")
    end
  else match av_application_routes services !! alpn with
  | None => Closed (bstr "unknown application binding")
  | Some (server_addr, datagram_protocol) =>
      if bool_decide (authorized_client_addrs (av_authorizer services) now_ms remote_id (ServerAddr_scoped server_addr) = ∅)
      then Closed (bstr "endpoint not allowed")
      else ServeApplication server_addr datagram_protocol
  end.
End node.

(** ** Opening streams on a connection *)
Abbreviation MAX_STREAM_HANDLERS_PER_CONNECTION := (128%nat).
Section streams.
Context {A : Type} `{!NetworkAuthorizer A}.
Variables (network_id : NetworkId) (local_addr : ScopedVirtualAddr) (remote_id : EndpointId).

(* weaver-net/src/lib.rs:2720-2736 accept_connections *)
Definition open_response (authorizer : A) (now_ms : Z) (request : result unit OpenStreamRequest) : Z :=
  match request with
  | Err _ => OPEN_RESPONSE_PROTOCOL_ERROR
  | Ok request =>
      if negb (bool_decide (or_network_id request = network_id)) then OPEN_RESPONSE_NETWORK_MISMATCH
      else if negb (bool_decide (or_destination request = local_addr)) then OPEN_RESPONSE_ADDRESS_MISMATCH
      else if negb (bool_decide (or_source request ∈ authorized_client_addrs authorizer now_ms remote_id local_addr))
      then OPEN_RESPONSE_NOT_AUTHORIZED
      else OPEN_RESPONSE_ACCEPTED
  end.
(** The answer to what arrives on a stream, and the connection handed to the listener;
    [written] is false when the answer cannot be sent. *)
(* weaver-net/src/lib.rs:2916-2961 handle_datagram_connection *)
Definition answer_open (datagram : bool) (authorizer : A) (now_ms : Z) (incoming : bytes) (written : bool) : Z * option VirtualStream :=
  let request := match read_exact OPEN_REQUEST_LEN incoming with
    | Some (request_bytes, _) => decode_with_preface request_bytes (preface_of datagram)
    | None => Err tt
    end in
  let response := open_response authorizer now_ms request in
  (response,
   match request with
   | Ok request => if written && (response =? OPEN_RESPONSE_ACCEPTED)
                   then Some (mkVirtualStream remote_id local_addr (or_source request)) else None
   | Err _ => None
   end).

(** The task of one stream, which holds its permit from the first of these to its end: it
    waits for the request, then for its answer to be sent, then for the listener to take
    the accepted stream. *)
Inductive StreamHandler : Type :=
| AwaitRequest
| AwaitWrite (response : Z) (accepted : option VirtualStream)
| AwaitListener (stream : VirtualStream).
(** One connection for reliable streams: the running handlers by stream, the answers that
    were sent and the streams the listener has got.  The authorization may change at any
    time. *)
Record PeerConnection : Type := mkPeerConnection {
  pn_authorizer : A;
  pn_handlers : gmap nat StreamHandler;
  pn_answers : list (nat * Z);
  pn_delivered : list VirtualStream;
}.
(** The request of a stream has been read or has not come in time; sending the answer has
    succeeded or failed; the listener has taken the stream or is gone. *)
Inductive ConnectionEvent : Type :=
| StreamArrived (stream : nat)
| RequestArrived (stream : nat) (incoming : bytes) (now_ms : Z)
| AnswerWritten (stream : nat) (written : bool)
| ListenerTook (stream : nat) (taken : bool)
| AuthorizerChanged (authorizer : A).
Definition with_handlers (c : PeerConnection) (handlers : gmap nat StreamHandler) : PeerConnection :=
  mkPeerConnection (pn_authorizer c) handlers (pn_answers c) (pn_delivered c).
(* weaver-net/src/lib.rs:2694-2764 accept_connections *)
Definition connection_step (c : PeerConnection) (ev : ConnectionEvent) : PeerConnection :=
  match ev with
  | StreamArrived stream =>
      if Nat.leb MAX_STREAM_HANDLERS_PER_CONNECTION (size (pn_handlers c)) || bool_decide (is_Some (pn_handlers c !! stream)) then c
      else with_handlers c (<[stream := AwaitRequest]> (pn_handlers c))
  | RequestArrived stream incoming now_ms =>
      match pn_handlers c !! stream with
      | Some AwaitRequest =>
          let '(response, accepted) := answer_open false (pn_authorizer c) now_ms incoming true in
          with_handlers c (<[stream := AwaitWrite response accepted]> (pn_handlers c))
      | _ => c
      end
  | AnswerWritten stream written =>
      match pn_handlers c !! stream with
      | Some (AwaitWrite response accepted) =>
          if written then
            mkPeerConnection (pn_authorizer c)
              (match accepted with
               | Some accepted => <[stream := AwaitListener accepted]> (pn_handlers c)
               | None => delete stream (pn_handlers c)
               end) (pn_answers c ++ [(stream, response)]) (pn_delivered c)
          else with_handlers c (delete stream (pn_handlers c))
      | _ => c
      end
  | ListenerTook stream taken =>
      match pn_handlers c !! stream with
      | Some (AwaitListener accepted) =>
          mkPeerConnection (pn_authorizer c) (delete stream (pn_handlers c)) (pn_answers c)
            (if taken then pn_delivered c ++ [accepted] else pn_delivered c)
      | _ => c
      end
  | AuthorizerChanged authorizer => mkPeerConnection authorizer (pn_handlers c) (pn_answers c) (pn_delivered c)
  end.
Definition connection_run : PeerConnection -> list ConnectionEvent -> PeerConnection := foldl connection_step.
End streams.
