(* ===== verification/NetSync.v ===== *)
(** * weaver-net: background synchronisation

    Models the runtimes of [crates/weaver-net/src/lib.rs] that keep a member current: the
    configuration checkpoint with its live authorization, the anti-entropy loop that pulls
    the configuration chain from any peer, and the loop that publishes the local presence
    record and refreshes those of the others.  The checkpoint is shared: others apply
    updates to it during a round and between rounds.  A [Duration] is its nanoseconds; the
    answers of the peers and the readings of the clock are arguments. *)

From S2P Require Import Prelude Wire Core SocketAddr Platform Store CertificateWire Certificates Symmetric Snapshot.
From S2P Require Import Envelope Presence Directory ConfigState NetProtocol NetAuthorizer.

(** ** The checkpoint the loop works on *)
(* weaver-net/src/lib.rs:225-239 ConfigSyncState *)
Class ConfigSyncState (T : Type) : Type := {
  SyncError : Type;
  sync_head : T -> ConfigHead;
  config_peers : T -> EndpointId -> option (list ConfigPeerDescriptor);
  apply_updates : T -> ConfigUpdateBatch -> Z -> T * result SyncError ConfigHead;
}.
(* weaver-net/src/lib.rs:258-262 LiveConfigState *)
Record LiveConfigState (S : Type) : Type := mkLiveState {
  ls_persisted : PersistedConfigState S;
  ls_authorizer : LiveConfigAuthorizer;
  ls_config_changes : ValidatedNetworkConfig;
}.
Arguments mkLiveState {S}.
Arguments ls_persisted {S}.
Arguments ls_authorizer {S}.
Arguments ls_config_changes {S}.
(* weaver-net/src/lib.rs:265-272 LiveConfigState::new *)
Definition LiveState_new {S} (persisted : PersistedConfigState S) (authorizer : LiveConfigAuthorizer) : LiveConfigState S :=
  mkLiveState persisted authorizer (la_config authorizer).

Section checkpoint.
Context `{Ed25519} `{Blake3} `{Aead} `{Hpke} `{Platform} {S} `{!StateStore S}.

(* weaver-net/src/lib.rs:242-256 PersistedConfigState *)
#[global] Instance persisted_sync_state : ConfigSyncState (PersistedConfigState S) := {|
  SyncError := ConfigStateError;
  sync_head := cs_head;
  config_peers _ _ := None;
  apply_updates := ConfigState_apply |}.
(* weaver-net/src/lib.rs:304-316 LiveConfigState::apply_updates *)
Definition LiveState_apply_updates (st : LiveConfigState S) (updates : ConfigUpdateBatch) (now_ms : Z)
    : LiveConfigState S * result (ConfigStateError + ConfigAuthorizationError) ConfigHead :=
  match ConfigState_apply (ls_persisted st) updates now_ms with
  | (persisted, Err e) => (mkLiveState persisted (ls_authorizer st) (ls_config_changes st), Err (inl e))
  | (persisted, Ok head) =>
      match Live_update (ls_authorizer st) (cs_config persisted) with
      | (authorizer, Err e) => (mkLiveState persisted authorizer (ls_config_changes st), Err (inr e))
      | (authorizer, Ok _) => (mkLiveState persisted authorizer (cs_config persisted), Ok head)
      end
  end.
(* weaver-net/src/lib.rs:292-317 LiveConfigState *)
#[global] Instance live_sync_state : ConfigSyncState (LiveConfigState S) := {|
  SyncError := ConfigStateError + ConfigAuthorizationError;
  sync_head st := cs_head (ls_persisted st);
  config_peers st local_endpoint := Some (config_peer_descriptors (cs_config (ls_persisted st)) local_endpoint);
  apply_updates := LiveState_apply_updates |}.
(** [MemberConfigSource]: any member serves the chain it holds. *)
(* weaver-net/src/lib.rs:336-350 MemberConfigSource::updates_after *)
#[global] Instance member_config_source : ConfigUpdateSource (LiveConfigState S) := fun st _ base_head =>
  map_err (fun _ => bstr "config state") (updates_after (ls_persisted st) base_head).
End checkpoint.

(** ** The anti-entropy loop *)
Definition DURATION_MAX : Z := U64_MAX * 10 ^ 9 + 999999999.
(** [Duration::saturating_mul] *)
Definition duration_saturating_mul (d k : Z) : Z := Z.min (d * k) DURATION_MAX.
(* weaver-net/src/lib.rs:352-357 ConfigSyncOptions *)
Record ConfigSyncOptions : Type := mkSyncOptions { so_interval : Z; so_retry_min : Z; so_retry_max : Z }.
(** An event keeps the error itself where the source keeps its text. *)
(* weaver-net/src/lib.rs:369-384 ConfigSyncEvent *)
Inductive ConfigSyncEvent (E : Type) : Type :=
| SyncApplied (previous current : ConfigHead) (envelopes : Z)
| UpToDate (head : ConfigHead)
| SyncFailed (head : ConfigHead) (error : option (NetworkError + E)) (retry_in : Z).
Arguments SyncApplied {E}.
Arguments UpToDate {E}.
Arguments SyncFailed {E}.
Abbreviation EVENT_CHANNEL := (32%nat).

Section sync.
Context {T : Type} `{!ConfigSyncState T}.
(** The local variables of the task, with the state it shares and the event channel. *)
(* weaver-net/src/lib.rs:845-849 spawn_config_anti_entropy *)
Record SyncLoop : Type := mkSyncLoop {
  sl_state : T;
  sl_targets : list ConfigPeerDescriptor;
  sl_delay : Z;
  sl_retry : Z;
  sl_start_index : nat;
  sl_events : list (ConfigSyncEvent SyncError);
  sl_running : bool;
}.
(** The state is behind a lock that the loop holds only to read the head and to apply an
    answer.  In between others may apply updates to it: [NetworkHandle::apply_config_updates]
    does. *)
Definition written (state : T) (others : list (ConfigUpdateBatch * Z)) : T :=
  foldl (fun state un => (apply_updates state un.1 un.2).1) state others.
(** What the peer tried at an offset answers to a request, what others have applied before
    the loop holds the lock again, and the clock then. *)
Record Turn : Type := mkTurn {
  tu_answer : result NetworkError ConfigUpdateBatch;
  tu_others : list (ConfigUpdateBatch * Z);
  tu_now : Z;
}.
Definition Peers : Type := nat -> ConfigPeerDescriptor -> ConfigHead -> Turn.

(** The inner loop over the remaining offsets: the state, the first success with the
    index it came from, and the last error. *)
(* weaver-net/src/lib.rs:874-895 spawn_config_anti_entropy *)
Fixpoint try_peers (peers : Peers) (targets : list ConfigPeerDescriptor) (previous : ConfigHead) (start : nat) (offsets : list nat)
    (state : T) (last_error : option (NetworkError + SyncError))
    : T * option (ConfigHead * Z * nat) * option (NetworkError + SyncError) :=
  match offsets with
  | [] => (state, None, last_error)
  | offset :: rest =>
      let index := Nat.modulo (start + offset) (length targets) in
      match targets !! index with
      | None => (state, None, last_error)
      | Some target =>
          let turn := peers offset target previous in
          let state := written state (tu_others turn) in
          match tu_answer turn with
          | Err e => try_peers peers targets previous start rest state (Some (inl e))
          | Ok updates =>
              match apply_updates state updates (tu_now turn) with
              | (state, Ok current) => (state, Some (current, len (ub_envelopes updates), Nat.modulo (index + 1) (length targets)), last_error)
              | (state, Err e) => try_peers peers targets previous start rest state (Some (inr e))
              end
          end
      end
  end.
(** [event_tx.try_send(event)] drops the event when the channel is full. *)
Definition try_send {X} (events : list X) (event : X) : list X :=
  if Nat.ltb (length events) EVENT_CHANNEL then events ++ [event] else events.
(** The latest signed member set replaces the targets, where the state knows one. *)
(* weaver-net/src/lib.rs:862-871 spawn_config_anti_entropy *)
Definition refresh_targets (local_endpoint : EndpointId) (l : SyncLoop) : list ConfigPeerDescriptor * nat :=
  match config_peers (sl_state l) local_endpoint with
  | Some current_targets =>
      if bool_decide (current_targets = []) then (sl_targets l, sl_start_index l)
      else (current_targets, Nat.modulo (sl_start_index l) (length current_targets))
  | None => (sl_targets l, sl_start_index l)
  end.
(** A round of the loop after it has been woken by the timer or a trigger. *)
(* weaver-net/src/lib.rs:862-917 spawn_config_anti_entropy *)
Definition sync_round (options : ConfigSyncOptions) (local_endpoint : EndpointId) (peers : Peers) (l : SyncLoop) : SyncLoop :=
  let '(targets, start_index) := refresh_targets local_endpoint l in
  let previous := sync_head (sl_state l) in
  match try_peers peers targets previous start_index (seq 0 (length targets)) (sl_state l) None with
  | (state, Some (current, envelopes, start_index), _) =>
      let event := if bool_decide (current = previous) then UpToDate current else SyncApplied previous current envelopes in
      mkSyncLoop state targets (so_interval options) (so_retry_min options) start_index (try_send (sl_events l) event) true
  | (state, None, last_error) =>
      mkSyncLoop state targets (sl_retry l) (Z.min (duration_saturating_mul (sl_retry l) 2) (so_retry_max options)) start_index
        (try_send (sl_events l) (SyncFailed previous last_error (sl_retry l))) true
  end.
(** What wakes the loop or stops it; the receiver of the events takes one at a time, and
    others apply updates to the state while the loop waits. *)
Inductive SyncWake : Type := Woken (peers : Peers) | EventTaken | StateWritten (updates : ConfigUpdateBatch) (now_ms : Z) | SyncStopped.
(* weaver-net/src/lib.rs:849-861 spawn_config_anti_entropy *)
Definition sync_step (options : ConfigSyncOptions) (local_endpoint : EndpointId) (l : SyncLoop) (w : SyncWake) : SyncLoop :=
  if negb (sl_running l) then l
  else match w with
  | Woken peers => sync_round options local_endpoint peers l
  | EventTaken => mkSyncLoop (sl_state l) (sl_targets l) (sl_delay l) (sl_retry l) (sl_start_index l) (tail (sl_events l)) true
  | StateWritten updates now_ms =>
      mkSyncLoop (written (sl_state l) [(updates, now_ms)]) (sl_targets l) (sl_delay l) (sl_retry l) (sl_start_index l) (sl_events l) true
  | SyncStopped => mkSyncLoop (sl_state l) (sl_targets l) (sl_delay l) (sl_retry l) (sl_start_index l) (sl_events l) false
  end.
Definition sync_run (options : ConfigSyncOptions) (local_endpoint : EndpointId) : SyncLoop -> list SyncWake -> SyncLoop :=
  foldl (sync_step options local_endpoint).
(** [None] is the panic of an assertion. *)
(* weaver-net/src/lib.rs:817-847 spawn_config_anti_entropy *)
Definition spawn_config_anti_entropy (dialer : WeaverDialer) (targets : list ConfigPeerDescriptor) (state : T)
    (options : ConfigSyncOptions) : option SyncLoop :=
  if negb (bool_decide (targets = [])) && forallb (fun target => bool_decide (cp_network_id target = dl_network_id dialer)) targets
     && negb (so_interval options =? 0) && negb (so_retry_min options =? 0) && (so_retry_min options <=? so_retry_max options)
  then Some (mkSyncLoop state targets 0 (so_retry_min options) 0 [] true) else None.
End sync.
Arguments SyncLoop T {ConfigSyncState0}.

(** ** The presence loop *)
(* weaver-net/src/lib.rs:442-447 PresenceSyncOptions *)
Record PresenceSyncOptions : Type := mkPresenceOptions { po_publish_interval : Z; po_query_interval : Z; po_record_ttl : Z }.
(* weaver-net/src/lib.rs:461-474 PresenceSyncEvent *)
Inductive PresenceSyncEvent : Type :=
| PresencePublished (candidate_count : Z)
| PresenceRefreshed (queried applied : Z)
| PublishFailed (error : NetworkError)
| QueryFailed (error : CertificateError + option NetworkError)
| ApplyFailed (error : DiscoveryError).
(** The task's variables: the directory it feeds, the sequence number of its last record,
    and the event channel. *)
Record PresenceLoop : Type := mkPresenceLoop {
  pl_directory : PresenceDirectory; pl_sequence : Z; pl_events : list PresenceSyncEvent; pl_running : bool }.

Section presence_sync.
Context `{Ed25519} `{Blake3} `{Aead} `{Platform}.
Variables (dialer : WeaverDialer) (signing : SigningKeypair) (ttl : Z).

(* weaver-net/src/lib.rs:668-673 current_presence_target *)
Definition current_presence_target (fallback : ConfigPeerDescriptor) (config : ValidatedNetworkConfig) : ConfigPeerDescriptor :=
  match first_presence_service config with Ok target => target | Err _ => fallback end.
(* weaver-net/src/lib.rs:689-697 publish_current_presence *)
Definition publication_candidates (data : list TransportAddr) : list DiscoveryCandidate :=
  (fun address => match address with TransportIp a => CandidateIp a | TransportRelay url => CandidateRelay url end) <$> take 16 data.
(* weaver-net/src/lib.rs:675-737 publish_current_presence *)
Definition publish_current_presence (transport : Transport) (target : ConfigPeerDescriptor) (config : ValidatedNetworkConfig)
    (publications : option (list TransportAddr)) (now_ms : Z) (ent : entropy) (l : PresenceLoop) : PresenceLoop :=
  match publication_candidates <$> publications with
  | None | Some [] => l
  | Some candidates =>
      let ttl_ms := Z.min (ttl / 10 ^ 6) U64_MAX in
      let expires_at_ms := Z.min (saturating_add now_ms ttl_ms) (cfg_expires_at_ms (vc_inner config)) in
      let sequence := saturating_add (Z.max (pl_sequence l) now_ms) 1 in
      let result :=
        match Presence_seal config signing (dl_endpoint_id dialer) (elements (dl_local_bindings dialer)) candidates 0 sequence
                now_ms expires_at_ms ent with
        | Ok (record, _) => publish_presence dialer transport target record expires_at_ms
        | Err e => Err (NetPresence e)
        end in
      let event := match result with Ok _ => PresencePublished (len candidates) | Err e => PublishFailed e end in
      mkPresenceLoop (pl_directory l) sequence (try_send (pl_events l) event) (pl_running l)
  end.

(** The endpoints of the configuration but the local one, or the error that ends the round. *)
(* weaver-net/src/lib.rs:746-770 refresh_remote_presence *)
Definition remote_endpoints (config : ValidatedNetworkConfig) : result (CertificateError + option NetworkError) (list EndpointId) :=
  endpoints ← try_map (fun raw =>
    binding ← map_err inl (EndpointBinding_from_bytes raw);
    EndpointId_from_bytes (eb_endpoint_id (payload binding)) ?? inr None) (cfg_endpoint_bindings (vc_inner config));
  Ok (List.filter (fun e => negb (bool_decide (e = dl_endpoint_id dialer))) endpoints).
(** One endpoint of the round: the directory, the count of new records and the events. *)
(* weaver-net/src/lib.rs:774-796 refresh_remote_presence *)
Definition refresh_endpoint (transport : Transport) (target : ConfigPeerDescriptor) (config : ValidatedNetworkConfig) (now_ms : Z)
    (acc : PresenceDirectory * Z * list PresenceSyncEvent) (endpoint_id : EndpointId) : PresenceDirectory * Z * list PresenceSyncEvent :=
  let '(directory, applied, events) := acc in
  let '(epoch, opaque_key) := lookup_key config endpoint_id in
  match query_presence dialer transport target epoch opaque_key with
  | Ok (Some record) =>
      match apply_encrypted directory config record now_ms with
      | (directory, Ok changed) => (directory, applied + Z.b2z changed, events)
      | (directory, Err error) => (directory, applied, try_send events (ApplyFailed error))
      end
  | Ok None => (directory, applied, events)
  | Err error => (directory, applied, try_send events (QueryFailed (inr (Some error))))
  end.
(* weaver-net/src/lib.rs:739-803 refresh_remote_presence *)
Definition refresh_remote_presence (transport : Transport) (target : ConfigPeerDescriptor) (config : ValidatedNetworkConfig)
    (now_ms : Z) (l : PresenceLoop) : PresenceLoop :=
  match remote_endpoints config with
  | Err error => mkPresenceLoop (pl_directory l) (pl_sequence l) (try_send (pl_events l) (QueryFailed error)) (pl_running l)
  | Ok endpoints =>
      let endpoint_ids := dedup (merge_sort endpoint_le endpoints) in
      let '(directory, applied, events) :=
        foldl (refresh_endpoint transport target config now_ms) (pl_directory l, 0, pl_events l) endpoint_ids in
      mkPresenceLoop (Directory_purge_expired directory now_ms) (pl_sequence l)
        (try_send events (PresenceRefreshed (len endpoint_ids) applied)) (pl_running l)
  end.

(** What wakes the loop: the first case stands for the publish timer and for a new
    publication, which do the same. *)
Inductive PresenceWake : Type :=
| PublishDue (config : ValidatedNetworkConfig) (transport : Transport) (publications : option (list TransportAddr)) (now_ms : Z) (ent : entropy)
| QueryDue (config : ValidatedNetworkConfig) (transport : Transport) (now_ms : Z)
| PresenceTriggered (config : ValidatedNetworkConfig) (transport transport' : Transport)
    (publications : option (list TransportAddr)) (now_ms now_ms' : Z) (ent : entropy)
| PresenceStopped.
(* weaver-net/src/lib.rs:608-659 spawn_presence_sync_inner *)
Definition presence_step (target : ConfigPeerDescriptor) (l : PresenceLoop) (w : PresenceWake) : PresenceLoop :=
  if negb (pl_running l) then l
  else match w with
  | PublishDue config transport publications now_ms ent =>
      publish_current_presence transport (current_presence_target target config) config publications now_ms ent l
  | QueryDue config transport now_ms => refresh_remote_presence transport (current_presence_target target config) config now_ms l
  | PresenceTriggered config transport transport' publications now_ms now_ms' ent =>
      refresh_remote_presence transport' (current_presence_target target config) config now_ms'
        (publish_current_presence transport (current_presence_target target config) config publications now_ms ent l)
  | PresenceStopped => mkPresenceLoop (pl_directory l) (pl_sequence l) (pl_events l) false
  end.
Definition presence_run (target : ConfigPeerDescriptor) : PresenceLoop -> list PresenceWake -> PresenceLoop := foldl (presence_step target).
End presence_sync.
(** The first record takes a number above the time the task was started; [None] is the panic of an assertion. *)
(* weaver-net/src/lib.rs:585-613 spawn_presence_sync_inner *)
Definition spawn_presence_sync (dialer : WeaverDialer) (target : ConfigPeerDescriptor) (config : ValidatedNetworkConfig)
    (directory : PresenceDirectory) (lookup : WeaverAddressLookup) (options : PresenceSyncOptions) (now_ms : Z) : option PresenceLoop :=
  if negb (po_publish_interval options =? 0) && negb (po_query_interval options =? 0) && negb (po_record_ttl options =? 0)
     && (po_record_ttl options / 10 ^ 6 <=? MAX_PRESENCE_TTL_MS)
     && bool_decide (cfg_network_id (vc_inner config) = dl_network_id dialer)
     && bool_decide (dir_network_id directory = dl_network_id dialer)
     && bool_decide (lk_network_id lookup = dl_network_id dialer) && bool_decide (cp_network_id target = dl_network_id dialer)
  then Some (mkPresenceLoop directory now_ms [] true) else None.
