(* ===== verification/NetProtocolFacts.v ===== *)
(** * Properties of the protocols between endpoints

    Each request format is exact, the presence store keeps every live key with the
    endpoint that claimed it, and a client that talks to a service over its wire format
    gets what the store or the source behind it answers. *)

From S2P Require Import Prelude Wire Core SocketAddr Platform Store CertificateWire Certificates Symmetric ToyCrypto Snapshot.
From S2P Require Import Presence PresenceFacts Directory Envelope EnvelopeChain ConfigState ConfigStateFacts NetProtocol.

(** ** Requests *)
Definition open_request_typed (r : OpenStreamRequest) : Prop :=
  NetworkId_wf (or_network_id r) /\ ScopedVirtualAddr_wf (or_source r) /\ ScopedVirtualAddr_wf (or_destination r).
Lemma preface_length d : length (preface_of d) = 20%nat.
Proof. by destruct d. Qed.

Lemma open_request_wire r bs d :
  open_request_typed r ->
  encode_with_preface r (preface_of d) = Ok bs <->
  decode_with_preface bs (preface_of d) = Ok r /\ length bs = OPEN_REQUEST_LEN.
Proof.
  destruct r as [[net] src dst]; intros (Hn & Hs & Hd); unfold NetworkId_wf in *; cbn in Hn, Hs, Hd.
  unfold encode_with_preface; cbn [or_source or_destination or_network_id NetworkId_as_bytes]; split.
  - destruct src as [|[app] [dev]]; [done|]; destruct dst as [[dapp]|]; [|done].
    destruct Hs as [Ha Hv]; cbn in Hd; unfold AppAddr_wf, DeviceId_wf in *; cbn in Ha, Hv, Hd |- *; intros [= <-].
    rewrite !length_app, preface_length, Hn, Ha, Hv, Hd; split; [|done].
    unfold decode_with_preface; eapply run_steps; parse.
  - unfold decode_with_preface; intros [Hp Hl]; unparse.
    cbn; rewrite !length_app, preface_length in Hl.
    match goal with Hx : at_suffix _ ?s |- _ => assert (s = []) as -> by (apply length_zero_iff_nil; lia) end.
    by rewrite app_nil_r.
Qed.
Lemma decode_open_typed bs d r : decode_with_preface bs (preface_of d) = Ok r -> open_request_typed r.
Proof. unfold decode_with_preface; intros Hp; unparse; by repeat split. Qed.
(** A request of one kind is malformed for the other. *)
Lemma open_kinds_disjoint bs d r : decode_with_preface bs (preface_of d) = Ok r -> decode_with_preface bs (preface_of (negb d)) = Err tt.
Proof.
  intros Hr; destruct (decode_with_preface bs (preface_of (negb d))) as [r'|[]] eqn:Hr'; [exfalso|done].
  unfold decode_with_preface in *; unparse.
  match goal with Hx : preface_of (negb d) ++ _ = preface_of d ++ _ |- _ => destruct d; discriminate Hx end.
Qed.

Definition presence_request_typed (q : PresenceRequest) : Prop :=
  NetworkId_wf (pq_network_id q) /\ is_u64 (pq_epoch q) = true /\ length (pq_opaque_key q) = 24%nat /\
  is_u64 (pq_expires_at_ms q) = true.
(** What the service accepts as a request. *)
Definition presence_request_valid (q : PresenceRequest) : Prop :=
  (pq_operation q = PRESENCE_OP_QUERY /\ pq_body_len q = 0 /\ pq_expires_at_ms q = 0) \/
  (pq_operation q = PRESENCE_OP_PUBLISH /\ 0 < pq_body_len q <= MAX_PRESENCE_RECORD_BYTES).
Lemma presence_request_decodes q bs :
  presence_request_typed q -> presence_request_valid q ->
  encode_presence_request (pq_network_id q) (pq_operation q) (pq_epoch q) (pq_opaque_key q) (pq_expires_at_ms q) (pq_body_len q) = Ok bs ->
  decode_presence_request bs = Ok q /\ length bs = PRESENCE_REQUEST_HEADER_LEN /\ request_operation bs = Some (pq_operation q).
Proof.
  destruct q as [[net] op epoch key exp n]; intros (Hn & He & Hk & Hx) Hv; unfold NetworkId_wf in *; cbn in Hn, He, Hk, Hx, Hv |- *.
  unfold presence_request_valid in Hv; cbn in Hv.
  unfold encode_presence_request; intros (u & Hu%fail_if_Ok & <-%Ok_inj)%bind_Ok; bool_inv; cbn [NetworkId_as_bytes].
  assert (in_range (8 * Z.of_nat 1) op = true) by (unfold in_range; passes).
  split_and!.
  - unfold decode_presence_request; apply bind_Ok; eexists; split; [eapply run_steps; parse|].
    cbn [pq_operation pq_body_len pq_expires_at_ms]; apply bind_Ok; exists tt; split; [apply fail_if_Ok|done]; passes.
  - by rewrite !length_app, !length_to_be, Hn, Hk.
  - unfold request_operation; rewrite take_app_length' by done; rewrite bool_decide_true by done.
    assert (length PRESENCE_REQUEST_MAGIC = 16%nat) as Hl by done.
    rewrite lookup_app_r by (rewrite Hl; lia); rewrite lookup_app_r by (rewrite Hl, Hn; lia); rewrite Hl, Hn; cbn [Nat.sub].
    change (16 + 32 - 16 - 32)%nat with 0%nat; destruct Hv as [[-> _]|[-> _]]; reflexivity.
Qed.
Lemma decode_presence_request_Ok bs q : decode_presence_request bs = Ok q -> presence_request_typed q /\ presence_request_valid q.
Proof.
  unfold decode_presence_request; intros (q' & Hp & Hq)%bind_Ok; apply bind_Ok in Hq as (u & Hf%fail_if_Ok & <-%Ok_inj).
  unparse; unfold presence_request_typed, presence_request_valid; cbn in *; bool_inv; unfold in_range in *; bool_inv.
  split_and!; try done; try (unfold in_range; passes).
  all: destruct (x3 =? 1) eqn:E1; destruct (x3 =? 2) eqn:E2; bool_inv; try lia; try done; [left|right]; split_and?; lia.
Qed.

Definition head_typed (h : ConfigHead) : Prop :=
  is_u64 (head_epoch h) = true /\ is_u64 (head_revision h) = true /\ length (head_hash h) = 32%nat.
Lemma config_sync_request_decodes net h :
  NetworkId_wf net -> head_typed h ->
  decode_config_sync_request (encode_config_sync_request net h) = Ok (net, h) /\
  length (encode_config_sync_request net h) = CONFIG_SYNC_REQUEST_LEN.
Proof.
  destruct net as [net], h as [ep rev hash]; intros Hn (He & Hr & Hh); unfold NetworkId_wf in *; cbn in Hn, He, Hr, Hh.
  unfold decode_config_sync_request, encode_config_sync_request; cbn [NetworkId_as_bytes head_epoch head_revision head_hash]; split.
  - eapply run_steps; parse.
  - by rewrite !length_app, !length_to_be, Hn, Hh.
Qed.

(** ** The store of opaque records *)
Inductive PresenceEvent : Type :=
| PublishAt (peer : EndpointId) (epoch : Z) (opaque_key : bytes) (expires_at_ms : Z) (record : bytes) (now_ms : Z)
| QueryAt (peer : EndpointId) (epoch : Z) (opaque_key : bytes) (now_ms : Z).
Definition event_time (ev : PresenceEvent) : Z :=
  match ev with PublishAt _ _ _ _ _ now => now | QueryAt _ _ _ now => now end.
Definition store_step (s : MemoryOpaquePresenceStore) (ev : PresenceEvent) : MemoryOpaquePresenceStore :=
  match ev with
  | PublishAt peer epoch key expires record now => (PresenceStore_publish s peer epoch key expires record now).1
  | QueryAt peer epoch key now => (PresenceStore_query s peer epoch key now).1
  end.
Definition store_run : MemoryOpaquePresenceStore -> list PresenceEvent -> MemoryOpaquePresenceStore := foldl store_step.

Lemma retain_live_Some now m k v : retain_live now m !! k = Some v <-> m !! k = Some v /\ now < sp_expires_at_ms v.
Proof. unfold retain_live; rewrite map_lookup_filter_Some; done. Qed.
Lemma retain_live_size now m : (size (retain_live now m) <= size m)%nat.
Proof. unfold retain_live; apply map_size_filter. Qed.

(** The outcomes of [publish]. *)
Inductive publish_outcome (s : MemoryOpaquePresenceStore) peer (key : Z * bytes) expires (record : bytes) now
    : MemoryOpaquePresenceStore * result bytes unit -> Prop :=
| po_invalid e :
    ~ (record <> [] /\ len record <= MAX_PRESENCE_RECORD_BYTES /\ now < expires <= now + MAX_PRESENCE_TTL_MS) ->
    publish_outcome s peer key expires record now (s, Err e)
| po_owned v e :
    retain_live now (ps_records s) !! key = Some v -> sp_owner v <> peer ->
    publish_outcome s peer key expires record now (mkPresenceStore (ps_capacity s) (retain_live now (ps_records s)), Err e)
| po_full e :
    retain_live now (ps_records s) !! key = None -> ps_capacity s <= Z.of_nat (size (retain_live now (ps_records s))) ->
    publish_outcome s peer key expires record now (mkPresenceStore (ps_capacity s) (retain_live now (ps_records s)), Err e)
| po_stored :
    record <> [] -> len record <= MAX_PRESENCE_RECORD_BYTES -> now < expires <= now + MAX_PRESENCE_TTL_MS ->
    (forall v, retain_live now (ps_records s) !! key = Some v -> sp_owner v = peer) ->
    (retain_live now (ps_records s) !! key = None -> Z.of_nat (size (retain_live now (ps_records s))) < ps_capacity s) ->
    publish_outcome s peer key expires record now
      (mkPresenceStore (ps_capacity s) (<[key := mkStored peer expires record]> (retain_live now (ps_records s))), Ok tt).
Lemma publish_cases s peer epoch key expires record now :
  publish_outcome s peer (epoch, key) expires record now (PresenceStore_publish s peer epoch key expires record now).
Proof.
  unfold PresenceStore_publish; destruct (_ || _ || _ || _) eqn:Hv.
  - apply po_invalid; unfold saturating_sub, MAX_PRESENCE_TTL_MS in *; intros (? & ? & ?).
    rewrite bool_decide_false in Hv by done; bool_inv; destruct_or?; bool_inv; lia.
  - unfold saturating_sub in Hv; bool_inv; cbn [ps_capacity]; destruct (retain_live _ _ !! _) as [v|] eqn:Hk.
    + destruct (bool_decide (sp_owner v = peer)) eqn:Ho; bool_inv; cbn; [|by eapply po_owned].
      apply po_stored; [done|lia|unfold MAX_PRESENCE_TTL_MS in *; lia|congruence|congruence].
    + destruct (_ <=? _) eqn:Hc; bool_inv; [by apply po_full|].
      apply po_stored; [done|lia|unfold MAX_PRESENCE_TTL_MS in *; lia|congruence|lia].
Qed.

(** A live record stays as it is under whatever another endpoint does. *)
Lemma publish_keeps_live s peer epoch key expires record now k v :
  ps_records s !! k = Some v -> now < sp_expires_at_ms v -> (sp_owner v = peer -> (epoch, key) <> k) ->
  ps_records (PresenceStore_publish s peer epoch key expires record now).1 !! k = Some v.
Proof.
  intros Hk Hv Ho; assert (retain_live now (ps_records s) !! k = Some v) as Hr by by apply retain_live_Some.
  destruct (publish_cases s peer epoch key expires record now) as [| | |_ _ _ Hw _]; cbn; try done.
  rewrite lookup_insert_ne; [done|]; intros <-; by apply Ho; [apply Hw|].
Qed.
Definition store_wf (s : MemoryOpaquePresenceStore) : Prop :=
  Z.of_nat (size (ps_records s)) <= ps_capacity s /\
  map_Forall (fun _ v => 0 < len (sp_record v) <= MAX_PRESENCE_RECORD_BYTES) (ps_records s).
Lemma retain_wf now s : store_wf s -> store_wf (mkPresenceStore (ps_capacity s) (retain_live now (ps_records s))).
Proof.
  intros [Hs Hr]; pose proof (retain_live_size now (ps_records s)); split; cbn; [lia|].
  intros k v [Hk _]%retain_live_Some; by apply (Hr k).
Qed.
Lemma publish_wf s peer epoch key expires record now : store_wf s -> store_wf (PresenceStore_publish s peer epoch key expires record now).1.
Proof.
  intros Hs; pose proof (retain_wf now s Hs) as [Hl Hr].
  destruct (publish_cases s peer epoch key expires record now) as [| | |Hne Hlen _ _ Hfull]; cbn; try done.
  split; cbn in *.
  - destruct (retain_live now (ps_records s) !! (epoch, key)) as [v|] eqn:Hk.
    + by rewrite map_size_insert_Some by (by rewrite Hk).
    + rewrite map_size_insert_None by done; specialize (Hfull eq_refl); lia.
  - apply map_Forall_insert_2; [|done]; cbn; destruct record; [done|]; unfold len in *; cbn [length] in *; lia.
Qed.
Lemma store_step_wf s ev : store_wf s -> store_wf (store_step s ev).
Proof. destruct ev; cbn; [apply publish_wf | apply retain_wf]. Qed.

(** The record of the last publication of a key that the store accepted. *)
Fixpoint last_accepted (s : MemoryOpaquePresenceStore) (evs : list PresenceEvent) (k : Z * bytes) (cur : option StoredPresence)
    : option StoredPresence :=
  match evs with
  | [] => cur
  | ev :: evs =>
      last_accepted (store_step s ev) evs k
        match ev with
        | PublishAt peer epoch key expires record now =>
            if bool_decide ((epoch, key) = k) && is_ok (PresenceStore_publish s peer epoch key expires record now).2
            then Some (mkStored peer expires record) else cur
        | QueryAt _ _ _ _ => cur
        end
  end.
Definition live (now : Z) (o : option StoredPresence) : option StoredPresence :=
  v ← o; if now <? sp_expires_at_ms v then Some v else None.
Lemma retain_live_lookup now m k : retain_live now m !! k = live now (m !! k).
Proof.
  unfold live; destruct (m !! k) as [v|] eqn:Hk; cbn.
  - destruct (_ <? _) eqn:Hv; bool_inv; [by apply retain_live_Some|].
    destruct (retain_live now m !! k) eqn:Hr; [|done]; apply retain_live_Some in Hr as [? ?]; simplify_eq; lia.
  - destruct (retain_live now m !! k) eqn:Hr; [|done]; apply retain_live_Some in Hr as [? ?]; congruence.
Qed.
Lemma live_live now now' o : now <= now' -> live now' (live now o) = live now' o.
Proof.
  intros Hn; destruct o as [v|]; [|done]; unfold live; cbn; destruct (now <? _) eqn:E1; [done|].
  destruct (now' <? _) eqn:E2; [bool_inv; lia | done].
Qed.
(** [agrees t s k cur]: from [t] on the store answers for [k] what [cur] says. *)
Definition agrees (t : Z) (s : MemoryOpaquePresenceStore) (k : Z * bytes) (cur : option StoredPresence) : Prop :=
  forall now, t <= now -> live now (ps_records s !! k) = live now cur.
Lemma last_accepted_agrees evs s k cur t now :
  agrees t s k cur -> Sorted Z.le (t :: (event_time <$> evs) ++ [now]) ->
  agrees now (store_run s evs) k (last_accepted s evs k cur).
Proof.
  revert s cur t; induction evs as [|ev evs IH]; intros s cur t Ha Hs; cbn in *.
  - intros now' Hn; apply Ha; inversion Hs as [|? ? _ Hh]; inversion Hh; lia.
  - inversion Hs as [|? ? Hs' Hh]; inversion Hh as [|? ? Ht]; subst; apply (IH _ _ (event_time ev)); [|done].
    assert (Hkeep : forall now', event_time ev <= now' -> live now' (retain_live (event_time ev) (ps_records s) !! k) = live now' cur).
    { intros now' Hn; rewrite retain_live_lookup, live_live by lia; apply Ha; lia. }
    intros now' Hn; destruct ev as [peer epoch key expires record at_|peer epoch key at_]; cbn in *; [|by apply Hkeep].
    destruct (publish_cases s peer epoch key expires record at_); cbn; rewrite ?andb_false_r, ?andb_true_r; try by auto.
    + apply Ha; lia.
    + case_bool_decide as Hk; [subst k; by rewrite lookup_insert_eq | rewrite lookup_insert_ne by done; by apply Hkeep].
Qed.

(** ** A client and a service *)
Lemma read_exact_app x s : read_exact (length x) (x ++ s) = Some (x, s).
Proof. unfold read_exact; rewrite length_app, (proj2 (Nat.leb_le _ _)) by lia; by rewrite take_app_length, drop_app_length. Qed.
Lemma read_exact_app' n x s : length x = n -> read_exact n (x ++ s) = Some (x, s).
Proof. intros <-; apply read_exact_app. Qed.

Section service.
Context {S : Type} `{!OpaquePresenceStore S}.
Implicit Types (store : S).

(** The service at the endpoint [server]: dialling it runs its handler on what is sent. *)
Definition presence_service store (net : NetworkId) (server me : EndpointId) (now sent_at : Z) : Transport := fun addr alpn sent =>
  if bool_decide (addr.1 = server) && bool_decide (alpn = presence_alpn net)
  then Some (mkConnection server (Arrived (handle_presence_connection store net me sent now sent_at).2)) else None.

(** The bytes a client sends. *)
Definition sent_bytes (net : NetworkId) (operation epoch : Z) (key : bytes) (expires : Z) (body : bytes) : bytes :=
  PRESENCE_REQUEST_MAGIC ++ NetworkId_as_bytes net ++ to_be 1 operation ++ to_be 8 epoch ++ key ++ to_be 8 expires
    ++ to_be 4 (len body) ++ body.
(** How the service answers a request, from what the store says. *)
Definition response_bytes (operation : Z) (r : result bytes (option bytes)) (sent_at : Z) : bytes :=
  let '(status, body) := match r with
    | Ok (Some bs) => (PRESENCE_RESPONSE_OK, bs)
    | Ok None => if operation =? PRESENCE_OP_QUERY then (PRESENCE_RESPONSE_NOT_FOUND, []) else (PRESENCE_RESPONSE_OK, [])
    | Err _ => (PRESENCE_RESPONSE_REJECTED, [])
    end in
  to_be 1 status ++ to_be 8 sent_at ++ to_be 4 (len body) ++ body.

Lemma handle_request store net me operation epoch key expires body now sent_at :
  let q := mkPresenceRequest net operation epoch key expires (len body) in
  presence_request_typed q -> presence_request_valid q ->
  handle_presence_connection store net me (sent_bytes net operation epoch key expires body) now sent_at =
  (let '(store', r) := serve_presence store net me (Some q) body now in (store', response_bytes operation r sent_at)).
Proof.
  intros q Ht Hv; unfold handle_presence_connection, sent_bytes.
  set (header := PRESENCE_REQUEST_MAGIC ++ NetworkId_as_bytes net ++ to_be 1 operation ++ to_be 8 epoch ++ key ++ to_be 8 expires
                   ++ to_be 4 (len body)).
  destruct (presence_request_decodes q header Ht Hv) as (Hd & Hl & Ho).
  { unfold encode_presence_request; cbn; destruct Hv as [(_ & Hb & _)|(_ & Hb)]; cbn in Hb.
    all: apply bind_Ok; exists tt; split; [apply fail_if_Ok; unfold in_range; passes | done]. }
  replace (PRESENCE_REQUEST_MAGIC ++ _) with (header ++ body) by (unfold header; by rewrite <- !app_assoc).
  rewrite (read_exact_app' _ _ _ Hl), <- Hl, drop_app_length; cbn [mbind option_bind]; unfold parsed; rewrite Hd.
  destruct (serve_presence _ _ _ _ _ _) as [store' r]; unfold response_bytes; rewrite Ho; cbn [pq_operation].
  destruct r as [[bs|]|]; try done; destruct (operation =? 2) eqn:Hop; bool_inv.
  - by rewrite bool_decide_true by by subst.
  - by rewrite bool_decide_false by (intros [= ?]; lia).
Qed.
End service.

Lemma read_response status at_ body :
  is_u8 status = true -> len body <= MAX_PRESENCE_RECORD_BYTES ->
  read_reply PRESENCE_RESPONSE_HEADER_LEN (Arrived (to_be 1 status ++ to_be 8 at_ ++ to_be 4 (len body) ++ body)) =
    Ok (to_be 1 status ++ to_be 8 at_ ++ to_be 4 (len body), body) /\
  from_be (take 1 (to_be 1 status ++ to_be 8 at_ ++ to_be 4 (len body))) = status /\
  from_be (drop 9 (to_be 1 status ++ to_be 8 at_ ++ to_be 4 (len body))) = len body.
Proof.
  intros Hs Hb; unfold in_range in Hs; bool_inv; split_and!.
  - cbn [read_reply]; rewrite (app_assoc (to_be 8 at_)), (app_assoc (to_be 1 status)).
    rewrite (read_exact_app' 13 (to_be 1 status ++ (to_be 8 at_ ++ to_be 4 (len body))) body)
      by (rewrite !length_app, !length_to_be; done); done.
  - rewrite take_app_length' by (by rewrite length_to_be); rewrite from_to_be, Z.mod_small; [done | lia].
  - rewrite app_assoc, drop_app_length' by (rewrite length_app, !length_to_be; done).
    rewrite from_to_be, Z.mod_small; [done | unfold len in *; lia].
Qed.
Lemma presence_request_reply dialer tr target op epoch key expires body r at_ :
  cp_network_id target = dl_network_id dialer -> len body <= MAX_PRESENCE_RECORD_BYTES ->
  tr (ConfigPeer_endpoint_addr target) (presence_alpn (dl_network_id dialer)) (sent_bytes (dl_network_id dialer) op epoch key expires body)
    = Some (mkConnection (cp_endpoint_id target) (Arrived (response_bytes op r at_))) ->
  (forall bs, r = Ok (Some bs) -> 0 < len bs <= MAX_PRESENCE_RECORD_BYTES /\ op = PRESENCE_OP_QUERY) ->
  presence_request dialer tr target op epoch key expires body = match r with Ok x => Ok x | Err _ => Err PresenceRejected end.
Proof.
  intros Hn Hb Ht Hr; unfold presence_request; rewrite Hn, !bool_decide_true by done.
  rewrite (proj2 (Z.ltb_ge _ _)) by done; cbn [fail_if negb mbind result_bind].
  unfold encode_presence_request; replace (is_u32 (len body)) with true by (symmetry; unfold in_range, len in *; passes).
  cbn [fail_if negb mbind result_bind]; rewrite <- !app_assoc; unfold sent_bytes in Ht; rewrite Ht; cbn [ok_or mbind result_bind conn_remote_id].
  rewrite bool_decide_true by done; cbn [fail_if negb mbind result_bind conn_incoming].
  unfold response_bytes; destruct r as [[bs|]|e].
  - destruct (Hr bs eq_refl) as [Hl ->]; destruct (read_response 0 at_ bs eq_refl ltac:(lia)) as (-> & H1 & H2).
    cbn [mbind result_bind fst snd]; rewrite H1, H2, (proj2 (Z.ltb_ge _ _)) by lia; cbn [fail_if negb mbind result_bind Z.eqb andb].
    cbn [read_reply]; unfold len; rewrite Nat2Z.id; pose proof (read_exact_app bs []) as Hx; rewrite app_nil_r in Hx; rewrite Hx; cbn.
    by rewrite (proj2 (Z.eqb_neq _ _)) by (unfold len in *; lia).
  - destruct (op =? 2) eqn:Ho.
    + destruct (read_response 1 at_ [] eq_refl ltac:(unfold len; cbn; lia)) as (-> & H1 & H2); cbn [mbind result_bind fst snd]; rewrite H1, H2.
      done.
    + destruct (read_response 0 at_ [] eq_refl ltac:(unfold len; cbn; lia)) as (-> & H1 & H2); cbn [mbind result_bind fst snd]; rewrite H1, H2.
      cbn; by rewrite andb_false_r.
  - destruct (read_response 2 at_ [] eq_refl ltac:(unfold len; cbn; lia)) as (-> & H1 & H2); cbn [mbind result_bind fst snd]; rewrite H1, H2; done.
Qed.

(** ** The service over time *)
Record ServiceRequest : Type := mkServiceRequest {
  sr_peer : EndpointId; sr_incoming : bytes; sr_now : Z; sr_sent_at : Z }.
Definition service_step (net : NetworkId) (s : MemoryOpaquePresenceStore) (r : ServiceRequest) : MemoryOpaquePresenceStore :=
  (handle_presence_connection s net (sr_peer r) (sr_incoming r) (sr_now r) (sr_sent_at r)).1.
Definition service_run (net : NetworkId) : MemoryOpaquePresenceStore -> list ServiceRequest -> MemoryOpaquePresenceStore :=
  foldl (service_step net).
(** The epoch and key a request asks to publish under, when it asks for a publication. *)
Definition published_key (incoming : bytes) : option (Z * bytes) :=
  '(header, _) ← read_exact PRESENCE_REQUEST_HEADER_LEN incoming;
  request ← parsed decode_presence_request header;
  if pq_operation request =? PRESENCE_OP_PUBLISH then Some (pq_epoch request, pq_opaque_key request) else None.
(** What a request can do to the store. *)
Inductive service_effect (s : MemoryOpaquePresenceStore) (r : ServiceRequest) : MemoryOpaquePresenceStore -> Prop :=
| se_none : service_effect s r s
| se_query epoch key : service_effect s r (PresenceStore_query s (sr_peer r) epoch key (sr_now r)).1
| se_publish p expires bs :
    Presence_from_bytes bs = Ok p -> published_key (sr_incoming r) = Some (ep_epoch p, ep_opaque_key p) ->
    service_effect s r (PresenceStore_publish s (sr_peer r) (ep_epoch p) (ep_opaque_key p) expires bs (sr_now r)).1.
Lemma service_step_effect net s r : service_effect s r (service_step net s r).
Proof.
  unfold service_step, handle_presence_connection.
  match goal with |- context [serve_presence ?a ?b ?c ?q ?d ?e] => set (request := q) end.
  assert (Hkey : forall q, request = Some q -> (pq_operation q =? PRESENCE_OP_PUBLISH) = true ->
    published_key (sr_incoming r) = Some (pq_epoch q, pq_opaque_key q)).
  { intros q Hq Ho; unfold published_key; subst request; destruct (read_exact _ _) as [[header ?]|]; cbn in *; [|done].
    by rewrite Hq; cbn; rewrite Ho. }
  enough (forall body, service_effect s r (serve_presence s net (sr_peer r) request body (sr_now r)).1) as Hs.
  { specialize (Hs (drop 93 (sr_incoming r))); destruct (serve_presence _ _ _ _ _ _) as [s' res]; cbn [fst] in *.
    destruct res as [[bs|]|]; try case_match; exact Hs. }
  intros body; unfold serve_presence; destruct request as [q|]; [specialize (Hkey q eq_refl)|apply se_none].
  case_bool_decide; [|apply se_none]; destruct (_ =? _) eqn:Ho.
  - destruct (read_exact _ body) as [[bs rest]|]; [|apply se_none].
    destruct (Presence_from_bytes bs) as [p|] eqn:Hp; [|apply se_none].
    destruct (_ && _) eqn:Hk; [|apply se_none]; apply andb_true_iff in Hk as [He%Z.eqb_eq Hk%bool_decide_eq_true].
    specialize (Hkey eq_refl); cbn [publish memory_presence_store]; rewrite <- He, <- Hk in *.
    pose proof (se_publish s r p (pq_expires_at_ms q) bs Hp Hkey) as Hse; destruct (PresenceStore_publish _ _ _ _ _ _ _) as [s' res]; exact Hse.
  - cbn [query memory_presence_store]; apply (se_query s r (pq_epoch q) (pq_opaque_key q)).
Qed.
(** Every record of the store is a sealed presence record filed under its own key. *)
Definition records_parse (s : MemoryOpaquePresenceStore) : Prop :=
  map_Forall (fun k v => exists p, Presence_from_bytes (sp_record v) = Ok p /\ k = (ep_epoch p, ep_opaque_key p)) (ps_records s).
Lemma service_step_parse net s r : records_parse s -> records_parse (service_step net s r).
Proof.
  intros Hs; assert (Hret : forall now, records_parse (mkPresenceStore (ps_capacity s) (retain_live now (ps_records s)))).
  { intros now k v [Hk _]%retain_live_Some; by apply (Hs k). }
  destruct (service_step_effect net s r) as [|epoch key|p expires bs Hp _]; [done | apply Hret|].
  destruct (publish_cases s (sr_peer r) (ep_epoch p) (ep_opaque_key p) expires bs (sr_now r)); try done; cbn; try apply Hret.
  apply map_Forall_insert_2; [by exists p | apply Hret].
Qed.
Lemma service_run_parse net s rs : records_parse s -> records_parse (service_run net s rs).
Proof. revert s; induction rs as [|r rs IH]; intros s Hs; [done|]; by apply IH, service_step_parse. Qed.
Lemma service_run_keeps net s rs k v :
  ps_records s !! k = Some v -> 
  Forall (fun r => (sr_peer r = sp_owner v -> published_key (sr_incoming r) <> Some k) /\ sr_now r < sp_expires_at_ms v) rs ->
  ps_records (service_run net s rs) !! k = Some v.
Proof.
  revert s; induction rs as [|r rs IH]; intros s Hk; [done|]; inversion 1 as [|? ? [Hp Hn] Hrs]; subst; cbn; apply IH; [|done].
  destruct (service_step_effect net s r) as [|epoch key|p expires bs _ Hkey]; [done| |].
  - by apply retain_live_Some.
  - apply publish_keeps_live; [done..|]; intros Ho Hk'; apply (Hp (eq_sym Ho)); by rewrite <- Hk'.
Qed.

Section exchange.
Context {S : Type} `{!OpaquePresenceStore S}.
Context (store : S) (dialer : WeaverDialer) (target : ConfigPeerDescriptor) (me : EndpointId) (now sent_at : Z).
Context (Hnet : NetworkId_wf (dl_network_id dialer)) (Htarget : cp_network_id target = dl_network_id dialer).
#[local] Abbreviation net := (dl_network_id dialer).
#[local] Abbreviation service := (presence_service store net (cp_endpoint_id target) me now sent_at).

Lemma service_dials sent :
  service (ConfigPeer_endpoint_addr target) (presence_alpn net) sent =
  Some (mkConnection (cp_endpoint_id target) (Arrived (handle_presence_connection store net me sent now sent_at).2)).
Proof. unfold presence_service; by rewrite !bool_decide_true. Qed.

(** A publication reaches the store as it is, and its verdict reaches the client. *)
Lemma publish_over_wire record bs expires :
  sealed_typed record -> Presence_to_bytes record = Ok bs -> len bs <= MAX_PRESENCE_RECORD_BYTES -> is_u64 expires = true ->
  (handle_presence_connection store net me (sent_bytes net PRESENCE_OP_PUBLISH (ep_epoch record) (ep_opaque_key record) expires bs) now sent_at).1
    = (publish store me (ep_epoch record) (ep_opaque_key record) expires bs now).1 /\
  publish_presence dialer service target record expires =
    match (publish store me (ep_epoch record) (ep_opaque_key record) expires bs now).2 with Ok _ => Ok tt | Err _ => Err PresenceRejected end.
Proof.
  intros Ht Hb Hl Hx; pose proof (sealed_parses _ _ Ht Hb Hl) as Hp; pose proof (sealed_length _ _ Ht Hb) as Hlen.
  destruct Ht as (He & Hk & _); unfold PRESENCE_OVERHEAD in Hlen.
  assert (Hpos : 0 < len bs) by (unfold len in *; lia).
  pose proof (handle_request store net me PRESENCE_OP_PUBLISH (ep_epoch record) (ep_opaque_key record) expires bs now sent_at) as Hh.
  cbv zeta in Hh; specialize (Hh (conj Hnet (conj He (conj Hk Hx))) (or_intror (conj eq_refl (conj Hpos Hl)))).
  assert (Hserve : serve_presence store net me (Some (mkPresenceRequest net PRESENCE_OP_PUBLISH (ep_epoch record) (ep_opaque_key record) expires (len bs))) bs now
    = ((publish store me (ep_epoch record) (ep_opaque_key record) expires bs now).1,
       match (publish store me (ep_epoch record) (ep_opaque_key record) expires bs now).2 with Ok _ => Ok None | Err e => Err e end)).
  { cbn [serve_presence pq_network_id pq_operation pq_body_len pq_epoch pq_opaque_key pq_expires_at_ms].
    rewrite bool_decide_true by done; cbn [Z.eqb Pos.eqb]; unfold len; rewrite Nat2Z.id.
    pose proof (read_exact_app bs []) as Hx'; rewrite app_nil_r in Hx'; rewrite Hx', Hp.
    rewrite Z.eqb_refl, bool_decide_true by done; cbn [andb]; by destruct (publish _ _ _ _ _ _ _). }
  rewrite Hserve in Hh; split; [by rewrite Hh|].
  unfold publish_presence; rewrite Hb; cbn [map_err mbind result_bind].
  erewrite presence_request_reply; [|done|done|rewrite service_dials, Hh; reflexivity|].
  - by destruct (publish _ _ _ _ _ _ _).2.
  - intros bs'; by destruct (publish _ _ _ _ _ _ _).2.
Qed.

(** A query returns the record the store holds under the key. *)
Lemma query_over_wire epoch key expires bs p :
  is_u64 epoch = true -> length key = 24%nat ->
  (query store me epoch key now).2 = Ok (Some (expires, bs)) -> Presence_from_bytes bs = Ok p -> ep_epoch p = epoch -> ep_opaque_key p = key ->
  query_presence dialer service target epoch key = Ok (Some p).
Proof.
  intros He Hk Hq Hp Hpe Hpk; unfold query_presence.
  pose proof (handle_request store net me PRESENCE_OP_QUERY epoch key 0 [] now sent_at) as Hh.
  cbv zeta in Hh; specialize (Hh (conj Hnet (conj He (conj Hk eq_refl))) (or_introl (conj eq_refl (conj eq_refl eq_refl)))).
  assert (Hserve : serve_presence store net me (Some (mkPresenceRequest net PRESENCE_OP_QUERY epoch key 0 (len (@nil Byte.byte)))) [] now
    = ((query store me epoch key now).1, Ok (Some bs))).
  { cbn [serve_presence pq_network_id pq_operation pq_body_len pq_epoch pq_opaque_key pq_expires_at_ms].
    rewrite bool_decide_true by done; cbn [Z.eqb Pos.eqb]; destruct (query _ _ _ _ _) as [s' r]; cbn in *; by subst r. }
  pose proof (sealed_canonical _ _ Hp) as [Ht Hb]; pose proof (sealed_length _ _ Ht Hb) as Hlen.
  assert (Hl : len bs <= MAX_PRESENCE_RECORD_BYTES).
  { unfold Presence_from_bytes in Hp; apply bind_Ok in Hp as (u & Hf%fail_if_Ok & _); bool_inv; done. }
  rewrite Hserve in Hh; erewrite presence_request_reply;
    [|done|unfold len; cbn; lia|rewrite service_dials, Hh; reflexivity|].
  - cbn [mbind result_bind]; rewrite Hp; cbn [map_err mbind result_bind].
    rewrite Hpe, Z.eqb_refl, bool_decide_true by done; done.
  - intros bs' [= <-]; unfold PRESENCE_OVERHEAD, len in *; split; [lia | done].
Qed.
End exchange.

(** ** The configuration sync exchange *)
Section config_exchange.
Context `{Ed25519} `{Blake3} {S : Type} `{!ConfigUpdateSource S}.
Context (source : S) (dialer : WeaverDialer) (target : ConfigPeerDescriptor) (me : EndpointId).

Definition config_service : Transport := fun addr alpn sent =>
  if bool_decide (addr.1 = cp_endpoint_id target) && bool_decide (alpn = config_sync_alpn (cp_network_id target))
  then Some (mkConnection (cp_endpoint_id target) (Arrived (handle_config_sync_connection source (cp_network_id target) me sent))) else None.
(** What the peer is entitled to: the batch of the source, if it answers the request and fits. *)
Definition offered (head : ConfigHead) : result NetworkError ConfigUpdateBatch :=
  updates ← map_err (fun _ => ConfigSyncRejected) (source_updates_after source me head);
  wire ← map_err (fun _ => ConfigSyncRejected) (Batch_to_bytes updates);
  fail_if (negb (bool_decide (ub_network_id updates = cp_network_id target)) || negb (bool_decide (ub_base_head updates = head))
           || (MAX_CONFIG_SYNC_RESPONSE <? len wire)) ConfigSyncRejected;;
  Ok updates.

Lemma read_config_header status n body :
  is_u8 status = true -> is_u32 n = true ->
  read_reply 5 (Arrived (to_be 1 status ++ to_be 4 n ++ body)) = Ok (to_be 1 status ++ to_be 4 n, body) /\
  from_be (take 1 (to_be 1 status ++ to_be 4 n)) = status /\ from_be (drop 1 (to_be 1 status ++ to_be 4 n)) = n.
Proof.
  intros Hs Hn; unfold in_range in *; bool_inv; split_and!.
  - cbn [read_reply]; rewrite app_assoc, (read_exact_app' 5 (to_be 1 status ++ to_be 4 n)) by (rewrite length_app, !length_to_be; done); done.
  - rewrite take_app_length' by (by rewrite length_to_be); rewrite from_to_be, Z.mod_small; [done|lia].
  - rewrite drop_app_length' by (by rewrite length_to_be); rewrite from_to_be, Z.mod_small; [done|lia].
Qed.
Lemma handle_config_request head :
  NetworkId_wf (cp_network_id target) -> head_typed head ->
  handle_config_sync_connection source (cp_network_id target) me (encode_config_sync_request (cp_network_id target) head) =
  match offered head with
  | Ok updates => let wire := ok_else [] (Batch_to_bytes updates) in to_be 1 CONFIG_SYNC_RESPONSE_OK ++ to_be 4 (len wire) ++ wire
  | Err _ => to_be 1 CONFIG_SYNC_RESPONSE_REJECTED ++ to_be 4 0
  end.
Proof.
  intros Hn Hh; destruct (config_sync_request_decodes _ _ Hn Hh) as [Hd Hl]; unfold handle_config_sync_connection, offered.
  pose proof (read_exact_app' _ _ [] Hl) as Hr; rewrite app_nil_r in Hr; rewrite Hr; cbn [ok_or mbind result_bind fst].
  rewrite Hd; cbn [map_err mbind result_bind fst snd]; rewrite bool_decide_true by done; cbn [negb fail_if mbind result_bind].
  destruct (source_updates_after source me head) as [u|]; [|done]; cbn [map_err mbind result_bind].
  destruct (Batch_to_bytes u) as [wire|e] eqn:Hw; cbn [map_err mbind result_bind].
  - destruct (negb _ || negb _) eqn:Hm; cbn [fail_if mbind result_bind orb]; [done|].
    rewrite Z.ltb_antisym; destruct (len wire <=? _) eqn:Hlen; cbn [fail_if mbind result_bind negb orb]; [|done].
    by rewrite Hw.
  - by destruct (negb _ || negb _).
Qed.

Lemma offered_Ok head u :
  offered head = Ok u ->
  batch_ok u /\ ub_network_id u = cp_network_id target /\ ub_base_head u = head /\ len (batch_bytes u) <= MAX_CONFIG_SYNC_RESPONSE.
Proof.
  unfold offered; intros (u' & _ & Ho)%bind_Ok; apply bind_Ok in Ho as (wire & Hw%map_err_Ok & Ho).
  apply bind_Ok in Ho as (t & Hf%fail_if_Ok & <-%Ok_inj); bool_inv; apply Batch_to_bytes_Ok in Hw as [? ->]; done.
Qed.
Lemma offered_Err head e : offered head = Err e -> e = ConfigSyncRejected.
Proof.
  unfold offered; intros [He|(u & _ & Ho)]%bind_Err; [by apply map_err_Err in He as (? & _ & ->)|].
  apply bind_Err in Ho as [He|(w & _ & Ho)]; [by apply map_err_Err in He as (? & _ & ->)|].
  apply bind_Err in Ho as [[_ ->]%fail_if_Err|(t & _ & ?)]; done.
Qed.
Lemma fetch_over_wire head :
  cp_network_id target = dl_network_id dialer -> NetworkId_wf (cp_network_id target) -> head_typed head ->
  fetch_config_updates dialer config_service target head = offered head.
Proof.
  intros Hnet Hn Hh; unfold fetch_config_updates; rewrite <- Hnet, bool_decide_true by done; cbn [negb fail_if mbind result_bind].
  unfold config_service at 1; rewrite !bool_decide_true by done; cbn [andb ok_or mbind result_bind conn_remote_id conn_incoming].
  rewrite bool_decide_true by done; cbn [negb fail_if mbind result_bind]; rewrite handle_config_request by done.
  destruct (offered head) as [u|e] eqn:Ho.
  - apply offered_Ok in Ho as (Hok & Hun & Hub & Hlen); rewrite (proj2 (Batch_to_bytes_Ok u _) (conj Hok eq_refl)); cbn [ok_else].
    destruct (read_config_header 0 (len (batch_bytes u)) (batch_bytes u)) as (-> & Hs & Hl); [done|unfold in_range, len in *; passes|].
    cbn [mbind result_bind fst snd]; rewrite Hs, Hl; cbn [Z.eqb negb fail_if mbind result_bind].
    rewrite (proj2 (Z.ltb_ge _ _)) by done; cbn [fail_if mbind result_bind read_reply]; unfold len; rewrite Nat2Z.id.
    pose proof (read_exact_app (batch_bytes u) []) as Hr; rewrite app_nil_r in Hr; rewrite Hr; cbn [ok_or mbind result_bind fst].
    rewrite Batch_wire_forward; [|constructor; destruct Hh as (? & ? & ?); congruence|done|done].
    cbn [map_err mbind result_bind]; rewrite !bool_decide_true by done; done.
  - destruct (read_config_header 1 0 []) as (Hr & Hs & Hl); [done|done|]; rewrite app_nil_r in Hr; rewrite Hr.
    cbn [mbind result_bind fst snd]; rewrite Hs; cbn; by rewrite (offered_Err _ _ Ho).
Qed.
End config_exchange.

(** ** Theorems *)
(** C25: a record published to the presence service is found.  The service has handled any
    requests, of any bytes, from any endpoints.  When a publication then succeeds, a query
    under its key, before the record expires, returns exactly the published record, through
    the wire formats of both sides, whatever the other endpoints have sent since then, and
    whatever the publisher itself has sent short of a new publication under that key. *)
Theorem published_presence_is_found (capacity : Z) (before after : list ServiceRequest) (publisher reader : WeaverDialer)
    (target : ConfigPeerDescriptor) (record : EncryptedPresenceRecord) (bs : bytes) (expires now sent_at now' sent_at' : Z) :
  let net := cp_network_id target in
  let me := dl_endpoint_id publisher in
  let store := service_run net (mkPresenceStore capacity ∅) before in
  let request := mkServiceRequest me (sent_bytes net PRESENCE_OP_PUBLISH (ep_epoch record) (ep_opaque_key record) expires bs) now sent_at in
  let store' := service_run net (service_step net store request) after in
  NetworkId_wf net -> dl_network_id publisher = net -> dl_network_id reader = net ->
  sealed_typed record -> is_u64 expires = true -> Presence_to_bytes record = Ok bs ->
  publish_presence publisher (presence_service store net (cp_endpoint_id target) me now sent_at) target record expires = Ok tt ->
  Forall (fun r => (sr_peer r = me -> published_key (sr_incoming r) <> Some (ep_epoch record, ep_opaque_key record)) /\
                   sr_now r < expires) after -> now' < expires ->
  query_presence reader (presence_service store' net (cp_endpoint_id target) (dl_endpoint_id reader) now' sent_at')
    target (ep_epoch record) (ep_opaque_key record) = Ok (Some record).
Proof.
  intros net me store request store' Hn Hp Hr Ht Hx Hb Hpub Hafter Hlive.
  assert (Hl : len bs <= MAX_PRESENCE_RECORD_BYTES).
  { unfold publish_presence in Hpub; rewrite Hb in Hpub; cbn [map_err mbind result_bind] in Hpub.
    apply bind_Ok in Hpub as (o & Hq & _); unfold presence_request in Hq; res_inv; bool_inv; done. }
  destruct (publish_over_wire store publisher target me now sent_at ltac:(by rewrite Hp) (eq_sym Hp) record bs expires Ht Hb Hl Hx)
    as [Hstep Hres]; rewrite Hp in Hstep, Hres; rewrite Hres in Hpub.
  assert (Hk : ps_records store' !! (ep_epoch record, ep_opaque_key record) = Some (mkStored me expires bs)).
  { apply service_run_keeps; [|done]; unfold service_step; cbn [sr_peer sr_incoming sr_now sr_sent_at request]; rewrite Hstep.
    cbn [publish memory_presence_store] in *.
    destruct (publish_cases store me (ep_epoch record) (ep_opaque_key record) expires bs now); try done; cbn; by rewrite lookup_insert_eq. }
  destruct Ht as (He & Hkl & Hnl).
  pose proof (query_over_wire store' reader target (dl_endpoint_id reader) now' sent_at' ltac:(by rewrite Hr) (eq_sym Hr)
    (ep_epoch record) (ep_opaque_key record) expires bs record) as Hq; rewrite Hr in Hq; apply Hq; try done.
  - cbn [query memory_presence_store PresenceStore_query snd ps_records].
    by rewrite (proj2 (retain_live_Some now' _ _ _) (conj Hk Hlive)).
  - by apply sealed_parses.
Qed.

(** C31: the store of opaque records answers exactly.  Over any sequence of publications
    and queries with times that do not decrease, a query returns the record of the last
    publication of its key that was accepted, if it has not expired, and nothing
    otherwise; the store never holds more records than its capacity. *)
Theorem presence_store_exact (capacity : Z) (evs : list PresenceEvent) (peer : EndpointId) (epoch : Z) (key : bytes) (t now : Z) :
  0 < capacity -> Sorted Z.le (t :: (event_time <$> evs) ++ [now]) ->
  let empty := mkPresenceStore capacity ∅ in
  PresenceStore_new capacity = Some empty /\
  (PresenceStore_query (store_run empty evs) peer epoch key now).2 =
    Ok ((fun v => (sp_expires_at_ms v, sp_record v)) <$> live now (last_accepted empty evs (epoch, key) None)) /\
  Z.of_nat (size (ps_records (store_run empty evs))) <= capacity.
Proof.
  intros Hc Hs empty; split_and!.
  - unfold PresenceStore_new; by rewrite (proj2 (Z.ltb_lt _ _)).
  - cbn [PresenceStore_query snd]; rewrite retain_live_lookup; do 2 f_equal.
    apply (last_accepted_agrees evs empty (epoch, key) None t now); [|done|lia]; intros ? _; cbn; by rewrite lookup_empty.
  - enough (forall s, store_wf s -> store_wf (store_run s evs) /\ ps_capacity (store_run s evs) = ps_capacity s) as Hw.
    { destruct (Hw empty) as [[Hsz _] Hcap]; [split; [unfold empty; cbn [ps_records ps_capacity]; rewrite map_size_empty; lia | by apply map_Forall_empty]|]; by rewrite Hcap in Hsz. }
    clear; induction evs as [|ev evs IH]; intros s Hs; [done|]; cbn.
    destruct (IH (store_step s ev) (store_step_wf s ev Hs)) as [? ->]; split; [done|].
    destruct ev; cbn; [|done]; by destruct (publish_cases s peer epoch opaque_key expires_at_ms record now_ms).
Qed.

(** Configuration sync over the network returns what the peer serves: whatever the
    source behind it, a fetch yields the source's batch for the requested head when the
    batch answers the request and fits a response, and is rejected otherwise. *)
Theorem config_sync_faithful `{Ed25519} `{Blake3} {S : Type} `{!ConfigUpdateSource S} (source : S) (dialer : WeaverDialer)
    (target : ConfigPeerDescriptor) (head : ConfigHead) :
  cp_network_id target = dl_network_id dialer -> NetworkId_wf (cp_network_id target) -> head_typed head ->
  fetch_config_updates dialer (config_service source target (dl_endpoint_id dialer)) target head =
  offered source target (dl_endpoint_id dialer) head.
Proof. apply fetch_over_wire. Qed.

(** ** Examples *)
Module NetProtocolWitness.
Import PresenceWitness.
Definition reader_id : EndpointId := mkEndpointId (repeat Byte.x21 32).
Definition server_id : EndpointId := mkEndpointId (repeat Byte.x22 32).
Definition publisher : WeaverDialer := mkDialer endpoint toy_network ∅.
Definition reader : WeaverDialer := mkDialer reader_id toy_network ∅.
Definition target : ConfigPeerDescriptor := mkConfigPeer toy_network server_id None [].
Definition wire : bytes := Eval vm_compute in ok_else [] (Presence_to_bytes sealed).
(** After the publication: garbage of another endpoint, an attempt of that endpoint to
    replace the record, and a query of the publisher itself. *)
Definition noise : list ServiceRequest := [
  mkServiceRequest reader_id (bstr "garbage") 330 330;
  mkServiceRequest reader_id (sent_bytes toy_network PRESENCE_OP_PUBLISH (ep_epoch sealed) (ep_opaque_key sealed) 460 wire) 340 340;
  mkServiceRequest endpoint (sent_bytes toy_network PRESENCE_OP_QUERY (ep_epoch sealed) (ep_opaque_key sealed) 0 []) 350 350].

Lemma wire_ok : Presence_to_bytes sealed = Ok wire.
Proof. vm_compute; reflexivity. Qed.
Lemma sealed_has_type : sealed_typed sealed.
Proof. repeat split; vm_compute; reflexivity. Qed.
Lemma published :
  publish_presence publisher (presence_service (mkPresenceStore 4 ∅) toy_network server_id endpoint 320 320) target sealed 450 = Ok tt.
Proof.
  assert (Hl : len wire <= MAX_PRESENCE_RECORD_BYTES) by (vm_compute; discriminate).
  destruct (publish_over_wire (mkPresenceStore 4 ∅) publisher target endpoint 320 320 eq_refl eq_refl sealed wire 450
    sealed_has_type wire_ok Hl eq_refl) as [_ Hp].
  etransitivity; [exact Hp|]; cbn [publish memory_presence_store].
  destruct (publish_cases (mkPresenceStore 4 ∅) endpoint (ep_epoch sealed) (ep_opaque_key sealed) 450 wire 320)
    as [e Hv|v e [Hv _]%retain_live_Some|e _ Hv|]; [|cbn [ps_records] in Hv; by rewrite lookup_empty in Hv| |done].
  - exfalso; apply Hv; split_and!; [discriminate | exact Hl | lia | vm_compute; discriminate].
  - exfalso; pose proof (retain_live_size 320 ∅) as Hs; rewrite map_size_empty in Hs; cbn [ps_capacity ps_records] in Hv; lia.
Qed.
Lemma published_presence_is_found_witness :
  query_presence reader (presence_service
      (service_run toy_network (service_step toy_network (mkPresenceStore 4 ∅)
         (mkServiceRequest endpoint (sent_bytes toy_network 1 (ep_epoch sealed) (ep_opaque_key sealed) 450 wire) 320 320)) noise)
      toy_network server_id reader_id 440 440) target (ep_epoch sealed) (ep_opaque_key sealed) = Ok (Some sealed).
Proof.
  apply (published_presence_is_found 4 [] noise publisher reader target sealed wire 450 320 320 440 440);
    [done | done | done | exact sealed_has_type | done | exact wire_ok | exact published | | lia].
  repeat constructor; try (cbn; lia); intros Hpeer; try discriminate Hpeer; vm_compute; discriminate.
Defined.

Definition events : list PresenceEvent := [PublishAt endpoint 1 [] 450 wire 320; QueryAt reader_id 1 [] 330].
Lemma presence_store_exact_witness :
  let empty := mkPresenceStore 1 ∅ in
  PresenceStore_new 1 = Some empty /\
  (PresenceStore_query (store_run empty events) reader_id 1 [] 340).2 =
    Ok ((fun v => (sp_expires_at_ms v, sp_record v)) <$> live 340 (last_accepted empty events (1, []) None)) /\
  Z.of_nat (size (ps_records (store_run empty events))) <= 1.
Proof. apply (presence_store_exact 1 events reader_id 1 [] 0 340); [lia | repeat constructor; cbn; lia]. Defined.

(** A source that always answers with one batch. *)
Definition fixed_source : ConfigUpdateSource ConfigUpdateBatch := fun b _ _ => Ok b.
Lemma config_sync_faithful_witness :
  fetch_config_updates publisher (config_service (ConfigUpdateSource0 := fixed_source) EnvelopeWitness.batch target endpoint) target
    (ub_base_head EnvelopeWitness.batch) =
  offered (ConfigUpdateSource0 := fixed_source) EnvelopeWitness.batch target endpoint (ub_base_head EnvelopeWitness.batch).
Proof.
  apply (config_sync_faithful (ConfigUpdateSource0 := fixed_source) EnvelopeWitness.batch publisher target); [done | done |].
  destruct ConfigStateWitness.batch_has_type; done.
Defined.
End NetProtocolWitness.
