(* ===== verification/NetAuthorizerFacts.v ===== *)
(** * Properties of admission

    The live authorizer accepts a stream exactly when the signed configuration entitles
    the remote endpoint to its source address and the local one to its destination; a
    stream is only handed to a listener when the authorization in force at that moment
    allows it; and the tables derived from a configuration hold what its bindings say. *)

From S2P Require Import Prelude Wire Core SocketAddr Platform Store CertificateWire Certificates Symmetric ToyCrypto CertificateChain.
From S2P Require Import Snapshot Validate Presence PresenceFacts Directory Envelope ConfigState NetProtocol NetProtocolFacts NetAuthorizer.

(** ** The member behind an endpoint *)
Section members.
Context `{Ed25519} `{Blake3}.

(** The configuration binds the endpoint to the member, and nothing on the way has expired. *)
Definition speaks_for (c : NetworkConfigV1) (cr : Credentials) (e : EndpointId) (m : MemberId) (now : Z) : Prop :=
  now < cfg_expires_at_ms c /\
  exists b x, b ∈ cr_endpoints cr /\ eb_endpoint_id (payload b) = EndpointId_as_bytes e /\ eb_member_id (payload b) = m /\
    now < eb_expires_at_ms (payload b) /\
    x ∈ cr_members cr /\ mc_member_id (payload x) = m /\ now < mc_expires_at_ms (payload x).

Lemma find_keyed {A K} `{EqDecision K} (key : A -> K) (q : A -> bool) xs k x :
  NoDup (key <$> xs) ->
  List.find (fun y => bool_decide (key y = k) && q y) xs = Some x <-> x ∈ xs /\ key x = k /\ q x = true.
Proof.
  induction xs as [|y xs IH]; [set_solver|]; cbn; rewrite NoDup_cons; intros [Hy Hn].
  rewrite elem_of_cons; destruct (bool_decide (key y = k) && q y) eqn:Hk.
  - apply andb_true_iff in Hk as [Hk%bool_decide_eq_true Hq]; split; [by intros [= <-]; auto|].
    intros [[->|Hx] [Hkx _]]; [done|]; destruct Hy; rewrite Hk, <- Hkx; by apply list_elem_of_fmap_2.
  - rewrite IH by done; split; [naive_solver|]; intros [[->|Hx] [Hkx Hq]]; [|done].
    rewrite Hkx, Hq, bool_decide_true in Hk; done.
Qed.

Lemma configured_member_iff c root net t cr e m now :
  config_valid c root net t -> snapshot_parses c cr ->
  configured_member_for_endpoint (mkValidated c) e now = Some m <-> speaks_for c cr e m now.
Proof.
  intros Hv Hp; destruct (va_credentials _ _ _ _ Hv) as (cr' & Hp' & Hc); rewrite <- (snapshot_parses_inj _ _ _ Hp Hp') in *.
  unfold configured_member_for_endpoint, speaks_for; cbn [vc_inner]; destruct (_ <=? _) eqn:Hx; bool_inv; [split; [done|lia]|].
  rewrite (find_parsed_list _ _ _ (sp_endpoints _ _ Hp)).
  split.
  - intros (b & (Hb & Hbk & Hbx)%(find_keyed (fun b => eb_endpoint_id (payload b))) & Hm)%bind_Some; [|apply Hc].
    rewrite (find_parsed_list _ _ _ (sp_members _ _ Hp)) in Hm.
    apply bind_Some in Hm as (x & (Hxe & Hxk & Hxx)%(find_keyed (fun x => mc_member_id (payload x))) & [= <-]); [|apply Hc].
    bool_inv; split; [lia|]; exists b, x; split_and!; try done; by rewrite ?Hxk.
  - intros (_ & b & x & Hb & Hbe & Hbm & Hbx & Hxe & Hxm & Hxx); apply bind_Some; exists b; split.
    + apply (find_keyed (fun b => eb_endpoint_id (payload b))); [apply Hc|]; split_and!; [done..|by apply Z.ltb_lt].
    + rewrite (find_parsed_list _ _ _ (sp_members _ _ Hp)); apply bind_Some; exists x; split; [|by rewrite Hxm].
      apply (find_keyed (fun x => mc_member_id (payload x))); [apply Hc|]; split_and!; [done|congruence|by apply Z.ltb_lt].
Qed.

(** ** The client addresses of a remote endpoint *)
Definition serves (b : AppBinding) (app : AppAddr) (m : MemberId) (now : Z) : Prop :=
  now < ab_expires_at_ms (payload b) /\ ab_role (payload b) = RoleServer /\ ab_app_addr (payload b) = app /\ ab_subject (payload b) = m.
Definition client_address (b : AppBinding) (a : ScopedVirtualAddr) (m : MemberId) (now : Z) : Prop :=
  now < ab_expires_at_ms (payload b) /\ ab_role (payload b) = RoleClient /\ ab_subject (payload b) = m /\
  exists device, ab_device_id (payload b) = Some device /\ a = Client (ab_app_addr (payload b)) device.

Lemma weigh_server app sm lm now acc b : (weigh_binding app sm lm now acc b).1 = true <-> acc.1 = true \/ serves b app lm now.
Proof.
  unfold weigh_binding, serves; destruct (_ <=? _) eqn:Hx; bool_inv; cbn [fst].
  - split; [by left | intros [?|[? _]]; [done|lia]].
  - rewrite orb_true_iff, !andb_true_iff, !bool_decide_eq_true; split; [intros [?|[[? ?] ?]] | intros [?|(? & ? & ? & ?)]]; auto.
Qed.
Lemma weigh_client app sm lm now acc b a : a ∈ (weigh_binding app sm lm now acc b).2 <-> a ∈ acc.2 \/ client_address b a sm now.
Proof.
  unfold weigh_binding, client_address; destruct (_ <=? _) eqn:Hx; bool_inv; cbn [snd].
  - split; [by left | intros [?|[? _]]; [done|lia]].
  - destruct (ab_role (payload b)) eqn:Hr; [split; [by left | by intros [?|(_ & ? & _)]]|].
    destruct (ab_device_id (payload b)) as [d|] eqn:Hd; [|split; [by left | by intros [?|(_ & _ & _ & ? & ? & _)]]].
    case_bool_decide as Hs; rewrite ?elem_of_union, ?elem_of_singleton; split.
    + intros [->|?]; [right; split_and!; try done; by exists d | by left].
    + intros [?|(_ & _ & _ & d' & [= <-] & ->)]; auto.
    + by left.
    + by intros [?|(_ & _ & ? & _)].
Qed.
(** A fold that only adds. *)
Lemma foldl_adds {A B} (f : A -> B -> A) (P : A -> Prop) (Q : B -> Prop) xs acc :
  (forall acc b, P (f acc b) <-> P acc \/ Q b) -> P (foldl f acc xs) <-> P acc \/ exists b, b ∈ xs /\ Q b.
Proof.
  intros Hf; revert acc; induction xs as [|x xs IH]; intros acc; cbn; [set_solver|].
  rewrite IH, Hf; setoid_rewrite elem_of_cons; naive_solver.
Qed.
Lemma weigh_fold app sm lm now bs acc :
  ((foldl (weigh_binding app sm lm now) acc bs).1 = true <-> acc.1 = true \/ exists b, b ∈ bs /\ serves b app lm now) /\
  (forall a, a ∈ (foldl (weigh_binding app sm lm now) acc bs).2 <-> a ∈ acc.2 \/ exists b, b ∈ bs /\ client_address b a sm now).
Proof.
  split.
  - apply (foldl_adds (weigh_binding app sm lm now) (fun r => r.1 = true) (fun b => serves b app lm now)); intros; apply weigh_server.
  - intros a; apply (foldl_adds (weigh_binding app sm lm now) (fun r => a ∈ r.2) (fun b => client_address b a sm now));
      intros; apply weigh_client.
Qed.

(** Everything that entitles a remote endpoint to a source address at a local server. *)
Definition entitled (c : NetworkConfigV1) (cr : Credentials) (local remote : EndpointId) (app : AppAddr) (source : ScopedVirtualAddr)
    (now : Z) : Prop :=
  exists remote_member local_member,
    speaks_for c cr remote remote_member now /\ speaks_for c cr local local_member now /\
    (exists b, b ∈ cr_bindings cr /\ serves b app local_member now) /\
    (exists b, b ∈ cr_bindings cr /\ client_address b source remote_member now).
Lemma live_authorized_iff c root net t cr local remote app source now :
  config_valid c root net t -> snapshot_parses c cr ->
  source ∈ authorized_client_addrs (mkLiveAuthorizer net local (mkValidated c)) now remote (Server app) <->
  entitled c cr local remote app source now.
Proof.
  intros Hv Hp; cbn [authorized_client_addrs live_authorizer]; unfold Live_authorized_client_addrs; cbn [la_config la_local_endpoint].
  unfold entitled; setoid_rewrite <- (configured_member_iff _ _ _ _ _ _ _ _ Hv Hp).
  destruct (configured_member_for_endpoint _ remote now) as [rm|]; [|set_solver].
  destruct (configured_member_for_endpoint _ local now) as [lm|]; [|set_solver].
  cbn [vc_inner]; rewrite (try_map_list _ _ _ (sp_bindings _ _ Hp)).
  destruct (weigh_fold app rm lm now (cr_bindings cr) (false, ∅)) as [Hs Hc]; destruct (foldl _ _ _) as [s cl]; cbn [fst snd] in *.
  destruct s; [|split; [set_solver|intros (? & ? & [= <-] & [= <-] & Hsv & _); discriminate (proj2 Hs (or_intror Hsv))]].
  rewrite Hc; split; [intros [?|?]; [set_solver|]; exists rm, lm; split_and!; try done | intros (? & ? & [= <-] & [= <-] & _ & ?); by right].
  destruct (proj1 Hs eq_refl); done.
Qed.
End members.

(** ** Streams on a connection *)
Section connections.
Context {A : Type} `{!NetworkAuthorizer A}.
Variables (net : NetworkId) (local_addr : ScopedVirtualAddr) (remote : EndpointId).
#[local] Abbreviation run := (connection_run net local_addr remote).

(** The authorization in force after some events. *)
Definition in_force (a : A) (evs : list (ConnectionEvent (A := A))) : A :=
  foldl (fun a ev => match ev with AuthorizerChanged a' => a' | _ => a end) a evs.
(** What justifies a stream handed to the listener. *)
Definition justified (a : A) (now : Z) (incoming : bytes) (s : VirtualStream) : Prop :=
  exists request, decode_with_preface (take OPEN_REQUEST_LEN incoming) (preface_of false) = Ok request /\
    or_network_id request = net /\ or_destination request = local_addr /\
    or_source request ∈ authorized_client_addrs a now remote local_addr /\
    s = mkVirtualStream remote local_addr (or_source request).

Lemma open_response_accepted (a : A) now request :
  open_response net local_addr remote a now (Ok request) = OPEN_RESPONSE_ACCEPTED <->
  or_network_id request = net /\ or_destination request = local_addr /\ or_source request ∈ authorized_client_addrs a now remote local_addr.
Proof.
  unfold open_response; repeat (case_bool_decide; cbn [negb]; [|split; [done|naive_solver]]); naive_solver.
Qed.
Lemma answer_open_delivers (a : A) now incoming written s :
  (answer_open net local_addr remote false a now incoming written).2 = Some s -> written = true /\ justified a now incoming s.
Proof.
  unfold answer_open; cbn [snd]; unfold read_exact; destruct (Nat.leb _ _); [|done].
  destruct (decode_with_preface _ _) as [request|] eqn:Hd; [|done].
  destruct (written && _) eqn:Hw; [|done]; apply andb_true_iff in Hw as [-> Hr%Z.eqb_eq]; intros [= <-].
  apply open_response_accepted in Hr; split; [done|]; exists request; naive_solver.
Qed.
Lemma run_authorizer c evs : pn_authorizer (run c evs) = in_force (pn_authorizer c) evs.
Proof.
  revert c; induction evs as [|ev evs IH]; intros c; [done|]; cbn; rewrite IH; f_equal.
  destruct ev as [id|id incoming now|id w|id t|a]; unfold connection_step; try done; repeat case_match; done.
Qed.
Lemma step_handlers c ev :
  (size (pn_handlers c) <= MAX_STREAM_HANDLERS_PER_CONNECTION)%nat ->
  (size (pn_handlers (connection_step net local_addr remote c ev)) <= MAX_STREAM_HANDLERS_PER_CONNECTION)%nat.
Proof.
  assert (Hins : forall id h h', pn_handlers c !! id = Some h -> size (<[id := h']> (pn_handlers c)) = size (pn_handlers c)).
  { intros id h h' Hh; by rewrite map_size_insert, Hh. }
  assert (Hdel : forall id, (size (delete id (pn_handlers c)) <= size (pn_handlers c))%nat).
  { intros id; rewrite map_size_delete; destruct (pn_handlers c !! id); cbn; unfold size; lia. }
  intros Hc; destruct ev as [id|id incoming now|id w|id t|a]; unfold connection_step; [| | | |done].
  - destruct (_ || _) eqn:Hg; [done|]; apply orb_false_iff in Hg as [Hl Hn]; apply Nat.leb_gt in Hl; bool_inv.
    cbn; rewrite map_size_insert; destruct (pn_handlers c !! id); [destruct Hn; eauto | lia].
  - destruct (pn_handlers c !! id) as [[| |]|] eqn:Hh; try done; destruct (answer_open _ _ _ _ _ _ _ _); cbn; by rewrite (Hins _ _ _ Hh).
  - destruct (pn_handlers c !! id) as [[|resp [s|]|]|] eqn:Hh; try done; destruct w; cbn; rewrite ?(Hins _ _ _ Hh); try done; etransitivity; [apply Hdel | done | apply Hdel | done | apply Hdel | done].
  - destruct (pn_handlers c !! id) as [[| |s]|] eqn:Hh; try done; cbn; etransitivity; [apply Hdel | done].
Qed.
Lemma run_handlers c evs :
  (size (pn_handlers c) <= MAX_STREAM_HANDLERS_PER_CONNECTION)%nat ->
  (size (pn_handlers (run c evs)) <= MAX_STREAM_HANDLERS_PER_CONNECTION)%nat.
Proof. revert c; induction evs as [|ev evs IH]; intros c Hc; [done|]; by apply IH, step_handlers. Qed.

(** A stream was requested and authorized, then its answer was sent, then the listener took it. *)
Definition requested (a : A) (evs : list (ConnectionEvent (A := A))) (id : nat) (s : VirtualStream) (after : list (ConnectionEvent (A := A))) : Prop :=
  exists before incoming now, evs = before ++ RequestArrived id incoming now :: after /\ justified (in_force a before) now incoming s.
Definition handler_ok (a : A) (evs : list (ConnectionEvent (A := A))) (id : nat) (h : StreamHandler) : Prop :=
  match h with
  | AwaitWrite _ (Some s) => exists after, requested a evs id s after
  | AwaitListener s => exists after, requested a evs id s after /\ AnswerWritten id true ∈ after
  | _ => True
  end.
Definition delivered_ok (a : A) (evs : list (ConnectionEvent (A := A))) (s : VirtualStream) : Prop :=
  exists id after, requested a evs id s after /\ AnswerWritten id true ∈ after /\ ListenerTook id true ∈ after.
Lemma requested_app a evs id s after ev : requested a evs id s after -> requested a (evs ++ [ev]) id s (after ++ [ev]).
Proof. intros (b & inc & now & -> & Hj); exists b, inc, now; by rewrite <- app_assoc. Qed.
Lemma handler_ok_app a evs ev id h : handler_ok a evs id h -> handler_ok a (evs ++ [ev]) id h.
Proof.
  destruct h as [|resp [s|]|s]; cbn; try done; [intros [after Hr] | intros (after & Hr & Hw)]; exists (after ++ [ev]);
    [by apply requested_app | split; [by apply requested_app | set_solver]].
Qed.
Lemma run_justified (a : A) evs :
  let c := run (mkPeerConnection a ∅ [] []) evs in
  map_Forall (handler_ok a evs) (pn_handlers c) /\ Forall (delivered_ok a evs) (pn_delivered c).
Proof.
  cbv zeta; set (c0 := mkPeerConnection a ∅ [] []); induction evs as [|ev evs [IHh IHd]] using rev_ind; [split; [apply map_Forall_empty | done]|].
  unfold connection_run in *; rewrite foldl_snoc; fold (run c0 evs) in *; pose proof (run_authorizer c0 evs) as Ha; cbn [pn_authorizer c0] in Ha.
  assert (Hh : map_Forall (handler_ok a (evs ++ [ev])) (pn_handlers (run c0 evs))) by (intros id h Hi; by apply handler_ok_app, IHh).
  assert (Hd : Forall (delivered_ok a (evs ++ [ev])) (pn_delivered (run c0 evs))).
  { eapply Forall_impl; [exact IHd|]; intros s (id & after & Hr & Hw & Ht); exists id, (after ++ [ev]); split_and!; [by apply requested_app | set_solver..]. }
  clear IHd; set (c := run c0 evs) in *.
  destruct ev as [id|id incoming now|id w|id t|a']; unfold connection_step; [| | | |done].
  - destruct (_ || _); [done|]; split; [|done]; by apply map_Forall_insert_2.
  - destruct (pn_handlers c !! id) as [[| |]|]; try done; destruct (answer_open _ _ _ _ _ _ _ _) as [resp [s|]] eqn:Ho; split; try done; apply map_Forall_insert_2; try done.
    pose proof (f_equal snd Ho) as Hs; apply answer_open_delivers in Hs as [_ Hj]; rewrite Ha in Hj; exists [], evs, incoming, now; done.
  - destruct (pn_handlers c !! id) as [[|resp acc|]|] eqn:Hi; try done; destruct w; cbn; split; try done; [|by apply map_Forall_delete].
    destruct acc as [s|]; [|by apply map_Forall_delete]; apply map_Forall_insert_2; [|done].
    destruct (IHh _ _ Hi) as [after Hr]; exists (after ++ [AnswerWritten id true]); split; [by apply requested_app | set_solver].
  - destruct (pn_handlers c !! id) as [[| |s]|] eqn:Hi; try done; cbn; split; [by apply map_Forall_delete|]; destruct t; [|done].
    apply Forall_app; split; [done|]; constructor; [|constructor]; destruct (IHh _ _ Hi) as (after & Hr & Hw).
    exists id, (after ++ [ListenerTook id true]); split_and!; [by apply requested_app | set_solver..].
Qed.
End connections.

(** ** The derived tables *)
Section tables.
Context `{Platform}.
#[local] Abbreviation parse_all from_bytes := (Forall2 (fun raw x => from_bytes raw = Ok x)).

Lemma allow_client_elem t ea e a : a ∈ default ∅ (allow_client t ea !! e) <-> a ∈ default ∅ (t !! e) \/ ea = (e, a).
Proof.
  destruct ea as [e' a']; unfold allow_client; cbn [fst snd]; destruct (decide (e' = e)) as [->|Hne].
  - rewrite lookup_insert_eq; cbn; rewrite elem_of_union, elem_of_singleton; naive_solver.
  - rewrite lookup_insert_ne by done; naive_solver.
Qed.
Lemma allow_endpoints_elem es t e a address :
  a ∈ default ∅ (foldl (fun t e => allow_client t (e, address)) t es !! e) <-> a ∈ default ∅ (t !! e) \/ (a = address /\ e ∈ es).
Proof.
  etransitivity; [apply (foldl_adds (fun t e => allow_client t (e, address)) (fun t => a ∈ default ∅ (t !! e)) (fun e' => e' = e /\ a = address))|].
  - intros t' e'; rewrite allow_client_elem; naive_solver.
  - naive_solver.
Qed.

(** A fallible fold over parsed entries that only adds. *)
Lemma try_fold_adds {E S X B} (f : S -> X -> result E S) (R : X -> B -> Prop) (P : S -> Prop) (Q : B -> Prop) xs bs acc acc' :
  Forall2 R xs bs -> (forall acc x b acc', R x b -> f acc x = Ok acc' -> P acc' <-> P acc \/ Q b) ->
  try_fold f acc xs = Ok acc' -> P acc' <-> P acc \/ exists b, b ∈ bs /\ Q b.
Proof.
  intros Hp Hf; revert acc; induction Hp as [|x b xs bs Hb _ IH]; intros acc Ht; cbn in Ht; [injection Ht as <-; set_solver|].
  apply bind_Ok in Ht as (acc1 & Hn & Ht); rewrite (IH _ Ht), (Hf _ _ _ _ Hb Hn); setoid_rewrite elem_of_cons; naive_solver.
Qed.

(** The endpoint bindings, by member. *)
Definition binds (b : EndpointBinding) (m : MemberId) (e : EndpointId) : Prop :=
  eb_member_id (payload b) = m /\ eb_endpoint_id (payload b) = EndpointId_as_bytes e.
Lemma note_endpoint_Ok local acc raw b acc' :
  EndpointBinding_from_bytes raw = Ok b -> note_endpoint local acc raw = Ok acc' ->
  exists e0, binds b (eb_member_id (payload b)) e0 /\
    (forall m e, e ∈ default [] (acc'.1 !! m) <-> e ∈ default [] (acc.1 !! m) \/ binds b m e) /\
    acc'.2 = if bool_decide (e0 = local) then Some (eb_member_id (payload b)) else acc.2.
Proof.
  unfold note_endpoint; intros -> Hn; cbn [map_err mbind result_bind] in Hn.
  apply bind_Ok in Hn as (e0 & [He0 _]%ok_or_Ok%EndpointId_from_bytes_Some & <-%Ok_inj); exists e0; cbn [fst snd]; split_and!; [done| |done].
  intros m e; unfold binds; destruct (decide (eb_member_id (payload b) = m)) as [Hm|Hm].
  - rewrite Hm, lookup_insert_eq; cbn; rewrite elem_of_app, list_elem_of_singleton, He0.
    split; [intros [?| ->]; auto | intros [?|[_ He]]; [auto|]; right; destruct e, e0; cbn in *; congruence].
  - rewrite lookup_insert_ne by done; naive_solver.
Qed.
Lemma note_endpoints local raws bs acc acc' :
  parse_all EndpointBinding_from_bytes raws bs -> try_fold (note_endpoint local) acc raws = Ok acc' ->
  (forall m e, e ∈ default [] (acc'.1 !! m) <-> e ∈ default [] (acc.1 !! m) \/ exists b, b ∈ bs /\ binds b m e) /\
  (forall m, acc'.2 = Some m -> acc.2 = Some m \/ exists b, b ∈ bs /\ binds b m local).
Proof.
  intros Hp Hf; split.
  - intros m e; apply (try_fold_adds (note_endpoint local) _ (fun t => e ∈ default [] (t.1 !! m)) (fun b => binds b m e) _ _ _ _ Hp); [|done].
    intros acc0 x b acc1 Hb (e0 & _ & Hn & _)%(note_endpoint_Ok _ _ _ b); [apply Hn | done].
  - revert acc Hf; induction Hp as [|raw b raws bs Hb _ IH]; intros acc Hf m Hm; cbn in Hf; [injection Hf as <-; auto|].
    apply bind_Ok in Hf as (acc1 & (e0 & He0 & _ & Ha)%(note_endpoint_Ok _ _ _ b) & Hf); [|done].
    destruct (IH _ Hf m Hm) as [Hm1|(b' & ? & ?)]; [|right; exists b'; rewrite elem_of_cons; auto].
    rewrite Ha in Hm1; case_bool_decide as Hl; [|auto]; subst e0; injection Hm1 as <-; right; exists b; rewrite elem_of_cons; auto.
Qed.

(** The addresses an application binding certifies. *)
Definition certifies (b : AppBinding) (m : MemberId) (a : ScopedVirtualAddr) : Prop :=
  ab_subject (payload b) = m /\
  match ab_role (payload b) with
  | RoleServer => a = Server (ab_app_addr (payload b))
  | RoleClient => exists device, ab_device_id (payload b) = Some device /\ a = Client (ab_app_addr (payload b)) device
  end.
Definition is_client (a : ScopedVirtualAddr) : Prop := match a with Client _ _ => True | Server _ => False end.
Lemma note_binding_Ok tbl lm acc raw b acc' :
  AppBinding_from_bytes raw = Ok b -> note_binding tbl lm acc raw = Ok acc' ->
  (forall e a, a ∈ default ∅ (acc'.1 !! e) <-> a ∈ default ∅ (acc.1 !! e) \/
     is_client a /\ certifies b (ab_subject (payload b)) a /\ e ∈ default [] (tbl !! ab_subject (payload b))) /\
  (forall a, a ∈ acc'.2 <-> a ∈ acc.2 \/ certifies b lm a).
Proof.
  unfold note_binding, certifies; intros ->; cbn [map_err mbind result_bind]; destruct (ab_role (payload b)) eqn:Hr.
  - intros [= <-]; cbn [fst snd]; split.
    + intros e a; split; [auto | intros [?|(Hc & [_ ->] & _)]; done].
    + intros a; case_bool_decide as Hl; rewrite ?elem_of_union, ?elem_of_singleton; naive_solver.
  - intros (d & Hd%ok_or_Ok & <-%Ok_inj)%bind_Ok; cbn [fst snd]; split.
    + intros e a; rewrite allow_endpoints_elem; split; [|naive_solver].
      intros [?|[-> ?]]; [auto|]; right; split_and!; eauto; done.
    + intros a; case_bool_decide as Hl; rewrite ?elem_of_union, ?elem_of_singleton; naive_solver.
Qed.
Lemma note_bindings tbl lm raws bs acc acc' :
  parse_all AppBinding_from_bytes raws bs -> try_fold (note_binding tbl lm) acc raws = Ok acc' ->
  (forall e a, a ∈ default ∅ (acc'.1 !! e) <-> a ∈ default ∅ (acc.1 !! e) \/
     exists b, b ∈ bs /\ is_client a /\ certifies b (ab_subject (payload b)) a /\ e ∈ default [] (tbl !! ab_subject (payload b))) /\
  (forall a, a ∈ acc'.2 <-> a ∈ acc.2 \/ exists b, b ∈ bs /\ certifies b lm a).
Proof.
  intros Hp Hf; split.
  - intros e a; apply (try_fold_adds (note_binding tbl lm) _ (fun t => a ∈ default ∅ (t.1 !! e))
      (fun b => is_client a /\ certifies b (ab_subject (payload b)) a /\ e ∈ default [] (tbl !! ab_subject (payload b))) _ _ _ _ Hp); [|done].
    intros acc0 x b acc1 Hb [Hn _]%(note_binding_Ok _ _ _ _ b); [apply Hn | done].
  - intros a; apply (try_fold_adds (note_binding tbl lm) _ (fun t => a ∈ t.2) (fun b => certifies b lm a) _ _ _ _ Hp); [|done].
    intros acc0 x b acc1 Hb [_ Hn]%(note_binding_Ok _ _ _ _ b); [apply Hn | done].
Qed.

Lemma collect_elem l e a : a ∈ default ∅ (collect_client_authorizations l !! e) <-> (e, a) ∈ l.
Proof.
  unfold collect_client_authorizations.
  rewrite (foldl_adds allow_client (fun t => a ∈ default ∅ (t !! e)) (fun ea => ea = (e, a))) by (intros; apply allow_client_elem).
  rewrite lookup_empty; cbn; set_solver.
Qed.
Lemma elem_of_concat {X} (x : X) ls : x ∈ concat ls <-> exists l, x ∈ l /\ l ∈ ls.
Proof. induction ls as [|l ls IH]; cbn; [set_solver|]; rewrite elem_of_app, IH; setoid_rewrite elem_of_cons; naive_solver. Qed.
Lemma flattened_elem (t : ClientTable) e a :
  (e, a) ∈ concat ((fun ea => (fun address => (ea.1, address)) <$> elements ea.2) <$> map_to_list t) <-> a ∈ default ∅ (t !! e).
Proof.
  rewrite elem_of_concat; setoid_rewrite list_elem_of_fmap; split.
  - intros (l & Hl & ([e' s] & -> & He%elem_of_map_to_list)); apply list_elem_of_fmap in Hl as (a' & [= -> ->] & Ha%elem_of_elements).
    cbn in *; by rewrite He.
  - destruct (t !! e) as [s|] eqn:He; cbn; [|set_solver]; intros Ha; exists ((fun address => (e, address)) <$> elements s).
    split; [apply list_elem_of_fmap; exists a; split; [done | by apply elem_of_elements]|].
    exists (e, s); split; [done | by apply elem_of_map_to_list].
Qed.
Lemma derive_Ok c cr local bindings d :
  snapshot_parses c cr -> derive (mkValidated c) local bindings = Ok d ->
  (forall e a, a ∈ default ∅ (ca_allowed_clients d !! e) <->
     exists b eb, b ∈ cr_bindings cr /\ eb ∈ cr_endpoints cr /\ is_client a /\ certifies b (ab_subject (payload b)) a /\
       binds eb (ab_subject (payload b)) e) /\
  (forall e, e ∈ ca_member_endpoints d <-> exists eb m, eb ∈ cr_endpoints cr /\ binds eb m e) /\
  (exists eb m, eb ∈ cr_endpoints cr /\ binds eb m local /\ forall a, a ∈ bindings -> exists b, b ∈ cr_bindings cr /\ certifies b m a) /\
  configured_data_relay_urls (mkValidated c) = Ok (ca_relay_urls d).
Proof.
  intros Hp; unfold derive; cbn [vc_inner]; intros (noted & Hn & Hd)%bind_Ok.
  apply (note_endpoints _ _ _ _ _ (sp_endpoints _ _ Hp)) in Hn as [Hn1 Hn2].
  apply bind_Ok in Hd as (lm & Hlm%ok_or_Ok & Hd); apply bind_Ok in Hd as (allowed & Ha & Hd).
  apply (note_bindings _ _ _ _ _ _ (sp_bindings _ _ Hp)) in Ha as [Ha1 Ha2].
  apply bind_Ok in Hd as (u & Hl%for_each_Ok & Hd); apply bind_Ok in Hd as (urls & Hu & <-%Ok_inj); cbn [fst snd] in *.
  cbn [ca_allowed_clients ca_member_endpoints ca_relay_urls]; split_and!; [| | |done].
  - intros e a; rewrite Ha1, lookup_empty; setoid_rewrite Hn1; setoid_rewrite lookup_empty; cbn [default]; split.
    + intros [?|(b & ? & ? & ? & [Hb|(eb & ? & ?)])]; [set_solver|by inversion Hb|]; exists b, eb; auto.
    + intros (b & eb & ? & ? & ? & ? & ?); right; exists b; split_and!; eauto.
  - intros e; rewrite elem_of_list_to_set, elem_of_concat; setoid_rewrite list_elem_of_fmap; split.
    + intros (l & Hl' & [m l'] & -> & Hm%elem_of_map_to_list); cbn in *; destruct (proj1 (Hn1 m e)) as [Hx|(eb & ? & ?)];
        [by rewrite Hm | rewrite lookup_empty in Hx; by inversion Hx | eauto].
    + intros (eb & m & Heb & Hb); pose proof (proj2 (Hn1 m e) (or_intror (ex_intro _ eb (conj Heb Hb)))) as Hx.
      destruct (noted.1 !! m) as [l|] eqn:Hm; [|by inversion Hx]; exists l; split; [done|]; exists (m, l); split; [done|].
      by apply elem_of_map_to_list.
  - destruct (Hn2 lm Hlm) as [?|(eb & ? & ?)]; [done|]; exists eb, lm; split_and!; [done..|]; intros a Ha.
    rewrite Forall_forall in Hl; specialize (Hl a (proj2 (elem_of_elements _ _) Ha)); apply fail_if_Ok in Hl; bool_inv.
    destruct (proj1 (Ha2 a) Hl) as [?|?]; [set_solver | done].
Qed.
End tables.

(** ** Routes *)
Section routes.
Lemma tcp_alpn_inj a b : tcp_alpn a = tcp_alpn b -> a = b.
Proof. destruct a as [a], b as [b]; unfold tcp_alpn; cbn [AppAddr_as_bytes]; by intros ->%app_inv_head. Qed.
Lemma udp_alpn_inj a b : udp_alpn a = udp_alpn b -> a = b.
Proof. destruct a as [a], b as [b]; unfold udp_alpn; cbn [AppAddr_as_bytes]; by intros ->%app_inv_head. Qed.
Lemma alpn_kinds a b : tcp_alpn a <> udp_alpn b.
Proof. intros Ha; discriminate Ha. Qed.
Lemma service_alpns net a : config_sync_alpn net <> tcp_alpn a /\ config_sync_alpn net <> udp_alpn a /\
  presence_alpn net <> tcp_alpn a /\ presence_alpn net <> udp_alpn a /\ config_sync_alpn net <> presence_alpn net.
Proof. split_and!; intros Ha; discriminate Ha. Qed.

Lemma servers_elem (b : LocalBindings) server : server ∈ LocalBindings_servers b <-> ServerAddr_scoped server ∈ b.
Proof.
  unfold LocalBindings_servers; rewrite list_elem_of_omap; destruct server as [app]; cbn; split.
  - intros ([a|a d] & Ha%elem_of_elements & [= <-]); done.
  - intros Ha; exists (Server app); split; [by apply elem_of_elements | done].
Qed.
Definition app_alpn (app : AppAddr) (datagram : bool) : bytes := if datagram then udp_alpn app else tcp_alpn app.
Lemma routes_exact (b : LocalBindings) alpn server datagram :
  application_routes b !! alpn = Some (server, datagram) <->
  ServerAddr_scoped server ∈ b /\ alpn = app_alpn (ServerAddr_app server) datagram.
Proof.
  rewrite <- servers_elem; unfold application_routes; induction (LocalBindings_servers b) as [|s l IH] using rev_ind.
  - cbn [foldl]; rewrite lookup_empty; set_solver.
  - rewrite foldl_snoc; cbn beta; rewrite elem_of_app, list_elem_of_singleton.
    destruct (decide (alpn = udp_alpn (ServerAddr_app s))) as [->|Hu];
      [rewrite lookup_insert_eq | rewrite lookup_insert_ne by done; destruct (decide (alpn = tcp_alpn (ServerAddr_app s))) as [->|Ht];
        [rewrite lookup_insert_eq | rewrite lookup_insert_ne by done]].
    + split; [intros [= <- <-]; auto|]; intros [_ Ha]; destruct datagram; cbn in Ha; [|by destruct (alpn_kinds (ServerAddr_app server) (ServerAddr_app s))].
      apply udp_alpn_inj in Ha; destruct s, server; cbn in *; by subst.
    + split; [intros [= <- <-]; auto|]; intros [_ Ha]; destruct datagram; cbn in Ha; [by destruct (alpn_kinds _ _ Ha)|].
      apply tcp_alpn_inj in Ha; destruct s, server; cbn in *; by subst.
    + rewrite IH; split; [naive_solver|]; intros [[?| ->] Ha]; [done|]; destruct datagram; by subst.
Qed.
End routes.

(** ** Theorems *)
Section claims.
Context `{Ed25519} `{Blake3}.

(** C6: the live authorizer admits a stream exactly when the signed configuration says
    so.  For a configuration that validated, a request is accepted at time [now] if and
    only if it names this network and this server, the remote endpoint speaks for a
    member with an unexpired client binding of the source address, and the local endpoint
    for a member with an unexpired server binding of the destination; where speaking for a
    member takes an unexpired endpoint binding and member certificate in an unexpired
    configuration. *)
Theorem stream_accepted_iff_entitled (c : NetworkConfigV1) (root : NetworkRootPublic) (net : NetworkId) (t : Z)
    (v : ValidatedNetworkConfig) (cr : Credentials) (local remote : EndpointId) (app : AppAddr) (request : OpenStreamRequest) (now : Z) :
  validate c root net t = Ok v -> snapshot_parses c cr ->
  open_response net (Server app) remote (mkLiveAuthorizer net local v) now (Ok request) = OPEN_RESPONSE_ACCEPTED <->
  or_network_id request = net /\ or_destination request = Server app /\ entitled c cr local remote app (or_source request) now.
Proof. intros [-> Hv]%validate_Ok Hp; by rewrite open_response_accepted, (live_authorized_iff _ _ _ _ _ _ _ _ _ _ Hv Hp). Qed.
End claims.

(** C26: over any interleaving of arriving streams, requests, answers, deliveries and
    changes of the authorization on one connection, a stream reaches the listener only if
    its request arrived in full, named this network and server, and its source address was
    authorized by the authorization in force when it arrived, and only after the
    acceptance was sent; and at most 128 streams are being handled at any time, each from
    its arrival until the listener has taken it or it has been refused. *)
Theorem delivered_streams_authorized {A : Type} `{!NetworkAuthorizer A} (net : NetworkId) (local_addr : ScopedVirtualAddr)
    (remote : EndpointId) (authorizer : A) (evs : list (ConnectionEvent (A := A))) (s : VirtualStream) :
  let c := connection_run net local_addr remote (mkPeerConnection authorizer ∅ [] []) evs in
  (s ∈ pn_delivered c -> exists before id incoming now after,
     evs = before ++ RequestArrived id incoming now :: after /\ AnswerWritten id true ∈ after /\ ListenerTook id true ∈ after /\
     justified net local_addr remote (in_force authorizer before) now incoming s) /\
  (size (pn_handlers c) <= MAX_STREAM_HANDLERS_PER_CONNECTION)%nat.
Proof.
  cbv zeta; split; [|apply run_handlers; cbn [pn_handlers]; rewrite map_size_empty; lia]; intros Hs.
  pose proof (proj2 (run_justified net local_addr remote authorizer evs)) as Hd; rewrite Forall_forall in Hd.
  destruct (Hd s Hs) as (id & after & (b & incoming & now & -> & Hj) & Hw & Ht); exists b, id, incoming, now, after; done.
Qed.

(** What a node derives from a configuration.  The clients an endpoint may act as are
    the client bindings of the member it is bound to, the configuration peers are the
    bound endpoints, and every address the node itself takes is certified for the member
    its own endpoint is bound to.  The tables do not look at expiry times. *)
Theorem derived_node_exact `{Platform} {A C P : Type} (c : NetworkConfigV1) (cr : Credentials) (secret : bytes) (bindings : LocalBindings)
    (node : NodeConfig A C P) :
  snapshot_parses c cr -> NodeConfig_from_config secret (mkValidated c) bindings = Ok node ->
  (forall e a, a ∈ default ∅ (nc_allowed_clients node !! e) <->
     exists b eb, b ∈ cr_bindings cr /\ eb ∈ cr_endpoints cr /\ is_client a /\ certifies b (ab_subject (payload b)) a /\
       binds eb (ab_subject (payload b)) e) /\
  (forall e, e ∈ nc_allowed_config_peers node <-> exists eb m, eb ∈ cr_endpoints cr /\ binds eb m e) /\
  (exists eb m, eb ∈ cr_endpoints cr /\ binds eb m (mkEndpointId (endpoint_public secret)) /\
     forall a, a ∈ nc_local_bindings node -> exists b, b ∈ cr_bindings cr /\ certifies b m a).
Proof.
  intros Hp (d & (Hc & He & Hl & _)%(derive_Ok _ _ _ _ _ Hp) & <-%Ok_inj)%bind_Ok; cbn; split_and!; [|done|done].
  intros e a; by rewrite collect_elem, flattened_elem.
Qed.

(** An application connection is admitted exactly for a server bound on this node,
    under the protocol name of that server and kind, when the authorizer allows the
    remote endpoint at least one source address there; no other protocol name leads to an
    application. *)
Theorem application_admission_exact {A C P : Type} `{!NetworkAuthorizer A} (config : NodeConfig A C P) (services : AcceptServices)
    (now : Z) (remote : EndpointId) (alpn : bytes) (server : ServerAddr) (datagram : bool) :
  (bind config).2 = Some services ->
  admit_connection services (nc_network_id config) now remote alpn = ServeApplication server datagram <->
  ServerAddr_scoped server ∈ nc_local_bindings config /\ alpn = app_alpn (ServerAddr_app server) datagram /\
  authorized_client_addrs (av_authorizer services) now remote (ServerAddr_scoped server) <> ∅.
Proof.
  unfold bind; cbn [snd]; match goal with |- context [if ?b then _ else _] => destruct b; [|done] end; intros [= Hs]; pose proof (f_equal av_application_routes Hs) as Hr; cbn in Hr; clear Hs.
  unfold admit_connection; rewrite <- Hr; destruct (service_alpns (nc_network_id config) (ServerAddr_app server)) as (Ha & Hb & Hc & Hd & _).
  case_bool_decide as H1; [subst alpn|case_bool_decide as H2; [subst alpn|]].
  - split; [destruct (av_config_update_source services); [case_match|]; done|].
    intros (_ & Heq & _); destruct datagram; [destruct (Hb Heq) | destruct (Ha Heq)].
  - split; [destruct (av_presence_store services); [case_match|]; done|].
    intros (_ & Heq & _); destruct datagram; [destruct (Hd Heq) | destruct (Hc Heq)].
  - destruct (application_routes _ !! alpn) as [[s d]|] eqn:Hroute.
    + case_bool_decide as Hauth; split; try done.
      * intros (Hin & -> & Hne); rewrite (proj2 (routes_exact _ _ _ _) (conj Hin eq_refl)) in Hroute; injection Hroute as -> ->; done.
      * intros [= <- <-]; apply routes_exact in Hroute as [? ->]; done.
      * intros (Hin & -> & Hne); rewrite (proj2 (routes_exact _ _ _ _) (conj Hin eq_refl)) in Hroute; injection Hroute as -> ->; done.
    + split; [done|]; intros (Hin & -> & _); by rewrite (proj2 (routes_exact _ _ _ _) (conj Hin eq_refl)) in Hroute.
Qed.

(** ** Examples *)
Module NetAuthorizerWitness.
Import Samples ValidateWitness.
Definition device : DeviceId := DeviceId_from_bytes (repeat Byte.x31 32).
Definition app : AppAddr := Eval vm_compute in ar_app_addr (payload registration).
Definition client : AppBinding := Eval vm_compute in
  get_ok (AppBinding_issue toy_app toy_network (mc_member_id (payload mc)) RoleClient (Some device) 600 []).
Definition signed : NetworkConfigV1 := Eval vm_compute in {|
  cfg_network_id := toy_network; cfg_epoch := 1; cfg_revision := 1; cfg_previous_hash := zero32;
  cfg_issued_at_ms := 250; cfg_expires_at_ms := 550;
  cfg_admin_keys := [mkAdminKey (to_bytes ac)]; cfg_members := [to_bytes mc];
  cfg_endpoint_bindings := [to_bytes eb]; cfg_revoked_serials := [];
  cfg_apps := [to_bytes registration]; cfg_app_bindings := [to_bytes binding; to_bytes client];
  cfg_virtual_dns := []; cfg_relays := []; cfg_presence_services := [];
  cfg_epoch_secrets := EpochSecrets_from_bytes zero32 zero32 zero32 zero32;
  cfg_policies := NetworkPolicy_default |}.
Definition parsed_credentials : Credentials := mkCredentials [ac] [mc] [eb] [registration] [binding; client].
Definition here : EndpointId := mkEndpointId toy_endpoint.
Definition open : OpenStreamRequest := mkOpenRequest toy_network (Client app device) (Server app).

Lemma signed_validates : validate signed (NetworkRootKey_public toy_root) toy_network 300 = Ok (mkValidated signed).
Proof. vm_compute; reflexivity. Qed.
Lemma signed_parses : snapshot_parses signed parsed_credentials.
Proof. constructor; repeat (constructor; try (vm_compute; reflexivity)). Qed.
Lemma here_speaks : speaks_for signed parsed_credentials here (mc_member_id (payload mc)) 400.
Proof.
  split; [vm_compute; reflexivity|]; exists eb, mc; repeat split; try (vm_compute; reflexivity); apply list_elem_of_here.
Qed.
Lemma here_entitled : entitled signed parsed_credentials here here app (Client app device) 400.
Proof.
  exists (mc_member_id (payload mc)), (mc_member_id (payload mc)); split_and!; [exact here_speaks | exact here_speaks| |].
  - exists binding; split; [apply list_elem_of_here | repeat split; vm_compute; reflexivity].
  - exists client; split; [apply list_elem_of_further, list_elem_of_here | repeat split; try (vm_compute; reflexivity)].
    exists device; split; vm_compute; reflexivity.
Qed.
Lemma stream_accepted_iff_entitled_witness :
  open_response toy_network (Server app) here (mkLiveAuthorizer toy_network here (mkValidated signed)) 400 (Ok open) = OPEN_RESPONSE_ACCEPTED.
Proof.
  apply (stream_accepted_iff_entitled signed (NetworkRootKey_public toy_root) toy_network 300 (mkValidated signed) parsed_credentials
    here here app open 400 signed_validates signed_parses); split_and!; [done..|].
  exact here_entitled.
Defined.

Definition start : PeerConnection := mkPeerConnection (mkLiveAuthorizer toy_network here (mkValidated signed)) ∅ [] [].
Definition opening : bytes := Eval vm_compute in ok_else [] (encode_with_preface open (preface_of false)).
Definition opened : VirtualStream := mkVirtualStream here (Server app) (Client app device).
Definition handling : list (ConnectionEvent (A := LiveConfigAuthorizer)) :=
  [StreamArrived 0; StreamArrived 1; RequestArrived 0 opening 400; AnswerWritten 0 true; RequestArrived 1 [] 401; ListenerTook 0 true; AnswerWritten 1 true].
Lemma handled : pn_delivered (connection_run toy_network (Server app) here start handling) = [opened].
Proof. vm_compute; reflexivity. Qed.
Lemma delivered_streams_authorized_witness :
  exists before id incoming now after, handling = before ++ RequestArrived id incoming now :: after /\
    justified toy_network (Server app) here (in_force (pn_authorizer start) before) now incoming opened.
Proof.
  destruct (delivered_streams_authorized toy_network (Server app) here (pn_authorizer start) handling opened) as [Hd _].
  destruct Hd as (b & id & inc & now & after & He & _ & _ & Hj).
  - change (opened ∈ pn_delivered (connection_run toy_network (Server app) here start handling)); rewrite handled; apply list_elem_of_here.
  - exists b, id, inc, now, after; split; [exact He | exact Hj].
Defined.

(** A node without sources or stores of its own. *)
Definition bindings : LocalBindings := {[Server app]}.
Definition plain : NodeConfig LiveConfigAuthorizer unit unit := NodeConfig_new [] None toy_network ∅ [].
Definition node : NodeConfig LiveConfigAuthorizer unit unit :=
  ok_else plain (NodeConfig_from_config toy_endpoint (mkValidated signed) bindings).
Lemma node_ok : NodeConfig_from_config toy_endpoint (mkValidated signed) bindings = Ok node.
Proof. apply is_ok_else; vm_compute; reflexivity. Qed.
#[local] Opaque node.
Lemma derived_node_exact_witness :
  exists eb m, eb ∈ [Samples.eb] /\ binds eb m here /\
    forall a, a ∈ nc_local_bindings node -> exists b, b ∈ [binding; client] /\ certifies b m a.
Proof. exact (proj2 (proj2 (derived_node_exact signed parsed_credentials toy_endpoint bindings node signed_parses node_ok))). Defined.

(** A node that serves one application and configuration updates, under the live view. *)
Definition serving : NodeConfig LiveConfigAuthorizer unit unit :=
  mkNodeConfig toy_endpoint None [] [] toy_network bindings ∅ true None (Some tt) ∅ None ∅ (Some (pn_authorizer start)).
Definition services : AcceptServices (A := LiveConfigAuthorizer) (C := unit) (P := unit) := mkServices (Some tt) None (inl (pn_authorizer start)) (application_routes bindings).
Lemma application_admission_exact_witness :
  admit_connection services toy_network 400 here (tcp_alpn app) = ServeApplication (ServerAddr_new app) false.
Proof.
  apply (application_admission_exact serving services 400 here (tcp_alpn app) (ServerAddr_new app) false); [reflexivity|].
  split_and!; [by apply elem_of_singleton | done |]; intros Hnone.
  apply (not_elem_of_empty (C := gset ScopedVirtualAddr) (Client app device)); rewrite <- Hnone; cbn [av_authorizer services].
  apply (live_authorized_iff signed (NetworkRootKey_public toy_root) toy_network 300 parsed_credentials);
    [exact (proj2 (proj1 (validate_Ok _ _ _ _ _) signed_validates)) | exact signed_parses |].
  exact here_entitled.
Defined.
End NetAuthorizerWitness.
