(* ===== verification/NetSyncFacts.v ===== *)
(** * Properties of the background synchronisation

    The configuration a member holds only moves forward, its live authorization follows
    it step by step, one peer that serves an acceptable update is enough for a round of
    anti-entropy to make progress, and the presence loop feeds the directory nothing but
    what discovery accepts. *)

From S2P Require Import Prelude Wire Core SocketAddr Platform Store CertificateWire Certificates Symmetric ToyCrypto CertificateChain.
From S2P Require Import Snapshot Validate Presence PresenceFacts Lan Directory LanFacts DirectoryFacts Envelope EnvelopeChain.
From S2P Require Import ConfigState ConfigStateFacts NetProtocol NetProtocolFacts NetAuthorizer NetAuthorizerFacts NetSync.

(** ** What an update does to the view *)
(** The head stays or its revision grows. *)
Definition head_le (h h' : ConfigHead) : Prop :=
  h' = h \/ head_revision h < head_revision h' /\ head_epoch h <= head_epoch h'.
#[global] Instance head_le_refl : Reflexive head_le.
Proof. by left. Qed.
#[global] Instance head_le_trans : Transitive head_le.
Proof. intros x y z [->|[? ?]] [->|[? ?]]; unfold head_le; auto; right; lia. Qed.

Section updates.
Context `{Ed25519} `{Blake3} `{Aead} `{Hpke}.

Lemma follows_view root enc now c h raws c' h' :
  follows root enc now c h raws c' h' ->
  head_revision h' = head_revision h + len raws /\ head_epoch h <= head_epoch h' /\
  (raws = [] /\ h' = h /\ c' = c \/ cfg_network_id (vc_inner c') = root_network_id root).
Proof.
  induction 1 as [c h|c h raw e o raws c' h' He Ho Hf IH]; [unfold len; cbn; split_and!; [lia|lia|auto]|].
  apply open_next_config_Ok in Ho as (va & opened & Hau & Hop & Hd).
  apply decode_and_validate_Ok in Hd as (cfg & _ & Hnet & _ & _ & _ & Hv & ->); cbn [onc_config onc_head] in *.
  apply open_verified_Ok in Hop as (_ & Hch%validate_chain_Next & Hhead & _); destruct Hau as [Hr _ _ _ _ _ _].
  rewrite Hhead in *; cbn [envelope_head head_revision head_epoch] in *.
  unfold len in *; cbn [length]; split_and!; [lia|lia|]; right.
  destruct IH as (_ & _ & [(_ & _ & ->)|IH]); [cbn; congruence | done].
Qed.

Context {S : Type} `{!StateStore S}.
(** Whatever the store does: the view of the member changes along the chain or not at all. *)
Lemma apply_view (st : PersistedConfigState S) updates now st' r :
  ConfigState_apply st updates now = (st', r) ->
  cs_root st' = cs_root st /\ cs_encryption st' = cs_encryption st /\
  (cs_config st' = cs_config st /\ cs_head st' = cs_head st /\ (r = Ok (cs_head st) /\ ub_envelopes updates = [] \/ exists e, r = Err e) \/
   r = Ok (cs_head st') /\ exists raws, raws <> [] /\ (exists u, raws = ub_envelopes u /\ (wire ← Batch_to_bytes updates; Batch_from_bytes wire) = Ok u) /\
     follows (cs_root st) (cs_encryption st) now (cs_config st) (cs_head st) raws (cs_config st') (cs_head st')).
Proof.
  unfold ConfigState_apply; intros Ha; destruct (_ || _); [injection Ha as <- <-; split_and!; eauto 10|].
  destruct (ub_envelopes updates) as [|raw0 raws0] eqn:Henv; [injection Ha as <- <-; split_and!; eauto 10|].
  destruct (prepare_update st updates now) as [[[[c' h'] raw] batch]|e] eqn:Hp; [|injection Ha as <- <-; split_and!; eauto 10].
  destruct (commit (cs_store st) batch) as [s' [ver|e]]; [|injection Ha as <- <-; split_and!; eauto 10].
  destruct (read_back _ _ _ _) as [[[ev hv] sv]|e]; injection Ha as <- <-; [|split_and!; eauto 10].
  split_and!; [done..|]; right; split; [done|]; cbn [cs_config cs_head].
  unfold prepare_update in Hp; apply bind_Ok in Hp as (wire & Hw%map_err_Ok & Hp); apply bind_Ok in Hp as (u & Hu%map_err_Ok & Hp).
  apply bind_Ok in Hp as ([[c1 h1] fin] & [Hf Hfin]%follow_Ok & Hp); apply bind_Ok in Hp as (f & Hf'%ok_or_Ok & Hp).
  exists (ub_envelopes u); split_and!.
  - intros Hnil; destruct Hfin as [[_ ->]|(? & ? & _ & [Hlast _])]; [done|]; by rewrite Hnil in Hlast.
  - exists u; split; [done|]; by rewrite Hw.
  - res_inv; by simplify_eq.
Qed.
End updates.

(** ** What the loop relies on *)
Class ConfigSyncLaws (T : Type) `{!ConfigSyncState T} : Prop :=
  apply_moves_forward st updates now st' r :
    apply_updates st updates now = (st', r) ->
    head_le (sync_head st) (sync_head st') /\ (forall h, r = Ok h -> h = sync_head st').

Section instances.
Context `{Ed25519} `{Blake3} `{Aead} `{Hpke} `{Platform} {S : Type} `{!StateStore S}.

#[global] Instance persisted_sync_laws : ConfigSyncLaws (PersistedConfigState S).
Proof.
  intros st u now st' r Ha; cbn in *.
  destruct (apply_view _ _ _ _ _ Ha) as (_ & _ & [(_ & -> & Hr)|(-> & raws & Hne & _ & (Hrev & Hep & _)%follows_view)]).
  - split; [done|]; intros h ->; destruct Hr as [[[= ->] _]|[e ?]]; done.
  - split; [right; destruct raws; [done|]; unfold len in *; cbn [length] in *; lia|]; by intros h [= <-].
Qed.

(** The authorization, the published configuration and the persisted one are the same. *)
Record in_step (local : EndpointId) (st : LiveConfigState S) : Prop := {
  is_authorizer : ls_authorizer st =
    mkLiveAuthorizer (root_network_id (cs_root (ls_persisted st))) local (cs_config (ls_persisted st));
  is_changes : ls_config_changes st = cs_config (ls_persisted st);
  is_network : cfg_network_id (vc_inner (cs_config (ls_persisted st))) = root_network_id (cs_root (ls_persisted st));
}.
Lemma live_apply_in_step local st updates now st' r :
  in_step local st -> LiveState_apply_updates st updates now = (st', r) ->
  in_step local st' /\ (forall e, r <> Err (inr e)) /\
  exists persisted, ConfigState_apply (ls_persisted st) updates now = (ls_persisted st', persisted) /\
    (forall h, r = Ok h <-> persisted = Ok h).
Proof.
  intros [Ha Hc Hn]; unfold LiveState_apply_updates.
  destruct (ConfigState_apply (ls_persisted st) updates now) as [p res] eqn:Hap.
  destruct (apply_view _ _ _ _ _ Hap) as (Hroot & _ & Hview).
  assert (Hnet : cfg_network_id (vc_inner (cs_config p)) = root_network_id (cs_root (ls_persisted st))).
  { destruct Hview as [(-> & _)|(_ & raws & Hne & _ & (_ & _ & [[? _]|Hf])%follows_view)]; done. }
  destruct res as [h|e].
  - unfold Live_update; rewrite Ha; cbn [la_network_id la_local_endpoint]; rewrite Hnet, bool_decide_true by done; cbn [negb].
    intros [= <- <-]; cbn; split; [by constructor; cbn; rewrite ?Hroot|]; split; [done|]; eexists; split; [done|]; naive_solver.
  - intros [= <- <-]; cbn; split; [|split; [done|]; eexists; split; [done|]; naive_solver].
    destruct Hview as [(Hcfg & _)|[? _]]; [|done]; constructor; cbn; rewrite ?Hroot, ?Hcfg; done.
Qed.
#[global] Instance live_sync_laws : ConfigSyncLaws (LiveConfigState S).
Proof.
  intros st u now st' r Ha; cbn in *; unfold LiveState_apply_updates in Ha.
  destruct (ConfigState_apply (ls_persisted st) u now) as [p res] eqn:Hap.
  destruct (persisted_sync_laws _ _ _ _ _ Hap) as (Hle & Hok); cbn in *.
  destruct res as [h|e]; [|by injection Ha as <- <-].
  unfold Live_update in Ha; destruct (negb _); injection Ha as <- <-; cbn; split; try done; by intros h' [= <-]; apply Hok.
Qed.
End instances.

(** ** The loop *)
Section loop.
Context {T : Type} `{!ConfigSyncState T} `{!ConfigSyncLaws T}.
Context (options : ConfigSyncOptions) (local : EndpointId).
Implicit Types (l : SyncLoop T).

Lemma written_forward st others : head_le (sync_head st) (sync_head (written st others)).
Proof.
  revert st; induction others as [|[u now] others IH]; intros st; [done|]; cbn [written foldl fst snd].
  destruct (apply_updates st u now) as [st1 r] eqn:Ha; cbn [fst]; etransitivity; [apply (apply_moves_forward _ _ _ _ _ Ha) | apply IH].
Qed.
Lemma try_peers_spec peers targets previous start offsets st le st' ok le' :
  targets <> [] -> try_peers peers targets previous start offsets st le = (st', ok, le') ->
  head_le (sync_head st) (sync_head st') /\
  (forall cur n i, ok = Some (cur, n, i) -> cur = sync_head st' /\ (i < length targets)%nat).
Proof.
  intros Hne; revert st le; induction offsets as [|o offsets IH]; cbn [try_peers]; intros st le Ht; [by injection Ht as <- <- <-|].
  destruct (targets !! _) as [t|]; [|by injection Ht as <- <- <-].
  destruct (peers o t previous) as [[u|e] others now]; cbn [tu_answer tu_others tu_now] in Ht; pose proof (written_forward st others) as Hw;
    [|apply IH in Ht as [Hle' ?]; split; [by etransitivity | done]].
  destruct (apply_updates _ u now) as [st1 [h|e]] eqn:Ha; destruct (apply_moves_forward _ _ _ _ _ Ha) as [Hle Hh];
    assert (head_le (sync_head st) (sync_head st1)) as Hle0 by (by etransitivity).
  - injection Ht as <- <- <-; split; [done|]; intros cur n i [= <- _ <-]; split; [by apply Hh|].
    apply Nat.mod_upper_bound; destruct targets; [done | cbn; lia].
  - apply IH in Ht as [Hle' ?]; split; [by etransitivity | done].
Qed.

Record loop_inv (h0 : ConfigHead) l : Prop := {
  li_targets : sl_targets l <> [];
  li_index : (sl_start_index l < length (sl_targets l))%nat;
  li_retry : so_retry_min options <= sl_retry l <= so_retry_max options;
  li_delay : sl_delay l = 0 \/ sl_delay l = so_interval options \/ so_retry_min options <= sl_delay l <= so_retry_max options;
  li_events : (length (sl_events l) <= EVENT_CHANNEL)%nat;
  li_head : head_le h0 (sync_head (sl_state l));
}.
Lemma try_send_length {X} (events : list X) e :
  (length events <= EVENT_CHANNEL)%nat -> (length (try_send events e) <= EVENT_CHANNEL)%nat.
Proof.
  intros He; unfold try_send; destruct (Nat.ltb (length events) 32) eqn:Hl; [|done]; apply Nat.ltb_lt in Hl; rewrite length_app; cbn; lia.
Qed.
Lemma refresh_targets_ok l targets start :
  sl_targets l <> [] -> (sl_start_index l < length (sl_targets l))%nat -> refresh_targets local l = (targets, start) ->
  targets <> [] /\ (start < length targets)%nat.
Proof.
  intros Hne Hi; unfold refresh_targets; destruct (config_peers _ _) as [ts|]; [case_bool_decide as Hts|]; intros [= <- <-]; try done.
  split; [done|]; apply Nat.mod_upper_bound; destruct ts; [done | cbn; lia].
Qed.
Definition options_typed : Prop :=
  0 < so_retry_min options <= so_retry_max options /\ so_retry_max options <= DURATION_MAX.
Lemma next_retry r :
  options_typed -> so_retry_min options <= r <= so_retry_max options ->
  so_retry_min options <= Z.min (duration_saturating_mul r 2) (so_retry_max options) <= so_retry_max options.
Proof. unfold options_typed, duration_saturating_mul; lia. Qed.

Lemma sync_round_inv h0 peers l : options_typed -> loop_inv h0 l -> loop_inv h0 (sync_round options local peers l).
Proof.
  intros Ho []; unfold sync_round; destruct (refresh_targets local l) as [targets start] eqn:Hr.
  destruct (refresh_targets_ok _ _ _ li_targets0 li_index0 Hr) as [Hne Hlt].
  destruct (try_peers _ _ _ _ _ _ _) as [[st' ok] le'] eqn:Ht; destruct (try_peers_spec _ _ _ _ _ _ _ _ _ _ Hne Ht) as [Hle Hok].
  destruct ok as [[[cur n] i]|]; constructor; cbn; try done; try (by etransitivity); try (by apply try_send_length).
  - by eapply Hok.
  - unfold options_typed in Ho; lia.
  - auto.
  - by apply next_retry.
  - auto.
Qed.
Lemma sync_run_inv h0 wakes l : options_typed -> loop_inv h0 l -> loop_inv h0 (sync_run options local l wakes).
Proof.
  intros Ho; revert l; induction wakes as [|w wakes IH]; intros l Hl; [done|]; cbn; apply IH; unfold sync_step.
  destruct (negb _); [done|]; destruct w as [peers| |u now|]; [by apply sync_round_inv| | |]; destruct Hl; constructor; cbn [sl_state sl_targets sl_delay sl_retry sl_start_index sl_events]; try done;
    [|etransitivity; [done | apply written_forward]].
  destruct (sl_events l); cbn in *; lia.
Qed.

(** States with the same head: attempts that fail, and updates with nothing new, may leave
    the state behind with another store. *)
Inductive same_head_from (st : T) : T -> Prop :=
| sh_refl : same_head_from st st
| sh_step st1 u now st2 r : same_head_from st st1 -> apply_updates st1 u now = (st2, r) -> sync_head st2 = sync_head st ->
    same_head_from st st2.
(** The head has moved forward. *)
Definition moved (st st' : T) : Prop := head_revision (sync_head st) < head_revision (sync_head st').
Lemma apply_same_or_moved st st1 u now st2 r :
  same_head_from st st1 \/ moved st st1 -> apply_updates st1 u now = (st2, r) -> same_head_from st st2 \/ moved st st2.
Proof.
  intros [Hs|Hm] Ha; destruct (apply_moves_forward _ _ _ _ _ Ha) as [Hle _].
  - assert (sync_head st1 = sync_head st) as Heq by (by destruct Hs); rewrite Heq in Hle.
    destruct Hle as [Hle|[Hle _]]; [left; by eapply sh_step | by right].
  - right; unfold moved in *; destruct Hle as [->|[? _]]; lia.
Qed.
Lemma written_same_or_moved st st1 others :
  same_head_from st st1 \/ moved st st1 -> same_head_from st (written st1 others) \/ moved st (written st1 others).
Proof.
  revert st1; induction others as [|[u now] others IH]; intros st1 Hst; [done|]; cbn [written foldl fst snd]; apply IH.
  destruct (apply_updates st1 u now) as [st2 r] eqn:Ha; by eapply apply_same_or_moved.
Qed.
Lemma try_peers_moved peers targets previous start offsets st st0 le st' ok le' :
  targets <> [] -> moved st st0 -> try_peers peers targets previous start offsets st0 le = (st', ok, le') -> moved st st'.
Proof.
  intros Hne Hm Ht; destruct (try_peers_spec _ _ _ _ _ _ _ _ _ _ Hne Ht) as [Hle _]; unfold moved in *; destruct Hle as [->|[? _]]; lia.
Qed.
Lemma try_peers_reaches peers targets previous start offsets st st0 le target offset :
  targets <> [] -> same_head_from st st0 \/ moved st st0 -> offset ∈ offsets ->
  targets !! (Nat.modulo (start + offset) (length targets)) = Some target ->
  (forall o, o ∈ offsets -> Nat.modulo (start + o) (length targets) < length targets)%nat ->
  (exists u, tu_answer (peers offset target previous) = Ok u /\
     forall st1, same_head_from st st1 -> exists st2 h, apply_updates st1 u (tu_now (peers offset target previous)) = (st2, Ok h)) ->
  forall st' ok le', try_peers peers targets previous start offsets st0 le = (st', ok, le') -> (exists r, ok = Some r) \/ moved st st'.
Proof.
  intros Hne Hff Hin Htgt Hlt Hgood; revert st0 le Hff; induction offsets as [|o offsets IH]; [set_solver|]; intros st0 le Hff st' ok le'; cbn [try_peers].
  destruct (targets !! Nat.modulo (start + o) (length targets)) as [t|] eqn:Ht;
    [|apply lookup_ge_None in Ht; specialize (Hlt o (list_elem_of_here _ _)); lia].
  pose proof (written_same_or_moved _ _ (tu_others (peers o t previous)) Hff) as Hw; destruct (decide (o = offset)) as [->|Hneq].
  - rewrite Htgt in Ht; injection Ht as <-; destruct Hgood as (u & -> & Hg); destruct Hw as [Hw|Hw].
    + destruct (Hg _ Hw) as (st2 & h & ->); intros [= <- <- <-]; left; eauto.
    + destruct (apply_updates _ u _) as [st2 [h|e]] eqn:Ha; [intros [= <- <- <-]; left; eauto|]; intros Htry; right.
      eapply try_peers_moved; [done| |exact Htry]; destruct (apply_moves_forward _ _ _ _ _ Ha) as [Hle _].
      unfold moved in *; destruct Hle as [->|[? _]]; lia.
  - assert (offset ∈ offsets) as Hin' by set_solver.
    assert (Hlt' : forall o', o' ∈ offsets -> (Nat.modulo (start + o') (length targets) < length targets)%nat)
      by (intros o' Ho'; apply Hlt; by apply list_elem_of_further).
    destruct (tu_answer (peers o t previous)) as [u|e]; [|by apply IH].
    destruct (apply_updates _ u _) as [st1 [h|e]] eqn:Ha; [intros [= <- <- <-]; left; eauto|].
    apply IH; try done; by eapply apply_same_or_moved.
Qed.
(** The rotation visits every index. *)
Lemma rotation_covers start n i : (i < n)%nat -> exists o, o ∈ seq 0 n /\ Nat.modulo (start + o) n = i.
Proof.
  intros Hi; exists (Nat.modulo (i + (n - Nat.modulo start n)) n); split.
  - apply elem_of_seq; pose proof (Nat.mod_upper_bound (i + (n - Nat.modulo start n)) n); lia.
  - rewrite Nat.Div0.add_mod_idemp_r, <- Nat.Div0.add_mod_idemp_l.
    pose proof (Nat.mod_upper_bound start n ltac:(lia)).
    replace (Nat.modulo start n + (i + (n - Nat.modulo start n)))%nat with (i + 1 * n)%nat by lia.
    rewrite Nat.Div0.mod_add; by apply Nat.mod_small.
Qed.
End loop.

(** ** Reaching the head of a peer *)
Section heads.
Context `{Led : Ed25519} `{Lblake : Blake3Laws} `{Laead : Aead} `{Lhpke : Hpke}.
Lemma follows_last root enc now c h raws c' h' :
  follows root enc now c h raws c' h' -> head_hash h' = last_hash (head_hash h) raws.
Proof.
  induction 1 as [c h|c h raw e o raws c' h' He Ho%open_next_head Hf IH]; [done|]; rewrite IH, Ho; unfold last_hash.
  rewrite last_cons; destruct (last raws); [done|].
  apply Envelope_from_bytes_exact in He as [_ ->]; done.
Qed.
Lemma read_history_length {S} `{!StateStore S} (s : S) scope revision count raws :
  read_history s scope revision count = Ok raws -> length raws = count.
Proof.
  revert revision raws; induction count as [|n IH]; cbn; intros revision raws Hr; [by injection Hr as <-|].
  res_inv; simplify_eq; cbn; f_equal; by eapply IH.
Qed.
Lemma far_behind {S} `{!StateStore S} (st : PersistedConfigState S) base :
  0 <= head_revision base < U64_MAX -> MAX_UPDATE_ENVELOPES < head_revision (cs_head st) - head_revision base ->
  exists e, updates_after st base = Err e.
Proof.
  intros Hb Hgap; destruct (updates_after st base) as [b|e] eqn:Hu; [exfalso|by eexists].
  unfold updates_after in Hu; rewrite wrapping_incr_small in Hu by (unfold U64_MAX in *; lia).
  repeat (apply bind_Ok in Hu as (? & ? & Hu)).
  match goal with Hr : read_history _ _ _ _ = Ok _ |- _ => apply read_history_length in Hr as Hlen end.
  apply map_err_Ok, Batch_new_Ok in Hu as [-> [Hc _ _ _]]; cbn in Hc; unfold MAX_UPDATE_ENVELOPES, len in *; lia.
Qed.
End heads.

(** ** The presence loop *)
Section presence_loop.
Context `{Ed25519} `{Blake3} `{Aead} `{Platform}.
Variables (dialer : WeaverDialer) (signing : SigningKeypair) (ttl : Z).

(** What the loop does to the directory are events of discovery. *)
Definition of_presence (ev : DiscoveryEvent) : Prop :=
  match ev with OnPresence _ _ _ | OnPurge _ => True | _ => False end.
Definition reaches (d d' : PresenceDirectory) : Prop :=
  exists evs, Forall of_presence evs /\ forall mdns running,
    discovery_run (mkDiscovery mdns running d) evs = mkDiscovery mdns running d'.
Lemma reaches_refl d : reaches d d.
Proof. by exists []. Qed.
Lemma reaches_trans d d1 d2 : reaches d d1 -> reaches d1 d2 -> reaches d d2.
Proof.
  intros (e1 & Hf1 & H1') (e2 & Hf2 & H2'); exists (e1 ++ e2); split; [by apply Forall_app|]; intros mdns running.
  unfold discovery_run in *; by rewrite foldl_app, H1', H2'.
Qed.
Lemma reaches_step d ev d' :
  of_presence ev -> (forall mdns running, discovery_step (mkDiscovery mdns running d) ev = mkDiscovery mdns running d') -> reaches d d'.
Proof. intros Hev Hs; exists [ev]; split; [by constructor | exact Hs]. Qed.

Lemma refresh_endpoint_reaches tr target config now acc e :
  reaches acc.1.1 (refresh_endpoint dialer tr target config now acc e).1.1.
Proof.
  destruct acc as [[d n] evs]; unfold refresh_endpoint; destruct (lookup_key config e) as [epoch key].
  destruct (query_presence _ _ _ _ _) as [[record|]|]; try apply reaches_refl.
  destruct (apply_encrypted d config record now) as [d' r] eqn:Ha; enough (reaches d d') by (destruct r; done).
  apply (reaches_step d (OnPresence config record now)); [done|]; intros; cbn; by rewrite Ha.
Qed.
Lemma refresh_reaches tr target config now l :
  reaches (pl_directory l) (pl_directory (refresh_remote_presence dialer tr target config now l)).
Proof.
  unfold refresh_remote_presence; destruct (remote_endpoints dialer config) as [es|]; [|apply reaches_refl].
  generalize (dedup (merge_sort endpoint_le es)) as ids; intros ids.
  assert (Hf : forall acc, reaches acc.1.1 (foldl (refresh_endpoint dialer tr target config now) acc ids).1.1).
  { induction ids as [|e ids IH]; intros acc; cbn; [apply reaches_refl|].
    eapply reaches_trans; [apply refresh_endpoint_reaches | apply IH]. }
  specialize (Hf (pl_directory l, 0, pl_events l)); destruct (foldl _ _ _) as [[d n] evs]; cbn in *.
  eapply reaches_trans; [exact Hf|]; by apply (reaches_step d (OnPurge now)).
Qed.
Lemma publish_directory tr target config data now ent l :
  pl_directory (publish_current_presence dialer signing ttl tr target config data now ent l) = pl_directory l /\
  pl_running (publish_current_presence dialer signing ttl tr target config data now ent l) = pl_running l.
Proof. unfold publish_current_presence; destruct (_ <$> data) as [[|c cs]|]; done. Qed.
Lemma presence_step_reaches target l w :
  reaches (pl_directory l) (pl_directory (presence_step dialer signing ttl target l w)).
Proof.
  unfold presence_step; destruct (negb _); [apply reaches_refl|]; destruct w; try apply reaches_refl.
  - rewrite (proj1 (publish_directory _ _ _ _ _ _ _)); apply reaches_refl.
  - apply refresh_reaches.
  - eapply reaches_trans; [|apply refresh_reaches]; rewrite (proj1 (publish_directory _ _ _ _ _ _ _)); apply reaches_refl.
Qed.
Lemma presence_run_reaches target l ws : reaches (pl_directory l) (pl_directory (presence_run dialer signing ttl target l ws)).
Proof.
  revert l; induction ws as [|w ws IH]; intros l; cbn; [apply reaches_refl|].
  eapply reaches_trans; [apply presence_step_reaches | apply IH].
Qed.

(** A step publishes at most one record, numbered above every record before it. *)
Lemma publish_sequence tr target config data now ent l :
  pl_sequence l < U64_MAX -> now < U64_MAX ->
  let l' := publish_current_presence dialer signing ttl tr target config data now ent l in
  l' = l \/ pl_sequence l < pl_sequence l' /\ now < pl_sequence l'.
Proof.
  intros Hl Hn; unfold publish_current_presence; destruct (_ <$> data) as [[|c cs]|]; [by left| |by left]; right; cbn.
  unfold saturating_add; lia.
Qed.
End presence_loop.

(** ** Theorems *)
Section live_claims.
Context `{Ed25519} `{Blake3} `{Aead} `{Hpke} `{Platform} {S : Type} `{!StateStore S}.

(** A sequence of attempts to update. *)
Definition live_run : LiveConfigState S -> list (ConfigUpdateBatch * Z) -> LiveConfigState S :=
  foldl (fun st un => (LiveState_apply_updates st un.1 un.2).1).
Lemma live_run_in_step local us st : in_step local st ->
  in_step local (live_run st us) /\ cs_root (ls_persisted (live_run st us)) = cs_root (ls_persisted st) /\
  head_le (cs_head (ls_persisted st)) (cs_head (ls_persisted (live_run st us))).
Proof.
  revert st; induction us as [|[u now] us IH]; intros st Hst; [done|]; cbn [live_run foldl fst snd].
  destruct (LiveState_apply_updates st u now) as [st1 r] eqn:Ha; cbn [fst].
  destruct (live_apply_in_step _ _ _ _ _ _ Hst Ha) as (Hst1 & _ & p & Hap & _); destruct (IH st1 Hst1) as (? & -> & ?).
  destruct (apply_view _ _ _ _ _ Hap) as (Hroot & _); destruct (live_sync_laws _ _ _ _ _ Ha) as [Hle _].
  split_and!; [done|done|]; by etransitivity.
Qed.

(** The live authorization follows the configuration.  A member that starts its
    authorizer on its stored configuration and then receives any batches, good or bad, at
    any times, on any store, always decides by the configuration it has persisted in
    memory, always tells its subscribers the same configuration, and never goes back to an
    earlier revision. *)
Theorem authorization_follows_configuration (p : PersistedConfigState S) (local : EndpointId) (t : Z) (a : LiveConfigAuthorizer)
    (us : list (ConfigUpdateBatch * Z)) :
  cfg_network_id (vc_inner (cs_config p)) = root_network_id (cs_root p) -> Live_new (cs_config p) local t = Ok a ->
  let st := live_run (LiveState_new p a) us in
  ls_authorizer st = mkLiveAuthorizer (root_network_id (cs_root p)) local (cs_config (ls_persisted st)) /\
  ls_config_changes st = cs_config (ls_persisted st) /\
  head_le (cs_head p) (cs_head (ls_persisted st)).
Proof.
  intros Hn (m & _ & <-%Ok_inj)%bind_Ok; cbv zeta; set (st0 := LiveState_new p _).
  assert (in_step local st0) as Hst by (constructor; cbn; congruence).
  destruct (live_run_in_step local us st0 Hst) as ([Hau Hch _] & Hroot & Hle); rewrite Hau, Hroot; done.
Qed.
End live_claims.

Section loop_claims.
Context {T : Type} `{!ConfigSyncState T} `{!ConfigSyncLaws T}.

(** C36: the anti-entropy loop stays within its bounds.  From its start, through any
    sequence of rounds against any peers, it always has a peer to ask and a valid position
    in the rotation, waits for no time, the configured interval or a backoff between the
    configured minimum and maximum, keeps at most 32 undelivered events, and never moves
    the configuration back. *)
Theorem sync_loop_bounded (dialer : WeaverDialer) (targets : list ConfigPeerDescriptor) (state : T) (options : ConfigSyncOptions)
    (local : EndpointId) (l : SyncLoop T) (wakes : list SyncWake) :
  0 <= so_retry_min options -> so_retry_max options <= DURATION_MAX ->
  spawn_config_anti_entropy dialer targets state options = Some l ->
  loop_inv options (sync_head state) (sync_run options local l wakes).
Proof.
  intros H0 Hmax Hs; unfold spawn_config_anti_entropy in Hs; destruct (_ && _) eqn:Hc; [|done]; injection Hs as <-; bool_inv.
  apply sync_run_inv; [unfold options_typed; lia|]; constructor; cbn.
  - done.
  - destruct targets; [done | cbn; lia].
  - lia.
  - by left.
  - lia.
  - done.
Qed.

(** C20: one good peer is enough.  The peers of a round are asked in turn until one answer
    is applied.  If among them there is one whose answer the state accepts at the head the
    round started from, also after attempts that left this head where it was, then whatever
    the other peers answer and whoever else writes to the state, the round ends with the
    backoff reset and the next round after the regular interval, or else the head has moved
    on to a later revision during the round.  It is never moved back. *)
Theorem one_good_peer_suffices (options : ConfigSyncOptions) (local : EndpointId) (peers : Peers) (l : SyncLoop T)
    (target : ConfigPeerDescriptor) :
  sl_targets l <> [] -> (sl_start_index l < length (sl_targets l))%nat ->
  target ∈ (refresh_targets local l).1 ->
  (forall offset, let turn := peers offset target (sync_head (sl_state l)) in exists u, tu_answer turn = Ok u /\
     forall st1, same_head_from (sl_state l) st1 -> exists st2 h, apply_updates st1 u (tu_now turn) = (st2, Ok h)) ->
  let l' := sync_round options local peers l in
  (sl_delay l' = so_interval options /\ sl_retry l' = so_retry_min options \/ moved (sl_state l) (sl_state l')) /\
  head_le (sync_head (sl_state l)) (sync_head (sl_state l')).
Proof.
  intros Hne Hi Hin Hgood; cbv zeta; unfold sync_round; destruct (refresh_targets local l) as [targets start] eqn:Hr; cbn [fst] in Hin.
  destruct (refresh_targets_ok _ _ _ _ Hne Hi Hr) as [Hne' Hlt]; apply list_elem_of_lookup in Hin as [i Hti].
  destruct (rotation_covers start (length targets) i (lookup_lt_Some _ _ _ Hti)) as (o & Ho & Hoi).
  destruct (try_peers _ _ _ _ _ _ _) as [[st' ok] le'] eqn:Ht; destruct (try_peers_spec _ _ _ _ _ _ _ _ _ _ Hne' Ht) as [Hle _].
  destruct (try_peers_reaches peers targets (sync_head (sl_state l)) start (seq 0 (length targets)) (sl_state l) (sl_state l) None target o)
    with (st' := st') (ok := ok) (le' := le') as [[[[cur n] idx] ->]|Hm];
    [done | left; constructor | done | by rewrite Hoi | intros o' _; apply Nat.mod_upper_bound; lia | apply Hgood | done | by split; [left|] |].
  split; [right|]; by destruct ok as [[[cur n] idx]|].
Qed.

(** Every peer of the round fails to answer, and nobody else writes to the state. *)
Definition unreachable (peers : Peers) : Prop := forall offset target head, exists e now, peers offset target head = mkTurn (Err e) [] now.
Lemma unreachable_try peers ts prev start os (st : T) le :
  unreachable peers -> exists le', try_peers peers ts prev start os st le = (st, None, le').
Proof.
  intros Hp; revert le; induction os as [|o os IH]; intros le; cbn [try_peers]; [eauto|].
  destruct (ts !! _) as [t|]; [|eauto]; destruct (Hp o t prev) as (e & now & ->); by apply IH.
Qed.
Lemma unreachable_round options local peers (l : SyncLoop T) :
  sl_running l = true -> unreachable peers ->
  let l' := sync_step options local l (Woken peers) in
  sl_running l' = true /\ sl_state l' = sl_state l /\ sl_delay l' = sl_retry l /\
  sl_retry l' = Z.min (duration_saturating_mul (sl_retry l) 2) (so_retry_max options).
Proof.
  intros Hrun Hp; cbv zeta; unfold sync_step; rewrite Hrun; cbn [negb]; unfold sync_round.
  destruct (refresh_targets local l) as [ts start].
  by destruct (unreachable_try peers ts (sync_head (sl_state l)) start (seq 0 (length ts)) (sl_state l) None Hp) as [le' ->].
Qed.
Lemma unreachable_run options local rounds (l : SyncLoop T) (k j : nat) :
  options_typed options -> sl_running l = true -> Forall unreachable rounds -> length rounds = Datatypes.S k ->
  sl_retry l = Z.min (so_retry_min options * 2 ^ Z.of_nat j) (so_retry_max options) ->
  let l' := sync_run options local l (Woken <$> rounds) in
  sl_delay l' = Z.min (so_retry_min options * 2 ^ Z.of_nat (j + k)) (so_retry_max options) /\ sl_state l' = sl_state l.
Proof.
  intros [Hmin Hmax]; revert l k j; induction rounds as [|peers rounds IH]; intros l k j Hr Hf Hk Hj; [done|].
  inversion Hf as [|? ? Hp Hf']; subst; destruct (unreachable_round options local peers l Hr Hp) as (Hr1 & Hs1 & Hd1 & Ht1).
  cbn in Hk; cbn; destruct k as [|k].
  - destruct rounds; [|done]; cbn; rewrite Hd1, Hj, Nat.add_0_r; done.
  - rewrite <- Hs1; replace (j + Datatypes.S k)%nat with (Datatypes.S j + k)%nat by lia; apply IH; [done|done|lia|].
    rewrite Ht1, Hj; unfold duration_saturating_mul; rewrite Nat2Z.inj_succ, Z.pow_succ_r by lia.
    pose proof (pow2_pos (Z.of_nat j) ltac:(lia)); nia.
Qed.

(** How long the loop waits when nobody answers: after [n + 1] rounds in which every
    peer fails and nobody else writes to the state, the wait is the minimum doubled [n]
    times, capped at the maximum, and the state has not changed. *)
Theorem backoff_doubles (dialer : WeaverDialer) (targets : list ConfigPeerDescriptor) (state : T) (options : ConfigSyncOptions)
    (local : EndpointId) (l : SyncLoop T) (rounds : list Peers) (n : nat) :
  0 <= so_retry_min options -> so_retry_max options <= DURATION_MAX ->
  spawn_config_anti_entropy dialer targets state options = Some l ->
  Forall unreachable rounds -> length rounds = Datatypes.S n ->
  let l' := sync_run options local l (Woken <$> rounds) in
  sl_delay l' = Z.min (so_retry_min options * 2 ^ Z.of_nat n) (so_retry_max options) /\ sl_state l' = state.
Proof.
  intros H0 Hmax Hs Hf Hn; unfold spawn_config_anti_entropy in Hs; destruct (_ && _) eqn:Hc; [|done]; injection Hs as <-; bool_inv.
  apply (unreachable_run options local rounds (mkSyncLoop state targets 0 (so_retry_min options) 0 [] true) n 0%nat); [unfold options_typed; lia | done | done | done | cbn; lia].
Qed.
End loop_claims.

Section peer_claims.
Context `{Led : Ed25519} `{Lblake : Blake3Laws} `{Laead : Aead} `{Lhpke : Hpke} `{Lplat : Platform}.

(** C11: a successful sync brings a member to its peer's head.  The member fetches over the
    network from another member that has its own head in its history, and applies what it
    gets: its new head then has the revision and the hash of the peer's head. *)
Theorem sync_reaches_peer_head {S S' : Type} `{!StateStore S} `{Lstore : StateStoreLaws S'}
    (st st' : PersistedConfigState S) (server : LiveConfigState S') (m : records) (e : EncryptedConfigEnvelope) (dialer : WeaverDialer)
    (target : ConfigPeerDescriptor) (updates : ConfigUpdateBatch) (now : Z) (h : ConfigHead) :
  let peer := ls_persisted server in
  let scope := StoreScope_member (root_network_id (cs_root peer)) in
  store_rep (cs_store peer) m -> scope_wf scope ->
  vb_bytes <$> m !! (scope, hist_key (head_revision (cs_head peer))) = Some (Envelope_to_bytes e) ->
  envelope_hash e = head_hash (cs_head peer) ->
  cp_network_id target = dl_network_id dialer -> NetworkId_wf (cp_network_id target) -> head_typed (cs_head st) ->
  fetch_config_updates dialer (config_service server target (dl_endpoint_id dialer)) target (cs_head st) = Ok updates ->
  ConfigState_apply st updates now = (st', Ok h) ->
  cs_head st' = h /\ head_revision h = head_revision (cs_head peer) /\ head_hash h = head_hash (cs_head peer).
Proof.
  intros peer scope Hrep Hsc He Hhash Hnet Hwf Hty Hfetch Hap.
  rewrite fetch_over_wire in Hfetch by done; pose proof (offered_Ok _ _ _ _ _ Hfetch) as (Hok & Hun & Hub & _).
  unfold offered in Hfetch; apply bind_Ok in Hfetch as (u & Hu%map_err_Ok & Hfetch).
  assert (u = updates) as -> by (repeat apply bind_Ok in Hfetch as (? & ? & Hfetch); by apply Ok_inj in Hfetch).
  cbv [source_updates_after member_config_source] in Hu; apply map_err_Ok in Hu.
  destruct Hty as (Hep & Hrv & Hhl); assert (0 <= head_revision (cs_head st)) by (unfold in_range in Hrv; bool_inv; lia).
  destruct (served_updates peer m (cs_head st) updates e Hrep Hsc) as (_ & _ & Hlen & Hlast); try done.
  assert (batch_typed updates) as Hbt by (constructor; congruence).
  destruct (apply_view _ _ _ _ _ Hap) as (_ & _ & [(_ & Hh & Hr)|(Hr & raws & Hne & (u' & -> & Hre) & Hf)]).
  - destruct Hr as [[[= ->] Henv]|[? ?]]; [|done]; rewrite Henv in *; unfold len in Hlen; cbn in Hlen; split_and!; [done|lia|exact Hlast].
  - injection Hr as ->; destruct (reparse_batch _ _ Hbt Hre) as [-> _].
    rewrite (follows_last _ _ _ _ _ _ _ _ Hf); destruct (follows_view _ _ _ _ _ _ _ _ Hf) as (Hrev & _); split_and!; [done|lia|done].
Qed.

(** C39: a member that has fallen more than 1024 revisions behind cannot catch up: every
    peer that far ahead rejects its request, whatever its history holds, so that the head
    it asks for never changes. *)
Theorem far_behind_member_is_refused {S : Type} `{!StateStore S} (server : LiveConfigState S) (dialer : WeaverDialer)
    (target : ConfigPeerDescriptor) (head : ConfigHead) :
  cp_network_id target = dl_network_id dialer -> NetworkId_wf (cp_network_id target) -> head_typed head ->
  MAX_UPDATE_ENVELOPES < head_revision (cs_head (ls_persisted server)) - head_revision head ->
  head_revision (cs_head (ls_persisted server)) <= U64_MAX ->
  fetch_config_updates dialer (config_service server target (dl_endpoint_id dialer)) target head = Err ConfigSyncRejected.
Proof.
  intros Hnet Hwf Hty Hgap Hmax; rewrite fetch_over_wire by done; destruct Hty as (_ & Hrv & _); unfold in_range in Hrv; bool_inv.
  destruct (far_behind (ls_persisted server) head) as [e He]; [unfold MAX_UPDATE_ENVELOPES in *; lia | done |].
  unfold offered; cbv [source_updates_after member_config_source]; rewrite He; done.
Qed.
End peer_claims.

Section discovery_claims.
Context `{Ed25519} `{Blake3} `{Aead} `{Platform}.

(** What the presence loop does to the directory is discovery.  Through any sequence of
    publications, queries and triggers, against any peers, the directory changes exactly as
    by some sequence of received presence records and purges, so that everything shown of
    discovery holds of the loop. *)
Theorem presence_loop_is_discovery (dialer : WeaverDialer) (signing : SigningKeypair) (ttl : Z) (target : ConfigPeerDescriptor)
    (l : PresenceLoop) (wakes : list PresenceWake) :
  exists evs, Forall of_presence evs /\ forall mdns running,
    discovery_run (mkDiscovery mdns running (pl_directory l)) evs =
    mkDiscovery mdns running (pl_directory (presence_run dialer signing ttl target l wakes)).
Proof. apply presence_run_reaches. Qed.

(** A connection by virtual address reaches an endpoint that announced it.  After any
    run of discovery, if a client connects to a server address, then the client address is
    bound on this node and the peer is the endpoint of an unexpired presence record that
    lists the server address and that [open] accepted in the run. *)
Theorem virtual_connection_reaches_announcer (dialer : WeaverDialer) (transport : Transport) (local : EndpointId) (s : Discovery)
    (evs : list DiscoveryEvent) (source : ClientAddr) (app : AppAddr) (now : Z) (stream : VirtualStream) :
  let net := dl_network_id dialer in
  discovery_start net local s ->
  connect_virtual dialer transport source (ds_directory (discovery_run s evs)) app now = Ok stream ->
  ClientAddr_scoped source ∈ dl_local_bindings dialer /\ vs_local_addr stream = ClientAddr_scoped source /\
  vs_peer_addr stream = Server app /\
  exists r, accepted net evs r /\ pr_endpoint_id r = vs_peer_endpoint_id stream /\ Server app ∈ pr_virtual_addrs r /\
    now < pr_expires_at_ms r.
Proof.
  intros net Hs Hc; unfold connect_virtual in Hc; apply bind_Ok in Hc as (target & Ht & Hc).
  unfold discovered_descriptor in Ht; apply bind_Ok in Ht as (u & _ & Ht); apply bind_Ok in Ht as (e & He%ok_or_Ok & <-%Ok_inj).
  apply (resolve_exact net local s evs (Server app) e now Hs) in He as (r & _ & Hin & Hx & Hre & Hacc).
  unfold connect in Hc; apply bind_Ok in Hc as (u1 & Hb%fail_if_Ok & Hc); apply bind_Ok in Hc as (u2 & _ & Hc).
  apply bind_Ok in Hc as (request & _ & Hc); apply bind_Ok in Hc as (conn & _ & Hc); apply bind_Ok in Hc as (u3 & Hid%fail_if_Ok & Hc).
  apply bind_Ok in Hc as (u4 & _ & Hc); apply bind_Ok in Hc as (reply & _ & Hc); bool_inv; cbn in Hid.
  destruct (_ =? 0); [|by destruct (_ <=? _)]; injection Hc as <-; cbn; split_and!; try done; exists r; split_and!; try done; congruence.
Qed.
End discovery_claims.

(** ** Witnesses *)
Module NetSyncWitness.
Import Samples EnvelopeWitness ConfigStateWitness.
Definition here : EndpointId := mkEndpointId toy_endpoint.
Definition authorizer : LiveConfigAuthorizer := mkLiveAuthorizer toy_network here (mkValidated genesis).
Definition server_id : EndpointId := NetProtocolWitness.server_id.
Definition dialer : WeaverDialer := mkDialer here toy_network ∅.
Definition target : ConfigPeerDescriptor := mkConfigPeer toy_network server_id None [].
Definition options : ConfigSyncOptions := mkSyncOptions (30 * 10 ^ 9) (5 * 10 ^ 8) (30 * 10 ^ 9).

Lemma starts : Live_new (cs_config member) here 300 = Ok authorizer.
Proof. vm_compute; reflexivity. Qed.
Lemma authorization_follows_configuration_witness :
  ls_config_changes (live_run (LiveState_new member authorizer) [(batch, 300); (batch, 310)]) =
  cs_config (ls_persisted (live_run (LiveState_new member authorizer) [(batch, 300); (batch, 310)])).
Proof.
  exact (proj1 (proj2 (authorization_follows_configuration member here 300 authorizer [(batch, 300); (batch, 310)] eq_refl starts))).
Defined.

Definition current : Peers := fun _ _ _ => mkTurn (Ok batch) [] 300.
Definition silent : Peers := fun _ _ _ => mkTurn (Err Connect) [] 300.
Definition loop : SyncLoop (PersistedConfigState MemoryState) := mkSyncLoop member [target] 0 (so_retry_min options) 0 [] true.
Lemma loop_spawned : spawn_config_anti_entropy dialer [target] member options = Some loop.
Proof.
  unfold spawn_config_anti_entropy; rewrite bool_decide_false by done; cbn [forallb]; by rewrite bool_decide_true.
Qed.
Lemma sync_loop_bounded_witness :
  loop_inv options (sync_head member) (sync_run options here loop [Woken current; Woken silent; StateWritten batch 305; EventTaken; SyncStopped]).
Proof.
  apply (sync_loop_bounded dialer [target] member options here loop [Woken current; Woken silent; StateWritten batch 305; EventTaken; SyncStopped]);
    [by vm_compute | by vm_compute | exact loop_spawned].
Defined.
Lemma backoff_doubles_witness :
  sl_delay (sync_run options here loop (Woken <$> [silent; silent; silent])) = 2 * 10 ^ 9.
Proof.
  refine (proj1 (backoff_doubles dialer [target] member options here loop [silent; silent; silent] 2 _ _ loop_spawned _ eq_refl));
    [by vm_compute | by vm_compute |].
  repeat constructor; intros o t h; exists Connect, 300; done.
Defined.

(** Of two peers the first does not answer and the second has nothing new. *)
Definition other : ConfigPeerDescriptor := mkConfigPeer toy_network (mkEndpointId (repeat Byte.x23 32)) None [].
Definition nothing_new : ConfigUpdateBatch := mkBatch toy_network head [].
Definition second : Peers := fun _ t _ =>
  if decide (cp_endpoint_id t = server_id) then mkTurn (Ok nothing_new) [(nothing_new, 299)] 300 else mkTurn (Err Connect) [] 300.
Definition two : SyncLoop (PersistedConfigState MemoryState) := mkSyncLoop member [other; target] 0 (so_retry_min options) 0 [] true.
Lemma same_head_view (st st1 : PersistedConfigState MemoryState) :
  same_head_from st st1 -> cs_root st1 = cs_root st /\ cs_head st1 = cs_head st.
Proof.
  induction 1 as [|st1 u now st2 r _ [<- _] Ha Hh]; [done|]; split; [|done].
  by destruct (apply_view _ _ _ _ _ Ha) as (Hr & _).
Qed.
Lemma one_good_peer_suffices_witness :
  sl_delay (sync_round options here second two) = 30 * 10 ^ 9 \/ moved (sl_state two) (sl_state (sync_round options here second two)).
Proof.
  destruct (one_good_peer_suffices options here second two target) as [[[Hd _]|Hm] _]; [done | cbn; lia | set_solver | | by left | by right].
  intros offset; exists nothing_new; split; [unfold second; by rewrite decide_True|].
  intros st1 [Hr Hh]%same_head_view; exists st1, (cs_head st1); cbn [apply_updates persisted_sync_state]; unfold ConfigState_apply.
  by rewrite Hr, Hh, !bool_decide_true.
Defined.

(** A member at the first revision asks one that has applied the second. *)
Definition peer : PersistedConfigState MemoryState := mkConfigState (cs_store member') root_public keypair (cs_config member') head'
  (cs_envelope_version member') (cs_head_version member') (cs_signer_version member').
Definition ahead : LiveConfigState MemoryState := LiveState_new peer authorizer.
Definition ahead_records : records := ms_records (cs_store member').
Lemma ahead_history : vb_bytes <$> ahead_records !! (scope, hist_key 1) = Some (Envelope_to_bytes next_envelope).
Proof. vm_compute; reflexivity. Qed.
Lemma fetched : fetch_config_updates dialer (config_service ahead target here) target head = Ok batch.
Proof. vm_compute; reflexivity. Qed.
Lemma head_has_type : head_typed head.
Proof. repeat split; vm_compute; reflexivity. Qed.
#[local] Opaque member' next_envelope.
Lemma ahead_rep : store_rep (cs_store peer) ahead_records.
Proof. reflexivity. Qed.
Lemma sync_reaches_peer_head_witness : head_revision head' = head_revision (cs_head peer).
Proof.
  exact (proj1 (proj2 (sync_reaches_peer_head member member' ahead ahead_records next_envelope dialer target batch 300 head'
    ahead_rep scope_has_type ahead_history eq_refl eq_refl eq_refl head_has_type fetched member_applies))).
Defined.

Definition far : LiveConfigState MemoryState :=
  LiveState_new (mkConfigState member_store root_public keypair (mkValidated genesis) (mkConfigHead 1 1025 zero32) 1 2 3) authorizer.
Lemma far_behind_member_is_refused_witness :
  fetch_config_updates dialer (config_service far target here) target head = Err ConfigSyncRejected.
Proof.
  refine (far_behind_member_is_refused far dialer target head eq_refl _ head_has_type _ _); [done | by vm_compute | by vm_compute].
Defined.

(** A client that dials the application announced by the presence record. *)
Definition app : AppAddr := ar_app_addr (payload registration).
Definition source : ClientAddr := ClientAddr_new app NetAuthorizerWitness.device.
Definition caller : WeaverDialer := mkDialer server_id toy_network {[ClientAddr_scoped source]}.
Definition accepting : Transport := fun addr _ _ => Some (mkConnection addr.1 (Arrived [Byte.x00])).
Lemma resolves : Directory_resolve (ds_directory (discovery_run DirectoryWitness.start DirectoryWitness.run)) (Server app) 400 =
  Some PresenceWitness.endpoint.
Proof.
  apply (resolve_exact toy_network LanWitness.here DirectoryWitness.start _ _ _ _ DirectoryWitness.start_ok).
  exists PresenceWitness.record; split_and!; [apply DirectoryWitness.cached_record | apply list_elem_of_here | done | done |].
  exists DirectoryWitness.config, PresenceWitness.sealed, 320; split_and!; [apply list_elem_of_here | done | apply PresenceWitness.sealed_record_opens].
Qed.
Lemma bound : ClientAddr_scoped source ∈ dl_local_bindings caller.
Proof. cbn [caller dl_local_bindings]; by apply elem_of_singleton. Qed.
Lemma connected :
  connect_virtual caller accepting source (ds_directory (discovery_run DirectoryWitness.start DirectoryWitness.run)) app 400 =
  Ok (mkVirtualStream PresenceWitness.endpoint (ClientAddr_scoped source) (Server app)).
Proof.
  unfold connect_virtual, discovered_descriptor; rewrite resolves, DirectoryWitness.after_run; cbn [dir_network_id].
  rewrite bool_decide_true by done; cbn [negb fail_if bind ok_or]; unfold connect.
  rewrite bool_decide_true by exact bound.
  vm_compute; reflexivity.
Qed.
Lemma virtual_connection_reaches_announcer_witness :
  exists r, accepted toy_network DirectoryWitness.run r /\ pr_endpoint_id r = PresenceWitness.endpoint /\
    Server app ∈ pr_virtual_addrs r /\ 400 < pr_expires_at_ms r.
Proof.
  exact (proj2 (proj2 (proj2 (virtual_connection_reaches_announcer caller accepting LanWitness.here DirectoryWitness.start
    DirectoryWitness.run source app 400 _ DirectoryWitness.start_ok connected)))).
Defined.
End NetSyncWitness.
