(* ===== verification/Membership.v ===== *)
(** * weaver-net: joining and leaving a network

    Models [crates/weaver-net/src/membership.rs]: preparing a join request, joining with the
    ticket the authority answers, redeeming an invitation over the bootstrap protocol, and
    resetting a membership.  The operations work on a state store, a secret store and the
    random source, and any of their calls may fail; a small state monad passes them along
    and keeps what has been written when an operation ends in an error. *)

From S2P Require Import Prelude Wire Core SocketAddr Platform Store CertificateWire Certificates Symmetric Snapshot Envelope.
From S2P Require Import ConfigState JoinTicket Initialize Invitation NetProtocol.

(* weaver-net/src/membership.rs:455-485 MembershipError *)
Inductive MembershipError : Type :=
| MbInsecureStores
| AlreadyJoined
| NotPrepared
| MbRandomness
| MbCorruptSecret
| SecretMismatch (which : bytes)
| TicketMemberMismatch
| MbBootstrap (reason : bytes)
| BootstrapRejected (code : BootstrapRejectCode)
| MbStore (e : StoreError)
| MbSecret (e : SecretStoreError)
| MbCrypto (e : CertificateError)
| MbConfig (e : ConfigError)
| MbAuthority (e : AuthorityError).

Definition KEY_PREPARED_JOIN : bytes := bstr "join/prepared/v1".
Definition KEY_MEMBER_CERTIFICATE : bytes := bstr "membership/certificate/v1".
Definition KEY_ENDPOINT_BINDING : bytes := bstr "membership/endpoint-binding/v1".
Definition SIGNING_LABEL : bytes := bstr "member-signing".
Definition ENCRYPTION_LABEL : bytes := bstr "member-encryption".
Definition ENDPOINT_LABEL : bytes := bstr "endpoint".

(* weaver-net/src/network_handle.rs:399-404 member_secret_id *)
Definition member_secret_id `{Blake3} (network_id : NetworkId) (label : bytes) : SecretId :=
  SecretId_from_bytes (derive_key (bstr "weaver.member.secret-id.v1") (NetworkId_as_bytes network_id ++ label)).

(** ** Programs on the stores *)
(* weaver-net/src/membership.rs:33-38 MembershipStores *)
Record MembershipStores (S K : Type) : Type := mkStores { st_state : S; st_secrets : K; st_allow_insecure_test_stores : bool }.
Arguments mkStores {S K}.
Arguments st_state {S K}.
Arguments st_secrets {S K}.
Arguments st_allow_insecure_test_stores {S K}.

Section programs.
Context {S K : Type} `{StateStore S} `{SecretStore K}.
Definition World : Type := MembershipStores S K * entropy.
Definition memb (A : Type) : Type := World -> World * result MembershipError A.
#[global] Instance memb_ret : MRet memb := fun A a w => (w, Ok a).
#[global] Instance memb_bind : MBind memb := fun A B f m w =>
  match m w with (w', Ok a) => f a w' | (w', Err e) => (w', Err e) end.
Definition mlift {A} (r : result MembershipError A) : memb A := fun w => (w, r).
(** The result of a program that its caller looks at. *)
Definition mtry {A} (m : memb A) : memb (result MembershipError A) := fun w => let '(w', r) := m w in (w', Ok r).
Definition mb_read (scope : StoreScope) (key : StoreKey) : memb (option VersionedBytes) := fun w =>
  (w, map_err MbStore (read (st_state w.1) scope key)).
Definition mb_scan (scope : StoreScope) (prefix : bytes) : memb (list StoredEntry) := fun w =>
  (w, map_err MbStore (scan_prefix (st_state w.1) scope prefix)).
Definition mb_commit (batch : AtomicBatch) : memb Z := fun w =>
  let '(s, r) := commit (st_state w.1) batch in
  ((mkStores s (st_secrets w.1) (st_allow_insecure_test_stores w.1), w.2), map_err MbStore r).
Definition mb_open (id : SecretId) : memb bytes := fun w => (w, map_err MbSecret (open_secret (st_secrets w.1) id)).
Definition mb_seal (id : SecretId) (v : bytes) : memb unit := fun w =>
  let '(k, r) := Store.seal (st_secrets w.1) id v in
  ((mkStores (st_state w.1) k (st_allow_insecure_test_stores w.1), w.2), map_err MbSecret r).
Definition mb_delete (id : SecretId) : memb unit := fun w =>
  let '(k, r) := delete_secret (st_secrets w.1) id in
  ((mkStores (st_state w.1) k (st_allow_insecure_test_stores w.1), w.2), map_err MbSecret r).
Definition mb_random {E A} (err : E -> MembershipError) (p : rnd E A) : memb A := fun w =>
  match p w.2 with Ok (a, ent) => ((w.1, ent), Ok a) | Err e => ((w.1, tail w.2), Err (err e)) end.
Definition mb_key (bs : bytes) : memb StoreKey := mlift (map_err MbStore (StoreKey_new bs)).
Fixpoint mb_for {A} (f : A -> memb unit) (xs : list A) : memb unit :=
  match xs with [] => mret tt | x :: xs => f x;; mb_for f xs end.
End programs.
Arguments World : clear implicits.
Arguments memb : clear implicits.

Section membership.
Context `{Ed25519} `{Blake3} `{Aead} `{Hpke} `{Platform} `{KeyGen} {S K : Type} `{StateStore S} `{SecretStore K} `{Capable S} `{Protected K}.
Implicit Types (network_id : NetworkId).

(* weaver-net/src/membership.rs:443-453 validate_stores *)
Definition validate_stores : memb S K unit := fun w =>
  let state := capabilities (st_state w.1) in
  (w, fail_if (negb (atomic_batches state)
               || negb (durable_commits state) && negb (st_allow_insecure_test_stores w.1)
               || bool_decide (protection (st_secrets w.1) = InMemoryTestOnly) && negb (st_allow_insecure_test_stores w.1))
        MbInsecureStores).

(** ** Secrets *)
(* weaver-net/src/membership.rs:413-425 load_secret_32 *)
Definition load_secret_32 network_id (label : bytes) : memb S K bytes :=
  secret ← mb_open (member_secret_id network_id label);
  mlift (fail_if (negb (Nat.eqb (length secret) 32)) MbCorruptSecret);;
  mret secret.
(* weaver-net/src/membership.rs:427-441 seal *)
Definition seal_member_secret network_id (label secret : bytes) : memb S K unit := mb_seal (member_secret_id network_id label) secret.
(* weaver-net/src/membership.rs:386-393 load_signing *)
Definition load_signing network_id : memb S K SigningKeypair :=
  secret ← load_secret_32 network_id SIGNING_LABEL; mret (SigningKeypair_from_bytes secret).
(* weaver-net/src/membership.rs:395-402 load_encryption *)
Definition load_encryption network_id : memb S K MemberEncryptionKeypair :=
  secret ← load_secret_32 network_id ENCRYPTION_LABEL; mlift (map_err MbConfig (Keypair_from_secret_bytes secret)).
(* weaver-net/src/membership.rs:404-411 load_endpoint *)
Definition load_endpoint network_id : memb S K bytes := load_secret_32 network_id ENDPOINT_LABEL.
(** The common part of the three functions that follow: [make] generates a key with the
    bytes to store, and [load] is what a concurrent creator falls back to. *)
Definition seal_or_load {A} network_id (label : bytes) (key : A) (secret : bytes) (load : memb S K A) : memb S K A :=
  sealed ← mtry (seal_member_secret network_id label secret);
  match sealed with
  | Ok _ => mret key
  | Err (MbSecret AlreadyExistsDifferent) => load
  | Err error => mlift (Err error)
  end.
(* weaver-net/src/membership.rs:326-344 load_or_create_signing *)
Definition load_or_create_signing network_id : memb S K SigningKeypair :=
  found ← mtry (load_secret_32 network_id SIGNING_LABEL);
  match found with
  | Ok secret => mret (SigningKeypair_from_bytes secret)
  | Err (MbSecret SecretNotFound) =>
      key ← mb_random MbCrypto SigningKeypair_generate;
      seal_or_load network_id SIGNING_LABEL key (sk_seed key) (load_signing network_id)
  | Err error => mlift (Err error)
  end.
(* weaver-net/src/membership.rs:346-364 load_or_create_encryption *)
Definition load_or_create_encryption network_id : memb S K MemberEncryptionKeypair :=
  found ← mtry (load_secret_32 network_id ENCRYPTION_LABEL);
  match found with
  | Ok secret => mlift (map_err MbConfig (Keypair_from_secret_bytes secret))
  | Err (MbSecret SecretNotFound) =>
      key ← mb_random MbConfig Keypair_generate;
      seal_or_load network_id ENCRYPTION_LABEL key (ek_secret key) (load_encryption network_id)
  | Err error => mlift (Err error)
  end.
(* weaver-net/src/membership.rs:366-384 load_or_create_endpoint *)
Definition load_or_create_endpoint network_id : memb S K bytes :=
  found ← mtry (load_secret_32 network_id ENDPOINT_LABEL);
  match found with
  | Ok secret => mret secret
  | Err (MbSecret SecretNotFound) =>
      seed ← mb_random MbCrypto draw;
      let key := endpoint_gen seed in
      seal_or_load network_id ENDPOINT_LABEL key key (load_endpoint network_id)
  | Err error => mlift (Err error)
  end.

(** ** Leaving *)
(* weaver-net/src/membership.rs:60-73 NetworkMembership::reset *)
Definition forget_secret network_id (label : bytes) : memb S K unit :=
  deleted ← mtry (mb_delete (member_secret_id network_id label));
  match deleted with
  | Ok _ | Err (MbSecret SecretNotFound) => mret tt
  | Err error => mlift (Err error)
  end.
(* weaver-net/src/membership.rs:45-75 NetworkMembership::reset *)
Definition reset network_id : memb S K unit :=
  validate_stores;;
  let scope := StoreScope_member network_id in
  entries ← mb_scan scope [];
  batch ← mlift (map_err MbStore (try_fold (fun batch entry =>
    AtomicBatch_delete batch (se_key entry) (Exact (vb_version (se_value entry)))) (AtomicBatch_new scope) entries));
  (if bool_decide (batch_operations batch = []) then mret tt else (mb_commit batch;; mret tt));;
  mb_for (forget_secret network_id) [SIGNING_LABEL; ENCRYPTION_LABEL; ENDPOINT_LABEL].

(** ** Joining *)
(* weaver-net/src/membership.rs:215-222 NetworkMembership::prepare_join *)
Definition read_prepared network_id : memb S K PreparedJoinRequest :=
  key ← mb_key KEY_PREPARED_JOIN;
  record ← mb_read (StoreScope_member network_id) key;
  record ← mlift (record ?? NotPrepared);
  mlift (map_err MbCrypto (PreparedJoinRequest_from_bytes (vb_bytes record))).
(* weaver-net/src/membership.rs:197-210 NetworkMembership::prepare_join *)
Definition create_prepared network_id (roles expires_at_ms : Z) : memb S K PreparedJoinRequest :=
  signing ← load_or_create_signing network_id;
  encryption ← load_or_create_encryption network_id;
  endpoint ← load_or_create_endpoint network_id;
  nonce ← mb_random id (fill MbRandomness 32);
  mlift (map_err MbCrypto (PreparedJoinRequest_create network_id signing (ek_public encryption) (endpoint_public endpoint) nonce
                             roles expires_at_ms)).
(* weaver-net/src/membership.rs:176-225 NetworkMembership::prepare_join *)
Definition prepare_join network_id (roles expires_at_ms : Z) : memb S K PreparedJoinRequest :=
  validate_stores;;
  let scope := StoreScope_member network_id in
  head_key ← mb_key CONFIG_HEAD_KEY;
  joined ← mb_read scope head_key;
  mlift (fail_if (bool_decide (is_Some joined)) AlreadyJoined);;
  prepared_key ← mb_key KEY_PREPARED_JOIN;
  existing ← mb_read scope prepared_key;
  match existing with
  | Some record => mlift (map_err MbCrypto (PreparedJoinRequest_from_bytes (vb_bytes record)))
  | None =>
      prepared ← create_prepared network_id roles expires_at_ms;
      batch ← mlift (map_err MbStore (AtomicBatch_put (AtomicBatch_new scope) prepared_key (PreparedJoinRequest_to_bytes prepared) Missing));
      committed ← mtry (mb_commit batch);
      match committed with
      | Ok _ => mret prepared
      | Err (MbStore (VersionConflict _ _ _)) => read_prepared network_id
      | Err error => mlift (Err error)
      end
  end.

(** The keys of the device must be those of the request. *)
(* weaver-net/src/membership.rs:253-264 NetworkMembership::join *)
Definition check_secrets network_id (request : JoinRequestPayload) : memb S K MemberEncryptionKeypair :=
  encryption ← load_encryption network_id;
  mlift (fail_if (negb (bool_decide (ek_public encryption = jr_encryption_public_key request))) (SecretMismatch (bstr "member encryption")));;
  endpoint ← load_endpoint network_id;
  mlift (fail_if (negb (bool_decide (endpoint_public endpoint = jr_endpoint_id request))) (SecretMismatch (bstr "endpoint")));;
  signing ← load_signing network_id;
  mlift (fail_if (negb (bool_decide (SigningKeypair_public_bytes signing = jr_signing_public_key request)))
           (SecretMismatch (bstr "member signing")));;
  mret encryption.
(** The configuration and the certificate of the ticket. *)
(* weaver-net/src/membership.rs:266-282 NetworkMembership::join *)
Definition open_ticket (root : NetworkRootPublic) (ticket : JoinTicket) (request : JoinRequestPayload)
    (encryption : MemberEncryptionKeypair) (now_ms : Z) : result MembershipError OpenedNetworkConfig :=
  admin_certificate ← map_err MbCrypto (AdminCertificate_from_bytes (tk_admin_certificate ticket));
  admin ← map_err MbCrypto (AdminCertificate_verify admin_certificate root (root_network_id root) now_ms ∅);
  envelope ← map_err MbConfig (Envelope_from_bytes (tk_embedded_config ticket));
  opened ← map_err MbConfig (open_config_with_verified_admin envelope root admin encryption (Checkpoint (tk_config_head ticket)) now_ms);
  member ← map_err MbCrypto (MemberCertificate_from_bytes (tk_member_certificate ticket));
  fail_if (negb (bool_decide (mc_member_id (payload member) = jr_member_id request))
           || negb (bool_decide (mc_signing_public_key (payload member) = jr_signing_public_key request))
           || negb (bool_decide (mc_encryption_public_key (payload member) = jr_encryption_public_key request))) TicketMemberMismatch;;
  Ok opened.
(* weaver-net/src/membership.rs:284-313 NetworkMembership::join *)
Definition join_batch (scope : StoreScope) (ticket : JoinTicket) (head : ConfigHead) (prepared_key : StoreKey) (prepared_version : Z)
    : result StoreError AtomicBatch :=
  let put batch key value := (key ← StoreKey_new key; AtomicBatch_put batch key value Missing) in
  batch ← put (AtomicBatch_new scope) CONFIG_ENVELOPE_KEY (tk_embedded_config ticket);
  batch ← put batch CONFIG_HEAD_KEY (encode_head head);
  batch ← put batch CONFIG_SIGNER_CERTIFICATE_KEY (tk_admin_certificate ticket);
  batch ← put batch KEY_MEMBER_CERTIFICATE (tk_member_certificate ticket);
  batch ← put batch KEY_ENDPOINT_BINDING (tk_endpoint_binding ticket);
  AtomicBatch_delete batch prepared_key (Exact prepared_version).
(* weaver-net/src/membership.rs:228-316 NetworkMembership::join *)
Definition join (root : NetworkRootPublic) (ticket : JoinTicket) (now_ms : Z) : memb S K ConfigHead :=
  validate_stores;;
  let network_id := root_network_id root in
  let scope := StoreScope_member network_id in
  prepared_key ← mb_key KEY_PREPARED_JOIN;
  prepared_record ← mb_read scope prepared_key;
  prepared_record ← mlift (prepared_record ?? NotPrepared);
  prepared ← mlift (map_err MbCrypto (PreparedJoinRequest_from_bytes (vb_bytes prepared_record)));
  request ← mlift (map_err MbCrypto (PreparedJoinRequest_verify prepared network_id now_ms));
  let request := vjr_payload request in
  mlift (map_err MbAuthority (Ticket_verify ticket root network_id (jr_nonce request) (jr_endpoint_id request) now_ms));;
  encryption ← check_secrets network_id request;
  opened ← mlift (open_ticket root ticket request encryption now_ms);
  batch ← mlift (map_err MbStore (join_batch scope ticket (onc_head opened) prepared_key (vb_version prepared_record)));
  mb_commit batch;;
  mret (onc_head opened).

(** ** Redeeming an invitation
    The endpoint the exchange is made with belongs to iroh: [transport] connects to an
    address with a protocol, sends the request and receives what comes back.  [now_ms'] is
    the clock when the answer has arrived. *)
(* weaver-net/src/membership.rs:135-159 NetworkMembership::redeem_invitation *)
Definition bootstrap_exchange (transport : Transport) (endpoint_id : EndpointId) (target : EndpointAddr) (alpn request : bytes)
    : result MembershipError BootstrapRedeemResponse :=
  connection ← transport target alpn request ?? MbBootstrap (bstr "connect");
  fail_if (negb (bool_decide (conn_remote_id connection = endpoint_id))) (MbBootstrap (bstr "bootstrap endpoint identity mismatch"));;
  match conn_incoming connection with
  | Silent => Err (MbBootstrap (bstr "bootstrap request timed out"))
  | Arrived response =>
      fail_if (1024 * 1024 <? len response) (MbBootstrap (bstr "stream too long"));;
      map_err MbAuthority (RedeemResponse_from_bytes response)
  end.
(* weaver-net/src/membership.rs:80-172 NetworkMembership::redeem_invitation *)
Definition redeem (transport : Transport) (expected_root : NetworkRootPublic) (invitation : InvitationBundle) (now_ms now_ms' : Z)
    : memb S K ConfigHead :=
  validate_stores;;
  mlift (map_err MbAuthority (Invitation_verify invitation expected_root now_ms));;
  let network_id := iv_network_id invitation in
  mlift (fail_if (negb (bool_decide (network_id = root_network_id expected_root))) (BootstrapRejected RejectInvalid));;
  prepared ← prepare_join network_id MemberRoles.MEMBER (iv_expires_at_ms invitation);
  load_endpoint network_id;;
  relay_url ← mlift (match iv_bootstrap_relay invitation with
                     | None => Ok None
                     | Some text => match relay_url_parse text with Some url => Ok (Some url) | None => Err (MbBootstrap (bstr "relay url")) end
                     end);
  endpoint_id ← mlift (EndpointId_from_bytes (iv_bootstrap_endpoint_id invitation) ?? MbBootstrap (bstr "endpoint id"));
  let target := (endpoint_id, (TransportIp <$> iv_bootstrap_direct_addresses invitation) ++ option_list (TransportRelay <$> relay_url)) in
  request ← mlift (map_err MbAuthority (RedeemRequest_to_bytes (mkRedeemRequest invitation prepared)));
  response ← mlift (bootstrap_exchange transport endpoint_id target (bootstrap_alpn network_id) request);
  match response with
  | Accepted ticket => join expected_root ticket now_ms'
  | Rejected code => mlift (Err (BootstrapRejected code))
  end.
End membership.
