(* ===== verification/MembershipFacts.v ===== *)
(** * Properties of joining and leaving a network

    A join is all or nothing and leaves a configuration the member opens with; preparing
    to join keeps the keys it has made and can be repeated; a reset forgets the network and
    nothing else. *)

From S2P Require Import Prelude Wire Core SocketAddr Platform Store RedbStore CertificateWire Certificates Symmetric ToyCrypto CertificateChain.
From S2P Require Import Snapshot Validate Envelope EnvelopeChain ConfigState ConfigStateFacts JoinTicket Authority AuthorityFacts Initialize.
From S2P Require Import Invitation InvitationFacts NetProtocol Membership.

(** ** Programs *)
Section programs.
Context {S K : Type} `{StateStore S} `{SecretStore K}.
Implicit Types (w : World S K).
Lemma memb_bind_Ok {A B} (m : memb S K A) (f : A -> memb S K B) w w' b :
  (m ≫= f) w = (w', Ok b) <-> exists a w1, m w = (w1, Ok a) /\ f a w1 = (w', Ok b).
Proof. cbv [mbind memb_bind]; destruct (m w) as [w1 [a|e]]; split; [eauto | by intros (? & ? & [= <- <-] & ?) | done | by intros (? & ? & ? & _)]. Qed.
Lemma memb_bind_inv {A B} (m : memb S K A) (f : A -> memb S K B) w w' r :
  (m ≫= f) w = (w', r) -> (exists a w1, m w = (w1, Ok a) /\ f a w1 = (w', r)) \/ exists e, m w = (w', Err e) /\ r = Err e.
Proof. cbv [mbind memb_bind]; destruct (m w) as [w1 [a|e]]; intros Hf; [eauto | injection Hf as <- <-; eauto]. Qed.
Lemma mlift_Ok {A} (r : result MembershipError A) w w' a : mlift r w = (w', Ok a) <-> w' = w /\ r = Ok a.
Proof. unfold mlift; split; [by intros [= <- ->] | by intros [-> ->]]. Qed.

(** Programs that only read. *)
Definition readonly {A} (m : memb S K A) : Prop := forall w, (m w).1 = w.
Lemma readonly_inv {A} (m : memb S K A) w w' r : readonly m -> m w = (w', r) -> w' = w.
Proof. intros Hm Hw; rewrite <- (Hm w), Hw; done. Qed.
Lemma bind_readonly_inv {A B} (m : memb S K A) (f : A -> memb S K B) w w' r :
  readonly m -> (m ≫= f) w = (w', r) -> (exists a, m w = (w, Ok a) /\ f a w = (w', r)) \/ w' = w /\ exists e, r = Err e.
Proof.
  intros Hm [(a & w1 & Ha & Hf)|(e & He & ->)]%memb_bind_inv; [|right; split; [by eapply readonly_inv | eauto]].
  pose proof (readonly_inv _ _ _ _ Hm Ha) as ->; eauto.
Qed.
Lemma readonly_bind {A B} (m : memb S K A) (f : A -> memb S K B) : readonly m -> (forall a, readonly (f a)) -> readonly (m ≫= f).
Proof. intros Hm Hf w; cbv [mbind memb_bind]; specialize (Hm w); destruct (m w) as [w1 [a|e]]; cbn in *; subst; [apply Hf | done]. Qed.
Lemma readonly_lift {A} (r : result MembershipError A) : readonly (mlift r).
Proof. done. Qed.
Lemma readonly_ret {A} (a : A) : readonly (mret a).
Proof. done. Qed.
Lemma readonly_read scope key : readonly (mb_read scope key).
Proof. done. Qed.
Lemma readonly_open id : readonly (mb_open id).
Proof. done. Qed.
Lemma readonly_scan scope prefix : readonly (mb_scan scope prefix).
Proof. done. Qed.
Lemma readonly_key bs : readonly (mb_key bs).
Proof. done. Qed.
End programs.
Create HintDb readonly.
#[export] Hint Resolve readonly_bind readonly_lift readonly_ret readonly_read readonly_open readonly_scan readonly_key : readonly.
(** One bind of a successful run, or the end of it. *)
Ltac mrun H :=
  let a := fresh "a" in let w := fresh "w" in let Ha := fresh "Ha" in
  apply memb_bind_Ok in H as (a & w & Ha & H); try (apply mlift_Ok in Ha as [-> Ha]).

(** One bind with a program that only reads: it succeeds, or the whole ends where it began. *)
Ltac mread H :=
  let a := fresh "a" in let Ha := fresh "Ha" in
  apply bind_readonly_inv in H as [(a & Ha & H)|H]; [try (apply mlift_Ok in Ha as [_ Ha]) | by left | auto 10 with readonly].
Section joining.
Context `{Led : Ed25519} `{Lblake : Blake3Laws} `{Laead : Aead} `{Lhpke : Hpke} `{Lplat : Platform}.
Context {S K : Type} `{Lstore : StateStoreLaws S} `{Lsecrets : SecretStore K} `{Capable S} `{Protected K}.
Implicit Types (w : World S K) (network_id : NetworkId) (m : records).

Lemma readonly_validate : readonly (validate_stores (S := S) (K := K)).
Proof. done. Qed.
Lemma readonly_secret network_id label : readonly (load_secret_32 (S := S) (K := K) network_id label).
Proof. unfold load_secret_32; auto 10 with readonly. Qed.
Hint Resolve readonly_validate readonly_secret : readonly.
Lemma readonly_encryption network_id : readonly (load_encryption (S := S) (K := K) network_id).
Proof. unfold load_encryption; auto 10 with readonly. Qed.
Lemma readonly_endpoint network_id : readonly (load_endpoint (S := S) (K := K) network_id).
Proof. unfold load_endpoint; auto 10 with readonly. Qed.
Lemma readonly_signing network_id : readonly (load_signing (S := S) (K := K) network_id).
Proof. unfold load_signing; auto 10 with readonly. Qed.
Hint Resolve readonly_encryption readonly_endpoint readonly_signing : readonly.
Lemma readonly_check network_id request : readonly (check_secrets (S := S) (K := K) network_id request).
Proof. unfold check_secrets; repeat (apply readonly_bind; [auto with readonly | intros]); auto with readonly. Qed.
Lemma readonly_prepared network_id : readonly (read_prepared (S := S) (K := K) network_id).
Proof. unfold read_prepared; repeat (apply readonly_bind; [auto with readonly | intros]); auto with readonly. Qed.
Hint Resolve readonly_check readonly_prepared : readonly.

(** The keys of the records a membership consists of. *)
Definition prepared_key : StoreKey := mkStoreKey KEY_PREPARED_JOIN.
Definition certificate_key : StoreKey := mkStoreKey KEY_MEMBER_CERTIFICATE.
Definition binding_key : StoreKey := mkStoreKey KEY_ENDPOINT_BINDING.
Lemma membership_keys_ok : StoreKey_new KEY_PREPARED_JOIN = Ok prepared_key /\ StoreKey_new KEY_MEMBER_CERTIFICATE = Ok certificate_key /\
  StoreKey_new KEY_ENDPOINT_BINDING = Ok binding_key /\
  StoreKey_wf prepared_key /\ StoreKey_wf certificate_key /\ StoreKey_wf binding_key.
Proof. vm_compute; repeat split; intros; discriminate. Qed.

(** ** What a join checks and writes *)
Record join_checked (w : World S K) (root : NetworkRootPublic) (ticket : JoinTicket) (now : Z) (record : VersionedBytes)
    (prepared : PreparedJoinRequest) (request : JoinRequestPayload) (encryption : MemberEncryptionKeypair) (opened : OpenedNetworkConfig) : Prop := {
  jc_record : read (st_state w.1) (StoreScope_member (root_network_id root)) prepared_key = Ok (Some record);
  jc_prepared : PreparedJoinRequest_from_bytes (vb_bytes record) = Ok prepared;
  jc_request : PreparedJoinRequest_verify prepared (root_network_id root) now = Ok (mkVerifiedJoinRequest request);
  jc_ticket : Ticket_verify ticket root (root_network_id root) (jr_nonce request) (jr_endpoint_id request) now = Ok tt;
  jc_secrets : check_secrets (root_network_id root) request w = (w, Ok encryption);
  jc_opened : open_ticket root ticket request encryption now = Ok opened;
}.
Lemma join_inv root ticket now w w' r :
  join root ticket now w = (w', r) ->
  w' = w /\ (exists e, r = Err e) \/
  exists record prepared request encryption opened batch s' v,
    join_checked w root ticket now record prepared request encryption opened /\
    join_batch (StoreScope_member (root_network_id root)) ticket (onc_head opened) prepared_key (vb_version record) = Ok batch /\
    commit (st_state w.1) batch = (s', v) /\
    w' = (mkStores s' (st_secrets w.1) (st_allow_insecure_test_stores w.1), w.2) /\
    r = (v ← map_err MbStore v; Ok (onc_head opened)).
Proof.
  unfold join; cbv zeta; set (network_id := root_network_id root); intros Hj.
  do 10 mread Hj; right; apply map_err_Ok in Ha0 as Ha0; rewrite (proj1 membership_keys_ok) in Ha0; injection Ha0 as <-.
  repeat match goal with Hx : map_err _ _ = Ok _ |- _ => apply map_err_Ok in Hx end; apply ok_or_Ok in Ha2 as ->; destruct a4 as [request], a5.
  unfold mb_commit in Hj; cbv [mbind memb_bind] in Hj; destruct (commit (st_state w.1) a8) as [s' v] eqn:Hc.
  exists a2, a3, request, a6, a7, a8, s', v; split; [by constructor|]; split_and!; [done|done| |]; destruct v; by injection Hj as <- <-.
Qed.
Lemma join_batch_ok scope ticket head version batch :
  scope_wf scope -> join_batch scope ticket head prepared_key version = Ok batch ->
  batch_wf batch /\ batch_scope batch = scope /\ len (tk_embedded_config ticket) <= MAX_VALUE_LEN /\
  batch_operations batch = [Put envelope_key (tk_embedded_config ticket) Missing; Put head_key (encode_head head) Missing;
    Put signer_key (tk_admin_certificate ticket) Missing; Put certificate_key (tk_member_certificate ticket) Missing;
    Put binding_key (tk_endpoint_binding ticket) Missing; Delete prepared_key (Exact version)].
Proof.
  intros Hsc; unfold join_batch; destruct membership_keys_ok as (_ & -> & -> & Hwp & Hwc & Hwb); destruct fixed_keys_wf as (Hwe & Hwh & Hws).
  rewrite envelope_key_Ok, head_key_Ok, signer_key_Ok; cbn [mbind result_bind]; intros Hb.
  apply bind_Ok in Hb as (b1 & Hb1 & Hb); pose proof (AtomicBatch_put_value _ _ _ _ _ Hb1).
  apply (AtomicBatch_put_wf _ _ _ _ _ (AtomicBatch_new_wf scope Hsc) Hwe) in Hb1 as (Hw1 & Hs1 & Ho1).
  apply bind_Ok in Hb as (b2 & Hb2 & Hb); apply (AtomicBatch_put_wf _ _ _ _ _ Hw1 Hwh) in Hb2 as (Hw2 & Hs2 & Ho2).
  apply bind_Ok in Hb as (b3 & Hb3 & Hb); apply (AtomicBatch_put_wf _ _ _ _ _ Hw2 Hws) in Hb3 as (Hw3 & Hs3 & Ho3).
  apply bind_Ok in Hb as (b4 & Hb4 & Hb); apply (AtomicBatch_put_wf _ _ _ _ _ Hw3 Hwc) in Hb4 as (Hw4 & Hs4 & Ho4).
  apply bind_Ok in Hb as (b5 & Hb5 & Hb); apply (AtomicBatch_put_wf _ _ _ _ _ Hw4 Hwb) in Hb5 as (Hw5 & Hs5 & Ho5).
  apply (AtomicBatch_delete_wf _ _ _ _ Hw5 Hwp) in Hb as (Hw6 & Hs6 & Ho6).
  rewrite Ho6, Ho5, Ho4, Ho3, Ho2, Ho1; split_and!; [done | cbn in *; congruence | done | done].
Qed.
(** The records of the scope after a join. *)
Record joined (scope : StoreScope) (m : records) (ticket : JoinTicket) (head : ConfigHead) (m' : records) : Prop := {
  jd_fresh : m !! (scope, head_key) = None;
  jd_envelope : vb_bytes <$> m' !! (scope, envelope_key) = Some (tk_embedded_config ticket);
  jd_head : vb_bytes <$> m' !! (scope, head_key) = Some (encode_head head);
  jd_signer : vb_bytes <$> m' !! (scope, signer_key) = Some (tk_admin_certificate ticket);
  jd_certificate : vb_bytes <$> m' !! (scope, certificate_key) = Some (tk_member_certificate ticket);
  jd_binding : vb_bytes <$> m' !! (scope, binding_key) = Some (tk_endpoint_binding ticket);
  jd_prepared : m' !! (scope, prepared_key) = None;
  jd_others scope' key : scope' <> scope \/ key ∉ [envelope_key; head_key; signer_key; certificate_key; binding_key; prepared_key] ->
    m' !! (scope', key) = m !! (scope', key);
}.
Lemma join_batch_effect scope ticket head version batch m m' :
  scope_wf scope -> join_batch scope ticket head prepared_key version = Ok batch ->
  preconditions m batch -> batch_effect m batch m' -> joined scope m ticket head m'.
Proof.
  intros Hsc (_ & Hs & _ & Hops)%join_batch_ok Hp [Hin Hout]; [|done].
  unfold preconditions in Hp; rewrite Hops, Hs in *; rewrite Forall_forall in Hp.
  constructor.
  - specialize (Hp (Put head_key (encode_head head) Missing) ltac:(do 1 right; left)); cbn in Hp; unfold actual_version in Hp.
    by destruct (m !! (scope, head_key)).
  - apply (Hin (Put envelope_key (tk_embedded_config ticket) Missing)); left.
  - apply (Hin (Put head_key (encode_head head) Missing)); do 1 right; left.
  - apply (Hin (Put signer_key (tk_admin_certificate ticket) Missing)); do 2 right; left.
  - apply (Hin (Put certificate_key (tk_member_certificate ticket) Missing)); do 3 right; left.
  - apply (Hin (Put binding_key (tk_endpoint_binding ticket) Missing)); do 4 right; left.
  - apply (fmap_None vb_bytes), (Hin (Delete prepared_key (Exact version))); do 5 right; left.
  - intros scope' key Hk; by apply Hout.
Qed.

(** C16: a join is all or nothing.  It never touches the secrets; if it succeeds, the
    checkpoint of the ticket, the certificate and the binding are in the store and the
    prepared request is gone, and nothing else has changed; if it fails, the store is as it
    was, unless the store itself reported an error, in which case all of the join may have
    been written. *)
Theorem join_all_or_nothing (w w' : World S K) (m : records) (root : NetworkRootPublic) (ticket : JoinTicket) (now : Z)
    (r : result MembershipError ConfigHead) :
  let scope := StoreScope_member (root_network_id root) in
  store_rep (st_state w.1) m -> scope_wf scope -> join root ticket now w = (w', r) ->
  st_secrets w'.1 = st_secrets w.1 /\
  match r with
  | Ok head => exists m', store_rep (st_state w'.1) m' /\ joined scope m ticket head m'
  | Err e => store_rep (st_state w'.1) m \/
      (exists message, e = MbStore (Backend message)) /\ exists m' head, store_rep (st_state w'.1) m' /\ joined scope m ticket head m'
  end.
Proof.
  intros scope Hrep Hsc [[-> [e ->]]|(record & prepared & request & encryption & opened & batch & s' & v & _ & Hb & Hc & -> & ->)]%join_inv;
    [split; auto|]; split; [done|]; destruct (join_batch_ok _ _ _ _ _ Hsc Hb) as (Hw & _); destruct v as [v|e]; cbn.
  - destruct (commit_success _ _ _ _ _ Hrep Hw Hc) as (Hp & m' & Hm' & He); exists m'; split; [done | by eapply join_batch_effect].
  - destruct (commit_failure _ _ _ _ _ Hrep Hw Hc) as [?|([msg ->] & Hp & m' & Hm' & He)]; [by left|right].
    split; [eauto|]; exists m', (onc_head opened); split; [done | by eapply join_batch_effect].
Qed.

(** ** Opening what has been joined *)
Lemma open_ticket_Ok root ticket request encryption now opened :
  open_ticket root ticket request encryption now = Ok opened ->
  exists e a va, Envelope_from_bytes (tk_embedded_config ticket) = Ok e /\ AdminCertificate_from_bytes (tk_admin_certificate ticket) = Ok a /\
    AdminCertificate_verify a root (root_network_id root) now ∅ = Ok va /\
    open_config_with_verified_admin e root va encryption (Checkpoint (onc_head opened)) now = Ok opened /\
    onc_head opened = envelope_head e /\ tk_config_head ticket = envelope_head e /\
    config_valid (vc_inner (onc_config opened)) root (root_network_id root) now.
Proof.
  unfold open_ticket; intros Ho; apply bind_Ok in Ho as (a & Ha%map_err_Ok & Ho); apply bind_Ok in Ho as (va & Hva%map_err_Ok & Ho).
  apply bind_Ok in Ho as (e & He%map_err_Ok & Ho); apply bind_Ok in Ho as (o & Hop%map_err_Ok & Ho).
  apply bind_Ok in Ho as (mem & _ & Ho); apply bind_Ok in Ho as (u & _ & <-%Ok_inj); exists e, a, va.
  pose proof Hop as Hop'; unfold open_config_with_verified_admin in Hop; apply bind_Ok in Hop as (u1 & Hn%fail_if_Ok & Hop).
  apply bind_Ok in Hop as (u2 & _ & Hop); apply bind_Ok in Hop as (u3 & _ & Hop); apply bind_Ok in Hop as (u4 & _ & Hop).
  apply bind_Ok in Hop as (oc & Hoc & Hd); apply open_verified_Ok in Hoc as Hoc'; destruct Hoc' as (_ & Hch & Hhd & _).
  apply decode_and_validate_Ok in Hd as (c & _ & _ & _ & _ & _ & Hv & ->); cbn [onc_head onc_config]; rewrite Hhd.
  unfold validate_chain in Hch; apply fail_if_Ok in Hch; bool_inv.
  assert (tk_config_head ticket = envelope_head e) as Hth by (destruct (tk_config_head ticket); cbn in *; unfold envelope_head; congruence).
  rewrite Hth, Hhd in Hop'; split_and!; try done; by replace (root_network_id root) with (env_network_id e) by congruence.
Qed.
Lemma put_first scope key value expected :
  len value <= MAX_VALUE_LEN -> exists batch, AtomicBatch_put (AtomicBatch_new scope) key value expected = Ok batch.
Proof.
  intros Hlen; unfold AtomicBatch_put, insert_unique; destruct (Z.ltb_spec MAX_VALUE_LEN (len value)); [lia|].
  cbn [fail_if mbind result_bind AtomicBatch_new batch_keys]; rewrite bool_decide_false by set_solver; eauto.
Qed.
Lemma hist_key_fresh revision : hist_key revision ∉ [envelope_key; head_key; signer_key; certificate_key; binding_key; prepared_key].
Proof.
  rewrite !not_elem_of_cons; split_and!; [..|apply not_elem_of_nil];
    intros Heq%(f_equal (fun k => take 4 (drop 14 (StoreKey_as_bytes k)))); vm_compute in Heq; discriminate Heq.
Qed.
(** Seeding the history fails only in the store, or over an entry with another envelope. *)
Lemma seed_history_cases s m scope revision envelope s' e :
  store_rep s m -> scope_wf scope -> len envelope <= MAX_VALUE_LEN ->
  seed_history s scope revision envelope = (s', Err e) ->
  (exists key se, read s scope key = Err se /\ e = CsStore se) \/ (exists batch se, commit s batch = (s', Err se)) \/
  exists v, m !! (scope, hist_key revision) = Some v /\ vb_bytes v <> envelope.
Proof.
  intros Hrep Hsc Hlen; unfold seed_history; rewrite history_key_Ok; cbn [map_err mbind result_bind].
  destruct (read s scope (hist_key revision)) as [o|se] eqn:Ho; cbn [map_err mbind result_bind]; [|intros [= <- <-]; left; eauto].
  apply (read_rep _ _ _ _ _ Hrep Hsc) in Ho as ->; destruct (m !! (scope, hist_key revision)) as [v|] eqn:Hv.
  - case_bool_decide; [done|]; intros _; right; right; eauto.
  - destruct (put_first scope (hist_key revision) envelope Missing Hlen) as [batch ->].
    destruct (commit s batch) as [s1 [v|x]] eqn:Hc; [done|]; intros Hs; right; left; exists batch, x; rewrite Hc.
    by destruct x; injection Hs as <- _.
Qed.

End joining.
#[export] Hint Resolve readonly_validate readonly_secret readonly_encryption readonly_endpoint readonly_signing readonly_check readonly_prepared : readonly.

(** ** Preparing to join *)
Section preparing.
Context `{Led : Ed25519Laws} `{Lblake : Blake3Laws} `{Laead : Aead} `{Lkeys : KeyGenLaws}.
Context {S K : Type} `{Lstore : StateStoreLaws S} `{Lsecrets : SecretStoreLaws K} `{Capable S} `{Protected K}.
Implicit Types (w : World S K) (network_id : NetworkId) (m : records).

Definition secrets_of w : gmap SecretId bytes := secret_view (st_secrets w.1).
(** Reached by sealing alone: what every seal keeps is kept. *)
Definition sealed_from (k k' : K) : Prop := forall P : K -> Prop, (forall k id v, P k -> P (Store.seal k id v).1) -> P k -> P k'.
(** What a program that makes keys may do: the state store is left alone and no secret is
    changed or removed. *)
Definition grows w w' : Prop :=
  st_state w'.1 = st_state w.1 /\ secrets_of w ⊆ secrets_of w' /\ sealed_from (st_secrets w.1) (st_secrets w'.1).
(** The key that [f] makes of the secret under a label. *)
Definition held {A} (f : bytes -> result MembershipError A) network_id (label : bytes) w (key : A) : Prop :=
  exists secret, secrets_of w !! member_secret_id network_id label = Some secret /\ length secret = 32%nat /\ f secret = Ok key.
Lemma grows_same w w' : w'.1 = w.1 -> grows w w'.
Proof. unfold grows, secrets_of; intros ->; by split_and!; [| |intros P]. Qed.
Lemma grows_refl w : grows w w.
Proof. by apply grows_same. Qed.
Hint Resolve grows_refl : core.
Lemma grows_trans w w1 w' : grows w w1 -> grows w1 w' -> grows w w'.
Proof. intros (? & ? & Hk1) (? & ? & Hk2); split_and!; [congruence | by etrans | intros P HP Hk; by apply Hk2, Hk1]. Qed.
Lemma held_grows {A} (f : bytes -> result MembershipError A) network_id label w w' key :
  held f network_id label w key -> grows w w' -> held f network_id label w' key.
Proof. intros (secret & Hs & Hl & Hf) (_ & Hsub & _); exists secret; split_and!; [by eapply lookup_weaken | done..]. Qed.

Lemma load_secret_inv network_id label w w' r :
  load_secret_32 network_id label w = (w', r) ->
  w' = w /\ match r with
  | Ok secret => secrets_of w !! member_secret_id network_id label = Some secret /\ length secret = 32%nat
  | Err _ => True
  end.
Proof.
  intros Hl; pose proof (readonly_inv _ _ _ _ (readonly_secret _ _) Hl) as ->; split; [done|]; destruct r as [secret|]; [|done].
  unfold load_secret_32 in Hl; apply memb_bind_Ok in Hl as (x & w1 & Hx & Hl); unfold mb_open in Hx; injection Hx as <- Hx.
  apply map_err_Ok, open_view in Hx; apply memb_bind_Ok in Hl as ([] & w2 & Hy & Hl); apply mlift_Ok in Hy as [-> Hy]; injection Hl as ->.
  apply fail_if_Ok in Hy; bool_inv; by rewrite Nat.eqb_eq in Hy.
Qed.
Lemma load_held {A} (f : bytes -> result MembershipError A) network_id label w w' r :
  (secret ← load_secret_32 network_id label; mlift (f secret)) w = (w', r) ->
  w' = w /\ forall key, r = Ok key -> held f network_id label w key.
Proof.
  intros Hl; pose proof (readonly_inv _ _ _ _ (readonly_bind _ _ (readonly_secret _ _) (fun _ => readonly_lift _)) Hl) as ->; split; [done|].
  intros key ->; apply memb_bind_Ok in Hl as (secret & w1 & Hs & Hl); apply load_secret_inv in Hs as [-> [Hs Hlen]].
  apply mlift_Ok in Hl as [_ Hl]; by exists secret.
Qed.
(** Sealing a secret never replaces one. *)
Lemma seal_grows network_id label secret w w' r :
  seal_member_secret network_id label secret w = (w', r) ->
  grows w w' /\ (r = Ok tt -> secrets_of w' !! member_secret_id network_id label = Some secret).
Proof.
  unfold seal_member_secret, mb_seal; destruct (Store.seal _ _ _) as [k [[]|e]] eqn:Hs; intros [= <- <-]; unfold grows, secrets_of; cbn [fst st_state st_secrets];
    assert (sealed_from (st_secrets w.1) k) as Hk by (intros P HP Hp; eapply HP in Hp; by rewrite Hs in Hp).
  - apply seal_success in Hs as [-> Hold]; split; [split_and!; [done| |done] | intros _; by rewrite lookup_insert_eq].
    destruct Hold as [Hold|Hold]; [by apply insert_subseteq | by rewrite insert_id].
  - split; [split_and!; [done| |done]|done]; apply seal_failure in Hs as [->|(_ & Hnone & ->)]; [done | by apply insert_subseteq].
Qed.
Lemma seal_or_load_held {A} (f : bytes -> result MembershipError A) network_id label key secret load w w' r :
  f secret = Ok key -> length secret = 32%nat -> (forall w, load w = (secret ← load_secret_32 network_id label; mlift (f secret)) w) ->
  seal_or_load network_id label key secret load w = (w', r) -> grows w w' /\ forall key', r = Ok key' -> held f network_id label w' key'.
Proof.
  intros Hf Hlen Hload; unfold seal_or_load; cbv [mbind memb_bind mtry]; destruct (seal_member_secret _ _ _ w) as [w1 r1] eqn:Hs.
  apply seal_grows in Hs as [Hg Hin]; destruct r1 as [[]|e].
  - intros [= <- <-]; split; [done|]; intros key' [= <-]; exists secret; auto.
  - assert (mlift (Err e) w1 = (w', r) -> grows w w' /\ forall key', r = Ok key' -> held f network_id label w' key') as Hend by (by intros [= <- <-]).
    destruct e as [| | | | | | | | | |[]| | |]; try exact Hend.
    rewrite Hload; intros [-> Hk]%load_held; split; [done | exact Hk].
Qed.
(** The shape of the three functions that load a key or make one. *)
Lemma load_or_create_held {A} (f : bytes -> result MembershipError A) network_id label (make load prog : memb S K A) secret_of w w' r :
  (forall w, prog w = (found ← mtry (load_secret_32 network_id label);
     match found with
     | Ok secret => mlift (f secret)
     | Err (MbSecret SecretNotFound) => key ← make; seal_or_load network_id label key (secret_of key) load
     | Err error => mlift (Err error)
     end) w) ->
  (forall w w' r, make w = (w', r) -> w'.1 = w.1 /\ forall key, r = Ok key -> f (secret_of key) = Ok key /\ length (secret_of key) = 32%nat) ->
  (forall w, load w = (secret ← load_secret_32 network_id label; mlift (f secret)) w) ->
  prog w = (w', r) -> grows w w' /\ forall key, r = Ok key -> held f network_id label w' key.
Proof.
  intros Hprog Hmake Hload; rewrite Hprog; cbv [mbind memb_bind mtry]; destruct (load_secret_32 _ _ w) as [w1 r1] eqn:Hl.
  apply load_secret_inv in Hl as [-> Hl]; destruct r1 as [secret|e].
  - intros [= <- <-]; split; [done|]; intros key Hf; destruct Hl; by exists secret.
  - assert (mlift (Err e) w = (w', r) -> grows w w' /\ forall key, r = Ok key -> held f network_id label w' key) as Hend by (by intros [= <- <-]).
    destruct e as [| | | | | | | | | |[]| | |]; try exact Hend.
    destruct (make w) as [w2 r2] eqn:Hm; apply Hmake in Hm as [Hsame Hkey]; assert (grows w w2) as Hg by (by apply grows_same).
    destruct r2 as [key|e]; [|by intros [= <- <-]]; destruct (Hkey key eq_refl) as [Hf Hlen].
    intros [Hg' Hk]%(seal_or_load_held f); [|done..]; split; [by eapply grows_trans | exact Hk].
Qed.

Lemma random_same {E A} (err : E -> MembershipError) (p : rnd E A) w w' r :
  mb_random err p w = (w', r) -> w'.1 = w.1 /\ forall a, r = Ok a -> exists ent, p w.2 = Ok (a, ent).
Proof. unfold mb_random; destruct (p w.2) as [[a ent]|e]; intros [= <- <-]; split; try done; intros a' [= <-]; eauto. Qed.
Lemma signing_held network_id w w' r :
  load_or_create_signing network_id w = (w', r) ->
  grows w w' /\ forall key, r = Ok key -> held (fun secret => Ok (SigningKeypair_from_bytes secret)) network_id SIGNING_LABEL w' key.
Proof.
  apply (load_or_create_held _ _ _ (mb_random MbCrypto SigningKeypair_generate) (load_signing network_id) _ sk_seed); [done| |done].
  intros w1 w2 r1 [Hs Hr]%random_same; split; [done|]; intros key [ent Hg]%Hr; unfold SigningKeypair_generate in Hg.
  apply rnd_bind_Ok in Hg as (bs & e1 & Hf%fill_Ok & [= <- _]); done.
Qed.
Lemma encryption_held network_id w w' r :
  load_or_create_encryption network_id w = (w', r) ->
  grows w w' /\ forall key, r = Ok key -> held (fun secret => map_err MbConfig (Keypair_from_secret_bytes secret)) network_id ENCRYPTION_LABEL w' key.
Proof.
  apply (load_or_create_held _ _ _ (mb_random MbConfig Keypair_generate) (load_encryption network_id) _ ek_secret); [done| |done].
  intros w1 w2 r1 [Hs Hr]%random_same; split; [done|]; intros key [ent Hg]%Hr; unfold Keypair_generate in Hg.
  apply rnd_bind_Ok in Hg as (seed & e1 & _ & Hg); pose proof (kem_gen_pair seed); pose proof (kem_gen_valid seed) as Hv; pose proof (kem_gen_len seed) as [Hl1 Hl2].
  destruct (kem_gen seed) as [secret public]; cbn [fst snd] in *; subst public.
  apply rnd_bind_Ok in Hg as (? & ? & _ & Hg); apply rnd_bind_Ok in Hg as (? & ? & _ & [= <- _]); cbn [ek_secret].
  unfold Keypair_from_secret_bytes; by rewrite Hv; cbn; rewrite Hl2.
Qed.
Lemma endpoint_held network_id w w' r :
  load_or_create_endpoint network_id w = (w', r) -> grows w w' /\ forall key, r = Ok key -> held Ok network_id ENDPOINT_LABEL w' key.
Proof.
  apply (load_or_create_held _ _ _ (seed ← mb_random MbCrypto draw; mret (endpoint_gen seed)) (load_endpoint network_id) _ id).
  - intros w1; unfold load_or_create_endpoint; cbv [mbind memb_bind mtry]; destruct (load_secret_32 _ _ w1) as [w2 [secret|[| | | | | | | | | |[]| | |]]]; try done.
    destruct (mb_random _ _ w2) as [w3 [seed|]]; done.
  - intros w1 w2 r1; cbv [mbind memb_bind]; destruct (mb_random _ _ w1) as [w3 [seed|e]] eqn:Hm; apply random_same in Hm as [Hs _];
      intros [= <- <-]; (split; [done|]); [|done]; intros key [= <-]; split; [done | apply endpoint_gen_len].
  - intros w1; cbv [mbind memb_bind]; unfold load_endpoint; by destruct (load_secret_32 _ _ w1) as [w2 [|]].
Qed.

(** The secrets of the device are the keys of a join request. *)
Record request_held network_id w (request : JoinRequestPayload) : Prop := {
  rh_network : jr_network_id request = network_id;
  rh_signing : exists secret, secrets_of w !! member_secret_id network_id SIGNING_LABEL = Some secret /\ length secret = 32%nat /\
    jr_signing_public_key request = ed_public secret /\ jr_member_id request = derive_member_id network_id (ed_public secret);
  rh_encryption : exists secret, secrets_of w !! member_secret_id network_id ENCRYPTION_LABEL = Some secret /\ length secret = 32%nat /\
    Keypair_from_secret_bytes secret = Ok (mkEncryptionKeypair secret (kem_sk_to_pk secret)) /\ jr_encryption_public_key request = kem_sk_to_pk secret;
  rh_endpoint : exists secret, secrets_of w !! member_secret_id network_id ENDPOINT_LABEL = Some secret /\ length secret = 32%nat /\
    jr_endpoint_id request = endpoint_public secret;
}.
Lemma create_prepared_held network_id roles expires_at_ms w w' r :
  NetworkId_wf network_id -> is_u32 roles = true -> is_u64 expires_at_ms = true ->
  create_prepared network_id roles expires_at_ms w = (w', r) ->
  grows w w' /\ forall p, r = Ok p ->
    request_held network_id w' (payload (pj_request p)) /\ PreparedJoinRequest_from_bytes (PreparedJoinRequest_to_bytes p) = Ok p /\
    jr_expires_at_ms (payload (pj_request p)) = expires_at_ms /\
    forall now, now < expires_at_ms -> PreparedJoinRequest_verify p network_id now = Ok (mkVerifiedJoinRequest (payload (pj_request p))).
Proof.
  intros Hn Hro Hex; unfold create_prepared; intros [(signing & w1 & Hs & Hc)|(e & Hs & ->)]%memb_bind_inv; apply signing_held in Hs as [Hg1 Hs]; [|done].
  apply memb_bind_inv in Hc as [(encryption & w2 & He & Hc)|(e & He & ->)]; apply encryption_held in He as [Hg2 He]; [|by split; [eapply grows_trans|]].
  apply memb_bind_inv in Hc as [(endpoint & w3 & Hp & Hc)|(e & Hp & ->)]; apply endpoint_held in Hp as [Hg3 Hp]; [|by split; [eauto using grows_trans|]].
  apply memb_bind_inv in Hc as [(nonce & w4 & Hr & Hc)|(e & Hr & ->)]; apply random_same in Hr as [Hw Hr];
    assert (grows w3 w4) as Hg4 || assert (grows w3 w') as Hg4; try (by apply grows_same); [|by split; [eauto using grows_trans|]].
  injection Hc as <- <-; split; [eauto using grows_trans|]; intros p Hcr%map_err_Ok; destruct (Hr _ eq_refl) as [ent Hnonce%fill_Ok].
  pose proof (held_grows _ _ _ _ _ _ (Hs _ eq_refl) (grows_trans _ _ _ Hg2 (grows_trans _ _ _ Hg3 Hg4))) as (s1 & Hs1 & Hl1 & [= <-]).
  pose proof (held_grows _ _ _ _ _ _ (He _ eq_refl) (grows_trans _ _ _ Hg3 Hg4)) as (s2 & Hs2 & Hl2 & Hk2%map_err_Ok).
  pose proof (held_grows _ _ _ _ _ _ (Hp _ eq_refl) Hg4) as (s3 & Hs3 & Hl3 & [= <-]).
  pose proof Hk2 as Hk2'; unfold Keypair_from_secret_bytes in Hk2; res_inv; bool_inv; cbn [ek_public] in *.
  match goal with Hx : Nat.eqb (length (kem_sk_to_pk s2)) 32 = true |- _ => apply Nat.eqb_eq in Hx as Hlp end.
  pose proof (fun now => prepared_join_accepted _ _ _ _ _ _ _ now p Hn (Hl1 : length (sk_seed (SigningKeypair_from_bytes s1)) = _) Hlp
    (endpoint_public_len s3) Hnonce Hro Hex Hcr) as Hacc.
  unfold PreparedJoinRequest_create in Hcr; apply bind_Ok in Hcr as (rq & Hrq & Hcr); apply bind_Ok in Hcr as (eb & _ & [= <-]); cbn [pj_request] in *.
  unfold JoinRequest_create in Hrq; apply bind_Ok in Hrq as (? & _ & [= <-]); cbn [payload] in *.
  split_and!; [constructor; cbn; eauto 10 | apply (Hacc (expires_at_ms - 1)); lia | done | intros now Hnow; by apply Hacc].
Qed.

Lemma read_prepared_none network_id w m :
  store_rep (st_state w.1) m -> scope_wf (StoreScope_member network_id) -> m !! (StoreScope_member network_id, prepared_key) = None ->
  exists e, (read_prepared network_id w).2 = Err e.
Proof.
  intros Hrep Hsc Hnone; unfold read_prepared, mb_key; rewrite (proj1 membership_keys_ok); cbv [mbind memb_bind mlift mb_read map_err].
  destruct (read (st_state w.1) _ prepared_key) as [o|] eqn:Ho; [|cbn; eauto]; apply (read_rep _ _ _ _ _ Hrep Hsc) in Ho as ->; rewrite Hnone; cbn; eauto.
Qed.
(** The course of [prepare_join]. *)
Lemma prepare_join_inv network_id roles expires_at_ms w w' r :
  let scope := StoreScope_member network_id in
  prepare_join network_id roles expires_at_ms w = (w', r) ->
  w' = w /\ (exists e, r = Err e) \/
  read (st_state w.1) scope head_key = Ok None /\
  ((exists record, read (st_state w.1) scope prepared_key = Ok (Some record) /\ w' = w /\
      r = map_err MbCrypto (PreparedJoinRequest_from_bytes (vb_bytes record))) \/
   read (st_state w.1) scope prepared_key = Ok None /\ exists w1 r1, create_prepared network_id roles expires_at_ms w = (w1, r1) /\
     (w' = w1 /\ (exists e, r = Err e) \/
      exists p batch s' v, r1 = Ok p /\
        AtomicBatch_put (AtomicBatch_new scope) prepared_key (PreparedJoinRequest_to_bytes p) Missing = Ok batch /\
        commit (st_state w1.1) batch = (s', v) /\ w' = (mkStores s' (st_secrets w1.1) (st_allow_insecure_test_stores w1.1), w1.2) /\
        match v with Ok _ => r = Ok p | Err _ => (exists e, r = Err e) \/ (forall msg, v <> Err (Backend msg)) /\ r = (read_prepared network_id w').2 end)).
Proof.
  intros scope Hpj; unfold prepare_join in Hpj; cbv zeta in Hpj; fold scope in Hpj; mread Hpj; mread Hpj.
  apply map_err_Ok in Ha0; rewrite head_key_Ok in Ha0; injection Ha0 as <-; mread Hpj; mread Hpj; mread Hpj; mread Hpj.
  apply map_err_Ok in Ha2; rewrite (proj1 membership_keys_ok) in Ha2; injection Ha2 as <-; apply map_err_Ok in Ha0, Ha3.
  apply fail_if_Ok, bool_decide_eq_false in Ha1; destruct a0 as [|]; [by destruct Ha1|]; right; split; [done|].
  destruct a3 as [record|]; [left; exists record; by injection Hpj as <- <-|right; split; [done|]].
  destruct (create_prepared network_id roles expires_at_ms w) as [w1 r1] eqn:Hc; exists w1, r1; split; [done|].
  cbv [mbind memb_bind] in Hpj; rewrite Hc in Hpj; destruct r1 as [p|e]; [|left; injection Hpj as <- <-; eauto].
  unfold mlift in Hpj at 1; destruct (AtomicBatch_put _ _ _ _) as [batch|e] eqn:Hb; cbn [map_err] in Hpj; [|left; injection Hpj as <- <-; eauto].
  right; exists p, batch; unfold mtry, mb_commit in Hpj; destruct (commit (st_state w1.1) batch) as [s' v]; exists s', v; split_and!; try done.
  - destruct v as [v|e]; [by injection Hpj as <- _|]; destruct e; cbn [map_err] in Hpj; try by injection Hpj as <- _.
    pose proof (readonly_inv _ _ _ _ (readonly_prepared _) Hpj); done.
  - destruct v as [v|e]; [by injection Hpj as _ <-|]; destruct e; cbn [map_err] in Hpj; try (injection Hpj as _ <-; eauto).
    right; pose proof (readonly_inv _ _ _ _ (readonly_prepared _) Hpj) as ->; by rewrite Hpj.
Qed.

(** Preparing to join can be repeated and loses no key.  Whatever happens, no secret is
    changed or removed, nothing but the prepared request is written, and a request that has
    been prepared stays; when it succeeds, the store holds the request it returns, so that
    a second attempt returns the same one, and a request that is made on the way carries
    the public keys of the device's three secrets and verifies until it expires. *)
Theorem prepare_join_keeps_keys (w w' : World S K) (m : records) (network_id : NetworkId) (roles expires_at_ms : Z)
    (r : result MembershipError PreparedJoinRequest) :
  let scope := StoreScope_member network_id in
  store_rep (st_state w.1) m -> scope_wf scope -> NetworkId_wf network_id -> is_u32 roles = true -> is_u64 expires_at_ms = true ->
  prepare_join network_id roles expires_at_ms w = (w', r) ->
  secrets_of w ⊆ secrets_of w' /\
  exists m', store_rep (st_state w'.1) m' /\
    (forall scope' key, (scope', key) <> (scope, prepared_key) -> m' !! (scope', key) = m !! (scope', key)) /\
    (forall record, m !! (scope, prepared_key) = Some record -> m' !! (scope, prepared_key) = Some record) /\
    match r with
    | Err _ => True
    | Ok p =>
        m !! (scope, head_key) = None /\
        (exists record, m' !! (scope, prepared_key) = Some record /\ PreparedJoinRequest_from_bytes (vb_bytes record) = Ok p) /\
        (m !! (scope, prepared_key) = None ->
         request_held network_id w' (payload (pj_request p)) /\ jr_expires_at_ms (payload (pj_request p)) = expires_at_ms /\
         forall now, now < expires_at_ms -> PreparedJoinRequest_verify p network_id now = Ok (mkVerifiedJoinRequest (payload (pj_request p))))
    end.
Proof.
  intros scope Hrep Hsc Hn Hro Hex [[-> [e ->]]|(Hhead & [(rec & Hrec & -> & ->)|(Hnone & w1 & r1 & Hc & Hr)])]%prepare_join_inv.
  - split; [done|]; exists m; eauto.
  - apply (read_rep _ _ _ _ _ Hrep Hsc) in Hrec, Hhead; split; [done|]; exists m; split_and!; [done..|].
    destruct (PreparedJoinRequest_from_bytes _) as [p|] eqn:Hp; cbn; [|done]; split_and!; [done | eauto | congruence].
  - apply (read_rep _ _ _ _ _ Hrep Hsc) in Hnone, Hhead; apply create_prepared_held in Hc as [(Hst & Hsub & _) Hp]; [|done..].
    destruct Hr as [[-> [e ->]]|(p & batch & s' & v & -> & Hb & Hcm & -> & Hr)]; [split; [done|]; exists m; rewrite Hst; eauto|].
    split; [done|]; rewrite Hst in Hcm; cbn [fst st_state].
    apply (AtomicBatch_put_wf _ _ _ _ _ (AtomicBatch_new_wf scope Hsc)) in Hb as (Hwb & Hsb & Hops); [|apply membership_keys_ok]; cbn in Hops, Hsb.
    assert (forall m', batch_effect m batch m' -> (exists record, m' !! (scope, prepared_key) = Some record /\ vb_bytes record = PreparedJoinRequest_to_bytes p) /\
      forall scope' key, (scope', key) <> (scope, prepared_key) -> m' !! (scope', key) = m !! (scope', key)) as Heff.
    { intros m' [Hin Hout]; rewrite Hops, Hsb in *; split.
      - specialize (Hin (Put prepared_key (PreparedJoinRequest_to_bytes p) Missing) ltac:(left)); apply fmap_Some in Hin as (record & ? & ?); eauto.
      - intros scope' key Hne; apply Hout; destruct (decide (scope' = scope)) as [->|]; [right|by left]; cbn; rewrite list_elem_of_singleton; congruence. }
    destruct (Hp p eq_refl) as (Hheld & Hwire & Hexp & Hver); destruct v as [v|e].
    + destruct (commit_success _ _ _ _ _ Hrep Hwb Hcm) as (_ & m' & Hm' & He); destruct (Heff _ He) as [(record & Hrec & Hbs) Hout]; subst r.
      exists m'; split_and!; [done | done | congruence | done | exists record; by rewrite Hbs | intros _; split_and!; [destruct Hheld; by constructor | done..]].
    + assert (exists e, r = Err e) as [e' ->].
      { destruct Hr as [?|[Hnb ->]]; [done|]; destruct (commit_failure _ _ _ _ _ Hrep Hwb Hcm) as [Hm'|([msg ->] & _)]; [|by destruct (Hnb msg)].
        by apply (read_prepared_none _ _ m). }
      destruct (commit_failure _ _ _ _ _ Hrep Hwb Hcm) as [Hm'|(_ & _ & m' & Hm' & He)]; [exists m; eauto|].
      destruct (Heff _ He) as [_ Hout]; exists m'; split_and!; [done | done | congruence | done].
Qed.

(** ** Leaving *)
(** A program that works on the secrets of one label. *)
Definition member_ids network_id : list SecretId := member_secret_id network_id <$> [SIGNING_LABEL; ENCRYPTION_LABEL; ENDPOINT_LABEL].
Lemma forget_inv network_id label w w' r :
  forget_secret network_id label w = (w', r) ->
  st_state w'.1 = st_state w.1 /\
  (forall id, id <> member_secret_id network_id label -> secrets_of w' !! id = secrets_of w !! id) /\
  (secrets_of w !! member_secret_id network_id label = None -> secrets_of w' !! member_secret_id network_id label = None) /\
  (r = Ok tt -> secrets_of w' !! member_secret_id network_id label = None).
Proof.
  unfold forget_secret; cbv [mbind memb_bind mtry mb_delete]; set (id0 := member_secret_id network_id label).
  destruct (delete_secret (st_secrets w.1) id0) as [k r0] eqn:Hd; cbn [map_err].
  assert (w' = (mkStores (st_state w.1) k (st_allow_insecure_test_stores w.1), w.2) ->
    (r = Ok tt -> r0 = Ok tt \/ r0 = Err SecretNotFound) ->
    st_state w'.1 = st_state w.1 /\ (forall id, id <> id0 -> secrets_of w' !! id = secrets_of w !! id) /\
    (secrets_of w !! id0 = None -> secrets_of w' !! id0 = None) /\ (r = Ok tt -> secrets_of w' !! id0 = None)) as Hend.
  { intros -> Hr; unfold secrets_of; cbn [fst st_state st_secrets]; assert (secret_view k = secret_view (st_secrets w.1) \/
      secret_view k = delete id0 (secret_view (st_secrets w.1))) as Hv by (destruct r0 as [[]|e]; [right; by apply delete_success | by eapply delete_failure]).
    split_and!; [done| | |].
    - intros id Hid; destruct Hv as [->| ->]; [done | by rewrite lookup_delete_ne].
    - intros Hn; destruct Hv as [->| ->]; [done | by rewrite lookup_delete_eq].
    - intros [->| ->]%Hr; [by rewrite (delete_success _ _ _ Hd), lookup_delete_eq | by apply delete_missing in Hd]. }
  destruct r0 as [[]|e]; cbn [map_err]; [intros [= <- <-]; apply Hend; auto|].
  destruct e; intros [= <- <-]; apply Hend; auto; done.
Qed.
Lemma forget_all_inv network_id labels w w' r :
  mb_for (forget_secret network_id) labels w = (w', r) ->
  st_state w'.1 = st_state w.1 /\
  (forall id, id ∉ member_secret_id network_id <$> labels -> secrets_of w' !! id = secrets_of w !! id) /\
  (forall id, secrets_of w !! id = None -> secrets_of w' !! id = None) /\
  (r = Ok tt -> forall id, id ∈ member_secret_id network_id <$> labels -> secrets_of w' !! id = None).
Proof.
  revert w; induction labels as [|label labels IH]; intros w; cbn [mb_for fmap list_fmap].
  - intros [= <- <-]; split_and!; [done..|]; intros _ id Hid; by apply elem_of_nil in Hid.
  - intros [([] & w1 & Hf & Hl)|(e & Hf & ->)]%memb_bind_inv; apply forget_inv in Hf as (Hs & Ho & Hk & Hg).
    + apply IH in Hl as (Hs' & Ho' & Hk' & Hg'); assert (forall id, secrets_of w !! id = None -> secrets_of w1 !! id = None) as Hn.
      { intros id Hid; destruct (decide (id = member_secret_id network_id label)) as [->|]; [auto | by rewrite Ho]. }
      split_and!; [congruence | | auto |].
      * intros id [Hne Hni]%not_elem_of_cons; by rewrite Ho', Ho.
      * intros Hr id [->|Hid]%elem_of_cons; [auto | by apply Hg'].
    + split_and!; [done| | |done]; [intros id [? _]%not_elem_of_cons; auto|].
      intros id Hid; destruct (decide (id = member_secret_id network_id label)) as [->|]; [auto | by rewrite Ho].
Qed.
(** The batch that deletes what a scan has found. *)
Lemma delete_batch_ok b es b' :
  batch_wf b -> Forall (fun e => StoreKey_wf (se_key e)) es ->
  try_fold (fun batch entry => AtomicBatch_delete batch (se_key entry) (Exact (vb_version (se_value entry)))) b es = Ok b' ->
  batch_wf b' /\ batch_scope b' = batch_scope b /\
  batch_operations b' = batch_operations b ++ ((fun e => Delete (se_key e) (Exact (vb_version (se_value e)))) <$> es).
Proof.
  revert b; induction es as [|e es IH]; intros b Hb Hk; cbn [try_fold fmap list_fmap]; [intros [= <-]; by rewrite app_nil_r|].
  inversion_clear Hk as [|? ? He Hes]; intros (b1 & Hd & Hf)%bind_Ok; apply AtomicBatch_delete_wf in Hd as (Hw & Hs & Ho); [|done..].
  apply IH in Hf as (Hw' & Hs' & Ho'); [|done..]; rewrite Ho', Ho, Hs', Hs, <- app_assoc; done.
Qed.
Lemma scan_all m scope key v : m !! (scope, key) = Some v -> mkStoredEntry key v ∈ scan_records m scope [].
Proof.
  intros Hm; unfold scan_records; rewrite merge_sort_Permutation, list_elem_of_omap; exists ((scope, key), v).
  split; [by apply elem_of_map_to_list|]; unfold scan_entry; cbn; by rewrite bool_decide_true.
Qed.
(** The state after the records have been dealt with: they are gone, or nothing has happened. *)
Lemma reset_records network_id w w' r m :
  let scope := StoreScope_member network_id in
  store_rep (st_state w.1) m -> scope_wf scope -> (forall key v, m !! (scope, key) = Some v -> StoreKey_wf key) ->
  reset network_id w = (w', r) ->
  (exists e, r = Err e) /\ store_rep (st_state w'.1) m /\ secrets_of w' = secrets_of w \/
  exists m' w1, store_rep (st_state w1.1) m' /\ secrets_of w1 = secrets_of w /\
    (forall key, m' !! (scope, key) = None) /\ (forall scope' key, scope' <> scope -> m' !! (scope', key) = m !! (scope', key)) /\
    ((exists e, r = Err e) /\ w' = w1 \/ mb_for (forget_secret network_id) [SIGNING_LABEL; ENCRYPTION_LABEL; ENDPOINT_LABEL] w1 = (w', r)).
Proof.
  intros scope Hrep Hsc Hkeys Hr; unfold reset in Hr; cbv zeta in Hr; fold scope in Hr.
  assert (w' = w /\ (exists e, r = Err e) -> (exists e, r = Err e) /\ store_rep (st_state w'.1) m /\ secrets_of w' = secrets_of w) as Hend
    by (intros [-> ?]; done).
  apply bind_readonly_inv in Hr as [([] & _ & Hr)|Hr]; [|by left; apply Hend|auto with readonly].
  apply bind_readonly_inv in Hr as [(es & Hes & Hr)|Hr]; [|by left; apply Hend|auto with readonly].
  apply bind_readonly_inv in Hr as [(batch & Hb & Hr)|Hr]; [|by left; apply Hend|auto with readonly].
  unfold mb_scan in Hes; injection Hes as Hes%map_err_Ok; apply (scan_rep _ _ _ _ _ Hrep Hsc) in Hes as ->.
  apply mlift_Ok in Hb as [_ Hb%map_err_Ok]; apply delete_batch_ok in Hb as (Hw & Hs & Ho);
    [|by apply AtomicBatch_new_wf | apply Forall_forall; intros e He%scan_records_elem; eauto]; cbn in Hs, Ho.
  assert (forall m', batch_effect m batch m' -> (forall key, m' !! (scope, key) = None) /\
    forall scope' key, scope' <> scope -> m' !! (scope', key) = m !! (scope', key)) as Heff.
  { intros m' [Hin Hout]; rewrite Hs, Ho in *; split; [|auto]; intros key; destruct (m !! (scope, key)) as [v|] eqn:Hm.
    - apply (fmap_None vb_bytes), (Hin (Delete key (Exact (vb_version v)))), list_elem_of_fmap; exists (mkStoredEntry key v); split; [done | by apply scan_all].
    - rewrite <- Hm; apply Hout; right; rewrite <- list_fmap_compose; intros (e & -> & He%scan_records_elem)%list_elem_of_fmap; cbn in Hm; congruence. }
  apply memb_bind_inv in Hr; assert (forall b, (mb_commit (K := K) b;; mret tt) w = let '(s', v) := commit (st_state w.1) b in
    ((mkStores s' (st_secrets w.1) (st_allow_insecure_test_stores w.1), w.2), map_err MbStore (v ← v; Ok tt))) as Hrun
    by (intros b; cbv [mbind memb_bind mb_commit]; by destruct (commit _ b) as [? [|]]).
  case_bool_decide as Hempty.
  - right; exists m, w; rewrite Hempty in Ho; symmetry in Ho; apply fmap_nil_inv in Ho; split_and!; [done|done| |done|].
    + intros key; apply eq_None_not_Some; intros [v Hv%scan_all]; rewrite Ho in Hv; by apply elem_of_nil in Hv.
    + destruct Hr as [(? & ? & [= <- _] & ?)|(e & He & _)]; [by right | by injection He].
  - rewrite Hrun in Hr; destruct (commit (st_state w.1) batch) as [s' v] eqn:Hc.
    set (w1 := (mkStores s' (st_secrets w.1) (st_allow_insecure_test_stores w.1), w.2)) in Hr; destruct v as [v|e].
    + destruct (commit_success _ _ _ _ _ Hrep Hw Hc) as (_ & m' & Hm' & He); destruct (Heff _ He) as [? ?]; right; exists m', w1.
      split_and!; [done..|]; destruct Hr as [([] & w2 & [= <-] & Hf)|(e & He' & _)]; [by right | by injection He'].
    + destruct Hr as [([] & w2 & Hf & _)|(e' & [= <- _] & ->)]; [by injection Hf|].
      destruct (commit_failure _ _ _ _ _ Hrep Hw Hc) as [Hm'|(_ & _ & m' & Hm' & He)]; [left; eauto|right].
      destruct (Heff _ He) as [? ?]; exists m', w1; split_and!; eauto.
Qed.

(** C35: a reset forgets the network and nothing else, records first.  Whatever happens, the
    other scopes and the other secrets are untouched; the records of the network go
    together, and no key goes before them; when it succeeds, the records and the three
    secrets are gone. *)
Theorem reset_forgets_network (w w' : World S K) (m : records) (network_id : NetworkId) (r : result MembershipError unit) :
  let scope := StoreScope_member network_id in
  store_rep (st_state w.1) m -> scope_wf scope -> (forall key v, m !! (scope, key) = Some v -> StoreKey_wf key) ->
  reset network_id w = (w', r) ->
  exists m', store_rep (st_state w'.1) m' /\
    (forall scope' key, scope' <> scope -> m' !! (scope', key) = m !! (scope', key)) /\
    (forall id, id ∉ member_ids network_id -> secrets_of w' !! id = secrets_of w !! id) /\
    (m' = m /\ secrets_of w' = secrets_of w \/ forall key, m' !! (scope, key) = None) /\
    (r = Ok tt -> (forall key, m' !! (scope, key) = None) /\ forall id, id ∈ member_ids network_id -> secrets_of w' !! id = None).
Proof.
  intros scope Hrep Hsc Hkeys [([e ->] & Hm & Hk)|(m' & w1 & Hm & Hk & Hnone & Hout & Hr)]%(reset_records _ _ _ _ m); [| |done..].
  - exists m; rewrite Hk; split_and!; auto; done.
  - destruct Hr as [[[e ->] ->]|(Hst & Hoth & _ & Hgone)%forget_all_inv].
    + exists m'; rewrite Hk; split_and!; auto; done.
    + exists m'; rewrite Hst; split_and!; auto; intros id Hid; rewrite <- Hk; auto.
Qed.
End preparing.
