(* ===== verification/RelayServer.v ===== *)
(** * weaver-relay: the relay binary

    Models [crates/weaver-relay/src/main.rs]: the administrative commands, each a process of
    its own that opens the authority, performs one operation and writes its answer to a new
    file; the serving process with its access policy, the bootstrap protocol that redeems
    invitations, and the task that reloads the authority.  The relay server itself is
    iroh's; clap's parsing and what is printed are left out. *)

From S2P Require Import Prelude Wire Core SocketAddr Platform Store CertificateWire Certificates Symmetric SecretFile Snapshot Envelope.
From S2P Require Import ConfigState JoinTicket Authority Invitation Lan NetProtocol NetAuthorizer.

Inductive CommandError : Type :=
| Bail (text : bytes)
| CmdIo
| CmdAuthority (e : AuthorityError)
| CmdCrypto (e : CertificateError)
| CmdConfig (e : ConfigError).

(** ** Files, the clock and hexadecimal text *)
Abbreviation Files := (gmap bytes bytes).
(** How writing a new file ends when the name is free. *)
Inductive WriteOutcome : Type := Written | NotCreated | Broken (written : nat).
(* weaver-relay/src/main.rs:1211-1222 write_new_file *)
Definition write_new_file (files : Files) (path bs : bytes) (outcome : WriteOutcome) : Files * result CommandError unit :=
  match files !! path with
  | Some _ => (files, Err CmdIo)
  | None => match outcome with
            | Written => (<[path := bs]> files, Ok tt)
            | NotCreated => (files, Err CmdIo)
            | Broken n => (<[path := take n bs]> files, Err CmdIo)
            end
  end.
(* weaver-relay/src/main.rs:1183-1193 read_master_key *)
Definition read_master_key (files : Files) (path : bytes) : result CommandError bytes :=
  bs ← files !! path ?? CmdIo;
  fail_if (negb (Nat.eqb (length bs) 32)) (Bail (bstr "master key file must contain exactly 32 raw bytes"));; Ok bs.
(* weaver-relay/src/main.rs:1097-1107 read_endpoint_key *)
Definition read_endpoint_key (files : Files) (path : bytes) : result CommandError bytes :=
  bs ← files !! path ?? CmdIo;
  fail_if (negb (Nat.eqb (length bs) 32)) (Bail (bstr "endpoint key file must contain exactly 32 raw bytes"));; Ok bs.
(* weaver-relay/src/main.rs:1151-1163 keygen *)
Definition keygen (files : Files) (out : bytes) (outcome : WriteOutcome) (ent : entropy) : Files * result CommandError unit :=
  match fill (Bail (bstr "secure randomness is unavailable")) 32 ent with
  | Err e => (files, Err e)
  | Ok (key, _) => write_new_file files out key outcome
  end.
(** [clock] is the time since the Unix epoch in milliseconds. *)
(* weaver-relay/src/main.rs:1195-1201 now_ms *)
Definition now_ms (clock : Z) : result CommandError Z :=
  fail_if (clock <? 0) (Bail (bstr "system clock is before Unix epoch"));;
  fail_if (negb (is_u64 clock)) (Bail (bstr "system clock exceeds u64 milliseconds"));; Ok clock.
(* weaver-relay/src/main.rs:1224-1231 encode_hex *)
Definition encode_hex (bs : bytes) : bytes := concat (hex_byte <$> bs).
(* weaver-relay/src/main.rs:1233-1243 decode_hex_32 *)
Definition decode_hex_32 (value : bytes) : result CommandError bytes :=
  fail_if (negb (Nat.eqb (length value) 64)) (Bail (bstr "hash must be exactly 64 hexadecimal characters"));;
  try_map (fun pair =>
    fail_if (negb (is_utf8 pair)) (Bail (bstr "invalid utf-8 sequence"));;
    byte ← u8_from_hex pair ?? Bail (bstr "hash is not hexadecimal");
    Ok (byte_of_Z byte)) (pairs value).
(** [checked_mul] on [u64] *)
Definition checked_mul (a b : Z) : option Z := if a * b <=? U64_MAX then Some (a * b) else None.
Definition DAY_MS : Z := 24 * 60 * 60 * 1000.
Definition HOUR_MS : Z := 60 * 60 * 1000.

(* weaver-relay/src/main.rs:384-390 RoleArg *)
Inductive RoleArg : Type := RoleMember | RoleService | RoleRelay | RoleBootstrap.
(* weaver-relay/src/main.rs:498-506 invite *)
Definition member_roles (roles : list RoleArg) : Z :=
  foldl (fun acc role => MemberRoles.union acc (match role with
    | RoleMember => MemberRoles.MEMBER | RoleService => MemberRoles.SERVICE
    | RoleRelay => MemberRoles.RELAY | RoleBootstrap => MemberRoles.BOOTSTRAP end)) 0 roles.
(* weaver-relay/src/main.rs:392-397 RelayRoleArg *)
Inductive RelayRoleArg : Type := RelayDataRelay | RelayBootstrap | RelayPresence.
(* weaver-relay/src/main.rs:688-695 relay_register *)
Definition relay_roles (roles : list RelayRoleArg) : Z :=
  foldl (fun acc role => RelayRoles.union acc (match role with
    | RelayDataRelay => RelayRoles.DATA_RELAY | RelayBootstrap => RelayRoles.BOOTSTRAP | RelayPresence => RelayRoles.PRESENCE end)) 0 roles.

(** ** Who is let in *)
(* weaver-relay/src/main.rs:51-53 MemberRelayAccess *)
Record MemberRelayAccess : Type := mkRelayAccess { mra_allowed : gset bytes }.
Inductive Access : Type := Allow | Deny (reason : option bytes).
(* weaver-relay/src/main.rs:96-109 MemberRelayAccess::on_connect *)
Definition on_connect (access : MemberRelayAccess) (endpoint_id : EndpointId) : Access :=
  if bool_decide (EndpointId_as_bytes endpoint_id ∈ mra_allowed access) then Allow
  else Deny (Some (bstr "endpoint is not a current member of this virtual network")).
(* weaver-relay/src/main.rs:55-57 AuthorityNetworkAuthorizer *)
Record AuthorityNetworkAuthorizer : Type := mkAuthorityAuthorizer { ana_allowed : gset bytes }.
(* weaver-relay/src/main.rs:59-78 AuthorityNetworkAuthorizer *)
#[global] Instance authority_authorizer : NetworkAuthorizer AuthorityNetworkAuthorizer := {|
  allow_config_sync a _ endpoint_id := bool_decide (EndpointId_as_bytes endpoint_id ∈ ana_allowed a);
  allow_presence a _ endpoint_id := bool_decide (EndpointId_as_bytes endpoint_id ∈ ana_allowed a);
  authorized_client_addrs _ _ _ _ := ∅ |}.

(** ** The data directory
    [dd_locked] says that a process has the database open.  [database_create] is what
    [redb::Database::create] answers for a file that is already open, or is not;
    [secrets_open] gives the secrets of a directory under a master key. *)
Class RedbFile : Type := database_create : bool -> result bytes unit.
Class SecretDir (K : Type) : Type := secrets_open : K -> bytes -> K.
(* weaver-store/src/secret_file.rs:34-43 EncryptedFileSecretStore::open *)
#[global] Instance FileSecretDir : SecretDir EncryptedFileSecretStore := fun k master_key => mkFileStore (fs_disk k) master_key.
Class QrCode : Type := qr_svg : bytes -> option bytes.

Record DataDir (S K : Type) : Type := mkDataDir { dd_manifest : option bytes; dd_state : S; dd_secrets : K; dd_locked : bool }.
Arguments mkDataDir {S K}.
Arguments dd_manifest {S K}.
Arguments dd_state {S K}.
Arguments dd_secrets {S K}.
Arguments dd_locked {S K}.

Section relay.
Context `{Ed25519} `{Blake3} `{Aead} `{Hpke} `{Platform} `{Base64} `{RedbFile} `{QrCode}.
Context {S K : Type} `{StateStore S} `{SecretStore K} `{SecretDir K}.
#[local] Abbreviation authority := (Authority S K).
#[local] Abbreviation datadir := (DataDir S K).
Implicit Types (dd : datadir) (a : authority) (files : Files) (ent : entropy).

(* weaver-relay-core/src/lib.rs:313-325 Authority::open *)
Definition Authority_open_dir dd (master_key : bytes) (now : Z) : datadir * result AuthorityError authority :=
  let checked : result AuthorityError unit :=
    manifest ← read_manifest (dd_manifest dd);
    root_public ← map_err AuCrypto (NetworkRootPublic_from_bytes (mf_root_public_key manifest));
    fail_if (negb (bool_decide (root_network_id root_public = mf_network_id manifest))) CorruptState;;
    map_err (fun text => AuStore (Backend text)) (database_create (dd_locked dd)) in
  match checked with
  | Err e => (dd, Err e)
  | Ok _ =>
      let '(s, r) := Authority_open (dd_state dd) (secrets_open (dd_secrets dd) master_key) (dd_manifest dd) now in
      (mkDataDir (dd_manifest dd) s (dd_secrets dd) (dd_locked dd), r)
  end.
(** What a process leaves behind when it ends. *)
Definition left_by dd a : datadir := mkDataDir (dd_manifest dd) (au_state a) (au_secrets a) (dd_locked dd).

(** ** The commands
    The body of a command works on the opened authority and the files. *)
Definition body : Type := authority -> Files -> (authority * Files) * result CommandError unit.
(** [clock] is the time when the authority is opened. *)
(* weaver-relay/src/main.rs:584-587 revoke *)
Definition run_command (dd : datadir) files (master_key_file : bytes) (clock : Z) (run : body)
    : (datadir * Files) * result CommandError unit :=
  match master_key ← read_master_key files master_key_file; now ← now_ms clock; Ok (master_key, now) with
  | Err e => ((dd, files), Err e)
  | Ok (master_key, now) =>
      match Authority_open_dir dd master_key now with
      | (dd, Err e) => ((dd, files), Err (CmdAuthority e))
      | (dd, Ok a) => let '((a, files), r) := run a files in ((left_by dd a, files), r)
      end
  end.
(* weaver-relay/src/main.rs:480-487 status *)
Definition print_status : body := fun a files => ((a, files), Ok tt).
(** An operation that changes the authority and needs no file. *)
Definition operation {A} (prepared : result CommandError A) (run : A -> authority -> authority * result AuthorityError AuthorityStatus) : body :=
  fun a files =>
    match prepared with
    | Err e => ((a, files), Err e)
    | Ok x => let '(a, r) := run x a in ((a, files), _ ← map_err CmdAuthority r; Ok tt)
    end.
(* weaver-relay/src/main.rs:461-464 init *)
Definition valid_for (amount unit_ms : Z) (text : bytes) : result CommandError Z := checked_mul amount unit_ms ?? Bail text.
(* weaver-relay/src/main.rs:489-526 invite *)
Definition invite (request out : bytes) (roles : list RoleArg) (valid_days clock : Z) (outcome : WriteOutcome) ent : body := fun a files =>
  match
    raw ← files !! request ?? CmdIo;
    prepared ← map_err CmdCrypto (PreparedJoinRequest_from_bytes raw);
    valid_for_ms ← valid_for valid_days DAY_MS (bstr "--valid-days is too large");
    now ← now_ms clock;
    Ok (prepared, valid_for_ms, now)
  with
  | Err e => ((a, files), Err e)
  | Ok (prepared, valid_for_ms, now) =>
      match invite_member a (pj_request prepared) (pj_endpoint_binding prepared) (member_roles roles) now valid_for_ms ent with
      | (a, Err e) => ((a, files), Err (CmdAuthority e))
      | (a, Ok ticket) => let '(files, r) := write_new_file files out (Ticket_to_bytes ticket) outcome in ((a, files), r)
      end
  end.
(* weaver-relay/src/main.rs:528-567 invitation_create *)
Definition invitation_create (bootstrap_endpoint : bytes) (direct : list SocketAddr) (relay : option bytes) (client_app_addr : AppAddr)
    (service_name : VirtualName) (valid_hours : Z) (out : bytes) (qr_out : option bytes) (clock : Z) (outcome qr_outcome : WriteOutcome) ent
    : body := fun a files =>
  match valid_for_ms ← valid_for valid_hours HOUR_MS (bstr "--valid-hours is too large"); now ← now_ms clock; Ok (valid_for_ms, now) with
  | Err e => ((a, files), Err e)
  | Ok (valid_for_ms, now) =>
      match create_invitation a bootstrap_endpoint direct relay client_app_addr service_name now valid_for_ms ent with
      | (a, Err e) => ((a, files), Err (CmdAuthority e))
      | (a, Ok invitation) =>
          let text := Invitation_to_text invitation in
          match write_new_file files out text outcome, qr_out with
          | (files, Err e), _ => ((a, files), Err e)
          | (files, Ok _), None => ((a, files), Ok tt)
          | (files, Ok _), Some path =>
              match qr_svg text with
              | None => ((a, files), Err (Bail (bstr "invitation is too large to encode as a QR code")))
              | Some svg => let '(files, r) := write_new_file files path svg qr_outcome in ((a, files), r)
              end
          end
      end
  end.
(* weaver-relay/src/main.rs:569-581 invitation_revoke *)
Definition invitation_revoke (invitation_id : bytes) : body := fun a files =>
  match decode_hex_32 invitation_id with
  | Err e => ((a, files), Err e)
  | Ok id => let '(a, r) := revoke_invitation a id in ((a, files), map_err CmdAuthority r)
  end.
(* weaver-relay/src/main.rs:583-594 revoke *)
Definition revoke (member_id : MemberId) (clock : Z) ent : body :=
  operation (now_ms clock) (fun now a => revoke_member a member_id now ent).
(* weaver-relay/src/main.rs:596-607 app_register *)
Definition app_register (request out : bytes) (clock : Z) (outcome : WriteOutcome) ent : body := fun a files =>
  match raw ← files !! request ?? CmdIo; request ← map_err CmdCrypto (AppRegistrationRequest_from_bytes raw); now ← now_ms clock; Ok (request, now) with
  | Err e => ((a, files), Err e)
  | Ok (request, now) =>
      match register_app a request now ent with
      | (a, Err e) => ((a, files), Err (CmdAuthority e))
      | (a, Ok registered) => let '(files, r) := write_new_file files out (ra_registration registered) outcome in ((a, files), r)
      end
  end.
(* weaver-relay/src/main.rs:609-630 app_enrollment_install *)
Definition app_enrollment_install (app_root_key_file : bytes) : body := fun a files =>
  match
    raw ← files !! app_root_key_file ?? CmdIo;
    fail_if (negb (Nat.eqb (length raw) 32)) (Bail (bstr "application root key must contain exactly 32 raw bytes"));; Ok raw
  with
  | Err e => ((a, files), Err e)
  | Ok bs => let '(a, r) := install_enrollment_app_root a (AppRootKey_from_bytes bs) in ((a, files), map_err CmdAuthority r)
  end.
(* weaver-relay/src/main.rs:632-642 app_bind *)
Definition app_bind (binding : bytes) (clock : Z) ent : body := fun a files =>
  operation (raw ← files !! binding ?? CmdIo; binding ← map_err CmdCrypto (AppBinding_from_bytes raw); now ← now_ms clock; Ok (binding, now))
    (fun x a => authorize_app_binding a x.1 x.2 ent) a files.
(** [now_ms()?], [--valid-days] and the time at which they end. *)
(* weaver-relay/src/main.rs:649-656 dns_set *)
Definition expiry (clock valid_days : Z) (text : bytes) : result CommandError (Z * Z) :=
  now ← now_ms clock;
  valid_for_ms ← valid_for valid_days DAY_MS (bstr "--valid-days is too large");
  expires_at_ms ← checked_add now valid_for_ms ?? Bail text;
  Ok (now, expires_at_ms).
(* weaver-relay/src/main.rs:644-667 dns_set *)
Definition dns_set (name : VirtualName) (app_addr : AppAddr) (valid_days clock : Z) ent : body :=
  operation (expiry clock valid_days (bstr "virtual DNS validity exceeds u64 milliseconds"))
    (fun x a => set_virtual_dns a name app_addr x.2 x.1 ent).
(* weaver-relay/src/main.rs:669-681 dns_remove *)
Definition dns_remove (name : VirtualName) (clock : Z) ent : body :=
  operation (now_ms clock) (fun now a => remove_virtual_dns a name now ent).
(* weaver-relay/src/main.rs:683-710 relay_register *)
Definition relay_register (endpoint_id url : bytes) (roles : list RelayRoleArg) (valid_days clock : Z) ent : body :=
  operation (expiry clock valid_days (bstr "relay validity exceeds u64 milliseconds"))
    (fun x a => register_relay a endpoint_id url (relay_roles roles) x.2 x.1 ent).
(* weaver-relay/src/main.rs:712-723 relay_remove *)
Definition relay_remove (endpoint_id : bytes) (clock : Z) ent : body :=
  operation (now_ms clock) (fun now a => remove_relay a endpoint_id now ent).
(* weaver-relay/src/main.rs:725-743 export_updates *)
Definition export_updates (base_epoch base_revision : Z) (base_hash out : bytes) (outcome : WriteOutcome) : body := fun a files =>
  match
    hash ← decode_hex_32 base_hash;
    updates ← map_err CmdAuthority (config_updates_after a (mkConfigHead base_epoch base_revision hash));
    map_err CmdConfig (Batch_to_bytes updates)
  with
  | Err e => ((a, files), Err e)
  | Ok bs => let '(files, r) := write_new_file files out bs outcome in ((a, files), r)
  end.

(** The command lines that open an authority, with what the environment answers to them.
    The other four do not come here: [Init] creates a directory ([Initialize]), [Keygen]
    ([keygen]) and [BootstrapKeygen] write a key file and open no authority, and [Serve] is
    the rest of this file. *)
(* weaver-relay/src/main.rs:127-152 Command *)
Inductive Command : Type :=
| Status
| Invite (request out : bytes) (roles : list RoleArg) (valid_days clock : Z) (outcome : WriteOutcome) (ent : entropy)
| InvitationCreate (bootstrap_endpoint : bytes) (direct : list SocketAddr) (relay : option bytes) (client_app_addr : AppAddr)
    (service_name : VirtualName) (valid_hours : Z) (out : bytes) (qr_out : option bytes) (clock : Z) (outcome qr_outcome : WriteOutcome) (ent : entropy)
| InvitationRevoke (invitation_id : bytes)
| Revoke (member_id : MemberId) (clock : Z) (ent : entropy)
| AppRegister (request out : bytes) (clock : Z) (outcome : WriteOutcome) (ent : entropy)
| AppEnrollmentInstall (app_root_key_file : bytes)
| AppBind (binding : bytes) (clock : Z) (ent : entropy)
| DnsSet (name : VirtualName) (app_addr : AppAddr) (valid_days clock : Z) (ent : entropy)
| DnsRemove (name : VirtualName) (clock : Z) (ent : entropy)
| RelayRegister (endpoint_id url : bytes) (roles : list RelayRoleArg) (valid_days clock : Z) (ent : entropy)
| RelayRemove (endpoint_id : bytes) (clock : Z) (ent : entropy)
| ExportUpdates (base_epoch base_revision : Z) (base_hash out : bytes) (outcome : WriteOutcome).
(* weaver-relay/src/main.rs:422-434 main *)
Definition command_body (c : Command) : body :=
  match c with
  | Status => print_status
  | Invite request out roles days clock outcome ent => invite request out roles days clock outcome ent
  | InvitationCreate ep direct relay app name hours out qr clock outcome qr_outcome ent =>
      invitation_create ep direct relay app name hours out qr clock outcome qr_outcome ent
  | InvitationRevoke id => invitation_revoke id
  | Revoke member clock ent => revoke member clock ent
  | AppRegister request out clock outcome ent => app_register request out clock outcome ent
  | AppEnrollmentInstall file => app_enrollment_install file
  | AppBind binding clock ent => app_bind binding clock ent
  | DnsSet name app days clock ent => dns_set name app days clock ent
  | DnsRemove name clock ent => dns_remove name clock ent
  | RelayRegister ep url roles days clock ent => relay_register ep url roles days clock ent
  | RelayRemove ep clock ent => relay_remove ep clock ent
  | ExportUpdates epoch revision hash out outcome => export_updates epoch revision hash out outcome
  end.

(** Such processes run one after another on one directory. *)
(* weaver-relay/src/main.rs:418-434 main *)
Definition main (st : datadir * Files) (run : Command * bytes * Z) : (datadir * Files) * result CommandError unit :=
  let '(command, master_key_file, clock) := run in run_command st.1 st.2 master_key_file clock (command_body command).
Definition main_all (st : datadir * Files) (runs : list (Command * bytes * Z)) : datadir * Files :=
  foldl (fun st run => (main st run).1) st runs.

(** ** Serving *)
(* weaver-relay/src/main.rs:399-405 ServeRole *)
Inductive ServeRole : Type := RoleAuto | RoleAuthority | RoleDataRelay | RoleCombined.
(* weaver-relay/src/main.rs:185-222 ServeArgs *)
Record ServeArgs : Type := mkServeArgs {
  sa_role : ServeRole; sa_authority : bool; sa_bootstrap_key : bool; sa_https_listen : bool; sa_allow_insecure_http : bool;
  sa_key_cache_capacity : Z }.
(* weaver-relay/src/main.rs:760-764 serve *)
Definition serve_role (role : ServeRole) (has_authority : bool) : ServeRole :=
  match role with RoleAuto => if has_authority then RoleCombined else RoleDataRelay | role => role end.
Definition runs_data_relay (role : ServeRole) : bool := match role with RoleDataRelay | RoleCombined => true | _ => false end.
Definition runs_authority (role : ServeRole) : bool := match role with RoleAuthority | RoleCombined => true | _ => false end.
(** The parts a process runs: the data relay and whether it checks membership, the
    bootstrap endpoint and the configuration endpoint. *)
Record ServePlan : Type := mkPlan { pl_relay : option bool; pl_bootstrap : bool; pl_config_endpoint : bool }.
(* weaver-relay/src/main.rs:745-778 serve *)
Definition serve_plan (args : ServeArgs) : result CommandError ServePlan :=
  fail_if (sa_key_cache_capacity args =? 0) (Bail (bstr "--key-cache-capacity must be greater than zero"));;
  let role := serve_role (sa_role args) (sa_authority args) in
  fail_if (runs_authority role && negb (sa_authority args))
    (Bail (bstr "--role authority/combined requires --data-dir and --master-key-file"));;
  fail_if (runs_data_relay role && sa_authority args && negb (sa_https_listen args) && negb (sa_allow_insecure_http args))
    (Bail (bstr "authority mode requires --https-listen/--tls-cert/--tls-key"));;
  fail_if (sa_bootstrap_key args && negb (sa_authority args)) (Bail (bstr "--bootstrap-key-file requires authority state"));;
  Ok (mkPlan (if runs_data_relay role then Some (sa_authority args) else None) (sa_bootstrap_key args) (runs_authority role)).

(** The task that reloads the authority: between two ticks; with the directory opened
    again; with its head found different; and with the new authority in place. *)
(* weaver-relay/src/main.rs:918-947 serve *)
Inductive ReloadTask : Type :=
| ReloadIdle
| Reopened (reloaded : authority)
| ReloadChecked (reloaded : authority) (next_allowed : gset bytes)
| ReloadWritten (next_allowed : gset bytes).
(** The serving process: the authority and the endpoints let in, each behind a lock of its
    own; the connections to the bootstrap endpoint whose invitation has been redeemed and
    which have not read the endpoints again yet; and the task that reloads the authority. *)
(* weaver-relay/src/main.rs:780-784 serve *)
Record RelayServer : Type := mkServer {
  sv_authority : authority; sv_allowed : gset bytes; sv_redeemed : gmap nat (EndpointId * JoinTicket); sv_reload : ReloadTask }.
(* weaver-relay/src/main.rs:113-121 AuthoritySource *)
#[global] Instance authority_source : ConfigUpdateSource authority := fun a _ base_head =>
  map_err (fun _ => bstr "authority") (config_updates_after a base_head).

(* weaver-relay/src/main.rs:749-784 serve *)
Definition serve_open dd files (master_key_file : bytes) (clock : Z) : datadir * result CommandError RelayServer :=
  match master_key ← read_master_key files master_key_file; now ← now_ms clock; Ok (master_key, now) with
  | Err e => (dd, Err e)
  | Ok (master_key, now) =>
      match Authority_open_dir dd master_key now with
      | (dd, Err e) => (dd, Err (CmdAuthority e))
      | (dd, Ok a) =>
          let dd := mkDataDir (dd_manifest dd) (au_state a) (au_secrets a) true in
          (dd, allowed ← map_err CmdAuthority (allowed_member_endpoints a); Ok (mkServer a allowed ∅ ReloadIdle))
      end
  end.

(* weaver-relay/src/main.rs:1084-1095 bootstrap_reject_code *)
Definition bootstrap_reject_code (e : AuthorityError) : BootstrapRejectCode :=
  match e with
  | InvitationAlreadyUsed => RejectAlreadyUsed
  | InvitationRevoked => RejectRevoked
  | InvalidInvitation | InvalidJoinRequest | InvalidJoinTicket | AuCrypto _ | ApplicationNotFound => RejectInvalid
  | _ => RejectInternal
  end.
(** A request of an authenticated peer, served with the write guard of the authority, which
    is released at the end of the statement. *)
(* weaver-relay/src/main.rs:1037-1051 start_bootstrap_endpoint *)
Definition bootstrap_redeem (a : authority) (remote_id : EndpointId) (incoming : bytes) (clock : Z) ent : authority * BootstrapRedeemResponse :=
  if 1024 * 1024 <? len incoming then (a, Rejected RejectInvalid)
  else
    match RedeemRequest_from_bytes incoming with
    | Err _ => (a, Rejected RejectInvalid)
    | Ok request =>
        if negb (bool_decide (jr_endpoint_id (payload (pj_request (br_prepared request))) = EndpointId_as_bytes remote_id))
        then (a, Rejected RejectInvalid)
        else
          let now := match now_ms clock with Ok now => now | Err _ => 0 end in
          match redeem_invitation_online a (br_invitation request) (br_prepared request) now ent with
          | (a, Ok ticket) => (a, Accepted ticket)
          | (a, Err error) => (a, Rejected (bootstrap_reject_code error))
          end
    end.
(* weaver-relay/src/main.rs:1072-1077 start_bootstrap_endpoint *)
Definition bootstrap_answer (response : BootstrapRedeemResponse) : option bytes :=
  match RedeemResponse_to_bytes response with Ok bs => Some bs | Err _ => None end.
(** The task of a connection up to the redemption: nothing is answered on another protocol,
    a refusal is answered at once. *)
(* weaver-relay/src/main.rs:1014-1071 start_bootstrap_endpoint *)
Definition bootstrap_connection (sv : RelayServer) (connection : nat) (network_id : NetworkId) (alpn : bytes) (remote_id : EndpointId)
    (incoming : bytes) (clock : Z) ent : RelayServer * option bytes :=
  if negb (bool_decide (alpn = bootstrap_alpn network_id)) then (sv, None)
  else
    match bootstrap_redeem (sv_authority sv) remote_id incoming clock ent with
    | (a, Accepted ticket) => (mkServer a (sv_allowed sv) (<[connection := (remote_id, ticket)]> (sv_redeemed sv)) (sv_reload sv), None)
    | (a, rejected) => (mkServer a (sv_allowed sv) (sv_redeemed sv) (sv_reload sv), bootstrap_answer rejected)
    end.
(** The rest of the task of a redeemed connection: the endpoints are replaced by those of the
    authority at that moment, whose read guard is held meanwhile, and the ticket is sent. *)
(* weaver-relay/src/main.rs:1053-1080 start_bootstrap_endpoint *)
Definition bootstrap_refresh (sv : RelayServer) (connection : nat) : RelayServer * option bytes :=
  match sv_redeemed sv !! connection with
  | None => (sv, None)
  | Some (_, ticket) =>
      let allowed := match allowed_member_endpoints (sv_authority sv) with Ok next_allowed => next_allowed | Err _ => sv_allowed sv end in
      (mkServer (sv_authority sv) allowed (delete connection (sv_redeemed sv)) (sv_reload sv), bootstrap_answer (Accepted ticket))
  end.

(** One step of the task that reloads the authority.  It opens the directory the process
    itself has open. *)
(* weaver-relay/src/main.rs:929-946 serve *)
Definition reload_step dd (master_key : bytes) (sv : RelayServer) (clock : Z) : RelayServer :=
  let a := sv_authority sv in
  let continue task := mkServer a (sv_allowed sv) (sv_redeemed sv) task in
  match sv_reload sv with
  | ReloadIdle =>
      let open_now := mkDataDir (dd_manifest dd) (au_state a) (au_secrets a) (dd_locked dd) in
      match Authority_open_dir open_now master_key (match now_ms clock with Ok now => now | Err _ => 0 end) with
      | (_, Err _) => sv
      | (_, Ok reloaded) => continue (Reopened reloaded)
      end
  | Reopened reloaded =>
      if bool_decide (as_head (au_status reloaded) = as_head (au_status a)) then continue ReloadIdle
      else match allowed_member_endpoints reloaded with
           | Err _ => continue ReloadIdle
           | Ok next_allowed => continue (ReloadChecked reloaded next_allowed)
           end
  | ReloadChecked reloaded next_allowed => mkServer reloaded (sv_allowed sv) (sv_redeemed sv) (ReloadWritten next_allowed)
  | ReloadWritten next_allowed => mkServer a next_allowed (sv_redeemed sv) ReloadIdle
  end.
(** What happens to a serving process: a request arrives on a new connection, a redeemed
    connection goes on, the reload task goes on. *)
Inductive ServerEvent : Type :=
| BootstrapEvent (connection : nat) (network_id : NetworkId) (alpn : bytes) (remote_id : EndpointId) (incoming : bytes) (clock : Z) (ent : entropy)
| RefreshEvent (connection : nat)
| ReloadEvent (master_key : bytes) (clock : Z).
Definition server_step dd (sv : RelayServer) (e : ServerEvent) : RelayServer :=
  match e with
  | BootstrapEvent connection net alpn remote incoming clock ent =>
      match sv_redeemed sv !! connection with
      | Some _ => sv
      | None => (bootstrap_connection sv connection net alpn remote incoming clock ent).1
      end
  | RefreshEvent connection => (bootstrap_refresh sv connection).1
  | ReloadEvent master_key clock => reload_step dd master_key sv clock
  end.
Definition server_run dd (sv : RelayServer) (es : list ServerEvent) : RelayServer := foldl (server_step dd) sv es.

(** One connection from its request to its answer, with what else happens to the process in
    between; and a network that carries a device's request there and the answer back. *)
Definition bootstrap_exchanged dd (sv : RelayServer) (connection : nat) (network_id : NetworkId) (remote_id : EndpointId) (clock : Z) ent
    (meanwhile : list ServerEvent) (alpn incoming : bytes) : RelayServer * option bytes :=
  match bootstrap_connection sv connection network_id alpn remote_id incoming clock ent with
  | (sv, Some answer) => (sv, Some answer)
  | (sv, None) => bootstrap_refresh (server_run dd sv meanwhile) connection
  end.
Definition bootstrap_transport dd (sv : RelayServer) (connection : nat) (network_id : NetworkId) (remote_id : EndpointId) (clock : Z) ent
    (meanwhile : list ServerEvent) : Transport :=
  fun target alpn request =>
    Some (mkConnection target.1 (match (bootstrap_exchanged dd sv connection network_id remote_id clock ent meanwhile alpn request).2 with
                                 | Some bs => Arrived bs | None => Silent end)).
End relay.
Arguments RelayServer : clear implicits.
Arguments ReloadTask : clear implicits.
Arguments Command : clear implicits.
