(* ===== verification/RelayServerFacts.v ===== *)
(** * Properties of the relay binary

    The administrative commands extend one chain of configurations across the processes that
    run them; a device whose invitation has been redeemed is let in by the relay and, with
    the ticket it was answered, joins the network at the authority's head; and while a
    process serves, neither the reload task nor another command can open the authority. *)

From S2P Require Import Prelude Wire Core SocketAddr Platform Store CertificateWire Certificates Symmetric SecretFile ToyCrypto CertificateChain.
From S2P Require Import Snapshot Validate Envelope EnvelopeChain ConfigState ConfigStateFacts JoinTicket Authority AuthorityFacts AuthorityChain AuthorityOps.
From S2P Require Import Initialize Invitation InvitationFacts InvitationChain Lan NetProtocol NetAuthorizer Membership MembershipFacts RelayServer.

(** redb holds a lock on a database file as long as it is open. *)
Class RedbFileLaws `{RedbFile} : Prop := already_open : exists text, database_create true = Err text.

Section commands.
Context `{Led : Ed25519Laws} `{Lblake : Blake3Laws} `{Laead : AeadLaws} `{Lhpke : HpkeLaws} `{Lexcl : !HpkeExclusive}.
Context `{Lplatform : Platform} {S K : Type} `{Lstore : StateStoreLaws S} `{Lsecret : SecretStore K} `{Lb64 : Base64Laws}.
Context `{Lfile : RedbFile} `{Lqr : QrCode} `{Ldir : !SecretDir K}.
#[local] Abbreviation authority := (Authority S K).
#[local] Abbreviation datadir := (DataDir S K).
Implicit Types (dd : datadir) (a : authority) (files : Files) (m : records).

(** ** Opening where another process has left off *)
Lemma open_manifest s k file now s' a : Authority_open s k file now = (s', Ok a) ->
  exists manifest, read_manifest file = Ok manifest /\ as_network_id (au_status a) = mf_network_id manifest.
Proof.
  unfold Authority_open; destruct (load_authority s k file now) as [[[[[[[[[mf root] enc] esk] admin] va] er] hr] o]|] eqn:Hl; [|done].
  intros Ho; exists mf; split.
  - unfold load_authority in Hl; apply bind_Ok in Hl as (mf' & Hmf & Hl); rewrite Hmf; f_equal.
    repeat (apply bind_Ok in Hl as (? & _ & Hl)); by injection Hl as ->.
  - destruct (migrate_history _ _ _ _) as [s1 [[]|]]; [|done]; injection Ho as _ Ho.
    apply bind_Ok in Ho as (vadm & _ & Ho); apply bind_Ok in Ho as (u & _ & <-%Ok_inj); done.
Qed.
Lemma chained_end_wf net e0 es e : envelope_wf e0 -> chained net e0 es e -> envelope_wf e.
Proof. intros Hw Hc; revert Hw; induction Hc as [|e e1 es e' [] _ IH]; auto. Qed.
(** Opening continues the chain it finds, and leaves the store alone if it fails. *)
Lemma open_resumes_chain s m k file now s' r net e0 es el :
  store_rep s m -> stored_chain (StoreScope_authority net) net m e0 es el -> Authority_open s k file now = (s', r) ->
  (forall manifest, read_manifest file = Ok manifest -> mf_network_id manifest = net) ->
  s' = s /\ forall a, r = Ok a -> au_state a = s /\ au_secrets a = k /\ as_network_id (au_status a) = net /\ chain_inv a m e0 es el.
Proof.
  intros Hrep Hch Ho Hnet; assert (forall a, r = Ok a -> as_network_id (au_status a) = net) as Hna.
  { intros a ->; destruct (open_manifest _ _ _ _ _ _ Ho) as (mf & Hmf & ->); auto. }
  unfold Authority_open in Ho; destruct (load_authority s k file now) as [[[[[[[[[mf root] enc] esk] admin] va] er] hr] o]|] eqn:Hl;
    [|injection Ho as <- <-; by split].
  pose proof Hl as Hl'; unfold load_authority in Hl'; apply bind_Ok in Hl' as (mf' & Hmf & Hl').
  assert (mf' = mf) as -> by (repeat (apply bind_Ok in Hl' as (? & _ & Hl')); by injection Hl'); clear Hl'.
  apply (load_authority_Ok _ m) in Hl as (e & [Hn Hroot Hseed Her Hhr He Hst (Hh & Ht & Hv)]); [|done].
  rewrite (Hnet _ Hmf) in *; pose proof Hch as [Hfirst Hchain Hhist Henv Hhead].
  rewrite Her in Henv; injection Henv as Henv; pose proof He as [Hw Hraw]%Envelope_from_bytes_exact.
  assert (e = el) as ->.
  { pose proof (chained_end_wf _ _ _ _ Hfirst Hchain) as Hwl.
    assert (Envelope_from_bytes (vb_bytes er) = Ok el) as He' by (by apply Envelope_from_bytes_exact); congruence. }
  assert (migrate_history s (StoreScope_authority net) (head_revision (onc_head o)) (vb_bytes er) = (s, Ok tt) \/
          exists x, migrate_history s (StoreScope_authority net) (head_revision (onc_head o)) (vb_bytes er) = (s, Err x)) as Hmig.
  { unfold migrate_history; rewrite au_history_key_Ok; cbn [mbind result_bind]; destruct (read s _ _) as [rec|x] eqn:Hr; cbn; [|eauto].
    apply (read_rep _ _ _ _ _ Hrep (Hn : scope_wf (StoreScope_authority net))) in Hr; pose proof (Hhist _ (chained_last _ _ _ _ Hchain)) as Hrec; rewrite Hh in Hr; cbn in Hr.
    rewrite <- Hr in Hrec; destruct rec as [rec|]; [|done]; injection Hrec as Hrec; rewrite bool_decide_true by congruence; auto. }
  destruct Hmig as [Hmig|[x Hmig]]; rewrite Hmig in Ho; injection Ho as <- <-; (split; [done|]); [|done]; intros a Ha.
  apply bind_Ok in Ha as (vadm & _ & Ha); apply bind_Ok in Ha as (u & _ & <-%Ok_inj).
  split_and!; [done..|]; constructor; cbn.
  - done.
  - constructor; cbn; try done; rewrite Hh; apply blake3_hash_len.
  - exact Hch.
  - exists es, [], el; rewrite app_nil_r; split_and!; try done; constructor.
  - exists now; by rewrite <- Hroot.
Qed.

(** ** A command is a session of at most one request *)
Lemma now_ms_Ok clock now : now_ms clock = Ok now -> now = clock /\ is_u64 now = true.
Proof. unfold now_ms; intros Hn; res_inv; bool_inv; done. Qed.
Lemma expiry_Ok clock days text now expires :
  is_u64 days = true -> expiry clock days text = Ok (now, expires) -> is_u64 now = true /\ is_u64 expires = true.
Proof.
  unfold expiry, valid_for, checked_mul, checked_add; intros Hd He; apply bind_Ok in He as (n & Hn%now_ms_Ok & He).
  apply bind_Ok in He as (v & Hv%ok_or_Ok & He); apply bind_Ok in He as (x & Hx%ok_or_Ok & [= <- <-]); destruct Hn as [-> Hn]; split; [done|].
  destruct (days * DAY_MS <=? U64_MAX); [|done]; injection Hv as <-; destruct (clock + days * DAY_MS <=? U64_MAX) eqn:Hle; [|done]; injection Hx as <-.
  unfold in_range, DAY_MS, U64_MAX in *; bool_inv; apply andb_true_iff; rewrite Z.leb_le, Z.ltb_lt; lia.
Qed.
Lemma decode_hex_32_len text id : decode_hex_32 text = Ok id -> length id = 32%nat.
Proof.
  unfold decode_hex_32; intros Hd; apply bind_Ok in Hd as (u & Hl%fail_if_Ok & Hd); bool_inv; apply Nat.eqb_eq in Hl.
  apply try_map_Ok, Forall2_length in Hd; rewrite <- Hd; clear Hd id u.
  do 64 (destruct text as [|? text]; [done|]); destruct text; [done | cbn in Hl; lia].
Qed.
Lemma relay_roles_u32 roles : is_u32 (relay_roles roles) = true.
Proof.
  assert (forall z, 0 <= z < 8 -> 0 <= foldl (fun acc role => RelayRoles.union acc (match role with
    | RelayDataRelay => RelayRoles.DATA_RELAY | RelayBootstrap => RelayRoles.BOOTSTRAP | RelayPresence => RelayRoles.PRESENCE end)) z roles < 8) as Hb.
  { induction roles as [|r roles IH]; intros z Hz; cbn; [done|]; apply IH; unfold RelayRoles.union.
    assert (z = 0 \/ z = 1 \/ z = 2 \/ z = 3 \/ z = 4 \/ z = 5 \/ z = 6 \/ z = 7) as Hc by lia.
    destruct r; destruct Hc as [->|[->|[->|[->|[->|[->|[->| ->]]]]]]]; vm_compute; split; congruence. }
  specialize (Hb 0 ltac:(lia)); unfold in_range, relay_roles in *; apply andb_true_iff; rewrite Z.leb_le, Z.ltb_lt; lia.
Qed.
(** The values of the types clap parses the arguments into. *)
Definition command_typed (c : Command) : Prop :=
  match c with
  | DnsSet name app_addr days _ _ => VirtualName_wf name /\ AppAddr_wf app_addr /\ is_u64 days = true
  | RelayRegister endpoint_id _ _ days _ _ => length endpoint_id = 32%nat /\ is_u64 days = true
  | _ => True
  end.
Definition single a a' : Prop := exists rs, served_typed rs /\ (length rs <= 1)%nat /\ a' = serve_any a rs.
Lemma single_none a : single a a.
Proof. exists []; split_and!; [constructor | cbn; lia | done]. Qed.
Lemma single_one a r now ent : any_typed r -> is_u64 now = true -> single a (handle_any a r now ent).
Proof. intros Hr Hn; exists [(r, now, ent)]; split_and!; [by repeat constructor | cbn; lia | done]. Qed.
Lemma operation_single {A} (prepared : result CommandError A) run a files a' files' r :
  (forall x, prepared = Ok x -> single a (run x a).1) -> operation prepared run a files = ((a', files'), r) -> single a a'.
Proof.
  intros Hs; unfold operation; destruct prepared as [x|e]; [|intros [= <- _ _]; apply single_none].
  specialize (Hs x eq_refl); destruct (run x a) as [a1 r1]; by intros [= <- _ _].
Qed.
#[local] Tactic Notation "prepared" "as" simple_intropattern(pat) "eqn" ident(H) :=
  match goal with |- context [match ?x with Ok _ => _ | Err _ => _ end] => destruct x as pat eqn:H end; [|intros [= <- _ _]; apply single_none].
Lemma command_single c a files a' files' r :
  command_typed c -> command_body c a files = ((a', files'), r) -> single a a'.
Proof.
  destruct c as [|request out roles days clock outcome ent|ep direct relay app name hours out qr clock outcome qr_outcome ent|id|member clock ent
    |request out clock outcome ent|file|binding clock ent|name app days clock ent|name clock ent|ep url roles days clock ent|ep clock ent|epoch revision hash out outcome];
    cbn [command_body command_typed]; intros Ht.
  - intros [= <- _ _]; apply single_none.
  - unfold invite; prepared as [[[p v] now]|] eqn Hx.
    apply bind_Ok in Hx as (? & _ & Hx); apply bind_Ok in Hx as (? & _ & Hx); apply bind_Ok in Hx as (? & _ & Hx); apply bind_Ok in Hx as (n & [-> Hn]%now_ms_Ok & [= -> -> ->]).
    pose proof (single_one a (Configure (InviteMember (pj_request p) (pj_endpoint_binding p) (member_roles roles) v)) now ent I Hn) as Hs; cbn in Hs.
    destruct (invite_member _ _ _ _ _ _ _) as [a1 [tk|e]]; [destruct (write_new_file _ _ _ _) as [f1 r1]|]; by intros [= <- _ _].
  - unfold invitation_create; prepared as [[v now]|] eqn Hx.
    apply bind_Ok in Hx as (? & _ & Hx); apply bind_Ok in Hx as (n & [-> Hn]%now_ms_Ok & [= -> ->]).
    pose proof (single_one a (CreateInvitation ep direct relay app name v) now ent I Hn) as Hs; cbn in Hs.
    destruct (create_invitation _ _ _ _ _ _ _ _ _) as [a1 [inv|e]]; [|by intros [= <- _ _]].
    destruct (write_new_file _ _ _ _) as [f1 [[]|e]]; [|by intros [= <- _ _]]; destruct qr as [path|]; [|by intros [= <- _ _]].
    destruct (qr_svg _) as [svg|]; [destruct (write_new_file _ _ _ _) as [f2 r2]|]; by intros [= <- _ _].
  - unfold invitation_revoke; destruct (decode_hex_32 id) as [bs|] eqn:Hd; [|intros [= <- _ _]; apply single_none].
    pose proof (single_one a (RevokeInvitation bs) 0 [] (decode_hex_32_len _ _ Hd) eq_refl) as Hs; cbn in Hs.
    destruct (revoke_invitation a bs) as [a1 r1]; by intros [= <- _ _].
  - apply operation_single; intros now [_ Hn]%now_ms_Ok; exact (single_one a (Configure (RevokeMember member)) now ent I Hn).
  - unfold app_register; prepared as [[q now]|] eqn Hx.
    apply bind_Ok in Hx as (? & _ & Hx); apply bind_Ok in Hx as (? & _ & Hx); apply bind_Ok in Hx as (n & [-> Hn]%now_ms_Ok & [= -> ->]).
    pose proof (single_one a (Configure (RegisterApp q)) now ent I Hn) as Hs; cbn in Hs.
    destruct (register_app _ _ _ _) as [a1 [ra|e]]; [destruct (write_new_file _ _ _ _) as [f1 r1]|]; by intros [= <- _ _].
  - unfold app_enrollment_install; match goal with |- context [match ?x with Ok _ => _ | Err _ => _ end] => destruct x as [bs|] end; [|intros [= <- _ _]; apply single_none].
    pose proof (single_one a (InstallEnrollmentRoot (AppRootKey_from_bytes bs)) 0 [] I eq_refl) as Hs; cbn in Hs.
    destruct (install_enrollment_app_root _ _) as [a1 r1]; by intros [= <- _ _].
  - unfold app_bind; apply operation_single; intros [b now] Hx; apply bind_Ok in Hx as (? & _ & Hx); apply bind_Ok in Hx as (? & _ & Hx).
    apply bind_Ok in Hx as (n & [-> Hn]%now_ms_Ok & [= -> ->]); exact (single_one a (Configure (AuthorizeAppBinding b)) now ent I Hn).
  - apply operation_single; intros [now ex] [Hn He]%expiry_Ok; [|apply Ht].
    exact (single_one a (Configure (SetVirtualDns name app ex)) now ent (conj (proj1 Ht) (conj (proj1 (proj2 Ht)) He)) Hn).
  - apply operation_single; intros now [_ Hn]%now_ms_Ok; exact (single_one a (Configure (RemoveVirtualDns name)) now ent I Hn).
  - apply operation_single; intros [now ex] [Hn He]%expiry_Ok; [|apply Ht].
    exact (single_one a (Configure (RegisterRelay ep url (relay_roles roles) ex)) now ent (conj (proj1 Ht) (conj (relay_roles_u32 roles) He)) Hn).
  - apply operation_single; intros now [_ Hn]%now_ms_Ok; exact (single_one a (Configure (RemoveRelay ep)) now ent I Hn).
  - unfold export_updates; match goal with |- context [match ?x with Ok _ => _ | Err _ => _ end] => destruct x as [bs|] end;
      [destruct (write_new_file _ _ _ _) as [f1 r1]|]; intros [= <- _ _]; apply single_none.
Qed.

Lemma open_dir_resumes dd master_key now dd' r m net e0 es el :
  store_rep (dd_state dd) m -> stored_chain (StoreScope_authority net) net m e0 es el ->
  (forall manifest, read_manifest (dd_manifest dd) = Ok manifest -> mf_network_id manifest = net) ->
  Authority_open_dir dd master_key now = (dd', r) ->
  dd' = dd /\ forall a, r = Ok a -> as_network_id (au_status a) = net /\ chain_inv a m e0 es el.
Proof.
  intros Hrep Hch Hnet; unfold Authority_open_dir; match goal with |- context [match ?x with Ok _ => _ | Err _ => _ end] => destruct x end; [|by intros [= <- <-]].
  destruct (Authority_open _ _ _ _) as [s' r'] eqn:Ho; intros [= <- ->].
  destruct (open_resumes_chain _ _ _ _ _ _ _ _ _ _ _ Hrep Hch Ho Hnet) as [-> Ha]; split; [by destruct dd | intros a1 Hr; by destruct (Ha a1 Hr) as (_ & _ & ? & ?)].
Qed.
Lemma main_extends dd files m net e0 es el run :
  store_rep (dd_state dd) m -> stored_chain (StoreScope_authority net) net m e0 es el ->
  (forall manifest, read_manifest (dd_manifest dd) = Ok manifest -> mf_network_id manifest = net) -> command_typed run.1.1 ->
  exists m' es' el', store_rep (dd_state (main (dd, files) run).1.1) m' /\ stored_chain (StoreScope_authority net) net m' e0 (es ++ es') el' /\
    (length es' <= 1)%nat /\ dd_manifest (main (dd, files) run).1.1 = dd_manifest dd.
Proof.
  destruct run as [[c key] clock]; cbn [fst main]; intros Hrep Hch Hnet Hc.
  assert (exists m' es' el', store_rep (dd_state dd) m' /\ stored_chain (StoreScope_authority net) net m' e0 (es ++ es') el' /\
    (length es' <= 1)%nat /\ dd_manifest dd = dd_manifest dd) as Hsame by (exists m, [], el; rewrite app_nil_r; split_and!; [done | done | cbn; lia | done]).
  unfold run_command; cbn [fst snd]; match goal with |- context [match ?x with Ok _ => _ | Err _ => _ end] => destruct x as [[mk now]|] end; [|exact Hsame].
  destruct (Authority_open_dir dd mk now) as [dd1 r] eqn:Ho; destruct (open_dir_resumes _ _ _ _ _ _ _ _ _ _ Hrep Hch Hnet Ho) as [-> Ha].
  destruct r as [a|e]; [|exact Hsame]; destruct (Ha a eq_refl) as [Hn Hi].
  destruct (command_body c a files) as [[a1 files1] r1] eqn:Hb; destruct (command_single _ _ _ _ _ _ Hc Hb) as (rs & Hrs & Hlen & ->); cbn [fst left_by dd_state dd_manifest].
  destruct (serve_any_inv _ _ _ _ _ _ Hi Hrs) as (m' & es' & el' & Hi' & Hl' & _ & Hid); exists m', es', el'.
  destruct Hi' as [Hr' _ Hc' _ _]; unfold au_scope in Hc'; assert (as_network_id (au_status (serve_any a rs)) = net) as Hn' by (destruct Hid; intuition congruence).
  rewrite Hn' in Hc'; split_and!; [done | done | lia | done].
Qed.

(** The administrative commands extend one chain.  However many commands are run on a
    data directory, each a process of its own, at any time and with whatever outcome, the
    store keeps every configuration it held and holds one chain that begins with them: each
    command adds at most one revision, the successor of the last. *)
Theorem commands_append_only (dd : DataDir S K) (files : Files) (m : records) (net : NetworkId) (e0 : EncryptedConfigEnvelope)
    (es : list EncryptedConfigEnvelope) (el : EncryptedConfigEnvelope) (runs : list (Command * bytes * Z)) :
  store_rep (dd_state dd) m -> stored_chain (StoreScope_authority net) net m e0 es el ->
  (forall manifest, read_manifest (dd_manifest dd) = Ok manifest -> mf_network_id manifest = net) ->
  Forall (fun run => command_typed run.1.1) runs ->
  exists m' es' el', store_rep (dd_state (main_all (dd, files) runs).1) m' /\
    stored_chain (StoreScope_authority net) net m' e0 (es ++ es') el' /\ (length es' <= length runs)%nat.
Proof.
  intros Hrep Hch Hnet Hruns; revert dd files m es el Hrep Hch Hnet; induction Hruns as [|run runs Hc _ IH]; intros dd files m es el Hrep Hch Hnet.
  - exists m, [], el; rewrite app_nil_r; split_and!; [done | done | cbn; lia].
  - destruct (main_extends dd files _ _ _ _ _ run Hrep Hch Hnet Hc) as (m1 & es1 & el1 & Hr1 & Hc1 & Hl1 & Hmf).
    cbn [main_all foldl]; destruct (main (dd, files) run).1 as [dd1 files1]; cbn [fst] in *.
    destruct (IH dd1 files1 _ _ _ Hr1 Hc1) as (m2 & es2 & el2 & Hr2 & Hc2 & Hl2); [by rewrite Hmf|].
    exists m2, (es1 ++ es2), el2; rewrite app_assoc, length_app; split_and!; [done | done | cbn; lia].
Qed.
End commands.

(** ** What a request on the wire is made of *)
Section typed.
Lemma array_length {E} (e : E) n d x d' : d_array e n d = Ok (x, d') -> length x = n.
Proof.
  unfold d_array, d_take, len; destruct (_ <=? _) eqn:Hle; [|done]; intros [= <- _]; bool_inv.
  rewrite length_take, length_drop, Nat2Z.id; lia.
Qed.
Lemma uint_range {E} (e : E) n d z d' : d_uint e n d = Ok (z, d') -> in_range (8 * Z.of_nat n) z = true.
Proof.
  unfold d_uint; intros (x & d1 & Hx%array_length & [= <- _])%dec_bind_Ok; pose proof (from_be_range x) as Hr.
  unfold in_range; rewrite andb_true_iff, Z.leb_le, Z.ltb_lt; rewrite Hx in Hr; lia.
Qed.
Lemma Invitation_from_bytes_typed bs i : Invitation_from_bytes bs = Ok i -> invitation_typed i.
Proof.
  unfold Invitation_from_bytes; intros Hb; apply bind_Ok in Hb as (u & _ & Hb); apply run_decoder_Ok in Hb as (d' & _ & Hb).
  unfold d_invitation in Hb; apply dec_bind_Ok in Hb as (? & ? & _ & Hb); apply dec_bind_Ok in Hb as (id & ? & Hid%array_length & Hb).
  do 9 (apply dec_bind_Ok in Hb as (? & ? & _ & Hb)); apply dec_bind_Ok in Hb as (ex & ? & Hex%uint_range & Hb).
  do 3 (apply dec_bind_Ok in Hb as (? & ? & _ & Hb)); injection Hb as <- _; by split.
Qed.
Lemma PreparedJoinRequest_typed `{Blake3} bs p : PreparedJoinRequest_from_bytes bs = Ok p -> cert_wf (pj_request p) /\ cert_wf (pj_endpoint_binding p).
Proof.
  unfold PreparedJoinRequest_from_bytes; intros (d' & _ & Hb)%run_decoder_Ok.
  do 4 (apply dec_bind_Ok in Hb as (? & ? & _ & Hb)); apply dec_bind_Ok in Hb as (rq & ? & Hr & Hb); apply lift_Ok in Hr as [[Hr _]%JoinRequest_from_bytes_exact _].
  do 3 (apply dec_bind_Ok in Hb as (? & ? & _ & Hb)); apply dec_bind_Ok in Hb as (eb & ? & He & Hb); apply lift_Ok in He as [[He _]%EndpointBinding_from_bytes_exact _].
  apply dec_bind_Ok in Hb as (? & ? & _ & Hb); by injection Hb as <- _.
Qed.
Lemma RedeemRequest_typed `{Blake3} bs r : RedeemRequest_from_bytes bs = Ok r ->
  invitation_typed (br_invitation r) /\ cert_wf (pj_request (br_prepared r)) /\ cert_wf (pj_endpoint_binding (br_prepared r)).
Proof.
  unfold RedeemRequest_from_bytes; intros (d' & _ & Hb)%run_decoder_Ok.
  do 2 (apply dec_bind_Ok in Hb as (? & ? & _ & Hb)); apply dec_bind_Ok in Hb as (i & ? & Hi & Hb); apply lift_Ok in Hi as [Hi%Invitation_from_bytes_typed _].
  apply dec_bind_Ok in Hb as (? & ? & _ & Hb); apply dec_bind_Ok in Hb as (p & ? & Hp & Hb); apply lift_Ok in Hp as [Hp%map_err_Ok%PreparedJoinRequest_typed _].
  apply dec_bind_Ok in Hb as (? & ? & _ & Hb); injection Hb as <- _; by split.
Qed.
End typed.

(** ** Serving *)
Section serving.
Context `{Led : Ed25519Laws} `{Lblake : Blake3Laws} `{Laead : AeadLaws} `{Lhpke : HpkeLaws} `{Lexcl : !HpkeExclusive}.
Context `{Lplatform : Platform} {S K : Type} `{Lstore : StateStoreLaws S} `{Lsecret : SecretStore K} `{Lb64 : Base64Laws}.
Context `{Lfile : RedbFileLaws} `{Lqr : QrCode} `{Ldir : !SecretDir K}.
#[local] Abbreviation authority := (Authority S K).
#[local] Abbreviation datadir := (DataDir S K).
#[local] Abbreviation server := (RelayServer S K).
Implicit Types (dd : datadir) (a : authority) (sv : server) (files : Files) (m : records).

(** The endpoints of a configuration, as [allowed_member_endpoints] reads them. *)
Definition endpoint_of (raw x : bytes) : Prop :=
  exists b, EndpointBinding_from_bytes raw = Ok b /\ endpoint_id_valid (eb_endpoint_id (payload b)) = true /\ x = eb_endpoint_id (payload b).
Lemma allowed_Ok a allowed : allowed_member_endpoints a = Ok allowed <->
  exists ids, Forall2 endpoint_of (cfg_endpoint_bindings (vc_inner (au_config a))) ids /\ allowed = list_to_set ids.
Proof.
  unfold allowed_member_endpoints; rewrite bind_Ok; split.
  - intros (ids & Hids%try_map_Ok & [= <-]); exists ids; split; [|done]; eapply Forall2_impl; [exact Hids|].
    intros raw x Hx; apply bind_Ok in Hx as (b & Hb%map_err_Ok & Hx); apply bind_Ok in Hx as (u & Hv%fail_if_Ok & [= <-]); bool_inv; by exists b.
  - intros (ids & Hids & ->); exists ids; split; [|done]; apply try_map_Ok; eapply Forall2_impl; [exact Hids|].
    intros raw x (b & Hb & Hv & ->); cbv beta; rewrite Hb; cbn [map_err mbind result_bind]; by rewrite Hv.
Qed.
Lemma allowed_bound a al x : allowed_member_endpoints a = Ok al ->
  x ∈ al <-> exists raw b, raw ∈ cfg_endpoint_bindings (vc_inner (au_config a)) /\ EndpointBinding_from_bytes raw = Ok b /\ eb_endpoint_id (payload b) = x.
Proof.
  intros (ids & Hids & ->)%allowed_Ok; rewrite elem_of_list_to_set; split.
  - intros Hin; apply list_elem_of_lookup in Hin as [n Hn]; destruct (Forall2_lookup_r _ _ _ _ _ Hids Hn) as (raw & Hraw & b & Hb & _ & Hx).
    exists raw, b; split_and!; [by eapply list_elem_of_lookup_2 | done | done].
  - intros (raw & b & Hin & Hb & Hx); apply list_elem_of_lookup in Hin as [n Hn].
    destruct (Forall2_lookup_l _ _ _ _ _ Hids Hn) as (x' & Hx' & b' & Hb' & _ & ->); apply list_elem_of_lookup_2 in Hx'; congruence.
Qed.
(** Enrolling a member adds its endpoint. *)
Lemma allowed_enrolled a a' allowed (b : EndpointBinding) :
  allowed_member_endpoints a = Ok allowed -> cert_wf b -> endpoint_id_valid (eb_endpoint_id (payload b)) = true ->
  cfg_endpoint_bindings (vc_inner (au_config a')) = cfg_endpoint_bindings (vc_inner (au_config a)) ++ [to_bytes b] ->
  exists allowed', allowed_member_endpoints a' = Ok allowed' /\ allowed' = allowed ∪ {[eb_endpoint_id (payload b)]}.
Proof.
  intros (ids & Hids & ->)%allowed_Ok Hw Hv Hc; exists (list_to_set (ids ++ [eb_endpoint_id (payload b)])); split; [|set_solver].
  apply allowed_Ok; rewrite Hc; eexists; split; [apply Forall2_app; [exact Hids|]|done]; constructor; [|constructor].
  exists b; split_and!; [by apply EndpointBinding_from_bytes_exact | done | done].
Qed.
Lemma binding_endpoint a request (binding : EndpointBinding) roles now ex mem :
  admitted a request binding roles now ex mem -> eb_endpoint_id (payload binding) = jr_endpoint_id (payload request).
Proof. intros [_ _ _ He]; unfold EndpointBinding_verify in He; res_inv; bool_inv; done. Qed.

(** The endpoints of the configuration the authority holds. *)
Definition listed a (x : bytes) : Prop := exists al, allowed_member_endpoints a = Ok al /\ x ∈ al.
(** The endpoint has been enrolled and its connection has not been answered yet. *)
Definition redeeming sv (x : bytes) : Prop :=
  exists connection remote ticket, sv_redeemed sv !! connection = Some (remote, ticket) /\ x = EndpointId_as_bytes remote.
(** What a process that serves since [t] keeps: its right to administer, a chain in the
    store, that the endpoints let in are those of the configuration it holds, up to the
    connections under way, and a task that reloads nothing. *)
Record serving (t : Z) sv : Prop := {
  sg_admin : administers (sv_authority sv) t;
  sg_chain : exists m e0 es el, chain_inv (sv_authority sv) m e0 es el;
  sg_policy : exists al, allowed_member_endpoints (sv_authority sv) = Ok al /\ sv_allowed sv ⊆ al /\
    forall x, x ∈ al -> x ∈ sv_allowed sv \/ redeeming sv x;
  sg_reload : sv_reload sv = ReloadIdle;
}.
Lemma redeem_online_serving a m e0 es el i prep now ent a' r allowed :
  chain_inv a m e0 es el -> allowed_member_endpoints a = Ok allowed -> invitation_typed i -> is_u64 now = true ->
  cert_wf (pj_request prep) -> cert_wf (pj_endpoint_binding prep) -> endpoint_id_valid (jr_endpoint_id (payload (pj_request prep))) = true ->
  redeem_invitation_online a i prep now ent = (a', r) ->
  (exists m' es' el', chain_inv a' m' e0 es' el') /\ same_identity a a' /\
  (allowed_member_endpoints a' = Ok allowed \/
   allowed_member_endpoints a' = Ok (allowed ∪ {[jr_endpoint_id (payload (pj_request prep))]}) /\ exists tk, r = Ok tk).
Proof.
  intros Hi Hal Hit Hn Hwr Hwb Hv Hr; destruct (handle_any_step a m e0 es el (RedeemOnline i prep) now ent Hi Hit Hn) as (m' & es' & el' & Hi' & _ & _ & Hsi).
  cbn in Hi', Hsi; rewrite Hr in Hi', Hsi; cbn in Hi', Hsi; split; [eauto|]; split; [done|]; clear m' es' el' Hi' Hsi.
  unfold redeem_invitation_online in Hr; destruct (open_secret_32 _ _) as [bs|]; [|injection Hr as <- _; by left].
  pose proof Hi as [Hrep Hty _ _ _]; destruct Hit as [Hid Hiu].
  assert (forall x, same_authority a x -> allowed_member_endpoints x = allowed_member_endpoints a) as Hsame by (intros x ->; done).
  destruct (redeem_cases _ _ _ _ _ _ _ _ _ Hrep Hty Hn Hiu Hid Hr)
    as [[-> _]|[(Hs & _ & _)|(next & e & tk & m' & Hred & _ & [[Hs _]|(-> & ev & hv & Ha)])]]; [by left | left; by rewrite Hsame | left; by rewrite Hsame |].
  right; split; [|eauto]; destruct Hred as [_ _ _ (ex & mem & ab & secrets & _ & _ & Hadm & _ & -> & _) _ _].
  pose proof (binding_endpoint _ _ _ _ _ _ _ Hadm) as Heb.
  destruct (allowed_enrolled a a' allowed (pj_endpoint_binding prep)) as (al & Hal' & ->); [done | done | by rewrite Heb | by rewrite Ha|].
  by rewrite Hal', Heb.
Qed.
Lemma clock_typed clock : is_u64 (match now_ms clock with Ok now => now | Err _ => 0 end) = true.
Proof. destruct (now_ms clock) as [now|] eqn:Hn; [by apply now_ms_Ok in Hn as [_ ?] | done]. Qed.
Lemma bootstrap_redeem_grows a m e0 es el al t remote incoming clock ent a' response :
  chain_inv a m e0 es el -> allowed_member_endpoints a = Ok al -> administers a t -> endpoint_id_valid (EndpointId_as_bytes remote) = true ->
  bootstrap_redeem a remote incoming clock ent = (a', response) ->
  administers a' t /\ (exists m' es' el', chain_inv a' m' e0 es' el') /\
  (allowed_member_endpoints a' = Ok al \/
   allowed_member_endpoints a' = Ok (al ∪ {[EndpointId_as_bytes remote]}) /\ exists tk, response = Accepted tk).
Proof.
  intros Hi Hp Had Hv; assert (administers a t /\ (exists m' es' el', chain_inv a m' e0 es' el') /\
    (allowed_member_endpoints a = Ok al \/ allowed_member_endpoints a = Ok (al ∪ {[EndpointId_as_bytes remote]}) /\ exists tk, response = Accepted tk)) as Hsame
    by (split_and!; [done | by eauto | by left]).
  unfold bootstrap_redeem; destruct (_ <? _); [by intros [= <- _]|].
  destruct (RedeemRequest_from_bytes incoming) as [request|] eqn:Hq; [|by intros [= <- _]]; destruct (RedeemRequest_typed _ _ Hq) as (Hit & Hwr & Hwb).
  case_bool_decide as Heq; cbn [negb]; [|by intros [= <- _]]; clear Hsame.
  set (now := match now_ms clock with Ok now => now | Err _ => 0 end); pose proof (clock_typed clock : is_u64 now = true) as Hn.
  destruct (redeem_invitation_online _ _ _ _ _) as [a1 r] eqn:Hr; rewrite <- Heq in Hv |- *.
  destruct (redeem_online_serving _ _ _ _ _ _ _ _ _ _ _ _ Hi Hp Hit Hn Hwr Hwb Hv Hr) as (Hi' & Hsi & Hal).
  apply (administers_same _ a1) in Had; [|done].
  destruct r as [tk|e]; intros [= <- <-]; split_and!; try done; destruct Hal as [Hal|[Hal [tk' ?]]]; try (by left); right; eauto.
Qed.
Lemma bootstrap_connection_serving t sv connection net alpn remote incoming clock ent :
  serving t sv -> endpoint_id_valid (EndpointId_as_bytes remote) = true -> sv_redeemed sv !! connection = None ->
  let sv' := (bootstrap_connection sv connection net alpn remote incoming clock ent).1 in
  serving t sv' /\ forall x, listed (sv_authority sv) x -> listed (sv_authority sv') x.
Proof.
  intros Hs Hv Hc; unfold bootstrap_connection; cbv zeta; destruct (negb _); [done|]; destruct Hs as [Had (m & e0 & es & el & Hi) (al & Hp & Hsub & Hall) Hrl].
  destruct (bootstrap_redeem _ _ _ _ _) as [a' response] eqn:Hb.
  destruct (bootstrap_redeem_grows _ _ _ _ _ _ _ _ _ _ _ _ _ Hi Hp Had Hv Hb) as (Had' & (m' & es' & el' & Hi') & Hal).
  assert (forall x, listed (sv_authority sv) x -> listed a' x) as Hkeep.
  { intros x (al' & Hl & Hx); rewrite Hp in Hl; injection Hl as <-; destruct Hal as [Hl|[Hl _]]; eexists; split; [exact Hl | done | exact Hl | set_solver]. }
  destruct response as [ticket|code]; cbn [fst]; (split; [|exact Hkeep]); constructor; cbn; try done; try (by eauto 6).
  - assert (forall x, redeeming sv x -> redeeming (mkServer a' (sv_allowed sv) (<[connection:=(remote, ticket)]> (sv_redeemed sv)) (sv_reload sv)) x) as Hmono.
    { intros x (c & r & tk & Hl & ->); exists c, r, tk; split; [|done]; cbn; rewrite lookup_insert_ne; [done | congruence]. }
    destruct Hal as [Hl|[Hl _]]; eexists; (split; [exact Hl|]); (split; [set_solver|]); intros x Hx.
    + destruct (Hall x Hx); auto.
    + apply elem_of_union in Hx as [Hx|Hx]; [|apply elem_of_singleton in Hx as ->]; [destruct (Hall x Hx); auto|].
      right; exists connection, remote, ticket; cbn; by rewrite lookup_insert_eq.
  - destruct Hal as [Hl|[_ [tk ?]]]; [|done]; by exists al.
Qed.
Lemma bootstrap_refresh_serving t sv connection :
  serving t sv -> serving t (bootstrap_refresh sv connection).1 /\ sv_authority (bootstrap_refresh sv connection).1 = sv_authority sv /\
  (is_Some (sv_redeemed sv !! connection) -> forall x, listed (sv_authority sv) x -> x ∈ sv_allowed (bootstrap_refresh sv connection).1).
Proof.
  intros Hs; unfold bootstrap_refresh; destruct (sv_redeemed sv !! connection) as [[remote ticket]|]; cbn; [|by split_and!; [| |intros [? ?]]].
  destruct Hs as [Had Hi (al & Hp & _) Hrl]; rewrite Hp; split_and!; [|done|].
  - constructor; cbn; try done; exists al; split_and!; [done | done | by left].
  - intros _ x (al' & Hl & Hx); rewrite Hp in Hl; by injection Hl as <-.
Qed.
Lemma locked_open dd master_key now : dd_locked dd = true -> exists e, Authority_open_dir dd master_key now = (dd, Err e).
Proof.
  intros Hl; unfold Authority_open_dir; rewrite Hl; destruct already_open as [text Ht]; rewrite Ht.
  match goal with |- context [match ?x with Ok _ => _ | Err _ => _ end] => destruct x as [u|e] eqn:Hx end; [|eauto].
  do 3 (apply bind_Ok in Hx as (? & _ & Hx)); done.
Qed.
Lemma locked_reload dd master_key sv clock : dd_locked dd = true -> sv_reload sv = ReloadIdle -> reload_step dd master_key sv clock = sv.
Proof.
  intros Hl Hi; unfold reload_step; rewrite Hi; set (here := mkDataDir _ _ _ _).
  by destruct (locked_open here master_key (match now_ms clock with Ok now => now | Err _ => 0 end)) as [e ->].
Qed.
Lemma serve_open_Ok dd files key clock dd1 sv m :
  store_rep (dd_state dd) m -> serve_open dd files key clock = (dd1, Ok sv) -> dd_locked dd1 = true /\ serving clock sv.
Proof.
  intros Hrep; unfold serve_open; match goal with |- context [match ?x with Ok _ => _ | Err _ => _ end] => destruct x as [[mk now]|] eqn:Hx end; [|done].
  apply bind_Ok in Hx as (mk' & _ & Hx); apply bind_Ok in Hx as (now' & [-> _]%now_ms_Ok & [= <- <-]).
  destruct (Authority_open_dir dd mk' clock) as [dd' [a|e]] eqn:Ho; [|done]; destruct (allowed_member_endpoints a) as [allowed|] eqn:Hal; [|done].
  intros [= <- <-]; split; [done|]; unfold Authority_open_dir in Ho.
  match type of Ho with context [match ?x with Ok _ => _ | Err _ => _ end] => destruct x end; [|done].
  destruct (Authority_open _ _ _ _) as [s' r] eqn:Hop; injection Ho as _ ->; destruct (open_establishes_inv _ _ _ _ _ _ _ Hrep Hop) as (m0 & e0 & Hi).
  constructor; cbn; [by eapply open_administers | by eauto | exists allowed; split_and!; [done | done | by left] | done].
Qed.
Definition event_typed (e : ServerEvent) : Prop :=
  match e with BootstrapEvent _ _ _ remote _ _ _ => endpoint_id_valid (EndpointId_as_bytes remote) = true | _ => True end.
Lemma server_step_serving dd t sv e : dd_locked dd = true -> serving t sv -> event_typed e ->
  serving t (server_step dd sv e) /\ forall x, listed (sv_authority sv) x -> listed (sv_authority (server_step dd sv e)) x.
Proof.
  intros Hl Hs He; destruct e as [c net alpn remote incoming clock ent|c|mk clock]; cbn [server_step].
  - destruct (sv_redeemed sv !! c) eqn:Hc; [done | by apply bootstrap_connection_serving].
  - destruct (bootstrap_refresh_serving t sv c Hs) as (? & -> & _); done.
  - rewrite locked_reload by (done || apply Hs); done.
Qed.
Lemma server_run_serving dd t sv es : dd_locked dd = true -> serving t sv -> Forall event_typed es ->
  serving t (server_run dd sv es) /\ forall x, listed (sv_authority sv) x -> listed (sv_authority (server_run dd sv es)) x.
Proof.
  intros Hl Hs Hes; revert sv Hs; induction Hes as [|e es He _ IH]; intros sv Hs; [done|]; cbn [server_run foldl].
  destruct (server_step_serving dd t sv e Hl Hs He) as [Hs' Hk]; destruct (IH _ Hs') as [? Hk']; split; [done | intros x Hx; by apply Hk', Hk].
Qed.
(** What others do to the process leaves a redeemed connection as it is. *)
Lemma server_run_redeemed dd t sv es c v : dd_locked dd = true -> serving t sv -> Forall event_typed es ->
  Forall (fun e => e <> RefreshEvent c) es -> sv_redeemed sv !! c = Some v -> sv_redeemed (server_run dd sv es) !! c = Some v.
Proof.
  intros Hl Hs Hes Hno Hc; revert sv Hs Hc; induction Hes as [|e es He _ IH]; intros sv Hs Hc; [done|]; cbn [server_run foldl].
  inversion Hno as [|? ? Hne Hno']; subst; apply (IH Hno'); [by apply server_step_serving|].
  destruct e as [c' net alpn remote incoming clock ent|c'|mk clock]; cbn [server_step]; [| |by rewrite locked_reload by (done || apply Hs)].
  - destruct (sv_redeemed sv !! c') eqn:Hc'; [done|]; unfold bootstrap_connection; destruct (negb _); [done|].
    destruct (bootstrap_redeem _ _ _ _ _) as [a' [tk|code]]; cbn; [rewrite lookup_insert_ne|]; congruence.
  - unfold bootstrap_refresh; destruct (sv_redeemed sv !! c') as [[r tk]|]; [|done]; cbn; rewrite lookup_delete_ne; congruence.
Qed.

(** C12: the relay admits exactly the members of the network.  Once a process serves, after
    any connections to its bootstrap endpoint, interleaved in any way, and any steps of its
    reload task, the data relay, the configuration and the presence protocol admit the same
    endpoints; each of them is bound to a member by the configuration the authority holds;
    and each endpoint so bound is admitted, unless it is just being enrolled: a connection
    has redeemed its invitation and has not sent the ticket yet. *)
Theorem relay_admits_members (dd dd1 : DataDir S K) (files : Files) (m : records) (key : bytes) (clock : Z) (sv : RelayServer S K)
    (es : list ServerEvent) (endpoint : EndpointId) (now : Z) :
  store_rep (dd_state dd) m -> serve_open dd files key clock = (dd1, Ok sv) -> Forall event_typed es ->
  let sv' := server_run dd1 sv es in
  let bound := exists raw b, raw ∈ cfg_endpoint_bindings (vc_inner (au_config (sv_authority sv'))) /\
    EndpointBinding_from_bytes raw = Ok b /\ eb_endpoint_id (payload b) = EndpointId_as_bytes endpoint in
  let admitted := on_connect (mkRelayAccess (sv_allowed sv')) endpoint = Allow in
  (admitted -> bound) /\
  (bound -> admitted \/ exists connection ticket, sv_redeemed sv' !! connection = Some (endpoint, ticket)) /\
  (allow_config_sync (mkAuthorityAuthorizer (sv_allowed sv')) now endpoint = true <-> admitted) /\
  (allow_presence (mkAuthorityAuthorizer (sv_allowed sv')) now endpoint = true <-> admitted).
Proof.
  intros Hrep Ho Hes sv' bound admitted; destruct (serve_open_Ok _ _ _ _ _ _ _ Hrep Ho) as [Hl Hs].
  destruct (server_run_serving dd1 _ sv es Hl Hs Hes) as [[_ _ (al & Hal & Hsub & Hall) _] _]; fold sv' in Hal, Hsub, Hall.
  assert (EndpointId_as_bytes endpoint ∈ al <-> bound) as Hb by (exact (allowed_bound _ _ _ Hal)).
  assert (admitted <-> EndpointId_as_bytes endpoint ∈ sv_allowed sv') as Ha by (unfold admitted, on_connect; cbn; by case_bool_decide).
  split_and!.
  - rewrite Ha, <- Hb; apply Hsub.
  - rewrite <- Hb, Ha; intros [?|(c & [remote] & tk & Hc & Heq)]%Hall; [by left|]; right; exists c, tk; destruct endpoint; cbn in Heq; by subst.
  - by rewrite Ha; cbn; rewrite bool_decide_eq_true.
  - by rewrite Ha; cbn; rewrite bool_decide_eq_true.
Qed.

Lemma server_step_reload dd sv e : match e with ReloadEvent _ _ => False | _ => True end -> sv_reload (server_step dd sv e) = sv_reload sv.
Proof.
  destruct e as [c net alpn remote incoming clock ent|c|mk clock]; cbn [server_step]; intros He; [| |done].
  - destruct (sv_redeemed sv !! c); [done|]; unfold bootstrap_connection; destruct (negb _); [done|].
    by destruct (bootstrap_redeem _ _ _ _ _) as [a' [tk|code]].
  - unfold bootstrap_refresh; by destruct (sv_redeemed sv !! c) as [[r tk]|].
Qed.

(** C34: serving excludes every other process.  While one process serves, each
    administrative command on the same directory ends in an error and changes neither the
    directory nor a file, and the task of the serving process that is to reload the
    authority never does: it runs as if it had no such task. *)
Theorem serving_excludes_others (dd dd1 : DataDir S K) (files files' : Files) (m : records) (key : bytes) (clock : Z) (sv : RelayServer S K)
    (run : Command * bytes * Z) (es : list ServerEvent) :
  store_rep (dd_state dd) m -> serve_open dd files key clock = (dd1, Ok sv) ->
  (exists e, main (dd1, files') run = ((dd1, files'), Err e)) /\
  server_run dd1 sv es = server_run dd1 sv (List.filter (fun e => match e with ReloadEvent _ _ => false | _ => true end) es).
Proof.
  intros Hrep Ho; destruct (serve_open_Ok _ _ _ _ _ _ _ Hrep Ho) as [Hl Hs]; split.
  - destruct run as [[c mkf] clock']; cbn [main fst snd]; unfold run_command.
    match goal with |- context [match ?x with Ok _ => _ | Err _ => _ end] => destruct x as [[mk now]|] end; [|eauto].
    destruct (locked_open dd1 mk now Hl) as [e ->]; eauto.
  - clear Ho; pose proof (sg_reload _ _ Hs) as Hi; clear Hs; revert sv Hi; induction es as [|e es IH]; intros sv Hi; [done|].
    destruct e as [c net alpn remote incoming clock' ent|c|mk clock']; cbn [List.filter server_run foldl];
      [apply IH; by rewrite server_step_reload | apply IH; by rewrite server_step_reload | cbn [server_step]; rewrite locked_reload by done; by apply IH].
Qed.

(** ** The ticket of a redemption opens for the device *)
Lemma last_recipient next members mem recipients :
  active_recipient_keys next = Ok recipients -> cfg_members next = members ++ [to_bytes mem] -> cert_wf mem ->
  mc_encryption_public_key (payload mem) ∈ recipients.
Proof.
  intros Hr%try_map_Ok Hm Hw; rewrite Hm in Hr; apply Forall2_app_inv_l in Hr as (ks1 & ks2 & _ & Hr & ->).
  inversion Hr as [|? k ? ? Hk]; subst; apply bind_Ok in Hk as (c & Hc%map_err_Ok & [= <-]).
  rewrite (proj2 (MemberCertificate_from_bytes_exact _ mem) (conj Hw eq_refl)) in Hc; injection Hc as <-; set_solver.
Qed.
Lemma next_opens a t next now e recipients mem members kp :
  administers a t -> t <= now < adm_expires_at_ms (va_payload (au_verified_admin a)) -> authority_typed a -> config_typed next ->
  next_envelope a next now e (mkOpenedNetworkConfig (mkValidated next) (envelope_head e)) ->
  Z.land (adm_permissions (va_payload (au_verified_admin a))) ADMIN_PERMISSION_CONFIG_WRITE <> 0 ->
  active_recipient_keys next = Ok recipients -> cfg_members next = members ++ [to_bytes mem] -> cert_wf mem ->
  kem_sk_valid (ek_secret kp) = true -> kem_sk_to_pk (ek_secret kp) = mc_encryption_public_key (payload mem) ->
  open_config_with_verified_admin e (au_root_public a) (au_verified_admin a) kp (Checkpoint (envelope_head e)) now
    = Ok (mkOpenedNetworkConfig (mkValidated next) (envelope_head e)).
Proof.
  intros Had Htn Hty Ht Hne Hperm Hr Hm Hw Hsk Hpk; destruct (administers_later _ _ _ Had Htn Hty) as (ac & _ & Hva & Hvac & Hkid & Hvb).
  destruct (next_envelope_extends _ _ _ _ _ Hty Ht Hne) as [Hext _].
  destruct Hne as [(recipients' & ent & ent' & Hr' & (va & plaintext & Hsu)%seal_next_config_Ok) _ _]; rewrite Hr in Hr'; injection Hr' as <-.
  pose proof (su_sealed _ _ _ _ _ _ _ _ _ _ Hsu) as Hs; pose proof (sd_signature _ _ _ _ _ _ _ _ _ Hs) as Hsig.
  pose proof (sd_signer _ _ _ _ _ _ _ _ _ Hs) as Hkid'; pose proof (sd_network _ _ _ _ _ _ _ _ _ Hs) as Hnet.
  destruct (proj1 (AdminCertificate_verify_Ok _ _ _ _ _ _) Hvac) as [_ Htr]; unfold open_config_with_verified_admin; rewrite Hva in *; cbn [va_payload as_admin] in *.
  rewrite !bool_decide_true by (rewrite ?Hkid', ?Hkid, ?Hnet; first [done | symmetry; rewrite (ty_root _ Hty); apply Htr | rewrite (ty_root _ Hty); apply Htr]).
  cbn [negb orb fail_if mbind result_bind]; rewrite (proj2 (Z.eqb_neq _ _) Hperm), Hsig, Hvb; cbn [fail_if map_err mbind result_bind].
  rewrite (sealed_opens _ _ _ _ _ _ _ _ _ _ _ (eq_rect_r (fun n => sealed n _ _ _ _ _ _ _ _) Hs Hnet) Hsk).
  - cbn [mbind result_bind]; eapply sealed_decodes; [exact Hs | done | apply Hsu | apply Hsu |]; rewrite (ty_root _ Hty); apply Hext.
  - rewrite Hpk; by eapply last_recipient.
  - unfold validate_chain; cbn; by rewrite !Z.eqb_refl, bool_decide_true.
Qed.
(** What the device finds when it opens the ticket it was answered. *)
Lemma redemption_opens a t m i prep root now next e tk m' kp :
  redemption a m i prep root now next e tk m' -> administers a t -> t <= now -> is_u64 now = true -> authority_typed a ->
  Z.land (adm_permissions (va_payload (au_verified_admin a))) ADMIN_PERMISSION_CONFIG_WRITE <> 0 ->
  cert_wf (pj_request prep) -> jr_member_id (payload (pj_request prep)) = derive_member_id (as_network_id (au_status a)) (jr_signing_public_key (payload (pj_request prep))) ->
  kem_sk_valid (ek_secret kp) = true -> kem_sk_to_pk (ek_secret kp) = jr_encryption_public_key (payload (pj_request prep)) ->
  open_ticket (au_root_public a) tk (payload (pj_request prep)) kp now = Ok (mkOpenedNetworkConfig (mkValidated next) (envelope_head e)).
Proof.
  intros [_ Ht Hne (ex & mem & ab & secrets & Hex & _ & Hadm & _ & Hnext & Htk) _ _] Had Htn Hn Hty Hperm Hreq Hid Hsk Hpk.
  destruct (admitted_wf _ _ _ _ _ _ _ _ Had Hty Hn Hex (eq_refl : is_u32 MemberRoles.MEMBER = true) Hreq Hadm) as (Hwm & Hsig & Henc & _).
  pose proof (ad_verified _ _ _ _ _ _ _ Hadm) as Hver; destruct (next_envelope_extends _ _ _ _ _ Hty Ht Hne) as [Hext _].
  assert (t <= now < adm_expires_at_ms (va_payload (au_verified_admin a))) as Hwin by (destruct (ad_expires _ _ _ _ _ _ _ Hadm); lia).
  destruct (administers_later _ _ _ Had Hwin Hty) as (ac & Hac & Hva & Hvac & _ & _).
  pose proof (ne_sealed _ _ _ _ _ Hne) as (recipients & _ & _ & Hrec & _).
  unfold Ticket_issue in Htk; apply bind_Ok in Htk as (sb & _ & <-%Ok_inj); unfold open_ticket.
  cbn [tk_admin_certificate tk_embedded_config tk_member_certificate tk_config_head]; rewrite Hac; cbn [map_err mbind result_bind].
  rewrite (ty_root _ Hty), Hvac; cbn [map_err mbind result_bind].
  rewrite (proj2 (Envelope_from_bytes_exact _ e) (conj (ex_wf _ _ _ _ Hext) eq_refl)); cbn [map_err mbind result_bind]; rewrite <- Hva.
  rewrite (next_opens a t next now e recipients mem (cfg_members (vc_inner (au_config a))) kp); try done; [|by subst next|congruence].
  cbn [map_err mbind result_bind]; rewrite (proj2 (MemberCertificate_from_bytes_exact _ mem) (conj Hwm eq_refl)); cbn [map_err mbind result_bind].
  rewrite !bool_decide_true; [done | congruence | congruence |].
  unfold MemberCertificate_verify_with_admin in Hver; res_inv; bool_inv; congruence.
Qed.
End serving.

(** ** A concrete relay *)
Module RelayWitness.
Import Samples EnvelopeWitness ConfigStateWitness AuthorityWitness OpsWitness InvitationWitness.

#[global] Instance exclusive_file : RedbFile := fun open => if open then Err (bstr "Database already open") else Ok tt.
#[global] Instance exclusive_file_laws : RedbFileLaws.
Proof. eexists; reflexivity. Qed.
#[global] Instance no_qr : QrCode := fun _ => None.
#[global] Instance memory_dir : SecretDir (gmap SecretId bytes) := fun k _ => k.

Definition key_file : bytes := bstr "master.key".
Definition key_files : Files := {[key_file := repeat Byte.xcc 32]}.
Definition directory : DataDir MemoryState (gmap SecretId bytes) := mkDataDir (Some manifest) authority_store secrets false.
Definition locked : DataDir MemoryState (gmap SecretId bytes) := mkDataDir (Some manifest) authority_store secrets true.
Definition endpoints : list bytes := [toy_endpoint].
Definition server : RelayServer MemoryState (gmap SecretId bytes) := mkServer authority (list_to_set endpoints) ∅ ReloadIdle.
Lemma key_read : read_master_key key_files key_file = Ok (repeat Byte.xcc 32).
Proof. unfold read_master_key, key_files; rewrite lookup_singleton_eq; reflexivity. Qed.
Lemma endpoints_listed :
  try_map (fun raw =>
    binding ← map_err AuCrypto (EndpointBinding_from_bytes raw);
    fail_if (negb (endpoint_id_valid (eb_endpoint_id (payload binding)))) CorruptState;;
    Ok (eb_endpoint_id (payload binding))) (cfg_endpoint_bindings (vc_inner (au_config authority))) = Ok endpoints.
Proof. vm_compute; reflexivity. Qed.
Lemma manifest_read :
  read_manifest (Some manifest) = Ok (mkManifest toy_network (repeat Byte.x11 32) (head_hash head) (to_bytes ac)) /\
  NetworkRootPublic_from_bytes (repeat Byte.x11 32) = Ok root_public /\
  bool_decide (root_network_id root_public = toy_network) = true.
Proof. vm_compute; repeat split; reflexivity. Qed.
Lemma genesis_chain :
  exists m e, store_rep authority_store m /\ stored_chain (StoreScope_authority toy_network) toy_network m e [] e.
Proof. destruct authority_invariant as (m & e & Hi); exists m, e; exact (conj (ci_store _ _ _ _ _ Hi) (ci_chain _ _ _ _ _ Hi)). Qed.
#[local] Opaque Authority_open read_manifest authority authority_store secrets manifest root_public.
Lemma directory_opens : Authority_open_dir directory (repeat Byte.xcc 32) 300 = (directory, Ok authority).
Proof.
  unfold Authority_open_dir; destruct manifest_read as (Hm & Hr & Hb); cbn [dd_manifest directory].
  rewrite Hm; cbn [mbind result_bind mf_root_public_key mf_network_id]; rewrite Hr; cbn [map_err mbind result_bind]; rewrite Hb.
  cbn [negb fail_if mbind result_bind dd_locked directory database_create exclusive_file map_err dd_state dd_secrets secrets_open memory_dir].
  rewrite authority_opens; reflexivity.
Qed.
Lemma server_opens : serve_open directory key_files key_file 300 = (locked, Ok server).
Proof.
  unfold serve_open; rewrite key_read; cbn [mbind result_bind]; change (now_ms 300) with (@Ok CommandError Z 300); cbn [mbind result_bind].
  rewrite directory_opens; unfold allowed_member_endpoints; rewrite endpoints_listed; reflexivity.
Qed.

Definition commands : list (Command * bytes * Z) :=
  [(DnsRemove service 310 random, key_file, 310); (AppEnrollmentInstall (bstr "missing"), key_file, 320)].
Lemma commands_append_only_witness :
  exists m' e0 es' el', store_rep (dd_state (main_all (directory, key_files) commands).1) m' /\
    stored_chain (StoreScope_authority toy_network) toy_network m' e0 es' el' /\ (length es' <= 2)%nat.
Proof.
  destruct genesis_chain as (m & e & Hrep & Hch).
  destruct (commands_append_only directory key_files m toy_network e [] e commands) as (m' & es' & el' & Hr & Hc & Hl).
  - exact Hrep.
  - exact Hch.
  - intros mf; cbn [dd_manifest directory]; rewrite (proj1 manifest_read); intros Hmf; apply Ok_inj in Hmf; rewrite <- Hmf; reflexivity.
  - repeat constructor.
  - exact (ex_intro _ m' (ex_intro _ e (ex_intro _ es' (ex_intro _ el' (conj Hr (conj Hc Hl)))))).
Defined.

Definition stranger : EndpointId := mkEndpointId (repeat Byte.x10 32).
Definition happening : list ServerEvent :=
  [BootstrapEvent 0 toy_network (bootstrap_alpn toy_network) stranger [] 310 random; ReloadEvent (repeat Byte.xcc 32) 320; RefreshEvent 0].
Lemma nothing_happens : server_run locked server happening = server.
Proof.
  unfold server_run; cbn [foldl happening server_step]; assert (sv_redeemed server !! 0%nat = None) as Hfree by apply lookup_empty; rewrite Hfree.
  assert ((bootstrap_connection server 0 toy_network (bootstrap_alpn toy_network) stranger [] 310 random).1 = server) as ->
    by (unfold bootstrap_connection; rewrite bool_decide_true by reflexivity; reflexivity).
  rewrite locked_reload by reflexivity; unfold bootstrap_refresh; rewrite Hfree; reflexivity.
Qed.
(** A request that is refused, and the member's endpoint is still admitted. *)
Lemma relay_admits_members_witness :
  on_connect (mkRelayAccess (sv_allowed (server_run locked server happening))) (mkEndpointId toy_endpoint) = Allow \/
  exists connection ticket, sv_redeemed (server_run locked server happening) !! connection = Some (mkEndpointId toy_endpoint, ticket).
Proof.
  pose proof (relay_admits_members directory locked key_files (ms_records authority_store) key_file 300 server happening (mkEndpointId toy_endpoint) 330
    (memory_rep _) server_opens ltac:(repeat constructor)) as (_ & Hb & _).
  apply Hb; rewrite nothing_happens; apply (allowed_bound authority (list_to_set endpoints)).
  - unfold allowed_member_endpoints; rewrite endpoints_listed; reflexivity.
  - apply elem_of_list_to_set; left.
Defined.
Lemma serving_excludes_others_witness : exists e, main (locked, key_files) (Status, key_file, 330) = ((locked, key_files), Err e).
Proof.
  exact (proj1 (serving_excludes_others directory locked key_files key_files (ms_records authority_store) key_file 300 server
    (Status, key_file, 330) happening (memory_rep _) server_opens)).
Defined.
End RelayWitness.
