(* ===== verification/Enrollment.v ===== *)
(** * An invited device joins the network

    Composes the device's side of an enrolment ([Membership]) with the relay's
    ([RelayServer]): the device prepares its keys, sends its request over the bootstrap
    protocol, the relay redeems the invitation and answers with a ticket, and the device
    joins with it. *)

From S2P Require Import Prelude Wire Core SocketAddr Platform Store CertificateWire Certificates Symmetric SecretFile ToyCrypto CertificateChain.
From S2P Require Import Snapshot Validate Envelope EnvelopeChain ConfigState ConfigStateFacts JoinTicket Authority AuthorityFacts AuthorityChain AuthorityOps.
From S2P Require Import Initialize Invitation InvitationFacts InvitationChain Lan NetProtocol NetAuthorizer Membership MembershipFacts RelayServer RelayServerFacts.

(** ** Programs that only the stores can stop
    [runs m w Q]: run from [w], the program ends in a state of [Q], or one of the stores has
    reported an error. *)
Definition io_error (e : MembershipError) : Prop := (exists x, e = MbStore x) \/ exists x, e = MbSecret x.
Section runs.
Context {S K : Type} `{Lstore : StateStoreLaws S} `{Lsecrets : SecretStoreLaws K}.
Implicit Types (w : World S K).
Definition runs {A} (m : memb S K A) w (Q : A -> World S K -> Prop) : Prop :=
  match m w with (w', Ok a) => Q a w' | (_, Err e) => io_error e end.
Lemma runs_ret {A} (a : A) w Q : Q a w -> runs (mret a) w Q.
Proof. done. Qed.
Lemma runs_lift {A} (r : result MembershipError A) a w Q : r = Ok a -> Q a w -> runs (mlift r) w Q.
Proof. by intros ->. Qed.
Lemma runs_bind {A B} (m : memb S K A) (f : A -> memb S K B) w Q : runs m w (fun a w' => runs (f a) w' Q) -> runs (m ≫= f) w Q.
Proof. unfold runs; cbv [mbind memb_bind]; destruct (m w) as [w1 [a|e]]; done. Qed.
Lemma runs_seq {A B} (m : memb S K A) (f : A -> memb S K B) a w Q : runs m w (fun a' w' => a' = a /\ w' = w) -> runs (f a) w Q -> runs (m ≫= f) w Q.
Proof. intros Hm Hf; apply runs_bind; unfold runs in *; destruct (m w) as [w1 [a'|e]]; [by destruct Hm as [-> ->] | done]. Qed.
Lemma runs_key bs key w : StoreKey_new bs = Ok key -> runs (mb_key bs) w (fun k w' => k = key /\ w' = w).
Proof. intros Hk; unfold runs, mb_key, mlift; by rewrite Hk. Qed.
Lemma runs_read scope key m w :
  store_rep (st_state w.1) m -> scope_wf scope -> runs (mb_read scope key) w (fun o w' => o = m !! (scope, key) /\ w' = w).
Proof.
  intros Hrep Hsc; unfold runs, mb_read; destruct (read (st_state w.1) scope key) as [o|e] eqn:Hr; cbn; [|left; eauto].
  split; [by eapply read_rep | done].
Qed.
Lemma runs_open id v w : secrets_of w !! id = Some v -> runs (mb_open id) w (fun x w' => x = v /\ w' = w).
Proof.
  intros Hv; unfold runs, mb_open; destruct (open_secret (st_secrets w.1) id) as [x|e] eqn:Ho; cbn; [|right; eauto].
  apply open_view in Ho; unfold secrets_of in Hv; split; [congruence | done].
Qed.
Lemma runs_commit batch w Q : (forall w' v, Q v w') -> runs (mb_commit batch) w Q.
Proof. intros Hq; unfold runs, mb_commit; destruct (commit _ _) as [s [v|e]]; cbn; [apply Hq | left; eauto]. Qed.
End runs.

(** ** The device's side *)
Section device.
Context `{Led : Ed25519} `{Lblake : Blake3Laws} `{Laead : Aead} `{Lhpke : Hpke} `{Lplat : Platform}.
Context {S K : Type} `{Lstore : StateStoreLaws S} `{Lsecrets : SecretStoreLaws K} `{Capable S} `{Protected K}.
Implicit Types (w : World S K) (network_id : NetworkId) (m : records).

Lemma runs_load network_id label secret w :
  secrets_of w !! member_secret_id network_id label = Some secret -> length secret = 32%nat ->
  runs (load_secret_32 network_id label) w (fun x w' => x = secret /\ w' = w).
Proof.
  intros Hs Hl; unfold load_secret_32; eapply runs_seq; [by apply runs_open|].
  eapply runs_seq; [by apply (runs_lift _ tt); [rewrite Hl|] | done].
Qed.
(** The keys of the device are those of its request. *)
Lemma runs_check network_id request secret w :
  request_held network_id w request -> secrets_of w !! member_secret_id network_id ENCRYPTION_LABEL = Some secret ->
  runs (check_secrets network_id request) w (fun x w' => x = mkEncryptionKeypair secret (kem_sk_to_pk secret) /\ w' = w).
Proof.
  intros [_ (s1 & Hs1 & Hl1 & Hk1 & _) (s2 & Hs2 & Hl2 & Hk2 & He2) (s3 & Hs3 & Hl3 & He3)] Hs; unfold check_secrets.
  rewrite Hs in Hs2; injection Hs2 as <-.
  eapply runs_seq; [unfold load_encryption; eapply runs_seq; [by apply runs_load | apply (runs_lift _ _ _ _ (f_equal (map_err MbConfig) Hk2)); done]|].
  eapply runs_seq; [apply (runs_lift _ tt); [cbn; by rewrite bool_decide_true by done | done]|].
  eapply runs_seq; [by apply runs_load|]; eapply runs_seq; [apply (runs_lift _ tt); [by rewrite bool_decide_true by done | done]|].
  eapply runs_seq; [unfold load_signing; eapply runs_seq; [by apply runs_load | done]|].
  eapply runs_seq; [apply (runs_lift _ tt); [unfold SigningKeypair_public_bytes; cbn; by rewrite bool_decide_true by done | done] | done].
Qed.
Lemma runs_validate w : (validate_stores w).2 = Ok tt -> runs validate_stores w (fun x w' => x = tt /\ w' = w).
Proof. intros Hv; unfold runs; destruct (validate_stores w) as [w1 r] eqn:He; cbn in Hv; subst r; by pose proof (readonly_inv _ _ _ _ readonly_validate He). Qed.
Lemma runs_join root ticket now w m record p request secret opened :
  let network_id := root_network_id root in let scope := StoreScope_member network_id in
  store_rep (st_state w.1) m -> scope_wf scope -> (validate_stores w).2 = Ok tt -> m !! (scope, prepared_key) = Some record ->
  PreparedJoinRequest_from_bytes (vb_bytes record) = Ok p -> PreparedJoinRequest_verify p network_id now = Ok (mkVerifiedJoinRequest request) ->
  Ticket_verify ticket root network_id (jr_nonce request) (jr_endpoint_id request) now = Ok tt ->
  request_held network_id w request -> secrets_of w !! member_secret_id network_id ENCRYPTION_LABEL = Some secret ->
  open_ticket root ticket request (mkEncryptionKeypair secret (kem_sk_to_pk secret)) now = Ok opened ->
  runs (join root ticket now) w (fun head _ => head = onc_head opened).
Proof.
  intros network_id scope Hrep Hsc Hv Hrec Hp Hver Htk Hheld Hs Hop; unfold join; cbv zeta; fold network_id; fold scope.
  eapply runs_seq; [by apply runs_validate|]; eapply runs_seq; [apply runs_key, membership_keys_ok|].
  eapply runs_seq; [by apply (runs_read _ _ m)|]; rewrite Hrec; eapply runs_seq; [by apply (runs_lift _ record)|].
  eapply runs_seq; [apply (runs_lift _ p); [by rewrite Hp | done]|]; eapply runs_seq; [apply (runs_lift _ (mkVerifiedJoinRequest request)); [by rewrite Hver | done]|].
  cbn [vjr_payload]; eapply runs_seq; [apply (runs_lift _ tt); [by rewrite Htk | done]|]; eapply runs_seq; [by apply runs_check|].
  eapply runs_seq; [by apply (runs_lift _ opened)|].
  destruct (join_batch scope ticket (onc_head opened) prepared_key (vb_version record)) as [batch|e]; [|left; eauto].
  eapply runs_seq; [by apply (runs_lift _ batch)|]; apply runs_bind, runs_commit; done.
Qed.
End device.

(** ** The exchange *)
Section exchange.
Context `{Led : Ed25519Laws} `{Lblake : Blake3Laws} `{Laead : AeadLaws} `{Lhpke : HpkeLaws} `{Lexcl : !HpkeExclusive} `{Lplatform : Platform}.
Context {S K : Type} `{Lstore : StateStoreLaws S} `{Lsecret : SecretStore K} `{Lb64 : Base64Laws}.

(** Invitations and tickets up to these sizes fit the limits both sides set on a message. *)
Definition INVITATION_LIMIT : Z := 2 ^ 19.
Definition TICKET_LIMIT : Z := 1024 * 1024 - 16.
Lemma messages_on_wire i prep tk :
  invitation_wf i -> 0 < len (Invitation_to_bytes i) <= INVITATION_LIMIT -> cert_wf (pj_request prep) -> cert_wf (pj_endpoint_binding prep) ->
  PreparedJoinRequest_from_bytes (PreparedJoinRequest_to_bytes prep) = Ok prep -> ticket_wf tk -> len (Ticket_to_bytes tk) <= TICKET_LIMIT ->
  (exists request, RedeemRequest_to_bytes (mkRedeemRequest i prep) = Ok request /\ len request <= 1024 * 1024 /\
     RedeemRequest_from_bytes request = Ok (mkRedeemRequest i prep)) /\
  exists response, RedeemResponse_to_bytes (Accepted tk) = Ok response /\ len response <= 1024 * 1024 /\
     RedeemResponse_from_bytes response = Ok (Accepted tk).
Proof.
  unfold INVITATION_LIMIT, TICKET_LIMIT; intros Hi Hli Hwr Hwb Hp Ht Hlt.
  assert (len (PreparedJoinRequest_to_bytes prep) <= 2000 /\ 0 < len (PreparedJoinRequest_to_bytes prep)) as [Hlp Hlp'].
  { unfold PreparedJoinRequest_to_bytes, len; rewrite !length_app, !length_to_be, (proj1 (JoinRequest_wire _ Hwr)), (proj1 (EndpointBinding_wire _ Hwb)).
    by vm_compute. }
  assert (0 <= len (Ticket_to_bytes tk)) by (unfold len; lia).
  assert (is_u32 (len (Ticket_to_bytes tk)) = true) as Hu by (unfold in_range; passes).
  destruct (bootstrap_messages_round_trip i prep tk RejectInvalid Hi Hp) as (Hq & _ & rs & Hr & Hrs); [unfold MAX_BOOTSTRAP_PAYLOAD; lia.. | done | done|].
  split.
  - apply bind_Ok in Hq as (bs & Hb & Hq); exists bs; split_and!; [done| |done]; unfold RedeemRequest_to_bytes in Hb; cbn [br_invitation br_prepared] in Hb.
    apply bind_Ok in Hb as (u & _ & Hb); apply bind_Ok in Hb as (b1 & Hb1 & Hb); apply bind_Ok in Hb as (b2 & Hb2 & <-%Ok_inj).
    unfold push_u32_blob in Hb1, Hb2; apply bind_Ok in Hb1 as (? & _ & <-%Ok_inj); apply bind_Ok in Hb2 as (? & _ & <-%Ok_inj).
    unfold len in *; rewrite !length_app, !length_to_be; change (length BOOTSTRAP_REQUEST_MAGIC) with 8%nat; lia.
  - exists rs; split_and!; [done| |by rewrite Hrs, (proj2 (Z.leb_le _ _)) by (unfold MAX_BOOTSTRAP_PAYLOAD; lia)].
    unfold RedeemResponse_to_bytes, push_u32_blob in Hr; apply bind_Ok in Hr as (b & Hb & <-%Ok_inj); apply bind_Ok in Hb as (? & _ & <-%Ok_inj).
    unfold len in *; rewrite !length_app, !length_to_be; change (length BOOTSTRAP_RESPONSE_MAGIC) with 8%nat; lia.
Qed.
(** *** The ticket later on *)
(** Neither the ticket nor the member certificate and the endpoint binding in it have expired. *)
Record ticket_current (tk : JoinTicket) (now : Z) : Prop := {
  tc_ticket : now < tk_expires_at_ms tk;
  tc_member : forall mem, MemberCertificate_from_bytes (tk_member_certificate tk) = Ok mem -> now < mc_expires_at_ms (payload mem);
  tc_endpoint : forall b, EndpointBinding_from_bytes (tk_endpoint_binding tk) = Ok b -> now < eb_expires_at_ms (payload b);
}.
Lemma ticket_verify_later tk root net nonce endpoint now now' :
  Ticket_verify tk root net nonce endpoint now = Ok tt -> now <= now' -> ticket_current tk now' ->
  Ticket_verify tk root net nonce endpoint now' = Ok tt /\
  exists a, AdminCertificate_from_bytes (tk_admin_certificate tk) = Ok a /\ admin_trusted a root net now' ∅.
Proof.
  unfold Ticket_verify; intros Hv Hle [Htk Hmem Hend]; apply bind_Ok in Hv as ([] & Hf%fail_if_Ok & Hv); bool_inv.
  apply bind_Ok in Hv as (a & Ha & Hv); apply bind_Ok in Hv as (va & Hva & Hv).
  apply map_err_Ok, AdminCertificate_verify_Ok in Hva as [-> Htr]; apply bind_Ok in Hv as ([] & Hid & Hv).
  apply bind_Ok in Hv as ([] & Hsig & Hv); apply bind_Ok in Hv as (mem & Hm & Hv); apply bind_Ok in Hv as (vm & Hvm & Hv).
  apply map_err_Ok, MemberCertificate_verify_with_admin_Ok in Hvm as [-> Hmt]; apply bind_Ok in Hv as (b & Hb & Hv).
  apply bind_Ok in Hv as ([] & Hbt & Hv); apply map_err_Ok, EndpointBinding_verify_Ok in Hbt.
  specialize (Hmem mem (proj1 (map_err_Ok _ _ _) Hm)); specialize (Hend b (proj1 (map_err_Ok _ _ _) Hb)).
  assert (admin_trusted a root net now' ∅) as Htr' by (destruct Htr, Hmt; constructor; try done; cbn in *; lia).
  split; [|exists a; split; [by apply map_err_Ok in Ha | done]].
  apply bind_Ok; exists tt; split; [apply fail_if_Ok; passes|]; rewrite Ha; cbn [mbind result_bind].
  rewrite (proj2 (AdminCertificate_verify_Ok _ _ _ _ _ _) (conj eq_refl Htr')); cbn [map_err mbind result_bind].
  rewrite Hid; cbn [mbind result_bind]; rewrite Hsig; cbn [mbind result_bind]; rewrite Hm; cbn [mbind result_bind].
  rewrite (proj2 (MemberCertificate_verify_with_admin_Ok mem (mkVerifiedAdmin (payload a) (adm_public_key (payload a))) net now' ∅ (mkVerifiedMember (payload mem)))); [|split; [done|]; destruct Hmt; constructor; try done; lia].
  cbn [map_err mbind result_bind]; rewrite Hb; cbn [mbind result_bind].
  rewrite (proj2 (EndpointBinding_verify_Ok b (mkVerifiedMember (payload mem)) net endpoint now')); [|destruct Hbt; by constructor]; exact Hv.
Qed.
Lemma open_ticket_later root tk request kp now now' a c h :
  open_ticket root tk request kp now = Ok (mkOpenedNetworkConfig c h) ->
  AdminCertificate_from_bytes (tk_admin_certificate tk) = Ok a -> admin_trusted a root (root_network_id root) now' ∅ ->
  config_valid (vc_inner c) root (root_network_id root) now' ->
  open_ticket root tk request kp now' = Ok (mkOpenedNetworkConfig c h).
Proof.
  unfold open_ticket; intros Ho Ha Htr Hv; rewrite Ha in *; cbn [map_err mbind result_bind] in *; apply bind_Ok in Ho as (va & Hva & Ho).
  apply map_err_Ok, AdminCertificate_verify_Ok in Hva as [-> _]; rewrite (proj2 (AdminCertificate_verify_Ok _ _ _ _ _ _) (conj eq_refl Htr)).
  cbn [map_err mbind result_bind]; apply bind_Ok in Ho as (e & -> & Ho); cbn [mbind result_bind]; apply bind_Ok in Ho as (o & Hop & Ho).
  assert (o = mkOpenedNetworkConfig c h) as -> by (apply bind_Ok in Ho as (? & _ & Ho); by apply bind_Ok in Ho as ([] & _ & [= ->])).
  apply map_err_Ok, (reopen_config_at _ _ _ _ _ _ now') in Hop as [_ Hre]; by rewrite (proj2 (Hre _) (conj eq_refl Hv)).
Qed.
End exchange.

(** ** The whole enrolment *)
Section enrolment.
Context `{Led : Ed25519Laws} `{Lblake : Blake3Laws} `{Laead : AeadLaws} `{Lhpke : HpkeLaws} `{Lexcl : !HpkeExclusive} `{Lkeys : !@KeyGenLaws _ Lplatform Lgen}.
Context {S K : Type} `{Lstore : StateStoreLaws S} `{Lsecret : SecretStore K} `{Lb64 : Base64Laws}.
Context `{Lfile : RedbFileLaws} `{Lqr : QrCode} `{Ldir : !SecretDir K}.
Context {S' K' : Type} `{Lstore' : StateStoreLaws S'} `{Lsecret' : SecretStoreLaws K'} `{Capable S'} `{Protected K'}.

(** The connection of a device that is enrolled: whatever the others do before the relay
    reads the endpoints again, the device is sent its ticket, and is admitted by then. *)
Lemma relay_answers dd t (sv : RelayServer S K) c net remote request clock ent i prep a' tk meanwhile :
  dd_locked dd = true -> serving t sv -> endpoint_id_valid (EndpointId_as_bytes remote) = true -> sv_redeemed sv !! c = None ->
  Forall event_typed meanwhile -> Forall (fun e => e <> RefreshEvent c) meanwhile ->
  len request <= 1024 * 1024 -> RedeemRequest_from_bytes request = Ok (mkRedeemRequest i prep) ->
  jr_endpoint_id (payload (pj_request prep)) = EndpointId_as_bytes remote -> now_ms clock = Ok clock ->
  redeem_invitation_online (sv_authority sv) i prep clock ent = (a', Ok tk) ->
  let exchanged := bootstrap_exchanged dd sv c net remote clock ent meanwhile (bootstrap_alpn net) request in
  exchanged.2 = bootstrap_answer (Accepted tk) /\ forall x, listed a' x -> x ∈ sv_allowed exchanged.1.
Proof.
  intros Hlk Hs Hv Hc Hev Hno Hl Hq He Hn Hr.
  assert (bootstrap_connection sv c net (bootstrap_alpn net) remote request clock ent =
    (mkServer a' (sv_allowed sv) (<[c := (remote, tk)]> (sv_redeemed sv)) (sv_reload sv), None)) as Hbc.
  { unfold bootstrap_connection, bootstrap_redeem; rewrite (bool_decide_true (bootstrap_alpn net = _)) by done; cbn [negb].
    rewrite (proj2 (Z.ltb_ge _ _) Hl), Hq; cbn [br_invitation br_prepared]; rewrite (bool_decide_true _ He); cbn [negb]; by rewrite Hn, Hr. }
  destruct (bootstrap_connection_serving t sv c net (bootstrap_alpn net) remote request clock ent Hs Hv Hc) as [Hs1 _].
  unfold bootstrap_exchanged; rewrite Hbc in *; cbn [fst] in Hs1; set (sv1 := mkServer _ _ _ _) in *.
  destruct (server_run_serving dd t sv1 meanwhile Hlk Hs1 Hev) as [Hs2 Hk].
  pose proof (server_run_redeemed dd t sv1 meanwhile c (remote, tk) Hlk Hs1 Hev Hno (lookup_insert_eq _ _ _)) as Hc2.
  destruct (bootstrap_refresh_serving t (server_run dd sv1 meanwhile) c Hs2) as (_ & _ & Hin); cbv zeta; split.
  - unfold bootstrap_refresh; by rewrite Hc2.
  - intros x Hx; apply Hin; [by eexists | by apply Hk].
Qed.

(** A redemption that moves the head is a fresh one. *)
Lemma fresh_redemption (a a' : Authority S K) m e0 es el i prep now ent tk :
  chain_inv a m e0 es el -> invitation_typed i -> is_u64 now = true -> redeem_invitation_online a i prep now ent = (a', Ok tk) ->
  as_head (au_status a') <> as_head (au_status a) ->
  exists root next e m', redemption a m i prep root now next e tk m' /\ as_head (au_status a') = envelope_head e /\
    au_config a' = mkValidated next.
Proof.
  intros Hi [Hid Hiu] Hn Hr Hne; unfold redeem_invitation_online in Hr; destruct (open_secret_32 _ _) as [bs|]; [|done].
  pose proof Hi as [Hrep Hty _ _ _].
  destruct (redeem_cases _ _ _ _ _ _ _ _ _ Hrep Hty Hn Hiu Hid Hr)
    as [[-> _]|[(_ & _ & x & ?)|(next & e & tk' & m' & Hred & _ & [[_ [x ?]]|([= <-] & ev & hv & Ha)])]]; try done.
  exists (AppRootKey_from_bytes bs), next, e, m'; split; [done | split; by rewrite Ha].
Qed.

(** The answer of the relay leads the device to the head of the authority. *)
Lemma ticket_joins (a a' : Authority S K) (t : Z) (m : records) (e0 : EncryptedConfigEnvelope) (es : list EncryptedConfigEnvelope) (el : EncryptedConfigEnvelope)
    (i : InvitationBundle) (prep : PreparedJoinRequest) (now now' : Z) (ent : entropy) (tk : JoinTicket) (w : World S' K') (md : records) (record : VersionedBytes) :
  let root := au_root_public a in let net := root_network_id root in let scope := StoreScope_member net in
  chain_inv a m e0 es el -> administers a t -> t <= now -> is_u64 now = true -> invitation_typed i ->
  Z.land (adm_permissions (va_payload (au_verified_admin a))) ADMIN_PERMISSION_CONFIG_WRITE <> 0 ->
  redeem_invitation_online a i prep now ent = (a', Ok tk) -> as_head (au_status a') <> as_head (au_status a) ->
  now <= now' -> ticket_current tk now' -> config_valid (vc_inner (au_config a')) root net now' ->
  cert_wf (pj_request prep) -> cert_wf (pj_endpoint_binding prep) ->
  store_rep (st_state w.1) md -> (validate_stores w).2 = Ok tt -> md !! (scope, prepared_key) = Some record ->
  PreparedJoinRequest_from_bytes (vb_bytes record) = Ok prep -> request_held net w (payload (pj_request prep)) ->
  (now' < jr_expires_at_ms (payload (pj_request prep)) -> PreparedJoinRequest_verify prep net now' = Ok (mkVerifiedJoinRequest (payload (pj_request prep)))) ->
  ticket_wf tk /\ runs (join root tk now') w (fun head _ => head = as_head (au_status a')).
Proof.
  intros root net scope Hi Had Htn Hn Hit Hperm Hr Hne Hle Hcur Hcv Hwr Hwb Hrep Hval Hrec Hp Hheld Hver.
  destruct (fresh_redemption _ _ _ _ _ _ _ _ _ _ _ Hi Hit Hn Hr Hne) as (r0 & next & e & m' & Hred & Hhead & Hcfg).
  pose proof Hi as [_ Hty _ _ _]; assert (net = as_network_id (au_status a)) as Hnet by apply (ty_root _ Hty).
  destruct (redemption_ticket _ _ _ _ _ _ _ _ _ _ _ Hred Had Htn Hn Hty Hwr Hwb) as [[Hwt _]%Ticket_from_bytes_exact Htk]; split; [done|].
  assert (now' < jr_expires_at_ms (payload (pj_request prep))) as Hnow.
  { destruct Hred as [_ _ _ (ex & mem & ab & secrets & _ & _ & [? _ _ _] & _ & _ & Hti) _ _]; pose proof (tc_ticket _ _ Hcur) as Htc.
    unfold Ticket_issue in Hti; apply bind_Ok in Hti as (sb & _ & <-%Ok_inj); cbn in Htc; lia. }
  destruct (ticket_verify_later _ _ _ _ _ _ now' Htk Hle Hcur) as (Htk' & ac & Hac & Htr); rewrite <- Hnet in Htr.
  destruct (rh_encryption _ _ _ Hheld) as (secret & Hs & Hl & Hk & Hpk); destruct (rh_signing _ _ _ Hheld) as (ss & _ & _ & Hsp & Hid).
  rewrite Hhead; change (envelope_head e) with (onc_head (mkOpenedNetworkConfig (mkValidated next) (envelope_head e))).
  apply (runs_join root tk now' w md record prep (payload (pj_request prep)) secret); try done.
  - unfold scope_wf, StoreScope_member; cbn; fold net; rewrite Hnet; apply Hty.
  - by apply Hver.
  - fold net; by rewrite Hnet.
  - apply (open_ticket_later root tk _ _ now now' ac); [|done..|by rewrite Hcfg in Hcv].
    unfold root; eapply redemption_opens; try done.
    + rewrite Hid, Hsp, <- Hnet; done.
    + cbn [ek_secret]; unfold Keypair_from_secret_bytes in Hk; apply bind_Ok in Hk as (u & Hv%fail_if_Ok & _); by bool_inv.
Qed.

(** The device sends its request and receives the ticket. *)
Lemma exchange_accepted (answer : bytes -> bytes -> option bytes) endpoint target tk alpn request response :
  answer alpn request = bootstrap_answer (Accepted tk) -> RedeemResponse_to_bytes (Accepted tk) = Ok response -> len response <= 1024 * 1024 ->
  RedeemResponse_from_bytes response = Ok (Accepted tk) -> target.1 = endpoint ->
  bootstrap_exchange (fun target alpn request => Some (mkConnection target.1 (match answer alpn request with Some bs => Arrived bs | None => Silent end)))
    endpoint target alpn request = Ok (Accepted tk).
Proof.
  unfold bootstrap_answer; intros Ha Hrs Hlr Hfr Htg; rewrite Hrs in Ha; unfold bootstrap_exchange; rewrite Ha.
  cbn [ok_or mbind result_bind conn_remote_id conn_incoming]; rewrite bool_decide_true by done; cbn [negb fail_if mbind result_bind].
  rewrite (proj2 (Z.ltb_ge _ _) Hlr); cbn [fail_if mbind result_bind]; by rewrite Hfr.
Qed.

(** The device's program, given what the relay answers. *)
Lemma redeem_runs (answer : bytes -> bytes -> option bytes) net root i now clock' (w w1 : World S' K') prep tk request response Q :
  root_network_id root = net -> (validate_stores w).2 = Ok tt -> Invitation_verify i root now = Ok tt ->
  (forall text, iv_bootstrap_relay i = Some text -> relay_url_parse text <> None) ->
  prepare_join net MemberRoles.MEMBER (iv_expires_at_ms i) w = (w1, Ok prep) -> request_held net w1 (payload (pj_request prep)) ->
  RedeemRequest_to_bytes (mkRedeemRequest i prep) = Ok request -> answer (bootstrap_alpn net) request = bootstrap_answer (Accepted tk) ->
  RedeemResponse_to_bytes (Accepted tk) = Ok response -> len response <= 1024 * 1024 -> RedeemResponse_from_bytes response = Ok (Accepted tk) ->
  runs (join root tk clock') w1 Q ->
  runs (redeem (fun target alpn request => Some (mkConnection target.1 (match answer alpn request with Some bs => Arrived bs | None => Silent end)))
    root i now clock') w Q.
Proof.
  intros Hnet Hv Hiv Hrelay Hprep Hheld Hq Ha Hrs Hlr Hfr Hjoin.
  assert (iv_network_id i = net /\ endpoint_id_valid (iv_bootstrap_endpoint_id i) = true) as [Hin Hep]
    by (unfold Invitation_verify in Hiv; apply bind_Ok in Hiv as (u & Hf%fail_if_Ok & _); bool_inv; split; congruence).
  destruct (rh_endpoint _ _ _ Hheld) as (se & Hse & Hle & _).
  unfold redeem; cbv zeta; eapply runs_seq; [by apply runs_validate|]; eapply runs_seq; [apply (runs_lift _ tt); [by rewrite Hiv | done]|].
  rewrite Hin; eapply runs_seq; [apply (runs_lift _ tt); [by rewrite bool_decide_true by done | done]|].
  apply runs_bind; unfold runs at 1; rewrite Hprep; eapply runs_seq; [by apply runs_load|].
  apply runs_bind, (runs_lift _ (match iv_bootstrap_relay i with Some text => relay_url_parse text | None => None end)).
  { destruct (iv_bootstrap_relay i) as [text|] eqn:Ht; [|done]; pose proof (Hrelay text eq_refl); by destruct (relay_url_parse text). }
  eapply runs_seq; [apply (runs_lift _ (mkEndpointId (iv_bootstrap_endpoint_id i))); [unfold EndpointId_from_bytes; by rewrite Hep | done]|].
  eapply runs_seq; [apply (runs_lift _ request); [by rewrite Hq | done]|].
  eapply runs_seq; [apply (runs_lift _ (Accepted tk)); [by eapply exchange_accepted | done] | exact Hjoin].
Qed.

End enrolment.

(** ** A concrete enrolment *)
Module EnrollmentWitness.
Import Samples EnvelopeWitness ConfigStateWitness AuthorityWitness OpsWitness InvitationWitness RelayWitness.
#[local] Existing Instance InitializeWitness.platform32.

(** The authority holds the invitation and the root key of the application. *)
Definition stored_invitation : bytes := Eval vm_compute in Invitation_to_bytes invitation.
Definition invitation_at : StoreKey := Eval vm_compute in ok_else head_key (invitation_key (iv_invitation_id invitation)).
Definition relay_store : MemoryState :=
  mkMemoryState 1 5 5 (<[(au_scope0, invitation_at) := mkVersionedBytes 4 stored_invitation]> authority_records).
Definition relay_secrets : gmap SecretId bytes := <[enrollment_secret_id toy_network app := repeat Byte.x44 32]> secrets.
Definition relay : Authority MemoryState (gmap SecretId bytes) :=
  mkAuthority relay_store relay_secrets root_public toy_admin (as_admin ac) (to_bytes ac) keypair toy_endpoint
    (mkValidated genesis) 1 2 (mkAuthorityStatus toy_network (repeat Byte.x11 32) head (bstr "https://relay")).
Lemma relay_loads :
  load_authority relay_store relay_secrets (Some manifest) 300
    = Ok (mkManifest toy_network (repeat Byte.x11 32) (head_hash head) (to_bytes ac), root_public, keypair, toy_endpoint,
          toy_admin, as_admin ac, mkVersionedBytes 1 genesis_raw, mkVersionedBytes 2 (encode_head head),
          mkOpenedNetworkConfig (mkValidated genesis) head).
Proof. vm_compute; reflexivity. Qed.
Lemma relay_opens : Authority_open relay_store relay_secrets (Some manifest) 300 = (relay_store, Ok relay).
Proof.
  exact (open_loaded _ _ _ _ _ _ _ _ _ _ _ _ _ (mkVersionedBytes 3 genesis_raw) (as_admin ac) relay_loads
    ltac:(vm_compute; reflexivity) eq_refl ltac:(vm_compute; reflexivity) ltac:(vm_compute; reflexivity)).
Qed.

Definition empty_secrets : gmap SecretId bytes := ∅.
Definition device_randomness : entropy :=
  [Some (repeat Byte.x77 32); Some (repeat Byte.x88 32); Some (repeat Byte.x99 32); Some (repeat Byte.xaa 32)].
Definition device_world : World MemoryState (gmap SecretId bytes) :=
  (mkStores (mkMemoryState 1 1 1 ∅) empty_secrets true, device_randomness).
Definition preparing := prepare_join toy_network MemberRoles.MEMBER (iv_expires_at_ms invitation) device_world.
Definition prep : PreparedJoinRequest := Eval vm_compute in ok_else join preparing.2.
Lemma prepares_Ok : preparing.2 = Ok prep.
Proof. vm_compute; reflexivity. Qed.
Definition enrolling := redeem_invitation_online relay invitation prep 320 random2.
Definition answer : JoinTicket := Eval vm_compute in ok_else no_ticket enrolling.2.
Definition enrolled_config : NetworkConfigV1 := Eval vm_compute in vc_inner (au_config enrolling.1).
Lemma enrolls_Ok :
  (enrolling.2, (bool_decide (as_head (au_status enrolling.1) = head), vc_inner (au_config enrolling.1))) = (Ok answer, (false, enrolled_config)).
Proof. vm_compute; reflexivity. Qed.
(** The answer arrives ten milliseconds later. *)
Lemma answer_current : ticket_current answer 330.
Proof.
  constructor; [vm_compute; reflexivity | intros mem Hm | intros b Hb].
  - vm_compute in Hm; apply Ok_inj in Hm; rewrite <- Hm; vm_compute; reflexivity.
  - vm_compute in Hb; apply Ok_inj in Hb; rewrite <- Hb; vm_compute; reflexivity.
Qed.
Lemma enrolled_valid : validate enrolled_config root_public toy_network 330 = Ok (mkValidated enrolled_config).
Proof. vm_compute; reflexivity. Qed.
Lemma device_validates : (validate_stores device_world).2 = Ok tt /\ (validate_stores preparing.1).2 = Ok tt.
Proof. split; vm_compute; reflexivity. Qed.
Lemma invitation_verifies : Invitation_verify invitation root_public 310 = Ok tt.
Proof. vm_compute; reflexivity. Qed.
Lemma relay_endpoints :
  try_map (fun raw =>
    binding ← map_err AuCrypto (EndpointBinding_from_bytes raw);
    fail_if (negb (endpoint_id_valid (eb_endpoint_id (payload binding)))) CorruptState;;
    Ok (eb_endpoint_id (payload binding))) (cfg_endpoint_bindings (vc_inner (au_config relay))) = Ok endpoints.
Proof. vm_compute; reflexivity. Qed.
Lemma sizes : 0 < len (Invitation_to_bytes invitation) <= INVITATION_LIMIT /\ len (Ticket_to_bytes answer) <= TICKET_LIMIT.
Proof. split_and!; vm_compute; first [reflexivity | discriminate]. Qed.
Lemma relay_at_genesis :
  au_root_public relay = root_public /\ as_head (au_status relay) = head /\ root_network_id root_public = toy_network /\
  Z.land (adm_permissions (va_payload (au_verified_admin relay))) ADMIN_PERMISSION_CONFIG_WRITE <> 0.
Proof. split_and!; try (vm_compute; reflexivity); vm_compute; discriminate. Qed.

Definition relay_directory : DataDir MemoryState (gmap SecretId bytes) := mkDataDir (Some manifest) relay_store relay_secrets false.
Definition relay_locked : DataDir MemoryState (gmap SecretId bytes) := mkDataDir (Some manifest) relay_store relay_secrets true.
Definition relay_server : RelayServer MemoryState (gmap SecretId bytes) := mkServer relay (list_to_set endpoints) ∅ ReloadIdle.
Definition device_id : EndpointId := Eval vm_compute in mkEndpointId (jr_endpoint_id (payload (pj_request prep))).

(** The device joins with the answer and later leaves again. *)
Definition joining := Membership.join root_public answer 320 preparing.1.
Definition joined_head : ConfigHead := Eval vm_compute in ok_else head joining.2.
Lemma joins_Ok : (joining.2, read (st_state preparing.1.1) (StoreScope_member toy_network) (hist_key (head_revision joined_head))) = (Ok joined_head, Ok None).
Proof. vm_compute; reflexivity. Qed.
Definition member_records : records := {[(StoreScope_member toy_network, certificate_key) := mkVersionedBytes 1 [Byte.x01]]}.
Definition member_world : World MemoryState (gmap SecretId bytes) :=
  (mkStores (mkMemoryState 1 2 2 member_records)
     {[member_secret_id toy_network SIGNING_LABEL := repeat Byte.x77 32]} true, []).
Lemma member_keys key v : member_records !! (StoreScope_member toy_network, key) = Some v -> StoreKey_wf key.
Proof.
  unfold member_records; intros Hv; apply lookup_singleton_Some in Hv as [Hk _]; apply (f_equal snd) in Hk; cbn [snd] in Hk.
  rewrite <- Hk; vm_compute; split; discriminate.
Qed.
Definition resetting := reset toy_network member_world.
Lemma resets_Ok : resetting.2 = Ok tt.
Proof. vm_compute; reflexivity. Qed.
#[local] Opaque Authority_open read_manifest relay relay_store relay_secrets manifest root_public prepare_join redeem_invitation_online Membership.join reset invitation prep answer.
Lemma relay_serves : serve_open relay_directory key_files key_file 300 = (relay_locked, Ok relay_server).
Proof.
  unfold serve_open; rewrite key_read; cbn [mbind result_bind]; change (now_ms 300) with (@Ok CommandError Z 300); cbn [mbind result_bind].
  unfold Authority_open_dir; destruct manifest_read as (Hm & Hr & Hb); cbn [dd_manifest relay_directory].
  rewrite Hm; cbn [mbind result_bind mf_root_public_key mf_network_id]; rewrite Hr; cbn [map_err mbind result_bind]; rewrite Hb.
  cbn [negb fail_if mbind result_bind dd_locked relay_directory database_create exclusive_file map_err dd_state dd_secrets secrets_open memory_dir].
  rewrite relay_opens; unfold allowed_member_endpoints; rewrite relay_endpoints; reflexivity.
Qed.
Lemma device_prepares :
  prepare_join toy_network MemberRoles.MEMBER (iv_expires_at_ms invitation) device_world = (preparing.1, Ok prep).
Proof. change (preparing = (preparing.1, Ok prep)); rewrite <- prepares_Ok; apply surjective_pairing. Qed.
Lemma relay_enrolls : redeem_invitation_online relay invitation prep 320 random2 = (enrolling.1, Ok answer).
Proof. change (enrolling = (enrolling.1, Ok answer)); rewrite <- (f_equal fst enrolls_Ok : enrolling.2 = Ok answer); apply surjective_pairing. Qed.
#[local] Opaque preparing enrolling.
Lemma device_joins : Membership.join root_public answer 320 preparing.1 = (joining.1, Ok joined_head).
Proof. change (joining = (joining.1, Ok joined_head)); rewrite <- (f_equal fst joins_Ok : joining.2 = Ok joined_head); apply surjective_pairing. Qed.
Lemma device_resets : reset toy_network member_world = (resetting.1, Ok tt).
Proof. change (resetting = (resetting.1, Ok tt)); rewrite <- resets_Ok; apply surjective_pairing. Qed.
#[local] Opaque joining resetting.
(** Before the relay answers, the request of a stranger arrives and the reload task wakes up. *)
Definition bystander : list ServerEvent :=
  [BootstrapEvent 2 toy_network (bootstrap_alpn toy_network) stranger [] 325 random; ReloadEvent (repeat Byte.xcc 32) 326].

Lemma join_all_or_nothing_witness :
  exists m', store_rep (st_state joining.1.1) m' /\
    joined (StoreScope_member toy_network) (ms_records (st_state preparing.1.1)) answer joined_head m'.
Proof.
  destruct relay_at_genesis as (_ & _ & Hnet & _).
  pose proof (join_all_or_nothing preparing.1 joining.1 (ms_records (st_state preparing.1.1)) root_public answer 320 (Ok joined_head)) as Ht.
  cbv zeta in Ht; rewrite Hnet in Ht; exact (proj2 (Ht (memory_rep _) eq_refl device_joins)).
Defined.
Lemma reset_forgets_network_witness :
  exists m', store_rep (st_state resetting.1.1) m' /\ (forall key, m' !! (StoreScope_member toy_network, key) = None) /\
    forall id, id ∈ member_ids toy_network -> secrets_of resetting.1 !! id = None.
Proof.
  destruct (reset_forgets_network member_world resetting.1 _ toy_network (Ok tt) (memory_rep _) eq_refl) as (m' & Hr & _ & _ & _ & Hg).
  - exact member_keys.
  - exact device_resets.
  - exact (ex_intro _ m' (conj Hr (Hg eq_refl))).
Defined.
End EnrollmentWitness.
