(* ===== verification/NetworkHandle.v ===== *)
(** * weaver-net: a member's handle on its network

    Models [crates/weaver-net/src/network_handle.rs] with the endpoint of [lib.rs] it wraps:
    opening a membership from its stores, and everything that then runs on what the handle
    shares with its background tasks, the configuration state with its authorizer, the
    address lookup, the presence directory and the publisher on the local network.  Each
    access to a shared object holds its lock, so that a run of the handle is a sequence of
    such accesses in any order. *)

From S2P Require Import Prelude Wire Core SocketAddr Platform Store CertificateWire Certificates Symmetric Snapshot Validate.
From S2P Require Import Envelope Presence Lan Directory DirectoryFacts ConfigState NetProtocol NetAuthorizer NetSync Membership.

#[global] Instance ServerAddr_eq_dec : EqDecision ServerAddr.
Proof. solve_decision. Defined.
#[global] Instance ServerAddr_countable : Countable ServerAddr.
Proof. refine (inj_countable' ServerAddr_app ServerAddr_new _); by intros []. Defined.

(* weaver-net/src/network_handle.rs:441-470 NetworkHandleError *)
Inductive NetworkHandleError : Type :=
| InsecureStoreCapabilities
| NhCorruptSecret
| NhNetworkMismatch (local target : NetworkId)
| TargetMustBeServer
| UnknownVirtualName (name : VirtualName)
| NhBindings (e : LocalBindingsError)
| NhStore (e : StoreError)
| NhSecret (e : SecretStoreError)
| NhConfigState (e : ConfigStateError)
| NhConfig (e : ConfigError)
| NhAuthorization (e : ConfigAuthorizationError)
| NhDiscovery (e : DiscoveryError)
| NhNetwork (e : NetworkError)
| NhConfigSync (e : ConfigStateError + ConfigAuthorizationError).

(* weaver-net/src/network_handle.rs:28-37 NetworkHandleOpenOptions *)
Record NetworkHandleOpenOptions (S K : Type) : Type := mkOpenOptions {
  oo_root : NetworkRootPublic;
  oo_state_store : S;
  oo_secret_store : K;
  oo_config_sync : ConfigSyncOptions;
  oo_presence_sync : PresenceSyncOptions;
  oo_allow_insecure_test_stores : bool;
}.
Arguments mkOpenOptions {S K}.
Arguments oo_root {S K}.
Arguments oo_state_store {S K}.
Arguments oo_secret_store {S K}.
Arguments oo_config_sync {S K}.
Arguments oo_presence_sync {S K}.
Arguments oo_allow_insecure_test_stores {S K}.

(** ** The endpoint *)
Section endpoint.
Context {A C P : Type}.
Implicit Types (node : NodeConfig A C P).
(* weaver-net/src/lib.rs:1325-1333 NodeConfig::with_config_update_source *)
Definition with_config_update_source node (source : C) (allowed_peers : gset EndpointId) : NodeConfig A C P :=
  mkNodeConfig (nc_secret_key node) (nc_relay_url node) (nc_relay_urls node) (nc_accept_alpns node) (nc_network_id node)
    (nc_local_bindings node) (nc_allowed_clients node) (nc_enable_direct_paths node) (nc_address_lookup node) (Some source)
    allowed_peers (nc_presence_store node) (nc_allowed_presence_peers node) (nc_authorizer node).
(** [None] is the panic of the assertion. *)
(* weaver-net/src/lib.rs:1346-1354 NodeConfig::with_address_lookup *)
Definition with_address_lookup node (lookup : WeaverAddressLookup) : option (NodeConfig A C P) :=
  if bool_decide (lk_network_id lookup = nc_network_id node) then
    Some (mkNodeConfig (nc_secret_key node) (nc_relay_url node) (nc_relay_urls node) (nc_accept_alpns node) (nc_network_id node)
      (nc_local_bindings node) (nc_allowed_clients node) (nc_enable_direct_paths node) (Some lookup) (nc_config_update_source node)
      (nc_allowed_config_peers node) (nc_presence_store node) (nc_allowed_presence_peers node) (nc_authorizer node))
  else None.
(* weaver-net/src/lib.rs:1356-1359 NodeConfig::with_authorizer *)
Definition with_authorizer node (authorizer : A) : NodeConfig A C P :=
  mkNodeConfig (nc_secret_key node) (nc_relay_url node) (nc_relay_urls node) (nc_accept_alpns node) (nc_network_id node)
    (nc_local_bindings node) (nc_allowed_clients node) (nc_enable_direct_paths node) (nc_address_lookup node)
    (nc_config_update_source node) (nc_allowed_config_peers node) (nc_presence_store node) (nc_allowed_presence_peers node) (Some authorizer).
Definition with_direct_paths node (enabled : bool) : NodeConfig A C P :=
  mkNodeConfig (nc_secret_key node) (nc_relay_url node) (nc_relay_urls node) (nc_accept_alpns node) (nc_network_id node)
    (nc_local_bindings node) (nc_allowed_clients node) enabled (nc_address_lookup node) (nc_config_update_source node)
    (nc_allowed_config_peers node) (nc_presence_store node) (nc_allowed_presence_peers node) (nc_authorizer node).
End endpoint.

Section handle.
Context `{Ed25519} `{Blake3} `{Aead} `{Hpke} `{Platform} {S K : Type} `{StateStore S} `{SecretStore K} `{Capable S} `{Protected K}.
#[local] Abbreviation node := (NodeConfig LiveConfigAuthorizer (LiveConfigState S) unit).
#[local] Abbreviation services := (@AcceptServices LiveConfigAuthorizer (LiveConfigState S) unit).

(** A listener is in the map until it is taken. *)
(* weaver-net/src/lib.rs:1715-1724 WeaverEndpoint *)
Record WeaverEndpoint : Type := mkEndpoint {
  we_id : EndpointId;
  we_incoming : gmap ServerAddr bool;
  we_incoming_datagrams : gmap ServerAddr bool;
  we_services : option services;
  we_relay_url : option bytes;
  we_network_id : NetworkId;
  we_local_bindings : LocalBindings;
}.
(** [bound] is whether iroh could bind the endpoint. *)
(* weaver-net/src/lib.rs:1776-1832 WeaverEndpoint::bind *)
Definition WeaverEndpoint_bind (config : node) (bound : bool) : result NetworkError WeaverEndpoint :=
  fail_if (negb bound) Bind;;
  let listeners := list_to_map ((fun server => (server, true)) <$> LocalBindings_servers (nc_local_bindings config)) in
  Ok (mkEndpoint (mkEndpointId (endpoint_public (nc_secret_key config))) listeners listeners (bind config).2 (nc_relay_url config)
        (nc_network_id config) (nc_local_bindings config)).
Definition take_listener (listeners : gmap ServerAddr bool) (address : ServerAddr) : gmap ServerAddr bool * result NetworkError unit :=
  match listeners !! address with
  | None => (listeners, Err (ServerNotBound address))
  | Some false => (listeners, Err (ListenerAlreadyTaken address))
  | Some true => (<[address := false]> listeners, Ok tt)
  end.
(* weaver-net/src/lib.rs:1877-1887 WeaverEndpoint::take_tcp_listener *)
Definition take_tcp_listener (e : WeaverEndpoint) (address : ServerAddr) : WeaverEndpoint * result NetworkError unit :=
  let '(incoming, r) := take_listener (we_incoming e) address in
  (mkEndpoint (we_id e) incoming (we_incoming_datagrams e) (we_services e) (we_relay_url e) (we_network_id e) (we_local_bindings e), r).
(* weaver-net/src/lib.rs:1889-1899 WeaverEndpoint::take_udp_listener *)
Definition take_udp_listener (e : WeaverEndpoint) (address : ServerAddr) : WeaverEndpoint * result NetworkError unit :=
  let '(incoming, r) := take_listener (we_incoming_datagrams e) address in
  (mkEndpoint (we_id e) (we_incoming e) incoming (we_services e) (we_relay_url e) (we_network_id e) (we_local_bindings e), r).
(** [online]: a relay has been reached within [timeout]. *)
(* weaver-net/src/lib.rs:1852-1860 WeaverEndpoint::wait_relay_online *)
Definition wait_relay_online (e : WeaverEndpoint) (timeout : Z) (online : bool) : result NetworkError unit :=
  match we_relay_url e with None => Ok tt | Some _ => fail_if (negb online) (OnlineTimeout timeout) end.
Definition endpoint_dialer (e : WeaverEndpoint) : WeaverDialer := mkDialer (we_id e) (we_network_id e) (we_local_bindings e).

(** ** The handle
    The directory in [nh_discovery] holds the lookup that the endpoint and the task on the
    local network share.  [nh_commands] is the channel to that task, of capacity one,
    [nh_pending] what another task waits to send there, and [nh_presence] the configuration
    the presence task works with, where there is one. *)
(* weaver-net/src/network_handle.rs:62-72 NetworkHandle *)
Record NetworkHandle : Type := mkHandle {
  nh_network_id : NetworkId;
  nh_endpoint : WeaverEndpoint;
  nh_state : LiveConfigState S;
  nh_discovery : Discovery;
  nh_commands : list LanDiscoveryCommand;
  nh_pending : option ProtectedLanDiscovery;
  nh_presence : option ValidatedNetworkConfig;
  nh_sync : option (SyncLoop (LiveConfigState S));
}.
Implicit Types (h : NetworkHandle) (now_ms : Z).
Definition nh_authorizer h : LiveConfigAuthorizer := ls_authorizer (nh_state h).
Definition nh_directory h : PresenceDirectory := ds_directory (nh_discovery h).
Definition with_discovery h (d : Discovery) : NetworkHandle :=
  mkHandle (nh_network_id h) (nh_endpoint h) (nh_state h) d (nh_commands h) (nh_pending h) (nh_presence h) (nh_sync h).
Definition with_endpoint h (e : WeaverEndpoint) : NetworkHandle :=
  mkHandle (nh_network_id h) e (nh_state h) (nh_discovery h) (nh_commands h) (nh_pending h) (nh_presence h) (nh_sync h).
Definition with_live_state h (st : LiveConfigState S) : NetworkHandle :=
  mkHandle (nh_network_id h) (nh_endpoint h) st (nh_discovery h) (nh_commands h) (nh_pending h) (nh_presence h) (nh_sync h).
Definition with_commands h (commands : list LanDiscoveryCommand) (pending : option ProtectedLanDiscovery) : NetworkHandle :=
  mkHandle (nh_network_id h) (nh_endpoint h) (nh_state h) (nh_discovery h) commands pending (nh_presence h) (nh_sync h).
(** The accept loop works with the configuration state and the authorizer of the handle,
    not with copies of them. *)
Definition nh_services h : option services :=
  (fun sv => mkServices ((fun _ => nh_state h) <$> av_config_update_source sv) (av_presence_store sv)
               (match av_authorizer sv with inl _ => inl (nh_authorizer h) | inr tables => inr tables end)
               (av_application_routes sv)) <$> we_services (nh_endpoint h).

(** ** Opening *)
(* weaver-net/src/network_handle.rs:406-416 open_secret_32 *)
Definition handle_secret_32 (k : K) (id : SecretId) : result NetworkHandleError bytes :=
  secret ← map_err NhSecret (open_secret k id);
  fail_if (negb (Nat.eqb (length secret) 32)) NhCorruptSecret;;
  Ok secret.
(* weaver-net/src/network_handle.rs:418-430 validate_store_capabilities *)
Definition validate_store_capabilities (options : NetworkHandleOpenOptions S K) : result NetworkHandleError unit :=
  let state := capabilities (oo_state_store options) in
  fail_if (negb (atomic_batches state)
           || negb (durable_commits state) && negb (oo_allow_insecure_test_stores options)
           || bool_decide (protection (oo_secret_store options) = InMemoryTestOnly) && negb (oo_allow_insecure_test_stores options))
    InsecureStoreCapabilities.
(** The readings of the clock on the way, whether iroh binds the endpoint, and what the
    mDNS library answers. *)
Record OpenWorld : Type := mkOpenWorld {
  ow_state_ms : Z; ow_member_ms : Z; ow_mdns_ms : Z; ow_presence_ms : Z; ow_bound : bool; ow_mdns : result bytes unit }.
(** The secrets of the membership. *)
(* weaver-net/src/network_handle.rs:99-119 NetworkHandle::open_with_transport_options *)
Definition open_secrets (options : NetworkHandleOpenOptions S K) (bindings : list LocalBinding)
    : result NetworkHandleError (LocalBindings * bytes * SigningKeypair * MemberEncryptionKeypair) :=
  validate_store_capabilities options;;
  bindings ← map_err NhBindings (LocalBindings_new bindings);
  let network_id := root_network_id (oo_root options) in
  endpoint_secret ← handle_secret_32 (oo_secret_store options) (member_secret_id network_id ENDPOINT_LABEL);
  signing_secret ← handle_secret_32 (oo_secret_store options) (member_secret_id network_id SIGNING_LABEL);
  encryption_secret ← handle_secret_32 (oo_secret_store options) (member_secret_id network_id ENCRYPTION_LABEL);
  encryption ← map_err NhConfig (Keypair_from_secret_bytes encryption_secret);
  Ok (bindings, endpoint_secret, SigningKeypair_from_bytes signing_secret, encryption).
(** The node of the configuration, with its lookup, authorizer and source of updates;
    [None] is the panic of an assertion. *)
(* weaver-net/src/network_handle.rs:127-145 NetworkHandle::open_with_transport_options *)
Definition open_node (network_id : NetworkId) (bindings : LocalBindings) (endpoint_secret : bytes) (persisted : PersistedConfigState S)
    (disable_direct_paths : bool) (now_ms : Z) : result NetworkHandleError (LiveConfigState S * option node) :=
  let config := cs_config persisted in
  authorizer ← map_err NhAuthorization (Live_new config (mkEndpointId (endpoint_public endpoint_secret)) now_ms);
  let live_state := LiveState_new persisted authorizer in
  node ← map_err NhAuthorization (NodeConfig_from_config endpoint_secret config bindings);
  Ok (live_state,
      (fun node => with_config_update_source (with_authorizer node authorizer) live_state ∅)
        <$> with_address_lookup (with_direct_paths node (negb disable_direct_paths)) (Lookup_new network_id)).
(** The endpoint and the publisher on the local network. *)
(* weaver-net/src/network_handle.rs:146-156 NetworkHandle::open_with_transport_options *)
Definition open_endpoint (node : node) (config : ValidatedNetworkConfig) (world : OpenWorld)
    : result NetworkHandleError (WeaverEndpoint * MdnsLanDiscovery) :=
  endpoint ← map_err NhNetwork (WeaverEndpoint_bind node (ow_bound world));
  protected ← map_err NhDiscovery (Protected_from_config config);
  mdns ← map_err NhDiscovery (Mdns_spawn protected (we_id endpoint) 0 [] (ow_mdns_ms world) (ow_mdns world));
  Ok (endpoint, mdns).
(** The state store, which opening the configuration may write to, and the handle.  What
    iroh publishes before [open] returns is taken up by the first step after it. *)
(* weaver-net/src/network_handle.rs:94-207 NetworkHandle::open_with_transport_options *)
Definition open_with_transport_options (options : NetworkHandleOpenOptions S K) (bindings : list LocalBinding)
    (disable_direct_paths : bool) (world : OpenWorld) : S * option (result NetworkHandleError NetworkHandle) :=
  let network_id := root_network_id (oo_root options) in
  match open_secrets options bindings with
  | Err e => (oo_state_store options, Some (Err e))
  | Ok (bindings, endpoint_secret, signing, encryption) =>
      match ConfigState_open (oo_state_store options) (oo_root options) encryption (ow_state_ms world) with
      | (s, Err e) => (s, Some (Err (NhConfigState e)))
      | (s, Ok persisted) =>
          (s, match open_node network_id bindings endpoint_secret persisted disable_direct_paths (ow_member_ms world) with
              | Err e => Some (Err e)
              | Ok (_, None) => None
              | Ok (live_state, Some node) =>
                  let config := cs_config persisted in
                  match open_endpoint node config world with
                  | Err e => Some (Err e)
                  | Ok (endpoint, mdns) =>
                      let dialer := endpoint_dialer endpoint in
                      directory ← Directory_new network_id (Lookup_new network_id);
                      presence ← match first_presence_service config with
                                 | Err _ => Some None
                                 | Ok target =>
                                     _ ← spawn_presence_sync dialer target (la_config (ls_authorizer live_state)) directory
                                           (Lookup_new network_id) (oo_presence_sync options) (ow_presence_ms world);
                                     Some (Some config)
                                 end;
                      let targets := config_peer_descriptors config (we_id endpoint) in
                      sync ← (if bool_decide (targets = []) then Some None
                              else Some <$> spawn_config_anti_entropy dialer targets live_state (oo_config_sync options));
                      Some (Ok (mkHandle network_id endpoint live_state (mkDiscovery mdns true directory) [] None presence sync))
                  end
              end)
      end
  end.

(** ** Connecting *)
(* weaver-net/src/lib.rs:1448-1454 LiveConfigAuthorizer::preferred_data_relay *)
Definition preferred_data_relay (a : LiveConfigAuthorizer) : result ConfigAuthorizationError (option bytes) :=
  urls ← configured_data_relay_urls (la_config a); Ok (head urls).
(* weaver-net/src/network_handle.rs:371-382 NetworkHandle::validate_server_target *)
Definition validate_server_target h (target : VirtualAddr) : result NetworkHandleError AppAddr :=
  fail_if (negb (bool_decide (Core.va_network target = nh_network_id h))) (NhNetworkMismatch (nh_network_id h) (Core.va_network target));;
  match Core.va_addr target with Server app => Ok app | Client _ _ => Err TargetMustBeServer end.
(** [now_ms'] is the second reading of the clock. *)
(* weaver-net/src/network_handle.rs:384-396 NetworkHandle::resolve_configured_server *)
Definition resolve_configured_server h (app : AppAddr) now_ms (now_ms' : Z) : result NetworkHandleError EndpointId :=
  match Directory_resolve (nh_directory h) (Server app) now_ms with
  | Some endpoint => Ok endpoint
  | None => map_err NhDiscovery (Directory_configured_endpoint (nh_directory h) (la_config (nh_authorizer h)) (Server app) now_ms')
  end.
Definition server_descriptor h (target : VirtualAddr) now_ms (now_ms' : Z) : result NetworkHandleError PeerDescriptor :=
  app ← validate_server_target h target;
  endpoint_id ← resolve_configured_server h app now_ms now_ms';
  relay_url ← map_err NhAuthorization (preferred_data_relay (nh_authorizer h));
  Ok (mkPeerDescriptor (nh_network_id h) app endpoint_id relay_url []).
(* weaver-net/src/network_handle.rs:240-262 NetworkHandle::connect_tcp *)
Definition connect_tcp h (transport : Transport) (source : ClientAddr) (target : VirtualAddr) now_ms (now_ms' : Z)
    : result NetworkHandleError VirtualStream :=
  descriptor ← server_descriptor h target now_ms now_ms';
  map_err NhNetwork (connect (endpoint_dialer (nh_endpoint h)) transport source descriptor).
(* weaver-net/src/network_handle.rs:265-271 NetworkHandle::resolve_name *)
Definition resolve_name h (name : VirtualName) now_ms : result NetworkHandleError ServerAddr :=
  app ← resolve_virtual_name (la_config (nh_authorizer h)) name now_ms ?? UnknownVirtualName name; Ok (ServerAddr_new app).
(* weaver-net/src/network_handle.rs:273-281 NetworkHandle::connect_tcp_name *)
Definition connect_tcp_name h (transport : Transport) (source : ClientAddr) (name : VirtualName) (now0 : Z) now_ms (now_ms' : Z)
    : result NetworkHandleError VirtualStream :=
  address ← resolve_name h name now0;
  connect_tcp h transport source (VirtualAddr_server (nh_network_id h) address) now_ms now_ms'.
(* weaver-net/src/network_handle.rs:283-304 NetworkHandle::connect_udp *)
Definition handle_connect_udp h (transport : Transport) (source : ClientAddr) (target : VirtualAddr) now_ms (now_ms' : Z)
    : result NetworkHandleError VirtualStream :=
  descriptor ← server_descriptor h target now_ms now_ms';
  map_err NhNetwork (connect_udp (endpoint_dialer (nh_endpoint h)) transport source descriptor).
(* weaver-net/src/network_handle.rs:306-314 NetworkHandle::connect_udp_name *)
Definition connect_udp_name h (transport : Transport) (source : ClientAddr) (name : VirtualName) (now0 : Z) now_ms (now_ms' : Z)
    : result NetworkHandleError VirtualStream :=
  address ← resolve_name h name now0;
  handle_connect_udp h transport source (VirtualAddr_server (nh_network_id h) address) now_ms now_ms'.

(** ** What happens to an open handle *)
(** The channel to the task on the local network holds one command; [try_send] drops one
    that does not fit, and [send] waits until it does. *)
(* weaver-net/src/network_handle.rs:316-327 NetworkHandle::network_change *)
Definition network_change h : NetworkHandle :=
  if bool_decide (nh_commands h = []) then with_commands h [NetworkChange] (nh_pending h) else h.
(** A turn of the task that hands a new configuration to the task on the local network: it
    takes up the configuration, or sends what it has taken up as soon as there is room.  It
    may be woken more often here than by the watch channel. *)
(* weaver-net/src/network_handle.rs:161-170 NetworkHandle::open_with_transport_options *)
Definition config_change_turn h : NetworkHandle :=
  match nh_pending h with
  | None => with_commands h (nh_commands h)
              (match Protected_from_config (ls_config_changes (nh_state h)) with Ok protected => Some protected | Err _ => None end)
  | Some protected => if bool_decide (nh_commands h = []) then with_commands h [UpdateProtection protected] None else h
  end.
(* weaver-net/src/network_handle.rs:342-352 NetworkHandle::apply_config_updates *)
Definition apply_config_updates h (updates : ConfigUpdateBatch) now_ms : NetworkHandle * result NetworkHandleError ConfigHead :=
  let '(st, r) := LiveState_apply_updates (nh_state h) updates now_ms in (with_live_state h st, map_err NhConfigSync r).
(** A turn of the task on the local network, other than on a command.  It publishes what
    the lookup holds. *)
Definition lan_turn h (ev : LanEvent) : NetworkHandle :=
  match ev with
  | Command _ _ _ _ | Stop => h
  | Published _ now_ms answer =>
      match lk_publications (dir_lookup (nh_directory h)) with
      | Some data => with_discovery h (discovery_step (nh_discovery h) (OnLan (Published data now_ms answer)))
      | None => h
      end
  | PeerSeen _ _ _ | ObservationReady | RotationTick _ _ => with_discovery h (discovery_step (nh_discovery h) (OnLan ev))
  end.

(** [UpdatesApplied] stands for the anti-entropy loop, which applies what a peer has sent,
    and for [apply_config_updates].  The presence task reads the configuration when it is
    woken and applies the records it then receives under that one. *)
Inductive HandleEvent : Type :=
| LanTurn (ev : LanEvent)
| LanCommand (interfaces : list Interface) (now_ms : Z) (answer : result bytes unit)
| IrohPublishes (data : list TransportAddr)
| IrohResolves (endpoint : EndpointId)
| UpdatesApplied (updates : ConfigUpdateBatch) (now_ms : Z)
| ConfigTaskTurn
| NetworkChanged
| PresenceWoken
| PresenceApplied (encrypted : EncryptedPresenceRecord) (now_ms : Z)
| PresencePurged (now_ms : Z)
| ListenerTaken (datagram : bool) (address : ServerAddr).
Definition handle_step h (ev : HandleEvent) : NetworkHandle :=
  match ev with
  | LanTurn ev => lan_turn h ev
  | LanCommand interfaces now_ms answer =>
      match nh_commands h with
      | [] => h
      | command :: rest =>
          with_commands (with_discovery h (discovery_step (nh_discovery h) (OnLan (Command command interfaces now_ms answer)))) rest (nh_pending h)
      end
  | IrohPublishes data => with_discovery h (discovery_step (nh_discovery h) (OnPublish data))
  | IrohResolves endpoint => with_discovery h (discovery_step (nh_discovery h) (OnResolve endpoint))
  | UpdatesApplied updates now_ms => (apply_config_updates h updates now_ms).1
  | ConfigTaskTurn => config_change_turn h
  | NetworkChanged => network_change h
  | PresenceWoken =>
      mkHandle (nh_network_id h) (nh_endpoint h) (nh_state h) (nh_discovery h) (nh_commands h) (nh_pending h)
        ((fun _ => la_config (nh_authorizer h)) <$> nh_presence h) (nh_sync h)
  | PresenceApplied encrypted now_ms =>
      match nh_presence h with
      | Some config => with_discovery h (discovery_step (nh_discovery h) (OnPresence config encrypted now_ms))
      | None => h
      end
  | PresencePurged now_ms =>
      match nh_presence h with
      | Some _ => with_discovery h (discovery_step (nh_discovery h) (OnPurge now_ms))
      | None => h
      end
  | ListenerTaken datagram address =>
      with_endpoint h (if datagram then (take_udp_listener (nh_endpoint h) address).1 else (take_tcp_listener (nh_endpoint h) address).1)
  end.
Definition handle_run : NetworkHandle -> list HandleEvent -> NetworkHandle := foldl handle_step.
End handle.
Arguments NetworkHandle {_ _ _ _ _} S {_}.
Arguments WeaverEndpoint : clear implicits.
