(* ===== verification/NetworkHandleFacts.v ===== *)
(** * Properties of a member's handle

    Whatever its background tasks, its peers and its user do, in any order: an open handle
    authorizes and announces by the configuration it holds, and it connects to an endpoint
    only if a configuration it has held entitles that endpoint to the address. *)

From S2P Require Import Prelude Wire Core SocketAddr Platform Store CertificateWire Certificates Symmetric ToyCrypto CertificateChain.
From S2P Require Import Snapshot Validate Presence PresenceFacts Lan Directory LanFacts DirectoryFacts Envelope EnvelopeChain.
From S2P Require Import ConfigState ConfigStateFacts NetProtocol NetProtocolFacts NetAuthorizer NetAuthorizerFacts NetSync NetSyncFacts.
From S2P Require Import Membership NetworkHandle.

Section facts.
Context `{Ed25519} `{Blake3} `{Aead} `{Hpke} `{Platform} {S K : Type} `{StateStore S} `{SecretStore K} `{Capable S} `{Protected K}.
#[local] Abbreviation handle := (@NetworkHandle _ _ _ _ _ S _).
Implicit Types (h : handle) (root : NetworkRootPublic) (evs : list HandleEvent) (c : ValidatedNetworkConfig).

(** ** Validity along the chain *)
Definition valid_under root c : Prop :=
  cfg_network_id (vc_inner c) = root_network_id root /\ exists t, config_valid (vc_inner c) root (root_network_id root) t.
Lemma follows_valid root enc now c head raws c' head' :
  follows root enc now c head raws c' head' -> valid_under root c -> valid_under root c'.
Proof.
  induction 1 as [c head|c head raw e o raws c' head' He Ho Hf IH]; [done|]; intros _; apply IH.
  apply open_next_config_Ok in Ho as (va & opened & Hau & Hop & Hd); destruct Hau as [Hr _ _ _ _ _ _].
  apply decode_and_validate_Ok in Hd as (cfg & _ & Hnet & _ & _ & _ & Hv & ->); cbn [onc_config vc_inner].
  unfold valid_under; cbn [vc_inner]; rewrite Hr; eauto.
Qed.
Lemma open_valid_under (s s' : S) root enc now st :
  ConfigState_open s root enc now = (s', Ok st) -> cs_root st = root /\ valid_under root (cs_config st).
Proof.
  unfold ConfigState_open; destruct (load_checkpoint s root enc now) as [[[[opened er] hr] sr]|] eqn:Hl; [|done].
  destruct (seed_history _ _ _ _) as [s1 [u|]]; [|done]; intros [= _ <-]; split; [done|]; cbn [cs_config].
  unfold load_checkpoint in Hl; cbv zeta in Hl; do 6 (apply bind_Ok in Hl as (? & _ & Hl)); apply bind_Ok in Hl as (e & _ & Hl);
    do 3 (apply bind_Ok in Hl as (? & _ & Hl)); apply bind_Ok in Hl as (o & Ho%map_err_Ok & Hl).
  injection Hl as <- _ _ _; unfold open_config_with_verified_admin in Ho; apply bind_Ok in Ho as (u1 & Hn%fail_if_Ok & Ho); bool_inv.
  do 3 (apply bind_Ok in Ho as (? & _ & Ho)); apply bind_Ok in Ho as (oc & _ & Hd).
  apply decode_and_validate_Ok in Hd as (cfg & _ & Hnet & _ & _ & _ & Hv & ->); unfold valid_under; cbn [onc_config vc_inner].
  replace (root_network_id root) with (env_network_id e) by congruence; eauto.
Qed.

(** ** The invariant of an open handle *)
(** A configuration the member has held in the course of a run. *)
Definition held h0 evs c : Prop := exists n, c = la_config (nh_authorizer (handle_run h0 (take n evs))).
Lemma held_now h0 evs : held h0 evs (la_config (nh_authorizer (handle_run h0 evs))).
Proof. exists (length evs); by rewrite firstn_all. Qed.
Lemma held_later h0 evs ev c : held h0 evs c -> held h0 (evs ++ [ev]) c.
Proof.
  intros [n ->]; exists (Nat.min n (length evs)); f_equal; f_equal; f_equal.
  destruct (Nat.le_gt_cases n (length evs)); [rewrite Nat.min_l by done; by rewrite take_app_le |].
  rewrite Nat.min_r, take_app_length by lia; apply take_ge; lia.
Qed.
(** The configuration the presence task works under after [evs]: the one the handle held
    when the task was last woken, or when the handle was opened. *)
Definition taken_up h0 evs c : Prop :=
  exists n, c = la_config (nh_authorizer (handle_run h0 (take n evs))) /\ (n = 0%nat \/ evs !! n = Some PresenceWoken) /\
    forall k, (n < k)%nat -> evs !! k <> Some PresenceWoken.
Lemma taken_up_later h0 evs ev c : ev <> PresenceWoken -> taken_up h0 evs c -> taken_up h0 (evs ++ [ev]) c.
Proof.
  intros Hev (n & -> & Hn & Hk).
  assert (n <= length evs)%nat as Hle by (destruct Hn as [->|Hn]; [lia | apply lookup_lt_Some in Hn; lia]).
  exists n; split_and!; [by rewrite take_app_le | destruct Hn as [->|Hn]; [by left | right; by apply lookup_app_l_Some]|].
  intros k Hlt; destruct (decide (k < length evs)%nat); [rewrite lookup_app_l by done; by apply Hk|].
  rewrite lookup_app_r by lia; destruct (k - length evs)%nat as [|j]; cbn [lookup list_lookup]; [by intros [= ->] | done].
Qed.
Lemma taken_up_now h0 evs : taken_up h0 (evs ++ [PresenceWoken]) (la_config (nh_authorizer (handle_run h0 evs))).
Proof.
  exists (length evs); split_and!; [by rewrite take_app_length | right; by apply list_lookup_middle|].
  intros k Hk; rewrite lookup_app_r by lia; destruct (k - length evs)%nat as [|j] eqn:Hj; [lia | done].
Qed.
Lemma taken_up_held h0 evs i c : taken_up h0 (take i evs) c -> held h0 evs c.
Proof. intros (n & -> & _); exists (Nat.min n i); by rewrite take_take. Qed.
(** A record was handed to the directory under [c]. *)
Definition applied_under h0 evs c (encrypted : EncryptedPresenceRecord) (t : Z) : Prop :=
  exists i, evs !! i = Some (PresenceApplied encrypted t) /\ taken_up h0 (take i evs) c.
Lemma applied_later h0 evs ev c encrypted t : applied_under h0 evs c encrypted t -> applied_under h0 (evs ++ [ev]) c encrypted t.
Proof.
  intros (i & Hi & Ht); exists i; pose proof (lookup_lt_Some _ _ _ Hi).
  by rewrite lookup_app_l, take_app_le by lia.
Qed.
Record handle_inv root (local : EndpointId) (bound : LocalBindings) h0 evs (seen : list DiscoveryEvent) h : Prop := {
  hi_network : nh_network_id h = root_network_id root;
  hi_endpoint : endpoint_dialer (nh_endpoint h) = mkDialer local (root_network_id root) bound;
  hi_services : we_services (nh_endpoint h) = we_services (nh_endpoint h0);
  hi_state : in_step local (nh_state h);
  hi_root : cs_root (ls_persisted (nh_state h)) = root;
  hi_valid : valid_under root (cs_config (ls_persisted (nh_state h)));
  hi_head : head_le (cs_head (ls_persisted (nh_state h0))) (cs_head (ls_persisted (nh_state h)));
  hi_presence c : nh_presence h = Some c -> taken_up h0 evs c /\ valid_under root c;
  hi_discovery : exists start, system_inv start (root_network_id root) local seen (nh_discovery h) /\ tracks start seen (nh_discovery h);
  hi_seen c encrypted t : OnPresence c encrypted t ∈ seen -> applied_under h0 evs c encrypted t /\ valid_under root c;
}.

Lemma inv_later root local bound h0 evs seen h ev : ev <> PresenceWoken ->
  handle_inv root local bound h0 evs seen h -> handle_inv root local bound h0 (evs ++ [ev]) seen h.
Proof.
  intros Hev []; constructor; try done.
  - intros c Hc; split; [by apply taken_up_later, hi_presence0 | by apply hi_presence0].
  - intros c p t Hc; split; [by eapply applied_later, hi_seen0 | by eapply hi_seen0].
Qed.
(** A step of discovery. *)
Lemma inv_discovery root local bound h0 evs seen h dev :
  handle_inv root local bound h0 evs seen h ->
  (forall c encrypted t, dev = OnPresence c encrypted t -> applied_under h0 evs c encrypted t /\ valid_under root c) ->
  handle_inv root local bound h0 evs (seen ++ [dev]) (with_discovery h (discovery_step (nh_discovery h) dev)).
Proof.
  intros [] Hdev; constructor; try done.
  { destruct hi_discovery0 as (start & Hsys & Htr); exists start; split; [by apply discovery_step_inv | by apply discovery_step_tracks]. }
  intros c p t Hin; apply elem_of_app in Hin as [Hin|Hin%list_elem_of_singleton]; eauto.
Qed.
Lemma inv_commands root local bound h0 evs seen h commands pending :
  handle_inv root local bound h0 evs seen h -> handle_inv root local bound h0 evs seen (with_commands h commands pending).
Proof. by intros []. Qed.
Lemma inv_config root local bound h0 evs seen h : handle_inv root local bound h0 evs seen h ->
  la_config (nh_authorizer h) = cs_config (ls_persisted (nh_state h)).
Proof. intros [_ _ _ [Ha _ _] _ _ _ _ _ _]; unfold nh_authorizer; by rewrite Ha. Qed.
Lemma inv_updates root local bound h0 evs seen h updates now :
  handle_inv root local bound h0 evs seen h -> handle_inv root local bound h0 evs seen (apply_config_updates h updates now).1.
Proof.
  intros [Hn He Hsv Hst Hr Hv Hle Hp Hd Hs]; unfold apply_config_updates.
  destruct (LiveState_apply_updates (nh_state h) updates now) as [st r] eqn:Ha; cbn [fst].
  destruct (live_apply_in_step _ _ _ _ _ _ Hst Ha) as (Hst' & _ & p & Hap & _); destruct (live_sync_laws _ _ _ _ _ Ha) as [Hle' _].
  destruct (apply_view _ _ _ _ _ Hap) as (Hr' & _ & Hview); constructor; try done; cbn.
  - congruence.
  - destruct Hview as [(-> & _)|(_ & raws & _ & _ & Hf)]; [done|]; rewrite Hr in Hf; by eapply follows_valid.
  - by etransitivity.
Qed.
Lemma inv_lan root local bound h0 evs seen h ev :
  handle_inv root local bound h0 evs seen h -> exists seen', handle_inv root local bound h0 evs seen' (lan_turn h ev).
Proof.
  intros Hi; destruct ev as [id peer t| |data t answer|command ifs t answer|t answer|]; cbn [lan_turn];
    [eexists; by apply inv_discovery.. | | by exists seen | eexists; by apply inv_discovery | by exists seen].
  destruct (lk_publications _); [eexists; by apply inv_discovery | by exists seen].
Qed.
Lemma inv_listener root local bound h0 evs seen h (datagram : bool) address :
  handle_inv root local bound h0 evs seen h -> handle_inv root local bound h0 evs seen (handle_step h (ListenerTaken datagram address)).
Proof.
  intros []; constructor; try done; cbn; destruct datagram; unfold take_udp_listener, take_tcp_listener;
    destruct (take_listener _ _); done.
Qed.
Lemma handle_step_inv root local bound h0 evs seen h ev :
  h = handle_run h0 evs -> handle_inv root local bound h0 evs seen h ->
  exists seen', handle_inv root local bound h0 (evs ++ [ev]) seen' (handle_step h ev).
Proof.
  intros Hh Hi; assert (ev = PresenceWoken \/ ev <> PresenceWoken) as [->|Hev] by (destruct ev; auto; by right).
  { exists seen; pose proof (inv_config _ _ _ _ _ _ _ Hi) as Hc; destruct Hi; constructor; try done; cbn [handle_step nh_presence].
    - intros c; destruct (nh_presence h) as [c0|]; [|done]; cbn; intros [= <-]; split; [subst h; apply taken_up_now | by rewrite Hc].
    - intros c p t Hin; split; [by eapply applied_later, hi_seen0 | by eapply hi_seen0]. }
  pose proof (inv_later _ _ _ _ _ _ _ ev Hev Hi) as Hl.
  destruct ev as [ev|ifs t answer|data|e|updates t| | | |p t|t|datagram address]; cbn [handle_step].
  - by apply (inv_lan _ _ _ _ _ seen).
  - destruct (nh_commands h) as [|command rest]; [by exists seen|]; eexists; by apply inv_commands, inv_discovery.
  - eexists; by apply inv_discovery.
  - eexists; by apply inv_discovery.
  - exists seen; by apply inv_updates.
  - exists seen; unfold config_change_turn; destruct (nh_pending h); [case_bool_decide; [by apply inv_commands | done] | by apply inv_commands].
  - exists seen; unfold network_change; case_bool_decide; [by apply inv_commands | done].
  - done.
  - destruct (nh_presence h) as [c|] eqn:Hc; [|by exists seen]; eexists; apply inv_discovery; [done|].
    intros ? ? ? [= <- <- <-]; destruct (hi_presence _ _ _ _ _ _ _ Hi c Hc) as [Ht Hv]; split; [|done].
    exists (length evs); split; [by apply list_lookup_middle | by rewrite take_app_length].
  - destruct (nh_presence h); [eexists; by apply inv_discovery | by exists seen].
  - exists seen; by apply inv_listener.
Qed.
Lemma handle_run_inv root local bound h0 seen0 evs :
  handle_inv root local bound h0 [] seen0 h0 -> exists seen, handle_inv root local bound h0 evs seen (handle_run h0 evs).
Proof.
  intros H0'; induction evs as [|ev evs IH] using rev_ind; [by exists seen0|]; destruct IH as [seen Hi].
  unfold handle_run; rewrite foldl_app; cbn [foldl]; fold (handle_run h0 evs).
  exact (handle_step_inv _ _ _ _ _ _ _ ev eq_refl Hi).
Qed.

(** ** Opening establishes it *)
Lemma open_secrets_bindings (options : NetworkHandleOpenOptions S K) bs bound secret signing enc :
  open_secrets options bs = Ok (bound, secret, signing, enc) -> LocalBindings_new bs = Ok bound.
Proof.
  unfold open_secrets; intros Ho; apply bind_Ok in Ho as (u & _ & Ho); apply bind_Ok in Ho as (b & Hb%map_err_Ok & Ho).
  cbv zeta in Ho; do 4 (apply bind_Ok in Ho as (? & _ & Ho)); congruence.
Qed.
Lemma open_node_Ok net bound secret (st : PersistedConfigState S) direct now live node :
  open_node net bound secret st direct now = Ok (live, Some node) ->
  let local := mkEndpointId (endpoint_public secret) in
  live = LiveState_new st (mkLiveAuthorizer (cfg_network_id (vc_inner (cs_config st))) local (cs_config st)) /\
  nc_secret_key node = secret /\ nc_network_id node = cfg_network_id (vc_inner (cs_config st)) /\ nc_local_bindings node = bound /\
  nc_authorizer node = Some (ls_authorizer live) /\ nc_config_update_source node = Some live.
Proof.
  unfold open_node; cbv zeta; intros Ho; apply bind_Ok in Ho as (a & Ha%map_err_Ok & Ho); apply bind_Ok in Ho as (n & Hn%map_err_Ok & Ho).
  apply Ok_inj, pair_equal_spec in Ho as [<- Ho]; unfold Live_new in Ha; apply bind_Ok in Ha as (m & _ & <-%Ok_inj).
  unfold NodeConfig_from_config in Hn; apply bind_Ok in Hn as (derived & _ & <-%Ok_inj).
  unfold with_address_lookup in Ho; destruct (bool_decide _); [|done]; by injection Ho as <-.
Qed.
Lemma open_endpoint_Ok (node : NodeConfig LiveConfigAuthorizer (LiveConfigState S) unit) config world endpoint mdns :
  open_endpoint node config world = Ok (endpoint, mdns) ->
  endpoint_dialer endpoint = mkDialer (mkEndpointId (endpoint_public (nc_secret_key node))) (nc_network_id node) (nc_local_bindings node) /\
  we_services endpoint = (bind node).2 /\
  exists p port addresses now answer, pl_network_id p = cfg_network_id (vc_inner config) /\
    Mdns_spawn p (mkEndpointId (endpoint_public (nc_secret_key node))) port addresses now answer = Ok mdns.
Proof.
  unfold open_endpoint, WeaverEndpoint_bind; intros Ho; apply bind_Ok in Ho as (e & He%map_err_Ok & Ho).
  apply bind_Ok in He as (u & _ & <-%Ok_inj); apply bind_Ok in Ho as (p & Hp%map_err_Ok & Ho).
  apply bind_Ok in Ho as (md & Hm%map_err_Ok & [= <- <-]); split; [done|]; split; [done|].
  unfold Protected_from_config in Hp; apply bind_Ok in Hp as (known & _ & <-%Ok_inj); cbn [we_id] in Hm; do 5 eexists; split; [|exact Hm]; done.
Qed.
Lemma open_inv (options : NetworkHandleOpenOptions S K) (bs : list LocalBinding) (direct : bool) (world : OpenWorld) (s : S) h :
  open_with_transport_options options bs direct world = (s, Some (Ok h)) ->
  exists local bound, LocalBindings_new bs = Ok bound /\ handle_inv (oo_root options) local bound h [] [] h /\
    (forall sv, we_services (nh_endpoint h) = Some sv -> av_authorizer sv = inl (nh_authorizer h)).
Proof.
  unfold open_with_transport_options; cbv zeta; set (root := oo_root options).
  destruct (open_secrets options bs) as [[[[bound secret] signing] enc]|] eqn:Hsec; [|done].
  destruct (ConfigState_open _ _ _ _) as [s1 [st|]] eqn:Hop; [|done]; intros Ho; apply pair_equal_spec in Ho as [_ Ho].
  destruct (open_valid_under _ _ _ _ _ _ Hop) as [Hr Hv].
  destruct (open_node _ _ _ _ _ _) as [[live [node|]]|] eqn:Hn; [|done..].
  destruct (open_endpoint _ _ _) as [[endpoint mdns]|] eqn:He; [|done].
  destruct (open_node_Ok _ _ _ _ _ _ _ _ Hn) as (Hlive & Hsk & Hnet & Hb & Ha & _); destruct (open_endpoint_Ok _ _ _ _ _ He) as (Hd & Hsv & Hm).
  apply bind_Some in Ho as (directory & Hdir & Ho); apply bind_Some in Ho as (presence & Hp & Ho); apply bind_Some in Ho as (sync & _ & [= <-]).
  rewrite Hsk, Hnet, Hb in Hd; rewrite (proj1 Hv) in Hd, Hm; rewrite Hsk in Hm.
  exists (mkEndpointId (endpoint_public secret)), bound; split; [by eapply open_secrets_bindings|]; split.
  - subst live; rewrite (proj1 Hv); constructor; cbn; try done.
    + constructor; cbn; [by rewrite Hr | done | by rewrite Hr, (proj1 Hv)].
    + intros c ->; assert (c = cs_config st) as -> by (destruct (first_presence_service _); [apply bind_Some in Hp as (l & _ & [= <-])|]; done).
      split; [exists 0%nat; split_and!; [done | by left | intros k _; by rewrite lookup_nil] | done].
    + eexists; apply discovery_start_inv; split; done.
    + intros c encrypted t Hin; by apply not_elem_of_nil in Hin.
  - cbn; rewrite Hsv; unfold bind; cbn [snd]; destruct (_ || _ || _); [|done]; intros sv [= <-]; cbn; by rewrite Ha.
Qed.

(** ** Whom the handle connects to *)
(** [e] is entitled to the server address of [app] by [c] at the time [t]. *)
Definition serves_address root c (e : EndpointId) (app : AppAddr) (t : Z) : Prop :=
  valid_under root c /\ exists cr member, snapshot_parses (vc_inner c) cr /\
    endpoint_bound cr member e t /\ address_bound cr member (Server app) t.
Lemma descriptor_entitled root local bound h0 evs seen h target now now' d :
  handle_inv root local bound h0 evs seen h -> h = handle_run h0 evs -> server_descriptor h target now now' = Ok d ->
  target = mkVirtualAddr (root_network_id root) (Server (pd_app_addr d)) /\
  exists c t, serves_address root c (pd_endpoint_id d) (pd_app_addr d) t /\
    (c = la_config (nh_authorizer h) /\ t = now' \/ (exists encrypted, applied_under h0 evs c encrypted t) /\ now < t + MAX_PRESENCE_TTL_MS).
Proof.
  intros Hi Hh Hd; unfold server_descriptor in Hd; apply bind_Ok in Hd as (app & Happ & Hd); apply bind_Ok in Hd as (e & He & Hd).
  apply bind_Ok in Hd as (relay & _ & <-%Ok_inj); cbn [pd_app_addr pd_endpoint_id].
  unfold validate_server_target in Happ; apply bind_Ok in Happ as (u & Hn%fail_if_Ok & Happ); bool_inv; rewrite (hi_network _ _ _ _ _ _ _ Hi) in Hn.
  destruct target as [net addr]; cbn in *; destruct addr as [app'|]; [|done]; injection Happ as ->; split; [by rewrite Hn|].
  unfold resolve_configured_server in He; destruct (Directory_resolve _ _ _) as [e'|] eqn:Hres.
  - injection He as ->; destruct (hi_discovery _ _ _ _ _ _ _ Hi) as (start & Hsys & _); apply (resolve_system _ _ _ _ _ _ _ _ Hsys) in Hres
      as (r & _ & Hin & Hx & <- & config & encrypted & t & Hseen & _ & Hopen).
    destruct (hi_seen _ _ _ _ _ _ _ Hi _ _ _ Hseen) as [Happl [Hcn [tv Hcv]]]; destruct (va_credentials _ _ _ _ Hcv) as (cr & Hp & _).
    destruct (Presence_open_Ok _ _ _ _ _ Hp Hopen) as (m & signed & signature & []); rewrite Forall_forall in pa_addresses.
    exists config, t; split; [split; [split; eauto|]; exists cr, (pr_member_id r); auto | right; split; [eauto | lia]].
  - apply map_err_Ok in He; unfold Directory_configured_endpoint in He; apply bind_Ok in He as (u' & _ & He).
    pose proof (inv_config _ _ _ _ _ _ _ Hi) as Hc; pose proof (hi_valid _ _ _ _ _ _ _ Hi) as Hv; rewrite <- Hc in Hv.
    destruct Hv as [Hcn [tv Hcv]] eqn:Hve; destruct (va_credentials _ _ _ _ Hcv) as (cr & Hp & _).
    apply (configured_endpoint_Ok _ cr) in He as (m & []); [|done].
    exists (la_config (nh_authorizer h)), now'; split; [|by left]; split; [by split; eauto|]; by exists cr, m.
Qed.
Lemma connected_as_described (dialer : WeaverDialer) transport source d stream :
  connect dialer transport source d = Ok stream \/ connect_udp dialer transport source d = Ok stream ->
  ClientAddr_scoped source ∈ dl_local_bindings dialer /\ vs_local_addr stream = ClientAddr_scoped source /\
  vs_peer_addr stream = Server (pd_app_addr d) /\ vs_peer_endpoint_id stream = pd_endpoint_id d.
Proof.
  intros [Hc|Hc].
  - unfold connect in Hc; apply bind_Ok in Hc as (u1 & Hb%fail_if_Ok & Hc); apply bind_Ok in Hc as (u2 & _ & Hc).
    apply bind_Ok in Hc as (request & _ & Hc); apply bind_Ok in Hc as (conn & _ & Hc); apply bind_Ok in Hc as (u3 & Hid%fail_if_Ok & Hc).
    apply bind_Ok in Hc as (u4 & _ & Hc); apply bind_Ok in Hc as (reply & _ & Hc); bool_inv.
    destruct (_ =? 0); [|by destruct (_ <=? _)]; by injection Hc as <-.
  - unfold connect_udp in Hc; apply bind_Ok in Hc as (u1 & Hb%fail_if_Ok & Hc); apply bind_Ok in Hc as (u2 & _ & Hc).
    apply bind_Ok in Hc as (request & _ & Hc); apply bind_Ok in Hc as (conn & _ & Hc); apply bind_Ok in Hc as (u3 & Hid%fail_if_Ok & Hc).
    apply bind_Ok in Hc as (reply & _ & Hc); apply bind_Ok in Hc as (u5 & _ & <-%Ok_inj); bool_inv; done.
Qed.
Lemma bindings_listed (bs : list LocalBinding) (b : LocalBindings) a :
  LocalBindings_new bs = Ok b -> a ∈ b -> a ∈ LocalBinding_scoped <$> bs.
Proof.
  unfold LocalBindings_new; intros Hb Ha; apply bind_Ok in Hb as (all & Hall & Hb); apply bind_Ok in Hb as (u & _ & ->%Ok_inj).
  enough (forall acc : LocalBindings, try_fold (fun (addresses : LocalBindings) x =>
    fail_if (bool_decide (LocalBinding_scoped x ∈ addresses)) LbDuplicate;; Ok ({[LocalBinding_scoped x]} ∪ addresses)) acc bs = Ok b ->
    a ∈ acc \/ a ∈ LocalBinding_scoped <$> bs) as Hf by (destruct (Hf _ Hall); set_solver).
  clear Hall; induction bs as [|x bs IH]; cbn; intros acc Hf; [injection Hf as ->; by left|].
  apply bind_Ok in Hf as (acc' & Hx & Hf); apply bind_Ok in Hx as (u' & _ & <-%Ok_inj); apply IH in Hf as [Hf|Hf]; set_solver.
Qed.

(** ** Theorems *)

(** C13: a handle connects only to an endpoint entitled to the address.  Open a handle and
    let its tasks, its peers and its user act in any order.  A stream or a datagram socket
    it then opens goes from an address bound when it was opened to a server address of its
    own network, and the peer is an endpoint of a member that holds this address: by the
    configuration of this moment, or, where the peer was found by a presence record that
    the handle accepted less than five minutes ago, at the time of that acceptance and by
    the configuration the handle had held when its presence task was last woken before
    it. *)
Theorem handle_connects_to_entitled (options : NetworkHandleOpenOptions S K) (bs : list LocalBinding) (direct : bool) (world : OpenWorld)
    (s : S) (h0 : handle) (evs : list HandleEvent) (transport : Transport) (source : ClientAddr) (target : VirtualAddr) (now now' : Z)
    (stream : VirtualStream) :
  open_with_transport_options options bs direct world = (s, Some (Ok h0)) ->
  let h := handle_run h0 evs in let root := oo_root options in
  connect_tcp h transport source target now now' = Ok stream \/ handle_connect_udp h transport source target now now' = Ok stream ->
  exists app, target = mkVirtualAddr (root_network_id root) (Server app) /\ ClientAddr_scoped source ∈ LocalBinding_scoped <$> bs /\
    vs_local_addr stream = ClientAddr_scoped source /\ vs_peer_addr stream = Server app /\
    exists c t, held h0 evs c /\ serves_address root c (vs_peer_endpoint_id stream) app t /\
      (c = la_config (nh_authorizer h) /\ t = now' \/
       exists i encrypted, evs !! i = Some (PresenceApplied encrypted t) /\ taken_up h0 (take i evs) c /\ now < t + MAX_PRESENCE_TTL_MS).
Proof.
  intros Ho h root Hc; destruct (open_inv _ _ _ _ _ _ Ho) as (local & bound & Hb & Hi0 & _).
  destruct (handle_run_inv _ _ _ _ _ evs Hi0) as [seen Hi].
  assert (exists d, server_descriptor h target now now' = Ok d /\
    (connect (endpoint_dialer (nh_endpoint h)) transport source d = Ok stream \/ connect_udp (endpoint_dialer (nh_endpoint h)) transport source d = Ok stream))
    as (d & Hd & Hcon) by (destruct Hc as [Hc|Hc]; apply bind_Ok in Hc as (d & Hd & Hc%map_err_Ok); eauto).
  destruct (descriptor_entitled _ _ _ _ _ _ _ _ _ _ _ Hi eq_refl Hd) as (Ht & c & t & Hent & Hor).
  apply connected_as_described in Hcon as (Hin & Hloc & Hpeer & He); fold h in Hi; rewrite (hi_endpoint _ _ _ _ _ _ _ Hi) in Hin; cbn in Hin.
  exists (pd_app_addr d); split_and!; [done | by eapply bindings_listed | done | done |]; exists c, t; rewrite He; split_and!; [|done|].
  - destruct Hor as [[-> _]|[(p & i & _ & Hup) _]]; [apply held_now | by eapply taken_up_held].
  - destruct Hor as [?|[(p & i & Hat & Hup) ?]]; [by left | right; eauto 6].
Qed.

(** C21: an open handle acts by the configuration it holds.  Through any run, the authorizer
    of its accept loop, the configuration it announces to its tasks and the one it has
    persisted are the same, valid under the network root and never older than the one it
    was opened with; it announces itself on the local network under its own network; and
    its directory holds only presence records accepted under a configuration it has held. *)
Theorem handle_follows_configuration (options : NetworkHandleOpenOptions S K) (bs : list LocalBinding) (direct : bool) (world : OpenWorld)
    (s : S) (h0 : handle) (evs : list HandleEvent) :
  open_with_transport_options options bs direct world = (s, Some (Ok h0)) ->
  let h := handle_run h0 evs in let root := oo_root options in let config := cs_config (ls_persisted (nh_state h)) in
  la_config (nh_authorizer h) = config /\ ls_config_changes (nh_state h) = config /\ valid_under root config /\
  (forall sv, nh_services h = Some sv -> av_authorizer sv = inl (nh_authorizer h)) /\
  head_le (cs_head (ls_persisted (nh_state h0))) (cs_head (ls_persisted (nh_state h))) /\
  pl_network_id (md_protected (ds_mdns (nh_discovery h))) = root_network_id root /\
  forall k r, pc_endpoint_records (dir_cache (nh_directory h)) !! k = Some r ->
    exists c encrypted t, held h0 evs c /\ Presence_open encrypted c t = Ok r.
Proof.
  intros Ho h root config; destruct (open_inv _ _ _ _ _ _ Ho) as (local & bound & _ & Hi0 & Hsv).
  destruct (handle_run_inv _ _ _ _ _ evs Hi0) as [seen Hi]; fold h in Hi; pose proof (inv_config _ _ _ _ _ _ _ Hi) as Hc.
  destruct Hi as [Hn He Hsame [Ha Hch Hnet] Hr Hv Hle Hp Hd Hs]; split_and!; try done.
  - intros sv; unfold nh_services; rewrite Hsame; destruct (we_services (nh_endpoint h0)) as [sv0|]; [|done]; cbn; intros [= <-]; cbn; by rewrite (Hsv sv0 eq_refl).
  - destruct Hd as (start & Hsys & _); apply Hsys.
  - destruct Hd as (start & Hsys & _); intros k r Hk; destruct (si_accepted _ _ _ _ _ Hsys _ _ Hk) as (c & encrypted & t & Hin & _ & Hop).
    exists c, encrypted, t; split; [|done]; destruct (Hs _ _ _ Hin) as [(i & _ & Hup) _]; by eapply taken_up_held.
Qed.
End facts.

(** ** A concrete member *)
Module NetworkHandleWitness.
Import Samples EnvelopeWitness ConfigStateWitness NetAuthorizerWitness.

(** The configuration of revision 1 with a client of the application. *)
Definition home : NetworkConfigV1 := Eval vm_compute in {|
  cfg_network_id := cfg_network_id next; cfg_epoch := cfg_epoch next; cfg_revision := cfg_revision next;
  cfg_previous_hash := cfg_previous_hash next; cfg_issued_at_ms := cfg_issued_at_ms next; cfg_expires_at_ms := cfg_expires_at_ms next;
  cfg_admin_keys := cfg_admin_keys next; cfg_members := cfg_members next; cfg_endpoint_bindings := cfg_endpoint_bindings next;
  cfg_revoked_serials := cfg_revoked_serials next; cfg_apps := cfg_apps next;
  cfg_app_bindings := cfg_app_bindings next ++ [to_bytes client]; cfg_virtual_dns := cfg_virtual_dns next;
  cfg_relays := cfg_relays next; cfg_presence_services := cfg_presence_services next;
  cfg_epoch_secrets := cfg_epoch_secrets next; cfg_policies := cfg_policies next |}.
Definition home_envelope : EncryptedConfigEnvelope := Eval vm_compute in
  (ok_else (no_envelope, [])
     (seal_next_config root_public toy_admin (mkValidated genesis) head home [toy_encryption] 300 random)).1.
Definition home_raw : bytes := Eval vm_compute in Envelope_to_bytes home_envelope.
Definition home_head : bytes := Eval vm_compute in encode_head (envelope_head home_envelope).
Definition home_store : MemoryState := mkMemoryState 1 5 5
  (<[(scope, envelope_key) := mkVersionedBytes 1 home_raw]> (<[(scope, head_key) := mkVersionedBytes 2 home_head]>
  (<[(scope, signer_key) := mkVersionedBytes 3 (to_bytes ac)]> (<[(scope, hist_key 1) := mkVersionedBytes 4 home_raw]> ∅)))).
Definition home_secrets : gmap SecretId bytes :=
  <[member_secret_id toy_network ENDPOINT_LABEL := toy_endpoint]> (<[member_secret_id toy_network SIGNING_LABEL := repeat Byte.x33 32]>
  (<[member_secret_id toy_network ENCRYPTION_LABEL := toy_encryption]> ∅)).
Definition home_options : NetworkHandleOpenOptions MemoryState (gmap SecretId bytes) :=
  mkOpenOptions root_public home_store home_secrets (mkSyncOptions (30 * 10 ^ 9) (5 * 10 ^ 8) (30 * 10 ^ 9))
    (mkPresenceOptions (60 * 10 ^ 9) (30 * 10 ^ 9) (120 * 10 ^ 9)) true.
Definition source : ClientAddr := ClientAddr_new app device.
Definition home_bindings : list LocalBinding := [LocalServer (ServerAddr_new app); LocalClient source].
Definition opening := open_with_transport_options home_options home_bindings false (mkOpenWorld 300 300 300 300 true (Ok tt)).
Definition accepting : Transport := fun addr _ _ => Some (mkConnection addr.1 (Arrived [Byte.x00])).
Definition happening : list HandleEvent := [ConfigTaskTurn; NetworkChanged; PresenceWoken; ListenerTaken false (ServerAddr_new app)].
Definition target : VirtualAddr := mkVirtualAddr toy_network (Server app).
Lemma connects :
  match opening.2 with
  | Some (Ok h) => is_ok (connect_tcp (handle_run h happening) accepting source target 310 310)
  | _ => false
  end = true.
Proof. vm_compute; reflexivity. Qed.
#[local] Opaque open_with_transport_options connect_tcp handle_run.
Lemma home_opens :
  exists h stream, open_with_transport_options home_options home_bindings false (mkOpenWorld 300 300 300 300 true (Ok tt)) = (opening.1, Some (Ok h)) /\
    connect_tcp (handle_run h happening) accepting source target 310 310 = Ok stream.
Proof.
  pose proof connects as Hc; destruct opening.2 as [[h|e]|] eqn:Ho; [|done..].
  exists h; destruct (connect_tcp _ _ _ _ _ _) as [stream|]; [|done]; exists stream; split; [|done].
  rewrite <- Ho; exact (surjective_pairing opening).
Qed.
#[local] Opaque opening.
Lemma handle_connects_to_entitled_witness :
  exists (h : NetworkHandle MemoryState) stream c t,
    connect_tcp (handle_run h happening) accepting source target 310 310 = Ok stream /\
    held h happening c /\ serves_address root_public c (vs_peer_endpoint_id stream) app t.
Proof.
  destruct home_opens as (h & stream & Ho & Hc).
  destruct (handle_connects_to_entitled home_options home_bindings false _ opening.1 h happening accepting source target 310 310 stream Ho (or_introl Hc))
    as (app' & Ht & _ & _ & _ & c & t & Hh & Hs & _).
  assert (app' = app) as -> by (apply (f_equal Core.va_addr) in Ht; injection Ht as <-; reflexivity).
  exact (ex_intro _ h (ex_intro _ stream (ex_intro _ c (ex_intro _ t (conj Hc (conj Hh Hs)))))).
Defined.
Lemma handle_follows_configuration_witness :
  exists h : NetworkHandle MemoryState,
    la_config (nh_authorizer (handle_run h happening)) = cs_config (ls_persisted (nh_state (handle_run h happening))) /\
    valid_under root_public (cs_config (ls_persisted (nh_state (handle_run h happening)))).
Proof.
  destruct home_opens as (h & stream & Ho & _).
  destruct (handle_follows_configuration home_options home_bindings false _ opening.1 h happening Ho) as (Ha & _ & Hv & _).
  exact (ex_intro _ h (conj Ha Hv)).
Defined.
End NetworkHandleWitness.
