(* ===== verification/NodeCli.v ===== *)
(** * weaver-cli: the tool of a node

    Models [crates/weaver-cli/src/main.rs]: the commands that prepare a membership, join a
    network with a ticket or an invitation, create an application root and bind it to the
    member, and bring the configuration up to date from a file or from a relay.  Each is a
    process of its own on the data directory of the node; what a command has written when
    it ends in an error stays.  clap's parsing and what is printed are left out. *)

From S2P Require Import Prelude Wire Core SocketAddr Platform Store CertificateWire Certificates Symmetric Snapshot Envelope.
From S2P Require Import Validate Presence Lan ConfigState JoinTicket Initialize Invitation NetProtocol NetAuthorizer NetSync Membership RelayServer NetworkHandle.

Inductive CliError : Type :=
| CliText (text : bytes)
| CliIo
| CliClock
| CliCommon (e : CommandError)
| CliStore (e : StoreError)
| CliSecret (e : SecretStoreError)
| CliCrypto (e : CertificateError)
| CliConfig (e : ConfigError)
| CliConfigState (e : ConfigStateError)
| CliMembership (e : MembershipError)
| CliAuthority (e : AuthorityError)
| CliNetwork (e : NetworkError)
| CliEndpointId.

(** [read_master_key], [write_new_file] and [encode_hex] are those of the relay binary. *)
(* weaver-cli/src/main.rs:570-574 now_ms *)
Definition node_now_ms (clock : Z) : result CliError Z := fail_if ((clock <? 0) || negb (is_u64 clock)) CliClock;; Ok clock.
(* weaver-cli/src/main.rs:536-546 decode_hex_32 *)
Definition root_from_hex (value : bytes) : result CliError bytes :=
  fail_if (negb (Nat.eqb (length value) 64)) (CliText (bstr "root public key must be exactly 64 hexadecimal characters"));;
  try_map (fun pair =>
    fail_if (negb (is_utf8 pair)) (CliText (bstr "invalid utf-8 sequence"));;
    byte ← u8_from_hex pair ?? CliText (bstr "root public key is not hexadecimal");
    Ok (byte_of_Z byte)) (pairs value).
(** The end of something that is valid for [amount] units from [now] on. *)
(* weaver-cli/src/main.rs:206-212 prepare_join *)
Definition valid_until (now amount unit_ms : Z) (too_large overflow : bytes) : result CliError Z :=
  valid_for_ms ← checked_mul amount unit_ms ?? CliText too_large;
  checked_add now valid_for_ms ?? CliText overflow.
(* weaver-cli/src/main.rs:181-185 AppRoleArg *)
Inductive AppRoleArg : Type := AppServer | AppClient.

Section ids.
Context `{Blake3}.
(* weaver-cli/src/main.rs:507-512 secret_id *)
Definition cli_secret_id (network_id : NetworkId) (label : bytes) : SecretId :=
  SecretId_from_bytes (derive_key (bstr "weaver.member.secret-id.v1") (NetworkId_as_bytes network_id ++ label)).
(* weaver-cli/src/main.rs:514-519 app_secret_id *)
Definition app_secret_id (network_id : NetworkId) (app_addr : AppAddr) : SecretId :=
  SecretId_from_bytes (derive_key (bstr "weaver.member.app-root-secret-id.v1") (NetworkId_as_bytes network_id ++ AppAddr_as_bytes app_addr)).
(* weaver-cli/src/main.rs:521-525 app_request_key *)
Definition app_request_key (app_addr : AppAddr) : result StoreError StoreKey :=
  StoreKey_new (bstr "app/request/v1/" ++ AppAddr_as_bytes app_addr).
End ids.

(** ** Processes
    A process works on the stores it has opened, the random source and the files. *)
Record NodeDir (S K : Type) : Type := mkNodeDir { nd_state : S; nd_secrets : K; nd_locked : bool }.
Arguments mkNodeDir {S K}.
Arguments nd_state {S K}.
Arguments nd_secrets {S K}.
Arguments nd_locked {S K}.

Section processes.
Context {S K : Type} `{StateStore S} `{SecretStore K}.
Definition Process : Type := World S K * Files.
Definition cli (A : Type) : Type := Process -> Process * result CliError A.
#[global] Instance cli_ret : MRet cli := fun A a n => (n, Ok a).
#[global] Instance cli_bind : MBind cli := fun A B f p n =>
  match p n with (n', Ok a) => f a n' | (n', Err e) => (n', Err e) end.
Definition clift {A} (r : result CliError A) : cli A := fun n => (n, r).
Definition cmemb {A} (m : memb S K A) : cli A := fun n => let '(w, r) := m n.1 in ((w, n.2), map_err CliMembership r).
(** An operation on the state store. *)
Definition cstate {A} (f : S -> S * result CliError A) : cli A := fun n =>
  let w := n.1 in
  let '(s, r) := f (st_state w.1) in
  (((mkStores s (st_secrets w.1) (st_allow_insecure_test_stores w.1), w.2), n.2), r).
Definition cread (path : bytes) : cli bytes := fun n => (n, n.2 !! path ?? CliIo).
Definition cwrite (path bs : bytes) (outcome : WriteOutcome) : cli unit := fun n =>
  let '(files, r) := write_new_file n.2 path bs outcome in ((n.1, files), map_err CliCommon r).
Definition copen (id : SecretId) : cli bytes := fun n => (n, map_err CliSecret (open_secret (st_secrets n.1.1) id)).
Definition cseal (id : SecretId) (v : bytes) : cli unit := fun n =>
  let w := n.1 in
  let '(k, r) := Store.seal (st_secrets w.1) id v in
  (((mkStores (st_state w.1) k (st_allow_insecure_test_stores w.1), w.2), n.2), map_err CliSecret r).
Definition crandom {A} (p : rnd CliError A) : cli A := fun n =>
  let w := n.1 in
  match p w.2 with Ok (a, ent) => (((w.1, ent), n.2), Ok a) | Err e => (((w.1, tail w.2), n.2), Err e) end.
(** A secret of 32 bytes. *)
(* weaver-cli/src/main.rs:327-333 app_bind *)
Definition copen_32 (id : SecretId) (corrupt : bytes) : cli bytes :=
  secret ← copen id;
  clift (fail_if (negb (Nat.eqb (length secret) 32)) (CliText corrupt));;
  mret secret.
End processes.
Arguments Process : clear implicits.
Arguments cli : clear implicits.

Section node.
Context `{Ed25519} `{Blake3} `{Aead} `{Hpke} `{Platform} `{KeyGen} `{Base64} `{RedbFile}.
Context {S K : Type} `{StateStore S} `{SecretStore K} `{Capable S} `{Protected K} `{SecretDir K}.
#[local] Abbreviation nodedir := (NodeDir S K).
Implicit Types (dd : nodedir) (files : Files) (ent : entropy) (network_id : NetworkId).

(** What a process finds: the key of the secrets, whether the directory of the secrets is
    there or could be made, and the random source. *)
Record ProcessEnv : Type := mkProcessEnv { pe_master_key_file : bytes; pe_secrets_dir : bool; pe_entropy : entropy }.
(** The stores of the node. *)
(* weaver-cli/src/main.rs:296-298 app_prepare *)
Definition open_stores dd files (env : ProcessEnv) : result CliError (World S K) :=
  master_key ← map_err CliCommon (read_master_key files (pe_master_key_file env));
  map_err (fun text => CliStore (Backend text)) (database_create (nd_locked dd));;
  fail_if (negb (pe_secrets_dir env)) (CliSecret (SecretBackend (bstr "create_dir_all")));;
  Ok (mkStores (nd_state dd) (secrets_open (nd_secrets dd) master_key) false, pe_entropy env).
(** [first] is what a command does before it opens the stores. *)
(* weaver-cli/src/main.rs:397-402 apply_updates *)
Definition run_node {A} dd files (env : ProcessEnv) (first : result CliError A) (run : A -> cli S K unit)
    : (nodedir * Files) * result CliError unit :=
  match a ← first; w ← open_stores dd files env; Ok (a, w) with
  | Err e => ((dd, files), Err e)
  | Ok (a, w) =>
      let '(n, r) := run a (w, files) in
      ((mkNodeDir (st_state n.1.1) (st_secrets n.1.1) (nd_locked dd), n.2), r)
  end.
(* weaver-cli/src/main.rs:240-241 join *)
Definition root_argument (root_public_key : bytes) : result CliError NetworkRootPublic :=
  root_bytes ← root_from_hex root_public_key;
  map_err CliCrypto (NetworkRootPublic_from_bytes root_bytes).
(** [EndpointId::from_bytes(..)?] on the way to printing it. *)
Definition print_endpoint (endpoint_id : bytes) : cli S K unit :=
  clift (EndpointId_from_bytes endpoint_id ?? CliEndpointId);; mret tt.

(** ** Joining *)
(* weaver-cli/src/main.rs:201-237 prepare_join *)
Definition node_prepare_join network_id (expires_hours : Z) (roles : list RoleArg) (out : bytes) (clock : Z) (outcome : WriteOutcome)
    : cli S K unit :=
  current_time ← clift (node_now_ms clock);
  expires_at_ms ← clift (valid_until current_time expires_hours HOUR_MS (bstr "--expires-hours is too large") (bstr "join request expiry overflow"));
  prepared ← cmemb (prepare_join network_id (member_roles roles) expires_at_ms);
  cwrite out (PreparedJoinRequest_to_bytes prepared) outcome;;
  print_endpoint (jr_endpoint_id (payload (pj_request prepared))).
(* weaver-cli/src/main.rs:239-264 join *)
Definition node_join (root : NetworkRootPublic) (ticket : bytes) (clock : Z) : cli S K unit :=
  raw ← cread ticket;
  ticket ← clift (map_err CliAuthority (Ticket_from_bytes raw));
  endpoint ← clift (map_err CliCrypto (EndpointBinding_from_bytes (tk_endpoint_binding ticket)));
  now ← clift (node_now_ms clock);
  cmemb (join root ticket now);;
  print_endpoint (eb_endpoint_id (payload endpoint)).
(* weaver-cli/src/main.rs:267-269 redeem_invitation *)
Definition invitation_argument files (root_public_key invitation : bytes) : result CliError (NetworkRootPublic * InvitationBundle) :=
  root ← root_argument root_public_key;
  text ← files !! invitation ?? CliIo;
  fail_if (negb (is_utf8 text)) CliIo;;
  invitation ← map_err CliAuthority (Invitation_from_text text);
  Ok (root, invitation).
(** [now_ms'] is the clock when the answer of the bootstrap endpoint has arrived. *)
(* weaver-cli/src/main.rs:266-293 redeem_invitation *)
Definition node_redeem_invitation (transport : Transport) (arguments : NetworkRootPublic * InvitationBundle) (clock now_ms' : Z) : cli S K unit :=
  now ← clift (node_now_ms clock);
  cmemb (redeem transport arguments.1 arguments.2 now now_ms');;
  mret tt.

(** ** Applications *)
(* weaver-crypto/src/lib.rs:522-524 AppRootKey::generate *)
Definition AppRootKey_generate : rnd CertificateError AppRootKey :=
  k ← SigningKeypair_generate; mret (AppRootKey_from_bytes (sk_seed k)).
(* weaver-cli/src/main.rs:309-312 app_prepare *)
Definition keep_request network_id (app_addr : AppAddr) (request : bytes) (s : S) : S * result CliError unit :=
  match key ← app_request_key app_addr; AtomicBatch_put (AtomicBatch_new (StoreScope_member network_id)) key request Missing with
  | Err e => (s, Err (CliStore e))
  | Ok batch => let '(s, r) := commit s batch in (s, _ ← map_err CliStore r; Ok tt)
  end.
(* weaver-cli/src/main.rs:295-321 app_prepare *)
Definition app_prepare network_id (policy : Z) (out : bytes) (enrollment_root_out : option bytes) (outcome root_outcome : WriteOutcome)
    : cli S K unit :=
  app_root ← crandom (rmap_err CliCrypto AppRootKey_generate);
  let app_addr := AppRootKey_app_addr app_root in
  let request := to_bytes (AppRegistrationRequest_create app_root network_id policy) in
  cseal (app_secret_id network_id app_addr) (app_seed app_root);;
  cstate (keep_request network_id app_addr request);;
  cwrite out request outcome;;
  match enrollment_root_out with
  | Some path => cwrite path (app_seed app_root) root_outcome
  | None => mret tt
  end.
(** The root of the application, from the secrets. *)
(* weaver-cli/src/main.rs:327-337 app_bind *)
Definition open_app_root network_id (app_addr : AppAddr) : cli S K AppRootKey :=
  secret ← copen_32 (app_secret_id network_id app_addr) (bstr "stored application root is corrupt");
  let app_root := AppRootKey_from_bytes secret in
  clift (fail_if (negb (bool_decide (AppRootKey_app_addr app_root = app_addr)))
    (CliText (bstr "stored application root does not derive the requested AppAddr")));;
  mret app_root.
(** The certificate of the member, with the key it certifies. *)
(* weaver-cli/src/main.rs:338-356 app_bind *)
Definition open_member network_id : cli S K (MemberCertificate * SigningKeypair) :=
  key ← clift (map_err CliStore (StoreKey_new KEY_MEMBER_CERTIFICATE));
  record ← cstate (fun s => (s, map_err CliStore (read s (StoreScope_member network_id) key)));
  record ← clift (record ?? CliText (bstr "node has not joined this network"));
  member ← clift (map_err CliCrypto (MemberCertificate_from_bytes (vb_bytes record)));
  secret ← copen_32 (cli_secret_id network_id SIGNING_LABEL) (bstr "stored member signing key is corrupt");
  let signing := SigningKeypair_from_bytes secret in
  clift (fail_if (negb (bool_decide (SigningKeypair_public_bytes signing = mc_signing_public_key (payload member))))
    (CliText (bstr "stored signing key differs from joined member certificate")));;
  mret (member, signing).
(* weaver-cli/src/main.rs:357-368 app_bind *)
Definition binding_expiry (member : MemberCertificate) (valid_days clock : Z) : result CliError Z :=
  current_time ← node_now_ms clock;
  expires_at_ms ← valid_until current_time valid_days DAY_MS (bstr "--valid-days is too large") (bstr "application binding expiry overflow");
  let expires_at_ms := Z.min expires_at_ms (mc_expires_at_ms (payload member)) in
  fail_if (expires_at_ms <=? current_time) (CliText (bstr "joined member certificate is already expired"));;
  Ok expires_at_ms.
(* weaver-cli/src/main.rs:369-379 app_bind *)
Definition binding_role network_id (app_addr : AppAddr) (signing : SigningKeypair) (role : AppRoleArg) : AppRole * option DeviceId :=
  match role with
  | AppServer => (RoleServer, None)
  | AppClient => (RoleClient, Some (derive_device_id network_id app_addr (SigningKeypair_public_bytes signing)))
  end.
(* weaver-cli/src/main.rs:323-395 app_bind *)
Definition node_app_bind network_id (app_addr : AppAddr) (role : AppRoleArg) (valid_days : Z) (out : bytes) (clock : Z)
    (outcome : WriteOutcome) : cli S K unit :=
  app_root ← open_app_root network_id app_addr;
  '(member, signing) ← open_member network_id;
  expires_at_ms ← clift (binding_expiry member valid_days clock);
  let '(role, device_id) := binding_role network_id app_addr signing role in
  binding ← clift (map_err CliCrypto (AppBinding_issue app_root network_id (mc_member_id (payload member)) role device_id expires_at_ms []));
  cwrite out (to_bytes binding) outcome.

(** ** The configuration *)
(* weaver-cli/src/main.rs:403-410 apply_updates *)
Definition open_encryption network_id : cli S K MemberEncryptionKeypair :=
  secret ← copen_32 (cli_secret_id network_id ENCRYPTION_LABEL) (bstr "stored member encryption key is corrupt");
  clift (map_err CliConfig (Keypair_from_secret_bytes secret)).
Definition open_persisted (root : NetworkRootPublic) (encryption : MemberEncryptionKeypair) (clock : Z) : cli S K (PersistedConfigState S) :=
  now ← clift (node_now_ms clock);
  cstate (fun s => let '(s, r) := ConfigState_open s root encryption now in (s, map_err CliConfigState r)).
(** The state that [open_persisted] has returned holds the store. *)
Definition apply_persisted (persisted : PersistedConfigState S) (updates : ConfigUpdateBatch) (clock : Z) : cli S K ConfigHead :=
  now ← clift (node_now_ms clock);
  cstate (fun _ => let '(st, r) := ConfigState_apply persisted updates now in (cs_store st, map_err CliConfigState r)).
(** The clock is read before the state is opened and again before the updates are applied. *)
(* weaver-cli/src/main.rs:397-418 apply_updates *)
Definition apply_updates (updates : bytes) (clock clock' : Z) (root : NetworkRootPublic) : cli S K unit :=
  encryption ← open_encryption (root_network_id root);
  raw ← cread updates;
  updates ← clift (map_err CliConfig (Batch_from_bytes raw));
  persisted ← open_persisted root encryption clock;
  apply_persisted persisted updates clock';;
  mret tt.
(* weaver-cli/src/main.rs:420-440 node_status *)
Definition node_status (clock : Z) (root : NetworkRootPublic) : cli S K unit :=
  encryption ← open_encryption (root_network_id root);
  open_persisted root encryption clock;;
  mret tt.
(** The relay of the configuration with the endpoint. *)
(* weaver-cli/src/main.rs:457-467 sync *)
Definition find_relay (config : ValidatedNetworkConfig) (peer_endpoint_id : EndpointId) : result CliError bytes :=
  relay ← List.find (fun relay => bool_decide (rd_endpoint_id relay = EndpointId_as_bytes peer_endpoint_id)) (cfg_relays (vc_inner config))
    ?? CliText (bstr "peer endpoint is not an authorized relay in the signed configuration");
  relay_url_parse (rd_url relay) ?? CliText (bstr "signed relay URL is invalid").
(** [bound] and [online]: iroh binds the endpoint, and a relay is reached. *)
(* weaver-cli/src/main.rs:457-496 sync *)
Definition fetch_from_relay (transport : Transport) (peer_endpoint_id : EndpointId) (bound online : bool) (root : NetworkRootPublic)
    (persisted : PersistedConfigState S) : cli S K ConfigUpdateBatch :=
  let network_id := root_network_id root in
  relay_url ← clift (find_relay (cs_config persisted) peer_endpoint_id);
  endpoint_secret ← copen_32 (cli_secret_id network_id ENDPOINT_LABEL) (bstr "stored endpoint key is corrupt");
  endpoint ← clift (map_err CliNetwork (WeaverEndpoint_bind (S := S) (NodeConfig_new endpoint_secret (Some relay_url) network_id ∅ []) bound));
  clift (map_err CliNetwork (wait_relay_online endpoint 10000 online));;
  clift (map_err CliNetwork (fetch_config_updates (endpoint_dialer endpoint) transport
    (mkConfigPeer network_id peer_endpoint_id (Some relay_url) []) (cs_head persisted))).
(* weaver-cli/src/main.rs:442-505 sync *)
Definition sync (transport : Transport) (peer_endpoint_id : EndpointId) (bound online : bool) (clock clock' : Z) (root : NetworkRootPublic)
    : cli S K unit :=
  encryption ← open_encryption (root_network_id root);
  persisted ← open_persisted root encryption clock;
  updates ← fetch_from_relay transport peer_endpoint_id bound online root persisted;
  apply_persisted persisted updates clock';;
  mret tt.

(** ** The tool *)
(* weaver-cli/src/main.rs:38-56 Command *)
Inductive NodeCommand : Type :=
| PrepareJoin (network_id : NetworkId) (expires_hours : Z) (roles : list RoleArg) (out : bytes) (clock : Z) (outcome : WriteOutcome)
| Join (root_public_key ticket : bytes) (clock : Z)
| RedeemInvitation (root_public_key invitation : bytes) (transport : Transport) (clock now_ms' : Z)
| AppPrepare (network_id : NetworkId) (policy : Z) (out : bytes) (enrollment_root_out : option bytes) (outcome root_outcome : WriteOutcome)
| NodeAppBind (network_id : NetworkId) (app_addr : AppAddr) (role : AppRoleArg) (valid_days : Z) (out : bytes) (clock : Z) (outcome : WriteOutcome)
| ApplyUpdates (root_public_key updates : bytes) (clock clock' : Z)
| NodeStatus (root_public_key : bytes) (clock : Z)
| Sync (root_public_key : bytes) (peer_endpoint_id : EndpointId) (transport : Transport) (bound online : bool) (clock clock' : Z).
(* weaver-cli/src/main.rs:188-199 main *)
Definition node_main (st : nodedir * Files) (c : NodeCommand * ProcessEnv) : (nodedir * Files) * result CliError unit :=
  let run {A} := run_node (A := A) st.1 st.2 c.2 in
  match c.1 with
  | PrepareJoin net hours roles out clock outcome => run (Ok tt) (fun _ => node_prepare_join net hours roles out clock outcome)
  | Join root ticket clock => run (root_argument root) (fun root => node_join root ticket clock)
  | RedeemInvitation root invitation transport clock now' =>
      run (invitation_argument st.2 root invitation) (fun x => node_redeem_invitation transport x clock now')
  | AppPrepare net policy out root_out outcome root_outcome => run (Ok tt) (fun _ => app_prepare net policy out root_out outcome root_outcome)
  | NodeAppBind net app role days out clock outcome => run (Ok tt) (fun _ => node_app_bind net app role days out clock outcome)
  | ApplyUpdates root updates clock clock' => run (root_argument root) (apply_updates updates clock clock')
  | NodeStatus root clock => run (root_argument root) (node_status clock)
  | Sync root peer transport bound online clock clock' => run (root_argument root) (sync transport peer bound online clock clock')
  end.
Definition node_main_all (st : nodedir * Files) (cs : list (NodeCommand * ProcessEnv)) : nodedir * Files :=
  foldl (fun st c => (node_main st c).1) st cs.
End node.
