(* ===== verification/NodeCliFacts.v ===== *)
(** * Properties of the tool of a node

    No command loses a secret, a file or a record of the membership or takes the
    configuration back, and an application root made by one command binds the application
    to the member in another. *)

From S2P Require Import Prelude Wire Core SocketAddr Platform Store RedbStore CertificateWire Certificates Symmetric SecretFile ToyCrypto SecretFileFacts.
From S2P Require Import CertificateChain Snapshot Validate Envelope EnvelopeChain ConfigState ConfigStateFacts JoinTicket Authority AuthorityChain Initialize.
From S2P Require Import Invitation NetProtocol NetAuthorizer NetSync NetSyncFacts Membership MembershipFacts RelayServer RelayServerFacts NetworkHandle NetworkHandleFacts NodeCli.

(** ** What stays in the state store *)
Definition head_at (m : records) (scope : StoreScope) : option ConfigHead :=
  match m !! (scope, head_key) with
  | Some record => match decode_head (vb_bytes record) with Ok head => Some head | Err _ => None end
  | None => None
  end.
(** The records that are replaced or removed: the checkpoint and the prepared request. *)
Definition volatile : list StoreKey := [envelope_key; head_key; signer_key; prepared_key].
Record kept (m m' : records) : Prop := {
  kp_head scope head : head_at m scope = Some head -> exists head', head_at m' scope = Some head' /\ head_le head head';
  kp_records scope key record : key ∉ volatile -> m !! (scope, key) = Some record -> m' !! (scope, key) = Some record;
}.
#[global] Instance kept_refl : Reflexive kept.
Proof. intros m; constructor; [intros scope head ?; by exists head | done]. Qed.
#[global] Instance kept_trans : Transitive kept.
Proof.
  intros m1 m2 m3 [Hh Hr] [Hh' Hr']; constructor; [|auto].
  intros scope head (h1 & Hh1 & Hle)%Hh; apply Hh' in Hh1 as (h2 & Hh2 & Hle'); exists h2; split; [done | by etrans].
Qed.
(** Writing what is missing and removing the prepared request. *)
Definition additive (op : BatchOperation) : Prop :=
  match op with Put _ _ Missing => True | Delete key _ => key = prepared_key | Put _ _ _ => False end.
Lemma head_not_prepared : head_key <> prepared_key.
Proof. intros Heq%(f_equal (fun k => take 1 (StoreKey_as_bytes k))); vm_compute in Heq; discriminate Heq. Qed.
(** Nothing but the prepared request is replaced or removed. *)
Definition added (m m' : records) : Prop :=
  forall scope key record, key <> prepared_key -> m !! (scope, key) = Some record -> m' !! (scope, key) = Some record.
Lemma additive_added m b m' : Forall additive (batch_operations b) -> preconditions m b -> batch_effect m b m' -> added m m'.
Proof.
  intros Ha Hp [Hin Hout]; unfold preconditions in Hp; rewrite Forall_forall in Ha, Hp.
  intros scope key record Hne Hm; rewrite Hout; [done|]; destruct (decide (scope = batch_scope b)) as [->|]; [right|by left].
  intros (op & -> & Hop)%list_elem_of_fmap; specialize (Ha op Hop); specialize (Hp op Hop); destruct op as [k v []|k]; try done.
  cbn in *; unfold actual_version in Hp; by rewrite Hm in Hp.
Qed.
Lemma added_head m m' scope head : added m m' -> head_at m scope = Some head -> head_at m' scope = Some head.
Proof.
  unfold head_at; intros Ha; destruct (m !! (scope, head_key)) as [record|] eqn:Hm; [|done].
  by rewrite (Ha _ _ _ head_not_prepared Hm).
Qed.
Lemma added_kept m m' : added m m' -> kept m m'.
Proof.
  intros Ha; constructor; [intros scope head Hh; exists head; split; [by eapply added_head | done]|].
  intros scope key record Hv; apply Ha; intros ->; apply Hv; unfold volatile; set_solver.
Qed.
Section states.
Context {S : Type} `{Lstore : StateStoreLaws S}.
Implicit Types (s : S) (m : records).
Lemma commit_added s m b s' r :
  store_rep s m -> batch_wf b -> Forall additive (batch_operations b) -> commit s b = (s', r) -> exists m', store_rep s' m' /\ added m m'.
Proof.
  intros Hrep Hwf Ha Hc; destruct r as [v|e].
  - destruct (commit_success _ _ _ _ _ Hrep Hwf Hc) as (Hp & m' & Hm' & He); exists m'; split; [done | by eapply additive_added].
  - destruct (commit_failure _ _ _ _ _ Hrep Hwf Hc) as [?|(_ & Hp & m' & Hm' & He)]; [by exists m; split; [|intros ?]|].
    exists m'; split; [done | by eapply additive_added].
Qed.
Lemma put_missing_added s m scope key value b s' r :
  store_rep s m -> scope_wf scope -> StoreKey_wf key -> AtomicBatch_put (AtomicBatch_new scope) key value Missing = Ok b ->
  commit s b = (s', r) -> exists m', store_rep s' m' /\ added m m'.
Proof.
  intros Hrep Hsc Hk (Hwf & _ & Hops)%AtomicBatch_put_wf; [|by apply AtomicBatch_new_wf|done].
  by apply commit_added; [| |rewrite Hops; repeat constructor].
Qed.
Lemma seed_history_added s m scope revision envelope s' r :
  store_rep s m -> scope_wf scope -> seed_history s scope revision envelope = (s', r) -> exists m', store_rep s' m' /\ added m m'.
Proof.
  intros Hrep Hsc; unfold seed_history; rewrite history_key_Ok; cbn [map_err mbind result_bind].
  assert (exists m', store_rep s m' /\ added m m') as Hsame by (by exists m; split; [|intros ?]).
  destruct (read s scope _) as [[]|]; [by intros [= <- _]| |by intros [= <- _]].
  cbn; destruct (AtomicBatch_put _ _ _ _) as [b|] eqn:Hb; [|by intros [= <- _]]; destruct (commit s b) as [s1 v] eqn:Hc.
  intros Hs; replace s' with s1 by (destruct v as [|[]]; congruence).
  eapply put_missing_added; [done|done|apply hist_key_wf|done|done].
Qed.
End states.

Section configuration.
Context `{Led : Ed25519} `{Lblake : Blake3Laws} `{Laead : Aead} `{Lhpke : Hpke} {S : Type} `{Lstore : StateStoreLaws S}.
Lemma open_checkpoint_head e root va enc head now o :
  open_config_with_verified_admin e root va enc (Checkpoint head) now = Ok o -> onc_head o = head.
Proof.
  intros Hop; unfold open_config_with_verified_admin in Hop; do 4 (apply bind_Ok in Hop as (? & _ & Hop)).
  apply bind_Ok in Hop as (oc & (_ & Hch & Hhd & _)%open_verified_Ok & (c & _ & _ & _ & _ & _ & _ & ->)%decode_and_validate_Ok).
  unfold validate_chain in Hch; apply fail_if_Ok in Hch; bool_inv; cbn [onc_head]; rewrite Hhd; destruct head; cbn in *; unfold envelope_head; congruence.
Qed.
(** The state that opens is the one the store holds. *)
Lemma ConfigState_open_added (s : S) m root enc now s' r :
  let scope := StoreScope_member (root_network_id root) in
  store_rep s m -> scope_wf scope -> ConfigState_open s root enc now = (s', r) ->
  exists m', store_rep s' m' /\ added m m' /\
    forall st, r = Ok st -> cs_store st = s' /\ cs_root st = root /\ head_at m' scope = Some (cs_head st).
Proof.
  intros scope Hrep Hsc; unfold ConfigState_open; destruct (load_checkpoint s root enc now) as [[[[opened env] hd] sg]|e] eqn:Hl;
    [|intros [= <- <-]; by exists m; split_and!; [|intros ?|]].
  destruct (seed_history _ _ _ _) as [s1 r1] eqn:Hs; apply (seed_history_added _ m) in Hs as (m' & Hm' & Ha); [|done..].
  assert (head_at m scope = Some (onc_head opened)) as Hh.
  { unfold load_checkpoint in Hl; apply bind_Ok in Hl as (o1 & _ & Hl); apply bind_Ok in Hl as (? & _ & Hl).
    apply bind_Ok in Hl as (o2 & Ho & Hl); apply bind_Ok in Hl as (hr & ->%ok_or_Ok & Hl); do 3 (apply bind_Ok in Hl as (? & _ & Hl)).
    apply bind_Ok in Hl as (head & Hd & Hl); do 2 (apply bind_Ok in Hl as (? & _ & Hl)).
    apply bind_Ok in Hl as (o & Hop%map_err_Ok%open_checkpoint_head & [= <- _ _ _]); rewrite Hop.
    eapply read_key_Ok in Ho as (k & Hk & Ho); [|done..]; rewrite head_key_Ok in Hk; injection Hk as <-; unfold head_at, scope; rewrite <- Ho.
    by rewrite Hd. }
  destruct r1 as [[]|e]; intros [= <- <-]; exists m'; split_and!; try done; intros st [= <-]; split_and!; try done; by eapply added_head.
Qed.
Lemma ConfigState_apply_kept (st : PersistedConfigState S) m updates now st' r :
  let scope := StoreScope_member (root_network_id (cs_root st)) in
  store_rep (cs_store st) m -> scope_wf scope -> batch_typed updates -> head_at m scope = Some (cs_head st) ->
  ConfigState_apply st updates now = (st', r) -> exists m', store_rep (cs_store st') m' /\ kept m m'.
Proof.
  intros scope Hrep Hsc Hty Hhead Ha; destruct (apply_cases _ _ _ _ _ _ Hrep Hsc Hty Ha) as [(_ & Hr & _)|(c' & h' & m' & Hup & Hr & _)]; [by exists m|].
  destruct Hup as (Hf & raw & signer & Hfu & Hue); exists m'; split; [done|]; constructor.
  - intros scope' head Hh; destruct (decide (scope' = scope)) as [->|Hne].
    + rewrite Hhead in Hh; injection Hh as <-; exists h'; unfold head_at, scope.
      pose proof (ue_head _ _ _ _ _ _ _ Hue) as Hd; apply fmap_Some in Hd as (rec & -> & <-); rewrite (final_head_typed _ _ _ _ _ _ _ _ Hfu); split; [done|].
      pose proof (follows_view _ _ _ _ _ _ _ _ Hf) as (Hrev & Hep & _); destruct (ub_envelopes updates) as [|x xs]; [inversion Hf; by left|].
      right; unfold len in Hrev; cbn [length] in Hrev; lia.
    + exists head; unfold head_at in *; rewrite (ue_outside _ _ _ _ _ _ _ Hue); [done | by left].
  - intros scope' key record Hv Hm; destruct (decide (scope' = scope)) as [->|Hne]; [|rewrite (ue_outside _ _ _ _ _ _ _ Hue); [done | by left]].
    destruct (decide (key ∈ (fun r => hist_key (raw_revision r)) <$> ub_envelopes updates)) as [(x & -> & Hx)%list_elem_of_fmap|Hni].
    + destruct (ue_history _ _ _ _ _ _ _ Hue x Hx) as [Hn _]; unfold scope in Hm; congruence.
    + rewrite (ue_outside _ _ _ _ _ _ _ Hue); [done|right]; unfold volatile in Hv; rewrite list_elem_of_fmap in Hni; set_solver.
Qed.
End configuration.

(** ** Programs that keep what there is *)
Section keeping.
Context `{Led : Ed25519Laws} `{Lblake : Blake3Laws} `{Laead : AeadLaws} `{Lhpke : HpkeLaws} `{Lplatform : Platform} `{Lgen : KeyGen} `{Lkeys : !@KeyGenLaws _ Lplatform Lgen}.
Context `{Lb64 : Base64} `{Lfile : RedbFile} {S K : Type} `{Lstore : StateStoreLaws S} `{Lsecrets : SecretStoreLaws K} `{Lcap : Capable S} `{Lprot : Protected K}.
Implicit Types (w : World S K) (n : Process S K) (network_id : NetworkId).

Record wkeeps w w' : Prop := {
  wk_secrets : secrets_of w ⊆ secrets_of w';
  wk_sealed : sealed_from (st_secrets w.1) (st_secrets w'.1);
  wk_state m : store_rep (st_state w.1) m -> exists m', store_rep (st_state w'.1) m' /\ kept m m';
}.
Lemma wkeeps_grows w w' : grows w w' -> wkeeps w w'.
Proof. intros (Hs & Hsub & Hse); constructor; [done|done|]; intros m; rewrite Hs; by exists m. Qed.
Lemma wkeeps_refl w : wkeeps w w.
Proof. apply wkeeps_grows, grows_refl. Qed.
Lemma wkeeps_trans w w1 w' : wkeeps w w1 -> wkeeps w1 w' -> wkeeps w w'.
Proof.
  intros [Ha Hb Hc] [Ha' Hb' Hc']; constructor; [by etrans | intros P HP Hk; by apply Hb', Hb |].
  intros m (m1 & Hm1 & Hk1)%Hc; apply Hc' in Hm1 as (m2 & Hm2 & Hk2); exists m2; split; [done | by etrans].
Qed.
Definition mkeeps {A} (p : memb S K A) : Prop := forall w w' r, p w = (w', r) -> wkeeps w w'.
Lemma mkeeps_readonly {A} (p : memb S K A) : readonly p -> mkeeps p.
Proof. intros Hp w w' r Hr; rewrite (readonly_inv _ _ _ _ Hp Hr); apply wkeeps_refl. Qed.
Lemma mkeeps_bind {A B} (p : memb S K A) (f : A -> memb S K B) : mkeeps p -> (forall a, mkeeps (f a)) -> mkeeps (p ≫= f).
Proof.
  intros Hp Hf w w' r [(a & w1 & Ha & Hb)|(e & He & _)]%memb_bind_inv; [|by eapply Hp].
  eapply wkeeps_trans; [by eapply Hp | by eapply Hf].
Qed.
(** A commit on the stores as they are. *)
Lemma wkeeps_commit w b s' r :
  batch_wf b -> Forall additive (batch_operations b) -> commit (st_state w.1) b = (s', r) ->
  wkeeps w (mkStores s' (st_secrets w.1) (st_allow_insecure_test_stores w.1), w.2).
Proof.
  intros Hwf Ha Hc; constructor; [done | by intros P | ]; cbn [fst st_state]; intros m Hm.
  destruct (commit_added _ _ _ _ _ Hm Hwf Ha Hc) as (m' & Hm' & Had); exists m'; split; [done | by apply added_kept].
Qed.
Lemma create_prepared_grows network_id roles expires_at_ms w w' r : create_prepared network_id roles expires_at_ms w = (w', r) -> grows w w'.
Proof.
  unfold create_prepared; intros [(signing & w1 & Hs & Hc)|(e & Hs & _)]%memb_bind_inv; apply signing_held in Hs as [Hg1 _]; [|done].
  apply memb_bind_inv in Hc as [(encryption & w2 & He & Hc)|(e & He & _)]; apply encryption_held in He as [Hg2 _]; [|eauto using grows_trans].
  apply memb_bind_inv in Hc as [(endpoint & w3 & Hp & Hc)|(e & Hp & _)]; apply endpoint_held in Hp as [Hg3 _]; [|eauto using grows_trans].
  apply memb_bind_inv in Hc as [(nonce & w4 & Hr & Hc)|(e & Hr & _)]; apply random_same in Hr as [Hw _];
    [injection Hc as <- _|]; eauto using grows_trans, grows_same.
Qed.
Lemma prepare_join_keeps network_id roles expires_at_ms : NetworkId_wf network_id -> mkeeps (prepare_join network_id roles expires_at_ms).
Proof.
  intros Hn w w' r [[-> _]|(_ & [(rec & _ & -> & _)|(_ & w1 & r1 & Hc & Hr)])]%prepare_join_inv; [apply wkeeps_refl..|].
  apply create_prepared_grows, wkeeps_grows in Hc; destruct Hr as [[-> _]|(p & b & s' & v & _ & Hb & Hcm & -> & _)]; [done|].
  eapply wkeeps_trans; [done|]; apply AtomicBatch_put_wf in Hb as (Hwf & _ & Hops); [|by apply AtomicBatch_new_wf | apply membership_keys_ok].
  eapply wkeeps_commit; [done | rewrite Hops; repeat constructor | done].
Qed.
Lemma join_keeps root ticket now : NetworkId_wf (root_network_id root) -> mkeeps (join root ticket now).
Proof.
  intros Hn w w' r [[-> _]|(record & ? & ? & ? & opened & b & s' & v & _ & Hb & Hc & -> & _)]%join_inv; [apply wkeeps_refl|].
  apply join_batch_ok in Hb as (Hwf & _ & _ & Hops); [|done]; eapply wkeeps_commit; [done | rewrite Hops; repeat constructor | done].
Qed.
Lemma redeem_keeps transport root invitation now now' : NetworkId_wf (root_network_id root) -> mkeeps (redeem transport root invitation now now').
Proof.
  intros Hn; unfold redeem; cbv zeta; apply mkeeps_bind; [by apply mkeeps_readonly|]; intros _.
  apply mkeeps_bind; [by apply mkeeps_readonly|]; intros _.
  destruct (decide (iv_network_id invitation = root_network_id root)) as [->|Hne];
    [|rewrite (bool_decide_false (iv_network_id invitation = _)) by done; by intros w w' r [= <- _]; apply wkeeps_refl].
  apply mkeeps_bind; [by apply mkeeps_readonly|]; intros _; apply mkeeps_bind; [by apply prepare_join_keeps|]; intros prepared.
  apply mkeeps_bind; [apply mkeeps_readonly; auto with readonly|]; intros _.
  do 4 (apply mkeeps_bind; [by apply mkeeps_readonly|]; intros ?); case_match; [by apply join_keeps | by apply mkeeps_readonly].
Qed.

(** ** Processes *)
Definition pkeeps n n' : Prop := n.2 ⊆ n'.2 /\ wkeeps n.1 n'.1.
Lemma pkeeps_refl n : pkeeps n n.
Proof. split; [done | apply wkeeps_refl]. Qed.
Lemma pkeeps_trans n n1 n' : pkeeps n n1 -> pkeeps n1 n' -> pkeeps n n'.
Proof. intros [? ?] [? ?]; split; [by etrans | by eapply wkeeps_trans]. Qed.
Definition keeps {A} (p : cli S K A) : Prop := forall n n' r, p n = (n', r) -> pkeeps n n'.
Lemma cli_bind_inv {A B} (p : cli S K A) (f : A -> cli S K B) n n' r :
  (p ≫= f) n = (n', r) -> (exists a n1, p n = (n1, Ok a) /\ f a n1 = (n', r)) \/ exists e, p n = (n', Err e) /\ r = Err e.
Proof. cbv [mbind cli_bind]; destruct (p n) as [n1 [a|e]]; intros Hf; [eauto | injection Hf as <- <-; eauto]. Qed.
Lemma keeps_bind {A B} (p : cli S K A) (f : A -> cli S K B) : keeps p -> (forall a, keeps (f a)) -> keeps (p ≫= f).
Proof.
  intros Hp Hf n n' r [(a & n1 & Ha & Hb)|(e & He & _)]%cli_bind_inv; [|by eapply Hp].
  eapply pkeeps_trans; [by eapply Hp | by eapply Hf].
Qed.
(** Programs that change nothing. *)
Definition looks {A} (p : cli S K A) : Prop := forall n, (p n).1 = n.
Lemma looks_inv {A} (p : cli S K A) n n' r : looks p -> p n = (n', r) -> n' = n.
Proof. intros Hp Hr; rewrite <- (Hp n), Hr; done. Qed.
Lemma looks_bind {A B} (p : cli S K A) (f : A -> cli S K B) : looks p -> (forall a, looks (f a)) -> looks (p ≫= f).
Proof. intros Hp Hf n; cbv [mbind cli_bind]; specialize (Hp n); destruct (p n) as [n1 [a|e]]; cbn in *; subst; [apply Hf | done]. Qed.
Lemma looks_lift {A} (r : result CliError A) : looks (clift r).
Proof. done. Qed.
Lemma looks_ret {A} (a : A) : looks (mret a).
Proof. done. Qed.
Lemma looks_read path : looks (cread path).
Proof. done. Qed.
Lemma looks_open id : looks (copen id).
Proof. done. Qed.
Lemma looks_open_32 id corrupt : looks (copen_32 id corrupt).
Proof. unfold copen_32; by repeat (apply looks_bind; [done | intros]). Qed.
Lemma looks_store {A} (f : S -> result CliError A) : looks (cstate (fun s => (s, f s))).
Proof. by intros [[[]]]. Qed.
Lemma keeps_looks {A} (p : cli S K A) : looks p -> keeps p.
Proof. intros Hp n n' r Hr; rewrite (looks_inv _ _ _ _ Hp Hr); apply pkeeps_refl. Qed.
Lemma keeps_memb {A} (m : memb S K A) : mkeeps m -> keeps (cmemb m).
Proof. intros Hm n n' r; unfold cmemb; destruct (m n.1) as [w r1] eqn:Hr; intros [= <- _]; split; [done | by eapply Hm]. Qed.
Lemma keeps_write path bs outcome : keeps (cwrite path bs outcome).
Proof.
  intros n n' r; unfold cwrite, write_new_file; destruct (n.2 !! path) eqn:Hp; [intros [= <- _]; by split; [|apply wkeeps_refl]|].
  destruct outcome; intros [= <- _]; (split; [|apply wkeeps_refl]); cbn [snd]; [by apply insert_subseteq | done | by apply insert_subseteq].
Qed.
Lemma keeps_seal id v : keeps (cseal id v).
Proof.
  intros n n' r; unfold cseal; destruct (Store.seal _ id v) as [k r1] eqn:Hs; intros [= <- _]; split; [done|]; cbn [fst].
  constructor; unfold secrets_of; cbn [fst st_secrets st_state]; [| |by intros m; exists m].
  - destruct r1 as [[]|e]; [apply seal_success in Hs as [-> [?|?]]; [by apply insert_subseteq | by rewrite insert_id]|].
    apply seal_failure in Hs as [->|(_ & ? & ->)]; [done | by apply insert_subseteq].
  - intros P HP Hk; eapply HP in Hk; by rewrite Hs in Hk.
Qed.
Lemma keeps_random {A} (p : rnd CliError A) : keeps (crandom p).
Proof.
  intros n n' r; unfold crandom; destruct (p n.1.2) as [[a ent]|e]; intros [= <- _]; (split; [done|]); by apply wkeeps_grows, grows_same.
Qed.
(** An operation that leaves the store in a state that keeps the records. *)
Lemma keeps_state {A} (f : S -> S * result CliError A) :
  (forall s m s' r, store_rep s m -> f s = (s', r) -> exists m', store_rep s' m' /\ kept m m') -> keeps (cstate f).
Proof.
  intros Hf n n' r; unfold cstate; destruct (f _) as [s' r1] eqn:Hs; intros [= <- _]; split; [done|]; constructor; [done | by intros P|].
  intros m Hm; by eapply Hf.
Qed.
End keeping.
#[export] Hint Resolve looks_lift looks_ret looks_read looks_open looks_open_32 looks_store : readonly.
Create HintDb keeping.
#[export] Hint Resolve keeps_looks keeps_write keeps_seal keeps_random : keeping.

(** Opening a directory again with the same key, after secrets have been sealed or not. *)
Class SecretDirLaws (K : Type) `{SecretStore K} `{SecretDir K} : Prop := {
  opened_again (k : K) key : secrets_open (secrets_open k key) key = secrets_open k key;
  sealed_again (k : K) key id v : secrets_open k key = k -> secrets_open (Store.seal k id v).1 key = (Store.seal k id v).1;
}.

Section commands.
Context `{Led : Ed25519Laws} `{Lblake : Blake3Laws} `{Laead : AeadLaws} `{Lhpke : HpkeLaws} `{Lplatform : Platform} `{Lgen : KeyGen} `{Lkeys : !@KeyGenLaws _ Lplatform Lgen}.
Context `{Lb64 : Base64} `{Lfile : RedbFile} {S K : Type} `{Lstore : StateStoreLaws S} `{Lsecrets : SecretStoreLaws K} `{Lcap : Capable S} `{Lprot : Protected K}.
Context `{Ldir : SecretDir K} `{Ldirs : !SecretDirLaws K}.
Implicit Types (w : World S K) (n : Process S K) (network_id : NetworkId) (dd : NodeDir S K) (files : Files).

Lemma prepare_join_command network_id hours roles out clock outcome :
  NetworkId_wf network_id -> keeps (node_prepare_join (S := S) (K := K) network_id hours roles out clock outcome).
Proof.
  intros Hn; unfold node_prepare_join, print_endpoint; do 2 (apply keeps_bind; [by apply keeps_looks|]; intros ?).
  apply keeps_bind; [by apply keeps_memb, prepare_join_keeps|]; intros prepared; apply keeps_bind; [apply keeps_write|]; intros _.
  apply keeps_bind; [by apply keeps_looks|]; intros; by apply keeps_looks.
Qed.
Lemma join_command root ticket clock : NetworkId_wf (root_network_id root) -> keeps (node_join (S := S) (K := K) root ticket clock).
Proof.
  intros Hn; unfold node_join, print_endpoint; do 4 (apply keeps_bind; [by apply keeps_looks|]; intros ?).
  apply keeps_bind; [by apply keeps_memb, join_keeps|]; intros; apply keeps_bind; intros; by apply keeps_looks.
Qed.
Lemma redeem_command transport arguments clock now' :
  NetworkId_wf (root_network_id arguments.1) -> keeps (node_redeem_invitation (S := S) (K := K) transport arguments clock now').
Proof.
  intros Hn; unfold node_redeem_invitation; apply keeps_bind; [by apply keeps_looks|]; intros.
  apply keeps_bind; [by apply keeps_memb, redeem_keeps|]; intros; by apply keeps_looks.
Qed.
Lemma app_request_key_wf app_addr : AppAddr_wf app_addr -> exists key, app_request_key app_addr = Ok key /\ StoreKey_wf key.
Proof.
  intros Ha; exists (mkStoreKey (bstr "app/request/v1/" ++ AppAddr_as_bytes app_addr)).
  assert (StoreKey_wf (mkStoreKey (bstr "app/request/v1/" ++ AppAddr_as_bytes app_addr))) as Hw.
  { unfold StoreKey_wf, len; cbn [StoreKey_as_bytes]; rewrite length_app, Ha; change (length (bstr "app/request/v1/")) with 15%nat; unfold MAX_KEY_LEN; lia. }
  split; [by apply StoreKey_new_wf | done].
Qed.
Lemma app_prepare_command network_id policy out root_out outcome root_outcome :
  NetworkId_wf network_id -> keeps (app_prepare (S := S) (K := K) network_id policy out root_out outcome root_outcome).
Proof.
  intros Hn; unfold app_prepare; cbv zeta; apply keeps_bind; [apply keeps_random|]; intros app_root; apply keeps_bind; [apply keeps_seal|]; intros _.
  apply keeps_bind; [|intros _; apply keeps_bind; [apply keeps_write|]; intros _; destruct root_out; [apply keeps_write | by apply keeps_looks]].
  apply keeps_state; intros s m s' r Hrep; unfold keep_request.
  destruct (app_request_key_wf _ (derive_app_addr_wf (AppRootKey_public_bytes app_root))) as (key & Hk & Hw); unfold AppRootKey_app_addr; rewrite Hk; cbn [mbind result_bind].
  destruct (AtomicBatch_put _ _ _ _) as [b|] eqn:Hb; [|intros [= <- _]; by exists m]; destruct (commit s b) as [s1 v] eqn:Hc; intros [= <- _].
  eapply put_missing_added in Hb as (m' & Hm' & Ha); [| |done|done|done]; [|done]; exists m'; split; [done | by apply added_kept].
Qed.
Lemma open_app_root_looks network_id app_addr : looks (open_app_root (S := S) (K := K) network_id app_addr).
Proof. unfold open_app_root; apply looks_bind; [apply looks_open_32|]; intros; by apply looks_bind. Qed.
Lemma open_member_looks network_id : looks (open_member (S := S) (K := K) network_id).
Proof.
  unfold open_member; apply looks_bind; [done|]; intros key; apply looks_bind; [apply looks_store|]; intros record.
  do 2 (apply looks_bind; [done|]; intros ?); apply looks_bind; [apply looks_open_32|]; intros; by apply looks_bind.
Qed.
Lemma app_bind_command network_id app_addr role days out clock outcome :
  keeps (node_app_bind (S := S) (K := K) network_id app_addr role days out clock outcome).
Proof.
  unfold node_app_bind; apply keeps_bind; [apply keeps_looks, open_app_root_looks|]; intros app_root.
  apply keeps_bind; [apply keeps_looks, open_member_looks|]; intros [member signing]; apply keeps_bind; [by apply keeps_looks|]; intros expires.
  destruct (binding_role _ _ _ _); apply keeps_bind; [by apply keeps_looks|]; intros; apply keeps_write.
Qed.
Lemma open_encryption_looks network_id : looks (open_encryption (S := S) (K := K) network_id).
Proof. unfold open_encryption; apply looks_bind; [apply looks_open_32 | done]. Qed.
Lemma open_persisted_keeps root encryption clock :
  NetworkId_wf (root_network_id root) -> keeps (open_persisted (S := S) (K := K) root encryption clock).
Proof.
  intros Hn; unfold open_persisted; apply keeps_bind; [by apply keeps_looks|]; intros now; apply keeps_state; intros s m s' r Hrep.
  destruct (ConfigState_open s root encryption now) as [s1 r1] eqn:Ho; intros [= <- _].
  destruct (ConfigState_open_added _ _ _ _ _ _ _ Hrep Hn Ho) as (m' & Hm' & Ha & _); exists m'; split; [done | by apply added_kept].
Qed.
(** Opening the state, looking up what to apply and applying it. *)
Lemma open_apply_keeps root encryption clock clock' (find : PersistedConfigState S -> cli S K ConfigUpdateBatch) :
  NetworkId_wf (root_network_id root) -> (forall st, looks (find st)) -> (forall st n updates, (find st n).2 = Ok updates -> batch_typed updates) ->
  keeps (persisted ← open_persisted root encryption clock; updates ← find persisted; apply_persisted persisted updates clock';; mret tt).
Proof.
  intros Hn Hl Ht n n' r [(st & n1 & Ho & Hr)|(e & Ho & _)]%cli_bind_inv; [|by eapply open_persisted_keeps].
  apply cli_bind_inv in Hr as [(updates & n2 & Hu & Hr)|(e & Hu & _)]; pose proof (looks_inv _ _ _ _ (Hl st) Hu); subst;
    [|by eapply open_persisted_keeps].
  specialize (Ht st n1 updates ltac:(by rewrite Hu)); unfold open_persisted in Ho; cbv [mbind cli_bind clift] in Ho.
  destruct (node_now_ms clock) as [now|]; [|done]; unfold cstate in Ho; destruct (ConfigState_open (st_state n.1.1) root encryption now) as [s1 r1] eqn:Hopen.
  injection Ho as <- Hst%map_err_Ok; unfold apply_persisted in Hr; cbv [mbind cli_bind clift mret cli_ret] in Hr.
  assert (forall s', (forall m, store_rep (st_state n.1.1) m -> exists m', store_rep s' m' /\ kept m m') ->
    pkeeps n (mkStores s' (st_secrets n.1.1) (st_allow_insecure_test_stores n.1.1), n.1.2, n.2)) as Hend
    by (intros s' Hs; split; [done|]; constructor; [done | by intros P | done]).
  destruct (node_now_ms clock') as [now'|]; [|injection Hr as <- _; apply Hend; intros m Hm;
    destruct (ConfigState_open_added _ _ _ _ _ _ _ Hm Hn Hopen) as (m' & Hm' & Ha & _); exists m'; split; [done | by apply added_kept]].
  unfold cstate in Hr; destruct (ConfigState_apply st updates now') as [st' r2] eqn:Ha.
  assert (n' = (mkStores (cs_store st') (st_secrets n.1.1) (st_allow_insecure_test_stores n.1.1), n.1.2, n.2)) as -> by (destruct r2; cbn in Hr; congruence).
  apply Hend; intros m Hm; destruct (ConfigState_open_added _ _ _ _ _ _ _ Hm Hn Hopen) as (m1 & Hm1 & Had & Hst').
  destruct (Hst' _ Hst) as (Hcs & Hroot & Hhead); rewrite <- Hcs in Hm1; rewrite <- Hroot in Hhead, Hn.
  destruct (ConfigState_apply_kept _ _ _ _ _ _ Hm1 Hn Ht Hhead Ha) as (m' & Hm' & Hk); exists m'; split; [done|]; etrans; [by apply added_kept | done].
Qed.
Lemma fetch_typed dialer transport target head updates : fetch_config_updates dialer transport target head = Ok updates -> batch_typed updates.
Proof. unfold fetch_config_updates; intros Hf; res_inv; match goal with Hb : Batch_from_bytes _ = Ok _ |- _ => by apply Batch_wire_backward in Hb as [? _] end. Qed.
Lemma apply_updates_command updates clock clock' root :
  NetworkId_wf (root_network_id root) -> keeps (apply_updates (S := S) (K := K) updates clock clock' root).
Proof.
  intros Hn; unfold apply_updates; apply keeps_bind; [apply keeps_looks, open_encryption_looks|]; intros encryption.
  apply keeps_bind; [by apply keeps_looks|]; intros raw n n' r Hr; destruct (Batch_from_bytes raw) as [u|] eqn:Hb; [|injection Hr as <- _; apply pkeeps_refl].
  eapply (open_apply_keeps root encryption clock clock' (fun _ => mret u)); [done|done| |exact Hr].
  intros st n0 updates0 [= <-]; by apply Batch_wire_backward in Hb as [? _].
Qed.
Lemma status_command clock root : NetworkId_wf (root_network_id root) -> keeps (node_status (S := S) (K := K) clock root).
Proof.
  intros Hn; unfold node_status; apply keeps_bind; [apply keeps_looks, open_encryption_looks|]; intros.
  apply keeps_bind; [by apply open_persisted_keeps|]; intros; by apply keeps_looks.
Qed.
Lemma sync_command transport peer bound online clock clock' root :
  NetworkId_wf (root_network_id root) -> keeps (sync (S := S) (K := K) transport peer bound online clock clock' root).
Proof.
  intros Hn; unfold sync; apply keeps_bind; [apply keeps_looks, open_encryption_looks|]; intros; apply open_apply_keeps; [done| |].
  - intros st; unfold fetch_from_relay; apply looks_bind; [done|]; intros; apply looks_bind; [apply looks_open_32|]; intros; by repeat (apply looks_bind; intros).
  - intros st n updates; unfold fetch_from_relay; cbv [mbind cli_bind clift]; destruct (find_relay _ _); [|done].
    destruct (copen_32 _ _ _) as [n1 [secret|]]; [|done]; destruct (map_err _ (WeaverEndpoint_bind _ _)) as [e|]; [|done].
    destruct (map_err _ (wait_relay_online _ _ _)); [|done]; intros Hf%map_err_Ok; by apply fetch_typed in Hf.
Qed.

(** ** Runs of the tool *)
Definition command_typed (c : NodeCommand) : Prop :=
  match c with PrepareJoin net _ _ _ _ _ | AppPrepare net _ _ _ _ _ => NetworkId_wf net | _ => True end.
(** The secrets of a directory under a key. *)
Definition dir_secrets dd (key : bytes) : gmap SecretId bytes := secret_view (secrets_open (nd_secrets dd) key).
Record node_keeps (key : bytes) (st st' : NodeDir S K * Files) : Prop := {
  nk_files : st.2 ⊆ st'.2;
  nk_secrets : dir_secrets st.1 key ⊆ dir_secrets st'.1 key;
  nk_state m : store_rep (nd_state st.1) m -> exists m', store_rep (nd_state st'.1) m' /\ kept m m';
}.
Lemma node_keeps_refl key st : node_keeps key st st.
Proof. by constructor; [| |intros m; exists m]. Qed.
Lemma node_keeps_trans key st st1 st' : node_keeps key st st1 -> node_keeps key st1 st' -> node_keeps key st st'.
Proof.
  intros [Ha Hb Hc] [Ha' Hb' Hc']; constructor; [by etrans.. |].
  intros m (m1 & Hm1 & Hk1)%Hc; apply Hc' in Hm1 as (m2 & Hm2 & Hk2); exists m2; split; [done | by etrans].
Qed.
Lemma open_stores_Ok dd files env key w :
  files !! pe_master_key_file env = Some key -> open_stores dd files env = Ok w ->
  w = (mkStores (nd_state dd) (secrets_open (nd_secrets dd) key) false, pe_entropy env).
Proof.
  intros Hk Ho; unfold open_stores, read_master_key in Ho; rewrite Hk in Ho; apply bind_Ok in Ho as (k & Hr%map_err_Ok & Ho).
  apply bind_Ok in Hr as (k' & [= <-] & Hr); apply bind_Ok in Hr as (u & _ & [= <-]).
  do 2 (apply bind_Ok in Ho as (? & _ & Ho)); by injection Ho as <-.
Qed.
Lemma run_node_keeps {A} dd files env key (first : result CliError A) run :
  files !! pe_master_key_file env = Some key -> (forall a, first = Ok a -> keeps (run a)) ->
  node_keeps key (dd, files) (run_node dd files env first run).1.
Proof.
  intros Hk Hrun; unfold run_node; destruct (_ ≫= _) as [[a w]|e] eqn:Hf; [|apply node_keeps_refl].
  apply bind_Ok in Hf as (a' & Ha & Hf); apply bind_Ok in Hf as (w' & Hw & [= <- <-]); apply (open_stores_Ok _ _ _ _ _ Hk) in Hw as ->.
  destruct (run a' _) as [n r] eqn:Hr; apply (Hrun _ Ha) in Hr as [Hfiles [Hse Hsd Hst]]; constructor; [done| |done].
  unfold dir_secrets; cbn [fst nd_secrets]; replace (secrets_open (st_secrets n.1.1) key) with (st_secrets n.1.1); [exact Hse|].
  symmetry; apply (Hsd (fun k => secrets_open k key = k)); [intros; by apply sealed_again | apply opened_again].
Qed.
Lemma root_argument_wf text root : root_argument text = Ok root -> NetworkId_wf (root_network_id root).
Proof.
  intros (bs & _ & Hr%map_err_Ok)%bind_Ok; unfold NetworkRootPublic_from_bytes in Hr; res_inv; apply derive_key_len.
Qed.
Lemma node_main_keeps st c env key :
  st.2 !! pe_master_key_file env = Some key -> command_typed c -> node_keeps key st (node_main st (c, env)).1.
Proof.
  destruct st as [dd files]; cbn [snd]; intros Hk Hc; unfold node_main; cbn [fst snd]; destruct c; apply run_node_keeps; try done; intros a Ha.
  - by apply prepare_join_command.
  - by apply join_command, (root_argument_wf root_public_key).
  - apply bind_Ok in Ha as (root & Hroot%root_argument_wf & Ha); apply bind_Ok in Ha as (? & _ & Ha); apply bind_Ok in Ha as (? & _ & Ha).
    apply bind_Ok in Ha as (i & _ & [= <-]); by apply redeem_command.
  - by apply app_prepare_command.
  - apply app_bind_command.
  - by apply apply_updates_command, (root_argument_wf root_public_key).
  - by apply status_command, (root_argument_wf root_public_key).
  - by apply sync_command, (root_argument_wf root_public_key).
Qed.
Lemma node_main_all_keeps st cs file key :
  st.2 !! file = Some key -> Forall (fun c => command_typed c.1 /\ pe_master_key_file c.2 = file) cs -> node_keeps key st (node_main_all st cs).
Proof.
  intros Hk Hcs; revert st Hk; induction Hcs as [|[c env] cs [Hty Hf] _ IH]; intros st Hk; [apply node_keeps_refl|]; cbn [fst snd] in *; subst file.
  pose proof (node_main_keeps st c env key Hk Hty) as Hstep; cbn [node_main_all foldl].
  eapply node_keeps_trans; [exact Hstep|]; apply IH; eapply lookup_weaken; [exact Hk | apply Hstep].
Qed.
(** C19: the tool of a node loses nothing.  Over any sequence of commands with one master
    key, whatever they are given, whatever the clock, the network, the random source and
    the file system answer, and whether they succeed or not: no file is changed or removed,
    every secret can still be opened, no record of the state store changes except the
    checkpoint of a configuration, which only moves forward, and the request of a join that
    has not been made. *)
Theorem node_commands_lose_nothing (dd : NodeDir S K) (files : Files) (m : records) (cs : list (NodeCommand * ProcessEnv)) (file key : bytes) :
  files !! file = Some key -> Forall (fun c => command_typed c.1 /\ pe_master_key_file c.2 = file) cs -> store_rep (nd_state dd) m ->
  let '(dd', files') := node_main_all (dd, files) cs in
  files ⊆ files' /\ dir_secrets dd key ⊆ dir_secrets dd' key /\ exists m', store_rep (nd_state dd') m' /\ kept m m'.
Proof.
  intros Hk Hcs Hrep; pose proof (node_main_all_keeps (dd, files) cs file key Hk Hcs) as [Hf Hs Hm].
  destruct (node_main_all (dd, files) cs) as [dd' files']; cbn [fst snd] in *; split_and!; [done | done | by apply Hm].
Qed.

(** ** Applications *)
Lemma cli_bind_Ok {A B} (p : cli S K A) (f : A -> cli S K B) n n' b :
  (p ≫= f) n = (n', Ok b) -> exists a n1, p n = (n1, Ok a) /\ f a n1 = (n', Ok b).
Proof. intros [?|(e & _ & ?)]%cli_bind_inv; done. Qed.
Lemma clift_Ok {A} (r : result CliError A) n n' a : clift r n = (n', Ok a) -> n' = n /\ r = Ok a.
Proof. by intros [= <- ->]. Qed.
Lemma cwrite_Ok path bs outcome n n' : cwrite (S := S) (K := K) path bs outcome n = (n', Ok tt) -> n'.1 = n.1 /\ n'.2 !! path = Some bs.
Proof.
  unfold cwrite, write_new_file; destruct (n.2 !! path); [done|]; destruct outcome; try done; intros [= <-]; split; [done | apply lookup_insert_eq].
Qed.
Lemma copen_32_Ok id corrupt n n' v :
  copen_32 (S := S) (K := K) id corrupt n = (n', Ok v) -> n' = n /\ secrets_of n.1 !! id = Some v /\ length v = 32%nat.
Proof.
  intros (x & n1 & Hx & Hv)%cli_bind_Ok; injection Hx as <- Hx%map_err_Ok%open_view; apply cli_bind_Ok in Hv as ([] & n2 & [-> Hl%fail_if_Ok]%clift_Ok & Hv).
  injection Hv as <- <-; bool_inv; by rewrite Nat.eqb_eq in Hl.
Qed.
Lemma app_prepare_Ok network_id policy out root_out outcome root_outcome n n' :
  app_prepare (S := S) (K := K) network_id policy out root_out outcome root_outcome n = (n', Ok tt) ->
  exists app_root, length (app_seed app_root) = 32%nat /\
    secrets_of n'.1 !! app_secret_id network_id (AppRootKey_app_addr app_root) = Some (app_seed app_root) /\
    n'.2 !! out = Some (to_bytes (AppRegistrationRequest_create app_root network_id policy)).
Proof.
  unfold app_prepare; intros (app_root & n1 & Hr & Hp)%cli_bind_Ok; cbv zeta in Hp; exists app_root.
  apply cli_bind_Ok in Hp as ([] & n2 & Hs & Hp); apply cli_bind_Ok in Hp as ([] & n3 & Hk & Hp); apply cli_bind_Ok in Hp as ([] & n4 & Hw & Hp).
  apply cwrite_Ok in Hw as [Hw1 Hw2]; assert (n'.1 = n4.1 /\ n4.2 ⊆ n'.2) as [Hsame Hsub].
  { destruct root_out; [|by injection Hp as <-]; split; [by apply cwrite_Ok in Hp as [? _] | by apply keeps_write in Hp as [? _]]. }
  unfold crandom in Hr; destruct (rmap_err CliCrypto AppRootKey_generate n.1.2) as [[x ent]|] eqn:Hg; [|done]; injection Hr as _ ->.
  unfold cseal in Hs; destruct (Store.seal _ _ _) as [k rs] eqn:Hse; injection Hs as <- Hs%map_err_Ok; subst rs; apply seal_success in Hse as [Hse _].
  unfold cstate in Hk; destruct (keep_request _ _ _ _) as [s' rk]; injection Hk as <- _; cbn [fst st_secrets] in *.
  split_and!; [|rewrite Hsame, Hw1; unfold secrets_of; cbn [fst st_secrets]; by rewrite Hse, lookup_insert_eq | by eapply lookup_weaken].
  unfold rmap_err, AppRootKey_generate in Hg; destruct (_ ≫= _) as [[y e1]|] eqn:Hy in Hg; [|done]; injection Hg as -> _.
  by apply rnd_bind_Ok in Hy as (k1 & e2 & Hy%SigningKeypair_generate_len & [= <- _]).
Qed.
(** What a binding is made of. *)
Record bound_by n network_id (app_addr : AppAddr) (role : AppRoleArg) (days clock : Z) (app_root : AppRootKey) (member : MemberCertificate)
    (binding : AppBinding) : Prop := {
  bb_secret : secrets_of n.1 !! app_secret_id network_id app_addr = Some (app_seed app_root);
  bb_length : length (app_seed app_root) = 32%nat;
  bb_addr : AppRootKey_app_addr app_root = app_addr;
  bb_member : exists record, read (st_state n.1.1) (StoreScope_member network_id) certificate_key = Ok (Some record) /\
    MemberCertificate_from_bytes (vb_bytes record) = Ok member;
  bb_issued : exists signing expires_at_ms, binding_expiry member days clock = Ok expires_at_ms /\
    AppBinding_issue app_root network_id (mc_member_id (payload member)) (binding_role network_id app_addr signing role).1
      (binding_role network_id app_addr signing role).2 expires_at_ms [] = Ok binding;
}.
Lemma node_app_bind_Ok network_id app_addr role days out clock outcome n n' :
  node_app_bind (S := S) (K := K) network_id app_addr role days out clock outcome n = (n', Ok tt) ->
  exists app_root member binding, bound_by n network_id app_addr role days clock app_root member binding /\ n'.2 !! out = Some (to_bytes binding).
Proof.
  unfold node_app_bind; intros (app_root & n1 & Hr & Hb)%cli_bind_Ok; pose proof (looks_inv _ _ _ _ (open_app_root_looks _ _) Hr) as ->.
  apply cli_bind_Ok in Hb as ([member signing] & n1 & Hm & Hb); pose proof (looks_inv _ _ _ _ (open_member_looks _) Hm) as ->.
  apply cli_bind_Ok in Hb as (expires & n1 & [-> He]%clift_Ok & Hb); destruct (binding_role _ _ _ _) as [arole device] eqn:Hrole.
  apply cli_bind_Ok in Hb as (binding & n1 & [-> Hi%map_err_Ok]%clift_Ok & [_ Hw]%cwrite_Ok).
  unfold open_app_root in Hr; apply cli_bind_Ok in Hr as (secret & n1 & (-> & Hs & Hl)%copen_32_Ok & Hr); cbv zeta in Hr.
  apply cli_bind_Ok in Hr as ([] & n1 & [-> Ha%fail_if_Ok]%clift_Ok & Hr); injection Hr as <-; bool_inv.
  unfold open_member in Hm; rewrite (proj1 (proj2 membership_keys_ok)) in Hm; apply cli_bind_Ok in Hm as (key & n1 & [-> [= <-]]%clift_Ok & Hm).
  apply cli_bind_Ok in Hm as (record & n1 & Hread & Hm); unfold cstate in Hread; injection Hread as <- Hread%map_err_Ok.
  apply cli_bind_Ok in Hm as (rec & n1 & [_ ->%ok_or_Ok]%clift_Ok & Hm); apply cli_bind_Ok in Hm as (mem & n2 & [_ Hmem%map_err_Ok]%clift_Ok & Hm).
  apply cli_bind_Ok in Hm as (sec & n3 & _ & Hm); cbv zeta in Hm; apply cli_bind_Ok in Hm as ([] & n4 & _ & Hm); injection Hm as _ <- _.
  exists (AppRootKey_from_bytes secret), mem, binding; split; [|done]; constructor; cbn [app_seed]; try done; [eauto|].
  exists signing, expires; by rewrite Hrole.
Qed.
Lemma binding_expiry_Ok member days clock expires_at_ms :
  binding_expiry member days clock = Ok expires_at_ms -> 0 <= clock < expires_at_ms /\ expires_at_ms <= mc_expires_at_ms (payload member).
Proof.
  unfold binding_expiry, node_now_ms; intros (now & Hn & Hb)%bind_Ok; apply bind_Ok in Hn as (u & Hc%fail_if_Ok & <-%Ok_inj).
  apply bind_Ok in Hb as (e & _ & Hb); apply bind_Ok in Hb as (v & Hx%fail_if_Ok & <-%Ok_inj); bool_inv; lia.
Qed.
Lemma bound_by_verifies n network_id app_addr role days clock app_root member binding :
  NetworkId_wf network_id -> bound_by n network_id app_addr role days clock app_root member binding ->
  AppBinding_from_bytes (to_bytes binding) = Ok binding /\
  clock < ab_expires_at_ms (payload binding) <= mc_expires_at_ms (payload member) /\
  forall va vm now, now < ab_expires_at_ms (payload binding) -> ar_network_id (vapp_payload va) = network_id ->
    mc_network_id (vm_payload vm) = network_id -> ar_app_addr (vapp_payload va) = app_addr ->
    ar_app_root_public_key (vapp_payload va) = AppRootKey_public_bytes app_root ->
    mc_member_id (vm_payload vm) = mc_member_id (payload member) -> AppBinding_verify binding va vm network_id now = Ok tt.
Proof.
  intros Hn [_ Hl Ha (record & _ & Hm) (signing & expires & He & Hi)]; apply binding_expiry_Ok in He as He'; destruct He' as [Hc Hx].
  apply MemberCertificate_from_bytes_exact in Hm as [(Hw & _ & _) _]; destruct Hw as (_ & Hid & _ & _ & _ & _ & _ & Hu & _).
  assert (ab_expires_at_ms (payload binding) = expires) as Hexp by (unfold AppBinding_issue in Hi; res_inv; done); rewrite Hexp.
  apply AppBinding_issue_wf in Hi as [Hwf Hv]; [|done|done|done| | |constructor].
  - split_and!; [by apply AppBinding_from_bytes_exact | lia..|]; intros; apply Hv; congruence.
  - intros d Hd; destruct role; [done|]; injection Hd as <-; apply derive_key_len.
  - unfold is_u64 in *; bool_inv; lia.
Qed.
(** A process that has done what it was to do. *)
Lemma run_node_Ok {A} dd files env key (first : result CliError A) run st :
  files !! pe_master_key_file env = Some key -> (forall a, first = Ok a -> keeps (run a)) -> run_node dd files env first run = (st, Ok tt) ->
  exists a w n, first = Ok a /\ w = (mkStores (nd_state dd) (secrets_open (nd_secrets dd) key) false, pe_entropy env) /\
    run a (w, files) = (n, Ok tt) /\ st.2 = n.2 /\ dir_secrets st.1 key = secrets_of n.1.
Proof.
  intros Hk Hrun; unfold run_node; destruct (_ ≫= _) as [[a w]|e] eqn:Hf; [|done].
  apply bind_Ok in Hf as (a' & Ha & Hf); apply bind_Ok in Hf as (w' & Hw & [= <- <-]); apply (open_stores_Ok _ _ _ _ _ Hk) in Hw as ->.
  destruct (run a' _) as [n r] eqn:Hr; intros [= <- ->]; exists a', (mkStores (nd_state dd) (secrets_open (nd_secrets dd) key) false, pe_entropy env), n.
  split_and!; try done; apply (Hrun _ Ha) in Hr as [_ [_ Hsd _]]; unfold dir_secrets, secrets_of; cbn [fst nd_secrets]; f_equal.
  apply (Hsd (fun k => secrets_open k key = k)); [intros; by apply sealed_again | apply opened_again].
Qed.
(** C22: an application that a node has prepared can be bound to its member.  The request
    that [app-prepare] writes is one the authority accepts, for the address of a fresh
    application root; and after any commands that follow, if [app-bind] for that address
    succeeds, it uses the same root: the binding it writes is valid for the application
    registered with the request and for the member whose certificate the node holds, until
    it expires, which is after the present and no later than the certificate. *)
Theorem prepared_application_binds (st st1 : NodeDir S K * Files) (network_id : NetworkId) (policy : Z) (out file key : bytes)
    (root_out : option bytes) (outcome root_outcome : WriteOutcome) (env : ProcessEnv) (cs : list (NodeCommand * ProcessEnv)) :
  st.2 !! file = Some key -> NetworkId_wf network_id -> is_u32 policy = true -> pe_master_key_file env = file ->
  Forall (fun c => command_typed c.1 /\ pe_master_key_file c.2 = file) cs ->
  node_main st (AppPrepare network_id policy out root_out outcome root_outcome, env) = (st1, Ok tt) ->
  exists raw request, st1.2 !! out = Some raw /\ AppRegistrationRequest_from_bytes raw = Ok request /\
    AppRegistrationRequest_verify request network_id = Ok (mkVerifiedAppRequest (payload request)) /\ rq_policy (payload request) = policy /\
    forall role days out' clock outcome' env' st2, pe_master_key_file env' = file ->
      let st' := node_main_all st1 cs in
      node_main st' (NodeAppBind network_id (rq_app_addr (payload request)) role days out' clock outcome', env') = (st2, Ok tt) ->
      exists record member raw' binding,
        read (nd_state st'.1) (StoreScope_member network_id) certificate_key = Ok (Some record) /\
        MemberCertificate_from_bytes (vb_bytes record) = Ok member /\
        st2.2 !! out' = Some raw' /\ AppBinding_from_bytes raw' = Ok binding /\
        clock < ab_expires_at_ms (payload binding) <= mc_expires_at_ms (payload member) /\
        forall va vm now, now < ab_expires_at_ms (payload binding) -> ar_network_id (vapp_payload va) = network_id ->
          mc_network_id (vm_payload vm) = network_id -> ar_app_addr (vapp_payload va) = rq_app_addr (payload request) ->
          ar_app_root_public_key (vapp_payload va) = rq_app_root_public_key (payload request) ->
          mc_member_id (vm_payload vm) = mc_member_id (payload member) -> AppBinding_verify binding va vm network_id now = Ok tt.
Proof.
  intros Hk Hn Hp Hf Hcs Hm; pose proof (node_main_keeps st (AppPrepare network_id policy out root_out outcome root_outcome) env key ltac:(by rewrite Hf) Hn) as Hkeep.
  rewrite Hm in Hkeep; unfold node_main in Hm; cbn [fst snd] in Hm; subst file.
  apply (run_node_Ok _ _ _ key) in Hm as (u & w & n & _ & _ & Hrun & Hfiles & Hsec); [|done|intros; by apply app_prepare_command].
  apply app_prepare_Ok in Hrun as (app_root & Hl & Hs & Ho); destruct (AppRegistrationRequest_create_wf app_root network_id policy Hl Hn Hp) as [Hw Hv].
  eexists _, (AppRegistrationRequest_create app_root network_id policy); split; [by rewrite Hfiles|].
  split; [by apply AppRegistrationRequest_from_bytes_exact|]; split_and!; [done|done|]; intros role days out' clock outcome' env' st2 Henv st' Hb.
  assert (st'.2 !! pe_master_key_file env' = Some key) as Hk'.
  { rewrite Henv; eapply lookup_weaken; [|apply (node_main_all_keeps st1 cs (pe_master_key_file env) key); [|done]]; (eapply lookup_weaken; [exact Hk | apply Hkeep]). }
  assert (dir_secrets st1.1 key ⊆ dir_secrets st'.1 key) as Hsub.
  { apply (node_main_all_keeps st1 cs (pe_master_key_file env) key); [|done]; eapply lookup_weaken; [exact Hk | apply Hkeep]. }
  unfold node_main in Hb; cbn [fst snd] in Hb; apply (run_node_Ok _ _ _ key) in Hb as (u' & w' & n' & _ & -> & Hrun & Hfiles' & _); [|done|intros; apply app_bind_command].
  apply node_app_bind_Ok in Hrun as (root' & member & binding & Hbb & Hout); pose proof (bb_secret _ _ _ _ _ _ _ _ _ Hbb) as Hs'.
  rewrite <- Hsec in Hs; eapply lookup_weaken in Hs; [|exact Hsub]; unfold secrets_of in Hs'; cbn [fst st_secrets] in Hs'; unfold dir_secrets in Hs.
  assert (root' = app_root) as -> by (destruct root', app_root; cbn in *; congruence).
  destruct (bb_member _ _ _ _ _ _ _ _ _ Hbb) as (record & Hread & Hmem); destruct (bound_by_verifies _ _ _ _ _ _ _ _ _ Hn Hbb) as (Hpar & Hexp & Hver).
  exists record, member, (to_bytes binding), binding; split_and!; try done; try apply Hexp; by rewrite Hfiles'.
Qed.
End commands.

#[global] Instance FileSecretDirLaws `{HexLaws} `{AeadLaws} : SecretDirLaws EncryptedFileSecretStore.
Proof.
  constructor; [done|]; intros [d mk] key id v; unfold secrets_open, FileSecretDir; cbn [fs_disk]; intros [= ->]; cbn [Store.seal FileSecretStore fs_master_key fs_disk].
  by destruct (spawn_blocking _ _).
Qed.

(** ** A concrete node *)
Module NodeCliWitness.
Import Samples EnvelopeWitness ConfigStateWitness AuthorityWitness RelayWitness NetworkHandleWitness.
#[local] Existing Instance InitializeWitness.platform32.
#[global] Instance memory_dir_laws : SecretDirLaws (gmap SecretId bytes).
Proof. by constructor. Qed.

(** The revision after the node's own. *)
Definition later : NetworkConfigV1 := Eval vm_compute in {|
  cfg_network_id := cfg_network_id home; cfg_epoch := cfg_epoch home; cfg_revision := 2;
  cfg_previous_hash := envelope_hash home_envelope; cfg_issued_at_ms := cfg_issued_at_ms home; cfg_expires_at_ms := cfg_expires_at_ms home;
  cfg_admin_keys := cfg_admin_keys home; cfg_members := cfg_members home; cfg_endpoint_bindings := cfg_endpoint_bindings home;
  cfg_revoked_serials := cfg_revoked_serials home; cfg_apps := cfg_apps home; cfg_app_bindings := cfg_app_bindings home;
  cfg_virtual_dns := cfg_virtual_dns home; cfg_relays := cfg_relays home; cfg_presence_services := cfg_presence_services home;
  cfg_epoch_secrets := cfg_epoch_secrets home; cfg_policies := cfg_policies home |}.
Definition later_envelope : EncryptedConfigEnvelope := Eval vm_compute in
  (ok_else (no_envelope, [])
     (seal_next_config root_public toy_admin (mkValidated home) (envelope_head home_envelope) later [toy_encryption] 300 random)).1.
Definition later_updates : bytes := Eval vm_compute in
  ok_else [] (Batch_to_bytes (mkBatch toy_network (envelope_head home_envelope) [Envelope_to_bytes later_envelope])).
Definition node_records : records := <[(scope, certificate_key) := mkVersionedBytes 5 (to_bytes mc)]> (ms_records home_store).
Definition node_secrets : gmap SecretId bytes :=
  <[member_secret_id toy_network SIGNING_LABEL := repeat Byte.x33 32]> (<[member_secret_id toy_network ENCRYPTION_LABEL := toy_encryption]> ∅).
Definition node_dir : NodeDir MemoryState (gmap SecretId bytes) := mkNodeDir (mkMemoryState 1 6 6 node_records) node_secrets false.
Definition updates_file : bytes := bstr "updates".
Definition node_files : Files := <[updates_file := later_updates]> key_files.
Definition env (ent : entropy) : ProcessEnv := mkProcessEnv key_file true ent.
Definition root_hex : bytes := Eval vm_compute in encode_hex (repeat Byte.x11 32).
Definition preparing : NodeCommand := AppPrepare toy_network 7 (bstr "request") (Some (bstr "root")) Written Written.
Definition fresh : entropy := [Some (repeat Byte.x45 32)].
Definition fresh_addr : AppAddr := Eval vm_compute in AppRootKey_app_addr (AppRootKey_from_bytes (repeat Byte.x45 32)).
Definition updating : NodeCommand * ProcessEnv := (ApplyUpdates root_hex updates_file 300 300, env []).
Definition prepared_node := node_main (node_dir, node_files) (preparing, env fresh).
Definition binding_node := node_main (node_main_all prepared_node.1 [updating]) (NodeAppBind toy_network fresh_addr AppClient 30 (bstr "binding") 310 Written, env []).
Lemma node_works : (prepared_node.2, (node_main prepared_node.1 updating).2, binding_node.2) = (Ok tt, Ok tt, Ok tt).
Proof. vm_compute; reflexivity. Qed.
Lemma triple_inj {A B C} (a a' : A) (b b' : B) (c c' : C) : (a, b, c) = (a', b', c') -> a = a' /\ b = b' /\ c = c'.
Proof. by intros [= -> -> ->]. Qed.
#[local] Opaque node_main later_updates.
Lemma node_binds : binding_node.2 = Ok tt.
Proof. exact (proj2 (proj2 (triple_inj _ _ _ _ _ _ node_works))). Qed.
Lemma node_key : node_files !! key_file = Some (repeat Byte.xcc 32).
Proof. unfold node_files, key_files; rewrite lookup_insert_ne by (intros Heq%(f_equal length); discriminate Heq); apply lookup_singleton_eq. Qed.
Lemma updating_typed : Forall (fun c => command_typed c.1 /\ pe_master_key_file c.2 = key_file) [updating].
Proof. repeat constructor. Qed.
Lemma node_prepares : node_main (node_dir, node_files) (preparing, env fresh) = (prepared_node.1, Ok tt).
Proof. rewrite (surjective_pairing (node_main _ _)); f_equal; exact (proj1 (triple_inj _ _ _ _ _ _ node_works)). Qed.
#[local] Opaque prepared_node binding_node node_dir node_files.
Lemma node_commands_lose_nothing_witness :
  let '(dd', files') := node_main_all (node_dir, node_files) [updating] in
  node_files ⊆ files' /\ dir_secrets node_dir (repeat Byte.xcc 32) ⊆ dir_secrets dd' (repeat Byte.xcc 32) /\
  exists m', store_rep (nd_state dd') m' /\ kept (ms_records (nd_state node_dir)) m'.
Proof.
  pose proof (node_commands_lose_nothing node_dir node_files (ms_records (nd_state node_dir)) [updating] key_file (repeat Byte.xcc 32)
    node_key updating_typed (memory_rep _)) as Hkept; exact Hkept.
Defined.
Lemma prepared_application_binds_witness :
  binding_node.2 = Ok tt /\
  exists raw request, prepared_node.1.2 !! bstr "request" = Some raw /\ AppRegistrationRequest_from_bytes raw = Ok request /\
    AppRegistrationRequest_verify request toy_network = Ok (mkVerifiedAppRequest (payload request)) /\ rq_policy (payload request) = 7.
Proof.
  split; [exact node_binds|].
  destruct (prepared_application_binds (node_dir, node_files) prepared_node.1 toy_network 7 (bstr "request") key_file (repeat Byte.xcc 32)
    (Some (bstr "root")) Written Written (env fresh) [updating] node_key eq_refl eq_refl eq_refl updating_typed node_prepares)
    as (raw & request & Hraw & Hreq & Hver & Hpol & _); exists raw, request; split_and!; done.
Defined.
End NodeCliWitness.
